(* ===== verification/_CoqProject ===== *)
-Q . S2P
Prelude.v
Programs.v
Rand.v
Store.v
Slab.v
Driver.v
SharedFd.v
Buffers.v
TaskState.v
Task.v
Builder.v
RuntimeDrop.v
InodeTable.v
Wire.v
KernelInterface.v
Time.v
Argument.v
Operation.v
Request.v
KernelConfig.v
Response.v
Listing.v
Reply.v
Paths.v
Text.v
KvStore.v
H2Service.v
Settings.v
Worker.v
Session.v
Defaults.v
UringFs.v
FuserRequest.v
FuserReply.v
FuserSession.v
Mounted.v
UringMount.v
FairyFS.v
FuseMT.v
MtDefaults.v
FuseMTRuns.v
MountOptions.v
Mount.v
Unmount.v
Passthrough.v
PassthroughRuns.v
File.v
SimpleAttr.v
SimpleFS.v
SimpleTree.v
SimpleRep.v
SimpleRefine.v
SimpleQuiet.v
SimpleGuard.v
SimpleData.v
SimpleMount.v
