(* ===== verification/Prelude.v ===== *)
(** * Fairy: a verification of the io_uring runtime, the FUSE stack and the cache

    Fairy has three parts.  [src/runtime/] is a single-threaded asynchronous runtime
    on io_uring: tasks, wakers and join handles, an executor, a driver that keeps
    the operations in flight in a slab, shared file descriptors and owned buffers.
    [src/fuse/] is a FUSE daemon: the kernel interface, the request parser and the
    replies, a session that mounts a file system and dispatches requests to it, and
    file systems: one on the ring, an example on the host's files, an adapter
    to file systems that are given paths, with a pool of threads, and one of those
    that passes everything on to a directory of the host.  It has two copies of the
    crate fuser: [uring_fuse/], reworked, under the file system on the ring, and
    [fuser/], under the others.  [src/common/] and [src/worker/] are a cache: a store of
    keys and values in files, served over HTTP/2.

    How they interact.  The executor polls futures; an operation's future submits an
    entry to the driver, which wakes the future's waker when the completion comes.
    The session reads a message from the device, parses it to an [Operation], and
    calls the file system with a reply object, which puts one message back on the
    device.  The adapter turns inodes to paths with its inode table and leaves
    blocking calls to its pool.  The worker reads its settings, builds the store from
    them and puts it behind the service, and tells etcd where it is.

    ** Conventions

    - A computation is an [outcome]: it returns, panics, or would execute undefined
      behaviour; a stateful one is [stateM] (below).  [Build] says whether the
      overflow checks and [debug_assert!] of a debug build are there; theorems hold
      for both.
    - Machine integers are in [Z], with the wrap-around, the checks and the casts
      ([wrap], [to_signed], [uadd], ...) written where the code has them.
    - Code that is not in the repository is a class of operations with a class of
      laws that state its documentation: the kernel and the crate io_uring
      ([Uring]), zerocopy and memchr ([Libs]), libc's constants ([Libc], [LibcFs],
      [LibcSys], [LibcMount]), bincode, the clock and the host of SimpleFS
      ([SimpleFS.Host]), the operating system of programs ([System]), the disk under
      the store ([Disk]), its hash of strings ([StringHasher]), a connection of the
      crate h2 ([Connection]), the crate config (the record [Config]), a socket ([Stream]), etcd
      ([Etcd]).  Each has an instance for the witnesses.
    - Parts of the program meet in classes: [Store] (the driver's slab), [OpDriver]
      (a descriptor's driver), [IoBuf] and [IoBufMut] with the contract of their
      safety comments, [Filesystem] and [FilesystemMT] (a session's, an adapter's
      file system; [Fuser.Filesystem] of the copy), [CodecLaws] (layouts), and the
      source's traits [FromConfig] and [Ll.Request].
    - A definition [X_m] is the method [m] of [X]; other names are the source's.
    - The main theorems that have hypotheses have a witness, [<theorem>_witness],
      that applies them to concrete values.

    ** The runtime

    - Store.v, Slab.v: [utils/slab.rs].  [Page], [Slab], [Ref].
      [Slab_refines_map]: a finite map with an allocator of fresh keys, for any
      64-bit keys, without undefined behaviour.
    - Driver.v: [driver/uring/lifecycle.rs], [driver/uring/mod.rs],
      [driver/op/mod.rs].  A world of futures, the driver and the ring; steps are
      submissions, polls, drops, cancellations and turns of the driver in any order.
      [driver_never_ub], [kernel_buffer_retained] (data stays alive while the
      kernel uses it), [completion_delivered], [driver_no_leak].
    - SharedFd.v: [driver/shared_fd.rs], [driver/op/close.rs].  [fd_closed_once],
      and how [close] fails: [fd_close_hangs], [fd_close_refused_closes_twice].
    - Buffers.v: [buf/*.rs], [driver/op/read.rs], [driver/op/write.rs] over a heap of
      blocks.  [read_at_fills] and [readv_fills]: io through any buffer that keeps
      the contract, and any nesting of views over it; [vecbuf_clone_dangles].
    - TaskState.v: [task/state.rs].  [State_refines_Flags] (the packed word is a
      record of flags and a count), [State_linearizable] and [State_loops_terminate]
      against an environment that changes the word between accesses.
    - Task.v: the rest of [task/], [scheduler.rs], [runtime.rs].  [executor_never_ub],
      [refcount_exact], [join_handle_delivers], [wake_not_lost].
    - RuntimeDrop.v: dropping the queue with the runtime.  [runtime_drop_releases].
    - Builder.v: [builder.rs], [macros/scoped_tls.rs], [macros/support.rs],
      [utils/thread_id.rs], the constructors of [runtime.rs] and [driver/].
      [scoped_key_lexical], [built_runtimes], [ring_entries], [maybe_done_once].
    - File.v: [driver/file.rs], [driver/op/open.rs], and dropping the driver.
      [open_runs], [open_dropped_leaks], [driver_drop_frees].
    - Rand.v: [utils/rand.rs].  [fastrand_spec], [draws_below] (a thread's generator).

    ** Messages

    - Wire.v, KernelInterface.v: layouts and [low_level/kernel_interface.rs];
      [kernel_interface_layouts]: sizes, no padding, image and value determine each
      other.
    - Time.v, Argument.v, Operation.v, Request.v: [low_level/argument.rs],
      [low_level/op.rs].  [request_round_trip]: what the kernel sends for an
      operation is parsed to it; [decode_panics_iff]: on any bytes the parser has no
      undefined behaviour, and the panics are two.
    - KernelConfig.v, Response.v, Listing.v, Reply.v: the reply to INIT, responses,
      pages of directory entries, the typed reply objects.  [reply_exactly_once],
      [readdir_round_trip], [typed_reply_understood]; [negotiation_bounds]: whatever a
      file system configures, what INIT answers is within what the kernel offered.
    - Session.v: [uring_fuse/request.rs], [uring_fuse/session.rs].
      [dispatch_answers_once], [calls_only_while_mounted], [acl_enforced].
    - FuserRequest.v, FuserReply.v, FuserSession.v: the copy, [fuser/ll/request.rs],
      [fuser/ll/reply.rs], [fuser/reply.rs], [fuser/request.rs], [fuser/session.rs], in
      modules [Ll], [LlReply] and [Fuser].  Its definitions are the copy's own and are
      proved to do what those of [uring_fuse/] do: [fuser_decodes_same],
      [fuser_replies_same], [fuser_refines_uring]; so [fuser_reply_understood] and
      [fuser_protocol] follow from the theorems above.
    - Defaults.v, MtDefaults.v: the methods that the traits provide.
    - MountOptions.v, Mount.v, Unmount.v: [uring_fuse/mount/], [Session::new], the
      owners of a mount.  Options as text ([option_text_round_trip],
      [parse_options_spec], [mount_args_round_trip], [mount_text_understood]),
      flags ([mount_flags_spec]), who gets in ([access_as_asked], over the kernel's
      test and the session's), descriptors ([mount_descriptors]), and unmounting
      ([drop_unmounts_other], [session_unmounts_once], [unmounter_void]).

    ** File systems

    - Paths.v: byte strings, UTF-8, [std::path].
    - Mounted.v: a file system, given by what its methods do and answer, under either
      session, from the bytes the kernel writes to the bytes it reads.  UringMount.v,
      FairyFS.v and SimpleMount.v are its clients.
    - UringFs.v: [uring_fuse/uring_fs/].  [uring_refines_tree],
      [uring_answers_reach_kernel]; with UringMount.v, [uring_session]: the mounted file
      system is the tree, for any sequence of requests.
    - FairyFS.v: [fuse_lib.rs], the file system without methods.  [fairy_session].
    - InodeTable.v, FuseMT.v, FuseMTRuns.v: [async_fuse/].  [inode_handles_unique],
      [mt_inodes_held] (the lookup counts are the kernel's),
      [mt_every_request_answered], [mt_readdir_snapshot].
    - Programs.v, Passthrough.v, PassthroughRuns.v: [passthrough/] as programs of
      system calls.  [passthrough_confined] (every path is below the target),
      [passthrough_transparent] (errors are passed on), [passthrough_listing]
      (through the adapter), [stat_to_fuse_spec], [utimens_round_trip],
      [setattr_one_time_refused], [reads_race].
    - SimpleAttr.v to SimpleData.v: [filesystem.rs], the example file system.
      SimpleFS.v is the code; SimpleTree.v the abstract tree and its invariant;
      SimpleRep.v, SimpleRefine.v and SimpleQuiet.v the refinement
      ([SimpleFS_refines_tree], [SimpleFS_tree_invariant]); SimpleAttr.v and
      SimpleGuard.v permissions ([check_access_posix], [SimpleFS_no_escalation],
      [SimpleFS_well_typed]); SimpleData.v contents, listings and extended
      attributes ([write_read_round_trip], [readdir_complete], [xattrs_refine_map]);
      SimpleMount.v the whole way through the copy's session ([simple_round_trip]).

    ** The cache

    - Text.v: splitting and joining strings, numbers in text.
    - KvStore.v: [common/src/kv_store/].  [kv_refines_map] (a map of keys to values),
      [kv_confined] (no key leaves the root's directory), [kv_failures_contained], and
      what a failed or an interrupted put does: [kv_put_destroys], [kv_get_during_put].
    - H2Service.v: [common/src/h2/h2_service.rs], and in [Module Old] the service of
      [worker/src/h2_service.rs].  [h2_serves_cache], [h2_confined], [old_get_repeats].
    - Settings.v: [common/src/settings.rs] and [settings/].  [settings_read],
      [worker_store], [from_config_keys].
    - Worker.v: the echo server and the pages of the worker, its registry.
      [echo_echoes], [registry_finds].

    ** Fuel

    A [fuel] argument bounds a loop of the code.  In Driver.v it bounds the retries
    of a submission that the kernel refuses as busy; the invariants hold for any
    fuel, and more than the refusals is enough ([submit_ends]).  Dropping a reference
    drops at most as many cells as there are ([drop_reference]).  The compare-and-swap loops end one round
    after the environment stops ([State_loops_terminate]).  [granularity_fuel] is
    the number of decimal digits of a u32.  The loop of [readdir] ends with the
    directory ([passthrough_listing]), the loops over interrupted system calls with
    the interruptions ([interrupted_loops_end]), [digits] with the bits of the
    number, pages with the entries ([readdir_complete]).

    ** Not modelled

    - What [fuser/] has in the same text as [uring_fuse/]: [fuse_abi.rs],
      [argument.rs], the setters of the configuration, [mnt/].  The definitions of
      KernelInterface.v, Argument.v, KernelConfig.v, MountOptions.v, Mount.v and
      Unmount.v stand for both.
    - Log messages, [Display] and [Debug]; everything under [cfg] of macOS, of the
      features [sync] (wakers of other threads) and [async-cancel], and of ABI versions
      above the default.
    - [Channel]: read and writev of the device; the tables of errno constants; the
      notification of pollers.
    - [src/client/], the metrics, logs and the S3 client of [src/common/], the loops
      that accept connections and the functions [main]: nothing but calls of tonic,
      hyper, opentelemetry and the AWS SDK.

    ** Limits

    The services of the cache are modelled one request after another; where requests
    overlap, [kv_get_during_put] shows one order.  The threads of the pool are
    interleaved job by job ([mt_every_request_answered]), and by system call for reads
    ([reads_race]).  Wakers are those of the thread of the runtime. *)

From stdpp Require Export base tactics option list numbers fin_maps gmap.
From Stdlib Require Import ZArith Lia.

#[export] Set Default Goal Selector "!".

(** ** Outcomes of Rust code

    A call into the modelled code either returns, panics, or would execute
    undefined behaviour ([get_unchecked] out of bounds, [assume_init] of
    uninitialised memory, [unreachable_unchecked]).  Keeping the last two apart
    lets the theorems say which of them a precondition rules out. *)

Inductive outcome (A : Type) : Type :=
  | Ret (a : A)
  | Panic
  | UB.
Arguments Ret {A} _.
Arguments Panic {A}.
Arguments UB {A}.

#[export] Instance outcome_ret : MRet outcome := @Ret.
#[export] Instance outcome_bind : MBind outcome := λ A B f m,
  match m with Ret a => f a | Panic => Panic | UB => UB end.
#[export] Instance outcome_fmap : FMap outcome := λ A B f m,
  match m with Ret a => Ret (f a) | Panic => Panic | UB => UB end.

Declare Scope rust_scope.
Delimit Scope rust_scope with rust.

(** [assert!], [Option::unwrap], [Option::unwrap_unchecked]. *)
Definition assert_ (b : bool) : outcome unit := if b then Ret tt else Panic.
Definition unwrap {A} (o : option A) : outcome A :=
  match o with Some a => Ret a | None => Panic end.
Definition unwrap_unchecked {A} (o : option A) : outcome A :=
  match o with Some a => Ret a | None => UB end.

(** ** Build profile

    [debug_assert!] and the overflow checks of [+], [-] and [*] are present in a
    debug build and absent (wrapping) in a release build.  Everything below is
    stated for both: the flag is a parameter. *)
Class Build := debug_assertions : bool.

Section build.
Context `{B : Build}.

Definition debug_assert (b : bool) : outcome unit :=
  if debug_assertions then assert_ b else Ret tt.

(** A [w]-bit unsigned result: checked in debug, wrapping in release. *)
Definition uarith (w r : Z) : outcome Z :=
  if decide (0 ≤ r < 2 ^ w)%Z then Ret r
  else if debug_assertions then Panic else Ret (r `mod` 2 ^ w)%Z.

Definition uadd (w a b : Z) : outcome Z := uarith w (a + b).
Definition usub (w a b : Z) : outcome Z := uarith w (a - b).
Definition umul (w a b : Z) : outcome Z := uarith w (a * b).
End build.

(** Wrapping to [w] bits, as [wrapping_add], [as u32], [Wrapping<u64>] do. *)
Definition wrap (w z : Z) : Z := (z `mod` 2 ^ w)%Z.
(** Reinterpretation of a [w]-bit unsigned value as signed ([as i32]). *)
Definition to_signed (w z : Z) : Z :=
  let u := wrap w z in if decide (u < 2 ^ (w - 1))%Z then u else (u - 2 ^ w)%Z.

(** The sum of two [i64]. *)
Definition i64_add `{Build} (a b : Z) : outcome Z :=
  if decide (- 2 ^ 63 ≤ a + b < 2 ^ 63)%Z then Ret (a + b)%Z
  else if debug_assertions then Panic else Ret (to_signed 64 (a + b)).

(** [usize::leading_zeros] and [usize::trailing_zeros] on 64 bits. *)
Definition leading_zeros (z : Z) : Z :=
  if decide (z = 0)%Z then 64%Z else (63 - Z.log2 z)%Z.
Definition trailing_zeros (z : Z) : Z :=
  if decide (z = 0)%Z then 64%Z else Z.log2 (Z.land z (- z)).

(** ** Judgements about outcomes *)

(** [m] returns a value satisfying [P] (total correctness). *)
Definition yields {A} (m : outcome A) (P : A → Prop) : Prop :=
  match m with Ret a => P a | _ => False end.

(** [m] may panic, never executes undefined behaviour, and what it returns
    satisfies [P]. *)
Definition permits {A} (m : outcome A) (P : A → Prop) : Prop :=
  match m with Ret a => P a | Panic => True | UB => False end.

Section judgements.
Context {A C : Type}.
Implicit Types (m : outcome A) (P Q : A → Prop).

Lemma yields_Ret m P : yields m P ↔ ∃ a, m = Ret a ∧ P a.
Proof.
  split; [destruct m; simpl; eauto; done|]. by intros (? & -> & ?).
Qed.
Lemma yields_eq m P a : yields m P → m = Ret a → P a.
Proof. by intros ? ->. Qed.
Lemma yields_bind (f : A → outcome C) m P (R : C → Prop) :
  yields m P → (∀ a, P a → yields (f a) R) → yields (m ≫= f) R.
Proof. destruct m; simpl; naive_solver. Qed.
Lemma yields_mono m P Q : yields m P → (∀ a, P a → Q a) → yields m Q.
Proof. destruct m; simpl; naive_solver. Qed.
Lemma yields_permits m P : yields m P → permits m P.
Proof. by destruct m. Qed.

Lemma permits_bind (f : A → outcome C) m P (R : C → Prop) :
  permits m P → (∀ a, P a → permits (f a) R) → permits (m ≫= f) R.
Proof. destruct m; simpl; naive_solver. Qed.
Lemma permits_mono m P Q : permits m P → (∀ a, P a → Q a) → permits m Q.
Proof. destruct m; simpl; naive_solver. Qed.
Lemma permits_eq m P a : permits m P → m = Ret a → P a.
Proof. by intros ? ->. Qed.

Lemma bind_Ret (f : A → outcome C) m c :
  m ≫= f = Ret c ↔ ∃ a, m = Ret a ∧ f a = Ret c.
Proof. split; [destruct m; simpl; eauto; done|]. by intros (? & -> & ?). Qed.
End judgements.

Lemma assert_Ret b u : assert_ b = Ret u ↔ b = true.
Proof. destruct b, u; simpl; naive_solver. Qed.
Lemma unwrap_Ret {A} (o : option A) a : unwrap o = Ret a ↔ o = Some a.
Proof. destruct o; simpl; naive_solver. Qed.
Lemma unwrap_unchecked_Ret {A} (o : option A) a :
  unwrap_unchecked o = Ret a ↔ o = Some a.
Proof. destruct o; simpl; naive_solver. Qed.

Lemma debug_assert_true `{Build} b : b = true → debug_assert b = Ret tt.
Proof. intros ->. unfold debug_assert. by destruct debug_assertions. Qed.

Section arith.
Context `{B : Build}.
Local Open Scope Z_scope.

Lemma uadd_small w a b : 0 ≤ a + b < 2 ^ w → uadd w a b = Ret (a + b).
Proof. intros. unfold uadd, uarith. by rewrite decide_True. Qed.
Lemma usub_small w a b : 0 ≤ a - b < 2 ^ w → usub w a b = Ret (a - b).
Proof. intros. unfold usub, uarith. by rewrite decide_True. Qed.
Lemma i64_add_small a b : - 2 ^ 63 ≤ a + b < 2 ^ 63 → i64_add a b = Ret (a + b).
Proof. intros. unfold i64_add. by rewrite decide_True. Qed.

Lemma wrap_bounds w z : 0 ≤ w → 0 ≤ wrap w z < 2 ^ w.
Proof. intros. apply Z.mod_pos_bound. by apply Z.pow_pos_nonneg. Qed.
Lemma wrap_small w z : 0 ≤ z < 2 ^ w → wrap w z = z.
Proof. apply Z.mod_small. Qed.
Lemma wrap_wrap w z : wrap w (wrap w z) = wrap w z.
Proof. apply Zmod_mod. Qed.
End arith.

(** ** Stateful code

    A computation over a state [W]: it returns, panics or is undefined. *)

Definition stateM (W A : Type) : Type := W → outcome (A * W).

#[export] Instance stateM_ret W : MRet (stateM W) := λ A a w, Ret (a, w).
#[export] Instance stateM_bind W : MBind (stateM W) := λ A C f m w,
  match m w with Ret (a, w') => f a w' | Panic => Panic | UB => UB end.

Definition gets {W A} (f : W → A) : stateM W A := λ w, Ret (f w, w).
Definition modify {W} (f : W → W) : stateM W unit := λ w, Ret (tt, f w).
Definition undefined {W A} : stateM W A := λ _, UB.
Definition panic {W A} : stateM W A := λ _, Panic.
(** A call that does not touch the state. *)
Definition lift {W A} (m : outcome A) : stateM W A := λ w, a ← m; Ret (a, w).

Section stateful.
Context {W A C : Type}.
Implicit Types (m : stateM W A).

Lemma permits_bindM m (f : A → stateM W C) w (P : A * W → Prop) (R : C * W → Prop) :
  permits (m w) P → (∀ a w', P (a, w') → permits (f a w') R) → permits ((m ≫= f) w) R.
Proof.
  unfold mbind, stateM_bind. destruct (m w) as [[a w']| |]; simpl; auto.
Qed.
Lemma yields_bindM m (f : A → stateM W C) w (P : A * W → Prop) (R : C * W → Prop) :
  yields (m w) P → (∀ a w', P (a, w') → yields (f a w') R) → yields ((m ≫= f) w) R.
Proof.
  unfold mbind, stateM_bind. destruct (m w) as [[a w']| |]; simpl; [auto|done..].
Qed.
Lemma bindM_assoc {D} m (f : A → stateM W C) (g : C → stateM W D) w :
  ((m ≫= f) ≫= g) w = (m ≫= (λ a, f a ≫= g)) w.
Proof. unfold mbind, stateM_bind. by destruct (m w) as [[]| |]. Qed.
Lemma bindM_eq m (f : A → stateM W C) w a w' : m w = Ret (a, w') → (m ≫= f) w = f a w'.
Proof. unfold mbind, stateM_bind. by intros ->. Qed.
End stateful.

(** ** Automation *)

Create HintDb rust.
#[export] Hint Resolve yields_permits : rust.

(** Take apart an equation [m = Ret v] about a monadic computation. *)
Ltac outcome_inv :=
  repeat match goal with
  | H : Ret _ = Ret _ |- _ => injection H as H; try subst
  | H : Panic = Ret _ |- _ => discriminate H
  | H : UB = Ret _ |- _ => discriminate H
  | H : _ ≫= _ = Ret _ |- _ =>
      apply bind_Ret in H; let E := fresh "E" in destruct H as (? & E & H)
  | H : assert_ _ = Ret _ |- _ => apply assert_Ret in H
  | H : unwrap _ = Ret _ |- _ => apply unwrap_Ret in H
  | H : unwrap_unchecked _ = Ret _ |- _ => apply unwrap_unchecked_Ret in H
  | H : mret _ = Ret _ |- _ => injection H as H; try subst
  | x : unit |- _ => destruct x
  | H : (_, _) = (_, _) |- _ => injection H; clear H; intros; try subst
  end.
