(* ===== verification/Programs.v ===== *)
(** * Programs: code that calls the operating system

    A routine that makes system calls is the tree of the calls it makes, each going
    on from the answer: an error number or a value.  [sig] is the type of the calls,
    indexed by what they answer.  The operating system is a parameter: a [System]
    answers the calls of one program one after the other ([run]).

    [all_calls], [ends_with] and [balanced] are properties of a program that hold
    whatever the answers are. *)

From S2P Require Import Prelude.

Local Open Scope Z_scope.

(** How a program stops early: by a panic, by undefined behaviour, or, in the
    model, because the fuel of a loop is spent. *)
Inductive crash : Type := Panics | Undefined | Exhausted.

Inductive Prog (sig : Type → Type) (A : Type) : Type :=
  | Done (a : A)
  | Crash (c : crash)
  | Call {X : Type} (s : sig X) (k : Z + X → Prog sig A).
Arguments Done {sig A} _.
Arguments Crash {sig A} _.
Arguments Call {sig A X} _ _.

Section monad.
Context {sig : Type → Type}.

#[export] Instance Prog_ret : MRet (Prog sig) := @Done sig.
Fixpoint Prog_bind_ {A D} (f : A → Prog sig D) (m : Prog sig A) : Prog sig D :=
  match m with
  | Done a => f a
  | Crash c => Crash c
  | Call s k => Call s (λ r, Prog_bind_ f (k r))
  end.
#[export] Instance Prog_bind : MBind (Prog sig) := λ A D f m, Prog_bind_ f m.
#[export] Instance Prog_fmap : FMap (Prog sig) := λ A D f m, Prog_bind_ (λ a, Done (f a)) m.

Definition call {X} (s : sig X) : Prog sig (Z + X) := Call s Done.
(** A computation without system calls that may panic. *)
Definition pure {A} (m : outcome A) : Prog sig A :=
  match m with Ret a => Done a | Panic => Crash Panics | UB => Crash Undefined end.
(** [?] and [Err(e) => Err(e)]: go on from a value. *)
Definition and_then {E X A} (m : Prog sig (E + X)) (f : X → Prog sig (E + A)) : Prog sig (E + A) :=
  r ← m; match r with inl e => Done (inl e) | inr x => f x end.
End monad.

(** A program of one kind of calls as a program of another. *)
Fixpoint embed {sig sig' : Type → Type} {A} (f : ∀ X, sig X → sig' X) (m : Prog sig A) : Prog sig' A :=
  match m with
  | Done a => Done a
  | Crash c => Crash c
  | Call s k => Call (f _ s) (λ r, embed f (k r))
  end.

Class System (sig : Type → Type) (H : Type) := sys : ∀ {X : Type}, sig X → H → (Z + X) * H.

Fixpoint run {sig H A} `{!System sig H} (m : Prog sig A) : stateM H A := λ h,
  match m with
  | Done a => Ret (a, h)
  | Crash Panics => Panic
  | Crash _ => UB
  | Call s k => let '(r, h) := sys s h in run (k r) h
  end.

(** Two programs in two threads: whose call is next, call by call. *)
Definition turn {sig H A} `{!System sig H} (m : Prog sig A) (h : H) : Prog sig A * H :=
  match m with Call s k => let '(r, h) := sys s h in (k r, h) | _ => (m, h) end.
Fixpoint interleave {sig H A D} `{!System sig H} (turns : list bool) (m : Prog sig A) (n : Prog sig D) (h : H)
    : Prog sig A * Prog sig D * H :=
  match turns with
  | [] => (m, n, h)
  | true :: turns => let '(m, h) := turn m h in interleave turns m n h
  | false :: turns => let '(n, h) := turn n h in interleave turns m n h
  end.

(** The error of a result. *)
Definition result_error {E A} (r : E + A) : option E := match r with inl e => Some e | inr _ => None end.

Section programs.
Context {sig : Type → Type}.

(** Whatever the answers, the program makes only calls in [P]. *)
Fixpoint all_calls {A} (P : ∀ X, sig X → Prop) (m : Prog sig A) : Prop :=
  match m with
  | Done _ | Crash _ => True
  | Call s k => P _ s ∧ ∀ r, all_calls P (k r)
  end.
(** Whatever the answers, what the program is done with is in [P]. *)
Fixpoint all_results {A} (P : A → Prop) (m : Prog sig A) : Prop :=
  match m with
  | Done a => P a
  | Crash _ => True
  | Call s k => ∀ r, all_results P (k r)
  end.
(** Whatever the answers: if the program is done, its result carries the error of
    its last call ([last], if it makes none), or none if that one succeeded; and it
    has no undefined behaviour. *)
Fixpoint ends_with {A} (err : A → option Z) (last : option Z) (m : Prog sig A) : Prop :=
  match m with
  | Done a => err a = last
  | Crash c => c = Panics
  | Call s k => ∀ r, ends_with err (result_error r) (k r)
  end.
(** Whatever the answers: with [held] at the start, the program releases only what
    it holds, and what it holds when it is done is [P] of its result.  [delta] says
    what a call, by its answer, takes and gives back. *)
Fixpoint balanced {A R} (delta : ∀ X, sig X → Z + X → list R * list R) (P : A → list R) (held : list R)
    (m : Prog sig A) : Prop :=
  match m with
  | Done a => held ≡ₚ P a
  | Crash _ => True
  | Call s k => ∀ r, ∃ rest, held ≡ₚ (delta _ s r).2 ++ rest ∧ balanced delta P ((delta _ s r).1 ++ rest) (k r)
  end.

Section bind.
Context {A D : Type}.
Implicit Types (m : Prog sig A).

Lemma all_calls_bind P m (f : A → Prog sig D) :
  all_calls P m → (∀ a, all_calls P (f a)) → all_calls P (m ≫= f).
Proof. intros Hm Hf. induction m as [a| |Y s k IH]; [apply Hf|done|]. destruct Hm as [Hs Hk]. split; [done|]. intros r. apply IH, Hk. Qed.
Lemma all_calls_mono (P Q : ∀ X, sig X → Prop) m : (∀ X s, P X s → Q X s) → all_calls P m → all_calls Q m.
Proof. intros HPQ Hm. induction m as [a| |Y s k IH]; [done|done|]. destruct Hm as [Hs Hk]. split; [by apply HPQ|]. intros r. apply IH, Hk. Qed.
Lemma all_calls_fmap P m (f : A → D) : all_calls P m → all_calls P (f <$> m).
Proof. intros Hm. by apply all_calls_bind. Qed.
Lemma ends_with_fmap (err : A → option Z) (err' : D → option Z) last m (f : A → D) :
  (∀ a, err' (f a) = err a) → ends_with err last m → ends_with err' last (f <$> m).
Proof.
  intros Hf. revert last. induction m as [a| |Y s k IH]; intros last Hm; [cbn in *; by rewrite Hf|done|]. intros r. apply IH, Hm.
Qed.
Lemma all_results_bind Q (P : D → Prop) m (f : A → Prog sig D) :
  all_results Q m → (∀ a, Q a → all_results P (f a)) → all_results P (m ≫= f).
Proof. intros Hm Hf. induction m as [a| |Y s k IH]; [by apply Hf|done|]. intros r. apply IH, Hm. Qed.
Lemma all_results_any m : all_results (λ _, True) m.
Proof. by induction m. Qed.
Lemma run_Prog_bind {H} `{!System sig H} m (f : A → Prog sig D) (h : H) :
  run (Prog_bind_ f m) h = (run m ≫= λ a, run (f a)) h.
Proof.
  revert h. induction m as [a|[]|Y s k IH]; intros h; [done|done|done|done|]. cbn. unfold mbind at 1, stateM_bind.
  destruct (sys s h) as [r h']. by rewrite IH.
Qed.
Lemma run_bind {H} `{!System sig H} m (f : A → Prog sig D) (h : H) : run (m ≫= f) h = (run m ≫= λ a, run (f a)) h.
Proof. apply run_Prog_bind. Qed.
End bind.

Section then_.
Context {A E X : Type}.

Lemma all_calls_then P (m : Prog sig (E + X)) (f : X → Prog sig (E + A)) :
  all_calls P m → (∀ x, all_calls P (f x)) → all_calls P (and_then m f).
Proof. intros Hm Hf. apply all_calls_bind; [done|]. by intros [e|x]. Qed.
Lemma ends_with_then last (m : Prog sig (Z + X)) (f : X → Prog sig (Z + A)) :
  ends_with result_error last m → (∀ x, ends_with result_error None (f x)) →
  ends_with result_error last (and_then m f).
Proof.
  intros Hm Hf. revert last Hm. induction m as [r| |Y s k IH]; intros last Hm; [|done|].
  - destruct r as [e|x]; cbn in *; [done|]. subst last. apply Hf.
  - intros r. apply IH, Hm.
Qed.
Lemma all_calls_call P (s : sig X) : P X s → all_calls P (call s).
Proof. by split. Qed.
Lemma ends_with_call last (s : sig X) : ends_with result_error last (call s).
Proof. by intros [e|x]. Qed.
Lemma all_calls_pure P (m : outcome X) (f : X → Prog sig A) : (∀ x, all_calls P (f x)) → all_calls P (pure m ≫= f).
Proof. intros Hf. destruct m; [apply Hf|done..]. Qed.
Lemma ends_with_pure last (m : outcome X) (f : X → Prog sig (Z + A)) :
  m ≠ UB → (∀ x, ends_with result_error last (f x)) → ends_with result_error last (pure m ≫= f).
Proof. intros Hm Hf. destruct m; [apply Hf|done..]. Qed.

End then_.

Section running.
Context {H : Type} `{!System sig H}.

Lemma run_pure_Ret {A D} (a : A) (f : A → Prog sig D) : run (pure (Ret a) ≫= f) = run (f a).
Proof. done. Qed.
Lemma run_then {E X A} (m : Prog sig (E + X)) (f : X → Prog sig (E + A)) (h : H) :
  run (and_then m f) h =
    '(r, h') ← run m h; match r with inl e => Ret (inl e, h') | inr x => run (f x) h' end.
Proof.
  unfold and_then. rewrite run_bind. unfold mbind, stateM_bind, outcome_bind.
  by destruct (run m h) as [[[e|x] h']| |].
Qed.
Lemma run_call {X} (s : sig X) (h : H) : run (call s) h = Ret (sys s h).
Proof. cbn. by destruct (sys s h). Qed.
Lemma run_call_bind {X A} (s : sig X) (f : Z + X → Prog sig A) (h : H) :
  run (call s ≫= f) h = let '(r, h') := sys s h in run (f r) h'.
Proof. done. Qed.
End running.

Section balance.
Context {R : Type} (delta : ∀ Y, sig Y → Z + Y → list R * list R).

Lemma balanced_perm {A} (P : A → list R) held held' (m : Prog sig A) : held ≡ₚ held' → balanced delta P held m → balanced delta P held' m.
Proof.
  revert held held'. induction m as [a| |Y s k IH]; intros held held' Hp Hm; cbn in *; [by rewrite <- Hp|done|].
  intros r. destruct (Hm r) as (rest & Hr & Hk). exists rest. split; [by rewrite <- Hp|done].
Qed.
(** What the continuation gets is what the first part is done with, and the rest. *)
Lemma balanced_bind {A D} (P : A → list R) (Q : D → list R) held (m : Prog sig A) (f : A → Prog sig D) rest :
  balanced delta P held m → (∀ a, balanced delta Q (P a ++ rest) (f a)) →
  balanced delta Q (held ++ rest) (m ≫= f).
Proof.
  intros Hm Hf. revert held Hm. induction m as [a| |Y s k IH]; intros held Hm; cbn in *; [|done|].
  - eapply balanced_perm; [|apply Hf]. by rewrite Hm.
  - intros r. destruct (Hm r) as (rest' & Hr & Hk). exists (rest' ++ rest). split; [by rewrite Hr, app_assoc|].
    rewrite app_assoc. by apply IH.
Qed.
End balance.
End programs.

Section embedding.
Context {sig sig' : Type → Type} (f : ∀ X, sig X → sig' X).

Lemma all_calls_embed {A} (P : ∀ X, sig' X → Prop) (m : Prog sig A) :
  all_calls (λ X s, P X (f X s)) m → all_calls P (embed f m).
Proof. intros Hm. induction m as [a| |Y s k IH]; [done|done|]. destruct Hm as [Hs Hk]. split; [done|]. intros r. apply IH, Hk. Qed.
Lemma balanced_embed {A R} (delta : ∀ Y, sig' Y → Z + Y → list R * list R) (P : A → list R) held (m : Prog sig A) :
  balanced (λ Y s, delta Y (f Y s)) P held m → balanced delta P held (embed f m).
Proof.
  revert held. induction m as [a| |Y s k IH]; intros held Hm; [done|done|]. intros r.
  destruct (Hm r) as (rest & Hr & Hk). exists rest. split; [done|]. by apply IH.
Qed.
(** The embedded program on a system that answers its calls by a part of its state. *)
Lemma run_embed {H H' A} `{!System sig H, !System sig' H'} (get : H' → H) (put : H → H' → H') (m : Prog sig A) h' :
  (∀ X (s : sig X) w, sys (f X s) w = let '(r, h) := sys s (get w) in (r, put h w)) →
  (∀ h w, get (put h w) = h) → (∀ h1 h2 w, put h2 (put h1 w) = put h2 w) → (∀ w, put (get w) w = w) →
  run (embed f m) h' = '(a, h) ← run m (get h'); Ret (a, put h h').
Proof.
  intros Hf Hgp Hpp Hpg. revert h'. induction m as [a|[]|Y s k IH]; intros h'; [by cbn; rewrite Hpg|done|done|done|].
  cbn. rewrite Hf. destruct (sys s (get h')) as [r h]. rewrite IH, Hgp.
  destruct (run (k r) h) as [[a h2]| |]; [|done..]. cbn. by rewrite Hpp.
Qed.
End embedding.

(** Shows [all_calls P m] by the structure of [m]. *)
Ltac walk_calls :=
  repeat match goal with
  | |- all_calls _ (Done _) => exact I
  | |- all_calls _ (Crash _) => exact I
  | |- all_calls _ (and_then _ _) => apply all_calls_then; [|intros ?]
  | |- all_calls _ (call _) => apply all_calls_call
  | |- all_calls _ (pure _ ≫= _) => apply all_calls_pure; intros ?
  | |- all_calls _ (_ ≫= _) => apply all_calls_bind; [|intros ?]
  | |- all_calls _ (if ?b then _ else _) => destruct b
  | |- all_calls _ (match ?x with _ => _ end) => destruct x
  end.
