(* ===== verification/Rand.v ===== *)
(** * Rand: the random numbers of the runtime

    [FastRand] ([runtime/src/utils/rand.rs]): two 32-bit words, stepped by a
    xorshift and added.  Each thread has its own, seeded by a hash of a counter under
    a fresh hasher of the standard library, which is a parameter. *)

From stdpp Require Import gmap.
From S2P Require Import Prelude.

Local Open Scope Z_scope.

Record FastRand : Type := MkFastRand { one : Z; two : Z }.

Definition FastRand_new (seed : Z) : FastRand :=
  let one := wrap 32 (Z.shiftr seed 32) in
  let two := wrap 32 seed in
  MkFastRand one (if two =? 0 then 1 else two).

Definition fastrand (r : FastRand) : Z * FastRand :=
  let s1 := one r in
  let s0 := two r in
  let s1 := Z.lxor s1 (wrap 32 (Z.shiftl s1 17)) in
  let s1 := Z.lxor (Z.lxor (Z.lxor s1 s0) (Z.shiftr s1 7)) (Z.shiftr s0 16) in
  (wrap 32 (s0 + s1), MkFastRand s0 s1).

Definition fastrand_n (r : FastRand) (n : Z) : Z * FastRand :=
  let '(x, r) := fastrand r in
  let mul := wrap 64 (x * n) in
  (wrap 32 (Z.shiftr mul 32), r).

(** ** The generators of the threads *)

Section threads.
(** [RandomState::new] and [hash_one]. *)
Context {RS H : Type} (RandomState_new : H → RS * H) (hash_one : RS → Z → Z).

(** [COUNTER] and the [THREAD_RNG] of every thread that has drawn a number. *)
Record Rngs : Type := MkRngs { COUNTER : Z; THREAD_RNG : gmap nat FastRand; entropy : H }.
Definition Rngs_new (h : H) : Rngs := MkRngs 1 ∅ h.

Definition seed (w : Rngs) : Z * Rngs :=
  let '(rand_state, h) := RandomState_new (entropy w) in
  (wrap 64 (hash_one rand_state (COUNTER w)), MkRngs (wrap 32 (COUNTER w + 1)) (THREAD_RNG w) h).

(** Thread [t] draws a number; its generator is made at its first draw. *)
Definition thread_rng_n (t : nat) (n : Z) (w : Rngs) : Z * Rngs :=
  let '(rng, w) := match THREAD_RNG w !! t with
                   | Some rng => (rng, w)
                   | None => let '(s, w) := seed w in (FastRand_new s, w)
                   end in
  let '(x, rng) := fastrand_n rng n in
  (x, MkRngs (COUNTER w) (<[t := rng]> (THREAD_RNG w)) (entropy w)).

Fixpoint draws (ts : list (nat * Z)) (w : Rngs) : list Z * Rngs :=
  match ts with
  | [] => ([], w)
  | (t, n) :: ts => let '(x, w) := thread_rng_n t n w in let '(xs, w) := draws ts w in (x :: xs, w)
  end.
End threads.

(** ** Words *)

Definition is_u32 (x : Z) : Prop := 0 ≤ x < 2 ^ 32.

Lemma u32_bits x : is_u32 x ↔ 0 ≤ x ∧ ∀ i, 32 ≤ i → Z.testbit x i = false.
Proof.
  split.
  - intros Hx. split; [apply Hx|]. intros i Hi. destruct (Z.eq_dec x 0) as [->|Hne]; [apply Z.bits_0|].
    apply Z.bits_above_log2; [apply Hx|]. apply Z.lt_le_trans with 32; [|done]. apply Z.log2_lt_pow2; [|apply Hx].
    destruct Hx. lia.
  - intros [H0 Hb]. split; [done|]. destruct (Z.eq_dec x 0) as [->|Hne]; [done|]. apply Z.log2_lt_pow2; [lia|].
    destruct (Z.lt_ge_cases (Z.log2 x) 32) as [|Hge]; [done|]. pose proof (Hb _ Hge) as Hf. by rewrite Z.bit_log2 in Hf by lia.
Qed.
Lemma u32_lxor x y : is_u32 x → is_u32 y → is_u32 (Z.lxor x y).
Proof.
  rewrite !u32_bits. intros [Hx Hxb] [Hy Hyb]. split; [by apply Z.lxor_nonneg|]. intros i Hi. by rewrite Z.lxor_spec, Hxb, Hyb.
Qed.
Lemma u32_shiftr x k : 0 ≤ k → is_u32 x → is_u32 (Z.shiftr x k).
Proof.
  intros Hk. rewrite !u32_bits. intros [Hx Hxb]. split; [by apply Z.shiftr_nonneg|]. intros i Hi.
  rewrite Z.shiftr_spec by lia. apply Hxb. lia.
Qed.
Lemma u32_wrap x : is_u32 (wrap 32 x).
Proof. apply Z.mod_pos_bound. done. Qed.
Create HintDb rand.
#[local] Hint Resolve u32_lxor u32_shiftr u32_wrap : rand.

Lemma lxor_cancel x y z : Z.lxor x z = Z.lxor y z → x = y.
Proof.
  intros He%(f_equal (λ w, Z.lxor w z)). by rewrite !Z.lxor_assoc, Z.lxor_nilpotent, !Z.lxor_0_r in He.
Qed.
(** A word that is its own shift is zero. *)
Lemma shiftr_fixed x k : 0 < k → is_u32 x → Z.shiftr x k = x → x = 0.
Proof.
  intros Hk [Hx _] He. rewrite Z.shiftr_div_pow2 in He by lia. destruct (Z.eq_dec x 0) as [|Hne]; [done|].
  pose proof (Z.div_lt x (2 ^ k) ltac:(lia) ltac:(apply Z.pow_gt_1; lia)). lia.
Qed.
Lemma shiftl_fixed x k : 0 < k → is_u32 x → wrap 32 (Z.shiftl x k) = x → x = 0.
Proof.
  intros Hk [Hx _] He. apply Z.bits_inj. intros i. rewrite Z.bits_0. destruct (Z.lt_ge_cases i 0) as [Hi|Hi]; [by apply Z.testbit_neg_r|].
  revert i Hi. refine (Zlt_0_ind (λ i, Z.testbit x i = false) _). intros i IH Hi. rewrite <- He. unfold wrap.
  destruct (Z.lt_ge_cases i 32) as [H32|H32]; [|by apply Z.mod_pow2_bits_high].
  rewrite Z.mod_pow2_bits_low, Z.shiftl_spec by lia. destruct (Z.lt_ge_cases i k); [apply Z.testbit_neg_r; lia|]. apply IH; lia.
Qed.
(** So the two xorshifts are injective. *)
Lemma xorshiftr_inj x y k : 0 < k → is_u32 x → is_u32 y → Z.lxor x (Z.shiftr x k) = Z.lxor y (Z.shiftr y k) → x = y.
Proof.
  intros Hk Hx Hy He. apply Z.lxor_eq. apply (shiftr_fixed _ k); [done|by apply u32_lxor|]. rewrite Z.shiftr_lxor.
  assert (Z.lxor (Z.lxor x (Z.shiftr x k)) (Z.lxor y (Z.shiftr y k)) = 0) as H0 by (rewrite He; apply Z.lxor_nilpotent).
  symmetry. apply Z.lxor_eq. rewrite <- H0. apply Z.bits_inj. intros i. rewrite !Z.lxor_spec.
  by destruct (Z.testbit x i), (Z.testbit y i), (Z.testbit (Z.shiftr x k) i), (Z.testbit (Z.shiftr y k) i).
Qed.
Lemma wrap_shiftl_lxor x y k : 0 ≤ k →
  wrap 32 (Z.shiftl (Z.lxor x y) k) = Z.lxor (wrap 32 (Z.shiftl x k)) (wrap 32 (Z.shiftl y k)).
Proof.
  intros Hk. apply Z.bits_inj. intros i. destruct (Z.lt_ge_cases i 0); [by rewrite !Z.testbit_neg_r|]. unfold wrap.
  rewrite Z.lxor_spec. destruct (Z.lt_ge_cases i 32); [|by rewrite !Z.mod_pow2_bits_high].
  by rewrite !Z.mod_pow2_bits_low, Z.shiftl_lxor, Z.lxor_spec by lia.
Qed.
Lemma xorshiftl_inj x y k : 0 < k → is_u32 x → is_u32 y →
  Z.lxor x (wrap 32 (Z.shiftl x k)) = Z.lxor y (wrap 32 (Z.shiftl y k)) → x = y.
Proof.
  intros Hk Hx Hy He. apply Z.lxor_eq. apply (shiftl_fixed _ k); [done|by apply u32_lxor|]. rewrite wrap_shiftl_lxor by lia.
  assert (Z.lxor (Z.lxor x (wrap 32 (Z.shiftl x k))) (Z.lxor y (wrap 32 (Z.shiftl y k))) = 0) as H0 by (rewrite He; apply Z.lxor_nilpotent).
  symmetry. apply Z.lxor_eq. rewrite <- H0. apply Z.bits_inj. intros i. rewrite !Z.lxor_spec.
  by destruct (Z.testbit x i), (Z.testbit y i), (Z.testbit (wrap 32 (Z.shiftl x k)) i), (Z.testbit (wrap 32 (Z.shiftl y k)) i).
Qed.

(** ** Properties *)

Definition FastRand_wf (r : FastRand) : Prop := is_u32 (one r) ∧ is_u32 (two r).

(** The step of the second word, with what the first one adds left aside. *)
Lemma fastrand_step r : two (fastrand r).2 =
  Z.lxor (Z.lxor (Z.lxor (one r) (wrap 32 (Z.shiftl (one r) 17))) (Z.shiftr (Z.lxor (one r) (wrap 32 (Z.shiftl (one r) 17))) 7))
    (Z.lxor (two r) (Z.shiftr (two r) 16)).
Proof.
  cbn. apply Z.bits_inj. intros i. rewrite !Z.lxor_spec.
  by destruct (Z.testbit (one r) i), (Z.testbit (two r) i), (Z.testbit (wrap 32 (Z.shiftl (one r) 17)) i),
    (Z.testbit (Z.shiftr (Z.lxor (one r) (wrap 32 (Z.shiftl (one r) 17))) 7) i), (Z.testbit (Z.shiftr (two r) 16) i).
Qed.
Lemma fastrand_inj r r' : FastRand_wf r → FastRand_wf r' → (fastrand r).2 = (fastrand r').2 → r = r'.
Proof.
  intros [H1 H2] [H1' H2'] He. assert (two r = two r') as H20 by (by injection He). pose proof (f_equal two He) as Ht.
  rewrite !fastrand_step, H20 in Ht. apply lxor_cancel in Ht.
  apply xorshiftr_inj, xorshiftl_inj in Ht; eauto with rand lia. destruct r, r'; cbn in *; by subst.
Qed.

Lemma FastRand_new_wf seed : FastRand_wf (FastRand_new seed).
Proof.
  unfold FastRand_new. split; cbn; [apply u32_wrap|]. destruct (Z.eqb_spec (wrap 32 seed) 0); [done|apply u32_wrap].
Qed.
Lemma fastrand_wf r : FastRand_wf r → FastRand_wf (fastrand r).2.
Proof. intros [H1 H2]. split; [done|]. rewrite fastrand_step. eauto 10 with rand lia. Qed.
Lemma fastrand_n_state r n : (fastrand_n r n).2 = (fastrand r).2.
Proof. unfold fastrand_n. by destruct (fastrand r). Qed.
Lemma fastrand_n_below r n : 0 < n < 2 ^ 32 → 0 ≤ (fastrand_n r n).1 < n.
Proof.
  intros Hn. unfold fastrand_n. pose proof (u32_wrap (two r + two (fastrand r).2)) as Hx.
  assert ((fastrand r).1 = wrap 32 (two r + two (fastrand r).2)) as Hf by done. destruct (fastrand r) as [x r1]. cbn [fst snd] in *. subst x.
  set (x := wrap 32 _) in *. unfold wrap. destruct Hx. rewrite (Z.mod_small (x * n)) by nia.
  rewrite Z.shiftr_div_pow2 by done. assert (0 ≤ x * n / 2 ^ 32 < n) by (split; [apply Z.div_pos; nia|apply Z.div_lt_upper_bound; nia]).
  rewrite Z.mod_small by lia. done.
Qed.

(** From any seed on, the state is two 32-bit words that are never both zero,
    steps from different states lead to different states, and the numbers drawn
    below [n] are below [n]. *)
Theorem fastrand_spec seed steps n r :
  0 < n < 2 ^ 32 → r = Nat.iter steps (λ r, (fastrand r).2) (FastRand_new seed) →
  FastRand_wf r ∧ (one r, two r) ≠ (0, 0) ∧
  (∀ r', FastRand_wf r' → (fastrand r').2 = (fastrand r).2 → r' = r) ∧
  0 ≤ (fastrand_n r n).1 < n.
Proof.
  intros Hn ->.
  assert (∀ k, FastRand_wf (Nat.iter k (λ r, (fastrand r).2) (FastRand_new seed)) ∧
    Nat.iter k (λ r, (fastrand r).2) (FastRand_new seed) ≠ MkFastRand 0 0) as Hk.
  { induction k as [|k [IHw IHn]].
    - split; [apply FastRand_new_wf|]. unfold FastRand_new. destruct (Z.eqb_spec (wrap 32 seed) 0); cbn; congruence.
    - split; [by apply fastrand_wf|]. cbn [Nat.iter nat_rect]. intros He. apply IHn. by apply fastrand_inj. }
  destruct (Hk steps) as [Hw Hne]. set (r := Nat.iter _ _ _) in *. split; [done|]. split; [|split].
  - intros [= H1 H2]. apply Hne. destruct r. cbn in *. by subst.
  - intros r' Hw' He. by apply fastrand_inj.
  - by apply fastrand_n_below.
Qed.

(** One generator per thread that has drawn, the counter counting them. *)
Definition Rngs_wf {H} (w : Rngs (H := H)) : Prop :=
  map_Forall (λ _, FastRand_wf) (THREAD_RNG w) ∧ COUNTER w = wrap 32 (1 + Z.of_nat (base.size (THREAD_RNG w))).

Lemma thread_rng_n_spec {RS H} RandomState_new (hash_one : RS → Z → Z) t n (w : Rngs (H := H)) x w' :
  0 < n < 2 ^ 32 → Rngs_wf w → thread_rng_n RandomState_new hash_one t n w = (x, w') →
  0 ≤ x < n ∧ Rngs_wf w' ∧ ∀ u, is_Some (THREAD_RNG w' !! u) ↔ u = t ∨ is_Some (THREAD_RNG w !! u).
Proof.
  intros Hn [Hwf Hc]. unfold thread_rng_n, seed, Rngs_wf.
  assert (∀ r, FastRand_wf r → 0 ≤ (fastrand_n r n).1 < n ∧ FastRand_wf (fastrand_n r n).2) as Hr.
  { intros r Hr. rewrite fastrand_n_state. split; [by apply fastrand_n_below|by apply fastrand_wf]. }
  assert (∀ r u, is_Some (<[t := r]> (THREAD_RNG w) !! u) ↔ u = t ∨ is_Some (THREAD_RNG w !! u)) as Hdom.
  { intros r u. rewrite lookup_insert_is_Some. destruct (decide (t = u)); naive_solver. }
  destruct (THREAD_RNG w !! t) as [r|] eqn:Ht.
  - specialize (Hr r (Hwf t r Ht)). destruct (fastrand_n r n) as [y r']. intros [= <- <-]. cbn in *.
    rewrite map_size_insert_Some by done. destruct Hr. split_and!; [lia|lia|by apply map_Forall_insert_2|done|done].
  - destruct (RandomState_new (entropy w)) as [rs h']. set (r := FastRand_new _). specialize (Hr r (FastRand_new_wf _)).
    destruct (fastrand_n r n) as [y r']. intros [= <- <-]. cbn in *. destruct Hr.
    split_and!; [lia|lia|by apply map_Forall_insert_2| |done]. rewrite map_size_insert_None, Hc by done.
    unfold wrap. rewrite Zplus_mod_idemp_l. f_equal. lia.
Qed.

(** Whichever threads draw, in any order, and whatever the hasher: every number is
    below its bound, the generators stay well formed and one is made for each thread
    that draws. *)
Theorem draws_below {RS H} RandomState_new (hash_one : RS → Z → Z) ts h xs (w : Rngs (H := H)) :
  Forall (λ '(_, n), 0 < n < 2 ^ 32) ts → draws RandomState_new hash_one ts (Rngs_new h) = (xs, w) →
  Forall2 (λ x '(_, n), 0 ≤ x < n) xs ts ∧ Rngs_wf w ∧ ∀ t, is_Some (THREAD_RNG w !! t) ↔ t ∈ ts.*1.
Proof.
  intros Hts. assert (∀ w0 w1 xs, Rngs_wf w0 → draws RandomState_new hash_one ts w0 = (xs, w1) →
    Forall2 (λ x '(_, n), 0 ≤ x < n) xs ts ∧ Rngs_wf w1 ∧
    ∀ t, is_Some (THREAD_RNG w1 !! t) ↔ t ∈ ts.*1 ∨ is_Some (THREAD_RNG w0 !! t)) as Hgen.
  { induction Hts as [|[t n] ts Hn Hts IH]; intros w0 w1 ys Hwf; cbn [draws].
    - intros [= <- <-]. split; [done|]. split; [done|]. cbn. set_solver.
    - destruct (thread_rng_n _ _ t n w0) as [x w2] eqn:Ht. destruct (draws _ _ ts w2) as [zs w3] eqn:Hd. intros [= <- <-].
      destruct (thread_rng_n_spec _ _ _ _ _ _ _ Hn Hwf Ht) as (Hx & Hwf2 & Hdom2).
      destruct (IH _ _ _ Hwf2 Hd) as (Hxs & Hwf3 & Hdom3). split; [by constructor|]. split; [done|].
      intros u. rewrite Hdom3, Hdom2. cbn. rewrite elem_of_cons. tauto. }
  intros Hd. destruct (Hgen (Rngs_new h) w xs) as (Hxs & Hwf & Hdom); [by split; [apply map_Forall_empty|]|done|].
  split; [done|]. split; [done|]. intros t. rewrite Hdom. cbn. rewrite lookup_empty. split; [by intros [|[? [=]]]|auto].
Qed.

Lemma fastrand_spec_witness : 0 ≤ (fastrand_n (FastRand_new 42) 10).1 < 10.
Proof.
  destruct (fastrand_spec 42 0 10 _ ltac:(done) eq_refl) as (_ & _ & _ & H). exact H.
Defined.
