(* ===== verification/Store.v ===== *)
(** * Store: what the io driver needs from its slab

    The driver ([driver/uring]) keeps its operations in a [Slab<Lifecycle>] and
    reaches them through [Slab::get] and the [Ref] it returns.  [Store] names
    these operations and [StoreLaws] what they promise, in terms of the finite
    map a store represents.  [Slab.v] provides the instance; [Driver.v] is
    proved against the laws alone. *)

From stdpp Require Import gmap.
From S2P Require Import Prelude.

Local Open Scope Z_scope.

Class Store (S R T : Type) := {
  st_new : S;
  st_insert : S → T → outcome (Z * S);
  st_get : S → Z → outcome (option R);
  ref_read : S → R → outcome T;
  ref_assign : S → R → T → outcome S;
  ref_remove : S → R → outcome (T * S);
}.
#[export] Hint Mode Store + - - : typeclass_instances.

Class StoreLaws (S R T : Type) `{!Store S R T} := {
  st_wf : S → Prop;
  st_content : S → gmap Z T;
  st_new_spec : st_wf st_new ∧ st_content st_new = ∅;
  (** [insert] either finds no room and panics, or binds a fresh key, which is
      never one of the reserved [user_data] values. *)
  st_insert_spec s v : st_wf s →
    st_insert s v = Panic ∨
    ∃ k s', st_insert s v = Ret (k, s') ∧ st_wf s' ∧ 0 ≤ k < 2 ^ 32 ∧
            st_content s !! k = None ∧ st_content s' = <[k := v]> (st_content s);
  st_get_None s k : st_wf s → 0 ≤ k < 2 ^ 64 → st_content s !! k = None →
    st_get s k = Ret None;
  (** A reference obtained by [get] reads, overwrites and removes its entry. *)
  st_get_Some s k v : st_wf s → st_content s !! k = Some v →
    ∃ r, st_get s k = Ret (Some r) ∧ ref_read s r = Ret v ∧
      (∀ w, ∃ s', ref_assign s r w = Ret s' ∧ st_wf s' ∧
                  st_content s' = <[k := w]> (st_content s)) ∧
      (∃ s', ref_remove s r = Ret (v, s') ∧ st_wf s' ∧
             st_content s' = delete k (st_content s));
  st_key s k v : st_wf s → st_content s !! k = Some v → 0 ≤ k < 2 ^ 32;
}.
