(* ===== verification/Slab.v ===== *)
(** * Slab: the paged free-list allocator of [runtime/src/utils/slab.rs]

    [Page] and [Slab] follow the code field by field; uninitialised slots are the
    keys absent from [slots].  The abstraction [Slab_content] is the finite map
    from keys to values; every operation is shown to refine the corresponding
    map operation, and to be free of panics and undefined behaviour. *)

From stdpp Require Import fin_maps gmap.
From S2P Require Import Prelude.
From S2P Require Import Store.

Local Open Scope Z_scope.

Definition NUM_PAGES : nat := 26.
Definition PAGE_INITIAL_SIZE : Z := 64.
Definition COMPACT_INTERVAL : Z := 2048.

Inductive Entry (T : Type) : Type :=
  | Vacant (next_slot : Z)
  | Occupied (inner : T).
Arguments Vacant {T} _.
Arguments Occupied {T} _.

Definition Entry_as_ref {T} (e : Entry T) : option T :=
  match e with Vacant _ => None | Occupied inner => Some inner end.

Definition Entry_is_vacant {T} (e : Entry T) : bool :=
  match e with Vacant _ => true | Occupied _ => false end.

Record Page (T : Type) : Type := mkPage {
  slots : gmap Z (Entry T);   (* initialised slots only *)
  slots_len : Z;              (* [slots.len()] *)
  used : Z;
  initialized : Z;
  next : Z;
  prev_len : Z;
}.
Arguments mkPage {T} _ _ _ _ _ _.
Arguments slots {T} _.
Arguments slots_len {T} _.
Arguments used {T} _.
Arguments initialized {T} _.
Arguments next {T} _.
Arguments prev_len {T} _.

Record Slab (T : Type) : Type := mkSlab {
  pages : list (option (Page T));
  w_page_id : nat;
  generation : Z;
}.
Arguments mkSlab {T} _ _ _.
Arguments pages {T} _.
Arguments w_page_id {T} _.
Arguments generation {T} _.

Section operations.
Context `{B : Build} {T : Type}.
Implicit Types (p : Page T) (s : Slab T) (v : T).

(** ** Page *)

Definition Page_new (size prev_len : Z) : Page T := mkPage ∅ size 0 0 0 prev_len.

Definition Page_is_empty p : bool := bool_decide (used p = 0).
Definition Page_is_full p : bool := bool_decide (used p = slots_len p).

(** [slots.get_unchecked(slot).assume_init_ref()] *)
Definition slot_init p (slot : Z) : outcome (Entry T) :=
  if decide (0 ≤ slot < slots_len p) then unwrap_unchecked (slots p !! slot) else UB.

Definition Page_alloc p : outcome (option Z * Page T) :=
  let nxt := next p in
  if Page_is_full p then
    _ ← debug_assert (bool_decide (nxt = slots_len p));
    Ret (None, p)
  else if bool_decide (initialized p ≤ nxt) then
    _ ← debug_assert (bool_decide (nxt = initialized p));
    i ← uadd 64 (initialized p) 1;
    n ← uadd 64 nxt 1;
    u ← uadd 64 (used p) 1;
    Ret (Some nxt, mkPage (slots p) (slots_len p) u i n (prev_len p))
  else
    slot ← slot_init p nxt;
    match slot with
    | Vacant next_slot =>
        u ← uadd 64 (used p) 1;
        Ret (Some nxt,
             mkPage (slots p) (slots_len p) u (initialized p) next_slot (prev_len p))
    | Occupied _ => UB
    end.

Definition Page_set p (slot : Z) v : outcome (Page T) :=
  if decide (0 ≤ slot < slots_len p) then
    Ret (mkPage (<[slot := Occupied v]> (slots p)) (slots_len p) (used p)
                (initialized p) (next p) (prev_len p))
  else UB.

Definition Page_get_entry_mut p (slot : Z) : outcome (option (Entry T)) :=
  if bool_decide (initialized p ≤ slot) then Ret None
  else Some <$> slot_init p slot.

(** [Page::get] and [Page::get_mut] read the same slot. *)
Definition Page_get p (slot : Z) : outcome (option T) :=
  if bool_decide (initialized p ≤ slot) then Ret None
  else Entry_as_ref <$> slot_init p slot.

Definition Page_remove p (slot : Z) : outcome (option T * Page T) :=
  if bool_decide (initialized p ≤ slot) then Ret (None, p)
  else
    slot_mut ← slot_init p slot;
    if Entry_is_vacant slot_mut then Ret (None, p)
    else
      u ← usub 64 (used p) 1;
      val ← unwrap_unchecked (Entry_as_ref slot_mut);
      Ret (Some val,
           mkPage (<[slot := Vacant (next p)]> (slots p)) (slots_len p) u
                  (initialized p) slot (prev_len p)).

(** ** Slab *)

Definition Slab_new : Slab T := mkSlab (replicate NUM_PAGES None) 0 0.

Definition Slab_len s : Z :=
  foldl (λ acc page, match page with Some page => acc + used page | None => acc end)
        0 (pages s).

Definition PAGE_INDEX_SHIFT : Z := trailing_zeros PAGE_INITIAL_SIZE + 1.

Definition get_page_id (key : Z) : nat :=
  let slot_shifted :=
    Z.shiftr (Z.min (key + PAGE_INITIAL_SIZE) (2 ^ 64 - 1)) PAGE_INDEX_SHIFT in
  Nat.min (Z.to_nat (64 - leading_zeros slot_shifted)) (NUM_PAGES - 1).

(** A [Ref] is the page and the index of a slot seen to be occupied. *)
Record Ref : Type := mkRef { ref_page : nat; ref_index : Z }.

Definition Slab_get s (key : Z) : outcome (option Ref) :=
  let page_id := get_page_id key in
  slot ← unwrap_unchecked (pages s !! page_id);
  match slot with
  | None => Ret None
  | Some page =>
      index ← usub 64 key (prev_len page);
      entry ← Page_get_entry_mut page index;
      match entry with
      | None => Ret None
      | Some (Vacant _) => Ret None
      | Some (Occupied _) => Ret (Some (mkRef page_id index))
      end
  end.

Definition set_page s (i : nat) (page : option (Page T)) : Slab T :=
  mkSlab (<[i := page]> (pages s)) (w_page_id s) (generation s).

(** The [for i in begin_id..NUM_PAGES] loop of [Slab::insert]. *)
Fixpoint Slab_insert_loop (ids : list nat) s v : outcome (Z * Slab T) :=
  match ids with
  | [] => Panic
  | i :: ids =>
      slot ← unwrap_unchecked (pages s !! i);
      let page := match slot with
        | Some page => page
        | None => Page_new (Z.shiftl PAGE_INITIAL_SIZE (Z.of_nat i))
                           (Z.shiftl PAGE_INITIAL_SIZE (Z.of_nat i) - PAGE_INITIAL_SIZE)
        end in
      '(allocated, page) ← Page_alloc page;
      match allocated with
      | Some slot =>
          page ← Page_set page slot v;
          key ← uadd 64 slot (prev_len page);
          Ret (key, mkSlab (<[i := Some page]> (pages s)) i (generation s))
      | None => Slab_insert_loop ids (set_page s i (Some page)) v
      end
  end.

Definition Slab_insert s v : outcome (Z * Slab T) :=
  let begin_id := w_page_id s in
  Slab_insert_loop (seq begin_id (NUM_PAGES - begin_id)) s v.

(** The last allocated page, with its index. *)
Fixpoint last_page (i : nat) (l : list (option (Page T))) : option (nat * Page T) :=
  match l with
  | [] => None
  | page :: l =>
      match last_page (S i) l with
      | Some r => Some r
      | None => (λ p, (i, p)) <$> page
      end
  end.

Definition Slab_mark_remove s : Slab T :=
  let gen := wrap 32 (generation s + 1) in
  if bool_decide (gen `mod` COMPACT_INTERVAL = 0) then
    match last_page 0 (pages s) with
    | Some (id, page) =>
        if Page_is_empty page && bool_decide (0 < id)%nat
        then mkSlab (<[id := None]> (pages s)) 0 gen
        else mkSlab (pages s) 0 gen
    | None => mkSlab (pages s) 0 gen
    end
  else mkSlab (pages s) (w_page_id s) gen.

Definition Slab_remove s (key : Z) : outcome (option T * Slab T) :=
  let page_id := get_page_id key in
  slot ← unwrap_unchecked (pages s !! page_id);
  match slot with
  | None => Ret (None, s)
  | Some page =>
      index ← usub 64 key (prev_len page);
      '(val, page) ← Page_remove page index;
      Ret (val, Slab_mark_remove (set_page s page_id (Some page)))
  end.

(** ** Ref *)

Definition Ref_page s (r : Ref) : outcome (Page T) :=
  slot ← unwrap_unchecked (pages s !! ref_page r);
  unwrap_unchecked slot.

Definition Ref_as_ref s (r : Ref) : outcome T :=
  page ← Ref_page s r;
  val ← Page_get page (ref_index r);
  unwrap_unchecked val.

(** Assignment through [as_mut]. *)
Definition Ref_assign s (r : Ref) v : outcome (Slab T) :=
  page ← Ref_page s r;
  val ← Page_get page (ref_index r);
  _ ← unwrap_unchecked val;
  page ← Page_set page (ref_index r) v;
  Ret (set_page s (ref_page r) (Some page)).

Definition Ref_remove s (r : Ref) : outcome (T * Slab T) :=
  page ← Ref_page s r;
  '(val, page) ← Page_remove page (ref_index r);
  val ← unwrap_unchecked val;
  Ret (val, Slab_mark_remove (set_page s (ref_page r) (Some page))).
End operations.

(** ** Abstraction and invariant *)

Section invariant.
Context {T : Type}.
Implicit Types (p : Page T) (s : Slab T) (m : gmap Z (Entry T)).

(** [chain m start fl stop]: following [Vacant] links from [start] visits the
    slots of [fl] in order and ends at [stop]. *)
Fixpoint chain m (start : Z) (fl : list Z) (stop : Z) : Prop :=
  match fl with
  | [] => start = stop
  | x :: fl => start = x ∧ ∃ nxt, m !! x = Some (Vacant nxt) ∧ chain m nxt fl stop
  end.

(** The values stored in a page, by slot. *)
Definition Page_content p : gmap Z T := omap Entry_as_ref (slots p).

Definition free_list p (fl : list Z) : Prop :=
  chain (slots p) (next p) fl (initialized p) ∧
  NoDup fl ∧
  (∀ x, x ∈ fl ↔ ∃ nxt, slots p !! x = Some (Vacant nxt)).

Record Page_wf p : Prop := {
  wf_bounds : 0 ≤ initialized p ≤ slots_len p ∧ slots_len p < 2 ^ 63;
  wf_slots : ∀ x, is_Some (slots p !! x) ↔ 0 ≤ x < initialized p;
  wf_free : ∃ fl, free_list p fl ∧ used p + Z.of_nat (length fl) = initialized p;
  wf_used : used p = Z.of_nat (size (Page_content p));
}.

Definition page_size (i : nat) : Z := PAGE_INITIAL_SIZE * 2 ^ Z.of_nat i.

(** Page [i] owns the keys [page_size i - 64 .. page_size (i+1) - 64). *)
Definition Page_at (i : nat) p : Prop :=
  slots_len p = page_size i ∧ prev_len p = page_size i - PAGE_INITIAL_SIZE.

Record Slab_wf s : Prop := {
  wf_npages : length (pages s) = NUM_PAGES;
  wf_pages : ∀ i p, pages s !! i = Some (Some p) → Page_wf p ∧ Page_at i p;
  wf_w_page : (w_page_id s < NUM_PAGES)%nat;
  wf_gen : 0 ≤ generation s < 2 ^ 32;
}.

(** The keys of a page are its slots shifted by [prev_len]. *)
Definition page_keys (slot : option (Page T)) : gmap Z T :=
  match slot with
  | Some p => kmap (Z.add (prev_len p)) (Page_content p)
  | None => ∅
  end.

Definition pages_content (l : list (option (Page T))) : gmap Z T :=
  foldr (λ slot acc, page_keys slot ∪ acc) ∅ l.

(** The map a slab implements. *)
Definition Slab_content s : gmap Z T := pages_content (pages s).

(** Keys the slab can ever hand out: the 26 pages hold [64 * (2^26 - 1)] slots. *)
Definition SLAB_CAPACITY : Z := PAGE_INITIAL_SIZE * (2 ^ Z.of_nat NUM_PAGES - 1).
End invariant.

Lemma SLAB_CAPACITY_eq : SLAB_CAPACITY = 4294967232.
Proof. reflexivity. Qed.

(** ** Pages *)

Section page_lemmas.
Context `{B : Build} {T : Type}.
Implicit Types (p : Page T) (m : gmap Z (Entry T)) (v : T).

Lemma chain_insert_ne m start fl stop x e :
  x ∉ fl → chain m start fl stop → chain (<[x := e]> m) start fl stop.
Proof.
  revert start. induction fl as [|y fl IH]; simpl; [done|].
  intros start [Hne Hni]%not_elem_of_cons [-> (nxt & Hy & Hc)].
  split; [done|]. exists nxt. rewrite lookup_insert_ne by done. auto.
Qed.

Lemma Page_content_lookup p x :
  Page_content p !! x = slots p !! x ≫= Entry_as_ref.
Proof. apply lookup_omap. Qed.

Lemma Page_content_occupied p x v :
  Page_content p !! x = Some v ↔ slots p !! x = Some (Occupied v).
Proof.
  rewrite Page_content_lookup. split; [|by intros ->].
  destruct (slots p !! x) as [[]|]; simpl; naive_solver.
Qed.

Lemma omap_insert_occupied m x v :
  omap Entry_as_ref (<[x := Occupied v]> m) = <[x := v]> (omap Entry_as_ref m).
Proof. by rewrite (omap_insert_Some _ _ _ _ v). Qed.

Lemma omap_insert_vacant m x n :
  omap Entry_as_ref (<[x := Vacant n]> m) = delete x (omap Entry_as_ref m).
Proof. by rewrite omap_insert_None. Qed.

(** Reading an initialised slot is defined behaviour. *)
Lemma slot_init_wf p x :
  Page_wf p → 0 ≤ x < initialized p →
  ∃ e, slots p !! x = Some e ∧ slot_init p x = Ret e.
Proof.
  intros Hwf Hx. pose proof (wf_bounds _ Hwf).
  destruct (proj2 (wf_slots _ Hwf x) Hx) as [e He].
  exists e. split; [done|]. unfold slot_init.
  rewrite decide_True by lia. by rewrite He.
Qed.

Lemma Page_wf_full p :
  Page_wf p → used p = slots_len p → next p = slots_len p ∧ initialized p = slots_len p.
Proof.
  intros Hwf Hu. pose proof (wf_bounds _ Hwf).
  destruct (wf_free _ Hwf) as (fl & (Hc & _) & Hlen).
  destruct fl as [|x fl]; simpl in *; [|lia]. lia.
Qed.

Lemma Page_new_wf i pl : 0 ≤ i < 2 ^ 63 → Page_wf (Page_new (T:=T) i pl).
Proof.
  intros Hi. split; simpl.
  - lia.
  - intros x. rewrite lookup_empty. split; [by intros [? [=]]|lia].
  - exists []. split; [|done]. repeat split; simpl; try done; try constructor.
    all: rewrite ?lookup_empty; try set_solver.
  - done.
Qed.
Lemma Page_new_content i pl : Page_content (Page_new (T:=T) i pl) = ∅.
Proof. apply omap_empty. Qed.

(** The page obtained by occupying slot [x], whose free list becomes [fl]. *)
Definition occupy p (x i n : Z) v : Page T :=
  mkPage (<[x := Occupied v]> (slots p)) (slots_len p) (used p + 1) i n (prev_len p).

Lemma occupy_content p x i n v :
  Page_content (occupy p x i n v) = <[x := v]> (Page_content p).
Proof. apply omap_insert_occupied. Qed.

Lemma occupy_wf p x i n v fl :
  Page_wf p → Page_content p !! x = None → 0 ≤ i ≤ slots_len p →
  (∀ y, 0 ≤ y < i ↔ 0 ≤ y < initialized p ∨ y = x) →
  chain (slots p) n fl i → NoDup fl →
  (∀ y, y ∈ fl ↔ y ≠ x ∧ ∃ nxt, slots p !! y = Some (Vacant nxt)) →
  used p + 1 + Z.of_nat (length fl) = i →
  Page_wf (occupy p x i n v).
Proof.
  intros Hwf Hx Hi Hdom Hc Hnd Hfl Hlen. split.
  - simpl. split; [done|]. apply (wf_bounds _ Hwf).
  - intros y. simpl. rewrite Hdom, <- (wf_slots _ Hwf).
    destruct (decide (y = x)) as [->|].
    { rewrite lookup_insert_eq. naive_solver. }
    rewrite lookup_insert_ne by done. naive_solver.
  - exists fl. split; [|done]. split_and!; simpl; [|done|].
    { apply chain_insert_ne; [|done]. rewrite Hfl. naive_solver. }
    intros y. rewrite Hfl. destruct (decide (y = x)) as [->|].
    { rewrite lookup_insert_eq. naive_solver. }
    rewrite lookup_insert_ne by done. naive_solver.
  - rewrite occupy_content, map_size_insert_None by done. simpl.
    rewrite (wf_used _ Hwf). lia.
Qed.

(** A page that is not full hands out a slot that holds nothing; once [set],
    the page is well formed again and holds exactly one more value. *)
Lemma Page_alloc_set_spec p v :
  Page_wf p → used p < slots_len p →
  ∃ slot p' p'',
    Page_alloc p = Ret (Some slot, p') ∧ Page_set p' slot v = Ret p'' ∧
    0 ≤ slot < slots_len p ∧ slots_len p'' = slots_len p ∧
    prev_len p'' = prev_len p ∧ Page_wf p'' ∧
    Page_content p !! slot = None ∧
    Page_content p'' = <[slot := v]> (Page_content p).
Proof.
  intros Hwf Hnf. pose proof (wf_bounds _ Hwf) as [Hb1 Hb2].
  pose proof (wf_slots _ Hwf) as Hs. pose proof (wf_used _ Hwf) as Hused.
  destruct (wf_free _ Hwf) as (fl & (Hc & Hnd & Hfl) & Hlen).
  unfold Page_alloc, Page_is_full.
  rewrite bool_decide_eq_false_2 by lia.
  destruct fl as [|x fl]; simpl in Hc.
  - (* a fresh slot *)
    simpl in Hlen. rewrite bool_decide_eq_true_2 by lia.
    rewrite debug_assert_true by (by apply bool_decide_eq_true_2).
    simpl. rewrite !uadd_small by lia. simpl.
    assert (Hnone : slots p !! next p = None).
    { apply eq_None_not_Some. intros ?%Hs. lia. }
    eexists _, _, (occupy p (next p) (initialized p + 1) (next p + 1) v).
    split; [done|]. unfold Page_set; simpl. rewrite decide_True by lia.
    assert (Page_content p !! next p = None) by (by rewrite Page_content_lookup, Hnone).
    split_and!; try done; try lia; [|apply occupy_content].
    apply (occupy_wf _ _ _ _ _ []); simpl; try done; try lia; try by constructor.
    intros y. split; [set_solver|]. intros [_ Hy%Hfl]. set_solver.
  - (* a recycled slot *)
    destruct Hc as [Hx (nxt & Hvac & Hc)]. apply NoDup_cons in Hnd as [Hni Hnd].
    assert (Hxr : 0 ≤ x < initialized p) by (apply Hs; eauto).
    rewrite bool_decide_eq_false_2 by lia. simpl in Hlen.
    destruct (slot_init_wf p x Hwf Hxr) as (e & He & Hsl).
    rewrite Hx, Hsl. rewrite Hvac in He. injection He as <-. simpl.
    rewrite uadd_small by lia. simpl.
    eexists _, _, (occupy p x (initialized p) nxt v).
    split; [done|]. unfold Page_set; simpl. rewrite decide_True by lia.
    assert (Page_content p !! x = None) by (by rewrite Page_content_lookup, Hvac).
    split_and!; try done; try lia; [|apply occupy_content].
    apply (occupy_wf _ _ _ _ _ fl); try done; try lia.
    intros y. rewrite <- Hfl. set_solver.
Qed.

Lemma Page_alloc_full p :
  Page_wf p → used p = slots_len p → Page_alloc p = Ret (None, p).
Proof.
  intros Hwf Hu. unfold Page_alloc, Page_is_full.
  rewrite bool_decide_eq_true_2 by done.
  rewrite debug_assert_true; [done|].
  apply bool_decide_eq_true_2. by apply Page_wf_full.
Qed.

Lemma Page_get_entry_mut_spec p x :
  Page_wf p → 0 ≤ x → Page_get_entry_mut p x = Ret (slots p !! x).
Proof.
  intros Hwf Hx. unfold Page_get_entry_mut. case_bool_decide as Hi.
  - symmetry. f_equal. apply eq_None_not_Some. rewrite (wf_slots _ Hwf). lia.
  - destruct (slot_init_wf p x Hwf) as (e & He & ->); [lia|]. by rewrite He.
Qed.

Lemma Page_get_spec p x :
  Page_wf p → 0 ≤ x → Page_get p x = Ret (Page_content p !! x).
Proof.
  intros Hwf Hx. unfold Page_get. rewrite Page_content_lookup. case_bool_decide as Hi.
  - assert (slots p !! x = None) as ->; [|done].
    apply eq_None_not_Some. rewrite (wf_slots _ Hwf). lia.
  - destruct (slot_init_wf p x Hwf) as (e & He & ->); [lia|]. by rewrite He.
Qed.

(** Overwriting an occupied slot. *)
Lemma Page_set_occupied p x v w :
  Page_wf p → Page_content p !! x = Some w →
  ∃ p', Page_set p x v = Ret p' ∧ Page_wf p' ∧ slots_len p' = slots_len p ∧
        prev_len p' = prev_len p ∧ Page_content p' = <[x := v]> (Page_content p).
Proof.
  intros Hwf Hx%Page_content_occupied. pose proof (wf_bounds _ Hwf).
  assert (Hr : 0 ≤ x < initialized p) by (apply (wf_slots _ Hwf); eauto).
  unfold Page_set. rewrite decide_True by lia.
  eexists. split; [done|]. simpl. split_and!; try done.
  - split; simpl; [done| | |].
    + intros y. rewrite <- (wf_slots _ Hwf). destruct (decide (y = x)) as [->|].
      { rewrite lookup_insert_eq, Hx. split; eauto. }
      by rewrite lookup_insert_ne by done.
    + destruct (wf_free _ Hwf) as (fl & (Hc & Hnd & Hfl) & Hlen).
      assert (Hni : x ∉ fl) by (rewrite Hfl; naive_solver).
      exists fl. split; [|done]. split_and!; simpl; [by apply chain_insert_ne|done|].
      intros y. destruct (decide (y = x)) as [->|].
      { rewrite lookup_insert_eq. naive_solver. }
      rewrite lookup_insert_ne by done. apply Hfl.
    + unfold Page_content; simpl. rewrite omap_insert_occupied.
      rewrite map_size_insert_Some; [apply (wf_used _ Hwf)|].
      exists w. by apply Page_content_occupied.
  - unfold Page_content; simpl. apply omap_insert_occupied.
Qed.

(** Removal frees the slot and pushes it on the free list. *)
Lemma Page_remove_spec p x :
  Page_wf p → 0 ≤ x →
  ∃ p', Page_remove p x = Ret (Page_content p !! x, p') ∧ Page_wf p' ∧
        slots_len p' = slots_len p ∧ prev_len p' = prev_len p ∧
        Page_content p' = delete x (Page_content p).
Proof.
  intros Hwf Hx. unfold Page_remove. rewrite Page_content_lookup.
  case_bool_decide as Hi.
  { exists p. assert (Hn : slots p !! x = None).
    { apply eq_None_not_Some. rewrite (wf_slots _ Hwf). lia. }
    rewrite Hn. split_and!; try done.
    rewrite delete_id; [done|]. by rewrite Page_content_lookup, Hn. }
  destruct (slot_init_wf p x Hwf) as (e & He & ->); [lia|].
  rewrite He. simpl. destruct e as [nxt|w]; simpl.
  { exists p. split_and!; try done.
    rewrite delete_id; [done|]. by rewrite Page_content_lookup, He. }
  assert (Hw : Page_content p !! x = Some w) by by apply Page_content_occupied.
  pose proof (wf_bounds _ Hwf).
  assert (Hsz : used p = 1 + Z.of_nat (size (delete x (Page_content p)))).
  { rewrite (wf_used _ Hwf), <- (insert_delete_id (Page_content p) x w) at 1 by done.
    rewrite map_size_insert_None by apply lookup_delete_eq. lia. }
  destruct (wf_free _ Hwf) as (fl & (Hc & Hnd & Hfl) & Hlen).
  rewrite usub_small by lia. simpl.
  eexists. split; [done|]. simpl. split_and!; try done.
  - assert (Hni : x ∉ fl) by (rewrite Hfl; naive_solver).
    split; simpl; [done| | |].
    + intros y. destruct (decide (y = x)) as [->|].
      { rewrite lookup_insert_eq. split; [lia|eauto]. }
      rewrite lookup_insert_ne by done. apply (wf_slots _ Hwf).
    + exists (x :: fl). split; [|simpl; lia]. split_and!; simpl.
      * split; [done|]. exists (next p). rewrite lookup_insert_eq.
        split; [done|]. by apply chain_insert_ne.
      * by constructor.
      * intros y. rewrite elem_of_cons. destruct (decide (y = x)) as [->|].
        { rewrite lookup_insert_eq. naive_solver. }
        rewrite lookup_insert_ne by done. rewrite Hfl. naive_solver.
    + unfold Page_content; simpl. rewrite omap_insert_vacant. fold (Page_content p). lia.
  - unfold Page_content; simpl. apply omap_insert_vacant.
Qed.
End page_lemmas.

(** ** Keys and page numbers *)

Section page_ids.
Lemma PAGE_INDEX_SHIFT_eq : PAGE_INDEX_SHIFT = 7.
Proof. reflexivity. Qed.

Lemma page_size_pos i : 64 ≤ page_size i.
Proof. unfold page_size, PAGE_INITIAL_SIZE. pose proof (Z.pow_pos_nonneg 2 (Z.of_nat i)). lia. Qed.

Lemma page_size_S i : page_size (S i) = 2 * page_size i.
Proof. unfold page_size. rewrite Nat2Z.inj_succ, Z.pow_succ_r by lia. lia. Qed.

Lemma page_size_mono i j : (i ≤ j)%nat → page_size i ≤ page_size j.
Proof. intros. unfold page_size, PAGE_INITIAL_SIZE. pose proof (Z.pow_le_mono_r 2 (Z.of_nat i) (Z.of_nat j)). lia. Qed.

Lemma page_size_max i : (i < NUM_PAGES)%nat → page_size i ≤ 2 ^ 31.
Proof. intros. apply (page_size_mono i 25). unfold NUM_PAGES in *. lia. Qed.

Lemma get_page_id_lt key : (get_page_id key < NUM_PAGES)%nat.
Proof. unfold get_page_id, NUM_PAGES. lia. Qed.

(** The bit length of [(key + 64) / 128] that [get_page_id] computes. *)
Lemma bit_length_spec n : 0 ≤ n →
  (n = 0 ∧ Z.to_nat (64 - leading_zeros n) = O) ∨
  (∃ i : nat, Z.to_nat (64 - leading_zeros n) = S i ∧ 2 ^ Z.of_nat i ≤ n < 2 ^ Z.of_nat (S i)).
Proof.
  intros Hn. unfold leading_zeros. case_decide as H0; [left; split; [done|reflexivity]|].
  right. exists (Z.to_nat (Z.log2 n)). pose proof (Z.log2_nonneg n).
  split; [lia|]. rewrite Nat2Z.inj_succ, Z2Nat.id by done.
  apply Z.log2_spec. lia.
Qed.

Lemma get_page_id_bounds key :
  0 ≤ key < 2 ^ 64 →
  page_size (get_page_id key) - PAGE_INITIAL_SIZE ≤ key ∧
  (key < SLAB_CAPACITY → key < page_size (S (get_page_id key)) - PAGE_INITIAL_SIZE).
Proof.
  intros Hk. unfold get_page_id. rewrite PAGE_INDEX_SHIFT_eq, Z.shiftr_div_pow2 by lia.
  set (n := Z.min (key + PAGE_INITIAL_SIZE) (2 ^ 64 - 1) / 2 ^ 7).
  assert (Hn : 0 ≤ n) by (apply Z.div_pos; unfold PAGE_INITIAL_SIZE; lia).
  assert (Hdiv : 128 * n ≤ Z.min (key + 64) (2 ^ 64 - 1) < 128 * n + 128).
  { unfold n, PAGE_INITIAL_SIZE. clear n Hn.
    pose proof (Z.div_mod (Z.min (key + 64) (2 ^ 64 - 1)) (2 ^ 7) ltac:(lia)).
    pose proof (Z.mod_pos_bound (Z.min (key + 64) (2 ^ 64 - 1)) (2 ^ 7) ltac:(lia)). lia. }
  unfold SLAB_CAPACITY. rewrite page_size_S. unfold page_size, PAGE_INITIAL_SIZE.
  destruct (bit_length_spec n Hn) as [[H0 ->]|(i & -> & Hi)].
  - simpl. lia.
  - set (c := (NUM_PAGES - 1)%nat). rewrite Nat2Z.inj_succ, Z.pow_succ_r in Hi by lia.
    destruct (decide (S i ≤ c)%nat) as [Hle|Hgt].
    + rewrite Nat.min_l by exact Hle. rewrite Nat2Z.inj_succ, Z.pow_succ_r by lia.
      assert (2 ^ Z.of_nat i ≤ 2 ^ 24).
      { apply Z.pow_le_mono_r; [lia|]. unfold c, NUM_PAGES in Hle. lia. }
      lia.
    + rewrite Nat.min_r by lia. assert (2 ^ 25 ≤ 2 ^ Z.of_nat i).
      { apply Z.pow_le_mono_r; [lia|]. unfold c, NUM_PAGES in Hgt. lia. }
      unfold c, NUM_PAGES. simpl (Z.of_nat (26 - 1)). simpl (Z.of_nat 26). lia.
Qed.

(** Page [i] owns exactly its own key interval. *)
Lemma get_page_id_spec i key :
  (i < NUM_PAGES)%nat →
  page_size i - PAGE_INITIAL_SIZE ≤ key < page_size (S i) - PAGE_INITIAL_SIZE →
  get_page_id key = i.
Proof.
  intros Hi Hk. pose proof (page_size_pos i). pose proof (page_size_max i Hi).
  assert (Hcap : key < SLAB_CAPACITY).
  { pose proof (page_size_mono (S i) 26). unfold SLAB_CAPACITY, NUM_PAGES in *.
    change (page_size 26) with (64 * 2 ^ 26) in *. unfold PAGE_INITIAL_SIZE in *.
    specialize (H1 ltac:(lia)). lia. }
  rewrite page_size_S in Hk. unfold PAGE_INITIAL_SIZE in *.
  destruct (get_page_id_bounds key ltac:(lia)) as [Hlo Hhi].
  specialize (Hhi Hcap). unfold PAGE_INITIAL_SIZE in *.
  destruct (Nat.lt_trichotomy (get_page_id key) i) as [Hlt|[->|Hgt]]; [|done|].
  - pose proof (page_size_mono (S (get_page_id key)) i ltac:(lia)). lia.
  - pose proof (page_size_mono (S i) (get_page_id key) ltac:(lia)).
    rewrite page_size_S in *. lia.
Qed.
End page_ids.

(** ** The content of a slab *)

#[export] Instance Z_add_inj n : Inj (=) (=) (Z.add n).
Proof. intros x y ?. lia. Qed.

Section content.
Context {T : Type}.
Implicit Types (p : Page T) (s : Slab T) (v : T) (l : list (option (Page T))).

Definition in_page (i : nat) (k : Z) : Prop :=
  page_size i - PAGE_INITIAL_SIZE ≤ k < page_size (S i) - PAGE_INITIAL_SIZE.

Lemma in_page_inj i j k : in_page i k → in_page j k → i = j.
Proof.
  unfold in_page. intros Hi Hj.
  destruct (Nat.lt_trichotomy i j) as [Hlt|[->|Hlt]]; [|done|].
  - pose proof (page_size_mono (S i) j). lia.
  - pose proof (page_size_mono (S j) i). lia.
Qed.

Lemma page_keys_Some p k v :
  page_keys (Some p) !! k = Some v ↔ Page_content p !! (k - prev_len p) = Some v.
Proof.
  simpl. rewrite (lookup_kmap_Some (Z.add (prev_len p))). split.
  - intros (j & -> & Hj). by replace (prev_len p + j - prev_len p) with j by lia.
  - intros H. exists (k - prev_len p). split; [lia|done].
Qed.

Lemma Page_content_range p x v :
  Page_wf p → Page_content p !! x = Some v → 0 ≤ x < slots_len p.
Proof.
  intros Hwf Hx%Page_content_occupied. pose proof (wf_bounds _ Hwf).
  assert (0 ≤ x < initialized p) by (apply (wf_slots _ Hwf); eauto). lia.
Qed.

Lemma page_keys_range p i k v :
  Page_wf p → Page_at i p → page_keys (Some p) !! k = Some v → in_page i k.
Proof.
  intros Hwf [Hlen Hpl] Hk%page_keys_Some.
  apply Page_content_range in Hk; [|done]. unfold in_page. rewrite page_size_S. lia.
Qed.

(** The pages [l] sit at positions [off], [off+1], ... *)
Definition pages_wf (off : nat) l : Prop :=
  ∀ i p, l !! i = Some (Some p) → Page_wf p ∧ Page_at (off + i) p.

Lemma pages_wf_cons off o l :
  pages_wf off (o :: l) ↔
  (∀ p, o = Some p → Page_wf p ∧ Page_at off p) ∧ pages_wf (S off) l.
Proof.
  split.
  - intros H; split.
    + intros p ->. rewrite <- (Nat.add_0_r off). by apply (H 0%nat).
    + intros i p Hi. replace (S off + i)%nat with (off + S i)%nat by lia. by apply H.
  - intros [Ho Hl] [|i] p; simpl.
    + intros [= ->]. rewrite Nat.add_0_r. by apply Ho.
    + intros Hi. replace (off + S i)%nat with (S off + i)%nat by lia. by apply Hl.
Qed.

Lemma pages_content_range off l k v :
  pages_wf off l → pages_content l !! k = Some v → ∃ i, in_page (off + i) k.
Proof.
  revert off. induction l as [|o l IH]; intros off; simpl.
  - intros _ [=].
  - intros [Ho Hl]%pages_wf_cons [Hk|[_ Hk]]%lookup_union_Some_raw.
    + destruct o as [p|]; [|done]. destruct (Ho p eq_refl).
      exists 0%nat. rewrite Nat.add_0_r. eauto using page_keys_range.
    + destruct (IH _ Hl Hk) as [i Hi]. exists (S i). by rewrite Nat.add_succ_r.
Qed.

Lemma pages_content_disjoint off o l :
  pages_wf off (o :: l) → page_keys o ##ₘ pages_content l.
Proof.
  intros [Ho Hl]%pages_wf_cons. apply map_disjoint_spec. intros k v w Hk Hw.
  destruct o as [p|]; [|done]. destruct (Ho p eq_refl).
  destruct (pages_content_range _ _ _ _ Hl Hw) as [i Hi].
  assert (off = S off + i)%nat by (eapply in_page_inj; eauto using page_keys_range). lia.
Qed.

Lemma pages_content_Some off l k v :
  pages_wf off l →
  pages_content l !! k = Some v ↔
  ∃ i p, l !! i = Some (Some p) ∧ Page_content p !! (k - prev_len p) = Some v.
Proof.
  revert off. induction l as [|o l IH]; intros off Hwf; simpl.
  { rewrite lookup_empty. split; [done|]. by intros (? & ? & [=] & _). }
  pose proof (pages_content_disjoint _ _ _ Hwf) as Hd.
  rewrite lookup_union_Some by done. apply pages_wf_cons in Hwf as [_ Hl].
  rewrite (IH _ Hl). split.
  - intros [Hk|(i & p & ? & ?)]; [|by exists (S i), p].
    destruct o as [p|]; [|done]. exists 0%nat, p. by rewrite <- page_keys_Some.
  - intros ([|i] & p & Hi & Hk); simpl in Hi; [|eauto].
    left. injection Hi as ->. by apply page_keys_Some.
Qed.

Lemma Slab_wf_pages s : Slab_wf s → pages_wf 0 (pages s).
Proof. intros Hwf. exact (wf_pages _ Hwf). Qed.

(** What page [i] holds; nothing when it is not allocated. *)
Definition page_content_at l (i : nat) : gmap Z T :=
  match l !! i with Some (Some p) => Page_content p | _ => ∅ end.

Lemma pages_content_in l i k :
  pages_wf 0 l → in_page i k →
  pages_content l !! k = page_content_at l i !! (k - (page_size i - PAGE_INITIAL_SIZE)).
Proof.
  intros Hwf Hk. apply option_eq. intros v.
  rewrite (pages_content_Some _ _ _ _ Hwf). unfold page_content_at. split.
  - intros (j & p & Hj & Hv). destruct (Hwf _ _ Hj) as [Hp Hat].
    assert (j = i) as ->.
    { eapply in_page_inj; [|exact Hk]. eapply page_keys_range; [done..|].
      by apply page_keys_Some. }
    rewrite Hj. destruct Hat as [_ Hpl]. by rewrite Hpl in Hv.
  - destruct (l !! i) as [[p|]|] eqn:Hi; [|done|done]. intros Hv.
    exists i, p. split; [done|]. destruct (Hwf _ _ Hi) as [_ [_ Hpl]].
    by rewrite Hpl.
Qed.

Lemma pages_content_out l k :
  pages_wf 0 l → (∀ i, (i < length l)%nat → ¬ in_page i k) → pages_content l !! k = None.
Proof.
  intros Hwf Hout. apply eq_None_not_Some. intros [v Hv].
  apply (pages_content_Some _ _ _ _ Hwf) in Hv as (i & p & Hi & Hv).
  destruct (Hwf _ _ Hi) as [Hp Hat].
  apply (Hout i); [by eapply lookup_lt_Some|].
  eapply page_keys_range; [done..|]. by apply page_keys_Some.
Qed.

Lemma page_content_at_ext l l' :
  pages_wf 0 l → pages_wf 0 l' → length l = length l' →
  (∀ i, page_content_at l i = page_content_at l' i) →
  pages_content l = pages_content l'.
Proof.
  intros Hwf Hwf' Hlen Hat. apply map_eq. intros k.
  destruct (decide (Exists (λ i, in_page i k) (seq 0 (length l)))) as [Hin|Hout].
  - apply Exists_exists in Hin as (i & _ & Hi).
    by rewrite !(pages_content_in _ i) by done; rewrite Hat.
  - assert (∀ i, (i < length l)%nat → ¬ in_page i k) as Hni.
    { intros i Hi Hk. apply Hout, Exists_exists. exists i.
      split; [apply elem_of_seq; lia|done]. }
    rewrite !pages_content_out; [done|done| |done|done]. by rewrite <- Hlen.
Qed.

(** Replacing page [i] by one whose content changed at one slot. *)
Lemma pages_content_update l i p f j :
  pages_wf 0 l → (i < length l)%nat → Page_wf p → Page_at i p →
  0 ≤ j < slots_len p →
  (∀ x, x ≠ j → Page_content p !! x = page_content_at l i !! x) →
  Page_content p !! j = f →
  pages_wf 0 (<[i := Some p]> l) ∧
  pages_content (<[i := Some p]> l) =
    partial_alter (λ _, f) (j + prev_len p) (pages_content l).
Proof.
  intros Hwf Hi Hp Hat Hj Hother Hjf.
  assert (Hwf' : pages_wf 0 (<[i := Some p]> l)).
  { intros i' p'. rewrite list_lookup_insert. case_decide as Hd; [|apply Hwf].
    intros [= <-]. destruct Hd as [-> _]. done. }
  split; [done|]. destruct Hat as [Hlen Hpl]. apply map_eq. intros k.
  assert (Hat' : ∀ i', page_content_at (<[i:=Some p]> l) i' =
    if decide (i' = i) then Page_content p else page_content_at l i').
  { intros i'. unfold page_content_at. rewrite list_lookup_insert. repeat case_decide; naive_solver lia. }
  destruct (decide (Exists (λ i, in_page i k) (seq 0 (length l)))) as [Hin|Hout].
  - apply Exists_exists in Hin as (i' & _ & Hi').
    rewrite (pages_content_in _ i') by done. rewrite Hat'. case_decide as Hii.
    + subst i'. destruct (decide (k = j + prev_len p)) as [->|Hne].
      { rewrite lookup_partial_alter_eq, <- Hjf. f_equal. lia. }
      rewrite lookup_partial_alter_ne by done. rewrite (pages_content_in _ i) by done.
      apply Hother. lia.
    + rewrite lookup_partial_alter_ne; [by rewrite (pages_content_in _ i')|].
      intros <-. apply Hii. eapply in_page_inj; [done|]. unfold in_page. rewrite page_size_S. lia.
  - assert (∀ i, (i < length l)%nat → ¬ in_page i k) as Hni.
    { intros i' ? Hk. apply Hout, Exists_exists. exists i'.
      split; [apply elem_of_seq; lia|done]. }
    rewrite pages_content_out by (rewrite ?length_insert; done).
    rewrite lookup_partial_alter_ne; [by rewrite pages_content_out|].
    intros <-. apply (Hni i); [done|]. unfold in_page. rewrite page_size_S. lia.
Qed.
End content.

(** ** Slab operations refine map operations *)

Section slab_lemmas.
Context `{B : Build} {T : Type}.
Implicit Types (p : Page T) (s : Slab T) (v : T) (l : list (option (Page T))).

Lemma Slab_new_wf : Slab_wf (Slab_new (T:=T)).
Proof.
  split; [apply length_replicate| |unfold NUM_PAGES; simpl; lia|simpl; lia].
  intros i p [[=] _]%lookup_replicate_1.
Qed.

Lemma Slab_new_content : Slab_content (Slab_new (T:=T)) = ∅.
Proof. reflexivity. Qed.

Lemma pages_lookup s i :
  Slab_wf s → (i < NUM_PAGES)%nat → is_Some (pages s !! i).
Proof. intros Hwf ?. apply lookup_lt_is_Some. by rewrite (wf_npages _ Hwf). Qed.

Lemma in_get_page_id k : 0 ≤ k < SLAB_CAPACITY → in_page (get_page_id k) k.
Proof.
  intros Hk. pose proof Hk as [_ Hc]. rewrite SLAB_CAPACITY_eq in Hk.
  destruct (get_page_id_bounds k ltac:(lia)) as [Hlo Hhi].
  split; [done|]. by apply Hhi.
Qed.

(** A key is looked up in the page [get_page_id] selects. *)
Lemma Slab_content_lookup s k :
  Slab_wf s → 0 ≤ k < 2 ^ 64 →
  Slab_content s !! k =
    page_content_at (pages s) (get_page_id k) !!
      (k - (page_size (get_page_id k) - PAGE_INITIAL_SIZE)).
Proof.
  intros Hwf Hk. pose proof (Slab_wf_pages _ Hwf) as Hp.
  destruct (decide (k < SLAB_CAPACITY)) as [Hc|Hc].
  { apply pages_content_in; [done|]. apply in_get_page_id. lia. }
  assert (Hno : ∀ i, (i < NUM_PAGES)%nat → ¬ in_page i k).
  { intros i Hi [_ Hhi]. pose proof (page_size_mono (S i) 26).
    unfold SLAB_CAPACITY, NUM_PAGES in *. change (page_size 26) with (64 * 2 ^ 26) in *.
    unfold PAGE_INITIAL_SIZE in *. lia. }
  unfold Slab_content. rewrite pages_content_out by (rewrite ?(wf_npages _ Hwf); done).
  symmetry. apply eq_None_not_Some. intros [v Hv]. unfold page_content_at in Hv.
  destruct (pages s !! get_page_id k) as [[p|]|] eqn:Hpk; [|done|done].
  destruct (wf_pages _ Hwf _ _ Hpk) as [Hpw Hat].
  apply (Hno (get_page_id k)); [apply get_page_id_lt|].
  apply (page_keys_range p _ _ v); [done..|]. apply page_keys_Some. by destruct Hat as [_ ->].
Qed.

Lemma Slab_content_key s k v :
  Slab_wf s → Slab_content s !! k = Some v → 0 ≤ k < SLAB_CAPACITY.
Proof.
  intros Hwf Hk. pose proof (Slab_wf_pages _ Hwf) as Hp.
  apply (pages_content_Some _ _ _ _ Hp) in Hk as (i & p & Hi & Hv).
  destruct (wf_pages _ Hwf _ _ Hi) as [Hpw Hat].
  apply (page_keys_Some p k v), (page_keys_range p i) in Hv as [Hlo Hhi]; [|done..].
  pose proof (page_size_pos i). apply lookup_lt_Some in Hi.
  rewrite (wf_npages _ Hwf) in Hi. pose proof (page_size_mono (S i) 26).
  unfold SLAB_CAPACITY, NUM_PAGES in *. change (page_size 26) with (64 * 2 ^ 26) in *.
  unfold PAGE_INITIAL_SIZE in *. lia.
Qed.

(** ** mark_remove *)

Lemma last_page_Some l off id p :
  last_page off l = Some (id, p) → (off ≤ id)%nat ∧ l !! (id - off)%nat = Some (Some p).
Proof.
  revert off. induction l as [|o l IH]; intros off; simpl; [done|].
  destruct (last_page (S off) l) as [[id' p']|] eqn:E.
  - intros [= -> ->]. apply IH in E as [Hle Hl]. split; [lia|].
    by replace (id - off)%nat with (S (id - S off)) by lia.
  - destruct o as [q|]; [|done]. simpl. intros [= <- <-].
    by rewrite Nat.sub_diag.
Qed.

Lemma Page_empty_content p : Page_wf p → used p = 0 → Page_content p = ∅.
Proof. intros Hwf Hu. rewrite (wf_used _ Hwf) in Hu. apply map_size_empty_inv. lia. Qed.

Lemma Slab_wf_repage s l w g :
  Slab_wf s → length l = NUM_PAGES → pages_wf 0 l → (w < NUM_PAGES)%nat → 0 ≤ g < 2 ^ 32 →
  Slab_wf (mkSlab l w g).
Proof. intros ? ? Hl ? ?. by split. Qed.

Lemma Slab_mark_remove_spec s :
  Slab_wf s → Slab_wf (Slab_mark_remove s) ∧
              Slab_content (Slab_mark_remove s) = Slab_content s.
Proof.
  intros Hwf. assert (Hg : 0 ≤ wrap 32 (generation s + 1) < 2 ^ 32) by by apply wrap_bounds.
  pose proof (wf_npages _ Hwf) as Hlen. pose proof (Slab_wf_pages _ Hwf) as Hp.
  pose proof (wf_w_page _ Hwf). assert (0 < NUM_PAGES)%nat by (unfold NUM_PAGES; lia).
  unfold Slab_mark_remove. case_bool_decide; [|by split; [apply (Slab_wf_repage s)|]].
  destruct (last_page 0 (pages s)) as [[id p]|] eqn:E;
    [|by split; [apply (Slab_wf_repage s)|]].
  destruct (Page_is_empty p && _) eqn:He; [|by split; [apply (Slab_wf_repage s)|]].
  apply andb_true_iff in He as [Hu%bool_decide_eq_true _].
  apply last_page_Some in E as [_ E]. rewrite Nat.sub_0_r in E.
  destruct (wf_pages _ Hwf _ _ E) as [Hpw _].
  assert (Hp' : pages_wf 0 (<[id := None]> (pages s))).
  { intros i q. rewrite list_lookup_insert. case_decide; [by intros [=]|apply Hp]. }
  split; [apply (Slab_wf_repage s); rewrite ?length_insert; done|].
  apply page_content_at_ext; simpl; rewrite ?length_insert; try done.
  intros i. unfold page_content_at. rewrite list_lookup_insert.
  case_decide as Hd; [|done]. destruct Hd as [<- _]. rewrite E.
  symmetry. by apply Page_empty_content.
Qed.

(** ** get and the slot reference *)

Definition key_ref (k : Z) : Ref :=
  mkRef (get_page_id k) (k - (page_size (get_page_id k) - PAGE_INITIAL_SIZE)).

Lemma key_index s k p :
  Slab_wf s → 0 ≤ k < 2 ^ 64 → pages s !! get_page_id k = Some (Some p) →
  Page_wf p ∧ Page_at (get_page_id k) p ∧
  usub 64 k (prev_len p) = Ret (ref_index (key_ref k)) ∧ 0 ≤ ref_index (key_ref k) ∧
  Page_content p !! ref_index (key_ref k) = Slab_content s !! k.
Proof.
  intros Hwf Hk Hp. destruct (wf_pages _ Hwf _ _ Hp) as [Hpw Hat].
  destruct (get_page_id_bounds k Hk) as [Hlo _]. pose proof (page_size_pos (get_page_id k)).
  split; [done|]. split; [done|]. pose proof Hat as [_ Hpl].
  rewrite Slab_content_lookup by done. unfold page_content_at. rewrite Hp. simpl.
  split_and!; [|unfold PAGE_INITIAL_SIZE in *; lia|done].
  rewrite usub_small; [by rewrite Hpl|]. rewrite Hpl. unfold PAGE_INITIAL_SIZE in *. lia.
Qed.

Lemma Slab_get_eq s k :
  Slab_wf s → 0 ≤ k < 2 ^ 64 →
  Slab_get s k = Ret (match Slab_content s !! k with
                      | Some _ => Some (key_ref k) | None => None end).
Proof.
  intros Hwf Hk. unfold Slab_get.
  destruct (pages_lookup s (get_page_id k) Hwf (get_page_id_lt k)) as [[p|] Hp];
    rewrite Hp; simpl.
  - destruct (key_index s k p Hwf Hk Hp) as (Hpw & Hat & -> & Hidx & Hc). simpl.
    rewrite Page_get_entry_mut_spec by done. simpl.
    rewrite <- Hc, Page_content_lookup. simpl.
    by destruct (slots p !! _) as [[]|].
  - rewrite Slab_content_lookup by done. unfold page_content_at. by rewrite Hp.
Qed.

Lemma key_ref_page s k v :
  Slab_wf s → Slab_content s !! k = Some v →
  ∃ p, pages s !! get_page_id k = Some (Some p) ∧ Ref_page s (key_ref k) = Ret p ∧
       Page_content p !! ref_index (key_ref k) = Some v.
Proof.
  intros Hwf Hv. assert (Hk := Slab_content_key _ _ _ Hwf Hv).
  assert (Hk' : 0 ≤ k < 2 ^ 64).
  { rewrite SLAB_CAPACITY_eq in Hk; lia. }
  destruct (pages_lookup s (get_page_id k) Hwf (get_page_id_lt k)) as [[p|] Hp].
  - destruct (key_index s k p Hwf Hk' Hp) as (_ & _ & _ & _ & Hc).
    exists p. split; [done|]. unfold Ref_page, key_ref at 1. simpl ref_page. rewrite Hp.
    split; [done|]. by rewrite Hc.
  - rewrite Slab_content_lookup in Hv by done. unfold page_content_at in Hv.
    by rewrite Hp in Hv.
Qed.

Lemma Ref_as_ref_spec s k v :
  Slab_wf s → Slab_content s !! k = Some v → Ref_as_ref s (key_ref k) = Ret v.
Proof.
  intros Hwf Hv. destruct (key_ref_page _ _ _ Hwf Hv) as (p & Hp & Hrp & Hc).
  unfold Ref_as_ref. rewrite Hrp. simpl.
  destruct (wf_pages _ Hwf _ _ Hp) as [Hpw _].
  pose proof (Page_content_range _ _ _ Hpw Hc). simpl in *.
  rewrite Page_get_spec by (done || lia). simpl. by rewrite Hc.
Qed.

(** Storing page [p'] back at the position of key [k]. *)
Lemma set_page_spec s k p' f :
  Slab_wf s → 0 ≤ k < SLAB_CAPACITY → Page_wf p' → Page_at (get_page_id k) p' →
  (∀ x, x ≠ ref_index (key_ref k) →
     Page_content p' !! x = page_content_at (pages s) (get_page_id k) !! x) →
  Page_content p' !! ref_index (key_ref k) = f →
  Slab_wf (set_page s (get_page_id k) (Some p')) ∧
  Slab_content (set_page s (get_page_id k) (Some p')) =
    partial_alter (λ _, f) k (Slab_content s).
Proof.
  intros Hwf Hk Hpw Hat Hother Hf. pose proof (get_page_id_lt k) as Hlt.
  destruct (in_get_page_id k Hk) as [Hlo Hhi]. rewrite page_size_S in Hhi.
  pose proof Hat as [Hlen Hpl].
  assert (Hlt' : (get_page_id k < length (pages s))%nat) by by rewrite (wf_npages _ Hwf).
  assert (Hidx : 0 ≤ ref_index (key_ref k) < slots_len p') by (simpl; rewrite Hlen; lia).
  destruct (pages_content_update (pages s) (get_page_id k) p' f (ref_index (key_ref k))
              (Slab_wf_pages _ Hwf) Hlt' Hpw Hat Hidx Hother Hf) as [Hwf' Hc].
  split.
  - apply (Slab_wf_repage s); [done| |done|apply (wf_w_page _ Hwf)|apply (wf_gen _ Hwf)].
    by rewrite length_insert, (wf_npages _ Hwf).
  - unfold Slab_content, set_page; simpl. rewrite Hc. f_equal. simpl. rewrite Hpl. lia.
Qed.

Lemma page_content_at_eq s i p :
  pages s !! i = Some (Some p) → page_content_at (pages s) i = Page_content p.
Proof. unfold page_content_at. by intros ->. Qed.

Lemma Ref_assign_spec s k v w :
  Slab_wf s → Slab_content s !! k = Some w →
  ∃ s', Ref_assign s (key_ref k) v = Ret s' ∧ Slab_wf s' ∧
        Slab_content s' = <[k := v]> (Slab_content s).
Proof.
  intros Hwf Hw. assert (Hk := Slab_content_key _ _ _ Hwf Hw).
  destruct (key_ref_page _ _ _ Hwf Hw) as (p & Hp & Hrp & Hc).
  destruct (wf_pages _ Hwf _ _ Hp) as [Hpw Hat].
  pose proof (Page_content_range _ _ _ Hpw Hc). unfold Ref_assign. rewrite Hrp. simpl in *.
  rewrite Page_get_spec by (done || lia). simpl. rewrite Hc. simpl.
  destruct (Page_set_occupied p _ v w Hpw Hc) as (p' & -> & Hpw' & Hl' & Hpl' & Hc').
  simpl. eexists. split; [done|]. apply set_page_spec; try done.
  - destruct Hat. split; congruence.
  - intros x Hx. rewrite Hc', (page_content_at_eq _ _ _ Hp). by rewrite lookup_insert_ne.
  - simpl. rewrite Hc'. by rewrite lookup_insert_eq.
Qed.

(** Removing the slot of [k], as both [Slab::remove] and [Ref::remove] do. *)
Lemma remove_slot_spec s k p p' :
  Slab_wf s → 0 ≤ k < 2 ^ 64 → pages s !! get_page_id k = Some (Some p) →
  Page_wf p' → slots_len p' = slots_len p → prev_len p' = prev_len p →
  Page_content p' = delete (ref_index (key_ref k)) (Page_content p) →
  let s' := Slab_mark_remove (set_page s (get_page_id k) (Some p')) in
  Slab_wf s' ∧ Slab_content s' = delete k (Slab_content s).
Proof.
  intros Hwf Hk Hp Hpw' Hl Hpl Hc s'. destruct (wf_pages _ Hwf _ _ Hp) as [Hpw Hat].
  assert (Hat' : Page_at (get_page_id k) p') by (destruct Hat; split; congruence).
  cut (Slab_wf (set_page s (get_page_id k) (Some p')) ∧
       Slab_content (set_page s (get_page_id k) (Some p')) = delete k (Slab_content s)).
  { intros [Hwf' Hc']. destruct (Slab_mark_remove_spec _ Hwf') as [? Hm].
    split; [done|]. unfold s'. by rewrite Hm. }
  destruct (decide (k < SLAB_CAPACITY)) as [Hcap|Hcap].
  - apply set_page_spec; try done; [lia| |].
    + intros x Hx. rewrite Hc, (page_content_at_eq _ _ _ Hp). by rewrite lookup_delete_ne.
    + rewrite Hc. by rewrite lookup_delete_eq.
  - (* a key beyond every page: nothing is stored there *)
    assert (Hnone : Slab_content s !! k = None).
    { apply eq_None_not_Some. intros [v Hv]. apply Slab_content_key in Hv; [lia|done]. }
    destruct (key_index s k p Hwf Hk Hp) as (_ & _ & _ & _ & Hck).
    rewrite Hnone in Hck. rewrite delete_id in Hc by done.
    rewrite (delete_id _ _ Hnone).
    assert (Hpwf : pages_wf 0 (<[get_page_id k:=Some p']> (pages s))).
    { intros i q. rewrite list_lookup_insert. case_decide as Hd; [|apply (wf_pages _ Hwf)].
      destruct Hd as [<- _]. by intros [= <-]. }
    split.
    + apply (Slab_wf_repage s); [done| |done|apply (wf_w_page _ Hwf)|apply (wf_gen _ Hwf)].
      by rewrite length_insert, (wf_npages _ Hwf).
    + apply page_content_at_ext; [done|by apply Slab_wf_pages|apply length_insert|].
      intros i. unfold page_content_at. simpl. rewrite list_lookup_insert.
      case_decide as Hd; [|done]. destruct Hd as [<- _]. by rewrite Hp.
Qed.

Lemma Slab_remove_eq s k :
  Slab_wf s → 0 ≤ k < 2 ^ 64 →
  ∃ s', Slab_remove s k = Ret (Slab_content s !! k, s') ∧ Slab_wf s' ∧
        Slab_content s' = delete k (Slab_content s).
Proof.
  intros Hwf Hk. unfold Slab_remove.
  destruct (pages_lookup s (get_page_id k) Hwf (get_page_id_lt k)) as [[p|] Hp];
    rewrite Hp; simpl.
  - destruct (key_index s k p Hwf Hk Hp) as (Hpw & Hat & -> & Hidx & Hc). simpl.
    destruct (Page_remove_spec p _ Hpw Hidx) as (p' & Hrm & Hpw' & Hl & Hpl & Hc').
    simpl in Hrm. rewrite Hrm. simpl. simpl in Hc. rewrite Hc. eexists. split; [done|].
    by apply (remove_slot_spec s k p).
  - exists s. assert (Hn : Slab_content s !! k = None).
    { rewrite Slab_content_lookup by done. unfold page_content_at. by rewrite Hp. }
    rewrite Hn. split; [done|]. split; [done|]. by rewrite delete_id.
Qed.

Lemma Ref_remove_spec s k v :
  Slab_wf s → Slab_content s !! k = Some v →
  ∃ s', Ref_remove s (key_ref k) = Ret (v, s') ∧ Slab_wf s' ∧
        Slab_content s' = delete k (Slab_content s).
Proof.
  intros Hwf Hv. assert (Hk := Slab_content_key _ _ _ Hwf Hv).
  destruct (key_ref_page _ _ _ Hwf Hv) as (p & Hp & Hrp & Hc).
  destruct (wf_pages _ Hwf _ _ Hp) as [Hpw _].
  pose proof (Page_content_range _ _ _ Hpw Hc).
  unfold Ref_remove. rewrite Hrp. simpl.
  destruct (Page_remove_spec p (ref_index (key_ref k)) Hpw ltac:(lia))
    as (p' & Hrm & Hpw' & Hl & Hpl & Hc').
  simpl in Hrm, Hc. rewrite Hrm. simpl. rewrite Hc. simpl. eexists. split; [done|].
  apply (remove_slot_spec s k p); try done.
  rewrite SLAB_CAPACITY_eq in Hk; lia.
Qed.
End slab_lemmas.

Section insert_lemmas.
Context `{B : Build} {T : Type}.
Implicit Types (p : Page T) (s : Slab T) (v : T).

(** Page [i] can take one more value: it is not allocated yet, or not full. *)
Definition page_room s (i : nat) : Prop :=
  match pages s !! i with
  | Some (Some p) => used p < slots_len p
  | Some None => True
  | None => False
  end.

#[export] Instance page_room_dec s i : Decision (page_room s i).
Proof. unfold page_room. destruct (pages s !! i) as [[]|]; apply _. Defined.

(** [insert] looks at the pages from [w_page_id] on. *)
Definition Slab_has_room s : Prop :=
  ∃ i, (w_page_id s ≤ i < NUM_PAGES)%nat ∧ page_room s i.

(** What [insert] promises: a fresh key, bound to the value. *)
Definition inserted s v (r : Z * Slab T) : Prop :=
  let '(k, s') := r in
  Slab_wf s' ∧ 0 ≤ k < SLAB_CAPACITY ∧
  Slab_content s !! k = None ∧ Slab_content s' = <[k := v]> (Slab_content s).

(** The page the loop works on: the allocated one or a new one. *)
Lemma working_page s i o :
  Slab_wf s → (i < NUM_PAGES)%nat → pages s !! i = Some o →
  let p := match o with
    | Some p => p
    | None => Page_new (Z.shiftl PAGE_INITIAL_SIZE (Z.of_nat i))
                       (Z.shiftl PAGE_INITIAL_SIZE (Z.of_nat i) - PAGE_INITIAL_SIZE)
    end in
  Page_wf p ∧ Page_at i p ∧ Page_content p = page_content_at (pages s) i ∧
  (page_room s i ↔ used p < slots_len p).
Proof.
  intros Hwf Hi Ho p. unfold page_room. rewrite Ho.
  destruct o as [q|]; subst p.
  - destruct (wf_pages _ Hwf _ _ Ho). split_and!; try done.
    unfold page_content_at. by rewrite Ho.
  - rewrite Z.shiftl_mul_pow2 by lia. fold (page_size i).
    pose proof (page_size_pos i). pose proof (page_size_max i Hi).
    split_and!; [apply Page_new_wf; lia|done| |simpl; split; [lia|done]].
    rewrite Page_new_content. unfold page_content_at. by rewrite Ho.
Qed.

(** Storing into a page that has room. *)
Lemma insert_into_page s b p v (f : Page T → outcome (Z * Slab T)) :
  Slab_wf s → (b < NUM_PAGES)%nat → Page_wf p → Page_at b p →
  Page_content p = page_content_at (pages s) b → used p < slots_len p →
  yields ('(allocated, page) ← Page_alloc p;
          match allocated with
          | Some slot =>
              page ← Page_set page slot v;
              key ← uadd 64 slot (prev_len page);
              Ret (key, mkSlab (<[b := Some page]> (pages s)) b (generation s))
          | None => f page
          end) (inserted s v).
Proof.
  intros Hwf Hb Hpw Hat Hc Hlt.
  destruct (Page_alloc_set_spec p v Hpw Hlt)
    as (slot & p1 & p2 & -> & Hset & Hslot & Hl2 & Hpl2 & Hpw2 & Hnone & Hc2).
  simpl. rewrite Hset. simpl. pose proof Hat as [Hlen Hpl].
  pose proof (page_size_pos b). pose proof (page_size_max b Hb).
  rewrite uadd_small by (rewrite Hpl2, Hpl; unfold PAGE_INITIAL_SIZE; lia). simpl.
  assert (Hlt' : (b < length (pages s))%nat) by (rewrite (wf_npages _ Hwf); lia).
  assert (Hat2 : Page_at b p2) by (destruct Hat; split; congruence).
  assert (Hin : in_page b (slot + prev_len p2)).
  { unfold in_page. rewrite page_size_S. lia. }
  destruct (pages_content_update (pages s) b p2 (Some v) slot (Slab_wf_pages _ Hwf)
              Hlt' Hpw2 Hat2) as [Hwf' Hc'].
  { by rewrite Hl2. }
  { intros x Hx. by rewrite Hc2, <- Hc, lookup_insert_ne. }
  { by rewrite Hc2, lookup_insert_eq. }
  split_and!; [| | | |done].
  - apply (Slab_wf_repage s); [done| |done|lia|apply (wf_gen _ Hwf)].
    by rewrite length_insert, (wf_npages _ Hwf).
  - unfold in_page, PAGE_INITIAL_SIZE in Hin. lia.
  - destruct Hin as [_ Hin]. pose proof (page_size_mono (S b) NUM_PAGES ltac:(lia)).
    change (page_size NUM_PAGES) with (SLAB_CAPACITY + PAGE_INITIAL_SIZE) in *. lia.
  - unfold Slab_content. rewrite (pages_content_in _ b _ (Slab_wf_pages _ Hwf) Hin).
    rewrite <- Hc. replace (_ - _) with slot by lia. done.
Qed.

Lemma Slab_insert_loop_spec n b s v :
  Slab_wf s → (b + n = NUM_PAGES)%nat →
  ((∃ i, (b ≤ i < NUM_PAGES)%nat ∧ page_room s i) ∧
    yields (Slab_insert_loop (seq b n) s v) (inserted s v)) ∨
  ((∀ i, (b ≤ i < NUM_PAGES)%nat → ¬ page_room s i) ∧
    Slab_insert_loop (seq b n) s v = Panic).
Proof.
  revert b s. induction n as [|n IH]; intros b s Hwf Hb.
  { right. split; [lia|done]. }
  destruct (pages_lookup s b Hwf ltac:(lia)) as [o Ho].
  destruct (working_page s b o Hwf ltac:(lia) Ho) as (Hpw & Hat & Hc & Hroom).
  cbn [seq Slab_insert_loop]. rewrite Ho. simpl (unwrap_unchecked _ ≫= _).
  destruct (decide (page_room s b)) as [Hr|Hr].
  { left. split; [exists b; split; [lia|done]|].
    apply insert_into_page; try done; [lia|]. by apply Hroom. }
  destruct o as [p|]; [|exfalso; apply Hr; unfold page_room; by rewrite Ho].
  assert (Hu : used p = slots_len p).
  { pose proof (wf_bounds _ Hpw). destruct (wf_free _ Hpw) as (fl & _ & Hfl).
    rewrite Hroom in Hr. lia. }
  rewrite (Page_alloc_full p Hpw Hu). simpl.
  assert (set_page s b (Some p) = s) as ->.
  { unfold set_page. rewrite list_insert_id by done. by destruct s. }
  destruct (IH (S b) s Hwf ltac:(lia)) as [[(i & Hi & Hri) Hy]|[Hno Hy]].
  - left. split; [exists i; split; [lia|done]|done].
  - right. split; [|done]. intros i Hi. destruct (decide (i = b)) as [->|]; [done|].
    apply Hno. lia.
Qed.

Lemma Slab_insert_cases s v :
  Slab_wf s →
  (Slab_has_room s ∧ yields (Slab_insert s v) (inserted s v)) ∨
  (¬ Slab_has_room s ∧ Slab_insert s v = Panic).
Proof.
  intros Hwf. pose proof (wf_w_page _ Hwf).
  destruct (Slab_insert_loop_spec (NUM_PAGES - w_page_id s) (w_page_id s) s v)
    as [?|[Hno ?]]; [done|lia|by left|right].
  split; [|done]. intros (i & Hi & Hr). by apply (Hno i).
Qed.

(** ** len *)

Lemma size_kmap_add n (m : gmap Z T) : size (kmap (Z.add n) m : gmap Z T) = size m.
Proof.
  induction m as [|k v m Hk IH] using map_ind.
  - by rewrite kmap_empty.
  - rewrite (kmap_insert (Z.add n)), !map_size_insert_None; [by rewrite IH|done|].
    by rewrite (lookup_kmap (Z.add n)).
Qed.

Definition slot_used (slot : option (Page T)) : Z :=
  match slot with Some p => used p | None => 0 end.

Lemma foldl_len (l : list (option (Page T))) acc :
  foldl (λ acc page, match page with Some page => acc + used page | None => acc end) acc l =
  acc + foldr Z.add 0 (slot_used <$> l).
Proof.
  revert acc. induction l as [|[p|] l IH]; intros acc; [simpl; lia| |];
    rewrite fmap_cons; simpl; rewrite IH; lia.
Qed.

Lemma pages_content_size off (l : list (option (Page T))) :
  pages_wf off l → foldr Z.add 0 (slot_used <$> l) = Z.of_nat (size (pages_content l)).
Proof.
  revert off. induction l as [|o l IH]; intros off Hwf; [|rewrite fmap_cons]; simpl.
  - by rewrite map_size_empty.
  - rewrite map_size_disj_union by by eapply pages_content_disjoint.
    apply pages_wf_cons in Hwf as [Ho Hl]. rewrite (IH _ Hl), Nat2Z.inj_add. f_equal.
    destruct o as [p|]; simpl; [|done]. rewrite size_kmap_add.
    destruct (Ho p eq_refl) as [Hp _]. apply (wf_used _ Hp).
Qed.

Lemma Slab_len_eq s : Slab_wf s → Slab_len s = Z.of_nat (size (Slab_content s)).
Proof.
  intros Hwf. unfold Slab_len. rewrite foldl_len, Z.add_0_l.
  by apply (pages_content_size 0), Slab_wf_pages.
Qed.
End insert_lemmas.

(** ** The slab is a store *)

#[export] Instance slab_store `{Build} {T} : Store (Slab T) Ref T := {|
  st_new := Slab_new;
  st_insert := Slab_insert;
  st_get := Slab_get;
  ref_read := Ref_as_ref;
  ref_assign := Ref_assign;
  ref_remove := Ref_remove;
|}.

#[export] Instance slab_store_laws `{Build} {T} : StoreLaws (Slab T) Ref T.
Proof.
  refine {| st_wf := Slab_wf; st_content := Slab_content |}.
  - split; [apply Slab_new_wf|apply Slab_new_content].
  - intros s v Hwf. destruct (Slab_insert_cases s v Hwf) as [[_ Hy]|[_ Hp]]; [right|by left].
    apply yields_Ret in Hy as ([k s'] & Hr & Hwf' & Hk & Hf & Hc).
    exists k, s'. rewrite SLAB_CAPACITY_eq in Hk. split_and!; try done; lia.
  - intros s k Hwf Hk Hn. simpl. rewrite Slab_get_eq by done. by rewrite Hn.
  - intros s k v Hwf Hv. exists (key_ref k). simpl.
    pose proof (Slab_content_key _ _ _ Hwf Hv) as Hk. rewrite SLAB_CAPACITY_eq in Hk.
    rewrite Slab_get_eq by (done || lia). rewrite Hv. split; [done|].
    split; [by apply Ref_as_ref_spec|]. split; [|by apply Ref_remove_spec].
    intros w. by apply (Ref_assign_spec s k w v).
  - intros s k v Hwf Hv. pose proof (Slab_content_key _ _ _ Hwf Hv) as Hk.
    rewrite SLAB_CAPACITY_eq in Hk. lia.
Defined.

(** ** Sequences of operations *)

Section traces.
Context `{B : Build} {T : Type}.
Implicit Types (s : Slab T) (v : T) (m : gmap Z T).

Inductive slab_op : Type :=
  | OpInsert (v : T)
  | OpGet (key : Z)
  | OpRemove (key : Z).

Inductive slab_out : Type :=
  | OutKey (key : Z)
  | OutVal (val : option T).

Definition Slab_op s (op : slab_op) : outcome (slab_out * Slab T) :=
  match op with
  | OpInsert v => '(k, s) ← Slab_insert s v; Ret (OutKey k, s)
  | OpGet k =>
      r ← Slab_get s k;
      match r with
      | Some r => v ← Ref_as_ref s r; Ret (OutVal (Some v), s)
      | None => Ret (OutVal None, s)
      end
  | OpRemove k => '(v, s) ← Slab_remove s k; Ret (OutVal v, s)
  end.

Fixpoint Slab_run s (ops : list slab_op) : outcome (list slab_out * Slab T) :=
  match ops with
  | [] => Ret ([], s)
  | op :: ops =>
      '(out, s) ← Slab_op s op;
      '(outs, s) ← Slab_run s ops;
      Ret (out :: outs, s)
  end.

(** The specification: a finite map with an allocator of fresh keys. *)
Inductive map_step m : slab_op → slab_out → gmap Z T → Prop :=
  | map_insert v k : 0 ≤ k < SLAB_CAPACITY → m !! k = None →
      map_step m (OpInsert v) (OutKey k) (<[k := v]> m)
  | map_get k : map_step m (OpGet k) (OutVal (m !! k)) m
  | map_remove k : map_step m (OpRemove k) (OutVal (m !! k)) (delete k m).

Inductive map_steps : gmap Z T → list slab_op → list slab_out → gmap Z T → Prop :=
  | map_steps_nil m : map_steps m [] [] m
  | map_steps_cons m op out m' ops outs m'' :
      map_step m op out m' → map_steps m' ops outs m'' →
      map_steps m (op :: ops) (out :: outs) m''.

(** Keys are [usize] values; nothing else is asked of a caller. *)
Definition usize_op (op : slab_op) : Prop :=
  match op with OpInsert _ => True | OpGet k | OpRemove k => 0 ≤ k < 2 ^ 64 end.

Lemma Slab_op_refines s op :
  Slab_wf s → usize_op op →
  permits (Slab_op s op)
    (λ '(out, s'), Slab_wf s' ∧ map_step (Slab_content s) op out (Slab_content s')).
Proof.
  intros Hwf Hop. destruct op as [v|k|k]; simpl in *.
  - destruct (Slab_insert_cases s v Hwf) as [[_ Hy]|[_ ->]]; [|done].
    apply yields_Ret in Hy as ([k s'] & -> & Hwf' & Hk & Hn & Hc). simpl.
    split; [done|]. rewrite Hc. by constructor.
  - rewrite Slab_get_eq by done. destruct (Slab_content s !! k) as [v|] eqn:Hv; simpl.
    + rewrite (Ref_as_ref_spec s k v) by done. simpl. split; [done|].
      rewrite <- Hv. constructor.
    + split; [done|]. rewrite <- Hv. constructor.
  - destruct (Slab_remove_eq s k Hwf Hop) as (s' & -> & Hwf' & Hc). simpl.
    split; [done|]. rewrite Hc. constructor.
Qed.


(** on a slab whose pages from the write page on are not all full,
    [insert] returns a key that was not in use, now bound to the value, and
    no other binding changes; otherwise it panics ("out of slot"). *)
Theorem Slab_insert_spec s v :
  Slab_wf s →
  if bool_decide (Exists (page_room s) (seq (w_page_id s) (NUM_PAGES - w_page_id s)))
  then yields (Slab_insert s v) (λ '(k, s'),
         Slab_wf s' ∧ 0 ≤ k < SLAB_CAPACITY ∧ Slab_content s !! k = None ∧
         Slab_content s' = <[k := v]> (Slab_content s))
  else Slab_insert s v = Panic.
Proof.
  intros Hwf. pose proof (wf_w_page _ Hwf).
  assert (Hroom : Exists (page_room s) (seq (w_page_id s) (NUM_PAGES - w_page_id s)) ↔
                  Slab_has_room s).
  { rewrite Exists_exists. unfold Slab_has_room. split; intros (i & Hi & Hr); exists i.
    all: split; [|done]; rewrite elem_of_seq in *; lia. }
  destruct (Slab_insert_cases s v Hwf) as [[Hr Hy]|[Hr Hp]].
  - by rewrite bool_decide_eq_true_2 by by apply Hroom.
  - rewrite bool_decide_eq_false_2; [done|]. by rewrite Hroom.
Qed.

(** [len], which adds up the pages' counters, is the number of live keys. *)
Lemma Slab_len_spec s ops :
  Forall usize_op ops → Slab_wf s →
  permits (Slab_run s ops) (λ '(_, s'), Slab_len s' = Z.of_nat (size (Slab_content s'))).
Proof.
  intros Hops Hwf. revert s Hwf. induction Hops as [|op ops Hop _ IH]; intros s Hwf; simpl.
  { by apply Slab_len_eq. }
  eapply permits_bind; [by apply Slab_op_refines|]. intros [out s'] [Hwf' Hstep].
  eapply permits_bind; [by apply IH|]. intros [outs s''] Hl. done.
Qed.

(** the key returned for slot [j] of page [i] leads [get_page_id] back to
    page [i]: the key spaces of the pages are disjoint and cover an initial
    segment of the keys. *)
Theorem get_page_id_round_trip i j :
  (i < NUM_PAGES)%nat → 0 ≤ j < page_size i →
  get_page_id (j + (page_size i - PAGE_INITIAL_SIZE)) = i.
Proof. intros Hi Hj. apply get_page_id_spec; [done|]. rewrite page_size_S. lia. Qed.
End traces.

(** *** Concrete instances *)

#[local] Instance debug_build : Build := true.

Definition demo_slab : Slab nat :=
  match Slab_insert (Slab_new (T:=nat)) 7%nat with Ret (_, s) => s | _ => Slab_new end.

Lemma demo_slab_wf : Slab_wf demo_slab.
Proof.
  destruct (Slab_insert_cases (Slab_new (T:=nat)) 7%nat Slab_new_wf) as [[_ Hy]|[Hn _]].
  - apply yields_Ret in Hy as ([k s'] & Hr & Hwf' & _). unfold demo_slab. by rewrite Hr.
  - exfalso. apply Hn. exists 0%nat. by vm_compute; split; [lia|].
Qed.


Lemma Slab_insert_spec_witness :
  yields (Slab_insert demo_slab 9%nat) (λ '(k, s'),
    Slab_wf s' ∧ 0 ≤ k < SLAB_CAPACITY ∧ Slab_content demo_slab !! k = None ∧
    Slab_content s' = <[k := 9%nat]> (Slab_content demo_slab)).
Proof. exact (Slab_insert_spec demo_slab 9%nat demo_slab_wf). Defined.

Lemma get_page_id_round_trip_witness : get_page_id (100 + (page_size 3 - PAGE_INITIAL_SIZE)) = 3%nat.
Proof.
  apply (get_page_id_round_trip 3 100); [unfold NUM_PAGES; lia|].
  unfold page_size, PAGE_INITIAL_SIZE. simpl. lia.
Defined.
