(* ===== verification/Driver.v ===== *)
(** * Driver: the io_uring driver of [runtime/src/driver]

    [driver/uring/lifecycle.rs] (the state machine of one operation),
    [driver/uring/mod.rs] (submission, the completion loop, polling, dropping,
    cancelling) and the [Op] future of [driver/op/mod.rs].

    The slab of operations is used through the interface of [Store.v]; the
    io_uring crate and the kernel behind it through [Uring], whose laws say that
    a pushed entry produces one completion carrying its [user_data]. *)

From stdpp Require Import gmap sorting.
From S2P Require Import Prelude.
From S2P Require Import Store.
From S2P Require Slab.

Local Open Scope Z_scope.

(** ** The ring *)

(** [io::ErrorKind] as far as the driver distinguishes it. *)
Inductive error_kind : Type := Other | ResourceBusy | OtherKind.
Record io_error : Type := mkIoError { kind : error_kind; raw_os_error : option Z }.

Inductive io_result (A : Type) : Type := Ok_ (a : A) | Err_ (e : io_error).
Arguments Ok_ {A} _.
Arguments Err_ {A} _.

(** A completion queue entry: [user_data], [result] (an [i32]) and [flags]. *)
Record Cqe : Type := mkCqe { cqe_user_data : Z; cqe_result : Z; cqe_flags : Z }.

Class Uring (U : Type) := {
  uring_new : U;
  sq_is_full : U → bool;
  sq_len : U → Z;
  sq_capacity : U → Z;
  sq_push : U → Z → option U;                      (* [None]: the queue is full *)
  uring_submit : U → io_result unit * U;
  uring_submit_and_wait : U → io_result unit * U;
  uring_submit_with_timeout : U → io_result unit * U;
  cq_drain : U → list Cqe * U;                     (* iterate the completion queue *)
}.

(** Documented behaviour of io_uring: no entry is lost or duplicated between
    [push] and the completion queue, and errors are small negative results. *)
Class UringLaws (U : Type) `{!Uring U} := {
  pending : U → list Z;                            (* pushed, not yet completed *)
  pending_new : pending uring_new = [];
  pending_push (u : U) k u' : sq_push u k = Some u' → pending u' ≡ₚ k :: pending u;
  pending_submit (u : U) r u' : uring_submit u = (r, u') → pending u' ≡ₚ pending u;
  pending_wait (u : U) r u' : uring_submit_and_wait u = (r, u') → pending u' ≡ₚ pending u;
  pending_timeout (u : U) r u' : uring_submit_with_timeout u = (r, u') → pending u' ≡ₚ pending u;
  pending_drain (u : U) cqes u' : cq_drain u = (cqes, u') →
    pending u ≡ₚ (cqe_user_data <$> cqes) ++ pending u';
  drain_result (u : U) cqes u' : cq_drain u = (cqes, u') →
    Forall (λ c, - 2 ^ 31 < cqe_result c < 2 ^ 31) cqes;
}.

Definition USIZE_MAX : Z := 2 ^ 64 - 1.
Definition CANCEL_USERDATA : Z := 2 ^ 64 - 1.
Definition TIMEOUT_USERDATA : Z := 2 ^ 64 - 1 - 1.
Definition EVENTFD_USERDATA : Z := 2 ^ 64 - 1 - 2.
Definition MIN_REVERSED_USERDATA : Z := 2 ^ 64 - 1 - 2.

(** ** Operations *)

Section definitions.
Context `{B : Build}.
(** [W]: wakers; [D]: the data an operation owns (fd, buffer, ...). *)
Context {W D : Type} (will_wake : W → W → bool).

Inductive Lifecycle : Type :=
  | Submitted
  | Waiting (waker : W)
  | Ignored (data : option D)
  | Completed (result : io_result Z) (flags : Z).

Record CompletionMeta : Type := mkMeta { meta_result : io_result Z; meta_flags : Z }.

Inductive Poll (A : Type) : Type := Ready (a : A) | Pending.
Arguments Ready {A} _.
Arguments Pending {A}.

Context {S R U : Type} `{!Store S R Lifecycle} `{!Uring U}.

(** [Lifecycle::complete]; the wakers called are returned. *)
Definition Lifecycle_complete (s : S) (r : R) (result : io_result Z) (flags : Z)
    : outcome (S * list W) :=
  ref_mut ← ref_read s r;
  match ref_mut with
  | Submitted => s ← ref_assign s r (Completed result flags); Ret (s, [])
  | Waiting waker => s ← ref_assign s r (Completed result flags); Ret (s, [waker])
  | Ignored _ => '(_, s) ← ref_remove s r; Ret (s, [])
  | Completed _ _ => UB
  end.

Definition Lifecycle_poll_op (s : S) (r : R) (cx : W) : outcome (Poll CompletionMeta * S) :=
  ref_mut ← ref_read s r;
  match ref_mut with
  | Submitted => s ← ref_assign s r (Waiting cx); Ret (Pending, s)
  | Waiting waker =>
      if negb (will_wake waker cx)
      then s ← ref_assign s r (Waiting cx); Ret (Pending, s)
      else Ret (Pending, s)
  | _ =>
      '(removed, s) ← ref_remove s r;
      match removed with
      | Completed result flags => Ret (Ready (mkMeta result flags), s)
      | _ => UB
      end
  end.

(** [Lifecycle::drop_op]: the flag says the operation had finished. *)
Definition Lifecycle_drop_op (s : S) (r : R) (data : option D) : outcome (bool * S) :=
  ref_mut ← ref_read s r;
  match ref_mut with
  | Submitted | Waiting _ => s ← ref_assign s r (Ignored data); Ret (false, s)
  | Completed _ _ => '(_, s) ← ref_remove s r; Ret (true, s)
  | Ignored _ => UB
  end.

(** [woken] records the wakers called, in order. *)
Record UringInner : Type := mkInner { ops : S; uring : U; woken : list W }.

Definition Ops_insert (s : S) : outcome (Z * S) := st_insert s Submitted.

Definition Ops_complete (s : S) (index : Z) (result : io_result Z) (flags : Z)
    : outcome (S * list W) :=
  got ← st_get s index;
  lifecycle ← unwrap_unchecked got;
  Lifecycle_complete s lifecycle result flags.

(** [resultify]; [-res] overflows for [i32::MIN]. *)
Definition resultify (cqe : Cqe) : outcome (io_result Z) :=
  let res := cqe_result cqe in
  if bool_decide (0 ≤ res) then Ret (Ok_ (wrap 32 res))
  else if bool_decide (res = - 2 ^ 31) && debug_assertions then Panic
  else Ret (Err_ (mkIoError OtherKind (Some (to_signed 32 (- res))))).

Fixpoint tick_loop (inner : UringInner) (cq : list Cqe) : outcome UringInner :=
  match cq with
  | [] => Ret inner
  | cqe :: cq =>
      let index := cqe_user_data cqe in
      if bool_decide (index < MIN_REVERSED_USERDATA) then
        result ← resultify cqe;
        '(s, wakes) ← Ops_complete (ops inner) index result (cqe_flags cqe);
        tick_loop (mkInner s (uring inner) (woken inner ++ wakes)) cq
      else tick_loop inner cq
  end.

Definition UringInner_tick (inner : UringInner) : outcome UringInner :=
  let '(cq, u) := cq_drain (uring inner) in
  tick_loop (mkInner (ops inner) u (woken inner)) cq.

Definition set_uring (inner : UringInner) (u : U) : UringInner :=
  mkInner (ops inner) u (woken inner).

(** The retry loop of [UringInner::submit]; [None]: still retrying after
    [fuel] rounds. *)
Fixpoint UringInner_submit (fuel : nat) (inner : UringInner)
    : outcome (option (io_result unit) * UringInner) :=
  match fuel with
  | O => Ret (None, inner)
  | Datatypes.S fuel =>
      let '(res, u) := uring_submit (uring inner) in
      let inner := set_uring inner u in
      match res with
      | Err_ e =>
          match kind e with
          | Other | ResourceBusy =>
              inner ← UringInner_tick inner; UringInner_submit fuel inner
          | OtherKind => Ret (Some (Err_ e), inner)
          end
      | Ok_ _ => Ret (Some (Ok_ tt), inner)
      end
  end.

Record Op : Type := mkOp { op_index : Z; op_data : option D }.

Definition UringInner_new_op (data : D) (inner : UringInner) : outcome (Op * UringInner) :=
  '(index, s) ← Ops_insert (ops inner);
  Ret (mkOp index (Some data), mkInner s (uring inner) (woken inner)).

(** [submit_with_data]: [inl e] is an early return of the submit error. *)
Definition UringInner_submit_with_data (fuel : nat) (inner : UringInner) (data : D)
    : outcome (option (io_error + Op) * UringInner) :=
  '(res, inner) ←
    (if sq_is_full (uring inner) then UringInner_submit fuel inner
     else Ret (Some (Ok_ tt), inner));
  match res with
  | None => Ret (None, inner)
  | Some (Err_ e) => Ret (Some (inl e), inner)
  | Some (Ok_ _) =>
      '(op, inner) ← UringInner_new_op data inner;
      match sq_push (uring inner) (op_index op) with
      | None => Panic        (* unimplemented!("when is this hit?") *)
      | Some u => Ret (Some (inr op), set_uring inner u)
      end
  end.

Definition UringInner_poll_op (inner : UringInner) (index : Z) (cx : W)
    : outcome (Poll CompletionMeta * UringInner) :=
  got ← st_get (ops inner) index;
  lifecycle ← unwrap_unchecked got;
  '(p, s) ← Lifecycle_poll_op (ops inner) lifecycle cx;
  Ret (p, mkInner s (uring inner) (woken inner)).

Definition UringInner_drop_op (inner : UringInner) (index : Z) (data : option D)
    : outcome UringInner :=
  if bool_decide (index = USIZE_MAX) then Ret inner
  else
    got ← st_get (ops inner) index;
    match got with
    | Some lifecycle =>
        '(_, s) ← Lifecycle_drop_op (ops inner) lifecycle data;
        Ret (mkInner s (uring inner) (woken inner))
    | None => Ret inner
    end.

(** [cancel_op]: push a cancel entry, flushing once if the queue is full;
    both results are ignored. *)
Definition UringInner_cancel_op (fuel : nat) (inner : UringInner) : outcome UringInner :=
  match sq_push (uring inner) CANCEL_USERDATA with
  | Some u => Ret (set_uring inner u)
  | None =>
      '(_, inner) ← UringInner_submit fuel inner;
      match sq_push (uring inner) CANCEL_USERDATA with
      | Some u => Ret (set_uring inner u)
      | None => Ret inner
      end
  end.

(** [flush_space], [inner_park] and the [Driver] methods; [ETIME] is libc's. *)
Context (ETIME : Z).

Definition IoUringDriver_flush_space (fuel : nat) (inner : UringInner) (need : Z)
    : outcome (option (io_result unit) * UringInner) :=
  _ ← debug_assert (bool_decide (need ≤ sq_capacity (uring inner)));
  len_need ← uadd 64 (sq_len (uring inner)) need;
  if bool_decide (sq_capacity (uring inner) < len_need)
  then UringInner_submit fuel inner
  else Ret (Some (Ok_ tt), inner).

Definition IoUringDriver_inner_park (fuel : nat) (inner : UringInner) (timeout : bool)
    : outcome (option (io_result unit) * UringInner) :=
  if timeout then
    '(res, inner) ← IoUringDriver_flush_space fuel inner 1;
    match res with
    | Some (Ok_ _) =>
        let '(res, u) := uring_submit_with_timeout (uring inner) in
        let inner := set_uring inner u in
        match res with
        | Err_ e =>
            if bool_decide (raw_os_error e = Some ETIME)
            then inner ← UringInner_tick inner; Ret (Some (Ok_ tt), inner)
            else Ret (Some (Err_ e), inner)
        | Ok_ _ => inner ← UringInner_tick inner; Ret (Some (Ok_ tt), inner)
        end
    | res => Ret (res, inner)
    end
  else
    let '(res, u) := uring_submit_and_wait (uring inner) in
    let inner := set_uring inner u in
    match res with
    | Err_ e => Ret (Some (Err_ e), inner)
    | Ok_ _ => inner ← UringInner_tick inner; Ret (Some (Ok_ tt), inner)
    end.

(** [Driver::submit]: submit, then process the completion queue. *)
Definition IoUringDriver_submit (fuel : nat) (inner : UringInner)
    : outcome (option (io_result unit) * UringInner) :=
  '(res, inner) ← UringInner_submit fuel inner;
  match res with
  | Some (Ok_ _) => inner ← UringInner_tick inner; Ret (Some (Ok_ tt), inner)
  | res => Ret (res, inner)
  end.

(** ** The [Op] future *)

Record Completion : Type := mkCompletion { data : D; meta : CompletionMeta }.

Definition Op_poll (inner : UringInner) (op : Op) (cx : W)
    : outcome (Poll Completion * UringInner * Op) :=
  _ ← unwrap (op_data op);                       (* "unexpected operation state" *)
  '(p, inner) ← UringInner_poll_op inner (op_index op) cx;
  match p with
  | Pending => Ret (Pending, inner, op)
  | Ready meta =>
      d ← unwrap (op_data op);
      Ret (Ready (mkCompletion d meta), inner, mkOp USIZE_MAX None)
  end.

Definition Op_drop (inner : UringInner) (op : Op) : outcome UringInner :=
  UringInner_drop_op inner (op_index op) (op_data op).
End definitions.

Arguments Ready {A} _.
Arguments Pending {A}.
Arguments Submitted {W D}.
Arguments Waiting {W D} _.
Arguments Ignored {W D} _.
Arguments Completed {W D} _ _.
Arguments mkOp {D} _ _.
Arguments op_index {D} _.
Arguments op_data {D} _.
Arguments mkInner {W S U} _ _ _.
Arguments ops {W S U} _.
Arguments uring {W S U} _.
Arguments woken {W S U} _.

(** ** The driver as a system

    A world is the driver, the [Op] futures that are alive, and — for the
    statements only — the data each submitted entry points to. *)

Section system.
Context `{B : Build} {W D : Type} (will_wake : W → W → bool) (ETIME : Z).
Context {S R U : Type} `{!Store S R (Lifecycle (W:=W) (D:=D))} `{!Uring U}.

#[local] Abbreviation lifecycle := (Lifecycle (W:=W) (D:=D)).
#[local] Abbreviation inner_t := (UringInner (W:=W) (S:=S) (U:=U)).

Implicit Types (inner : inner_t) (k : Z) (op : Op (D:=D)).

Record World : Type := mkWorld {
  w_inner : inner_t;
  w_futs : gmap nat (Op (D:=D));
  w_next : nat;
  w_sqe : gmap Z D;
}.

Inductive event : Type :=
  | EvSubmitOp (d : D)            (* Op::submit_with *)
  | EvPoll (o : nat) (cx : W)     (* Future::poll *)
  | EvDrop (o : nat)              (* Drop *)
  | EvCancel                      (* OpCanceller::cancel *)
  | EvSubmit                      (* Driver::submit *)
  | EvPark (timeout : bool).      (* Driver::park, park_timeout *)

Definition world_init : World := mkWorld (mkInner st_new uring_new []) ∅ 0 ∅.

Definition with_inner (w : World) (inner : inner_t) : World :=
  mkWorld inner (w_futs w) (w_next w) (w_sqe w).

Definition world_step (fuel : nat) (w : World) (e : event) : outcome World :=
  match e with
  | EvSubmitOp d =>
      '(res, inner) ← UringInner_submit_with_data fuel (w_inner w) d;
      match res with
      | Some (inr op) =>
          Ret (mkWorld inner (<[w_next w := op]> (w_futs w)) (Datatypes.S (w_next w))
                       (<[op_index op := d]> (w_sqe w)))
      | _ => Ret (with_inner w inner)
      end
  | EvPoll o cx =>
      match w_futs w !! o with
      | None => Ret w
      | Some op =>
          '(_, inner, op) ← Op_poll will_wake (w_inner w) op cx;
          Ret (mkWorld inner (<[o := op]> (w_futs w)) (w_next w) (w_sqe w))
      end
  | EvDrop o =>
      match w_futs w !! o with
      | None => Ret w
      | Some op =>
          inner ← Op_drop (w_inner w) op;
          Ret (mkWorld inner (delete o (w_futs w)) (w_next w) (w_sqe w))
      end
  | EvCancel => with_inner w <$> UringInner_cancel_op fuel (w_inner w)
  | EvSubmit => '(_, inner) ← IoUringDriver_submit fuel (w_inner w); Ret (with_inner w inner)
  | EvPark t =>
      '(_, inner) ← IoUringDriver_inner_park ETIME fuel (w_inner w) t;
      Ret (with_inner w inner)
  end.

Fixpoint world_run (fuel : nat) (w : World) (es : list event) : outcome World :=
  match es with
  | [] => Ret w
  | e :: es => w ← world_step fuel w e; world_run fuel w es
  end.

(** ** Invariant *)

Context `{!StoreLaws S R lifecycle} `{!UringLaws U}.

(** The kernel still owes a completion for the entry. *)
Definition inflight (lc : lifecycle) : Prop :=
  match lc with Completed _ _ => False | _ => True end.
(** A future still refers to the entry. *)
Definition owned (lc : lifecycle) : Prop :=
  match lc with Ignored _ => False | _ => True end.

Lemma inflight_or_owned lc : inflight lc ∨ owned lc.
Proof. destruct lc; simpl; auto. Qed.

(** [s]: the slab; [L]: the indices the kernel owes a completion for. *)
Record Inv (s : S) (L : list Z) (futs : gmap nat (Op (D:=D))) (sqe : gmap Z D) : Prop := {
  inv_wf : st_wf s;
  inv_nodup : NoDup L;
  inv_pending : ∀ k, k ∈ L ↔ ∃ lc, st_content s !! k = Some lc ∧ inflight lc;
  inv_fut : ∀ o op, futs !! o = Some op →
    op = mkOp USIZE_MAX None ∨
    ∃ d lc, op_data op = Some d ∧ st_content s !! op_index op = Some lc ∧ owned lc ∧
            sqe !! op_index op = Some d;
  inv_inj : ∀ o1 o2 op1 op2, futs !! o1 = Some op1 → futs !! o2 = Some op2 →
    op_index op1 = op_index op2 → op_index op1 ≠ USIZE_MAX → o1 = o2;
  inv_owned : ∀ k lc, st_content s !! k = Some lc → owned lc →
    ∃ o op, futs !! o = Some op ∧ op_index op = k;
  inv_ignored : ∀ k x, st_content s !! k = Some (Ignored x) →
    ∃ d, x = Some d ∧ sqe !! k = Some d;
}.

Definition normal (l : list Z) : list Z := filter (λ k, k < MIN_REVERSED_USERDATA) l.

Definition inner_inv (inner : inner_t) futs sqe : Prop :=
  Inv (ops inner) (normal (pending (uring inner))) futs sqe.

Definition world_inv (w : World) : Prop :=
  inner_inv (w_inner w) (w_futs w) (w_sqe w) ∧
  ∀ o, is_Some (w_futs w !! o) → (o < w_next w)%nat.

(** The invariant only depends on [L] up to permutation. *)
#[export] Instance Inv_perm_proper s :
  Proper ((≡ₚ) ==> (=) ==> (=) ==> iff) (Inv s).
Proof.
  intros L L' HL futs ? <- sqe ? <-.
  split; intros []; split; try done; [by rewrite <- HL|intros k; by rewrite <- HL
    |by rewrite HL|intros k; by rewrite HL].
Qed.

Lemma inv_key s L futs sqe k lc :
  Inv s L futs sqe → st_content s !! k = Some lc → 0 ≤ k < 2 ^ 32.
Proof. intros HI. eapply st_key, HI. Qed.

(** A live future's entry. *)
Lemma inv_live s L futs sqe o op d :
  Inv s L futs sqe → futs !! o = Some op → op_data op = Some d →
  ∃ lc, st_content s !! op_index op = Some lc ∧ owned lc ∧ sqe !! op_index op = Some d ∧
        0 ≤ op_index op < 2 ^ 32.
Proof.
  intros HI Ho Hd. destruct (inv_fut _ _ _ _ HI _ _ Ho) as [->|(d' & lc & ? & Hlc & ? & ?)].
  { done. }
  exists lc. split_and!; try done; [congruence|..]; apply (inv_key _ _ _ _ _ _ HI Hlc).
Qed.

(** Overwriting an owned entry by an owned one with the same kernel status. *)
Lemma Inv_assign s s' L L' futs sqe k lc lc' :
  Inv s L futs sqe → st_content s !! k = Some lc → owned lc → owned lc' →
  NoDup L' → (∀ j, j ∈ L' ↔ (j = k ∧ inflight lc') ∨ (j ≠ k ∧ j ∈ L)) →
  st_wf s' → st_content s' = <[k := lc']> (st_content s) →
  Inv s' L' futs sqe.
Proof.
  intros HI Hk Ho Ho' Hnd HL Hwf Hc. split; [done|done|..]; try apply HI.
  - intros j. rewrite HL, Hc, (inv_pending _ _ _ _ HI). destruct (decide (j = k)) as [->|].
    { rewrite lookup_insert_eq. naive_solver. }
    rewrite lookup_insert_ne by done. naive_solver.
  - intros o op Hop. destruct (inv_fut _ _ _ _ HI _ _ Hop) as [->|(d & lc0 & ? & ? & ? & ?)].
    { by left. }
    right. rewrite Hc. destruct (decide (op_index op = k)) as [Heq|].
    { exists d, lc'. rewrite Heq in *. by rewrite lookup_insert_eq. }
    exists d, lc0. by rewrite lookup_insert_ne.
  - intros j lcj. rewrite Hc. destruct (decide (j = k)) as [->|].
    { intros _ _. by apply (inv_owned _ _ _ _ HI _ lc). }
    rewrite lookup_insert_ne by done. apply (inv_owned _ _ _ _ HI).
  - intros j x. rewrite Hc. destruct (decide (j = k)) as [->|].
    { rewrite lookup_insert_eq. by intros [= ->]. }
    rewrite lookup_insert_ne by done. apply (inv_ignored _ _ _ _ HI).
Qed.

(** Removing an entry no live future of [futs'] refers to. *)
Lemma Inv_delete s s' L L' futs futs' sqe k :
  Inv s L futs sqe → NoDup L' → (∀ j, j ∈ L' ↔ j ≠ k ∧ j ∈ L) →
  (∀ o op, futs' !! o = Some op →
     op = mkOp USIZE_MAX None ∨ (futs !! o = Some op ∧ op_index op ≠ k)) →
  (∀ o op, futs !! o = Some op → op_index op ≠ k → futs' !! o = Some op) →
  st_wf s' → st_content s' = delete k (st_content s) →
  Inv s' L' futs' sqe.
Proof.
  intros HI Hnd HL Hf Hf' Hwf Hc. split; [done|done|..].
  - intros j. rewrite HL, Hc, (inv_pending _ _ _ _ HI). destruct (decide (j = k)) as [->|].
    { rewrite lookup_delete_eq. naive_solver. }
    rewrite lookup_delete_ne by done. naive_solver.
  - intros o op [->|[Hop Hne]]%Hf; [by left|].
    destruct (inv_fut _ _ _ _ HI _ _ Hop) as [->|(d & lc0 & ? & ? & ? & ?)]; [by left|].
    right. exists d, lc0. by rewrite Hc, lookup_delete_ne.
  - intros o1 o2 op1 op2 [->|[H1 _]]%Hf [->|[H2 _]]%Hf Heq Hne; try done.
    by eapply (inv_inj _ _ _ _ HI).
  - intros j lcj. rewrite Hc. intros [Hne Hj]%lookup_delete_Some Ho.
    destruct (inv_owned _ _ _ _ HI _ _ Hj Ho) as (o & op & Hop & <-).
    exists o, op. split; [|done]. by apply Hf'.
  - intros j x. rewrite Hc. intros [Hne Hj]%lookup_delete_Some.
    by apply (inv_ignored _ _ _ _ HI).
Qed.

(** Completing an entry: the kernel no longer owes [k]. *)
Lemma Ops_complete_spec s k L futs sqe result flags :
  Inv s (k :: L) futs sqe →
  yields (Ops_complete s k result flags) (λ '(s', _), Inv s' L futs sqe).
Proof.
  intros HI. pose proof (inv_nodup _ _ _ _ HI) as [Hni Hnd]%NoDup_cons.
  destruct (proj1 (inv_pending _ _ _ _ HI k)) as (lc & Hlc & Hif); [by left|].
  destruct (st_get_Some s k lc (inv_wf _ _ _ _ HI) Hlc)
    as (r & Hget & Hread & Hassign & Hremove).
  unfold Ops_complete. rewrite Hget. simpl. unfold Lifecycle_complete. rewrite Hread. simpl.
  assert (HL : ∀ j, j ∈ L ↔ j ≠ k ∧ j ∈ k :: L) by set_solver.
  assert (Hdone : owned lc → ∀ ws : list W,
    yields (s' ← ref_assign s r (Completed result flags); Ret (s', ws))
           (λ '(s', _), Inv s' L futs sqe)).
  { intros Ho ws. destruct (Hassign (Completed result flags)) as (s' & -> & Hwf' & Hc').
    simpl. apply (Inv_assign s s' (k :: L) L _ _ k lc (Completed result flags)); try done.
    intros j. rewrite HL. naive_solver. }
  destruct lc as [|w|x|]; [by apply Hdone|by apply Hdone| |done].
  destruct Hremove as (s' & -> & Hwf' & Hc'). simpl.
  apply (Inv_delete s s' (k :: L) L futs futs sqe k); try done.
  intros o op Hop. destruct (inv_fut _ _ _ _ HI _ _ Hop) as [->|(d & lc0 & ? & ? & ? & ?)].
  { by left. }
  right. split; [done|]. intros Heq. rewrite Heq in *. by simplify_eq.
Qed.

Lemma resultify_spec (cqe : Cqe) :
  - 2 ^ 31 < cqe_result cqe → ∃ res : io_result Z, resultify cqe = Ret res.
Proof.
  intros H. unfold resultify. case_bool_decide; [eauto|].
  rewrite (bool_decide_eq_false_2 (cqe_result cqe = - 2 ^ 31)) by lia. simpl. eauto.
Qed.

Lemma tick_loop_spec inner cq L futs sqe :
  Inv (ops inner) (normal (cqe_user_data <$> cq) ++ L) futs sqe →
  Forall (λ c, - 2 ^ 31 < cqe_result c < 2 ^ 31) cq →
  yields (tick_loop inner cq) (λ inner', uring inner' = uring inner ∧ Inv (ops inner') L futs sqe).
Proof.
  revert inner. induction cq as [|c cq IH]; intros inner HI Hres.
  { done. }
  apply Forall_cons in Hres as [Hc Hres]. cbn [tick_loop]. rewrite fmap_cons in HI.
  unfold normal in HI. rewrite filter_cons in HI. fold (normal (cqe_user_data <$> cq)) in HI.
  case_decide as Hlt.
  - rewrite bool_decide_eq_true_2 by done.
    destruct (resultify_spec c) as [res ->]; [lia|]. simpl.
    eapply yields_bind; [by apply (Ops_complete_spec _ _ _ _ _ res (cqe_flags c)) in HI|].
    intros [s' ws] HI'. by apply (IH (mkInner s' (uring inner) _)).
  - rewrite bool_decide_eq_false_2 by done. by apply IH.
Qed.

Lemma UringInner_tick_spec inner futs sqe :
  inner_inv inner futs sqe →
  yields (UringInner_tick inner) (λ inner', inner_inv inner' futs sqe).
Proof.
  intros HI. unfold UringInner_tick. destruct (cq_drain (uring inner)) as [cq u] eqn:Hcq.
  pose proof (pending_drain _ _ _ Hcq) as Hp. pose proof (drain_result _ _ _ Hcq).
  unfold inner_inv, normal in HI. rewrite Hp, filter_app in HI.
  eapply yields_mono; [by apply (tick_loop_spec (mkInner (ops inner) u _) cq _ futs sqe HI)|].
  intros inner' [Hu HI']. unfold inner_inv. by rewrite Hu.
Qed.

Lemma inner_inv_set_uring inner u futs sqe :
  inner_inv inner futs sqe → pending u ≡ₚ pending (uring inner) →
  inner_inv (set_uring inner u) futs sqe.
Proof. intros HI Hp. unfold inner_inv, normal in *. simpl. by rewrite Hp. Qed.

Lemma UringInner_submit_spec fuel inner futs sqe :
  inner_inv inner futs sqe →
  yields (UringInner_submit fuel inner) (λ '(_, inner'), inner_inv inner' futs sqe).
Proof.
  revert inner. induction fuel as [|fuel IH]; intros inner HI; [done|]. simpl.
  destruct (uring_submit (uring inner)) as [res u] eqn:Hs.
  assert (HI' : inner_inv (set_uring inner u) futs sqe).
  { apply inner_inv_set_uring; [done|]. by eapply pending_submit. }
  destruct res as [|[[] os]]; try done.
  all: eapply yields_bind; [by apply UringInner_tick_spec|]; intros; by apply IH.
Qed.

(** ** Each driver call preserves the invariant *)

Lemma push_spec inner k u futs sqe :
  inner_inv inner futs sqe → MIN_REVERSED_USERDATA ≤ k → sq_push (uring inner) k = Some u →
  inner_inv (set_uring inner u) futs sqe.
Proof.
  intros HI Hk Hp. apply pending_push in Hp. unfold inner_inv, normal in *. simpl.
  rewrite Hp, filter_cons, decide_False; [done|lia].
Qed.

(** The kernel refuses [k] times as busy, and then does not. *)
Definition refuses (res : io_result unit) : bool :=
  match res with Err_ e => match kind e with OtherKind => false | _ => true end | Ok_ _ => false end.
Inductive refused : nat → UringInner → Prop :=
  | refused_0 inner : refuses (uring_submit (uring inner)).1 = false → refused O inner
  | refused_S (k : nat) inner inner' : refuses (uring_submit (uring inner)).1 = true →
      UringInner_tick (set_uring inner (uring_submit (uring inner)).2) = Ret inner' → refused k inner' → refused (Datatypes.S k) inner.
(** The retries of a submission end with the refusals. *)
Theorem submit_ends (fuel k : nat) inner : refused k inner → (k < fuel)%nat →
  ∃ res inner', UringInner_submit fuel inner = Ret (Some res, inner').
Proof.
  intros Hr. revert fuel. induction Hr as [inner Hn|k inner inner' Hb Ht _ IH]; intros [|fuel] Hf; [lia| |lia|]; cbn [UringInner_submit].
  - destruct (uring_submit (uring inner)) as [[[]|e] u]; cbn in Hn |- *; [by eexists _, _|]. destruct (kind e); [discriminate..|]. by eexists _, _.
  - destruct (uring_submit (uring inner)) as [[[]|e] u]; cbn in Hb, Ht |- *; [done|]. destruct (kind e); [..|discriminate];
      rewrite Ht; (destruct (IH fuel) as (res & i2 & Hs); [lia|]); by exists res, i2.
Qed.
Lemma UringInner_cancel_op_spec fuel inner futs sqe :
  inner_inv inner futs sqe →
  yields (UringInner_cancel_op fuel inner) (λ inner', inner_inv inner' futs sqe).
Proof.
  intros HI. unfold UringInner_cancel_op.
  assert (MIN_REVERSED_USERDATA ≤ CANCEL_USERDATA) by done.
  destruct (sq_push (uring inner) CANCEL_USERDATA) as [u|] eqn:Hp.
  { by eapply push_spec. }
  eapply yields_bind; [by apply UringInner_submit_spec|]. intros [_ inner'] HI'.
  destruct (sq_push (uring inner') CANCEL_USERDATA) as [u|] eqn:Hp'; [|done].
  by eapply push_spec.
Qed.

(** Registering a new operation. *)
Lemma new_op_inv inner inner' op d u w :
  inner_inv inner (w_futs w) (w_sqe w) → (∀ o, is_Some (w_futs w !! o) → (o < w_next w)%nat) →
  UringInner_new_op d inner = Ret (op, inner') → sq_push (uring inner') (op_index op) = Some u →
  inner_inv (set_uring inner' u) (<[w_next w := op]> (w_futs w))
            (<[op_index op := d]> (w_sqe w)) ∧
  op_data op = Some d.
Proof.
  intros HI Hnext Hnew Hp. unfold UringInner_new_op, Ops_insert in Hnew.
  destruct (st_insert_spec (ops inner) Submitted (inv_wf _ _ _ _ HI))
    as [Hpanic|(k & s' & Hins & Hwf' & Hk & Hfresh & Hc)].
  { by rewrite Hpanic in Hnew. }
  rewrite Hins in Hnew. simpl in Hnew. injection Hnew as <- <-. simpl in *.
  split; [|done]. apply pending_push in Hp. unfold inner_inv, normal in *. simpl in *.
  rewrite Hp, filter_cons, decide_True by (unfold MIN_REVERSED_USERDATA; lia).
  assert (Hnk : k ∉ filter (λ k, k < MIN_REVERSED_USERDATA) (pending (uring inner))).
  { rewrite (inv_pending _ _ _ _ HI), Hfresh. naive_solver. }
  assert (Hnn : w_futs w !! w_next w = None).
  { apply eq_None_not_Some. intros Hs%Hnext. lia. }
  split; [done|constructor; [done|apply HI]|..].
  - intros j. rewrite elem_of_cons, (inv_pending _ _ _ _ HI), Hc.
    destruct (decide (j = k)) as [->|].
    { rewrite lookup_insert_eq. naive_solver. }
    rewrite lookup_insert_ne by done. naive_solver.
  - intros o op. rewrite lookup_insert_Some. intros [[<- <-]|[Hne Hop]].
    { right. exists d, Submitted. simpl. by rewrite Hc, !lookup_insert_eq. }
    destruct (inv_fut _ _ _ _ HI _ _ Hop) as [->|(d0 & lc0 & ? & Hlc & ? & ?)]; [by left|].
    assert (k ≠ op_index op) by (intros ->; congruence).
    right. exists d0, lc0. by rewrite Hc, !lookup_insert_ne.
  - assert (Hkey : ∀ o op, w_futs w !! o = Some op → op_index op = k → False).
    { intros o op Hop <-. destruct (inv_fut _ _ _ _ HI _ _ Hop)
        as [->|(? & ? & _ & ? & _)]; [|congruence]. simpl in Hk. unfold USIZE_MAX in Hk. lia. }
    intros o1 o2 op1 op2. rewrite !lookup_insert_Some.
    intros [[<- <-]|[? H1]] [[<- <-]|[? H2]] Heq Hne; simpl in *; try done.
    + by edestruct Hkey.
    + by edestruct Hkey.
    + by eapply (inv_inj _ _ _ _ HI).
  - intros j lc. rewrite Hc, lookup_insert_Some. intros [[<- <-]|[Hne Hj]] Ho.
    { exists (w_next w), (mkOp k (Some d)). by rewrite lookup_insert_eq. }
    destruct (inv_owned _ _ _ _ HI _ _ Hj Ho) as (o & op & Hop & <-).
    exists o, op. rewrite lookup_insert_ne; [done|]. intros <-. congruence.
  - intros j x. rewrite Hc, lookup_insert_Some. intros [[<- [=]]|[Hne Hj]].
    rewrite lookup_insert_ne by done. by apply (inv_ignored _ _ _ _ HI).
Qed.

Lemma submit_with_data_spec fuel w d :
  world_inv w → permits (world_step fuel w (EvSubmitOp d)) world_inv.
Proof.
  intros [HI Hnext]. simpl. unfold UringInner_submit_with_data.
  assert (Hsub : yields (if sq_is_full (uring (w_inner w)) then UringInner_submit fuel (w_inner w)
                         else Ret (Some (Ok_ tt), w_inner w))
                   (λ '(_, inner'), inner_inv inner' (w_futs w) (w_sqe w))).
  { destruct (sq_is_full _); [by apply UringInner_submit_spec|done]. }
  apply yields_Ret in Hsub as ([res inner] & -> & HI'). simpl.
  destruct res as [[|e]|]; simpl; [|by split..].
  destruct (UringInner_new_op d inner) as [[op inner']| |] eqn:Hnew; simpl; [|done|].
  - destruct (sq_push (uring inner') (op_index op)) as [u|] eqn:Hp; simpl; [|done].
    destruct (new_op_inv _ _ _ _ _ _ HI' Hnext Hnew Hp) as [HI'' Hd].
    split; [done|]. simpl. intros o [x Ho]. apply lookup_insert_Some in Ho as [[<- _]|[_ Ho]].
    { lia. }
    pose proof (Hnext o (mk_is_Some _ _ Ho)). lia.
  - unfold UringInner_new_op, Ops_insert in Hnew.
    destruct (st_insert_spec (ops inner) Submitted (inv_wf _ _ _ _ HI'))
      as [Hpanic|(k & s' & Hins & _)]; rewrite ?Hpanic, ?Hins in Hnew; done.
Qed.

Lemma world_inv_intro w inner futs :
  world_inv w → inner_inv inner futs (w_sqe w) →
  (∀ o, is_Some (futs !! o) → is_Some (w_futs w !! o)) →
  world_inv (mkWorld inner futs (w_next w) (w_sqe w)).
Proof. intros [_ Hnext] HI Hf. split; [done|]. simpl. eauto. Qed.

(** Replacing a future by one with the same operation, or a finished one. *)
Lemma futs_update_is_Some (futs : gmap nat (Op (D:=D))) o op op' x :
  futs !! o = Some op → is_Some (<[o := op']> futs !! x) → is_Some (futs !! x).
Proof.
  intros Ho [y Hx]. apply lookup_insert_Some in Hx as [[<- _]|[_ Hx]]; eauto.
Qed.

Lemma poll_spec fuel w o cx :
  world_inv w → permits (world_step fuel w (EvPoll o cx)) world_inv.
Proof.
  intros Hw. pose proof Hw as [HI Hnext]. simpl.
  destruct (w_futs w !! o) as [op|] eqn:Ho; [|done]. unfold Op_poll.
  destruct (op_data op) as [d|] eqn:Hd; [simpl|done].
  destruct (inv_live _ _ _ _ _ _ _ HI Ho Hd) as (lc & Hlc & Hown & Hsqe & Hkey).
  destruct (st_get_Some _ _ _ (inv_wf _ _ _ _ HI) Hlc) as (r & Hget & Hread & Hassign & Hrem).
  unfold UringInner_poll_op. rewrite Hget. simpl. unfold Lifecycle_poll_op. rewrite Hread. simpl.
  assert (Hid : <[o := op]> (w_futs w) = w_futs w) by by rewrite insert_id.
  assert (Hset : inflight lc → ∀ s', st_wf s' →
    st_content s' = <[op_index op := Waiting cx]> (st_content (ops (w_inner w))) →
    world_inv (mkWorld (mkInner s' (uring (w_inner w)) (woken (w_inner w)))
                       (<[o := op]> (w_futs w)) (w_next w) (w_sqe w))).
  { intros Hif s' Hwf' Hc'. rewrite Hid. apply world_inv_intro; [done| |done].
    apply (Inv_assign (ops (w_inner w)) s' _ _ _ _ (op_index op) lc (Waiting cx) HI); try done.
    { apply HI. }
    intros j. simpl.
    rewrite (inv_pending _ _ _ _ HI). destruct (decide (j = op_index op)) as [->|].
    { split; [by left|]. intros _. by exists lc. }
    split; [by right|]. by intros [[]|[]]. }
  destruct lc as [|w'|x|res fl]; simpl in *; try done.
  - destruct (Hassign (Waiting cx)) as (s' & -> & Hwf' & Hc'). simpl. by apply Hset.
  - destruct (will_wake w' cx); simpl.
    { rewrite Hid. apply world_inv_intro; try done. }
    destruct (Hassign (Waiting cx)) as (s' & -> & Hwf' & Hc'). simpl. by apply Hset.
  - destruct Hrem as (s' & -> & Hwf' & Hc'). simpl.
    apply world_inv_intro; [done| |by intros; eapply futs_update_is_Some].
    apply (Inv_delete (ops (w_inner w)) s' (normal (pending (uring (w_inner w)))) _
             (w_futs w) _ _ (op_index op)); try done.
    + apply HI.
    + intros j. split; [|naive_solver]. intros Hj. split; [|done]. intros ->.
      apply (inv_pending _ _ _ _ HI) in Hj as (lc & Hj & Hif). by simplify_eq.
    + intros o' op'. rewrite lookup_insert_Some. intros [[_ <-]|[Hne Hop']]; [by left|].
      right. split; [done|]. intros Heq. apply Hne. symmetry.
      eapply (inv_inj _ _ _ _ HI); [done..|]. unfold USIZE_MAX. lia.
    + intros o' op' Hop' Hne. rewrite lookup_insert_ne; [done|]. intros <-. congruence.
Qed.

(** Handing the entry over to the driver when its future is dropped. *)
Lemma Inv_ignore s s' L futs sqe o op d lc :
  Inv s L futs sqe → futs !! o = Some op → op_data op = Some d →
  st_content s !! op_index op = Some lc → owned lc → inflight lc →
  sqe !! op_index op = Some d → st_wf s' →
  st_content s' = <[op_index op := Ignored (Some d)]> (st_content s) →
  Inv s' L (delete o futs) sqe.
Proof.
  intros HI Ho Hd Hlc Hown Hif Hsqe Hwf Hc.
  pose proof (inv_key _ _ _ _ _ _ HI Hlc) as Hkey.
  split; [done|apply HI|..].
  - intros j. rewrite (inv_pending _ _ _ _ HI), Hc. destruct (decide (j = op_index op)) as [->|].
    { rewrite lookup_insert_eq. naive_solver. }
    by rewrite lookup_insert_ne.
  - intros o' op' [Hne Hop']%lookup_delete_Some.
    destruct (inv_fut _ _ _ _ HI _ _ Hop') as [->|(d0 & lc0 & ? & ? & ? & ?)]; [by left|].
    right. exists d0, lc0. rewrite Hc, lookup_insert_ne; [done|]. intros Heq. apply Hne.
    eapply (inv_inj _ _ _ _ HI); [done..|]. unfold USIZE_MAX. lia.
  - intros o1 o2 op1 op2 [_ H1]%lookup_delete_Some [_ H2]%lookup_delete_Some.
    by apply (inv_inj _ _ _ _ HI).
  - intros j lcj. rewrite Hc, lookup_insert_Some. intros [[_ <-]|[Hne Hj]] Hoj; [done|].
    destruct (inv_owned _ _ _ _ HI _ _ Hj Hoj) as (o' & op' & Hop' & <-).
    exists o', op'. rewrite lookup_delete_ne; [done|]. intros <-. congruence.
  - intros j x. rewrite Hc, lookup_insert_Some. intros [[<- [= <-]]|[Hne Hj]]; [eauto|].
    by apply (inv_ignored _ _ _ _ HI).
Qed.

Lemma drop_spec fuel w o :
  world_inv w → yields (world_step fuel w (EvDrop o)) world_inv.
Proof.
  intros Hw. pose proof Hw as [HI Hnext]. simpl.
  destruct (w_futs w !! o) as [op|] eqn:Ho; [|done]. unfold Op_drop, UringInner_drop_op.
  assert (Hsub : ∀ x, is_Some (delete o (w_futs w) !! x) → is_Some (w_futs w !! x)).
  { intros x [y [_ Hx]%lookup_delete_Some]. eauto. }
  case_bool_decide as Hmax.
  { simpl. apply world_inv_intro; [done| |done].
    destruct HI as [? ? ? Hf Hi Ho' Hig]. split; try done.
    - intros o' op' [_ ?]%lookup_delete_Some. eauto.
    - intros o1 o2 op1 op2 [_ ?]%lookup_delete_Some [_ ?]%lookup_delete_Some. eauto.
    - intros k lc Hk Hown. destruct (Ho' k lc Hk Hown) as (o' & op' & Hop' & Hk').
      exists o', op'. rewrite lookup_delete_ne; [done|]. intros <-. simplify_eq.
      rewrite Hmax in Hk. apply st_key in Hk; [|done]. unfold USIZE_MAX in Hk. lia. }
  destruct (inv_fut _ _ _ _ HI _ _ Ho) as [->|(d & lc & Hd & Hlc & Hown & Hsqe)]; [done|].
  destruct (st_get_Some _ _ _ (inv_wf _ _ _ _ HI) Hlc) as (r & -> & Hread & Hassign & Hrem).
  simpl. unfold Lifecycle_drop_op. rewrite Hread. simpl.
  assert (Hig : inflight lc → ∀ s', st_wf s' →
    st_content s' = <[op_index op := Ignored (op_data op)]> (st_content (ops (w_inner w))) →
    world_inv (mkWorld (mkInner s' (uring (w_inner w)) (woken (w_inner w)))
                       (delete o (w_futs w)) (w_next w) (w_sqe w))).
  { intros Hif s' Hwf' Hc'. apply world_inv_intro; [done| |done]. rewrite Hd in Hc'.
    by eapply Inv_ignore. }
  destruct lc as [|w'|x|res fl]; simpl in *; try done.
  1,2: destruct (Hassign (Ignored (op_data op))) as (s' & -> & Hwf' & Hc'); simpl; by apply Hig.
  destruct Hrem as (s' & -> & Hwf' & Hc'). simpl.
  apply world_inv_intro; [done| |done].
  apply (Inv_delete (ops (w_inner w)) s' (normal (pending (uring (w_inner w)))) _
             (w_futs w) _ _ (op_index op)); try done.
  - apply HI.
  - intros j. split; [|naive_solver]. intros Hj. split; [|done]. intros ->.
    apply (inv_pending _ _ _ _ HI) in Hj as (lc & Hj & Hif). by simplify_eq.
  - intros o' op' [Hne Hop']%lookup_delete_Some. right. split; [done|]. intros Heq. apply Hne.
    symmetry. eapply (inv_inj _ _ _ _ HI); [done..|]. by rewrite Heq.
  - intros o' op' Hop' Hne. rewrite lookup_delete_ne; [done|]. intros <-. congruence.
Qed.

Lemma IoUringDriver_submit_spec fuel inner futs sqe :
  inner_inv inner futs sqe →
  yields (IoUringDriver_submit fuel inner) (λ '(_, inner'), inner_inv inner' futs sqe).
Proof.
  intros HI. eapply yields_bind; [by apply UringInner_submit_spec|].
  intros [[[]|] inner'] HI'; try done.
  eapply yields_bind; [by apply UringInner_tick_spec|]. done.
Qed.

Lemma inner_park_spec fuel inner futs sqe t :
  inner_inv inner futs sqe →
  permits (IoUringDriver_inner_park ETIME fuel inner t)
          (λ '(_, inner'), inner_inv inner' futs sqe).
Proof.
  intros HI. unfold IoUringDriver_inner_park.
  assert (Htick : ∀ inner', inner_inv inner' futs sqe → ∀ res : option (io_result unit),
    permits (inner'' ← UringInner_tick inner'; Ret (res, inner''))
            (λ '(_, inner'), inner_inv inner' futs sqe)).
  { intros inner' HI' res. apply yields_permits.
    eapply yields_bind; [by apply UringInner_tick_spec|]. done. }
  destruct t.
  - eapply (permits_bind _ _ (λ '(_, inner'), inner_inv inner' futs sqe)).
    { unfold IoUringDriver_flush_space, debug_assert, uadd, uarith, assert_.
      destruct debug_assertions; repeat (case_match; simpl; try done).
      all: by apply yields_permits, UringInner_submit_spec. }
    intros [[[|e]|] inner'] HI'; try done.
    destruct (uring_submit_with_timeout (uring inner')) as [r u] eqn:Hs.
    assert (inner_inv (set_uring inner' u) futs sqe).
    { apply inner_inv_set_uring; [done|]. by eapply pending_timeout. }
    destruct r as [|e]; [by apply Htick|]. case_bool_decide; [by apply Htick|done].
  - destruct (uring_submit_and_wait (uring inner)) as [r u] eqn:Hs.
    assert (inner_inv (set_uring inner u) futs sqe).
    { apply inner_inv_set_uring; [done|]. by eapply pending_wait. }
    destruct r; [by apply Htick|done].
Qed.

Lemma world_step_spec fuel w e : world_inv w → permits (world_step fuel w e) world_inv.
Proof.
  intros Hw. pose proof Hw as [HI Hnext].
  destruct e as [d|o cx|o| | |t].
  - by apply submit_with_data_spec.
  - by apply poll_spec.
  - by apply yields_permits, drop_spec.
  - simpl. pose proof (UringInner_cancel_op_spec fuel _ _ _ HI) as Hc.
    apply yields_Ret in Hc as (inner & -> & HI'). simpl. by split.
  - simpl. eapply permits_bind; [by apply yields_permits, IoUringDriver_submit_spec|].
    intros [_ inner] HI'. by split.
  - simpl. eapply permits_bind; [by apply inner_park_spec|]. intros [_ inner] HI'. by split.
Qed.

Lemma world_init_inv : world_inv world_init.
Proof.
  destruct st_new_spec as [Hwf Hc].
  split; [|intros o [? [=]]]. unfold inner_inv, normal. simpl. rewrite pending_new.
  split; [done|constructor|..].
  - intros k. rewrite Hc. split; [set_solver|]. intros (? & [=] & _).
  - done.
  - done.
  - intros k lc. by rewrite Hc.
  - intros k lc. by rewrite Hc.
Qed.

Lemma world_run_spec fuel es w : world_inv w → permits (world_run fuel w es) world_inv.
Proof.
  revert w. induction es as [|e es IH]; intros w Hw; [done|]. simpl.
  eapply permits_bind; [by apply world_step_spec|]. auto.
Qed.

(** ** Delivery of a completion

    Characterisations of the three calls a completion goes through, on a
    store whose entry [k] is known. *)

Lemma Op_poll_waiting inner inner' op op' d cx :
  st_wf (ops inner) → op_data op = Some d →
  (∃ lc, st_content (ops inner) !! op_index op = Some lc) →
  Op_poll will_wake inner op cx = Ret (Pending, inner', op') →
  op' = op ∧ st_wf (ops inner') ∧ uring inner' = uring inner ∧ woken inner' = woken inner ∧
  ∃ w, st_content (ops inner') !! op_index op = Some (Waiting w) ∧
       (w = cx ∨ will_wake w cx = true).
Proof.
  intros Hwf Hd [lc Hlc]. unfold Op_poll, UringInner_poll_op. rewrite Hd. simpl.
  destruct (st_get_Some _ _ _ Hwf Hlc) as (r & -> & Hread & Hassign & Hrem). simpl.
  unfold Lifecycle_poll_op. rewrite Hread. simpl.
  destruct (Hassign (Waiting cx)) as (s1 & Hs1 & Hwf1 & Hc1).
  destruct lc as [|w0|x|res fl]; simpl.
  - rewrite Hs1. simpl. intros [= <- <-]. split_and!; try done. exists cx.
    simpl. rewrite Hc1, lookup_insert_eq. auto.
  - destruct (will_wake w0 cx) eqn:Hww; simpl.
    { intros [= <- <-]. split_and!; try done. simpl. eauto. }
    rewrite Hs1. simpl. intros [= <- <-]. split_and!; try done. exists cx.
    simpl. rewrite Hc1, lookup_insert_eq. auto.
  - destruct Hrem as (s2 & -> & _). done.
  - destruct Hrem as (s2 & -> & _). simpl. done.
Qed.

Lemma Ops_complete_waiting s k w result flags :
  st_wf s → st_content s !! k = Some (Waiting w) →
  ∃ s', Ops_complete s k result flags = Ret (s', [w]) ∧ st_wf s' ∧
        st_content s' = <[k := Completed result flags]> (st_content s).
Proof.
  intros Hwf Hk. unfold Ops_complete.
  destruct (st_get_Some _ _ _ Hwf Hk) as (r & -> & Hread & Hassign & _). simpl.
  unfold Lifecycle_complete. rewrite Hread. simpl.
  destruct (Hassign (Completed result flags)) as (s' & -> & Hwf' & Hc'). simpl. eauto.
Qed.

Lemma Op_poll_completed inner op d cx result flags :
  st_wf (ops inner) → op_data op = Some d →
  st_content (ops inner) !! op_index op = Some (Completed result flags) →
  ∃ inner', Op_poll will_wake inner op cx =
              Ret (Ready (mkCompletion d (mkMeta result flags)), inner', mkOp USIZE_MAX None) ∧
            st_content (ops inner') = delete (op_index op) (st_content (ops inner)).
Proof.
  intros Hwf Hd Hlc. unfold Op_poll, UringInner_poll_op. rewrite Hd. simpl.
  destruct (st_get_Some _ _ _ Hwf Hlc) as (r & -> & Hread & _ & (s' & Hs' & _ & Hc')). simpl.
  unfold Lifecycle_poll_op. rewrite Hread. simpl. rewrite Hs'. simpl. eauto.
Qed.

(** C2: whatever the interleaving of submissions, polls, drops, cancellations
    and driver turns, no call into the driver executes undefined behaviour
    ([unwrap_unchecked] on a missing entry, [unreachable_unchecked] in the
    lifecycle), and the operations, futures and entries owed by the kernel stay
    in correspondence. *)
Theorem driver_never_ub fuel es : permits (world_run fuel world_init es) world_inv.
Proof. apply world_run_spec, world_init_inv. Qed.

(** C8: while the kernel owes a completion for an entry, the data submitted
    with it (its buffer) is alive: a future still holds it, or, after the
    future was dropped, the slab does. *)
Theorem kernel_buffer_retained fuel es w k :
  world_run fuel world_init es = Ret w →
  k ∈ normal (pending (uring (w_inner w))) →
  ∃ d, w_sqe w !! k = Some d ∧
       ((∃ o op, w_futs w !! o = Some op ∧ op_index op = k ∧ op_data op = Some d) ∨
        st_content (ops (w_inner w)) !! k = Some (Ignored (Some d))).
Proof.
  intros Hrun Hk.
  pose proof (permits_eq _ _ _ (world_run_spec fuel es _ world_init_inv) Hrun) as [HI _].
  apply (inv_pending _ _ _ _ HI) in Hk as (lc & Hlc & Hif).
  assert (Hown : owned lc → ∃ o op, w_futs w !! o = Some op ∧ op_index op = k ∧
            ∃ d, op_data op = Some d ∧ w_sqe w !! k = Some d).
  { intros Ho. destruct (inv_owned _ _ _ _ HI _ _ Hlc Ho) as (o & op & Hop & <-).
    exists o, op. split_and!; [done..|].
    destruct (inv_fut _ _ _ _ HI _ _ Hop) as [->|(d & _ & ? & _ & _ & ?)]; [|eauto].
    pose proof (inv_key _ _ _ _ _ _ HI Hlc). simpl in *. unfold USIZE_MAX in *. lia. }
  destruct lc as [|w0|x|]; [..|done].
  1,2: destruct Hown as (o & op & ? & ? & d & ? & ?); [done|]; exists d; split; [done|]; left; eauto.
  destruct (inv_ignored _ _ _ _ HI _ _ Hlc) as (d & -> & ?). eauto.
Qed.

(** C9: a completion is delivered.  After a poll that returned [Pending], the
    completion of the operation wakes a waker equivalent to the one of that
    poll, and the next poll returns [Ready] with the operation's data and the
    kernel's result, and frees the entry. *)
Theorem completion_delivered fuel es w o op d cx cx' inner op' result flags :
  world_run fuel world_init es = Ret w →
  w_futs w !! o = Some op → op_data op = Some d →
  Op_poll will_wake (w_inner w) op cx = Ret (Pending, inner, op') →
  op' = op ∧
  ∃ s wk, Ops_complete (ops inner) (op_index op) result flags = Ret (s, [wk]) ∧
    (wk = cx ∨ will_wake wk cx = true) ∧
    ∃ inner', Op_poll will_wake (mkInner s (uring inner) (woken inner ++ [wk])) op cx' =
                Ret (Ready (mkCompletion d (mkMeta result flags)), inner', mkOp USIZE_MAX None) ∧
              st_content (ops inner') !! op_index op = None.
Proof.
  intros Hrun Ho Hd Hp.
  pose proof (permits_eq _ _ _ (world_run_spec fuel es _ world_init_inv) Hrun) as [HI _].
  destruct (inv_live _ _ _ _ _ _ _ HI Ho Hd) as (lc & Hlc & _).
  destruct (Op_poll_waiting _ _ _ _ _ _ (inv_wf _ _ _ _ HI) Hd (ex_intro _ lc Hlc) Hp)
    as (-> & Hwf & _ & _ & wk & Hwk & Hor).
  split; [done|].
  destruct (Ops_complete_waiting _ _ _ result flags Hwf Hwk) as (s & Hs & Hwf' & Hc).
  exists s, wk. split; [done|]. split; [done|].
  destruct (Op_poll_completed (mkInner s (uring inner) (woken inner ++ [wk])) op d cx' result flags)
    as (inner' & Hp' & Hc'); [done..|simpl; by rewrite Hc, lookup_insert_eq|].
  exists inner'. split; [done|]. by rewrite Hc', lookup_delete_eq.
Qed.

(** No operation leaks: once every future is gone and the kernel owes
    nothing, the slab of operations is empty. *)
Theorem driver_no_leak fuel es w :
  world_run fuel world_init es = Ret w → w_futs w = ∅ →
  normal (pending (uring (w_inner w))) = [] →
  st_content (ops (w_inner w)) = ∅.
Proof.
  intros Hrun Hf Hp.
  pose proof (permits_eq _ _ _ (world_run_spec fuel es _ world_init_inv) Hrun) as [HI _].
  apply map_empty. intros k. destruct (st_content _ !! k) as [lc|] eqn:Hk; [|done].
  exfalso. destruct (inflight_or_owned lc) as [Hif|Ho].
  - assert (k ∈ normal (pending (uring (w_inner w)))) as Hin by (apply (inv_pending _ _ _ _ HI); eauto).
    rewrite Hp in Hin. by apply not_elem_of_nil in Hin.
  - destruct (inv_owned _ _ _ _ HI _ _ Hk Ho) as (o & op & Hop & _).
    by rewrite Hf, lookup_empty in Hop.
Qed.

(** ** Termination of the submission loop

    [retries] bounds how many times the kernel answers [EBUSY] or an
    uncategorised error before it accepts the queue. *)
Context (retries : U → nat).
Hypothesis retries_submit : ∀ u e u', uring_submit u = (Err_ e, u') →
  kind e ≠ OtherKind → (retries u' < retries u)%nat.
Hypothesis retries_drain : ∀ u cq u', cq_drain u = (cq, u') → (retries u' ≤ retries u)%nat.

Lemma tick_retries inner inner' :
  UringInner_tick inner = Ret inner' → (retries (uring inner') ≤ retries (uring inner))%nat.
Proof.
  unfold UringInner_tick. destruct (cq_drain (uring inner)) as [cq u] eqn:Hcq.
  apply retries_drain in Hcq. intros Ht.
  enough (uring inner' = u) as -> by done.
  assert (Hl : ∀ cq (i i' : inner_t), tick_loop i cq = Ret i' → uring i' = uring i).
  { clear. induction cq as [|c cq IH]; intros i i' H; simpl in H; [congruence|].
    case_bool_decide; [|by apply IH].
    apply bind_Ret in H as (res & _ & H). apply bind_Ret in H as ([s wk] & _ & H).
    by apply IH in H. }
  by apply Hl in Ht.
Qed.

(** [submit] returns: with more rounds than the ring is going to answer
    busy, the retry loop ends, and ends with the invariant. *)
Theorem UringInner_submit_terminates fuel inner futs sqe :
  inner_inv inner futs sqe → (retries (uring inner) < fuel)%nat →
  yields (UringInner_submit fuel inner)
    (λ '(res, inner'), res ≠ None ∧ inner_inv inner' futs sqe).
Proof.
  revert inner. induction fuel as [|fuel IH]; intros inner HI Hr; [lia|]. simpl.
  destruct (uring_submit (uring inner)) as [res u] eqn:Hs.
  assert (HI' : inner_inv (set_uring inner u) futs sqe).
  { apply inner_inv_set_uring; [done|]. by eapply pending_submit. }
  destruct res as [|e]; [done|]. pose proof (retries_submit _ _ _ Hs) as Hdec.
  pose proof (UringInner_tick_spec _ _ _ HI') as Ht.
  destruct (kind e); [..|done].
  all: apply yields_Ret in Ht as (inner1 & Heq & HI1); rewrite Heq; apply tick_retries in Heq.
  all: apply IH; [done|]; simpl in Heq; specialize (Hdec ltac:(done)); lia.
Qed.
End system.

(** ** A simulated ring

    Four submission entries; the first submission of a fresh ring is answered
    [EBUSY], later ones complete every queued entry with result 7. *)
Module SimRing.
Record ring : Type := mkRing { sq : list Z; cq : list Z; busy : nat }.

Definition submit (u : ring) : io_result unit * ring :=
  match busy u with
  | O => (Ok_ tt, mkRing [] (cq u ++ sq u) 0)
  | Datatypes.S n => (Err_ (mkIoError ResourceBusy (Some 16)), mkRing (sq u) (cq u) n)
  end.

Definition drain (u : ring) : list Cqe * ring :=
  ((λ k, mkCqe k 7 0) <$> cq u, mkRing (sq u) [] (busy u)).

Definition ring_pending (u : ring) : list Z := sq u ++ cq u.

#[export] Instance sim_uring : Uring ring := {|
  uring_new := mkRing [] [] 1;
  sq_is_full u := bool_decide (4 ≤ length (sq u))%nat;
  sq_len u := Z.of_nat (length (sq u));
  sq_capacity u := 4;
  sq_push u k :=
    if bool_decide (4 ≤ length (sq u))%nat then None
    else Some (mkRing (sq u ++ [k]) (cq u) (busy u));
  uring_submit := submit;
  uring_submit_and_wait := submit;
  uring_submit_with_timeout := submit;
  cq_drain := drain;
|}.

Lemma submit_pending u r u' : submit u = (r, u') → ring_pending u' ≡ₚ ring_pending u.
Proof.
  destruct u as [s c [|n]]; simpl; intros [= <- <-]; [|done].
  unfold ring_pending. simpl. apply Permutation_app_comm.
Qed.

Lemma push_pending u k u' : sq_push u k = Some u' → ring_pending u' ≡ₚ k :: ring_pending u.
Proof.
  simpl. case_bool_decide; [done|]. intros [= <-]. unfold ring_pending. simpl.
  rewrite <- app_assoc. simpl. by rewrite <- Permutation_middle.
Qed.

Lemma drain_pending u cqes u' :
  drain u = (cqes, u') → ring_pending u ≡ₚ (cqe_user_data <$> cqes) ++ ring_pending u'.
Proof.
  intros [= <- <-]. unfold ring_pending. simpl.
  rewrite <- list_fmap_compose. unfold compose. simpl. rewrite list_fmap_id, app_nil_r.
  apply Permutation_app_comm.
Qed.

Lemma drain_results u cqes u' :
  drain u = (cqes, u') → Forall (λ c, - 2 ^ 31 < cqe_result c < 2 ^ 31) cqes.
Proof. intros [= <- <-]. apply Forall_fmap, Forall_true. simpl. lia. Qed.

#[export] Instance sim_uring_laws : UringLaws ring := {|
  pending := ring_pending;
  pending_new := eq_refl;
  pending_push := push_pending;
  pending_submit := submit_pending;
  pending_wait := submit_pending;
  pending_timeout := submit_pending;
  pending_drain := drain_pending;
  drain_result := drain_results;
|}.
End SimRing.

(** *** Concrete instances

    The driver over the slab of [Slab.v] and the simulated ring: two operations
    are submitted and polled, one is dropped while in flight. *)

#[local] Existing Instance Slab.slab_store.
#[local] Existing Instance Slab.slab_store_laws.
#[local] Existing Instance SimRing.sim_uring.
#[local] Existing Instance SimRing.sim_uring_laws.
#[local] Instance debug_build : Build := true.

#[local] Abbreviation demo_slab := (Slab.Slab (Lifecycle (W:=nat) (D:=nat))).
#[local] Abbreviation demo_world := (World (W:=nat) (D:=nat) (S:=demo_slab) (U:=SimRing.ring)).

Definition demo_init : demo_world := world_init (R:=Slab.Ref).
Definition demo_run (es : list event) : outcome demo_world :=
  world_run (R:=Slab.Ref) Nat.eqb 62 10 demo_init es.
Definition demo_result (es : list event) : demo_world :=
  match demo_run es with Ret w => w | _ => demo_init end.

Definition demo_events : list (event (W:=nat) (D:=nat)) :=
  [EvSubmitOp 10%nat; EvSubmitOp 11%nat; EvPoll 0 5%nat; EvDrop 1].

Definition outcome_ret_b {A} (m : outcome A) : bool := match m with Ret _ => true | _ => false end.

Lemma demo_run_ok es : outcome_ret_b (demo_run es) = true → demo_run es = Ret (demo_result es).
Proof. unfold demo_result. by destruct (demo_run es). Qed.

Definition demo_live : demo_world := demo_result demo_events.

Lemma kernel_buffer_retained_witness :
  1 ∈ normal (pending (uring (w_inner demo_live))) ∧
  ∃ d, w_sqe demo_live !! 1 = Some d ∧
       ((∃ o op, w_futs demo_live !! o = Some op ∧ op_index op = 1 ∧ op_data op = Some d) ∨
        st_content (ops (w_inner demo_live)) !! 1 = Some (Ignored (Some d))).
Proof.
  assert (Hk : 1 ∈ normal (pending (uring (w_inner demo_live)))).
  { apply (list_elem_of_lookup_2 _ 1). vm_compute. reflexivity. }
  split; [exact Hk|].
  apply (kernel_buffer_retained Nat.eqb 62 10 demo_events); [by apply demo_run_ok|exact Hk].
Defined.

Definition demo_op : Op := mkOp 0 (Some 10%nat).
Definition demo_inner := w_inner demo_live.

Lemma completion_delivered_witness :
  demo_op = demo_op ∧
  ∃ s wk, Ops_complete (ops demo_inner) 0 (Ok_ 7) 0 = Ret (s, [wk]) ∧
    (wk = 5%nat ∨ Nat.eqb wk 5 = true) ∧
    ∃ inner', Op_poll Nat.eqb (mkInner s (uring demo_inner) (woken demo_inner ++ [wk])) demo_op 9%nat =
                Ret (Ready (mkCompletion 10%nat (mkMeta (Ok_ 7) 0)), inner', mkOp USIZE_MAX None) ∧
              st_content (ops inner') !! 0 = None.
Proof.
  apply (completion_delivered Nat.eqb 62 10 demo_events demo_live 0).
  - by apply demo_run_ok.
  - vm_compute. reflexivity.
  - done.
  - vm_compute. reflexivity.
Defined.

(** Everything submitted completes, is polled to completion or dropped. *)
Definition demo_drained : list event :=
  demo_events ++ [EvPark false; EvSubmit; EvPark false; EvPoll 0 5%nat; EvDrop 0].

Lemma driver_no_leak_witness :
  st_content (ops (w_inner (demo_result demo_drained))) = ∅.
Proof.
  apply (driver_no_leak Nat.eqb 62 10 demo_drained).
  - by apply demo_run_ok.
  - vm_compute. reflexivity.
  - vm_compute. reflexivity.
Defined.

Lemma UringInner_submit_terminates_witness :
  yields (UringInner_submit 2 (w_inner demo_init))
    (λ '(res, inner'), res ≠ None ∧ inner_inv inner' ∅ (∅ : gmap Z nat)).
Proof.
  apply (UringInner_submit_terminates SimRing.busy); simpl.
  - intros [s c [|n]] e u' [= _ <-] _. simpl. lia.
  - intros u cq u' [= _ <-]. simpl. lia.
  - exact (proj1 (world_init_inv (R:=Slab.Ref))).
  - lia.
Defined.

Lemma driver_never_ub_witness :
  permits (world_run (R:=Slab.Ref) Nat.eqb 62 10 demo_init demo_drained) world_inv.
Proof. exact (driver_never_ub (R:=Slab.Ref) Nat.eqb 62 10 demo_drained). Defined.
