(* ===== verification/SharedFd.v ===== *)
(** * SharedFd: file descriptors of [runtime/src/driver/shared_fd.rs]

    The reference-counted descriptor the operations of a file hold, its state
    machine, [close] as a future, and what the last reference does when it is
    dropped ([driver/op/close.rs] is the operation they submit). The driver is
    used through the interface [OpDriver]; [Driver_ops] is the driver of
    [Driver.v] behind it.

    Who holds a descriptor (a [File], the data of a read or a write in flight,
    a future of [close]) is a [holder]; the steps are the calls that the owners
    make, in any order, and whatever the driver does in between. *)

From stdpp Require Import gmap.
From S2P Require Import Prelude.
From S2P Require Import Store.
From S2P Require Import Driver.

Local Open Scope Z_scope.

(** ** The driver, as descriptors use it *)

(** [T]: the driver and the scoped variable [CURRENT]; [O]: the operations
    [Op<Close>]; [W]: wakers. A submission may still be retrying ([None]). *)
Class OpDriver (T O W : Type) := {
  drv_is_set : T → bool;                                   (* CURRENT.is_set() *)
  drv_submit_with : Z → stateM T (option (io_result O));   (* Op::submit_with(Close { fd }) *)
  drv_poll : O → W → stateM T (bool * O);                  (* Future::poll: is it ready? *)
  drv_drop : O → stateM T unit;
  wk_will_wake : W → W → bool;
}.

Section definitions.
Context {T O W : Type} `{DR : !OpDriver T O W}.

Inductive UringState : Type :=
  | Init
  | Waiting (waker : option W)
  | Closing (op : O)
  | Closed.

(** [Rc<Inner>]: the descriptor, the strong count and the state. *)
Record Inner : Type := MkInner { fd : Z; strong : Z; state : UringState }.

(** Who owns a [SharedFd]: a value, or a future of [close] before its first poll
    or at its [await]. *)
Inductive holder : Type :=
  | Value (c : nat)
  | Unresumed (c : nat)
  | Awaiting (c : nat).
Definition holder_cell (h : holder) : nat :=
  match h with Value c | Unresumed c | Awaiting c => c end.

(** [closes] and [refusals] are for the statements: the cells whose descriptor
    was given to the kernel to be closed, and those whose [close] could not be
    submitted. *)
Record Fds : Type := MkFds {
  cells : gmap nat Inner;
  next_cell : nat;
  holders : gmap nat holder;
  next_holder : nat;
  driver : T;
  closes : list nat;
  refusals : list nat;
}.

(** Computations that may still be retrying a submission ([None]). *)
Definition M (A : Type) : Type := Fds → outcome (option A * Fds).
#[export] Instance M_ret : MRet M := λ A a w, Ret (Some a, w).
#[export] Instance M_bind : MBind M := λ A C f m w,
  match m w with
  | Ret (Some a, w') => f a w'
  | Ret (None, w') => Ret (None, w')
  | Panic => Panic
  | UB => UB
  end.

Definition with_cells (f : gmap nat Inner → gmap nat Inner) w : Fds :=
  MkFds (f (cells w)) (next_cell w) (holders w) (next_holder w) (driver w) (closes w) (refusals w).
Definition with_holders (f : gmap nat holder → gmap nat holder) w : Fds :=
  MkFds (cells w) (next_cell w) (f (holders w)) (next_holder w) (driver w) (closes w) (refusals w).
Definition with_driver (t : T) w : Fds :=
  MkFds (cells w) (next_cell w) (holders w) (next_holder w) t (closes w) (refusals w).

Definition put (f : Fds → Fds) : M unit := λ w, Ret (Some tt, f w).
Definition read_state {A} (f : Fds → A) : M A := λ w, Ret (Some (f w), w).
Definition on_driver {A} (m : stateM T A) : M A := λ w,
  '(a, t) ← m (driver w); Ret (Some a, with_driver t w).
(** What is not there cannot be referred to. *)
Definition get_cell (c : nat) : M Inner := λ w,
  match cells w !! c with Some i => Ret (Some i, w) | None => UB end.
Definition set_state (c : nat) (s : UringState) : M unit :=
  i ← get_cell c; put (with_cells <[c := MkInner (fd i) (strong i) s]>).
Definition retrying {A} : M A := λ w, Ret (None, w).

Definition log_close (c : nat) : M unit :=
  put (λ w, MkFds (cells w) (next_cell w) (holders w) (next_holder w) (driver w) (closes w ++ [c]) (refusals w)).
Definition log_refusal (c : nat) : M unit :=
  put (λ w, MkFds (cells w) (next_cell w) (holders w) (next_holder w) (driver w) (closes w) (refusals w ++ [c])).

(** [Op::close] with [Op::try_submit_with]. *)
Definition Op_close (c : nat) (fd : Z) : M (io_result O) :=
  is_set ← read_state (λ w, drv_is_set (driver w));
  if is_set : bool then
    r ← on_driver (drv_submit_with fd);
    match r with
    | None => retrying
    | Some (Ok_ op) => log_close c;; mret (Ok_ op)
    | Some (Err_ e) => mret (Err_ e)
    end
  else mret (Err_ (mkIoError Other None)).

(** [File::from_raw_fd(fd)], dropped. *)
Definition close_file (c : nat) : M unit := log_close c.

(** [Drop for Inner], then the drop of its fields. *)
Definition Inner_drop (c : nat) (i : Inner) : M unit :=
  (match state i with
   | Init | Waiting _ =>
       r ← Op_close c (fd i);
       match r with
       | Ok_ op => on_driver (drv_drop op)
       | Err_ _ => close_file c
       end
   | _ => mret tt
   end);;
  match state i with
  | Closing op => on_driver (drv_drop op)
  | _ => mret tt
  end.

(** Drop of an [Rc<Inner>]. *)
Definition Rc_drop (c : nat) : M unit :=
  i ← get_cell c;
  if bool_decide (strong i = 1) then
    put (with_cells (delete c));;
    Inner_drop c i
  else put (with_cells <[c := MkInner (fd i) (strong i - 1) (state i)]>).

Definition add_holder (h : holder) : M nat := λ w,
  Ret (Some (next_holder w),
    MkFds (cells w) (next_cell w) (<[next_holder w := h]> (holders w)) (S (next_holder w))
      (driver w) (closes w) (refusals w)).

(** [SharedFd::new] and [SharedFd::new_without_register]; the latter reads
    [CURRENT], which panics if it is not set. *)
Definition SharedFd_new (fd : Z) : M nat := λ w,
  add_holder (Value (next_cell w))
    (MkFds (<[next_cell w := MkInner fd 1 Init]> (cells w)) (S (next_cell w)) (holders w) (next_holder w)
       (driver w) (closes w) (refusals w)).
Definition SharedFd_new_without_register (fd : Z) : M nat :=
  is_set ← read_state (λ w, drv_is_set (driver w));
  if is_set : bool then SharedFd_new fd else λ _, Panic.

Definition SharedFd_clone (c : nat) : M nat :=
  i ← get_cell c;
  put (with_cells <[c := MkInner (fd i) (strong i + 1) (state i)]>);;
  add_holder (Value c).

Definition SharedFd_raw_fd (c : nat) : M Z := i ← get_cell c; mret (fd i).

(** [try_unwrap] of the value [k]: for the last owner a [State] is conjured up from
    uninitialised memory, which no value of an enum is. *)
Definition SharedFd_try_unwrap (k c : nat) : M (nat + Z) :=
  i ← get_cell c;
  if bool_decide (strong i = 1) then (λ _, UB) : M (nat + Z) else mret (inl k).

(** The poll of [Inner::closed]. *)
Definition Inner_closed_poll (c : nat) (cx : W) : M (Poll unit) :=
  i ← get_cell c;
  match state i with
  | Init => set_state c (Waiting (Some cx));; mret Pending
  | Waiting (Some waker) =>
      (if wk_will_wake waker cx then mret tt else set_state c (Waiting (Some cx)));;
      mret Pending
  | Waiting None => set_state c (Waiting (Some cx));; mret Pending
  | Closing op =>
      '(ready, op) ← on_driver (drv_poll op cx);
      set_state c (Closing op);;
      if ready : bool then
        on_driver (drv_drop op);;           (* the assignment drops the old state *)
        set_state c Closed;;
        mret (Ready tt)
      else mret Pending
  | Closed => mret (Ready tt)
  end.

(** [close] at its [await]; when it returns, [this] is dropped. *)
Definition close_resume (k c : nat) (cx : W) : M (Poll unit) :=
  p ← Inner_closed_poll c cx;
  match p with
  | Ready _ => put (with_holders (delete k));; Rc_drop c;; mret (Ready tt)
  | Pending => mret Pending
  end.
Definition close_await (k c : nat) (cx : W) : M (Poll unit) :=
  put (with_holders <[k := Awaiting c]>);; close_resume k c cx.

(** The first poll of [close]: [Rc::get_mut] succeeds on the only reference. *)
Definition close_start (k c : nat) (cx : W) : M (Poll unit) :=
  i ← get_cell c;
  if bool_decide (strong i = 1) then
    r ← Op_close c (fd i);
    match r with
    | Ok_ op =>
        set_state c (Closing op);;
        match state i with Closing old => on_driver (drv_drop old) | _ => mret tt end;;
        close_await k c cx
    | Err_ _ =>
        log_refusal c;; close_file c;;
        put (with_holders (delete k));; Rc_drop c;; mret (Ready tt)
    end
  else close_await k c cx.

(** So [try_unwrap] never returns a descriptor. *)
Lemma try_unwrap_never k c w r w' : SharedFd_try_unwrap k c w = Ret (Some r, w') → r = inl k ∧ w' = w.
Proof.
  unfold SharedFd_try_unwrap, get_cell, mbind, M_bind. destruct (cells w !! c); [|done].
  case_bool_decide; [done|]. by intros [= <- <-].
Qed.

(** ** Runs *)

Inductive fd_event : Type :=
  | EvNew (fd : Z)
  | EvNewWithoutRegister (fd : Z)
  | EvClone (k : nat)
  | EvDrop (k : nat)                (* drop of a value or of a future *)
  | EvClose (k : nat)               (* call [close] *)
  | EvPoll (k : nat) (cx : W)       (* poll a future of [close] *)
  | EvDriver (f : T → T).           (* anything else that changes the driver *)

Definition fd_do (e : fd_event) : M unit :=
  match e with
  | EvNew fd => SharedFd_new fd;; mret tt
  | EvNewWithoutRegister fd => SharedFd_new_without_register fd;; mret tt
  | EvClone k =>
      h ← read_state (λ w, holders w !! k);
      match h with
      | Some (Value c) => SharedFd_clone c;; mret tt
      | _ => mret tt
      end
  | EvDrop k =>
      h ← read_state (λ w, holders w !! k);
      match h with
      | Some h => put (with_holders (delete k));; Rc_drop (holder_cell h)
      | None => mret tt
      end
  | EvClose k =>
      h ← read_state (λ w, holders w !! k);
      match h with
      | Some (Value c) => put (with_holders <[k := Unresumed c]>)
      | _ => mret tt
      end
  | EvPoll k cx =>
      h ← read_state (λ w, holders w !! k);
      match h with
      | Some (Unresumed c) => close_start k c cx;; mret tt
      | Some (Awaiting c) => close_resume k c cx;; mret tt
      | _ => mret tt
      end
  | EvDriver f => put (λ w, with_driver (f (driver w)) w)
  end.

Fixpoint fd_run (es : list fd_event) : M unit :=
  match es with
  | [] => mret tt
  | e :: es => fd_do e;; fd_run es
  end.

Definition fds_init (t : T) : Fds := MkFds ∅ 0 ∅ 0 t [] [].
End definitions.

Arguments UringState : clear implicits.
Arguments Inner : clear implicits.
Arguments Fds : clear implicits.
Arguments fd_event : clear implicits.

(** ** Reasoning about runs *)

Section facts.
Context {T O W : Type} `{DR : !OpDriver T O W}.
#[local] Abbreviation fds := (Fds T O W).
#[local] Abbreviation m_of A := (M (T:=T) (O:=O) (W:=W) A).
Implicit Types (w : fds) (c k : nat) (i : Inner O W) (h : holder).

(** Whatever the computation returns satisfies [Q]. *)
Definition returns {A} (m : m_of A) w (Q : A → fds → Prop) : Prop := ∀ a w', m w = Ret (Some a, w') → Q a w'.

Lemma returns_ret {A} (a : A) w (Q : A → fds → Prop) : Q a w → returns (mret a) w Q.
Proof. by intros HQ a' w' [= <- <-]. Qed.
Lemma returns_put f w (Q : unit → fds → Prop) : Q tt (f w) → returns (put f) w Q.
Proof. by intros HQ [] w' [= <-]. Qed.
Lemma returns_bind {A C} (m : m_of A) (f : A → m_of C) w (P : A → fds → Prop) (Q : C → fds → Prop) :
  returns m w P → (∀ a w', P a w' → returns (f a) w' Q) → returns (m ≫= f) w Q.
Proof.
  intros HP Hf b w'. unfold mbind, M_bind. destruct (m w) as [[[a|] w1]| |] eqn:Hm; [|done..].
  apply Hf. by apply HP.
Qed.
Lemma returns_get_cell {A} c (f : Inner O W → m_of A) w (Q : A → fds → Prop) :
  (∀ i, cells w !! c = Some i → returns (f i) w Q) → returns (i ← get_cell c; f i) w Q.
Proof.
  intros Hf b w'. unfold mbind, M_bind, get_cell. destruct (cells w !! c) eqn:Hc; [|done]. by apply Hf.
Qed.
Lemma returns_read {A C} (f : fds → A) (g : A → m_of C) w (Q : C → fds → Prop) :
  returns (g (f w)) w Q → returns (a ← read_state f; g a) w Q.
Proof. done. Qed.
Lemma returns_seq {A} f (m : m_of A) w (Q : A → fds → Prop) :
  returns m (f w) Q → returns (put f;; m) w Q.
Proof. done. Qed.
Lemma returns_driver {A C} (m : stateM T A) (f : A → m_of C) w (Q : C → fds → Prop) :
  (∀ a t, returns (f a) (with_driver t w) Q) → returns (a ← on_driver m; f a) w Q.
Proof.
  intros Hf b w'. unfold mbind at 1, M_bind, on_driver, mbind, outcome_bind.
  destruct (m (driver w)) as [[a t]| |]; [|done..]. by apply Hf.
Qed.
Lemma returns_mono {A} (m : m_of A) w (P Q : A → fds → Prop) :
  returns m w P → (∀ a w', P a w' → Q a w') → returns m w Q.
Proof. intros HP HQ a w' Hm. by apply HQ, HP. Qed.

(** The descriptor has not been given to the kernel to be closed. *)
Definition is_open (s : UringState O W) : bool :=
  match s with Init | Waiting _ => true | _ => false end.
Definition logged c w : fds :=
  MkFds (cells w) (next_cell w) (holders w) (next_holder w) (driver w) (closes w ++ [c]) (refusals w).

Lemma Op_close_returns c z w (Q : io_result O → fds → Prop) :
  (∀ t op, Q (Ok_ op) (logged c (with_driver t w))) →
  (∀ t e, Q (Err_ e) (with_driver t w)) → returns (Op_close c z) w Q.
Proof.
  intros Hok Herr. unfold Op_close. apply returns_read. destruct (drv_is_set (driver w)).
  - apply returns_driver. intros [[op|e]|] t; [|by apply returns_ret|by intros ? ? [=]].
    apply returns_seq, returns_ret, Hok.
  - apply returns_ret. replace w with (with_driver (driver w) w) by by destruct w. apply Herr.
Qed.
Lemma returns_on_driver (m : stateM T unit) w (Q : unit → fds → Prop) :
  (∀ t, Q tt (with_driver t w)) → returns (on_driver m) w Q.
Proof.
  intros HQ. intros [] w'. unfold on_driver, mbind, outcome_bind.
  destruct (m (driver w)) as [[[] t]| |]; [|done..]. intros [= <-]. apply HQ.
Qed.

Lemma M_bind_eq {A C} (m : m_of A) (f : A → m_of C) w a w' : m w = Ret (Some a, w') → (m ≫= f) w = f a w'.
Proof. unfold mbind, M_bind. by intros ->. Qed.
Lemma Op_close_unset c z w : drv_is_set (driver w) = false → Op_close c z w = Ret (Some (Err_ (mkIoError Other None)), w).
Proof. intros Hset. unfold Op_close, read_state, mbind, M_bind. by rewrite Hset. Qed.
Lemma Inner_drop_unset c i w : is_open (state i) = true → drv_is_set (driver w) = false →
  Inner_drop c i w = Ret (Some tt, logged c w).
Proof.
  intros Ho Hset. unfold Inner_drop.
  destruct (state i); (done || (rewrite (M_bind_eq _ _ _ tt (logged c w)); [done|]));
    by rewrite (M_bind_eq _ _ _ _ w) by by apply Op_close_unset.
Qed.

(** Dropping the last reference closes what has not been closed. *)
Lemma Inner_drop_returns c i w :
  returns (Inner_drop c i) w (λ _ w', ∃ t, w' = with_driver t (if is_open (state i) then logged c w else w)).
Proof.
  unfold Inner_drop. destruct i as [z n s]; cbn [state fd]. destruct s as [|wk|op|]; cbn [is_open].
  - apply (returns_bind _ _ _ (λ _ w', ∃ t, w' = with_driver t (logged c w))).
    + eapply returns_bind; [apply (Op_close_returns _ _ _ (λ r w', match r with Ok_ _ => ∃ t, w' = logged c (with_driver t w)
        | Err_ _ => ∃ t, w' = with_driver t w end)); eauto|].
      intros [op|e] w' [t ->]; [apply returns_on_driver|apply returns_put]; eauto.
    + intros _ w' Hw. by apply returns_ret.
  - apply (returns_bind _ _ _ (λ _ w', ∃ t, w' = with_driver t (logged c w))).
    + eapply returns_bind; [apply (Op_close_returns _ _ _ (λ r w', match r with Ok_ _ => ∃ t, w' = logged c (with_driver t w)
        | Err_ _ => ∃ t, w' = with_driver t w end)); eauto|].
      intros [op|e] w' [t ->]; [apply returns_on_driver|apply returns_put]; eauto.
    + intros _ w' Hw. by apply returns_ret.
  - eapply returns_bind; [by apply (returns_ret _ _ (λ _ w', w' = w))|]. intros _ w' ->. apply returns_on_driver. eauto.
  - eapply returns_bind; [by apply (returns_ret _ _ (λ _ w', w' = w))|]. intros _ w' ->. apply returns_ret.
    exists (driver w). by destruct w.
Qed.

Lemma Rc_drop_returns c i w :
  cells w !! c = Some i →
  returns (Rc_drop c) w (λ _ w', ∃ t, w' =
    if bool_decide (strong i = 1) then
      with_driver t (if is_open (state i) then logged c (with_cells (delete c) w) else with_cells (delete c) w)
    else with_driver t (with_cells <[c := MkInner (fd i) (strong i - 1) (state i)]> w)).
Proof.
  intros Hc. unfold Rc_drop. apply returns_get_cell. intros i' Hi. rewrite Hc in Hi. injection Hi as <-.
  case_bool_decide.
  - apply returns_seq. apply (returns_mono _ _ _ _ (Inner_drop_returns c i _)). intros _ w' [t ->]. by exists t.
  - apply returns_put. exists (driver w). by destruct w.
Qed.

(** ** Invariant *)

Definition refs (hs : gmap nat holder) c : nat := size (filter (λ p : nat * holder, holder_cell p.2 = c) hs).
Definition times c (l : list nat) : nat := length (filter (λ x, x = c) l).

Lemma refs_insert hs k h c : hs !! k = None →
  refs (<[k := h]> hs) c = ((if bool_decide (holder_cell h = c) then 1 else 0) + refs hs c)%nat.
Proof.
  intros Hk. unfold refs. case_bool_decide as Hc.
  - rewrite map_filter_insert_True by done. rewrite map_size_insert_None; [lia|].
    apply map_lookup_filter_None. by left.
  - rewrite map_filter_insert_False by done. rewrite delete_id by done. lia.
Qed.
Lemma refs_delete hs k h c : hs !! k = Some h →
  refs hs c = ((if bool_decide (holder_cell h = c) then 1 else 0) + refs (delete k hs) c)%nat.
Proof.
  intros Hk. rewrite <- (refs_insert (delete k hs) k h) by apply lookup_delete_eq. by rewrite insert_delete_id.
Qed.
Lemma refs_replace hs k h h' c : hs !! k = Some h → holder_cell h' = holder_cell h → refs (<[k := h']> hs) c = refs hs c.
Proof.
  intros Hk Hh. rewrite <- (insert_delete_eq hs k h'), (refs_insert (delete k hs)) by apply lookup_delete_eq.
  by rewrite Hh, <- refs_delete.
Qed.
Lemma refs_one hs k1 k2 h1 h2 c : hs !! k1 = Some h1 → hs !! k2 = Some h2 →
  holder_cell h1 = c → holder_cell h2 = c → refs hs c = 1%nat → k1 = k2.
Proof.
  intros H1 H2 Hc1 Hc2 Hr. destruct (decide (k1 = k2)) as [|Hne]; [done|]. exfalso.
  rewrite (refs_delete _ k1 h1), bool_decide_eq_true_2 in Hr by done.
  rewrite (refs_delete _ k2 h2), bool_decide_eq_true_2 in Hr by (done || by rewrite lookup_delete_ne). lia.
Qed.
Lemma times_app c l c' : times c (l ++ [c']) = (times c l + if bool_decide (c' = c) then 1 else 0)%nat.
Proof.
  unfold times. rewrite filter_app, length_app. f_equal. cbn. unfold decide. by repeat case_match; case_bool_decide.
Qed.

(** What is known about a cell, by its state. *)
Definition cell_ok (hs : gmap nat holder) (closes refusals : list nat) c i : Prop :=
  strong i = Z.of_nat (refs hs c) ∧ 0 < strong i ∧ times c refusals = 0%nat ∧
  if is_open (state i) then times c closes = 0%nat
  else times c closes = 1%nat ∧ strong i = 1 ∧ ∃ k, hs !! k = Some (Awaiting c).

Record Inv w : Prop := {
  inv_cell : ∀ c i, cells w !! c = Some i →
    (c < next_cell w)%nat ∧ cell_ok (holders w) (closes w) (refusals w) c i;
  inv_holder : ∀ k h, holders w !! k = Some h → (k < next_holder w)%nat ∧ is_Some (cells w !! holder_cell h);
  inv_fresh : ∀ c, (next_cell w ≤ c)%nat → times c (closes w) = 0%nat ∧ times c (refusals w) = 0%nat;
  inv_gone : ∀ c, (c < next_cell w)%nat → cells w !! c = None →
    times c (closes w) = S (times c (refusals w)) ∧ (times c (refusals w) ≤ 1)%nat;
}.

Lemma fds_init_inv t : Inv (fds_init t).
Proof. split; cbn; [done|done|done|]. intros c Hc. lia. Qed.
Lemma inv_with_driver t w : Inv w → Inv (with_driver t w).
Proof. by intros [????]. Qed.

(** One cell changes, and who holds it. *)
Lemma inv_update w c i i' hs nh t cl :
  Inv w → cells w !! c = Some i → cell_ok hs cl (refusals w) c i' →
  (∀ k h, hs !! k = Some h → (k < nh)%nat ∧ (holder_cell h = c ∨ holders w !! k = Some h)) →
  (∀ c', c' ≠ c → refs hs c' = refs (holders w) c' ∧ times c' cl = times c' (closes w) ∧
    ∀ k, holders w !! k = Some (Awaiting c') → hs !! k = Some (Awaiting c')) →
  Inv (MkFds (<[c := i']> (cells w)) (next_cell w) hs nh t cl (refusals w)).
Proof.
  intros [Hcell Hholder Hfresh Hgone] Hc Hok Hhs Hother.
  assert (∀ c', cells w !! c' = None → c' ≠ c) as Hne by (intros c' Hc' ->; congruence).
  split; cbn [cells next_cell holders next_holder closes refusals].
  - intros c' j [[<- <-]|[Hc' Hj]]%lookup_insert_Some; [split; [by apply (Hcell _ _ Hc)|done]|].
    destruct (Hcell _ _ Hj) as [Hlt (Hs & Hp & Hr & Ho)]. destruct (Hother c' (not_eq_sym Hc')) as (Hrefs & Ht & Hk).
    split; [done|]. split; [congruence|]. split; [done|]. split; [done|]. rewrite Ht.
    destruct (is_open (state j)); [done|]. destruct Ho as (? & ? & k & ?). eauto.
  - intros k h Hk. destruct (Hhs k h Hk) as [Hlt [->|Hold]]; (split; [done|]).
    + by rewrite lookup_insert_eq.
    + apply lookup_insert_is_Some'. right. by apply (Hholder k h).
  - intros c' Hc'. destruct (Hcell _ _ Hc) as [Hlt _]. destruct (Hother c' ltac:(lia)) as (_ & -> & _). by apply Hfresh.
  - intros c' Hlt [Hnone _]%lookup_insert_None. destruct (Hother c' (Hne _ Hnone)) as (_ & -> & _). by apply Hgone.
Qed.

(** The last holder of a cell goes. *)
Lemma inv_release w c i k h t cl rf :
  Inv w → cells w !! c = Some i → holders w !! k = Some h → holder_cell h = c → strong i = 1 →
  times c cl = S (times c rf) → (times c rf ≤ 1)%nat →
  (∀ c', c' ≠ c → times c' cl = times c' (closes w) ∧ times c' rf = times c' (refusals w)) →
  Inv (MkFds (delete c (cells w)) (next_cell w) (delete k (holders w)) (next_holder w) t cl rf).
Proof.
  intros [Hcell Hholder Hfresh Hgone] Hc Hk Hh Hs1 Hcl Hrf Hother.
  destruct (Hcell _ _ Hc) as [Hlt (Hs & _)].
  split; cbn [cells next_cell holders next_holder closes refusals].
  - intros c' j [Hne Hj]%lookup_delete_Some. destruct (Hcell _ _ Hj) as [Hlt' (Hs' & Hp & Hr & Ho)].
    destruct (Hother c' (not_eq_sym Hne)) as [Ht Hrt]. split; [done|].
    unfold cell_ok. rewrite Ht, Hrt, Hs', (refs_delete _ k h), bool_decide_eq_false_2 by (congruence || done).
    split; [done|]. split; [rewrite Hs' in Hp; by rewrite (refs_delete _ k h), bool_decide_eq_false_2 in Hp by (congruence || done)|].
    split; [done|]. destruct (is_open (state j)); [done|]. destruct Ho as (? & ? & k' & Hk').
    split; [done|]. split; [rewrite Hs' in *; by rewrite (refs_delete _ k h), bool_decide_eq_false_2 in * by (congruence || done)|].
    exists k'. rewrite lookup_delete_ne; [done|]. intros <-. rewrite Hk in Hk'. injection Hk' as ->. by cbn in Hh.
  - intros k' h' [Hne Hk']%lookup_delete_Some. destruct (Hholder _ _ Hk') as [? Hsome]. split; [done|].
    rewrite lookup_delete_ne; [done|]. intros Heq. apply Hne.
    apply (refs_one (holders w) k k' h h' c); [done..|]. lia.
  - intros c' Hc'. destruct (Hother c' ltac:(lia)) as [-> ->]. by apply Hfresh.
  - intros c' Hlt' [->|Hnone]%lookup_delete_None; [done|].
    destruct (decide (c' = c)) as [->|Hne]; [done|]. destruct (Hother c' Hne) as [-> ->]. by apply Hgone.
Qed.

(** The futures of [close] at their [await] whose descriptor is open stay so. *)
Definition kept (but : option nat) w w' : Prop := ∀ k c,
  but ≠ Some k → holders w !! k = Some (Awaiting c) → times c (closes w) = 0%nat →
  holders w' !! k = Some (Awaiting c) ∧ times c (closes w') = 0%nat.

(** Dropping a holder. *)
Lemma drop_inv w k h :
  Inv w → holders w !! k = Some h →
  returns (Rc_drop (holder_cell h)) (with_holders (delete k) w) (λ _ w', Inv w' ∧ kept (Some k) w w').
Proof.
  intros HI Hk. destruct (inv_holder w HI _ _ Hk) as [Hlt [i Hi]]. set (c := holder_cell h) in *.
  destruct (inv_cell w HI _ _ Hi) as [Hc (Hs & Hp & Hr & Ho)].
  apply (returns_mono _ _ _ _ (Rc_drop_returns c i (with_holders (delete k) w) Hi)). intros _ w' [t ->].
  assert (∀ k', Some k ≠ Some k' → holders w !! k' = Some (Awaiting c) → strong i ≠ 1) as Hother.
  { intros k' Hne Hk' H1. apply Hne. f_equal. apply (refs_one (holders w) k k' h (Awaiting c) c); [done..|lia]. }
  split; [|intros k' c' Hne Hk' Ht].
  2: { assert (delete k (holders w) !! k' = Some (Awaiting c')) by (rewrite lookup_delete_ne by congruence; done).
    case_bool_decide; [|done]. destruct (is_open (state i)); [|done]. split; [done|]. cbn [closes with_driver logged with_cells with_holders].
    rewrite times_app, Ht, bool_decide_eq_false_2; [done|]. intros <-. by apply (Hother k'). }
  case_bool_decide as H1.
  - destruct (is_open (state i)).
    + apply (inv_release w c i k h t (closes w ++ [c]) (refusals w)); [done..| | |].
      * rewrite times_app, bool_decide_eq_true_2 by done. lia.
      * lia.
      * intros c' Hne. by rewrite times_app, bool_decide_eq_false_2, Nat.add_0_r by congruence.
    + destruct Ho as (Ho & _). apply (inv_release w c i k h t (closes w) (refusals w)); [done..|lia|lia|done].
  - apply (inv_update w c i); [done..| | |]; cbn.
    + rewrite (refs_delete _ k h), bool_decide_eq_true_2 in Hs by done.
      split; [cbn; lia|]. split; [cbn; lia|]. split; [done|]. cbn [state].
      destruct (is_open (state i)); [done|]. by destruct Ho as (_ & ? & _).
    + intros k' h' [? Hk']%lookup_delete_Some. split; [|by right]. by apply (inv_holder w HI k' h').
    + intros c' Hne. split.
      { rewrite (refs_delete (holders w) k h), bool_decide_eq_false_2; [done|by intros <-|done]. }
      split; [done|]. intros k' Hk'. rewrite lookup_delete_ne; [done|]. intros <-.
      rewrite Hk in Hk'. injection Hk' as ->. by apply Hne.
Qed.

Definition set_cell c i (s : UringState O W) w : fds := with_cells <[c := MkInner (fd i) (strong i) s]> w.

Lemma set_state_returns c i s w (Q : unit → fds → Prop) :
  cells w !! c = Some i → Q tt (set_cell c i s w) → returns (set_state c s) w Q.
Proof.
  intros Hc HQ. unfold set_state. apply returns_get_cell. intros i' Hi. rewrite Hc in Hi. injection Hi as <-.
  by apply returns_put.
Qed.
Lemma closed_poll_returns c i cx w :
  cells w !! c = Some i →
  returns (Inner_closed_poll c cx) w (λ p w', ∃ t s, w' = with_driver t (set_cell c i s w) ∧
    is_open s = is_open (state i) ∧ (p = Ready tt → is_open (state i) = false)).
Proof.
  intros Hc. unfold Inner_closed_poll. apply returns_get_cell. intros i' Hi. rewrite Hc in Hi. injection Hi as <-.
  assert (∀ s, is_open s = true → is_open (state i) = true → returns (set_state c s;; mret Pending) w (λ p w',
    ∃ t s, w' = with_driver t (set_cell c i s w) ∧ is_open s = is_open (state i) ∧ (p = Ready tt → is_open (state i) = false))) as Hset.
  { intros s Hs Ho. apply (returns_bind _ _ _ (λ _ w', w' = set_cell c i s w)); [by apply (set_state_returns _ i)|].
    intros _ w' ->. apply returns_ret. exists (driver w), s. split; [by destruct w|]. by rewrite Hs, Ho. }
  assert (w = with_driver (driver w) (set_cell c i (state i) w)) as Hself.
  { unfold set_cell, with_cells, with_driver. destruct i. cbn. rewrite insert_id by done. by destruct w. }
  destruct (state i) as [|[wk|]|op|] eqn:Hs; [by apply Hset| |by apply Hset| |].
  - destruct (wk_will_wake wk cx); [|by apply Hset]. apply returns_ret. exists (driver w), (Waiting (Some wk)). by split.
  - apply returns_driver. intros [r op'] t.
    apply (returns_bind _ _ _ (λ _ w', w' = set_cell c i (Closing op') (with_driver t w))); [by apply (set_state_returns _ i)|].
    intros _ w' ->. destruct r.
    + eapply returns_bind; [apply (returns_on_driver _ _ (λ _ w', ∃ t', w' = with_driver t' (set_cell c i (Closing op') w))); eauto|].
      intros _ w' [t' ->].
      apply (returns_bind _ _ _ (λ _ w', w' = with_driver t' (set_cell c i Closed w))).
      { eapply set_state_returns; [apply lookup_insert_eq|]. unfold set_cell, with_cells, with_driver. cbn.
        by rewrite insert_insert_eq. }
      intros _ w' ->. apply returns_ret. by exists t', Closed.
    + apply returns_ret. by exists t, (Closing op').
  - apply returns_ret. by exists (driver w), Closed.
Qed.

(** A poll of [close] keeps the invariant. *)
Lemma resume_inv w k c cx :
  Inv w → holders w !! k = Some (Awaiting c) → returns (close_resume k c cx) w (λ _ w', Inv w' ∧ kept None w w').
Proof.
  intros HI Hk. destruct (inv_holder w HI _ _ Hk) as [Hlt [i Hi]]. cbn in Hi.
  destruct (inv_cell w HI _ _ Hi) as [Hc (Hs & Hp & Hr & Ho)].
  eapply returns_bind; [by apply closed_poll_returns|]. intros p w' (t & s & -> & Hopen & Hready).
  assert (Inv (with_driver t (set_cell c i s w))) as HI'.
  { apply inv_with_driver, (inv_update w c i); [done..| | |done].
    - split; [done|]. split; [done|]. split; [done|]. cbn. by rewrite Hopen.
    - intros k' h' Hk'. split; [|by right]. by apply (inv_holder w HI k' h'). }
  destruct p as [[]|]; [|by apply returns_ret].
  apply returns_seq. eapply returns_bind; [by apply (drop_inv _ k (Awaiting c))|]. intros [] w' [Hw' Hkept].
  apply returns_ret. split; [done|]. intros k' c' _ Hk' Ht. apply (Hkept k' c'); [|done..]. intros [= <-].
  rewrite Hk in Hk'. injection Hk' as <-. rewrite Hready in Ho by done. destruct Ho as [Ho _]. cbn in Ht. lia.
Qed.
Lemma resume_after w0 w k c cx :
  Inv w → holders w !! k = Some (Awaiting c) → kept None w0 w →
  returns (close_resume k c cx) w (λ _ w', Inv w' ∧ kept None w0 w').
Proof.
  intros HI Hk Hw. apply (returns_mono _ _ _ _ (resume_inv w k c cx HI Hk)). intros _ w' [? Hw'].
  split; [done|]. intros k' c' Hb H1 H2. destruct (Hw k' c' Hb H1 H2). by apply Hw'.
Qed.
Lemma start_inv w k c cx :
  Inv w → holders w !! k = Some (Unresumed c) → returns (close_start k c cx) w (λ _ w', Inv w' ∧ kept None w w').
Proof.
  intros HI Hk. destruct (inv_holder w HI _ _ Hk) as [Hlt [i Hi]]. cbn in Hi.
  destruct (inv_cell w HI _ _ Hi) as [Hc (Hs & Hp & Hr & Ho)].
  unfold close_start. apply returns_get_cell. intros i' Hi'. rewrite Hi in Hi'. injection Hi' as <-.
  assert (∀ k' h', (<[k := Awaiting c]> (holders w)) !! k' = Some h' →
    (k' < next_holder w)%nat ∧ (holder_cell h' = c ∨ holders w !! k' = Some h')) as Hhs.
  { intros k' h' [[<- <-]|[? Hk']]%lookup_insert_Some; [by split; [|left]|].
    split; [by apply (inv_holder w HI k' h')|by right]. }
  assert (∀ c' k', c' ≠ c → holders w !! k' = Some (Awaiting c') →
    (<[k := Awaiting c]> (holders w)) !! k' = Some (Awaiting c')) as Haw.
  { intros c' k' Hne Hk'. rewrite lookup_insert_ne; [done|]. intros <-. congruence. }
  case_bool_decide as H1.
  - assert (is_open (state i) = true) as Hopen.
    { destruct (is_open (state i)); [done|]. destruct Ho as (_ & _ & k' & Hk').
      assert (k = k') as <- by (apply (refs_one (holders w) k k' (Unresumed c) (Awaiting c) c); [done..|lia]).
      congruence. }
    rewrite Hopen in Ho.
    assert (∀ k' c', holders w !! k' = Some (Awaiting c') → k' ≠ k ∧ c' ≠ c) as Hother.
    { intros k' c' Hk'. split; [congruence|]. intros ->. 
      assert (k = k') as <- by (apply (refs_one (holders w) k k' (Unresumed c) (Awaiting c) c); [done..|lia]).
      congruence. }
    assert (∀ t op, kept None w (with_holders <[k := Awaiting c]> (set_cell c i (Closing op) (logged c (with_driver t w))))) as Hkept.
    { intros t op k' c' _ Hk' Ht. destruct (Hother _ _ Hk'). cbn [holders closes with_holders set_cell with_cells logged with_driver].
      rewrite lookup_insert_ne, times_app, bool_decide_eq_false_2, Ht by congruence. done. }
    eapply returns_bind; [apply (Op_close_returns _ _ _ (λ r w', match r with
      | Ok_ op => ∃ t, w' = logged c (with_driver t w) | Err_ _ => ∃ t, w' = with_driver t w end)); eauto|].
    intros [op|e] w' [t ->].
    + apply (returns_bind _ _ _ (λ _ w', w' = set_cell c i (Closing op) (logged c (with_driver t w))));
        [by apply (set_state_returns _ i)|]. intros _ w' ->.
      apply (returns_bind _ _ _ (λ _ w', w' = set_cell c i (Closing op) (logged c (with_driver t w)))).
      { destruct (state i); [..|done|]; by apply returns_ret. }
      intros _ w' ->. apply returns_seq, resume_after; [|apply lookup_insert_eq|]; [|by apply Hkept].
      apply (inv_update w c i); [done..| |done|].
      * unfold cell_ok. cbn [strong state is_open closes holders set_cell logged with_driver with_cells].
        rewrite (refs_replace _ _ (Unresumed c)) by done.
        split; [done|]. split; [done|]. split; [done|]. rewrite times_app, bool_decide_eq_true_2, Ho by done. split; [done|]. split; [done|].
        exists k. apply lookup_insert_eq.
      * intros c' Hne. rewrite (refs_replace _ _ (Unresumed c)) by done. split; [done|].
        cbn [closes set_cell logged with_driver with_cells]. rewrite times_app, bool_decide_eq_false_2, Nat.add_0_r by congruence. split; [done|]. intros k'. by apply Haw.
    + repeat apply returns_seq.
      eapply returns_bind; [by apply (Rc_drop_returns c i)|]. intros _ w' [t' ->].
      rewrite bool_decide_eq_true_2, Hopen by done. apply returns_ret. split.
      2: { intros k' c' _ Hk' Ht. destruct (Hother _ _ Hk'). cbn [holders closes with_holders with_cells logged with_driver].
        rewrite lookup_delete_ne, !times_app, bool_decide_eq_false_2, Ht by congruence. done. }
      apply (inv_release w c i k (Unresumed c) t' ((closes w ++ [c]) ++ [c]) (refusals w ++ [c])); [done..| | |].
      * rewrite !times_app, bool_decide_eq_true_2 by done. lia.
      * rewrite times_app, bool_decide_eq_true_2 by done. lia.
      * intros c' Hne. rewrite !times_app, bool_decide_eq_false_2 by congruence. lia.
  - apply returns_seq, resume_after; [|apply lookup_insert_eq|].
    2: { intros k' c' _ Hk' Ht. split; [|done]. cbn. rewrite lookup_insert_ne; [done|congruence]. }
    assert (with_holders <[k := Awaiting c]> w =
      MkFds (<[c := i]> (cells w)) (next_cell w) (<[k := Awaiting c]> (holders w)) (next_holder w) (driver w)
        (closes w) (refusals w)) as -> by (unfold with_holders; by rewrite (insert_id (cells w))).
    apply (inv_update w c i); [done..| |done|].
    + split; [by rewrite (refs_replace _ _ (Unresumed c))|]. split; [done|]. split; [done|].
      destruct (is_open (state i)); [done|]. by destruct Ho as (_ & ? & _).
    + intros c' Hne. rewrite (refs_replace _ _ (Unresumed c)) by done. split; [done|]. split; [done|]. intros k'. by apply Haw.
Qed.

Lemma new_inv w z : Inv w → returns (SharedFd_new z) w (λ _ w', Inv w' ∧ kept None w w').
Proof.
  intros HI k w' [= <- <-].
  assert (holders w !! next_holder w = None) as Hfree.
  { apply eq_None_not_Some. intros [h Hh]. apply (inv_holder w HI) in Hh. lia. }
  assert (∀ c, refs (<[next_holder w := Value (next_cell w)]> (holders w)) c =
    (if bool_decide (next_cell w = c) then 1 else 0) + refs (holders w) c)%nat as Hrefs by (intros c; by rewrite refs_insert).
  assert (refs (holders w) (next_cell w) = 0%nat) as Hnone.
  { unfold refs. apply map_size_empty_iff, map_empty. intros k. apply map_lookup_filter_None. right.
    intros h Hh Hc. destruct (inv_holder w HI k h Hh) as [_ [i Hi]]. apply (inv_cell w HI) in Hi. cbn in Hc. lia. }
  destruct (inv_fresh w HI (next_cell w) ltac:(lia)) as [Ht Htr].
  assert (∀ k c, holders w !! k = Some (Awaiting c) →
    <[next_holder w := Value (next_cell w)]> (holders w) !! k = Some (Awaiting c)) as Haw.
  { intros k c Hk. rewrite lookup_insert_ne; [done|]. intros <-. congruence. }
  split; [|intros k c _ Hk ?; by split; [apply Haw|]].
  split; cbn [cells next_cell holders next_holder closes refusals].
  - intros c i [[<- <-]|[Hne Hi]]%lookup_insert_Some.
    + split; [lia|]. unfold cell_ok. rewrite Hrefs, bool_decide_eq_true_2, Hnone by done. by repeat split.
    + destruct (inv_cell w HI _ _ Hi) as [? (Hs & Hp & Hr & Ho)]. split; [lia|]. unfold cell_ok.
      rewrite Hrefs, bool_decide_eq_false_2 by done. split; [done|]. split; [done|]. split; [done|].
      destruct (is_open (state i)); [done|]. destruct Ho as (? & ? & k & Hk). eauto 6.
  - intros k h [[<- <-]|[Hne Hk]]%lookup_insert_Some.
    + split; [lia|]. cbn. by rewrite lookup_insert_eq.
    + destruct (inv_holder w HI _ _ Hk). split; [lia|]. apply lookup_insert_is_Some'. by right.
  - intros c Hc. apply (inv_fresh w HI). lia.
  - intros c Hc [Hne Hnone']%lookup_insert_None. apply (inv_gone w HI); [lia|done].
Qed.

Lemma clone_inv w k c : Inv w → holders w !! k = Some (Value c) →
  returns (SharedFd_clone c) w (λ _ w', Inv w' ∧ kept None w w').
Proof.
  intros HI Hk. unfold SharedFd_clone. apply returns_get_cell. intros i Hi. apply returns_seq. intros k' w' [= <- <-].
  destruct (inv_cell w HI _ _ Hi) as [Hc (Hs & Hp & Hr & Ho)].
  assert (holders w !! next_holder w = None) as Hfree.
  { apply eq_None_not_Some. intros [h Hh]. apply (inv_holder w HI) in Hh. lia. }
  assert (∀ k c', holders w !! k = Some (Awaiting c') →
    <[next_holder w := Value c]> (holders w) !! k = Some (Awaiting c')) as Haw.
  { intros k1 c' Hk1. rewrite lookup_insert_ne; [done|]. intros <-. congruence. }
  split; [|intros k1 c' _ Hk1 ?; by split; [apply Haw|]].
  apply (inv_update w c i); [done..| | |].
  - unfold cell_ok. cbn [strong state]. rewrite refs_insert, bool_decide_eq_true_2 by done.
    split; [lia|]. split; [lia|]. split; [done|]. destruct (is_open (state i)); [done|].
    destruct Ho as (_ & Ho & k1 & Hk1). exfalso.
    assert (k = k1) as <- by (apply (refs_one (holders w) k k1 (Value c) (Awaiting c) c); [done..|lia]). congruence.
  - intros k1 h1 [[<- <-]|[? Hk1]]%lookup_insert_Some; [split; [cbn; lia|by left]|].
    destruct (inv_holder w HI _ _ Hk1). split; [cbn; lia|by right].
  - intros c' Hne. cbn. rewrite refs_insert, bool_decide_eq_false_2 by (done || cbn; congruence).
    split; [done|]. split; [done|]. intros k1. apply Haw.
Qed.

Lemma fd_do_inv w e : Inv w →
  returns (fd_do e) w (λ _ w', Inv w' ∧ kept (match e with EvDrop k => Some k | _ => None end) w w').
Proof.
  intros HI. assert (∀ b, kept b w w) as Hself by by intros b k c.
  assert (∀ A (m : m_of A) b, returns m w (λ _ w', Inv w' ∧ kept b w w') →
    returns (m;; mret tt) w (λ _ w', Inv w' ∧ kept b w w')) as Hthen.
  { intros A m b Hm. eapply returns_bind; [exact Hm|]. intros a w' Hw'. by apply returns_ret. }
  destruct e as [z|z|k|k|k|k cx|f]; cbn [fd_do]; [| |apply returns_read..|].
  - by apply Hthen, new_inv.
  - apply Hthen. unfold SharedFd_new_without_register. apply returns_read.
    destruct (drv_is_set (driver w)); [by apply new_inv|by intros ? ? [=]].
  - destruct (holders w !! k) as [[c|c|c]|] eqn:Hk; [by eapply Hthen, clone_inv|by apply returns_ret..].
  - destruct (holders w !! k) as [h|] eqn:Hk; [|by apply returns_ret]. by apply returns_seq, drop_inv.
  - destruct (holders w !! k) as [[c|c|c]|] eqn:Hk; [|by apply returns_ret..]. apply returns_put.
    assert (∀ k' c', holders w !! k' = Some (Awaiting c') → <[k := Unresumed c]> (holders w) !! k' = Some (Awaiting c')) as Haw.
    { intros k' c' Hk'. rewrite lookup_insert_ne; [done|]. intros <-. congruence. }
    split; [|intros k' c' _ Hk' ?; by split; [apply Haw|]].
    destruct (inv_holder w HI _ _ Hk) as [? [i Hi]]. cbn in Hi. destruct (inv_cell w HI _ _ Hi) as [Hc (Hs & Hp & Hr & Ho)].
    assert (with_holders <[k := Unresumed c]> w =
      MkFds (<[c := i]> (cells w)) (next_cell w) (<[k := Unresumed c]> (holders w)) (next_holder w) (driver w)
        (closes w) (refusals w)) as -> by (unfold with_holders; by rewrite (insert_id (cells w))).
    apply (inv_update w c i); [done..| | |].
    + unfold cell_ok. rewrite (refs_replace _ _ (Value c)) by done. split; [done|]. split; [done|]. split; [done|].
      destruct (is_open (state i)); [done|]. destruct Ho as (? & ? & k' & ?). eauto.
    + intros k' h' [[<- <-]|[? Hk']]%lookup_insert_Some; [by split; [|left]|]. split; [|by right]. by apply (inv_holder w HI k' h').
    + intros c' Hne. rewrite (refs_replace _ _ (Value c)) by done. split; [done|]. split; [done|]. intros k'. apply Haw.
  - destruct (holders w !! k) as [[c|c|c]|] eqn:Hk; [by apply returns_ret| | |by apply returns_ret].
    + by apply Hthen, start_inv.
    + by apply Hthen, resume_inv.
  - apply returns_put. split; [by apply inv_with_driver|]. by intros k c.
Qed.
End facts.

(** ** The driver of [Driver.v] behind the interface *)

(** [CURRENT] and the driver it points to; [close_data] is [Close { fd }] among
    the data of the operations. *)
Definition Driver_ops `{B : Build} {W D S R U : Type} (will_wake : W → W → bool) (close_data : Z → D) (fuel : nat)
    `{!Store S R (Lifecycle (W:=W) (D:=D))} `{!Uring U} :
    OpDriver (bool * UringInner (W:=W) (S:=S) (U:=U)) (Op (D:=D)) W := {|
  drv_is_set t := t.1;
  drv_submit_with fd t :=
    '(r, inner) ← UringInner_submit_with_data fuel t.2 (close_data fd);
    Ret (match r with Some (inr op) => Some (Ok_ op) | Some (inl e) => Some (Err_ e) | None => None end, (t.1, inner));
  drv_poll op cx t :=
    '(p, inner, op) ← Op_poll will_wake t.2 op cx;
    Ret ((match p with Ready _ => true | Pending => false end, op), (t.1, inner));
  drv_drop op t := inner ← Op_drop t.2 op; Ret (tt, (t.1, inner));
  wk_will_wake := will_wake;
|}.

(** ** Properties *)

Section properties.
Context {T O W : Type} `{DR : !OpDriver T O W}.
Implicit Types (w : Fds T O W) (es : list (fd_event T W)).

Lemma fd_run_inv es : ∀ w, Inv w →
  returns (fd_run es) w (λ _ w', Inv w' ∧ ∀ k, Forall (λ e, e ≠ EvDrop k) es → ∀ c,
    holders w !! k = Some (Awaiting c) → times c (closes w) = 0%nat →
    holders w' !! k = Some (Awaiting c) ∧ times c (closes w') = 0%nat).
Proof.
  induction es as [|e es IH]; intros w HI; cbn [fd_run]; [by apply returns_ret|].
  eapply returns_bind; [by apply fd_do_inv|]. intros u w1 [HI1 Hk1].
  apply (returns_mono _ _ _ _ (IH w1 HI1)). intros _ w2 [HI2 Hk2]. split; [done|].
  intros k [He Hes]%Forall_cons c Hk Ht.
  destruct (Hk1 k c) as [Ha Hb]; [|done..|by apply Hk2]. destruct e; congruence.
Qed.
Lemma fd_run_init es t w : fd_run es (fds_init t) = Ret (Some tt, w) → Inv w.
Proof. intros Hr. by apply (fd_run_inv es _ (fds_init_inv t) tt w Hr). Qed.

(** C35: Whatever the owners of a descriptor do, in any order, and whatever the
    driver does in between: it is given to the kernel to be closed once, twice if
    the submission of a [close] was refused; not while anyone but that [close]
    holds it; and it has been when nobody holds it any more. *)
Theorem fd_closed_once es t w c :
  fd_run es (fds_init t) = Ret (Some tt, w) → (c < next_cell w)%nat →
  (times c (closes w) ≤ S (times c (refusals w)))%nat ∧
  ((0 < times c (closes w))%nat → ∀ k h, holders w !! k = Some h → holder_cell h = c → h = Awaiting c) ∧
  ((∀ k h, holders w !! k = Some h → holder_cell h ≠ c) → times c (closes w) = S (times c (refusals w))).
Proof.
  intros HI%fd_run_init Hc. destruct (cells w !! c) as [i|] eqn:Hi.
  - destruct (inv_cell w HI _ _ Hi) as [_ (Hs & Hp & Hr & Ho)].
    split; [destruct (is_open (state i)); lia|]. split.
    + intros Ht k h Hk Hh. destruct (is_open (state i)); [lia|]. destruct Ho as (_ & H1 & k' & Hk').
      assert (k = k') as -> by (apply (refs_one (holders w) k k' h (Awaiting c) c); [done..|lia]). congruence.
    + intros Hnone. exfalso. assert (refs (holders w) c = 0%nat); [|lia].
      apply map_size_empty_iff, map_empty. intros k. apply map_lookup_filter_None. right.
      intros h Hk. by apply (Hnone k h).
  - destruct (inv_gone w HI c Hc Hi) as [-> ?]. split; [lia|]. split; [|done].
    intros _ k h Hk Hh. destruct (inv_holder w HI k h Hk) as [_ [j Hj]]. congruence.
Qed.

(** [close] on a descriptor that somebody else holds too when it is first
    polled never returns, though the others let go of it: its future waits, the
    descriptor stays open, until the future itself is dropped. *)
Theorem fd_close_hangs es t w k c i cx w1 es' w2 :
  fd_run es (fds_init t) = Ret (Some tt, w) →
  holders w !! k = Some (Unresumed c) → cells w !! c = Some i → 1 < strong i →
  fd_do (EvPoll k cx) w = Ret (Some tt, w1) →
  Forall (λ e, e ≠ EvDrop k) es' → fd_run es' w1 = Ret (Some tt, w2) →
  holders w2 !! k = Some (Awaiting c) ∧ times c (closes w2) = 0%nat ∧ is_Some (cells w2 !! c).
Proof.
  intros HI%fd_run_init Hk Hi Hs Hd Hes Hr.
  destruct (inv_cell w HI _ _ Hi) as [Hc (Hrefs & Hp & Hrf & Ho)].
  assert (is_open (state i) = true) as Hopen by (destruct (is_open (state i)); [done|]; lia).
  rewrite Hopen in Ho.
  assert (holders w1 !! k = Some (Awaiting c) ∧ times c (closes w1) = 0%nat) as [Hk1 Ht1].
  { enough (returns (fd_do (EvPoll k cx)) w (λ _ w', holders w' !! k = Some (Awaiting c) ∧ times c (closes w') = 0%nat)) as H
      by exact (H tt w1 Hd).
    cbn [fd_do]. apply returns_read. rewrite Hk.
    eapply returns_bind; [|intros a w' Hw'; apply returns_ret; exact Hw'].
    unfold close_start. apply returns_get_cell. intros i' Hi'. rewrite Hi in Hi'. injection Hi' as <-.
    rewrite bool_decide_eq_false_2 by lia. apply returns_seq.
    eapply returns_bind; [by apply (closed_poll_returns c i)|]. intros p w' (t' & s & -> & _ & Hready).
    destruct p as [[]|]; [by rewrite Hready in Hopen|]. apply returns_ret. split; [apply lookup_insert_eq|done]. }
  destruct (fd_do_inv w (EvPoll k cx) HI tt w1 Hd) as [HI1 _].
  destruct (fd_run_inv es' w1 HI1 tt w2 Hr) as [HI2 Hkept]. destruct (Hkept k Hes c Hk1 Ht1) as [Hk2 Ht2].
  split; [done|]. split; [done|]. by apply (inv_holder w2 HI2 k (Awaiting c)).
Qed.

(** A [close] that cannot be submitted, as outside of the runtime, closes the
    descriptor itself and then drops the last reference, which closes it again. *)
Theorem fd_close_refused_closes_twice es t w k c i cx :
  fd_run es (fds_init t) = Ret (Some tt, w) →
  holders w !! k = Some (Unresumed c) → cells w !! c = Some i → strong i = 1 → drv_is_set (driver w) = false →
  ∃ w', fd_do (EvPoll k cx) w = Ret (Some tt, w') ∧ times c (closes w') = 2%nat ∧ cells w' !! c = None.
Proof.
  intros HI%fd_run_init Hk Hi Hs Hset. destruct (inv_cell w HI _ _ Hi) as [Hc (Hrefs & Hp & Hrf & Ho)].
  assert (is_open (state i) = true) as Hopen.
  { destruct (is_open (state i)); [done|]. destruct Ho as (_ & _ & k' & Hk').
    assert (k = k') as <- by (apply (refs_one (holders w) k k' (Unresumed c) (Awaiting c) c); [done..|lia]). congruence. }
  rewrite Hopen in Ho.
  set (w1 := MkFds (cells w) (next_cell w) (delete k (holders w)) (next_holder w) (driver w) (closes w ++ [c]) (refusals w ++ [c])).
  exists (logged c (with_cells (delete c) w1)). split.
  - cbn [fd_do]. rewrite (M_bind_eq _ _ _ (Some (Unresumed c)) w) by (unfold read_state; by rewrite Hk).
    refine (M_bind_eq (close_start k c cx) (λ _, mret tt) w (Ready tt) (logged c (with_cells (delete c) w1)) _). unfold close_start.
    rewrite (M_bind_eq _ _ _ i w) by (unfold get_cell; by rewrite Hi). rewrite bool_decide_eq_true_2 by done.
    rewrite (M_bind_eq _ _ _ _ w) by by apply Op_close_unset. cbn -[Rc_drop].
    refine (M_bind_eq (Rc_drop c) (λ _, mret (Ready tt)) w1 tt (logged c (with_cells (delete c) w1)) _). unfold Rc_drop.
    rewrite (M_bind_eq _ _ _ i w1) by (unfold get_cell; cbn [cells w1]; by rewrite Hi). rewrite bool_decide_eq_true_2 by done.
    apply Inner_drop_unset; [done|exact Hset].
  - split; [|apply lookup_delete_eq]. cbn [closes logged with_cells w1].
    rewrite !times_app, Ho, bool_decide_eq_true_2; done.
Qed.
End properties.

(** ** Witnesses: the driver of [Driver.v] with its slab and a simulated ring *)

Section witnesses.
#[local] Existing Instance Slab.slab_store.
#[local] Existing Instance SimRing.sim_uring.
#[local] Instance demo_build : Build := true.
#[local] Abbreviation demo_ops := (Slab.Slab (Lifecycle (W:=nat) (D:=Z))).
#[local] Instance demo_driver : OpDriver (bool * UringInner (W:=nat) (S:=demo_ops) (U:=SimRing.ring)) (Op (D:=Z)) nat :=
  Driver_ops (R:=Slab.Ref) Nat.eqb id 10.
#[local] Abbreviation demo_fds := (Fds (bool * UringInner (W:=nat) (S:=demo_ops) (U:=SimRing.ring)) (Op (D:=Z)) nat).
#[local] Abbreviation demo_t := (bool * UringInner (W:=nat) (S:=demo_ops) (U:=SimRing.ring))%type.

Definition demo_init_t : demo_t := (true, mkInner st_new uring_new []).
Definition demo_fd_run (es : list (fd_event demo_t nat)) (w : demo_fds) : demo_fds :=
  match fd_run es w with Ret (Some _, w) => w | _ => w end.
Definition demo_park (t : demo_t) : demo_t :=
  match IoUringDriver_inner_park (W:=nat) (D:=Z) (S:=demo_ops) (R:=Slab.Ref) 62 10 t.2 false with
  | Ret (_, inner) => (t.1, inner) | _ => t end.

(** Two descriptors: one is closed by [close], which waits for the kernel; the
    other is shared with a read and dropped by both. *)
Definition demo_closing : list (fd_event demo_t nat) :=
  [EvNewWithoutRegister 3; EvNewWithoutRegister 4; EvClone 1; EvClose 0; EvPoll 0 7%nat; EvDriver demo_park; EvDriver demo_park;
   EvPoll 0 7%nat; EvDrop 1; EvDrop 2].
Lemma fd_closed_once_witness :
  times 0 (closes (demo_fd_run demo_closing (fds_init demo_init_t))) = 1%nat ∧
  times 1 (closes (demo_fd_run demo_closing (fds_init demo_init_t))) = 1%nat.
Proof.
  assert (fd_run demo_closing (fds_init demo_init_t) = Ret (Some tt, demo_fd_run demo_closing (fds_init demo_init_t))) as Hr
    by (vm_compute; reflexivity).
  assert (holders (demo_fd_run demo_closing (fds_init demo_init_t)) = ∅) as Hh by (vm_compute; reflexivity).
  split.
  - destruct (fd_closed_once _ _ _ 0 Hr) as (_ & _ & H); [vm_compute; lia|]. rewrite H; [by vm_compute|].
    intros k h. rewrite Hh. done.
  - destruct (fd_closed_once _ _ _ 1 Hr) as (_ & _ & H); [vm_compute; lia|]. rewrite H; [by vm_compute|].
    intros k h. rewrite Hh. done.
Defined.

(** A read in flight holds the descriptor; it ends after [close] was polled. *)
Definition demo_shared : list (fd_event demo_t nat) := [EvNewWithoutRegister 3; EvClone 0; EvClose 0].
Lemma fd_close_hangs_witness :
  holders (demo_fd_run [EvDrop 1; EvPoll 0 7%nat; EvDriver demo_park; EvPoll 0 7%nat]
    (demo_fd_run [EvPoll 0 7%nat] (demo_fd_run demo_shared (fds_init demo_init_t)))) !! 0%nat = Some (Awaiting 0).
Proof.
  apply (fd_close_hangs demo_shared demo_init_t (demo_fd_run demo_shared (fds_init demo_init_t)) 0 0
    (MkInner 3 2 Init) 7%nat (demo_fd_run [EvPoll 0 7%nat] (demo_fd_run demo_shared (fds_init demo_init_t)))
    [EvDrop 1; EvPoll 0 7%nat; EvDriver demo_park; EvPoll 0 7%nat]); [vm_compute; reflexivity..| |vm_compute; reflexivity].
  repeat constructor; discriminate.
Defined.

Definition demo_outside (t : demo_t) : demo_t := (false, t.2).
Definition demo_last : list (fd_event demo_t nat) := [EvNew 3; EvClose 0; EvDriver demo_outside].
Lemma fd_close_refused_closes_twice_witness :
  ∃ w', fd_do (EvPoll 0 7%nat) (demo_fd_run demo_last (fds_init demo_init_t)) = Ret (Some tt, w') ∧ times 0 (closes w') = 2%nat.
Proof.
  destruct (fd_close_refused_closes_twice demo_last demo_init_t (demo_fd_run demo_last (fds_init demo_init_t)) 0 0
    (MkInner 3 1 Init) 7%nat) as (w' & Hw & Ht & _); [vm_compute; reflexivity..|]. by exists w'.
Defined.
End witnesses.
