(* ===== verification/Buffers.v ===== *)
(** * Buffers: the buffers of io operations, [runtime/src/buf]

    The traits [IoBuf] and [IoBufMut] ([io_buf.rs]) as classes with the contract
    their safety comments state, their implementations for vectors, boxed and
    static slices, the owned views of [slice.rs] over any buffer, the raw buffers
    of [raw_buf.rs] and the vectored ones of [io_vec_buf.rs]; and the operations
    that hand them to the kernel ([driver/op/read.rs], [driver/op/write.rs]).

    A pointer is a block of the heap and an offset; a cell of a block that was
    never written holds no byte. What the kernel does with a pointer is [store]
    and [load], undefined outside of the block or on cells without a byte. *)

From stdpp Require Import gmap list.
From S2P Require Import Prelude.
From S2P Require Import Driver.

Local Open Scope Z_scope.

(** ** Memory *)

Record Ptr : Type := MkPtr { block : nat; off : Z }.
Definition ptr_add (p : Ptr) (n : Z) : Ptr := MkPtr (block p) (off p + n).
Record Heap : Type := MkHeap { blocks : gmap nat (list (option Z)); next_block : nat }.

Definition cell (h : Heap) (p : Ptr) (j : Z) : option (option Z) :=
  l ← blocks h !! block p;
  if bool_decide (0 ≤ off p + j) then l !! Z.to_nat (off p + j) else None.
(** [n] cells from [p] on are inside of one block. *)
Definition valid (h : Heap) (p : Ptr) (n : Z) : bool :=
  match blocks h !! block p with
  | Some l => bool_decide (0 ≤ off p ∧ 0 ≤ n ∧ off p + n ≤ Z.of_nat (length l))
  | None => false
  end.
Definition window (h : Heap) (p : Ptr) (n : Z) : list (option Z) :=
  take (Z.to_nat n) (drop (Z.to_nat (off p)) (default [] (blocks h !! block p))).
Definition load (h : Heap) (p : Ptr) (n : Z) : outcome (list Z) :=
  if valid h p n then unwrap_unchecked (mapM id (window h p n)) else UB.
Definition store (p : Ptr) (bs : list Z) (h : Heap) : outcome Heap :=
  if valid h p (Z.of_nat (length bs)) then
    Ret (MkHeap (alter (list_inserts (Z.to_nat (off p)) (Some <$> bs)) (block p) (blocks h)) (next_block h))
  else UB.
Definition alloc (l : list (option Z)) (h : Heap) : nat * Heap :=
  (next_block h, MkHeap (<[next_block h := l]> (blocks h)) (S (next_block h))).
Definition free (b : nat) (h : Heap) : outcome Heap :=
  match blocks h !! b with
  | Some _ => Ret (MkHeap (delete b (blocks h)) (next_block h))
  | None => UB
  end.

(** ** The traits *)

Class IoBuf (T : Type) := {
  read_ptr : T → outcome Ptr;
  bytes_init : T → outcome Z;
}.
Class IoBufMut (T : Type) := {
  write_ptr : T → outcome Ptr;
  bytes_total : T → outcome Z;
  set_init : Z → T → outcome T;
}.

(** [buf::deref]: the slice [from_raw_parts] makes, as its pointer and length. *)
Definition deref {T} `{!IoBuf T} (buf : T) : outcome (Ptr * Z) :=
  p ← read_ptr buf; n ← bytes_init buf; Ret (p, n).

(** Bounds of a range. *)
Inductive Bound : Type := Included (n : Z) | Excluded (n : Z) | Unbounded.

Definition parse_range `{B : Build} (start_bound end_bound : Bound) (end_ : Z) : outcome (Z * Z) :=
  begin ← match start_bound with
          | Included n => Ret n
          | Excluded n => uadd 64 n 1
          | Unbounded => Ret 0
          end;
  end_ ← match end_bound with
         | Included n => if bool_decide (n + 1 < 2 ^ 64) then Ret (n + 1) else Panic
         | Excluded n => Ret n
         | Unbounded => Ret end_
         end;
  Ret (begin, end_).

(** ** Vectors, boxed slices and arrays, static slices *)

Record Vec : Type := MkVec { vec_ptr : nat; vec_len : Z; vec_cap : Z }.
(** [Vec::set_len]: undefined beyond the capacity. *)
Definition Vec_set_len (n : Z) (v : Vec) : outcome Vec :=
  if bool_decide (n ≤ vec_cap v) then Ret (MkVec (vec_ptr v) n (vec_cap v)) else UB.
Definition Vec_io_buf : IoBuf Vec := {|
  read_ptr v := Ret (MkPtr (vec_ptr v) 0);
  bytes_init v := Ret (vec_len v);
|}.
#[export] Existing Instance Vec_io_buf.
Definition Vec_io_buf_mut : IoBufMut Vec := {|
  write_ptr v := Ret (MkPtr (vec_ptr v) 0);
  bytes_total v := Ret (vec_cap v);
  set_init := Vec_set_len;
|}.
#[export] Existing Instance Vec_io_buf_mut.

(** [Box<[u8]>], [Box<[u8; N]>] and [&'static mut [u8; N]]. *)
Record Boxed : Type := MkBoxed { box_ptr : nat; box_len : Z }.
Definition Boxed_io_buf : IoBuf Boxed := {|
  read_ptr b := Ret (MkPtr (box_ptr b) 0);
  bytes_init b := Ret (box_len b);
|}.
#[export] Existing Instance Boxed_io_buf.
Definition Boxed_io_buf_mut : IoBufMut Boxed := {|
  write_ptr b := Ret (MkPtr (box_ptr b) 0);
  bytes_total b := Ret (box_len b);
  set_init _ b := Ret b;
|}.
#[export] Existing Instance Boxed_io_buf_mut.

(** [&'static [u8]], [&'static [u8; N]] and [&'static str]. *)
Record Static : Type := MkStatic { static_ptr : Ptr; static_len : Z }.
Definition Static_io_buf : IoBuf Static := {|
  read_ptr s := Ret (static_ptr s);
  bytes_init s := Ret (static_len s);
|}.
#[export] Existing Instance Static_io_buf.

(** [RawBuf]: a pointer its user vouches for. *)
Record RawBuf : Type := MkRawBuf { raw_ptr : Ptr; raw_len : Z }.
Definition RawBuf_io_buf : IoBuf RawBuf := {|
  read_ptr r := Ret (raw_ptr r);
  bytes_init r := Ret (raw_len r);
|}.
#[export] Existing Instance RawBuf_io_buf.
Definition RawBuf_io_buf_mut : IoBufMut RawBuf := {|
  write_ptr r := Ret (raw_ptr r);
  bytes_total r := Ret (raw_len r);
  set_init _ r := Ret r;
|}.
#[export] Existing Instance RawBuf_io_buf_mut.

(** ** Owned views *)

Record Slice (T : Type) : Type := MkSlice { slice_buf : T; slice_begin : Z; slice_end : Z }.
Arguments MkSlice {T} _ _ _.
Arguments slice_buf {T} _.
Arguments slice_begin {T} _.
Arguments slice_end {T} _.

Record SliceMut (T : Type) : Type := MkSliceMut { sm_buf : T; sm_begin : Z; sm_end : Z }.
Arguments MkSliceMut {T} _ _ _.
Arguments sm_buf {T} _.
Arguments sm_begin {T} _.
Arguments sm_end {T} _.

Section slices.
Context `{B : Build} {T : Type}.

Definition Slice_new `{!IoBuf T} (buf : T) (begin end_ : Z) : outcome (Slice T) :=
  init ← bytes_init buf;
  assert_ (bool_decide (end_ ≤ init));;
  assert_ (bool_decide (begin ≤ end_));;
  Ret (MkSlice buf begin end_).
Definition Slice_into_inner (s : Slice T) : T := slice_buf s.
Definition Slice_io_buf `{!IoBuf T} : IoBuf (Slice T) := {|
  read_ptr s := p ← read_ptr (slice_buf s); Ret (ptr_add p (slice_begin s));
  bytes_init s := usub 64 (slice_end s) (slice_begin s);
|}.

Definition SliceMut_new `{!IoBuf T, !IoBufMut T} (buf : T) (begin end_ : Z) : outcome (SliceMut T) :=
  total ← bytes_total buf;
  assert_ (bool_decide (end_ ≤ total));;
  init ← bytes_init buf;
  assert_ (bool_decide (begin ≤ init));;
  assert_ (bool_decide (begin ≤ end_));;
  Ret (MkSliceMut buf begin end_).
Definition SliceMut_into_inner (s : SliceMut T) : T := sm_buf s.
(** [Deref for SliceMut]; indexing by a range panics outside of the slice. *)
Definition SliceMut_deref `{!IoBuf T} (s : SliceMut T) : outcome (Ptr * Z) :=
  '(p, len) ← deref (sm_buf s);
  let end_ := sm_end s `min` len in
  assert_ (bool_decide (sm_begin s ≤ end_));;
  Ret (ptr_add p (sm_begin s), end_ - sm_begin s).
Definition SliceMut_io_buf `{!IoBuf T} : IoBuf (SliceMut T) := {|
  read_ptr s :=
    '(p, len) ← deref (sm_buf s);
    assert_ (bool_decide (sm_begin s ≤ len));;
    Ret (ptr_add p (sm_begin s));
  bytes_init s := '(_, n) ← SliceMut_deref s; Ret n;
|}.
Definition SliceMut_io_buf_mut `{!IoBufMut T} : IoBufMut (SliceMut T) := {|
  write_ptr s := p ← write_ptr (sm_buf s); Ret (ptr_add p (sm_begin s));
  bytes_total s := usub 64 (sm_end s) (sm_begin s);
  set_init n s :=
    n ← uadd 64 (sm_begin s) n;
    buf ← set_init n (sm_buf s);
    Ret (MkSliceMut buf (sm_begin s) (sm_end s));
|}.

(** [IoBuf::slice] and [IoBufMut::slice_mut]. *)
Definition IoBuf_slice `{!IoBuf T} (start_bound end_bound : Bound) (buf : T) : outcome (Slice T) :=
  init ← bytes_init buf;
  '(begin, end_) ← parse_range start_bound end_bound init;
  Slice_new buf begin end_.
Definition IoBufMut_slice_mut `{!IoBuf T, !IoBufMut T} (start_bound end_bound : Bound) (buf : T) : outcome (SliceMut T) :=
  total ← bytes_total buf;
  '(begin, end_) ← parse_range start_bound end_bound total;
  SliceMut_new buf begin end_.

(** The unchecked constructors: the caller vouches for the bounds. *)
Definition Slice_new_unchecked (buf : T) (begin end_ : Z) : Slice T := MkSlice buf begin end_.
Definition SliceMut_new_unchecked (buf : T) (begin end_ : Z) : SliceMut T := MkSliceMut buf begin end_.
Definition IoBuf_slice_unchecked `{!IoBuf T} (start_bound end_bound : Bound) (buf : T) : outcome (Slice T) :=
  init ← bytes_init buf;
  '(begin, end_) ← parse_range start_bound end_bound init;
  Ret (Slice_new_unchecked buf begin end_).
Definition IoBufMut_slice_mut_unchecked `{!IoBufMut T} (start_bound end_bound : Bound) (buf : T)
    : outcome (SliceMut T) :=
  total ← bytes_total buf;
  '(begin, end_) ← parse_range start_bound end_bound total;
  Ret (SliceMut_new_unchecked buf begin end_).

(** Within the bounds the checked one and the unchecked one are the same. *)
Lemma slice_unchecked `{!IoBuf T} b e (buf : T) s : IoBuf_slice b e buf = Ret s → IoBuf_slice_unchecked b e buf = Ret s.
Proof.
  unfold IoBuf_slice, IoBuf_slice_unchecked, Slice_new, assert_.
  destruct (bytes_init buf) as [n| |] eqn:Hn; cbn; [|done..]. destruct (parse_range b e n) as [[begin end_]| |]; cbn; [|done..].
  repeat case_bool_decide; by intros [= <-].
Qed.
Lemma slice_mut_unchecked `{!IoBuf T, !IoBufMut T} b e (buf : T) s :
  IoBufMut_slice_mut b e buf = Ret s → IoBufMut_slice_mut_unchecked b e buf = Ret s.
Proof.
  unfold IoBufMut_slice_mut, IoBufMut_slice_mut_unchecked, SliceMut_new, assert_.
  destruct (bytes_total buf) as [n| |] eqn:Hn; cbn; [|done..]. destruct (parse_range b e n) as [[begin end_]| |]; cbn; [|done..].
  destruct (bytes_init buf); cbn; repeat case_bool_decide; by intros [= <-].
Qed.
End slices.
#[export] Existing Instance Slice_io_buf.
#[export] Existing Instance SliceMut_io_buf.
#[export] Existing Instance SliceMut_io_buf_mut.

(** ** Reads and writes *)

(** The entries of the submission queue: a pointer, its [u32] length and the
    offset in the file. *)
Record Transfer : Type := MkTransfer { tr_ptr : Ptr; tr_len : Z; tr_offset : Z }.

Section operations.
Context {T : Type}.

Record Read : Type := MkRead { read_offset : Z; read_buf : T }.
Definition Read_uring_op `{!IoBufMut T} (r : Read) : outcome Transfer :=
  p ← write_ptr (read_buf r);
  n ← bytes_total (read_buf r);
  Ret (MkTransfer p (wrap 32 n) (read_offset r)).
(** [Op<Read>::read] from the completion on. *)
Definition Read_read `{!IoBufMut T} (result : io_result Z) (r : Read) : outcome (io_result Z * T) :=
  match result with
  | Ok_ n => buf ← set_init n (read_buf r); Ret (Ok_ n, buf)
  | Err_ e => Ret (Err_ e, read_buf r)
  end.

Record Write : Type := MkWrite { write_offset : Z; write_buf : T }.
Definition Write_uring_op `{!IoBuf T} (w : Write) : outcome Transfer :=
  p ← read_ptr (write_buf w);
  n ← bytes_init (write_buf w);
  Ret (MkTransfer p (wrap 32 n) (write_offset w)).
Definition Write_write (result : io_result Z) (w : Write) : io_result Z * T := (result, write_buf w).

(** A read that the kernel answers with [data]: at most as many bytes as asked. *)
Definition read_at_run `{!IoBufMut T} (buf : T) (pos : Z) (data : list Z) (h : Heap)
    : outcome (io_result Z * T * Heap) :=
  let op := MkRead pos buf in
  t ← Read_uring_op op;
  h ← store (tr_ptr t) (take (Z.to_nat (tr_len t)) data) h;
  '(r, buf) ← Read_read (Ok_ (Z.of_nat (length (take (Z.to_nat (tr_len t)) data)))) op;
  Ret (r, buf, h).
(** The bytes a write lets the kernel see. *)
Definition write_at_bytes `{!IoBuf T} (buf : T) (pos : Z) (h : Heap) : outcome (list Z) :=
  t ← Write_uring_op (MkWrite pos buf);
  load h (tr_ptr t) (tr_len t).
End operations.
Arguments Read : clear implicits.
Arguments Write : clear implicits.

(** ** The contract of the traits *)

(** The first [n] cells from [p] on hold bytes. *)
Definition inited (h : Heap) (p : Ptr) (n : Z) : Prop := ∀ j, 0 ≤ j < n → ∃ z, cell h p j = Some (Some z).
(** Blocks stay, with their size; what held a byte does. *)
Definition grows (h h' : Heap) : Prop := ∀ b l, blocks h !! b = Some l → ∃ l', blocks h' !! b = Some l' ∧
  length l' = length l ∧ ∀ i z, l !! i = Some (Some z) → ∃ z', l' !! i = Some (Some z').

(** What the safety comments of [IoBuf] ask of an implementation. *)
Class IoBufLaws (T : Type) `{!IoBuf T} := {
  buf_ok : Heap → T → Prop;
  buf_read h t : buf_ok h t → ∃ p n, read_ptr t = Ret p ∧ bytes_init t = Ret n ∧
    0 ≤ n < 2 ^ 63 ∧ valid h p n = true ∧ inited h p n;
  buf_ok_grows h h' t : buf_ok h t → grows h h' → buf_ok h' t;
}.
(** And those of [IoBufMut]; the bytes of [set_init] have been written. *)
Class IoBufMutLaws (T : Type) `{!IoBuf T, !IoBufMut T, !IoBufLaws T} := {
  buf_write h t p n : buf_ok h t → read_ptr t = Ret p → bytes_init t = Ret n →
    write_ptr t = Ret p ∧ ∃ m, bytes_total t = Ret m ∧ n ≤ m < 2 ^ 63 ∧ valid h p m = true;
  buf_set_init h t p m k : buf_ok h t → write_ptr t = Ret p → bytes_total t = Ret m →
    0 ≤ k ≤ m → inited h p k →
    ∃ t' n, set_init k t = Ret t' ∧ buf_ok h t' ∧ write_ptr t' = Ret p ∧ bytes_total t' = Ret m ∧
      bytes_init t' = Ret n ∧ k ≤ n;
}.

Section memory.
Implicit Types (h : Heap) (p : Ptr).

Lemma valid_spec h p n : valid h p n = true ↔
  ∃ l, blocks h !! block p = Some l ∧ 0 ≤ off p ∧ 0 ≤ n ∧ off p + n ≤ Z.of_nat (length l).
Proof.
  unfold valid. destruct (blocks h !! block p) as [l|]; [|by split; [|intros (? & ? & _)]].
  rewrite bool_decide_eq_true. split; [intros; by exists l|by intros (? & [= <-] & ?)].
Qed.
Lemma valid_add h p n a m : valid h p n = true → 0 ≤ a → 0 ≤ m → a + m ≤ n → valid h (ptr_add p a) m = true.
Proof. rewrite !valid_spec. intros (l & ? & ? & ? & ?) ???. exists l. cbn. split; [done|lia]. Qed.
Lemma valid_le h p n m : valid h p n = true → 0 ≤ m ≤ n → valid h p m = true.
Proof. rewrite !valid_spec. intros (l & ? & ? & ? & ?) ?. exists l. split; [done|lia]. Qed.
Lemma cell_add h p a j : cell h (ptr_add p a) j = cell h p (a + j).
Proof. unfold cell. cbn. by rewrite Z.add_assoc. Qed.
Lemma inited_add h p a n : inited h p (a + n) → 0 ≤ a → inited h (ptr_add p a) n.
Proof. intros Hi Ha j Hj. rewrite cell_add. apply Hi. lia. Qed.
Lemma inited_le h p n m : inited h p n → m ≤ n → inited h p m.
Proof. intros Hi Ha j Hj. apply Hi. lia. Qed.
Lemma inited_join h p a n : inited h p a → inited h (ptr_add p a) n → inited h p (a + n).
Proof.
  intros Ha Hn j Hj. destruct (decide (j < a)); [apply Ha; lia|].
  destruct (Hn (j - a)) as [z Hz]; [lia|]. exists z. rewrite cell_add in Hz. by rewrite Zplus_minus in Hz.
Qed.

Lemma cell_at h p l j : blocks h !! block p = Some l → 0 ≤ off p → 0 ≤ j →
  cell h p j = l !! (Z.to_nat (off p) + Z.to_nat j)%nat.
Proof.
  intros Hl Ho Hj. unfold cell. rewrite Hl. cbn. rewrite bool_decide_eq_true_2 by lia. f_equal. by rewrite Z2Nat.inj_add.
Qed.
Lemma window_lookup h p n j : valid h p n = true → (j < Z.to_nat n)%nat → window h p n !! j = cell h p (Z.of_nat j).
Proof.
  intros (l & Hl & ? & ? & ?)%valid_spec Hj. unfold window. rewrite Hl. cbn [default from_option id].
  rewrite lookup_take_lt, lookup_drop by done. rewrite (cell_at h p l) by (done || lia). by rewrite Nat2Z.id.
Qed.
Lemma window_length h p n : valid h p n = true → length (window h p n) = Z.to_nat n.
Proof.
  intros (l & Hl & ? & ? & ?)%valid_spec. unfold window. rewrite Hl. cbn [default from_option id].
  rewrite length_take, length_drop. lia.
Qed.

(** Loading succeeds exactly on valid, initialised windows. *)
Lemma load_spec h p n bs : load h p n = Ret bs ↔
  valid h p n = true ∧ length bs = Z.to_nat n ∧
  ∀ j, (j < Z.to_nat n)%nat → cell h p (Z.of_nat j) = Some <$> bs !! j.
Proof.
  unfold load. destruct (valid h p n) eqn:Hv; [|split; [done|by intros (? & _)]].
  rewrite unwrap_unchecked_Ret, mapM_Some. split.
  - intros Hf. pose proof (Forall2_length _ _ _ Hf) as Hlen. rewrite window_length in Hlen by done.
    split; [done|]. split; [done|]. intros j Hj. rewrite <- window_lookup with (n := n) by done.
    destruct (lookup_lt_is_Some_2 (window h p n) j) as [x Hx]; [by rewrite window_length|].
    destruct (Forall2_lookup_l _ _ _ _ _ Hf Hx) as (y & Hy & Hxy). rewrite Hx, Hy. cbn in Hxy. by subst x.
  - intros (_ & Hlen & Hcell). apply Forall2_same_length_lookup_2; [by rewrite window_length|].
    intros j x y Hx Hy. assert (j < Z.to_nat n)%nat as Hj by (rewrite <- Hlen; by eapply lookup_lt_Some).
    rewrite window_lookup, Hcell, Hy in Hx by done. by injection Hx as <-.
Qed.
Lemma load_inited h p n : valid h p n = true → inited h p n → ∃ bs, load h p n = Ret bs.
Proof.
  intros Hv Hi. unfold load. rewrite Hv.
  destruct (mapM id (window h p n)) as [bs|] eqn:Hm; [by exists bs|]. exfalso.
  apply mapM_None, Exists_exists in Hm as (x & [j Hx]%list_elem_of_lookup & Hxn). cbn in Hxn. subst x.
  pose proof (lookup_lt_Some _ _ _ Hx) as Hj. rewrite window_length in Hj by done.
  rewrite window_lookup in Hx by done. destruct (Hi (Z.of_nat j) ltac:(lia)) as [z Hz]. congruence.
Qed.
(** A part of what is loaded. *)
Lemma load_sub h p n bs a m : load h p n = Ret bs → 0 ≤ a → 0 ≤ m → a + m ≤ n →
  load h (ptr_add p a) m = Ret (take (Z.to_nat m) (drop (Z.to_nat a) bs)).
Proof.
  intros (Hv & Hlen & Hc)%load_spec Ha Hm Hn. apply load_spec.
  split; [by eapply valid_add|]. split; [rewrite length_take, length_drop; lia|].
  intros j Hj. rewrite cell_add, lookup_take_lt, lookup_drop by done.
  rewrite <- Hc by lia. f_equal. lia.
Qed.

(** What [store] changes. *)
Lemma store_spec p bs h h' : store p bs h = Ret h' →
  valid h p (Z.of_nat (length bs)) = true ∧ grows h h' ∧ next_block h' = next_block h ∧
  (∀ j, (j < length bs)%nat → cell h' p (Z.of_nat j) = Some <$> bs !! j) ∧
  (∀ q, block q ≠ block p ∨ off q < off p ∨ off p + Z.of_nat (length bs) ≤ off q → cell h' q 0 = cell h q 0).
Proof.
  unfold store. destruct (valid h p _) eqn:Hv; [|done]. intros [= <-]. split; [done|].
  pose proof Hv as (l & Hl & Ho & _ & Hlen)%valid_spec.
  set (l' := list_inserts (Z.to_nat (off p)) (Some <$> bs) l).
  assert (∀ b, alter (list_inserts (Z.to_nat (off p)) (Some <$> bs)) (block p) (blocks h) !! b =
    if decide (b = block p) then Some l' else blocks h !! b) as Hb.
  { intros b. destruct (decide (b = block p)) as [->|]; [by rewrite lookup_alter_eq, Hl|by rewrite lookup_alter_ne]. }
  assert (length l' = length l) as Hlen' by apply length_inserts.
  split; [|split; [done|split]].
  - intros b l0 Hb0. cbn [blocks]. rewrite Hb. case_decide as Heq; [|exists l0; eauto]. subst b.
    rewrite Hl in Hb0. injection Hb0 as <-. exists l'. split; [done|]. split; [done|]. intros i z Hz. unfold l'.
    destruct (decide (Z.to_nat (off p) ≤ i < Z.to_nat (off p) + length bs)%nat) as [Hin|Hout].
    + rewrite list_lookup_inserts by (rewrite ?length_fmap; (lia || by eapply lookup_lt_Some)). rewrite list_lookup_fmap.
      destruct (lookup_lt_is_Some_2 bs (i - Z.to_nat (off p)) ltac:(lia)) as [z' ->]. by exists z'.
    + destruct (decide (i < Z.to_nat (off p))%nat).
      * rewrite list_lookup_inserts_lt by done. eauto.
      * rewrite list_lookup_inserts_ge by (rewrite length_fmap; lia). eauto.
  - intros j Hj. rewrite (cell_at _ p l') by (try done; cbn [blocks]; try lia; by rewrite Hb, decide_True).
    unfold l'. rewrite list_lookup_inserts by (rewrite ?length_fmap; lia). rewrite list_lookup_fmap. do 2 f_equal. lia.
  - intros q Hq. unfold cell. cbn [blocks]. rewrite Hb. case_decide as Heq; [|done]. rewrite Heq, Hl. cbn.
    case_bool_decide; [|done]. rewrite Z.add_0_r in *. unfold l'.
    destruct Hq as [?|[?|?]]; [done|by rewrite list_lookup_inserts_lt by lia|].
    by rewrite list_lookup_inserts_ge by (rewrite length_fmap; lia).
Qed.
Lemma store_valid p bs h : valid h p (Z.of_nat (length bs)) = true → ∃ h', store p bs h = Ret h'.
Proof. intros Hv. unfold store. rewrite Hv. eauto. Qed.

Lemma grows_valid h h' p n : grows h h' → valid h p n = true → valid h' p n = true.
Proof.
  intros Hg (l & Hl & ? & ? & ?)%valid_spec. destruct (Hg _ _ Hl) as (l' & Hl' & Hlen & _).
  apply valid_spec. exists l'. split; [done|lia].
Qed.
Lemma grows_inited h h' p n : grows h h' → inited h p n → inited h' p n.
Proof.
  intros Hg Hi j Hj. destruct (Hi j Hj) as [z Hz]. unfold cell in *.
  destruct (blocks h !! block p) as [l|] eqn:Hl; [|done]. destruct (Hg _ _ Hl) as (l' & -> & _ & Hz'). cbn in *.
  case_bool_decide; [|done]. apply (Hz' _ _ Hz).
Qed.
End memory.

(** ** The implementations keep the contract *)

Section implementations.
Implicit Types (h : Heap).

Lemma block_ok_grows h h' p n m : valid h p n = true ∧ inited h p m → grows h h' → valid h' p n = true ∧ inited h' p m.
Proof. intros [??] ?. split; [by eapply grows_valid|by eapply grows_inited]. Qed.

#[export] Program Instance Vec_laws : IoBufLaws Vec := {|
  buf_ok h v := 0 ≤ vec_len v ≤ vec_cap v ∧ vec_cap v < 2 ^ 63 ∧
    (valid h (MkPtr (vec_ptr v) 0) (vec_cap v) = true ∧ inited h (MkPtr (vec_ptr v) 0) (vec_len v));
|}.
Next Obligation.
  intros h v (? & ? & Hv & Hi). exists (MkPtr (vec_ptr v) 0), (vec_len v). do 2 (split; [done|]). split; [lia|].
  split; [by apply (valid_le _ _ (vec_cap v))|done].
Qed.
Next Obligation. intros h h' v (? & ? & ?) Hg. split; [done|]. split; [done|]. by eapply block_ok_grows. Qed.
#[export] Instance Vec_mut_laws : IoBufMutLaws Vec.
Proof.
  split.
  - intros h v p n (? & ? & Hv & Hi) [= <-] [= <-]. split; [done|]. exists (vec_cap v). split; [done|]. by split; [lia|].
  - intros h v p m k (? & ? & Hv & Hi) [= <-] [= <-] Hk Hik. exists (MkVec (vec_ptr v) k (vec_cap v)), k.
    split; [cbn; unfold Vec_set_len; rewrite bool_decide_eq_true_2 by lia; done|].
    split; [by repeat split; cbn; try lia|]. by repeat split.
Qed.

#[export] Program Instance Boxed_laws : IoBufLaws Boxed := {|
  buf_ok h b := 0 ≤ box_len b < 2 ^ 63 ∧ (valid h (MkPtr (box_ptr b) 0) (box_len b) = true ∧ inited h (MkPtr (box_ptr b) 0) (box_len b));
|}.
Next Obligation. intros h b (? & Hv & Hi). by exists (MkPtr (box_ptr b) 0), (box_len b). Qed.
Next Obligation. intros h h' v (? & ?) Hg. split; [done|]. by eapply block_ok_grows. Qed.
#[export] Instance Boxed_mut_laws : IoBufMutLaws Boxed.
Proof.
  split.
  - intros h b p n (? & Hv & Hi) [= <-] [= <-]. split; [done|]. exists (box_len b). split; [done|]. by split; [lia|].
  - intros h b p m k Hok [= <-] [= <-] Hk Hik. exists b, (box_len b). repeat (split; [done|]). lia.
Qed.

#[export] Program Instance Static_laws : IoBufLaws Static := {|
  buf_ok h s := 0 ≤ static_len s < 2 ^ 63 ∧ (valid h (static_ptr s) (static_len s) = true ∧ inited h (static_ptr s) (static_len s));
|}.
Next Obligation. intros h s (? & Hv & Hi). by exists (static_ptr s), (static_len s). Qed.
Next Obligation. intros h h' v (? & ?) Hg. split; [done|]. by eapply block_ok_grows. Qed.

(** The user of a raw buffer vouches for its memory. *)
#[export] Program Instance RawBuf_laws : IoBufLaws RawBuf := {|
  buf_ok h r := 0 ≤ raw_len r < 2 ^ 63 ∧ (valid h (raw_ptr r) (raw_len r) = true ∧ inited h (raw_ptr r) (raw_len r));
|}.
Next Obligation. intros h s (? & Hv & Hi). by exists (raw_ptr s), (raw_len s). Qed.
Next Obligation. intros h h' v (? & ?) Hg. split; [done|]. by eapply block_ok_grows. Qed.
#[export] Instance RawBuf_mut_laws : IoBufMutLaws RawBuf.
Proof.
  split.
  - intros h b p n (? & Hv & Hi) [= <-] [= <-]. split; [done|]. exists (raw_len b). split; [done|]. by split; [lia|].
  - intros h b p m k Hok [= <-] [= <-] Hk Hik. exists b, (raw_len b). repeat (split; [done|]). lia.
Qed.

Context `{B : Build} {T : Type}.

#[export] Program Instance Slice_laws `{L : IoBufLaws T} : IoBufLaws (Slice T) := {|
  buf_ok h s := buf_ok h (slice_buf s) ∧ ∃ n, bytes_init (slice_buf s) = Ret n ∧ 0 ≤ slice_begin s ≤ slice_end s ∧ slice_end s ≤ n;
|}.
Next Obligation.
  intros ? L h s (Hok & n & Hn & Hb & He). destruct (buf_read h _ Hok) as (p & n' & Hp & Hn' & Hb' & Hv & Hi).
  rewrite Hn in Hn'. injection Hn' as <-. exists (ptr_add p (slice_begin s)), (slice_end s - slice_begin s).
  cbn. rewrite Hp, usub_small by lia. split; [done|]. split; [done|]. split; [lia|].
  split; [eapply valid_add; [done|lia..]|]. apply inited_add; [|lia]. apply (inited_le _ _ n); [done|lia].
Qed.
Next Obligation. intros ? L h h' s (Hok & Hn) Hg. split; [by eapply buf_ok_grows|done]. Qed.

#[export] Program Instance SliceMut_laws `{!IoBuf T, !IoBufMut T, L : !IoBufLaws T} : IoBufLaws (SliceMut T) := {|
  buf_ok h s := buf_ok h (sm_buf s) ∧ ∃ n m, bytes_init (sm_buf s) = Ret n ∧ bytes_total (sm_buf s) = Ret m ∧
    0 ≤ sm_begin s ≤ n ∧ sm_begin s ≤ sm_end s ≤ m;
|}.
Next Obligation.
  intros ??? h s (Hok & n & m & Hn & Hm & Hb & He). destruct (buf_read h _ Hok) as (p & n' & Hp & Hn' & Hb' & Hv & Hi).
  rewrite Hn in Hn'. injection Hn' as <-. exists (ptr_add p (sm_begin s)), (sm_end s `min` n - sm_begin s).
  cbn. unfold SliceMut_deref, deref. rewrite Hp, Hn. cbn. rewrite !bool_decide_eq_true_2 by lia.
  split; [done|]. split; [done|]. split; [lia|].
  split; [eapply valid_add; [done|lia..]|]. apply inited_add; [|lia]. apply (inited_le _ _ n); [done|lia].
Qed.
Next Obligation. intros ??? h h' s (Hok & Hn) Hg. split; [by eapply buf_ok_grows|done]. Qed.
#[export] Instance SliceMut_mut_laws `{!IoBuf T, !IoBufMut T, !IoBufLaws T, !IoBufMutLaws T} : IoBufMutLaws (SliceMut T).
Proof.
  split.
  - intros h s p' n' (Hok & n & m & Hn & Hm & Hb & He) Hp' Hn'.
    destruct (buf_read h _ Hok) as (p & n0 & Hp & Hn0 & Hb' & Hv & Hi). rewrite Hn in Hn0. injection Hn0 as <-.
    destruct (buf_write h _ p n Hok Hp Hn) as (Hw & m' & Hm' & Hnm & Hvm). rewrite Hm in Hm'. injection Hm' as <-.
    revert Hp' Hn'. cbn. unfold SliceMut_deref, deref. rewrite Hp, Hn, Hw. cbn. rewrite !bool_decide_eq_true_2 by lia.
    intros [= <-] [= <-]. split; [done|]. exists (sm_end s - sm_begin s). rewrite usub_small by lia.
    split; [done|]. split; [lia|]. eapply valid_add; [done|lia..].
  - intros h s p' m' k (Hok & n & m & Hn & Hm & Hb & He) Hp' Hm' Hk Hik.
    destruct (buf_read h _ Hok) as (p & n0 & Hp & Hn0 & Hb' & Hv & Hi). rewrite Hn in Hn0. injection Hn0 as <-.
    destruct (buf_write h _ p n Hok Hp Hn) as (Hw & m0 & Hm0 & Hnm & Hvm). rewrite Hm in Hm0. injection Hm0 as <-.
    revert Hp' Hm'. cbn. rewrite Hw, usub_small by lia. cbn. intros [= <-] [= <-].
    destruct (buf_set_init h (sm_buf s) p m (sm_begin s + k)) as (t' & n' & Hs' & Hok' & Hw' & Hm' & Hn' & Hle); [done..|lia| |].
    { apply inited_join; [|done]. apply (inited_le _ _ n); [done|lia]. }
    exists (MkSliceMut t' (sm_begin s) (sm_end s)), (sm_end s `min` n' - sm_begin s).
    rewrite uadd_small by lia. cbn. rewrite Hs', Hw', usub_small by lia. cbn. split; [done|].
    split; [split; [done|]; exists n', m; repeat split; try done; cbn; lia|]. split; [done|]. split; [done|].
    destruct (buf_read h _ Hok') as (p'' & n'' & Hp'' & Hn'' & _). unfold SliceMut_deref, deref. cbn [sm_buf sm_begin sm_end]. rewrite Hp'', Hn'. cbn.
    rewrite bool_decide_eq_true_2 by lia. split; [done|lia].
Qed.
End implementations.

(** ** Reads and writes of one buffer *)

Section single.
Context {T : Type} `{!IoBuf T, !IoBufMut T, !IoBufLaws T, !IoBufMutLaws T}.

(** C36: A read into any buffer that keeps the contract (a view of a view of a
    vector, for instance) never touches memory outside of the buffer: the kernel
    stores what it has, at most the buffer's size modulo 2^32, only these cells
    change, and afterwards the buffer keeps the contract and starts with them. *)
Theorem read_at_fills h (buf : T) pos data p m :
  buf_ok h buf → write_ptr buf = Ret p → bytes_total buf = Ret m →
  let k := Z.of_nat (length data) `min` wrap 32 m in
  ∃ buf' h' n, read_at_run buf pos data h = Ret (Ok_ k, buf', h') ∧
    buf_ok h' buf' ∧ write_ptr buf' = Ret p ∧ bytes_total buf' = Ret m ∧
    bytes_init buf' = Ret n ∧ k ≤ n ∧
    load h' p k = Ret (take (Z.to_nat k) data) ∧
    ∀ q, block q ≠ block p ∨ off q < off p ∨ off p + k ≤ off q → cell h' q 0 = cell h q 0.
Proof.
  intros Hok Hw Hm k. destruct (buf_read h buf Hok) as (p' & n & Hp & Hn & Hnb & Hvn & _).
  destruct (buf_write h buf p' n Hok Hp Hn) as (Hw' & m' & Hm' & Hnm & Hvm).
  rewrite Hw in Hw'. injection Hw' as <-. rewrite Hm in Hm'. injection Hm' as <-.
  pose proof (wrap_bounds 32 m ltac:(lia)) as Hwr.
  assert (wrap 32 m ≤ m) as Hle by (apply Z.mod_le; lia).
  set (bs := take (Z.to_nat (wrap 32 m)) data).
  assert (Z.of_nat (length bs) = k) as Hk by (unfold bs; rewrite length_take; lia).
  assert (take (Z.to_nat k) data = bs) as Hbs.
  { unfold bs. apply list_eq. intros i. rewrite !lookup_take. repeat case_decide; try done; [lia|].
    symmetry. apply lookup_ge_None_2. lia. }
  destruct (store_valid p bs h) as [h' Hst]; [rewrite Hk; apply (valid_le _ _ m); [done|lia]|].
  destruct (store_spec _ _ _ _ Hst) as (_ & Hg & _ & Hin & Hout).
  assert (load h' p k = Ret bs) as Hload.
  { apply load_spec. split; [apply (valid_le _ _ m); [by eapply grows_valid|lia]|]. rewrite <- Hk, Nat2Z.id. by split. }
  destruct (buf_set_init h' buf p m k) as (buf' & n' & Hs & Hok' & Hw' & Hm' & Hn' & Hkn);
    [by eapply buf_ok_grows|done|done|lia| |].
  { intros j Hj. destruct (lookup_lt_is_Some_2 bs (Z.to_nat j) ltac:(lia)) as [z Hz]. exists z.
    specialize (Hin (Z.to_nat j) ltac:(lia)). rewrite Z2Nat.id, Hz in Hin by lia. done. }
  exists buf', h', n'. split.
  { unfold read_at_run, Read_uring_op. cbn. rewrite Hw, Hm. cbn. fold bs. rewrite Hst. cbn. by rewrite Hk, Hs. }
  rewrite Hbs. repeat (split; [done|]). rewrite <- Hk. exact Hout.
Qed.
End single.

Section views.
Context `{B : Build} {T : Type} `{!IoBuf T, L : !IoBufLaws T}.

(** [slice] over any buffer is the part of its bytes that the bounds say, and
    panics exactly when they are out of order or beyond the initialised bytes; a
    write of it lets the kernel see exactly these bytes, as far as 2^32 reach. *)
Theorem slice_is_subrange h (buf : T) b e p n bs :
  buf_ok h buf → read_ptr buf = Ret p → bytes_init buf = Ret n → load h p n = Ret bs → 0 ≤ b → 0 ≤ e →
  if bool_decide (b ≤ e ≤ n) then
    ∃ s, IoBuf_slice (Included b) (Excluded e) buf = Ret s ∧ buf_ok h s ∧ Slice_into_inner s = buf ∧
      ∀ pos, write_at_bytes s pos h = Ret (take (Z.to_nat (wrap 32 (e - b))) (drop (Z.to_nat b) bs))
  else IoBuf_slice (Included b) (Excluded e) buf = Panic.
Proof.
  intros Hok Hp Hn Hl Hb He. unfold IoBuf_slice, Slice_new. rewrite Hn. cbn.
  destruct (buf_read h buf Hok) as (p' & n' & Hp' & Hn' & Hnb & _).
  rewrite Hn in Hn'. injection Hn' as <-.
  case_bool_decide as Hbe.
  - rewrite !bool_decide_eq_true_2 by lia. exists (MkSlice buf b e). split; [done|].
    split; [split; [done|]; exists n; cbn; split; [done|lia]|]. split; [done|]. intros pos.
    unfold write_at_bytes, Write_uring_op. cbn. rewrite Hp, usub_small by lia. cbn.
    pose proof (wrap_bounds 32 (e - b) ltac:(lia)). assert (wrap 32 (e - b) ≤ e - b) by (apply Z.mod_le; lia).
    rewrite (load_sub h p n bs) by (done || lia). done.
  - destruct (decide (e ≤ n)); [rewrite (bool_decide_eq_true_2 (e ≤ n)) by done; cbn; by rewrite bool_decide_eq_false_2 by lia|].
    by rewrite (bool_decide_eq_false_2 (e ≤ n)) by done.
Qed.
End views.

(** A read into a part of a vector: the vector keeps what is before the part, and
    ends with what was read. *)
Theorem read_into_part `{B : Build} h v pos data b e bs :
  buf_ok h v → load h (MkPtr (vec_ptr v) 0) (vec_len v) = Ret bs →
  0 ≤ b ≤ e → b ≤ vec_len v → e ≤ vec_cap v → e < 2 ^ 32 →
  let k := Z.of_nat (length data) `min` (e - b) in
  ∃ s s' h', IoBufMut_slice_mut (Included b) (Excluded e) v = Ret s ∧
    read_at_run s pos data h = Ret (Ok_ k, s', h') ∧
    vec_len (SliceMut_into_inner s') = b + k ∧
    load h' (MkPtr (vec_ptr v) 0) (b + k) = Ret (take (Z.to_nat b) bs ++ take (Z.to_nat k) data).
Proof.
  intros Hok Hl Hb Hbn He H32 k. pose proof Hok as (Hlen & Hcap & Hv & Hi).
  set (s := MkSliceMut v b e). exists s.
  assert (buf_ok h s) as Hoks.
  { split; [done|]. exists (vec_len v), (vec_cap v). do 2 (split; [done|]). cbn. lia. }
  destruct (read_at_fills h s pos data (MkPtr (vec_ptr v) b) (e - b) Hoks) as (s' & h' & n & Hr & Hok' & Hw' & Hm' & Hn' & Hkn & Hload & Hout);
    [done|cbn; by rewrite usub_small by lia|].
  rewrite wrap_small in Hr, Hload, Hout by lia. fold k in Hr, Hload, Hout. exists s', h'.
  split. { unfold IoBufMut_slice_mut, SliceMut_new. cbn. by rewrite !bool_decide_eq_true_2 by lia. }
  split; [done|]. split.
  - revert Hr. unfold read_at_run, Read_uring_op. cbn -[wrap usub uadd]. rewrite usub_small by lia. cbn -[wrap uadd]. rewrite wrap_small by lia.
    destruct (store _ _ _) as [h1| |]; [|done..]. cbn. rewrite length_take, uadd_small by lia. cbn.
    unfold Vec_set_len. rewrite bool_decide_eq_true_2 by lia. cbn. intros [= _ <- _]. cbn. lia.
  - apply load_spec. apply load_spec in Hl as (_ & Hlb & Hc), Hload as (Hv' & Hlk & Hc').
    split. { apply valid_spec in Hv' as (l & Hlk' & ? & ? & ?). cbn in *. apply valid_spec. exists l. cbn. split; [done|lia]. }
    rewrite length_app, Hlk, length_take. split; [lia|]. intros j Hj.
    destruct (decide (j < Z.to_nat b)%nat) as [Hlt|].
    + rewrite lookup_app_l, lookup_take_lt, <- Hc by (rewrite ?length_take; lia).
      specialize (Hout (MkPtr (vec_ptr v) (Z.of_nat j))). unfold cell in *. cbn in *. rewrite Z.add_0_r in Hout. apply Hout. lia.
    + rewrite lookup_app_r, length_take, Nat.min_l by (rewrite ?length_take; lia). rewrite <- Hc' by lia.
      unfold cell. cbn. by replace (b + Z.of_nat (j - Z.to_nat b)) with (Z.of_nat j) by lia.
Qed.

(** ** Vectored buffers *)

(** [libc::iovec]; an array of them is a list. *)
Record Iovec : Type := MkIovec { iov_base : Ptr; iov_len : Z }.

(** [read_iovec_ptr] with [read_iovec_len], and their mutable twins. *)
Class IoVecBuf (T : Type) := { read_iovecs : T → list Iovec }.
Class IoVecBufMut (T : Type) := {
  write_iovecs : T → list Iovec;
  vec_set_init : Z → T → outcome T;
}.

Record VecBuf : Type := MkVecBuf { iovecs : list Iovec; raw : list Vec }.
Definition VecBuf_from (vs : list Vec) : VecBuf :=
  MkVecBuf ((λ v, MkIovec (MkPtr (vec_ptr v) 0) (vec_len v)) <$> vs) vs.
Definition VecBuf_into (vb : VecBuf) : list Vec := raw vb.

(** The loop of [set_init]; [raw[idx]] panics outside of the vector. *)
Fixpoint VecBuf_set_init_loop (iovs : list Iovec) (idx : nat) (len : Z) (raw : list Vec) : outcome (list Vec) :=
  match iovs with
  | [] => Ret raw
  | iovec :: iovs =>
      if bool_decide (iov_len iovec ≤ len) then
        v ← unwrap (raw !! idx);
        v ← Vec_set_len (iov_len iovec) v;
        VecBuf_set_init_loop iovs (S idx) (len - iov_len iovec) (<[idx := v]> raw)
      else if bool_decide (0 < len) then
        v ← unwrap (raw !! idx);
        v ← Vec_set_len len v;
        Ret (<[idx := v]> raw)
      else Ret raw
  end.
Definition VecBuf_set_init (len : Z) (vb : VecBuf) : outcome VecBuf :=
  raw ← VecBuf_set_init_loop (iovecs vb) 0 len (raw vb); Ret (MkVecBuf (iovecs vb) raw).

Definition VecBuf_io_vec_buf : IoVecBuf VecBuf := {| read_iovecs := iovecs |}.
#[export] Existing Instance VecBuf_io_vec_buf.
Definition VecBuf_io_vec_buf_mut : IoVecBufMut VecBuf := {| write_iovecs := iovecs; vec_set_init := VecBuf_set_init |}.
#[export] Existing Instance VecBuf_io_vec_buf_mut.

(** [Vec<iovec>] and [RawBufVectored]. *)
Definition Iovecs_io_vec_buf : IoVecBuf (list Iovec) := {| read_iovecs := id |}.
#[export] Existing Instance Iovecs_io_vec_buf.
Record RawBufVectored : Type := MkRawBufVectored { raw_iovecs : list Iovec }.
Definition RawBufVectored_io_vec_buf : IoVecBuf RawBufVectored := {| read_iovecs := raw_iovecs |}.
#[export] Existing Instance RawBufVectored_io_vec_buf.
Definition RawBufVectored_io_vec_buf_mut : IoVecBufMut RawBufVectored := {| write_iovecs := raw_iovecs; vec_set_init _ := Ret |}.
#[export] Existing Instance RawBufVectored_io_vec_buf_mut.

(** [RawBuf::new_from_iovec], [new_from_iovec_mut], and the wrappers, which keep
    the first iovec of a buffer that has one. *)
Definition RawBuf_new_from_iovec {T} `{!IoVecBuf T} (data : T) : option RawBuf :=
  match read_iovecs data with [] => None | v :: _ => Some (MkRawBuf (iov_base v) (iov_len v)) end.
Definition RawBuf_new_from_iovec_mut {T} `{!IoVecBufMut T} (data : T) : option RawBuf :=
  match write_iovecs data with [] => None | v :: _ => Some (MkRawBuf (iov_base v) (iov_len v)) end.

Record IoVecWrapper (T : Type) : Type := MkIoVecWrapper { wrapped : T }.
Arguments MkIoVecWrapper {T} _.
Arguments wrapped {T} _.
Definition IoVecWrapper_new {T} `{!IoVecBuf T} (buf : T) : IoVecWrapper T + T :=
  match read_iovecs buf with [] => inr buf | _ => inl (MkIoVecWrapper buf) end.
(** [*ptr] of an empty array is undefined. *)
Definition first_iovec (l : list Iovec) : outcome Iovec := unwrap_unchecked (head l).
Definition IoVecWrapper_io_buf {T} `{!IoVecBuf T} : IoBuf (IoVecWrapper T) := {|
  read_ptr w := v ← first_iovec (read_iovecs (wrapped w)); Ret (iov_base v);
  bytes_init w := v ← first_iovec (read_iovecs (wrapped w)); Ret (iov_len v);
|}.
#[export] Existing Instance IoVecWrapper_io_buf.
Record IoVecWrapperMut (T : Type) : Type := MkIoVecWrapperMut { wrapped_mut : T }.
Arguments MkIoVecWrapperMut {T} _.
Arguments wrapped_mut {T} _.
Definition IoVecWrapperMut_new {T} `{!IoVecBufMut T} (buf : T) : IoVecWrapperMut T + T :=
  match write_iovecs buf with [] => inr buf | _ => inl (MkIoVecWrapperMut buf) end.
Definition IoVecWrapperMut_io_buf_mut {T} `{!IoVecBufMut T} : IoBufMut (IoVecWrapperMut T) := {|
  write_ptr w := v ← first_iovec (write_iovecs (wrapped_mut w)); Ret (iov_base v);
  bytes_total w := v ← first_iovec (write_iovecs (wrapped_mut w)); Ret (iov_len v);
  set_init _ := Ret;
|}.
#[export] Existing Instance IoVecWrapperMut_io_buf_mut.

(** The kernel's side of [readv] and [writev]: the iovecs one after the other. *)
Fixpoint scatter (iovs : list Iovec) (data : list Z) (h : Heap) : outcome Heap :=
  match iovs with
  | [] => Ret h
  | v :: iovs =>
      h ← store (iov_base v) (take (Z.to_nat (iov_len v)) data) h;
      scatter iovs (drop (Z.to_nat (iov_len v)) data) h
  end.
Fixpoint gather (iovs : list Iovec) (h : Heap) : outcome (list Z) :=
  match iovs with
  | [] => Ret []
  | v :: iovs => bs ← load h (iov_base v) (iov_len v); rest ← gather iovs h; Ret (bs ++ rest)
  end.
Definition total_len (iovs : list Iovec) : Z := foldr (λ v n, iov_len v + n) 0 iovs.

(** A vectored read that the kernel answers with [data], and what a vectored
    write lets it see ([Op<ReadVec>], [Op<WriteVec>]). *)
Definition readv_run {T} `{!IoVecBufMut T} (buf_vec : T) (data : list Z) (h : Heap) : outcome (io_result Z * T * Heap) :=
  let data := take (Z.to_nat (total_len (write_iovecs buf_vec))) data in
  h ← scatter (write_iovecs buf_vec) data h;
  buf_vec ← vec_set_init (Z.of_nat (length data)) buf_vec;
  Ret (Ok_ (Z.of_nat (length data)), buf_vec, h).
Definition writev_bytes {T} `{!IoVecBuf T} (buf_vec : T) (h : Heap) : outcome (list Z) := gather (read_iovecs buf_vec) h.

(** Drop and [Clone] of vectors; the iovecs of a [VecBuf] are cloned as they are. *)
Definition Vec_drop (v : Vec) (h : Heap) : outcome Heap := free (vec_ptr v) h.
Definition Vec_clone (v : Vec) (h : Heap) : outcome (Vec * Heap) :=
  bs ← load h (MkPtr (vec_ptr v) 0) (vec_len v);
  let '(b, h) := alloc (Some <$> bs) h in
  Ret (MkVec b (vec_len v) (vec_len v), h).
Fixpoint Vecs_clone (vs : list Vec) (h : Heap) : outcome (list Vec * Heap) :=
  match vs with
  | [] => Ret ([], h)
  | v :: vs => '(v, h) ← Vec_clone v h; '(vs, h) ← Vecs_clone vs h; Ret (v :: vs, h)
  end.
Fixpoint Vecs_drop (vs : list Vec) (h : Heap) : outcome Heap :=
  match vs with [] => Ret h | v :: vs => h ← Vec_drop v h; Vecs_drop vs h end.
Definition VecBuf_clone (vb : VecBuf) (h : Heap) : outcome (VecBuf * Heap) :=
  '(raw, h) ← Vecs_clone (raw vb) h; Ret (MkVecBuf (iovecs vb) raw, h).
Definition VecBuf_drop (vb : VecBuf) (h : Heap) : outcome Heap := Vecs_drop (raw vb) h.

Section vectored.
Implicit Types (h : Heap) (vs : list Vec) (v : Vec).

Definition vec_start v : Ptr := MkPtr (vec_ptr v) 0.
Lemma cell_start h v j : cell h (vec_start v) j = cell h (MkPtr (vec_ptr v) j) 0.
Proof. unfold cell. cbn [vec_start block off]. by rewrite Z.add_0_r. Qed.
(** The bytes of the vectors. *)
Definition contents h vs (bss : list (list Z)) : Prop := Forall2 (λ v bs, load h (vec_start v) (vec_len v) = Ret bs) vs bss.

(** A vectored write of a [VecBuf] made of vectors lets the kernel see their
    bytes, one after the other. *)
Theorem writev_sees_all h vs bss : contents h vs bss → writev_bytes (VecBuf_from vs) h = Ret (concat bss).
Proof.
  unfold writev_bytes. cbn [read_iovecs VecBuf_io_vec_buf iovecs VecBuf_from].
  induction 1 as [|v bs vs bss Hv Hvs IH]; [done|]. cbn [fmap list_fmap gather iov_base iov_len concat].
  unfold vec_start in Hv. rewrite Hv. cbn. by rewrite IH.
Qed.

(** What a vectored read of [data] leaves in vectors with the bytes [bss]. *)
Fixpoint filled (bss : list (list Z)) (data : list Z) : list (list Z) :=
  match bss with
  | [] => []
  | bs :: bss =>
      if bool_decide (length bs ≤ length data)%nat then take (length bs) data :: filled bss (drop (length bs) data)
      else (if bool_decide (data = []) then bs else data) :: bss
  end.
(** The vectors after [set_init]. *)
Fixpoint cut vs (len : Z) : list Vec :=
  match vs with
  | [] => []
  | v :: vs =>
      if bool_decide (vec_len v ≤ len) then v :: cut vs (len - vec_len v)
      else (if bool_decide (0 < len) then MkVec (vec_ptr v) len (vec_cap v) else v) :: vs
  end.

Lemma set_init_loop_cut vs : ∀ pre len,
  Forall (λ v, vec_len v ≤ vec_cap v) vs →
  VecBuf_set_init_loop (iovecs (VecBuf_from vs)) (length pre) len (pre ++ vs) = Ret (pre ++ cut vs len).
Proof.
  induction vs as [|v vs IH]; intros pre len Hok; [done|]. apply Forall_cons in Hok as [Hv Hvs].
  cbn [VecBuf_from iovecs fmap list_fmap VecBuf_set_init_loop cut iov_len].
  assert ((pre ++ v :: vs) !! length pre = Some v) as Hat by by rewrite lookup_app_r, Nat.sub_diag.
  assert (∀ v', <[length pre := v']> (pre ++ v :: vs) = pre ++ v' :: vs) as Hins.
  { intros v'. by rewrite insert_app_r_alt, Nat.sub_diag. }
  case_bool_decide.
  - rewrite Hat. cbn [unwrap mbind outcome_bind]. unfold Vec_set_len. rewrite bool_decide_eq_true_2 by done.
    cbn [mbind outcome_bind]. rewrite Hins. destruct v as [b l c]. cbn [vec_ptr vec_len vec_cap] in *.
    specialize (IH (pre ++ [MkVec b l c]) (len - l) Hvs). rewrite length_app, Nat.add_1_r, <- !app_assoc in IH. exact IH.
  - case_bool_decide; [|done]. rewrite Hat. cbn [unwrap mbind outcome_bind]. unfold Vec_set_len.
    rewrite bool_decide_eq_true_2 by lia. cbn [mbind outcome_bind]. by rewrite Hins.
Qed.

(** Blocks other than the vectors' are left alone. *)
Lemma scatter_spec vs : ∀ h bss data,
  contents h vs bss → NoDup (vec_ptr <$> vs) →
  ∃ h', scatter (iovecs (VecBuf_from vs)) data h = Ret h' ∧ grows h h' ∧
    (∀ b, b ∉ vec_ptr <$> vs → ∀ o, cell h' (MkPtr b o) 0 = cell h (MkPtr b o) 0) ∧
    contents h' (cut vs (Z.of_nat (length data))) (filled bss data).
Proof.
  induction vs as [|v vs IH]; intros h bss data Hc Hnd.
  { apply Forall2_nil_inv_l in Hc as ->. exists h. split; [done|]. split; [intros b l Hl; eauto|]. by split; [|constructor]. }
  apply Forall2_cons_inv_l in Hc as (bs & bss' & Hv & Hvs & ->). cbn [fmap list_fmap] in Hnd. apply NoDup_cons in Hnd as [Hb Hnd].
  pose proof Hv as (Hval & Hlen & Hcell)%load_spec. pose proof Hval as (l & Hl & _ & Hn & _)%valid_spec.
  cbn [VecBuf_from iovecs fmap list_fmap scatter iov_base iov_len]. fold (vec_start v).
  set (part := take (Z.to_nat (vec_len v)) data).
  assert (length part = Z.to_nat (vec_len v) `min` length data)%nat as Hpart by (unfold part; by rewrite length_take).
  destruct (store_valid (vec_start v) part h) as [h1 Hst]; [apply (valid_le _ _ (vec_len v)); [done|lia]|].
  destruct (store_spec _ _ _ _ Hst) as (_ & Hg1 & _ & Hin & Hout).
  assert (∀ b, b ≠ vec_ptr v → ∀ o, cell h1 (MkPtr b o) 0 = cell h (MkPtr b o) 0) as Hother.
  { intros b Hne o. apply Hout. by left. }
  assert (contents h1 vs bss') as Hvs1.
  { apply Forall2_same_length_lookup_2; [by eapply Forall2_length|]. intros i v' bs' Hi Hi'.
    pose proof (Forall2_lookup_lr _ _ _ _ _ _ Hvs Hi Hi') as Hld. apply list_elem_of_lookup_2 in Hi.
    assert (vec_ptr v' ≠ vec_ptr v) as Hne by (intros Heq; apply Hb; rewrite <- Heq; by apply list_elem_of_fmap_2).
    apply load_spec in Hld as (Hv1 & Hl1 & Hc1). apply load_spec. split; [by eapply grows_valid|]. split; [done|].
    intros j Hj. rewrite <- Hc1 by done. rewrite !cell_start. by apply Hother. }
  destruct (IH h1 bss' (drop (Z.to_nat (vec_len v)) data) Hvs1 Hnd) as (h' & Hs & Hg & Hrest & Hc').
  assert (∀ b, b ≠ vec_ptr v → b ∉ vec_ptr <$> vs → ∀ o, cell h' (MkPtr b o) 0 = cell h (MkPtr b o) 0) as Houter.
  { intros b Hne Hni o. rewrite Hrest, Hother by done. done. }
  exists h'. rewrite Hst. split; [exact Hs|].
  split. { intros b l0 Hl0. destruct (Hg1 _ _ Hl0) as (l1 & Hl1 & Hlen1 & Hz1). destruct (Hg _ _ Hl1) as (l2 & Hl2 & Hlen2 & Hz2).
    exists l2. split; [done|]. split; [congruence|]. intros i z Hz. destruct (Hz1 _ _ Hz) as [z' Hz']. by apply (Hz2 _ z'). }
  split. { intros b [Hne Hni]%not_elem_of_cons. by apply Houter. }
  assert (∀ j, (j < length part)%nat → cell h' (vec_start v) (Z.of_nat j) = Some <$> part !! j) as Hin'.
  { intros j Hj. rewrite <- Hin by done. rewrite !cell_start. by apply Hrest. }
  assert (valid h' (vec_start v) (vec_len v) = true) as Hval' by (eapply grows_valid; [exact Hg|by eapply grows_valid]).
  cbn [cut filled]. destruct (decide (vec_len v ≤ Z.of_nat (length data))) as [Hle|Hgt].
  - rewrite !bool_decide_eq_true_2 by lia. rewrite Hlen. constructor.
    + apply load_spec. split; [done|]. split; [rewrite length_take; lia|]. intros j Hj. apply Hin'. lia.
    + rewrite length_drop in Hc'. by replace (Z.of_nat (length data) - vec_len v) with (Z.of_nat (length data - Z.to_nat (vec_len v))) by lia.
  - rewrite (bool_decide_eq_false_2 (vec_len v ≤ _)), (bool_decide_eq_false_2 (length bs ≤ length data)%nat) by lia.
    rewrite drop_ge in Hc' by lia.
    assert (part = data) as Hpd by (unfold part; apply take_ge; lia).
    assert (cut vs 0 = vs ∧ filled bss' [] = bss') as [Hcut Hfil].
    { clear -Hvs. induction Hvs as [|v bs vs bss Hv Hvs [IH1 IH2]]; [done|]. cbn [cut filled length].
      pose proof Hv as (Hval & Hlen & _)%load_spec. apply valid_spec in Hval as (? & _ & _ & ? & _).
      destruct (decide (vec_len v = 0)) as [H0|H0].
      - rewrite !bool_decide_eq_true_2 by lia. rewrite (H0 : vec_len v = 0), Z.sub_0_r, IH1, drop_nil, IH2.
        split; [done|]. by destruct bs; [|cbn in Hlen; lia].
      - rewrite !bool_decide_eq_false_2 by (cbn; lia). done. }
    cbn [length] in Hc'. change (Z.of_nat 0) with 0 in Hc'. rewrite Hcut, Hfil in Hc'. constructor; [|done].
    destruct data as [|z data'] eqn:Hdata.
    + cbn [length]. rewrite bool_decide_eq_false_2, bool_decide_eq_true_2 by done.
      apply load_spec. split; [done|]. split; [done|]. intros j Hj. rewrite <- Hcell by done.
      rewrite !cell_start, Hrest by done. apply Hout. rewrite Hpd. cbn. lia.
    + rewrite bool_decide_eq_true_2, bool_decide_eq_false_2 by (done || cbn; lia). apply load_spec. cbn [vec_len].
      split; [apply (valid_le _ _ (vec_len v)); [done|lia]|]. rewrite Nat2Z.id. split; [done|].
      intros j Hj. rewrite Hpd in Hin'. by apply Hin'.
Qed.

Lemma total_len_contents h vs bss : contents h vs bss → total_len (iovecs (VecBuf_from vs)) = Z.of_nat (length (concat bss)).
Proof.
  induction 1 as [|v bs vs bss Hv Hvs IH]; [done|]. apply load_spec in Hv as (Hval & Hlen & _).
  apply valid_spec in Hval as (_ & _ & _ & ? & _).
  cbn [concat]. rewrite length_app, Nat2Z.inj_add, <- IH.
  change (total_len (iovecs (VecBuf_from (v :: vs)))) with (vec_len v + total_len (iovecs (VecBuf_from vs))). lia.
Qed.

(** A vectored read into vectors of different allocations fills them one after
    the other with the bytes it got; the vector the last byte is in is cut off
    there, and those after it stay as they were. Nothing else changes. *)
Theorem readv_fills h vs bss data :
  contents h vs bss → NoDup (vec_ptr <$> vs) → Forall (λ v, vec_len v ≤ vec_cap v) vs →
  let got := take (length (concat bss)) data in
  ∃ vb' h', readv_run (VecBuf_from vs) data h = Ret (Ok_ (Z.of_nat (length got)), vb', h') ∧
    contents h' (VecBuf_into vb') (filled bss got) ∧
    ∀ b, b ∉ vec_ptr <$> vs → ∀ o, cell h' (MkPtr b o) 0 = cell h (MkPtr b o) 0.
Proof.
  intros Hc Hnd Hok got. destruct (scatter_spec vs h bss got Hc Hnd) as (h' & Hs & _ & Hout & Hc').
  exists (MkVecBuf (iovecs (VecBuf_from vs)) (cut vs (Z.of_nat (length got)))), h'. split; [|done].
  unfold readv_run. cbn [write_iovecs vec_set_init VecBuf_io_vec_buf_mut].
  rewrite (total_len_contents h vs bss), Nat2Z.id by done. fold got. rewrite Hs. cbn [mbind outcome_bind].
  unfold VecBuf_set_init. pose proof (set_init_loop_cut vs [] (Z.of_nat (length got)) Hok) as Hloop. cbn [length app] in Hloop.
  change (raw (VecBuf_from vs)) with vs. rewrite Hloop. done.
Qed.

Lemma Vecs_clone_raw vs : ∀ h vs' h', Vecs_clone vs h = Ret (vs', h') → length vs' = length vs.
Proof.
  induction vs as [|v vs IH]; intros h vs' h'; cbn [Vecs_clone]; [by intros [= <- <-]|].
  intros Hr. apply bind_Ret in Hr as ([v' h1] & _ & Hr). apply bind_Ret in Hr as ([vs1 h2] & Hr & [= <- <-]).
  cbn. f_equal. by eapply IH.
Qed.
Lemma Vecs_drop_gone vs : ∀ h h' b, Vecs_drop vs h = Ret h' → b ∈ vec_ptr <$> vs ∨ blocks h !! b = None → blocks h' !! b = None.
Proof.
  induction vs as [|v vs IH]; intros h h' b; cbn [Vecs_drop].
  { intros [= <-] [Hin|?]; [by apply elem_of_nil in Hin|done]. }
  intros Hr. apply bind_Ret in Hr as (h1 & Hd & Hr). unfold Vec_drop, free in Hd.
  destruct (blocks h !! vec_ptr v); [|done]. injection Hd as <-. cbn [fmap list_fmap].
  intros Hb. apply (IH _ _ b Hr). cbn [blocks]. destruct Hb as [[->|?]%elem_of_cons|?]; [|by left|].
  - right. apply lookup_delete_eq.
  - right. apply lookup_delete_None. by right.
Qed.

(** [Clone] of a [VecBuf] copies the vectors but keeps the iovecs: once the
    original is gone, the clone hands pointers to freed memory to the kernel. *)
Theorem vecbuf_clone_dangles v vs h vb' h1 h2 z data :
  0 < vec_len v →
  VecBuf_clone (VecBuf_from (v :: vs)) h = Ret (vb', h1) →
  VecBuf_drop (VecBuf_from (v :: vs)) h1 = Ret h2 →
  length (VecBuf_into vb') = length (v :: vs) ∧
  writev_bytes vb' h2 = UB ∧ readv_run vb' (z :: data) h2 = UB.
Proof.
  intros Hlen Hclone Hdrop. unfold VecBuf_clone in Hclone. apply bind_Ret in Hclone as ([raw' h1'] & Hr & [= <- <-]).
  split; [by apply Vecs_clone_raw in Hr|].
  assert (blocks h2 !! vec_ptr v = None) as Hgone by (apply (Vecs_drop_gone _ _ _ _ Hdrop); left; apply list_elem_of_here).
  assert (∀ n, valid h2 (MkPtr (vec_ptr v) 0) n = false) as Hv by (intros n; unfold valid; cbn [block]; by rewrite Hgone).
  split.
  - unfold writev_bytes. cbn. unfold load. by rewrite Hv.
  - unfold readv_run. cbn -[take]. unfold store. by rewrite Hv.
Qed.
End vectored.

(** ** Witnesses *)

Section witnesses.
#[local] Instance demo_build : Build := true.

(** A vector [0..5] of capacity 8, and two vectors. *)
Definition demo_heap : Heap :=
  MkHeap {[0%nat := [Some 0; Some 1; Some 2; Some 3; Some 4; Some 5; None; None];
           1%nat := [Some 10; Some 11]; 2%nat := [Some 20; Some 21; Some 22]]} 3.
Definition demo_vec : Vec := MkVec 0 6 8.
Definition demo_vecs : list Vec := [MkVec 1 2 2; MkVec 2 3 3].

Lemma demo_vec_ok : buf_ok demo_heap demo_vec.
Proof.
  split; [cbn; lia|]. split; [cbn; lia|]. split; [done|]. intros j Hj. cbn [vec_len demo_vec] in Hj.
  unfold cell. cbn. rewrite bool_decide_eq_true_2 by lia.
  assert (j = 0 ∨ j = 1 ∨ j = 2 ∨ j = 3 ∨ j = 4 ∨ j = 5) as Hj' by lia.
  destruct Hj' as [-> | [-> | [-> | [-> | [-> | ->]]]]]; by eexists.
Defined.

(** Three bytes are read into [1..5] of [1..8] of the vector. *)
Definition demo_inner : SliceMut Vec := MkSliceMut demo_vec 1 8.
Definition demo_nested : SliceMut (SliceMut Vec) := MkSliceMut demo_inner 1 5.
Lemma read_at_fills_witness :
  IoBufMut_slice_mut (Included 1) Unbounded demo_vec = Ret demo_inner ∧
  IoBufMut_slice_mut (Excluded 0) (Included 4) demo_inner = Ret demo_nested ∧
  ∃ buf' h' n, read_at_run demo_nested 0 [97; 98; 99] demo_heap = Ret (Ok_ 3, buf', h') ∧ bytes_init buf' = Ret n ∧ 3 ≤ n ∧
    load h' (MkPtr 0 2) 3 = Ret [97; 98; 99].
Proof.
  split; [vm_compute; reflexivity|]. split; [vm_compute; reflexivity|].
  destruct (read_at_fills demo_heap demo_nested 0 [97; 98; 99] (MkPtr 0 2) 4) as (buf' & h' & n & Hr & _ & _ & _ & Hn & Hle & Hl & _);
    [|vm_compute; reflexivity..|by exists buf', h', n].
  split; [split; [exact demo_vec_ok|exists 6, 8; repeat split; cbn; lia]|]. exists 5, 7. repeat split; cbn; lia.
Defined.

Lemma slice_is_subrange_witness :
  ∃ s, IoBuf_slice (Included 2) (Excluded 5) demo_vec = Ret s ∧ write_at_bytes s 0 demo_heap = Ret [2; 3; 4].
Proof.
  destruct (slice_is_subrange demo_heap demo_vec 2 5 (MkPtr 0 0) 6 [0; 1; 2; 3; 4; 5]) as (s & Hs & _ & _ & Hw);
    [exact demo_vec_ok|vm_compute; reflexivity..|vm_compute; discriminate|vm_compute; discriminate|].
  exists s. split; [exact Hs|]. exact (Hw 0).
Defined.

Lemma demo_contents : contents demo_heap demo_vecs [[10; 11]; [20; 21; 22]].
Proof. repeat constructor. Defined.
Lemma writev_sees_all_witness : writev_bytes (VecBuf_from demo_vecs) demo_heap = Ret [10; 11; 20; 21; 22].
Proof. exact (writev_sees_all demo_heap demo_vecs _ demo_contents). Defined.

Lemma readv_fills_witness :
  ∃ vb' h', readv_run (VecBuf_from demo_vecs) [1; 2; 3] demo_heap = Ret (Ok_ 3, vb', h') ∧
    contents h' (VecBuf_into vb') [[1; 2]; [3]].
Proof.
  destruct (readv_fills demo_heap demo_vecs [[10; 11]; [20; 21; 22]] [1; 2; 3]) as (vb' & h' & Hr & Hc & _);
    [exact demo_contents|apply (bool_decide_unpack _); vm_compute; exact I|repeat constructor; cbn; lia|by exists vb', h'].
Defined.

Lemma vecbuf_clone_dangles_witness :
  ∃ vb' h1 h2, VecBuf_clone (VecBuf_from demo_vecs) demo_heap = Ret (vb', h1) ∧
    VecBuf_drop (VecBuf_from demo_vecs) h1 = Ret h2 ∧ writev_bytes vb' h2 = UB.
Proof.
  destruct (VecBuf_clone (VecBuf_from demo_vecs) demo_heap) as [[vb' h1]| |] eqn:Hc; [|discriminate Hc..].
  destruct (VecBuf_drop (VecBuf_from demo_vecs) h1) as [h2| |] eqn:Hd; [|vm_compute in Hc; injection Hc as <- <-; discriminate Hd..].
  exists vb', h1, h2. split; [reflexivity|]. split; [exact Hd|].
  apply (vecbuf_clone_dangles _ _ demo_heap vb' h1 h2 7 []) in Hd as (_ & Hw & _); [exact Hw|vm_compute; reflexivity|exact Hc].
Defined.
End witnesses.
