(* ===== verification/TaskState.v ===== *)
(** * TaskState: the atomic state word of a task ([runtime/src/task/state.rs])

    [Snapshot] is the [usize] of the code, with its flag bits and the reference
    count above them; the transitions are the closures given to the
    compare-and-swap loops [fetch_update] and [fetch_update_action], which run
    against an environment that may change the word before each access.

    The specification is the record [Flags]: every transition is shown to be the
    obvious update of that record, and the loops to be linearisable. *)

From stdpp Require Import numbers list.
From S2P Require Import Prelude.

Local Open Scope Z_scope.

(** [!x] on a [w]-bit integer. *)
Definition bnot (w z : Z) : Z := Z.lxor z (Z.ones w).

Definition RUNNING : Z := 1.
Definition COMPLETE : Z := 2.
Definition LIFECYCLE_MASK : Z := 3.
Definition NOTIFIED : Z := 4.
Definition JOIN_INTEREST : Z := 8.
Definition JOIN_WAKER : Z := 16.
Definition STATE_MASK : Z :=
  Z.lor (Z.lor (Z.lor LIFECYCLE_MASK NOTIFIED) JOIN_INTEREST) JOIN_WAKER.
Definition REF_COUNT_MASK : Z := bnot 64 STATE_MASK.
(** [count_zeros]: the unset bits among the 64. *)
Definition count_zeros (z : Z) : Z :=
  Z.of_nat (length (filter (λ i, Z.testbit z i = false) (seqZ 0 64))).
Definition REF_COUNT_SHIFT : Z := count_zeros REF_COUNT_MASK.
Definition REF_ONE : Z := Z.shiftl 1 REF_COUNT_SHIFT.
Definition INITIAL_STATE : Z := Z.lor (Z.lor (REF_ONE * 2) JOIN_INTEREST) NOTIFIED.
Definition ISIZE_MAX : Z := 2 ^ 63 - 1.

Definition Snapshot : Type := Z.

Inductive TransitionToIdle : Type := IdleOk | IdleOkNotified.
Inductive TransitionToNotified : Type := DoNothing | Submit.
(** [UpdateResult] = [Result<Snapshot, Snapshot>]. *)
Inductive UpdateResult : Type := UpdateOk (next : Snapshot) | UpdateErr (curr : Snapshot).

(** ** [impl Snapshot] *)

Section snapshot.
Implicit Types z : Snapshot.

Definition is_idle z : bool := Z.land z (Z.lor RUNNING COMPLETE) =? 0.
Definition is_notified z : bool := Z.land z NOTIFIED =? NOTIFIED.
Definition unset_notified z : Snapshot := Z.land z (bnot 64 NOTIFIED).
Definition set_notified z : Snapshot := Z.lor z NOTIFIED.
Definition is_running z : bool := Z.land z RUNNING =? RUNNING.
Definition set_running z : Snapshot := Z.lor z RUNNING.
Definition unset_running z : Snapshot := Z.land z (bnot 64 RUNNING).
Definition is_complete z : bool := Z.land z COMPLETE =? COMPLETE.
Definition is_join_interested z : bool := Z.land z JOIN_INTEREST =? JOIN_INTEREST.
Definition unset_join_interested z : Snapshot := Z.land z (bnot 64 JOIN_INTEREST).
Definition has_join_waker z : bool := Z.land z JOIN_WAKER =? JOIN_WAKER.
Definition set_join_waker z : Snapshot := Z.lor z JOIN_WAKER.
Definition unset_join_waker z : Snapshot := Z.land z (bnot 64 JOIN_WAKER).
Definition ref_count z : Z := Z.shiftr (Z.land z REF_COUNT_MASK) REF_COUNT_SHIFT.
End snapshot.

(** ** The compare-and-swap loops

    [env i] is what other threads do to the word just before this thread's
    [i]-th access; [None] means the loop is still retrying after [fuel]
    rounds. *)

Definition environment : Type := nat → Snapshot → Snapshot.
Definition quiet : environment := λ _ z, z.

Section loops.
Context {T : Type} (env : environment).

Fixpoint fetch_update_action_loop (fuel i : nat) (f : Snapshot → outcome (T * option Snapshot))
    (curr cell : Snapshot) : outcome (option T * Snapshot) :=
  match fuel with
  | O => Ret (None, cell)
  | S fuel =>
      '(output, next) ← f curr;
      match next with
      | None => Ret (Some output, cell)
      | Some next =>
          let cell := env i cell in
          if cell =? curr then Ret (Some output, next)
          else fetch_update_action_loop fuel (S i) f cell cell
      end
  end.

Definition fetch_update_action (fuel : nat) (f : Snapshot → outcome (T * option Snapshot))
    (cell : Snapshot) : outcome (option T * Snapshot) :=
  let cell := env 0%nat cell in
  fetch_update_action_loop fuel 1 f cell cell.
End loops.

Section loops_result.
Context (env : environment).

Fixpoint fetch_update_loop (fuel i : nat) (f : Snapshot → outcome (option Snapshot))
    (curr cell : Snapshot) : outcome (option UpdateResult * Snapshot) :=
  match fuel with
  | O => Ret (None, cell)
  | S fuel =>
      next ← f curr;
      match next with
      | None => Ret (Some (UpdateErr curr), cell)
      | Some next =>
          let cell := env i cell in
          if cell =? curr then Ret (Some (UpdateOk next), next)
          else fetch_update_loop fuel (S i) f cell cell
      end
  end.

Definition fetch_update (fuel : nat) (f : Snapshot → outcome (option Snapshot))
    (cell : Snapshot) : outcome (option UpdateResult * Snapshot) :=
  let cell := env 0%nat cell in
  fetch_update_loop fuel 1 f cell cell.
End loops_result.

(** ** [impl State]

    The closure of each transition carries the method's name with the suffix
    [_f]; the method runs it in the loop. *)

Section transitions.
Context `{B : Build}.
Implicit Types curr : Snapshot.

Definition State_new : Snapshot := INITIAL_STATE.

Definition transition_to_running_f curr : outcome (unit * option Snapshot) :=
  _ ← debug_assert (is_notified curr);
  _ ← debug_assert (is_idle curr);
  Ret (tt, Some (unset_notified (set_running curr))).

Definition transition_to_idle_f curr : outcome (TransitionToIdle * option Snapshot) :=
  _ ← debug_assert (is_running curr);
  let curr := unset_running curr in
  let action := if is_notified curr then IdleOkNotified else IdleOk in
  Ret (action, Some curr).

(** [fetch_xor] is one atomic access. *)
Definition transition_to_complete curr : outcome (Snapshot * Snapshot) :=
  let DELTA := Z.lor RUNNING COMPLETE in
  let cell := Z.lxor curr DELTA in
  _ ← debug_assert (is_running curr);
  _ ← debug_assert (negb (is_complete curr));
  Ret (Z.lxor curr DELTA, cell).

Definition transition_to_notified_without_submit_f curr : outcome (bool * option Snapshot) :=
  if is_running curr then Ret (true, Some (set_notified curr))
  else if is_complete curr || is_notified curr then Ret (true, Some curr)
  else Ret (false, Some curr).

Definition transition_to_notified_f curr : outcome (TransitionToNotified * option Snapshot) :=
  if is_running curr then Ret (DoNothing, Some (set_notified curr))
  else if is_complete curr || is_notified curr then Ret (DoNothing, Some curr)
  else Ret (Submit, Some (set_notified curr)).

(** A load, then a store: two accesses. *)
Definition drop_join_handle_fast (env : environment) curr : bool * Snapshot :=
  let cell := env 0%nat curr in
  if cell =? INITIAL_STATE
  then (* the store overwrites whatever [env 1] did *)
       (true, Z.land (INITIAL_STATE - REF_ONE) (bnot 64 JOIN_INTEREST))
  else (false, cell).

Definition unset_join_interested_f curr : outcome (option Snapshot) :=
  _ ← assert_ (is_join_interested curr);
  if is_complete curr then Ret None else Ret (Some (unset_join_interested curr)).

Definition set_join_waker_f curr : outcome (option Snapshot) :=
  _ ← assert_ (is_join_interested curr);
  _ ← assert_ (negb (has_join_waker curr));
  if is_complete curr then Ret None else Ret (Some (set_join_waker curr)).

Definition unset_waker_f curr : outcome (option Snapshot) :=
  _ ← assert_ (is_join_interested curr);
  _ ← assert_ (has_join_waker curr);
  if is_complete curr then Ret None else Ret (Some (unset_join_waker curr)).

(** The methods themselves. *)
Section methods.
Context (env : environment) (fuel : nat).

Definition transition_to_running := fetch_update_action env fuel transition_to_running_f.
Definition transition_to_idle := fetch_update_action env fuel transition_to_idle_f.
Definition transition_to_notified_without_submit :=
  fetch_update_action env fuel transition_to_notified_without_submit_f.
Definition transition_to_notified := fetch_update_action env fuel transition_to_notified_f.
Definition State_unset_join_interested := fetch_update env fuel unset_join_interested_f.
Definition State_set_join_waker := fetch_update env fuel set_join_waker_f.
Definition unset_waker := fetch_update env fuel unset_waker_f.
End methods.

(** [fetch_add] wraps; the abort on overflow is a [Panic] of the model. *)
Definition ref_inc curr : outcome Snapshot :=
  let cell := wrap 64 (curr + REF_ONE) in
  if ISIZE_MAX <? curr then Panic else Ret cell.

Definition ref_dec curr : outcome (bool * Snapshot) :=
  let cell := wrap 64 (curr - REF_ONE) in
  _ ← debug_assert (1 <=? ref_count curr);
  Ret (ref_count curr =? 1, cell).
End transitions.

(** ** The specification: flags and a reference count *)

Record Flags : Type := mkFlags {
  running : bool;
  complete : bool;
  notified : bool;
  join_interest : bool;
  join_waker : bool;
  refs : Z;
}.

#[export] Instance Flags_eq_dec : EqDecision Flags.
Proof. solve_decision. Defined.

Ltac flags_simpl :=
  cbn [running complete notified join_interest join_waker refs] in *.

Definition decode (z : Snapshot) : Flags :=
  mkFlags (Z.testbit z 0) (Z.testbit z 1) (Z.testbit z 2) (Z.testbit z 3) (Z.testbit z 4)
          (Z.shiftr z 5).

Definition encode (f : Flags) : Snapshot :=
  Z.b2z (running f) + 2 * Z.b2z (complete f) + 4 * Z.b2z (notified f) +
  8 * Z.b2z (join_interest f) + 16 * Z.b2z (join_waker f) + 32 * refs f.

(** A [usize]; the reference count has the 59 remaining bits. *)
Definition usize (z : Z) : Prop := 0 ≤ z < 2 ^ 64.
Definition Flags_ok (f : Flags) : Prop := 0 ≤ refs f < 2 ^ 59.

Section bits.
Local Lemma b2z_bounds b : 0 ≤ Z.b2z b ≤ 1.
Proof. by destruct b. Qed.

Lemma encode_low f : encode f = Z.b2z (running f) + 2 * (Z.b2z (complete f) +
  2 * (Z.b2z (notified f) + 2 * (Z.b2z (join_interest f) + 2 * (Z.b2z (join_waker f) + 2 * refs f)))).
Proof. unfold encode. lia. Qed.

Lemma testbit_b2z b m i :
  Z.testbit (Z.b2z b + 2 * m) i = if i =? 0 then b else Z.testbit m (i - 1).
Proof.
  rewrite Z.add_comm. destruct (Z.eqb_spec i 0) as [->|]; [apply Z.testbit_0_r|].
  destruct (decide (i < 0)); [by rewrite !Z.testbit_neg_r by lia|].
  replace i with (Z.succ (i - 1)) at 1 by lia. apply Z.testbit_succ_r. lia.
Qed.
Lemma shiftr_b2z b m i : 0 < i → Z.shiftr (Z.b2z b + 2 * m) i = Z.shiftr m (i - 1).
Proof.
  intros. replace i with (1 + (i - 1)) at 1 by lia. rewrite <- Z.shiftr_shiftr by lia. f_equal.
  rewrite Z.shiftr_div_pow2 by lia. pose proof (b2z_bounds b). symmetry.
  apply (Z.div_unique_pos _ _ _ (Z.b2z b)); lia.
Qed.

Lemma decode_encode f : decode (encode f) = f.
Proof.
  destruct f. unfold decode. rewrite encode_low. flags_simpl.
  rewrite !testbit_b2z. rewrite !shiftr_b2z by lia. by rewrite Z.shiftr_0_r.
Qed.

Lemma encode_decode z : encode (decode z) = z.
Proof.
  rewrite encode_low. unfold decode. flags_simpl.
  apply Z.bits_inj'. intros i Hi. rewrite !testbit_b2z.
  repeat match goal with
  | |- context [?a =? 0] => destruct (Z.eqb_spec a 0); [f_equal; lia|]
  end. rewrite Z.shiftr_spec by lia. f_equal. lia.
Qed.
End bits.

(** ** Each bit operation is an update of one field *)

Section fields.
Implicit Types z : Snapshot.

Lemma usize_refs z : usize z → 0 ≤ Z.shiftr z 5 < 2 ^ 59.
Proof.
  unfold usize. intros. rewrite Z.shiftr_div_pow2 by lia.
  split; [apply Z.div_pos; lia|apply Z.div_lt_upper_bound; lia].
Qed.
Lemma usize_high z i : usize z → 64 ≤ i → Z.testbit z i = false.
Proof.
  intros [Hz1 Hz2] Hi. apply Z.bits_above_log2; [done|].
  destruct (decide (z = 0)) as [->|]; [simpl; lia|].
  assert (Z.log2 z < 64) by (apply Z.log2_lt_pow2; lia). lia.
Qed.

(** Equality of field records from equality of bits. *)
Lemma decode_ext z f :
  Z.testbit z 0 = running f → Z.testbit z 1 = complete f → Z.testbit z 2 = notified f →
  Z.testbit z 3 = join_interest f → Z.testbit z 4 = join_waker f →
  (∀ i, 5 ≤ i → Z.testbit z i = Z.testbit (refs f) (i - 5)) → decode z = f.
Proof.
  intros H0 H1 H2 H3 H4 H5. destruct f as [? ? ? ? ? r]. unfold decode. simpl in *.
  f_equal; [done..|]. apply Z.bits_inj'. intros i Hi. rewrite Z.shiftr_spec by lia.
  rewrite H5 by lia. f_equal. lia.
Qed.

Lemma testbit_lor_pow2 z k i : 0 ≤ k → Z.testbit (Z.lor z (2 ^ k)) i = Z.testbit z i || (k =? i).
Proof. intros. by rewrite Z.lor_spec, Z.pow2_bits_eqb. Qed.

Lemma testbit_land_bnot z k i : usize z → 0 ≤ k < 64 → 0 ≤ i →
  Z.testbit (Z.land z (bnot 64 (2 ^ k))) i = Z.testbit z i && negb (k =? i).
Proof.
  intros Hz Hk Hi. unfold bnot. rewrite Z.land_spec, Z.lxor_spec, Z.pow2_bits_eqb by lia.
  destruct (decide (i < 64)).
  - rewrite Z.ones_spec_low by lia. done.
  - by rewrite usize_high by (done || lia).
Qed.

Lemma land_pow2_eqb z k : 0 ≤ k → (Z.land z (2 ^ k) =? 2 ^ k) = Z.testbit z k.
Proof.
  intros Hk. destruct (Z.testbit z k) eqn:Hb.
  - apply Z.eqb_eq, Z.bits_inj'. intros i Hi. rewrite Z.land_spec, Z.pow2_bits_eqb by done.
    destruct (Z.eqb_spec k i) as [<-|]; [by rewrite Hb|]. by rewrite andb_false_r.
  - apply Z.eqb_neq. intros Heq. apply (f_equal (λ x, Z.testbit x k)) in Heq.
    by rewrite Z.land_spec, Hb, Z.pow2_bits_true in Heq.
Qed.

Lemma is_running_decode z : is_running z = running (decode z).
Proof. by apply (land_pow2_eqb z 0). Qed.
Lemma is_complete_decode z : is_complete z = complete (decode z).
Proof. apply (land_pow2_eqb z 1). lia. Qed.
Lemma is_notified_decode z : is_notified z = notified (decode z).
Proof. apply (land_pow2_eqb z 2). lia. Qed.
Lemma is_join_interested_decode z : is_join_interested z = join_interest (decode z).
Proof. apply (land_pow2_eqb z 3). lia. Qed.
Lemma has_join_waker_decode z : has_join_waker z = join_waker (decode z).
Proof. apply (land_pow2_eqb z 4). lia. Qed.

Lemma is_idle_decode z :
  is_idle z = negb (running (decode z)) && negb (complete (decode z)).
Proof.
  unfold is_idle, decode. cbn [running complete].
  change (Z.lor RUNNING COMPLETE) with 3.
  destruct (Z.testbit z 0) eqn:H0, (Z.testbit z 1) eqn:H1; simpl.
  4: { apply Z.eqb_eq, Z.bits_inj'. intros i Hi. rewrite Z.land_spec, Z.bits_0.
       destruct (decide (i = 0)) as [->|]; [by rewrite H0|].
       destruct (decide (i = 1)) as [->|]; [by rewrite H1|].
       rewrite (Z.bits_above_log2 3); [apply andb_false_r|lia|]. simpl. lia. }
  all: apply Z.eqb_neq; intros Heq.
  1,2: apply (f_equal (λ x, Z.testbit x 0)) in Heq; by rewrite Z.land_spec, H0 in Heq.
  apply (f_equal (λ x, Z.testbit x 1)) in Heq. by rewrite Z.land_spec, H1 in Heq.
Qed.

Lemma REF_COUNT_SHIFT_eq : REF_COUNT_SHIFT = 5.
Proof. by vm_compute. Qed.

Lemma ref_count_decode z : usize z → ref_count z = refs (decode z).
Proof.
  intros Hz. unfold ref_count. rewrite REF_COUNT_SHIFT_eq. simpl.
  apply Z.bits_inj'. intros i Hi. rewrite !Z.shiftr_spec, Z.land_spec by lia.
  destruct (decide (i + 5 < 64)); [|by rewrite usize_high by (done || lia)].
  unfold REF_COUNT_MASK, bnot. rewrite Z.lxor_spec, Z.ones_spec_low by lia.
  rewrite (Z.bits_above_log2 STATE_MASK); [by rewrite andb_true_r|done|].
  change (Z.log2 STATE_MASK) with 4. lia.
Qed.
End fields.

(** ** Refinement of the transitions *)

Inductive state_op : Type :=
  | OpToRunning | OpToIdle | OpToComplete | OpToNotifiedWithoutSubmit | OpToNotified
  | OpDropJoinFast | OpUnsetJoinInterested | OpSetJoinWaker | OpUnsetWaker | OpRefInc | OpRefDec.

(** What a transition returns; [A] is the type of state words or of flags. *)
Inductive state_ret (A : Type) : Type :=
  | RetUnit
  | RetIdle (a : TransitionToIdle)
  | RetNotified (a : TransitionToNotified)
  | RetBool (b : bool)
  | RetSnapshot (a : A)
  | RetOk (a : A)
  | RetErr (a : A).
Arguments RetUnit {A}.
Arguments RetIdle {A} _.
Arguments RetNotified {A} _.
Arguments RetBool {A} _.
Arguments RetSnapshot {A} _.
Arguments RetOk {A} _.
Arguments RetErr {A} _.

Definition state_ret_map {A C} (g : A → C) (r : state_ret A) : state_ret C :=
  match r with
  | RetUnit => RetUnit | RetIdle a => RetIdle a | RetNotified a => RetNotified a
  | RetBool b => RetBool b | RetSnapshot a => RetSnapshot (g a)
  | RetOk a => RetOk (g a) | RetErr a => RetErr (g a)
  end.

Section refinement.
Context `{B : Build}.

Definition done_in {T A} (m : outcome (option T * Snapshot)) (g : T → state_ret A)
    : outcome (option (state_ret A) * Snapshot) :=
  '(r, cell) ← m; Ret (option_map g r, cell).

Definition of_update (u : UpdateResult) : state_ret Snapshot :=
  match u with UpdateOk s => RetOk s | UpdateErr s => RetErr s end.

(** Every method, run against [env]; [None]: still retrying. *)
Definition run_op (env : environment) (fuel : nat) (op : state_op) (cell : Snapshot)
    : outcome (option (state_ret Snapshot) * Snapshot) :=
  match op with
  | OpToRunning => done_in (transition_to_running env fuel cell) (λ _, RetUnit)
  | OpToIdle => done_in (transition_to_idle env fuel cell) RetIdle
  | OpToComplete =>
      '(s, cell) ← transition_to_complete (env 0%nat cell); Ret (Some (RetSnapshot s), cell)
  | OpToNotifiedWithoutSubmit =>
      done_in (transition_to_notified_without_submit env fuel cell) RetBool
  | OpToNotified => done_in (transition_to_notified env fuel cell) RetNotified
  | OpDropJoinFast =>
      let '(b, cell) := drop_join_handle_fast env cell in Ret (Some (RetBool b), cell)
  | OpUnsetJoinInterested => done_in (State_unset_join_interested env fuel cell) of_update
  | OpSetJoinWaker => done_in (State_set_join_waker env fuel cell) of_update
  | OpUnsetWaker => done_in (unset_waker env fuel cell) of_update
  | OpRefInc => cell ← ref_inc (env 0%nat cell); Ret (Some RetUnit, cell)
  | OpRefDec => '(b, cell) ← ref_dec (env 0%nat cell); Ret (Some (RetBool b), cell)
  end.

(** The same, on the record of flags. *)
Definition spec_op (op : state_op) (f : Flags) : outcome (state_ret Flags * Flags) :=
  let 'mkFlags r c n ji jw k := f in
  match op with
  | OpToRunning =>
      _ ← debug_assert (n && negb r && negb c);
      Ret (RetUnit, mkFlags true c false ji jw k)
  | OpToIdle =>
      _ ← debug_assert r;
      Ret (RetIdle (if n then IdleOkNotified else IdleOk), mkFlags false c n ji jw k)
  | OpToComplete =>
      _ ← debug_assert (r && negb c);
      let f' := mkFlags (negb r) (negb c) n ji jw k in Ret (RetSnapshot f', f')
  | OpToNotifiedWithoutSubmit =>
      Ret (RetBool (r || c || n), mkFlags r c (r || n) ji jw k)
  | OpToNotified =>
      Ret (RetNotified (if r || c || n then DoNothing else Submit),
           mkFlags r c (r || n || negb c) ji jw k)
  | OpDropJoinFast =>
      if bool_decide (f = mkFlags false false true true false 2)
      then Ret (RetBool true, mkFlags false false true false false 1)
      else Ret (RetBool false, f)
  | OpUnsetJoinInterested =>
      _ ← assert_ ji;
      if c then Ret (RetErr f, f)
      else let f' := mkFlags r c n false jw k in Ret (RetOk f', f')
  | OpSetJoinWaker =>
      _ ← assert_ (ji && negb jw);
      if c then Ret (RetErr f, f)
      else let f' := mkFlags r c n ji true k in Ret (RetOk f', f')
  | OpUnsetWaker =>
      _ ← assert_ (ji && jw);
      if c then Ret (RetErr f, f)
      else let f' := mkFlags r c n ji false k in Ret (RetOk f', f')
  | OpRefInc =>
      if bool_decide (2 ^ 58 ≤ k) then Panic else Ret (RetUnit, mkFlags r c n ji jw (k + 1))
  | OpRefDec =>
      _ ← debug_assert (bool_decide (1 ≤ k));
      Ret (RetBool (bool_decide (k = 1)), mkFlags r c n ji jw ((k - 1) `mod` 2 ^ 59))
  end.
End refinement.

Section field_updates.
Implicit Types z : Snapshot.

Lemma usize_bits z : 0 ≤ z → (∀ i, 64 ≤ i → Z.testbit z i = false) → usize z.
Proof.
  intros Hz Hb. split; [done|]. replace z with (Z.land z (Z.ones 64)).
  { rewrite Z.land_ones by lia. by apply Z.mod_pos_bound. }
  apply Z.bits_inj'. intros i Hi. rewrite Z.land_spec. destruct (decide (i < 64)).
  - rewrite Z.ones_spec_low by lia. apply andb_true_r.
  - rewrite Hb by lia. done.
Qed.

Lemma usize_lor z k : usize z → 0 ≤ k < 64 → usize (Z.lor z (2 ^ k)).
Proof.
  intros Hz Hk. apply usize_bits.
  - apply Z.lor_nonneg. split; [apply Hz|]. apply Z.pow_nonneg. lia.
  - intros i Hi. rewrite testbit_lor_pow2 by lia. rewrite (usize_high z i) by (done || lia).
    simpl. apply Z.eqb_neq. lia.
Qed.
Lemma usize_land_bnot z k : usize z → 0 ≤ k < 64 → usize (Z.land z (bnot 64 (2 ^ k))).
Proof.
  intros Hz Hk. apply usize_bits.
  - apply Z.land_nonneg. left. apply Hz.
  - intros i Hi. rewrite testbit_land_bnot by (done || lia).
    by rewrite (usize_high z i) by (done || lia).
Qed.

(** Setting and clearing bit [k], field by field. *)
Definition set_field (k : Z) (b : bool) (f : Flags) : Flags :=
  let 'mkFlags r c n ji jw m := f in
  mkFlags (if k =? 0 then b else r) (if k =? 1 then b else c) (if k =? 2 then b else n)
          (if k =? 3 then b else ji) (if k =? 4 then b else jw) m.

Lemma decode_lor z k : 0 ≤ k < 5 → decode (Z.lor z (2 ^ k)) = set_field k true (decode z).
Proof.
  intros Hk. apply decode_ext; unfold set_field, decode; flags_simpl; rewrite ?testbit_lor_pow2 by lia.
  1-5: case_match; [apply orb_true_r|apply orb_false_r].
  intros i Hi. rewrite testbit_lor_pow2 by lia. rewrite Z.shiftr_spec by lia.
  destruct (Z.eqb_spec k i); [lia|]. rewrite orb_false_r. f_equal. lia.
Qed.

Lemma decode_land_bnot z k :
  usize z → 0 ≤ k < 5 → decode (Z.land z (bnot 64 (2 ^ k))) = set_field k false (decode z).
Proof.
  intros Hz Hk. apply decode_ext; unfold set_field, decode; flags_simpl;
    rewrite ?testbit_land_bnot by (done || lia).
  1-5: case_match; [apply andb_false_r|apply andb_true_r].
  intros i Hi. rewrite testbit_land_bnot by (done || lia). rewrite Z.shiftr_spec by lia.
  destruct (Z.eqb_spec k i); [lia|]. rewrite andb_true_r. f_equal. lia.
Qed.

Lemma decode_lxor_3 z :
  decode (Z.lxor z 3) = set_field 0 (negb (Z.testbit z 0)) (set_field 1 (negb (Z.testbit z 1)) (decode z)).
Proof.
  apply decode_ext; unfold set_field, decode; flags_simpl; rewrite ?Z.lxor_spec.
  1-5: by destruct (Z.testbit z _).
  intros i Hi. rewrite Z.lxor_spec, Z.shiftr_spec by lia.
  rewrite (Z.bits_above_log2 3) by (simpl; lia). rewrite xorb_false_r. f_equal. lia.
Qed.
Lemma usize_lxor_3 z : usize z → usize (Z.lxor z 3).
Proof.
  intros Hz. apply usize_bits; [apply Z.lxor_nonneg; split; intros; [done|apply Hz]|].
  intros i Hi. rewrite Z.lxor_spec, (usize_high z i) by (done || lia).
  by rewrite (Z.bits_above_log2 3) by (simpl; lia).
Qed.

Lemma encode_usize f : Flags_ok f → usize (encode f).
Proof. unfold Flags_ok, usize, encode. intros. destruct f as [[] [] [] [] []]; simpl in *; lia. Qed.
Lemma decode_ok z : usize z → Flags_ok (decode z).
Proof. apply usize_refs. Qed.

Lemma encode_inj_eq z f : decode z = f → z = encode f.
Proof. intros <-. by rewrite encode_decode. Qed.

End field_updates.

(** ** The word operations on an encoded record *)

Section encoded.
Implicit Types f : Flags.

Lemma set_bit_encode k f : 0 ≤ k < 5 → Z.lor (encode f) (2 ^ k) = encode (set_field k true f).
Proof. intros Hk. apply encode_inj_eq. by rewrite decode_lor, decode_encode. Qed.
Lemma clear_bit_encode k f : Flags_ok f → 0 ≤ k < 5 →
  Z.land (encode f) (bnot 64 (2 ^ k)) = encode (set_field k false f).
Proof.
  intros Hf Hk. apply encode_inj_eq. rewrite decode_land_bnot, decode_encode; auto.
  by apply encode_usize.
Qed.

Lemma set_running_encode f : set_running (encode f) = encode (set_field 0 true f).
Proof. by apply (set_bit_encode 0). Qed.
Lemma set_notified_encode f : set_notified (encode f) = encode (set_field 2 true f).
Proof. by apply (set_bit_encode 2). Qed.
Lemma set_join_waker_encode f : set_join_waker (encode f) = encode (set_field 4 true f).
Proof. by apply (set_bit_encode 4). Qed.
Lemma unset_running_encode f :
  Flags_ok f → unset_running (encode f) = encode (set_field 0 false f).
Proof. intros. by apply (clear_bit_encode 0). Qed.
Lemma unset_notified_encode f :
  Flags_ok f → unset_notified (encode f) = encode (set_field 2 false f).
Proof. intros. by apply (clear_bit_encode 2). Qed.
Lemma unset_join_interested_encode f :
  Flags_ok f → unset_join_interested (encode f) = encode (set_field 3 false f).
Proof. intros. by apply (clear_bit_encode 3). Qed.
Lemma unset_join_waker_encode f :
  Flags_ok f → unset_join_waker (encode f) = encode (set_field 4 false f).
Proof. intros. by apply (clear_bit_encode 4). Qed.

Lemma is_running_encode f : is_running (encode f) = running f.
Proof. by rewrite is_running_decode, decode_encode. Qed.
Lemma is_complete_encode f : is_complete (encode f) = complete f.
Proof. by rewrite is_complete_decode, decode_encode. Qed.
Lemma is_notified_encode f : is_notified (encode f) = notified f.
Proof. by rewrite is_notified_decode, decode_encode. Qed.
Lemma is_join_interested_encode f : is_join_interested (encode f) = join_interest f.
Proof. by rewrite is_join_interested_decode, decode_encode. Qed.
Lemma has_join_waker_encode f : has_join_waker (encode f) = join_waker f.
Proof. by rewrite has_join_waker_decode, decode_encode. Qed.
Lemma is_idle_encode f : is_idle (encode f) = negb (running f) && negb (complete f).
Proof. by rewrite is_idle_decode, decode_encode. Qed.
Lemma ref_count_encode f : Flags_ok f → ref_count (encode f) = refs f.
Proof. intros. rewrite ref_count_decode, decode_encode; [done|]. by apply encode_usize. Qed.

Lemma lxor_encode f :
  Z.lxor (encode f) 3 = encode (set_field 0 (negb (running f)) (set_field 1 (negb (complete f)) f)).
Proof.
  apply encode_inj_eq. rewrite decode_lxor_3, decode_encode.
  by rewrite <- is_running_encode, <- is_complete_encode, is_running_decode, is_complete_decode.
Qed.

Lemma encode_add_refs f m :
  encode f + 32 * m = encode (mkFlags (running f) (complete f) (notified f) (join_interest f)
                                      (join_waker f) (refs f + m)).
Proof. unfold encode. flags_simpl. lia. Qed.

Lemma wrap_encode f :
  wrap 64 (encode f) = encode (mkFlags (running f) (complete f) (notified f) (join_interest f)
                                       (join_waker f) (refs f `mod` 2 ^ 59)).
Proof.
  unfold wrap. symmetry. apply (Z.mod_unique_pos _ _ (refs f `div` 2 ^ 59)).
  - apply encode_usize. unfold Flags_ok. flags_simpl. by apply Z.mod_pos_bound.
  - unfold encode. flags_simpl. rewrite (Z.div_mod (refs f) (2 ^ 59)) at 1 by done. lia.
Qed.
End encoded.

Create Rewrite HintDb flags.
#[export] Hint Rewrite set_running_encode set_notified_encode set_join_waker_encode
  is_running_encode is_complete_encode is_notified_encode is_join_interested_encode
  has_join_waker_encode is_idle_encode : flags.

Section atomic.
Context `{B : Build}.

Lemma quiet_action {T} (f : Snapshot → outcome (T * option Snapshot)) z :
  fetch_update_action quiet 1 f z = '(out, next) ← f z; Ret (Some out, default z next).
Proof.
  unfold fetch_update_action. simpl. unfold quiet. destruct (f z) as [[out [next|]]| |]; simpl; try done.
  by rewrite Z.eqb_refl.
Qed.
Lemma quiet_update (f : Snapshot → outcome (option Snapshot)) z :
  fetch_update quiet 1 f z =
    next ← f z; Ret (Some (match next with Some n => UpdateOk n | None => UpdateErr z end),
                     default z next).
Proof.
  unfold fetch_update. simpl. unfold quiet. destruct (f z) as [[next|]| |]; simpl; try done.
  by rewrite Z.eqb_refl.
Qed.

Lemma INITIAL_STATE_encode : INITIAL_STATE = encode (mkFlags false false true true false 2).
Proof. by vm_compute. Qed.

Lemma encode_eqb f g : (encode f =? encode g) = bool_decide (f = g).
Proof.
  case_bool_decide as Heq; [subst; apply Z.eqb_refl|]. apply Z.eqb_neq. intros He. apply Heq.
  by rewrite <- (decode_encode f), He, decode_encode.
Qed.

Definition of_spec (m : outcome (state_ret Flags * Flags))
    : outcome (option (state_ret Snapshot) * Snapshot) :=
  '(r, f) ← m; Ret (Some (state_ret_map encode r), encode f).

Ltac refine_action :=
  unfold done_in, transition_to_running, transition_to_idle, State_unset_join_interested,
    transition_to_notified_without_submit, transition_to_notified,
    State_set_join_waker, unset_waker;
  rewrite ?quiet_action, ?quiet_update;
  unfold transition_to_running_f, transition_to_idle_f, unset_join_interested_f,
    transition_to_notified_without_submit_f, transition_to_notified_f,
    set_join_waker_f, unset_waker_f, of_spec.

Lemma run_op_encode op f :
  Flags_ok f → run_op quiet 1 op (encode f) = of_spec (spec_op op f).
Proof.
  intros Hf. destruct op; unfold run_op; refine_action.
  - autorewrite with flags. rewrite unset_notified_encode by (by destruct f).
    destruct f as [[] [] [] [] [] k]; cbn [spec_op]; unfold debug_assert; destruct debug_assertions; reflexivity.
  - autorewrite with flags. rewrite unset_running_encode by done. autorewrite with flags.
    destruct f as [[] [] [] [] [] k]; cbn [spec_op]; unfold debug_assert; destruct debug_assertions; reflexivity.
  - unfold transition_to_complete, quiet. change (Z.lor RUNNING COMPLETE) with 3.
    rewrite lxor_encode. autorewrite with flags.
    destruct f as [[] [] [] [] [] k]; cbn [spec_op]; unfold debug_assert; destruct debug_assertions; reflexivity.
  - autorewrite with flags. destruct f as [[] [] [] [] [] k]; reflexivity.
  - autorewrite with flags. destruct f as [[] [] [] [] [] k]; reflexivity.
  - unfold drop_join_handle_fast, quiet. rewrite INITIAL_STATE_encode, encode_eqb.
    destruct f as [r c n ji jw k]. simpl. case_bool_decide; reflexivity.
  - autorewrite with flags. rewrite unset_join_interested_encode by done.
    destruct f as [[] [] [] [] [] k]; reflexivity.
  - autorewrite with flags. destruct f as [[] [] [] [] [] k]; reflexivity.
  - autorewrite with flags. rewrite unset_join_waker_encode by done.
    destruct f as [[] [] [] [] [] k]; reflexivity.
  - unfold ref_inc, quiet. change REF_ONE with (32 * 1). rewrite encode_add_refs, wrap_encode.
    unfold Flags_ok, ISIZE_MAX in *. destruct f as [r c n ji jw k]. simpl.
    case_bool_decide.
    + destruct (Z.ltb_spec (2 ^ 63 - 1) (encode (mkFlags r c n ji jw k))); [done|].
      unfold encode in *. flags_simpl. destruct r, c, n, ji, jw; simpl in *; lia.
    + destruct (Z.ltb_spec (2 ^ 63 - 1) (encode (mkFlags r c n ji jw k))).
      { unfold encode in *. flags_simpl. destruct r, c, n, ji, jw; simpl in *; lia. }
      simpl in *. by rewrite Z.mod_small by lia.
  - unfold ref_dec, quiet. rewrite ref_count_encode by done.
    replace (encode f - REF_ONE) with (encode f + 32 * -1) by by vm_compute.
    rewrite encode_add_refs, wrap_encode. destruct f as [r c n ji jw k]. flags_simpl. simpl.
    replace (1 <=? k) with (bool_decide (1 ≤ k)) by (case_bool_decide; symmetry;
      [by apply Z.leb_le|by apply Z.leb_gt; lia]).
    replace (k =? 1) with (bool_decide (k = 1)) by (case_bool_decide; symmetry;
      [by apply Z.eqb_eq|by apply Z.eqb_neq]).
    by destruct (debug_assert _).
Qed.

(** *** The methods one by one, on the flags they are called with *)

Definition set_refs (k : Z) (f : Flags) : Flags :=
  mkFlags (running f) (complete f) (notified f) (join_interest f) (join_waker f) k.

Lemma set_refs_id f : set_refs (refs f) f = f.
Proof. by destruct f. Qed.

Lemma transition_to_running_encode f :
  Flags_ok f → notified f = true → running f = false → complete f = false →
  transition_to_running quiet 1 (encode f)
    = Ret (Some tt, encode (set_field 2 false (set_field 0 true f))).
Proof.
  intros Hf Hn Hr Hc. unfold transition_to_running. rewrite quiet_action.
  unfold transition_to_running_f. autorewrite with flags. rewrite Hn, Hr, Hc.
  rewrite !debug_assert_true by done. simpl. rewrite unset_notified_encode; [done|by destruct f].
Qed.

Lemma transition_to_idle_encode f :
  Flags_ok f → running f = true →
  transition_to_idle quiet 1 (encode f)
    = Ret (Some (if notified f then IdleOkNotified else IdleOk), encode (set_field 0 false f)).
Proof.
  intros Hf Hr. unfold transition_to_idle. rewrite quiet_action. unfold transition_to_idle_f.
  rewrite unset_running_encode by done. autorewrite with flags. rewrite Hr.
  rewrite !debug_assert_true by done. by destruct f as [? ? [] ? ? ?].
Qed.

Lemma transition_to_complete_encode f :
  running f = true → complete f = false →
  transition_to_complete (encode f)
    = let z := encode (set_field 1 true (set_field 0 false f)) in Ret (z, z).
Proof.
  intros Hr Hc. unfold transition_to_complete. change (Z.lor RUNNING COMPLETE) with 3.
  rewrite lxor_encode. autorewrite with flags. rewrite Hr, Hc.
  rewrite !debug_assert_true by done. by destruct f.
Qed.

Lemma transition_to_notified_encode f :
  transition_to_notified quiet 1 (encode f)
    = Ret (Some (if running f || complete f || notified f then DoNothing else Submit),
           encode (if running f || negb (complete f) then set_field 2 true f else f)).
Proof.
  unfold transition_to_notified. rewrite quiet_action. unfold transition_to_notified_f.
  autorewrite with flags. destruct f as [[] [] [] ? ? ?]; done.
Qed.

Lemma drop_join_handle_fast_encode f :
  drop_join_handle_fast quiet (encode f)
    = if bool_decide (f = mkFlags false false true true false 2)
      then (true, encode (mkFlags false false true false false 1)) else (false, encode f).
Proof.
  unfold drop_join_handle_fast, quiet. rewrite INITIAL_STATE_encode, encode_eqb.
  case_bool_decide; reflexivity.
Qed.

Lemma unset_join_interested_eq f :
  Flags_ok f → join_interest f = true →
  State_unset_join_interested quiet 1 (encode f)
    = Ret (if complete f then (Some (UpdateErr (encode f)), encode f)
           else (Some (UpdateOk (encode (set_field 3 false f))), encode (set_field 3 false f))).
Proof.
  intros Hf Hj. unfold State_unset_join_interested. rewrite quiet_update.
  unfold unset_join_interested_f. rewrite unset_join_interested_encode by done.
  autorewrite with flags. rewrite Hj. by destruct (complete f).
Qed.

Lemma set_join_waker_eq f :
  join_interest f = true → join_waker f = false →
  State_set_join_waker quiet 1 (encode f)
    = Ret (if complete f then (Some (UpdateErr (encode f)), encode f)
           else (Some (UpdateOk (encode (set_field 4 true f))), encode (set_field 4 true f))).
Proof.
  intros Hj Hw. unfold State_set_join_waker. rewrite quiet_update. unfold set_join_waker_f.
  autorewrite with flags. rewrite Hj, Hw. by destruct (complete f).
Qed.

Lemma unset_waker_eq f :
  Flags_ok f → join_interest f = true → join_waker f = true →
  unset_waker quiet 1 (encode f)
    = Ret (if complete f then (Some (UpdateErr (encode f)), encode f)
           else (Some (UpdateOk (encode (set_field 4 false f))), encode (set_field 4 false f))).
Proof.
  intros Hf Hj Hw. unfold unset_waker. rewrite quiet_update. unfold unset_waker_f.
  rewrite unset_join_waker_encode by done. autorewrite with flags. rewrite Hj, Hw.
  by destruct (complete f).
Qed.

Lemma ref_inc_encode f :
  Flags_ok f → ref_inc (encode f) = Panic ∨
  (refs f < 2 ^ 58 ∧ ref_inc (encode f) = Ret (encode (set_refs (refs f + 1) f))).
Proof.
  intros Hf. pose proof (run_op_encode OpRefInc f Hf) as H. unfold run_op, quiet, of_spec in H.
  destruct (ref_inc (encode f)) as [z| |], f as [r c n ji jw k]; simpl in H;
    case_bool_decide; try done; [right|by left].
  split; [simpl; lia|]. unfold set_refs. flags_simpl. simpl in H. congruence.
Qed.

Lemma ref_dec_encode f :
  Flags_ok f → 1 ≤ refs f →
  ref_dec (encode f) = Ret (bool_decide (refs f = 1), encode (set_refs (refs f - 1) f)).
Proof.
  intros Hf Hk. pose proof (run_op_encode OpRefDec f Hf) as H. unfold run_op, quiet, of_spec in H.
  unfold Flags_ok in Hf.
  destruct (ref_dec (encode f)) as [[b z]| |], f as [r c n ji jw k]; simpl in *.
  all: rewrite (bool_decide_eq_true_2 (1 ≤ k)), debug_assert_true in H by done.
  all: rewrite Z.mod_small in H by lia.
  all: unfold set_refs; flags_simpl; simpl in *; congruence.
Qed.
End atomic.

(** ** Interference *)

Section interference.
Context `{B : Build}.

(** The word just before this thread's [i]-th access, none of the earlier
    accesses having written. *)
Fixpoint word_at (env : environment) (i : nat) (cell : Snapshot) : Snapshot :=
  match i with
  | O => env 0%nat cell
  | S i' => env i (word_at env i' cell)
  end.

Lemma action_loop_linearizable {T} env fuel i (f : Snapshot → outcome (T * option Snapshot))
    cell out cell' :
  fetch_update_action_loop env fuel (S i) f (word_at env i cell) (word_at env i cell)
    = Ret (Some out, cell') →
  ∃ j, fetch_update_action quiet 1 f (word_at env j cell) = Ret (Some out, cell').
Proof.
  revert i. induction fuel as [|fuel IH]; intros i; [done|]. simpl.
  destruct (f (word_at env i cell)) as [[o [next|]]| |] eqn:Hf; simpl; try done.
  - destruct (Z.eqb_spec (env (S i) (word_at env i cell)) (word_at env i cell)).
    + intros [= <- <-]. exists i. rewrite quiet_action, Hf. done.
    + intros H. by apply (IH (S i)).
  - intros [= <- <-]. exists i. by rewrite quiet_action, Hf.
Qed.

Lemma update_loop_linearizable env fuel i (f : Snapshot → outcome (option Snapshot))
    cell out cell' :
  fetch_update_loop env fuel (S i) f (word_at env i cell) (word_at env i cell)
    = Ret (Some out, cell') →
  ∃ j, fetch_update quiet 1 f (word_at env j cell) = Ret (Some out, cell').
Proof.
  revert i. induction fuel as [|fuel IH]; intros i; [done|]. simpl.
  destruct (f (word_at env i cell)) as [[next|]| |] eqn:Hf; simpl; try done.
  - destruct (Z.eqb_spec (env (S i) (word_at env i cell)) (word_at env i cell)).
    + intros [= <- <-]. exists i. by rewrite quiet_update, Hf.
    + intros H. by apply (IH (S i)).
  - intros [= <- <-]. exists i. by rewrite quiet_update, Hf.
Qed.

Lemma done_in_Ret {T A} (m : outcome (option T * Snapshot)) (g : T → state_ret A) r cell :
  done_in m g = Ret (Some r, cell) ↔ ∃ t, m = Ret (Some t, cell) ∧ r = g t.
Proof.
  unfold done_in. destruct m as [[[t|] c]| |]; simpl.
  - split; [intros [= <- <-]; eauto|]. by intros (? & [= <- <-] & ->).
  - split; [done|]. by intros (? & [=] & _).
  - split; [done|]. by intros (? & [=] & _).
  - split; [done|]. by intros (? & [=] & _).
Qed.

Lemma done_in_None {T A} (m : outcome (option T * Snapshot)) (g : T → state_ret A) cell :
  done_in m g = Ret (None, cell) → m = Ret (None, cell).
Proof. unfold done_in. by destruct m as [[[t|] c]| |]; simpl; intros [= <-]. Qed.

(** The loop meets a quiet access after the interference has stopped. *)
Lemma action_loop_terminates {T} env n fuel i (f : Snapshot → outcome (T * option Snapshot)) cell :
  (∀ j z, (n ≤ j)%nat → env j z = z) → (n - i < fuel)%nat →
  ∀ cell', fetch_update_action_loop env fuel i f cell cell ≠ Ret (None, cell').
Proof.
  intros Hq. revert i cell. induction fuel as [|fuel IH]; intros i cell Hf; [lia|]. simpl.
  destruct (f cell) as [[o [next|]]| |]; simpl; try done.
  destruct (Z.eqb_spec (env i cell) cell) as [|Hne]; [done|].
  apply IH. destruct (decide (n ≤ i)%nat); [|lia]. by rewrite Hq in Hne.
Qed.
Lemma update_loop_terminates env n fuel i (f : Snapshot → outcome (option Snapshot)) cell :
  (∀ j z, (n ≤ j)%nat → env j z = z) → (n - i < fuel)%nat →
  ∀ cell', fetch_update_loop env fuel i f cell cell ≠ Ret (None, cell').
Proof.
  intros Hq. revert i cell. induction fuel as [|fuel IH]; intros i cell Hf; [lia|]. simpl.
  destruct (f cell) as [[next|]| |]; simpl; try done.
  destruct (Z.eqb_spec (env i cell) cell) as [|Hne]; [done|].
  apply IH. destruct (decide (n ≤ i)%nat); [|lia]. by rewrite Hq in Hne.
Qed.

(** C10: every state transition computes, on the packed word, the update of the
    corresponding record of flags and reference count, panics exactly where
    that update does, and returns what it returns. *)
Theorem State_refines_Flags op z :
  usize z → run_op quiet 1 op z = of_spec (spec_op op (decode z)).
Proof.
  intros Hz. rewrite <- (encode_decode z) at 1. by apply run_op_encode, decode_ok.
Qed.

(** C11: the compare-and-swap loops are linearisable: whatever other threads do
    to the word between the accesses, a transition that returns has had the
    effect of running it atomically on the word at one of its accesses. *)
Theorem State_linearizable env fuel op cell r cell' :
  op ≠ OpDropJoinFast → run_op env fuel op cell = Ret (Some r, cell') →
  ∃ i, run_op quiet 1 op (word_at env i cell) = Ret (Some r, cell').
Proof.
  intros Hop. destruct op; unfold run_op; try done.
  all: try (exists 0%nat; done).
  all: rewrite done_in_Ret; intros (t & Ht & ->).
  all: unfold transition_to_running, transition_to_idle, State_unset_join_interested,
    transition_to_notified_without_submit, transition_to_notified,
    State_set_join_waker, unset_waker in *.
  all: (apply (action_loop_linearizable _ _ 0) in Ht || apply (update_loop_linearizable _ _ 0) in Ht);
    destruct Ht as [j Hj]; exists j; apply done_in_Ret; eauto.
Qed.

(** The loops terminate: with interference at finitely many accesses only,
    one round more than that number is enough. *)
Theorem State_loops_terminate env n fuel op cell cell' :
  (∀ j z, (n ≤ j)%nat → env j z = z) → (n < fuel)%nat →
  run_op env fuel op cell ≠ Ret (None, cell').
Proof.
  intros Hq Hf. destruct op; unfold run_op.
  3: by destruct (transition_to_complete _) as [[]| |].
  5: by destruct (drop_join_handle_fast _ _).
  8: by destruct (ref_inc _).
  8: by destruct (ref_dec _) as [[]| |].
  1-4: intros H%done_in_None; eapply action_loop_terminates; [apply Hq| |apply H]; lia.
  all: intros H%done_in_None; eapply update_loop_terminates; [apply Hq| |apply H]; lia.
Qed.

(** The join handle's fast path is not atomic: it loads the word and then
    stores to it.  If the thread that owns the task starts polling it between
    the two, its transition is undone: the word left behind says idle and
    notified while the task is being polled, which is the outcome of neither
    order of the two operations. *)
Theorem drop_join_handle_fast_loses_update :
  ∃ z1 z2 z3,
    run_op quiet 1 OpToRunning INITIAL_STATE = Ret (Some RetUnit, z1) ∧
    running (decode z1) = true ∧
    (* the owner's transition falls between the load and the store *)
    run_op (λ i z, if (i =? 1)%nat then z1 else z) 1 OpDropJoinFast INITIAL_STATE
      = Ret (Some (RetBool true), z2) ∧
    running (decode z2) = false ∧ notified (decode z2) = true ∧
    (* owner first, then the handle: the fast path declines *)
    run_op quiet 1 OpDropJoinFast z1 = Ret (Some (RetBool false), z1) ∧
    (* handle first, then the owner: running *)
    run_op quiet 1 OpToRunning z2 = Ret (Some RetUnit, z3) ∧ running (decode z3) = true.
Proof. exists 73, 36, 33. destruct B; by vm_compute. Qed.
End interference.

(** *** Concrete instances *)

#[local] Instance debug_build : Build := true.

Lemma State_refines_Flags_witness :
  run_op quiet 1 OpToNotified INITIAL_STATE = of_spec (spec_op OpToNotified (decode INITIAL_STATE)).
Proof. apply (State_refines_Flags OpToNotified INITIAL_STATE). split; by vm_compute. Defined.

(** Another thread takes a reference between the load and the exchange. *)
Definition demo_env : environment := λ i z, if (i =? 1)%nat then z + REF_ONE else z.

Lemma State_linearizable_witness :
  ∃ i, run_op quiet 1 OpToRunning (word_at demo_env i INITIAL_STATE)
       = Ret (Some RetUnit, Z.lor (REF_ONE * 3) 9).
Proof.
  apply (State_linearizable demo_env 2 OpToRunning); [done|]. by vm_compute.
Defined.

Lemma State_loops_terminate_witness :
  run_op demo_env 3 OpToRunning INITIAL_STATE ≠ Ret (None, INITIAL_STATE).
Proof.
  apply (State_loops_terminate demo_env 2); [|lia].
  intros j z Hj. unfold demo_env. destruct j as [|[|]]; [lia|lia|done].
Defined.
