(* ===== verification/Task.v ===== *)
(** * Task: reference-counted tasks and the single-threaded executor
    ([runtime/src/task], [runtime/src/scheduler.rs], [runtime/src/runtime.rs])

    A world holds the task cells on the heap, the run queue, and the handles in
    the hands of the rest of the program: wakers and join handles.  A future is
    the script of its polls: what each poll does to wakers, join handles and the
    runtime, and what it returns.  Reading a cell that was freed is undefined
    behaviour. *)

From stdpp Require Import gmap list fin_maps.
From S2P Require Import Prelude.
From S2P Require Import TaskState.

Local Open Scope Z_scope.

Definition ptr : Type := nat.
Definition DEFAULT_THREAD_ID : Z := 0.

(** The wakers of [waker.rs]: a task's, and the one [block_on] polls with. *)
Inductive Waker : Type := TaskWaker (p : ptr) | DummyWaker.

#[export] Instance Waker_eq_dec : EqDecision Waker.
Proof. solve_decision. Defined.

(** [Waker::will_wake]: same data pointer, same vtable. *)
Definition will_wake (w1 w2 : Waker) : bool := bool_decide (w1 = w2).

#[local] Set Warnings "-register-all".

Section task.
Context `{B : Build} {Out : Type}.

(** ** Data *)

Inductive action : Type :=
  | WakeByRef                                  (* cx.waker().wake_by_ref() *)
  | CloneWaker                                 (* keep cx.waker().clone() *)
  | CloneHeld (i : nat)                        (* clone a kept waker *)
  | WakeHeld (i : nat)                         (* wake (by value) a kept waker *)
  | WakeHeldRef (i : nat)
  | DropHeld (i : nat)
  | Spawn (polls : list (list action * option Out))
  | PollJoin (p : ptr)                         (* poll the join handle of task [p] *)
  | DropJoin (p : ptr).

(** A future, as the list of its polls; after the last one it stays pending. *)
Definition future : Type := list (list action * option Out).

Inductive Stage : Type :=
  | Running (fut : future)
  | Finished (out : Out)
  | Consumed.

(** [Header], [Core] and [Trailer]. *)
Record Cell : Type := mkCell {
  state : Snapshot;
  owner_id : Z;
  stage : Stage;
  trailer_waker : option Waker;
}.

Record World : Type := mkWorld {
  cells : gmap ptr Cell;
  tasks : list ptr;             (* [Context::tasks], a [VecDeque] *)
  held : list Waker;            (* wakers the program keeps *)
  joins : list ptr;             (* live [JoinHandle]s *)
  outs : list (ptr * Out);      (* outputs read through join handles *)
  SHOULD_POLL : bool;
  thread_id : option Z;         (* of [CURRENT], when it is set *)
  fresh : ptr;
}.

Definition set_cells (f : gmap ptr Cell → gmap ptr Cell) (w : World) : World :=
  mkWorld (f (cells w)) (tasks w) (held w) (joins w) (outs w) (SHOULD_POLL w) (thread_id w) (fresh w).
Definition set_tasks (f : list ptr → list ptr) (w : World) : World :=
  mkWorld (cells w) (f (tasks w)) (held w) (joins w) (outs w) (SHOULD_POLL w) (thread_id w) (fresh w).
Definition set_held (f : list Waker → list Waker) (w : World) : World :=
  mkWorld (cells w) (tasks w) (f (held w)) (joins w) (outs w) (SHOULD_POLL w) (thread_id w) (fresh w).
Definition set_joins (f : list ptr → list ptr) (w : World) : World :=
  mkWorld (cells w) (tasks w) (held w) (f (joins w)) (outs w) (SHOULD_POLL w) (thread_id w) (fresh w).
Definition add_out (p : ptr) (out : Out) (w : World) : World :=
  mkWorld (cells w) (tasks w) (held w) (joins w) (outs w ++ [(p, out)]) (SHOULD_POLL w)
          (thread_id w) (fresh w).
Definition set_SHOULD_POLL (b : bool) (w : World) : World :=
  mkWorld (cells w) (tasks w) (held w) (joins w) (outs w) b (thread_id w) (fresh w).

#[local] Abbreviation M := (stateM World).

Definition set_thread_id (t : option Z) (w : World) : World :=
  mkWorld (cells w) (tasks w) (held w) (joins w) (outs w) (SHOULD_POLL w) t (fresh w).

(** ** Access to a cell *)

Definition get_cell (p : ptr) : M Cell := λ w,
  match cells w !! p with Some c => Ret (c, w) | None => UB end.

Definition put_cell (p : ptr) (c : Cell) : M unit := modify (set_cells (<[p := c]>)).

Definition set_stage (p : ptr) (s : Stage) : M unit :=
  c ← get_cell p; put_cell p (mkCell (state c) (owner_id c) s (trailer_waker c)).

(** An access to the state word; tasks are not shared between threads, so the
    compare-and-swap loops run in a quiet environment, where one round is
    enough. *)
Definition on_state {T} (p : ptr) (op : Snapshot → outcome (option T * Snapshot)) : M T :=
  c ← get_cell p;
  '(r, z) ← lift (op (state c));
  _ ← put_cell p (mkCell z (owner_id c) (stage c) (trailer_waker c));
  match r with Some r => mret r | None => undefined end.

Definition state_ref_inc (p : ptr) : M unit :=
  on_state p (λ z, z ← ref_inc z; Ret (Some tt, z)).
Definition state_ref_dec (p : ptr) : M bool :=
  on_state p (λ z, '(b, z) ← ref_dec z; Ret (Some b, z)).

(** ** Reference counting

    [drop_reference] frees the cell when the count reaches zero; freeing drops
    the waker in the trailer, which may free another cell, and so on.  Each
    round frees a cell, so the number of cells bounds the recursion. *)

Definition drop_waker_ (drop_reference : ptr → M unit) (wk : Waker) : M unit :=
  match wk with TaskWaker p => drop_reference p | DummyWaker => mret tt end.

Definition dealloc_ (drop_reference : ptr → M unit) (p : ptr) : M unit :=
  c ← get_cell p;
  _ ← modify (set_cells (delete p));
  match trailer_waker c with
  | Some wk => drop_waker_ drop_reference wk
  | None => mret tt
  end.

Fixpoint drop_reference_ (fuel : nat) (p : ptr) : M unit :=
  match fuel with
  | O => undefined
  | S fuel =>
      last ← state_ref_dec p;
      if (last : bool) then dealloc_ (drop_reference_ fuel) p else mret tt
  end.

Definition drop_reference (p : ptr) : M unit := λ w, drop_reference_ (S (size (cells w))) p w.
Definition drop_waker : Waker → M unit := drop_waker_ drop_reference.

Definition clone_waker (wk : Waker) : M Waker :=
  match wk with
  | TaskWaker p => _ ← state_ref_inc p; mret wk
  | DummyWaker => mret wk
  end.

(** ** Scheduling ([LocalScheduler]); both panic outside the runtime *)

Definition schedule (p : ptr) : M unit :=
  tid ← gets thread_id;
  _ ← lift (unwrap tid);
  modify (set_tasks (λ q, q ++ [p])).
Definition yield_now (p : ptr) : M unit :=
  tid ← gets thread_id;
  _ ← lift (unwrap tid);
  modify (set_tasks (λ q, p :: q)).

(** ** Waking *)

Definition is_remote_task (owner_id : Z) : M bool :=
  if bool_decide (owner_id = DEFAULT_THREAD_ID) then mret true
  else
    tid ← gets thread_id;
    match tid with
    | Some tid => mret (bool_decide (owner_id ≠ tid))
    | None => mret true
    end.

Definition wake_by_val (p : ptr) : M unit :=
  c ← get_cell p;
  remote ← is_remote_task (owner_id c);
  if (remote : bool) then
    already ← on_state p (transition_to_notified_without_submit quiet 1);
    if (already : bool) then drop_reference p
    else panic              (* needs the feature [sync] *)
  else
    t ← on_state p (transition_to_notified quiet 1);
    match t with
    | Submit => schedule p
    | DoNothing => drop_reference p
    end.

Definition wake_by_ref (p : ptr) : M unit :=
  c ← get_cell p;
  remote ← is_remote_task (owner_id c);
  if (remote : bool) then
    already ← on_state p (transition_to_notified_without_submit quiet 1);
    if (already : bool) then mret tt
    else panic
  else
    t ← on_state p (transition_to_notified quiet 1);
    match t with
    | Submit => _ ← state_ref_inc p; schedule p
    | DoNothing => mret tt
    end.

Definition Waker_wake (wk : Waker) : M unit :=
  match wk with
  | TaskWaker p => wake_by_val p
  | DummyWaker => modify (set_SHOULD_POLL true)
  end.
Definition Waker_wake_by_ref (wk : Waker) : M unit :=
  match wk with
  | TaskWaker p => wake_by_ref p
  | DummyWaker => modify (set_SHOULD_POLL true)
  end.

(** ** Join handles *)

Definition Trailer_set_waker (p : ptr) (wk : option Waker) : M unit :=
  c ← get_cell p;
  _ ← put_cell p (mkCell (state c) (owner_id c) (stage c) wk);
  match trailer_waker c with        (* the assignment drops the old value *)
  | Some old => drop_waker old
  | None => mret tt
  end.

Definition Trailer_will_wake (p : ptr) (wk : Waker) : M bool :=
  c ← get_cell p;
  old ← lift (unwrap (trailer_waker c));
  mret (will_wake old wk).

(** [wake_join]; a missing waker panics. *)
Definition Trailer_wake_join (p : ptr) : M unit :=
  c ← get_cell p;
  match trailer_waker c with
  | Some wk => Waker_wake_by_ref wk
  | None => panic
  end.

Definition is_err (u : UpdateResult) : bool :=
  match u with UpdateOk _ => false | UpdateErr _ => true end.

Definition set_join_waker (p : ptr) (wk : Waker) (snapshot : Snapshot) : M UpdateResult :=
  _ ← lift (assert_ (is_join_interested snapshot));
  _ ← lift (assert_ (negb (has_join_waker snapshot)));
  _ ← Trailer_set_waker p (Some wk);
  res ← on_state p (State_set_join_waker quiet 1);
  _ ← (if is_err res then Trailer_set_waker p None else mret tt);
  mret res.

Definition can_read_output (p : ptr) (wk : Waker) : M bool :=
  c ← get_cell p;
  let snapshot := state c in
  _ ← lift (debug_assert (is_join_interested snapshot));
  if negb (is_complete snapshot) then
    res ← (if has_join_waker snapshot then
             will ← Trailer_will_wake p wk;
             if (will : bool) then mret None
             else
               u ← on_state p (unset_waker quiet 1);
               match u with
               | UpdateOk snapshot =>
                   wk ← clone_waker wk;
                   res ← set_join_waker p wk snapshot; mret (Some res)
               | UpdateErr snapshot => mret (Some (UpdateErr snapshot))
               end
           else
             wk ← clone_waker wk;
             res ← set_join_waker p wk snapshot; mret (Some res));
    match res with
    | None => mret false
    | Some (UpdateOk _) => mret false
    | Some (UpdateErr snapshot) => _ ← lift (assert_ (is_complete snapshot)); mret true
    end
  else mret true.

Definition drop_future_or_output (p : ptr) : M unit := set_stage p Consumed.
Definition store_output (p : ptr) (out : Out) : M unit := set_stage p (Finished out).
Definition take_output (p : ptr) : M Out :=
  c ← get_cell p;
  _ ← set_stage p Consumed;
  match stage c with
  | Finished out => mret out
  | _ => panic                     (* "JoinHandle polled after completion" *)
  end.

Definition try_read_output (p : ptr) (wk : Waker) : M (option Out) :=
  can ← can_read_output p wk;
  if (can : bool) then out ← take_output p; mret (Some out) else mret None.

(** [JoinHandle::poll] and [drop]. *)
Definition JoinHandle_poll (p : ptr) (wk : Waker) : M (option Out) := try_read_output p wk.

Definition drop_join_handle_slow (p : ptr) : M unit :=
  res ← on_state p (State_unset_join_interested quiet 1);
  _ ← (if is_err res then drop_future_or_output p else mret tt);
  drop_reference p.

Definition JoinHandle_drop (p : ptr) : M unit :=
  ok ← on_state p (λ z, let '(b, z) := drop_join_handle_fast quiet z in Ret (Some b, z));
  if (ok : bool) then mret tt else drop_join_handle_slow p.

(** ** Spawning *)

Definition Cell_new (owner : Z) (fut : future) : Cell := mkCell State_new owner (Running fut) None.

Definition alloc_cell (c : Cell) : M ptr := λ w,
  Ret (fresh w, mkWorld (<[fresh w := c]> (cells w)) (tasks w) (held w) (joins w) (outs w)
                        (SHOULD_POLL w) (thread_id w) (S (fresh w))).

Definition spawn (fut : future) : M unit :=
  tid ← gets thread_id;
  tid ← lift (unwrap tid);                 (* [get_current_thread_id] *)
  p ← alloc_cell (Cell_new tid fut);
  _ ← modify (set_tasks (λ q, q ++ [p]));
  modify (set_joins (λ js, p :: js)).

(** ** What a poll may do *)

Definition with_held (i : nat) (k : Waker → M unit) : M unit :=
  ws ← gets held;
  match ws !! i with Some wk => k wk | None => mret tt end.

Definition remove_held (i : nat) : M unit := modify (set_held (delete i)).

Definition remove_join (p : ptr) : M unit := modify (set_joins (filter (λ q, q ≠ p))).

Definition with_join (p : ptr) (m : M unit) : M unit :=
  js ← gets joins; if bool_decide (p ∈ js) then m else mret tt.

Definition run_action (cx : Waker) (a : action) : M unit :=
  match a with
  | WakeByRef => Waker_wake_by_ref cx
  | CloneWaker => wk ← clone_waker cx; modify (set_held (cons wk))
  | CloneHeld i => with_held i (λ wk, wk ← clone_waker wk; modify (set_held (cons wk)))
  | WakeHeld i => with_held i (λ wk, _ ← remove_held i; Waker_wake wk)
  | WakeHeldRef i => with_held i Waker_wake_by_ref
  | DropHeld i => with_held i (λ wk, _ ← remove_held i; drop_waker wk)
  | Spawn fut => spawn fut
  | PollJoin p => with_join p (
      res ← JoinHandle_poll p cx;
      match res with Some out => modify (add_out p out) | None => mret tt end)
  | DropJoin p => with_join p (_ ← remove_join p; JoinHandle_drop p)
  end.

Fixpoint run_actions (cx : Waker) (l : list action) : M unit :=
  match l with [] => mret tt | a :: l => _ ← run_action cx a; run_actions cx l end.

(** ** Running a task *)

(** [CoreStage::poll]: [Some out] is [Poll::Ready]. *)
Definition CoreStage_poll (p : ptr) : M (option Out) :=
  c ← get_cell p;
  match stage c with
  | Running [] => mret None
  | Running ((acts, res) :: fut) =>
      _ ← set_stage p (Running fut);
      _ ← run_actions (TaskWaker p) acts;
      match res with
      | Some out => _ ← drop_future_or_output p; mret (Some out)
      | None => mret None
      end
  | _ => panic                     (* "unexpected stage" *)
  end.

(** [true] is [Poll::Ready(())]. *)
Definition poll_future (p : ptr) : M bool :=
  output ← CoreStage_poll p;
  match output with
  | None => mret false
  | Some output => _ ← store_output p output; mret true
  end.

Inductive PollFuture : Type := PollComplete | PollNotified | PollDone.

Definition poll_inner (p : ptr) : M PollFuture :=
  _ ← on_state p (transition_to_running quiet 1);
  res ← poll_future p;
  if (res : bool) then mret PollComplete
  else
    t ← on_state p (transition_to_idle quiet 1);
    mret (match t with IdleOk => PollDone | IdleOkNotified => PollNotified end).

(** A panic while waking the join handle or dropping the output would be caught
    by the code; it propagates here. *)
Definition Harness_complete (p : ptr) : M unit :=
  snapshot ← on_state p (λ z, '(s, z) ← transition_to_complete z; Ret (Some s, z));
  if negb (is_join_interested snapshot) then drop_future_or_output p
  else if has_join_waker snapshot then Trailer_wake_join p
  else mret tt.

Definition Harness_poll (p : ptr) : M unit :=
  r ← poll_inner p;
  match r with
  | PollNotified => _ ← state_ref_inc p; yield_now p
  | PollComplete => Harness_complete p
  | PollDone => mret tt
  end.

(** [Task::run]: the handle is dropped when it returns. *)
Definition Task_run (p : ptr) : M unit := _ ← Harness_poll p; drop_reference p.

(** ** [Runtime::block_on] *)

Definition TaskQueue_pop : M (option ptr) := λ w,
  match tasks w with
  | [] => Ret (None, w)
  | p :: q => Ret (Some p, set_tasks (λ _, q) w)
  end.

(** The run loop over the queue: at most [max_round + 1] tasks. *)
Fixpoint run_tasks (max_round : nat) : M unit :=
  t ← TaskQueue_pop;
  match t with
  | None => mret tt
  | Some p =>
      _ ← Task_run p;
      match max_round with
      | O => mret tt
      | S max_round => run_tasks max_round
      end
  end.

Definition should_poll : M bool := λ w, Ret (SHOULD_POLL w, set_SHOULD_POLL false w).
Definition set_poll : M unit := modify (set_SHOULD_POLL true).

(** [while should_poll() { poll the main future }]; [inl] is its output,
    [inr] the rest of the future. *)
Fixpoint poll_main (main : future) : M (Out + future) :=
  sp ← should_poll;
  if (sp : bool) then
    match main with
    | [] => mret (inr [])
    | (acts, res) :: main =>
        _ ← run_actions DummyWaker acts;
        match res with
        | Some out => mret (inl out)
        | None => poll_main main
        end
    end
  else mret (inr main).

(** One turn of the inner loop: [inl] returns from [block_on]; otherwise the
    rest of the main future, and whether to park. *)
Definition block_on_turn (main : future) : M (Out + (future * bool)) :=
  q ← gets tasks;
  _ ← run_tasks (length q * 2);
  r ← poll_main main;
  match r with
  | inl out => mret (inl out)
  | inr main => q ← gets tasks; mret (inr (main, bool_decide (q = [])))
  end.

(** [io]: what the driver's completions do at each [submit] and [park].  [None]:
    the script of the driver is exhausted. *)
Fixpoint block_on_loop (io : list (list action)) (main : future) : M (option Out) :=
  r ← block_on_turn main;
  match r with
  | inl out => mret (Some out)
  | inr (main, park) =>
      match io with
      | [] => mret None
      | acts :: io => _ ← run_actions DummyWaker acts; block_on_loop io main
      end
  end.

(** [CURRENT] is set for the duration of the call. *)
Definition block_on (tid : Z) (io : list (list action)) (main : future) : M (option Out) :=
  cur ← gets thread_id;
  _ ← lift (assert_ (bool_decide (cur = None)));
  _ ← modify (set_thread_id (Some tid));
  _ ← set_poll;
  r ← block_on_loop io main;
  _ ← modify (set_thread_id None);
  mret r.

Definition world_init : World := mkWorld ∅ [] [] [] [] true None 0%nat.

(** ** The invariant

    [X]: references in the hands of the code that is running; [Q]: tasks that
    were just popped, or are about to be pushed; [run]: the task being polled. *)

Definition cnt (p : ptr) (l : list ptr) : nat := count_occ Nat.eq_dec l p.
Definition waker_ptr (wk : Waker) : list ptr :=
  match wk with TaskWaker p => [p] | DummyWaker => [] end.
Definition opt_ptr (o : option Waker) : list ptr :=
  match o with Some wk => waker_ptr wk | None => [] end.
Definition held_ptrs (ws : list Waker) : list ptr := ws ≫= waker_ptr.
Definition trailer_ptrs (cs : gmap ptr Cell) : list ptr :=
  map_to_list cs ≫= λ '(_, c), opt_ptr (trailer_waker c).

(** Every reference to [p] there is. *)
Definition refcnt (X : list ptr) (w : World) (p : ptr) : nat :=
  cnt p X + cnt p (tasks w) + cnt p (joins w) + cnt p (held_ptrs (held w)) +
  cnt p (trailer_ptrs (cells w)).

Definition stage_ok (complete : bool) (j : nat) (s : Stage) : Prop :=
  match complete, s with
  | false, Running _ => True
  | true, Finished _ => j = 1%nat
  | true, Consumed => True
  | _, _ => False
  end.

(** A cell with [n] references, [q] places in the queue and [j] join handles. *)
Record cell_ok (t : Z) (n q j : nat) (r : bool) (c : Cell) (f : Flags) : Prop := {
  ok_state : state c = encode f;
  ok_flags : Flags_ok f;
  ok_refs : refs f = Z.of_nat n;
  ok_pos : n ≠ 0%nat;
  ok_owner : owner_id c = t;
  ok_running : running f = r;
  ok_excl : running f && complete f = false;
  ok_queue : q = Nat.b2n (notified f && negb (running f) && negb (complete f));
  ok_join : j = 0%nat ∨ j = 1%nat;
  ok_interest : j = 1%nat → join_interest f = true;
  ok_no_interest : j = 0%nat → complete f = false → join_interest f = false;
  ok_waker : join_interest f = true → join_waker f = true → is_Some (trailer_waker c);
  ok_stage : stage_ok (complete f) j (stage c);
}.

Record Inv (t : Z) (X Q : list ptr) (run : option ptr) (w : World) : Prop := {
  inv_cell : ∀ p c, cells w !! p = Some c → ∃ f,
    cell_ok t (refcnt X w p) (cnt p (Q ++ tasks w)) (cnt p (joins w)) (bool_decide (run = Some p)) c f;
  inv_dead : ∀ p, cells w !! p = None → refcnt X w p = 0%nat ∧ cnt p Q = 0%nat ∧ run ≠ Some p;
  inv_fresh : ∀ p, is_Some (cells w !! p) → (p < fresh w)%nat;
  inv_tid : thread_id w = Some t;
  inv_default : t ≠ DEFAULT_THREAD_ID;
}.

(** ** Counting *)

Lemma cnt_app p l1 l2 : cnt p (l1 ++ l2) = (cnt p l1 + cnt p l2)%nat.
Proof. apply count_occ_app. Qed.
Lemma cnt_cons p q l : cnt p (q :: l) = (Nat.b2n (bool_decide (p = q)) + cnt p l)%nat.
Proof.
  unfold cnt. simpl. destruct (Nat.eq_dec q p) as [->|]; case_bool_decide; simpl; congruence.
Qed.
Lemma cnt_nil p : cnt p [] = 0%nat.
Proof. done. Qed.
Lemma cnt_perm p l1 l2 : l1 ≡ₚ l2 → cnt p l1 = cnt p l2.
Proof. intros H. by apply (Permutation_count_occ Nat.eq_dec). Qed.
Lemma cnt_elem p l : p ∈ l ↔ cnt p l ≠ 0%nat.
Proof.
  unfold cnt. rewrite list_elem_of_In, (count_occ_In Nat.eq_dec). lia.
Qed.
Lemma cnt_filter_ne p q l :
  cnt p (filter (λ x, x ≠ q) l) = if bool_decide (p = q) then 0%nat else cnt p l.
Proof.
  induction l as [|x l IH]; [by case_bool_decide|]. rewrite filter_cons, cnt_cons.
  destruct (decide (x ≠ q)) as [Hx|Hx]; rewrite ?cnt_cons, IH.
  all: repeat case_bool_decide; subst; simpl; try done; try lia.
Qed.

Lemma trailer_ptrs_insert_new cs p c :
  cs !! p = None → trailer_ptrs (<[p := c]> cs) ≡ₚ opt_ptr (trailer_waker c) ++ trailer_ptrs cs.
Proof. intros H. unfold trailer_ptrs. by rewrite map_to_list_insert. Qed.

Lemma cnt_trailer_delete cs p c x : cs !! p = Some c →
  cnt x (trailer_ptrs cs) = (cnt x (opt_ptr (trailer_waker c)) + cnt x (trailer_ptrs (delete p cs)))%nat.
Proof.
  intros H. rewrite <- (insert_delete_id cs p c H) at 1.
  rewrite (cnt_perm x _ _ (trailer_ptrs_insert_new _ _ _ (lookup_delete_eq _ _))). apply cnt_app.
Qed.

Lemma cnt_trailer_insert cs p c c' x : cs !! p = Some c →
  (cnt x (opt_ptr (trailer_waker c)) + cnt x (trailer_ptrs (<[p := c']> cs)))%nat =
  (cnt x (opt_ptr (trailer_waker c')) + cnt x (trailer_ptrs cs))%nat.
Proof.
  intros H. rewrite <- insert_delete_eq.
  rewrite (cnt_perm x _ _ (trailer_ptrs_insert_new _ p c' (lookup_delete_eq _ _))), cnt_app.
  rewrite (cnt_trailer_delete cs p c x H). lia.
Qed.

#[local] Arguments cnt : simpl never.

Lemma held_ptrs_cons wk ws : held_ptrs (wk :: ws) = waker_ptr wk ++ held_ptrs ws.
Proof. done. Qed.
Lemma cnt_held_delete ws i wk x : ws !! i = Some wk →
  cnt x (held_ptrs ws) = (cnt x (waker_ptr wk) + cnt x (held_ptrs (delete i ws)))%nat.
Proof.
  intros H. apply delete_Permutation in H.
  rewrite (cnt_perm x (held_ptrs ws) (held_ptrs (wk :: delete i ws))).
  - by rewrite held_ptrs_cons, cnt_app.
  - by apply bind_Permutation.
Qed.

(** ** Changing the invariant *)

Lemma Inv_update t X X' Q Q' run run' w w' p c c' f' :
  Inv t X Q run w → cells w !! p = Some c → cells w' = <[p := c']> (cells w) →
  thread_id w' = thread_id w → fresh w' = fresh w →
  (∀ q, q ≠ p →
    refcnt X' w' q = refcnt X w q ∧ cnt q (Q' ++ tasks w') = cnt q (Q ++ tasks w) ∧
    cnt q Q' = cnt q Q ∧ cnt q (joins w') = cnt q (joins w) ∧ (run' = Some q ↔ run = Some q)) →
  cell_ok t (refcnt X' w' p) (cnt p (Q' ++ tasks w')) (cnt p (joins w'))
          (bool_decide (run' = Some p)) c' f' →
  Inv t X' Q' run' w'.
Proof.
  intros HI Hc Hcs Ht Hfr Hoth Hok. split.
  - intros q d. rewrite Hcs. destruct (decide (q = p)) as [->|Hne].
    { rewrite lookup_insert_eq. intros [= <-]. eauto. }
    rewrite lookup_insert_ne by done. intros Hd.
    destruct (inv_cell _ _ _ _ _ HI _ _ Hd) as [f Hf]. exists f.
    destruct (Hoth q Hne) as (-> & -> & _ & -> & Hr).
    replace (bool_decide (run' = Some q)) with (bool_decide (run = Some q)); [done|].
    by apply bool_decide_ext.
  - intros q. rewrite Hcs. destruct (decide (q = p)) as [->|Hne]; [by rewrite lookup_insert_eq|].
    rewrite lookup_insert_ne by done. intros Hd%(inv_dead _ _ _ _ _ HI).
    destruct (Hoth q Hne) as (-> & _ & -> & _ & Hr). by rewrite Hr.
  - intros q. rewrite Hcs, Hfr. destruct (decide (q = p)) as [->|Hne].
    { intros _. eapply (inv_fresh _ _ _ _ _ HI). eauto. }
    rewrite lookup_insert_ne by done. apply (inv_fresh _ _ _ _ _ HI).
  - rewrite Ht. apply HI.
  - apply HI.
Qed.

Lemma Inv_move t X X' Q Q' run w w' :
  Inv t X Q run w → cells w' = cells w → thread_id w' = thread_id w → fresh w' = fresh w →
  (∀ q, refcnt X' w' q = refcnt X w q) →
  (∀ q, cnt q (Q' ++ tasks w') = cnt q (Q ++ tasks w)) →
  (∀ q, cnt q (joins w') = cnt q (joins w)) →
  Inv t X' Q' run w'.
Proof.
  intros HI Hcs Ht Hfr Hr Hq Hj. split.
  - intros q d. rewrite Hcs, Hr, Hq, Hj. apply HI.
  - intros q. rewrite Hcs, Hr. intros Hd. pose proof (inv_dead _ _ _ _ _ HI _ Hd) as (H1 & H2 & H3).
    split_and!; [done| |done]. specialize (Hq q). specialize (Hr q). rewrite !cnt_app in Hq.
    unfold refcnt in *. lia.
  - intros q. rewrite Hcs, Hfr. apply HI.
  - rewrite Ht. apply HI.
  - apply HI.
Qed.

(** A cell whose trailer does not change. *)
Lemma refcnt_put X w p c c' q :
  cells w !! p = Some c → trailer_waker c' = trailer_waker c →
  refcnt X (set_cells (<[p := c']>) w) q = refcnt X w q.
Proof.
  intros Hc Ht. unfold refcnt. simpl. pose proof (cnt_trailer_insert _ _ _ c' q Hc) as H.
  rewrite Ht in H. lia.
Qed.

Lemma Inv_put t X Q Q' run run' w p c c' f' :
  Inv t X Q run w → cells w !! p = Some c → trailer_waker c' = trailer_waker c →
  (∀ q, q ≠ p → cnt q Q' = cnt q Q) → (∀ q, q ≠ p → run' = Some q ↔ run = Some q) →
  cell_ok t (refcnt X w p) (cnt p (Q' ++ tasks w)) (cnt p (joins w))
          (bool_decide (run' = Some p)) c' f' →
  Inv t X Q' run' (set_cells (<[p := c']>) w).
Proof.
  intros HI Hc Ht HQ Hrun Hok.
  apply (Inv_update t X X Q Q' run run' w _ p c c' f'); try done.
  - intros q Hne. rewrite (refcnt_put _ _ _ _ _ _ Hc Ht), !cnt_app, HQ by done. simpl.
    split_and!; auto; by apply Hrun.
  - by rewrite (refcnt_put _ _ _ _ _ _ Hc Ht).
Qed.

Lemma Inv_lookup t X Q run w p :
  Inv t X Q run w → refcnt X w p ≠ 0%nat →
  ∃ c f, cells w !! p = Some c ∧
    cell_ok t (refcnt X w p) (cnt p (Q ++ tasks w)) (cnt p (joins w)) (bool_decide (run = Some p)) c f.
Proof.
  intros HI Hr. destruct (cells w !! p) as [c|] eqn:Hc.
  - destruct (inv_cell _ _ _ _ _ HI _ _ Hc) as [f Hf]. eauto.
  - by destruct (inv_dead _ _ _ _ _ HI _ Hc) as [? _].
Qed.

(** ** Accesses to a known cell *)

Lemma get_cell_eq w p c : cells w !! p = Some c → get_cell p w = Ret (c, w).
Proof. unfold get_cell. by intros ->. Qed.

Definition with_state (c : Cell) (z : Snapshot) : Cell :=
  mkCell z (owner_id c) (stage c) (trailer_waker c).

Lemma on_state_eq {T} w p c (op : Snapshot → outcome (option T * Snapshot)) r z :
  cells w !! p = Some c → op (state c) = Ret (Some r, z) →
  on_state p op w = Ret (r, set_cells (<[p := with_state c z]>) w).
Proof.
  intros Hc Hop. unfold on_state. rewrite (bindM_eq _ _ _ _ _ (get_cell_eq _ _ _ Hc)).
  unfold lift, mbind, stateM_bind. simpl. by rewrite Hop.
Qed.
Lemma on_state_Panic {T} w p c (op : Snapshot → outcome (option T * Snapshot)) :
  cells w !! p = Some c → op (state c) = Panic → on_state p op w = Panic.
Proof.
  intros Hc Hop. unfold on_state. rewrite (bindM_eq _ _ _ _ _ (get_cell_eq _ _ _ Hc)).
  unfold lift, mbind, stateM_bind. simpl. by rewrite Hop.
Qed.

Lemma set_stage_eq w p c s : cells w !! p = Some c →
  set_stage p s w = Ret (tt, set_cells (<[p := mkCell (state c) (owner_id c) s (trailer_waker c)]>) w).
Proof.
  intros Hc. unfold set_stage. by rewrite (bindM_eq _ _ _ _ _ (get_cell_eq _ _ _ Hc)).
Qed.

(** ** Reference counting keeps the invariant *)

(** Only reference counts change, and cells disappear. *)
Record frame (w w' : World) : Prop := {
  fr_tasks : tasks w' = tasks w;
  fr_held : held w' = held w;
  fr_joins : joins w' = joins w;
  fr_outs : outs w' = outs w;
  fr_poll : SHOULD_POLL w' = SHOULD_POLL w;
  fr_tid : thread_id w' = thread_id w;
  fr_fresh : fresh w' = fresh w;
  fr_cells : ∀ q c', cells w' !! q = Some c' → ∃ c f k,
    cells w !! q = Some c ∧ state c = encode f ∧ state c' = encode (set_refs k f) ∧
    stage c' = stage c ∧ trailer_waker c' = trailer_waker c ∧ owner_id c' = owner_id c;
}.

#[export] Instance frame_preorder : PreOrder frame.
Proof.
  split.
  - intros w. split; try done. intros q c Hc. exists c, (decode (state c)), (refs (decode (state c))).
    split_and!; try done; by rewrite ?set_refs_id, encode_decode.
  - intros w1 w2 w3 H1 H2. split; try (etrans; [apply H2|apply H1]).
    intros q c3 Hc3. destruct (fr_cells _ _ H2 _ _ Hc3) as (c2 & f2 & k2 & Hc2 & Hs2 & Hs2' & ? & ? & ?).
    destruct (fr_cells _ _ H1 _ _ Hc2) as (c1 & f1 & k1 & Hc1 & Hs1 & Hs1' & ? & ? & ?).
    exists c1, f1, k2. split_and!; try congruence. rewrite Hs2'. f_equal.
    assert (f2 = set_refs k1 f1) as -> by (rewrite <- (decode_encode f2), <- Hs2, Hs1'; apply decode_encode).
    done.
Qed.

Lemma refcnt_cons X w p q : refcnt (p :: X) w q = (Nat.b2n (bool_decide (q = p)) + refcnt X w q)%nat.
Proof. unfold refcnt. rewrite cnt_cons. lia. Qed.

Lemma frame_put_refs w p c f k :
  cells w !! p = Some c → state c = encode f →
  frame w (set_cells (<[p := with_state c (encode (set_refs k f))]>) w).
Proof.
  intros Hc Hf. split; try done. intros q c'. simpl. rewrite lookup_insert_Some.
  intros [[<- <-]|[Hne Hq]]; [by exists c, f, k|].
  exists c', (decode (state c')), (refs (decode (state c'))).
  split_and!; try done; by rewrite ?set_refs_id, encode_decode.
Qed.

(** Changing the count only. *)
Lemma cell_ok_refs t n n' q j r c f :
  cell_ok t n q j r c f → n' ≠ 0%nat → Z.of_nat n' < 2 ^ 59 →
  cell_ok t n' q j r (with_state c (encode (set_refs (Z.of_nat n') f))) (set_refs (Z.of_nat n') f).
Proof. intros [] Hn Hb. split; try done. unfold Flags_ok. simpl. lia. Qed.

Lemma state_ref_inc_spec t X Q run w p :
  Inv t X Q run w → refcnt X w p ≠ 0%nat →
  permits (state_ref_inc p w) (λ '(_, w'), Inv t (p :: X) Q run w' ∧ frame w w').
Proof.
  intros HI Hp. destruct (Inv_lookup _ _ _ _ _ _ HI Hp) as (c & f & Hc & Hok).
  unfold state_ref_inc. pose proof (ok_state _ _ _ _ _ _ _ Hok) as Hst.
  destruct (ref_inc_encode f (ok_flags _ _ _ _ _ _ _ Hok)) as [Hi|[Hb Hi]].
  { by rewrite (on_state_Panic w p c) by (done || by rewrite Hst, Hi). }
  rewrite (on_state_eq w p c _ tt (encode (set_refs (refs f + 1) f))) by (done || by rewrite Hst, Hi).
  rewrite (ok_refs _ _ _ _ _ _ _ Hok) in *.
  replace (Z.of_nat (refcnt X w p) + 1) with (Z.of_nat (refcnt (p :: X) w p)).
  2: { rewrite refcnt_cons, bool_decide_eq_true_2 by done. simpl. lia. }
  split; [|by apply frame_put_refs].
  eapply (Inv_update t X _ Q Q run run w _ p c); try done.
  - intros q Hne. rewrite refcnt_cons, bool_decide_eq_false_2, refcnt_put with (c := c) by done. done.
  - rewrite (refcnt_put _ w p c) by done. eapply cell_ok_refs; [done|..].
    all: rewrite refcnt_cons, bool_decide_eq_true_2 by done; simpl; lia.
Qed.

(** Dropping a reference that is not the last. *)
Lemma state_ref_dec_spec t X Q run w p :
  Inv t (p :: X) Q run w →
  ∃ c f, cells w !! p = Some c ∧
    state_ref_dec p w = Ret (bool_decide (refcnt X w p = 0%nat),
      set_cells (<[p := with_state c (encode (set_refs (Z.of_nat (refcnt X w p)) f))]>) w) ∧
    state c = encode f ∧
    (refcnt X w p ≠ 0%nat →
     Inv t X Q run (set_cells (<[p := with_state c (encode (set_refs (Z.of_nat (refcnt X w p)) f))]>) w)).
Proof.
  intros HI. assert (Hr : refcnt (p :: X) w p = S (refcnt X w p)).
  { by rewrite refcnt_cons, bool_decide_eq_true_2. }
  destruct (Inv_lookup t (p :: X) Q run w p HI) as (c & f & Hc & Hok); [lia|].
  exists c, f. pose proof (ok_refs _ _ _ _ _ _ _ Hok) as Hrefs. rewrite Hr in Hrefs.
  pose proof (ok_state _ _ _ _ _ _ _ Hok) as Hst. pose proof (ok_flags _ _ _ _ _ _ _ Hok) as Hfl.
  split_and!; [done| |done|].
  - unfold state_ref_dec. erewrite (on_state_eq w p c); [reflexivity|done|].
    rewrite Hst, ref_dec_encode by (done || lia). simpl. do 3 f_equal.
    + f_equal. apply bool_decide_ext. lia.
    + do 2 f_equal. lia.
  - intros Hn. eapply (Inv_update t _ X Q Q run run w _ p c); try done.
    + intros q Hne. rewrite (refcnt_put X w p c) by done.
      by rewrite refcnt_cons, bool_decide_eq_false_2.
    + rewrite (refcnt_put _ w p c) by done. eapply cell_ok_refs; [done..|].
      unfold Flags_ok in Hfl. lia.
Qed.

(** The task being polled, and those about to be queued, are kept alive. *)
Definition keeps (X Q : list ptr) (run : option ptr) : Prop :=
  ∀ q, run = Some q ∨ cnt q Q ≠ 0%nat → cnt q X ≠ 0%nat.

Lemma keeps_app Y X Q run : keeps X Q run → keeps (Y ++ X) Q run.
Proof. intros H q Hq. rewrite cnt_app. specialize (H q Hq). lia. Qed.
Lemma keeps_cons p X Q run : keeps X Q run → keeps (p :: X) Q run.
Proof. apply (keeps_app [p]). Qed.
Lemma keeps_none X : keeps X [] None.
Proof. intros q [H|H]; done. Qed.

Lemma refcnt_app Y X w q : refcnt (Y ++ X) w q = (cnt q Y + refcnt X w q)%nat.
Proof. unfold refcnt. rewrite cnt_app. lia. Qed.

Lemma Inv_dealloc t X Q run w w' p c :
  Inv t (p :: X) Q run w → keeps X Q run → refcnt X w p = 0%nat → cells w !! p = Some c →
  cells w' = delete p (cells w) → tasks w' = tasks w → held w' = held w → joins w' = joins w →
  thread_id w' = thread_id w → fresh w' = fresh w →
  Inv t (opt_ptr (trailer_waker c) ++ X) Q run w'.
Proof.
  intros HI Hk Hp Hc Hcs Htk Hhd Hj Htid Hfr.
  assert (Hr : ∀ q, refcnt (opt_ptr (trailer_waker c) ++ X) w' q = refcnt X w q).
  { intros q. unfold refcnt. rewrite cnt_app, Hcs, Htk, Hhd, Hj, (cnt_trailer_delete _ _ _ q Hc). lia. }
  assert (Hr' : ∀ q, q ≠ p → refcnt (p :: X) w q = refcnt X w q).
  { intros q Hq. by rewrite refcnt_cons, bool_decide_eq_false_2. }
  split.
  - intros q d. rewrite Hcs, lookup_delete_Some. intros [Hne Hq].
    rewrite Hr, Htk, Hj, <- Hr' by done. by apply HI.
  - intros q. rewrite Hcs, Hr. destruct (decide (q = p)) as [->|Hne].
    { intros _. assert (Hx : cnt p X = 0%nat) by (unfold refcnt in Hp; lia).
      specialize (Hk p). split_and!; [done| |].
      - destruct (decide (cnt p Q = 0%nat)); [done|]. rewrite Hx in Hk. by destruct Hk; [by right|].
      - intros ->. by destruct Hk; [by left|]. }
    rewrite lookup_delete_ne by done. rewrite <- Hr' by done. apply HI.
  - intros q. rewrite Hcs, Hfr. intros [d [_ Hd]%lookup_delete_Some]. eapply (inv_fresh _ _ _ _ _ HI). eauto.
  - rewrite Htid. apply HI.
  - apply HI.
Qed.

Lemma drop_reference_fuel_spec fuel t X Q run w p :
  Inv t (p :: X) Q run w → keeps X Q run → (size (cells w) < fuel)%nat →
  yields (drop_reference_ fuel p w) (λ '(_, w'), Inv t X Q run w' ∧ frame w w').
Proof.
  revert t X Q run w p. induction fuel as [|fuel IH]; intros t X Q run w p HI Hk Hsz; [lia|].
  simpl. destruct (state_ref_dec_spec _ _ _ _ _ _ HI) as (c & f & Hc & Heq & Hst & Hlive).
  rewrite (bindM_eq _ _ _ _ _ Heq).
  set (w1 := set_cells (<[p := with_state c (encode (set_refs (Z.of_nat (refcnt X w p)) f))]>) w) in *.
  case_bool_decide as Hz; [|split; [by apply Hlive|by apply frame_put_refs]].
  unfold dealloc_. erewrite (bindM_eq _ _ w1); [|apply get_cell_eq; simpl; apply lookup_insert_eq].
  set (w2 := set_cells (delete p) w1).
  erewrite (bindM_eq _ _ w1 tt w2) by done. simpl.
  assert (Hcs2 : cells w2 = delete p (cells w)) by (simpl; apply delete_insert_eq).
  assert (HI2 : Inv t (opt_ptr (trailer_waker c) ++ X) Q run w2) by by eapply Inv_dealloc.
  assert (Hfr : frame w w2).
  { split; try done. intros q c' Hq. rewrite Hcs2 in Hq. apply lookup_delete_Some in Hq as [_ Hq].
    exists c', (decode (state c')), (refs (decode (state c'))).
    split_and!; try done; by rewrite ?set_refs_id, encode_decode. }
  destruct (trailer_waker c) as [[q|]|]; [|done..].
  eapply yields_mono; [eapply (IH _ X Q run w2 q); [done|done|]|].
  - rewrite Hcs2. assert (is_Some (cells w !! p)) as Hp by eauto.
    rewrite (map_size_delete_Some _ _ Hp). pose proof (map_size_ne_0_lookup_2 _ _ Hp). lia.
  - intros [_ w'] [HI' Hfr']. split; [done|]. by trans w2.
Qed.

Lemma drop_reference_spec t X Q run w p :
  Inv t (p :: X) Q run w → keeps X Q run →
  yields (drop_reference p w) (λ '(_, w'), Inv t X Q run w' ∧ frame w w').
Proof. intros. apply drop_reference_fuel_spec; [done..|lia]. Qed.

Lemma drop_waker_spec t X Q run w wk :
  Inv t (waker_ptr wk ++ X) Q run w → keeps X Q run →
  yields (drop_waker wk w) (λ '(_, w'), Inv t X Q run w' ∧ frame w w').
Proof. destruct wk as [p|]; simpl; [apply drop_reference_spec|done]. Qed.

Lemma clone_waker_spec t X Q run w wk :
  Inv t X Q run w → (∀ p, wk = TaskWaker p → refcnt X w p ≠ 0%nat) →
  permits (clone_waker wk w) (λ '(wk', w'),
    wk' = wk ∧ Inv t (waker_ptr wk ++ X) Q run w' ∧ frame w w').
Proof.
  intros HI Hwk. destruct wk as [p|]; simpl; [|done].
  eapply permits_bindM; [apply state_ref_inc_spec; [done|by apply Hwk]|].
  by intros [] w' [? ?].
Qed.

(** ** Waking *)

(** A notification of [p] is recorded, or no longer matters. *)
Definition woken (w : World) (p : ptr) : Prop :=
  ∀ c, cells w !! p = Some c → is_notified (state c) = true ∨ is_complete (state c) = true.

Lemma woken_frame w w' p : woken w p → frame w w' → woken w' p.
Proof.
  intros Hw Hf c' Hc'. destruct (fr_cells _ _ Hf _ _ Hc') as (c & f & k & Hc & Hs & Hs' & _).
  specialize (Hw c Hc). rewrite Hs, Hs' in *.
  rewrite is_notified_encode, is_complete_encode in *. by destruct f.
Qed.

(** Stages, completion and join handles are left alone. *)
Definition stage_frame (w w' : World) : Prop :=
  joins w' = joins w ∧
  ∀ q c', cells w' !! q = Some c' → ∃ c, cells w !! q = Some c ∧ stage c' = stage c ∧
    is_complete (state c') = is_complete (state c).

#[export] Instance stage_frame_preorder : PreOrder stage_frame.
Proof.
  split; [by intros w; split; eauto|].
  intros w1 w2 w3 [J1 H1] [J2 H2]. split; [congruence|]. intros q c3 Hc3.
  destruct (H2 _ _ Hc3) as (c2 & Hc2 & ? & ?). destruct (H1 _ _ Hc2) as (c1 & ? & ? & ?).
  exists c1. split_and!; congruence.
Qed.
Lemma frame_stage w w' : frame w w' → stage_frame w w'.
Proof.
  intros Hf. split; [apply Hf|]. intros q c' Hc'.
  destruct (fr_cells _ _ Hf _ _ Hc') as (c & f & k & Hc & Hs & Hs' & Hst & _).
  exists c. split_and!; [done..|]. by rewrite Hs, Hs', !is_complete_encode.
Qed.
Lemma stage_frame_cells w w' : cells w' = cells w → joins w' = joins w → stage_frame w w'.
Proof. intros H1 H2. split; [done|]. rewrite H1. eauto. Qed.

Lemma is_remote_false t X Q run w :
  Inv t X Q run w → is_remote_task t w = Ret (false, w).
Proof.
  intros HI. unfold is_remote_task.
  rewrite bool_decide_eq_false_2 by apply (inv_default _ _ _ _ _ HI).
  unfold gets, mbind, stateM_bind. rewrite (inv_tid _ _ _ _ _ HI).
  by rewrite bool_decide_eq_false_2 by naive_solver.
Qed.

Lemma cell_ok_notify t n q j r c f :
  cell_ok t n q j r c f →
  let f' := if running f || negb (complete f) then set_field 2 true f else f in
  cell_ok t n (if running f || complete f || notified f then q else S q) j r
          (with_state c (encode f')) f'.
Proof.
  intros [? Hfl Hrefs Hpos Hown Hrun Hex Hq Hj Hji Hjn Hw Hst] f'.
  destruct f as [fr fc fn fj fw k]. simpl in *. subst f'.
  destruct fr, fc; try done; simpl in *; try destruct fn; simpl in *; subst q; by split.
Qed.

(** Marking a task notified: it is to be queued exactly if the transition says
    so. *)
Lemma notify_spec t X Q run w p :
  Inv t X Q run w → refcnt X w p ≠ 0%nat →
  ∃ r w', on_state p (transition_to_notified quiet 1) w = Ret (r, w') ∧
    woken w' p ∧ Inv t X (match r with Submit => p :: Q | DoNothing => Q end) run w' ∧
    (∀ q, refcnt X w' q = refcnt X w q) ∧ stage_frame w w'.
Proof.
  intros HI Hp. destruct (Inv_lookup _ _ _ _ _ _ HI Hp) as (c & f & Hc & Hok).
  pose proof (ok_state _ _ _ _ _ _ _ Hok) as Hst.
  do 2 eexists. split_and!.
  - eapply on_state_eq; [done|]. rewrite Hst. apply transition_to_notified_encode.
  - intros c'. simpl. rewrite lookup_insert_eq. intros [= <-]. simpl.
    rewrite is_notified_encode, is_complete_encode. destruct f as [[] [] [] ? ? ?]; auto.
  - eapply Inv_put; [done|done|done|..].
    + intros q Hq. destruct (running f || complete f || notified f); [done|].
      by rewrite cnt_cons, bool_decide_eq_false_2.
    + done.
    + apply cell_ok_notify in Hok. simpl in Hok.
      destruct (running f || complete f || notified f); [done|].
      rewrite cnt_app in *. rewrite cnt_cons, bool_decide_eq_true_2 by done. exact Hok.
  - intros q. by apply refcnt_put with (c := c).
  - split; [done|]. intros q c'. simpl. rewrite lookup_insert_Some.
    intros [[<- <-]|[_ Hq]]; [|eauto]. exists c. split_and!; [done..|]. simpl.
    rewrite Hst, !is_complete_encode. by destruct f as [[] [] [] ? ? ?].
Qed.

Lemma schedule_spec t X Q run w p :
  Inv t (p :: X) (p :: Q) run w →
  yields (schedule p w) (λ '(_, w'), Inv t X Q run w' ∧ cells w' = cells w ∧ joins w' = joins w).
Proof.
  intros HI. unfold schedule, gets, lift, mbind, stateM_bind. rewrite (inv_tid _ _ _ _ _ HI). simpl.
  split; [|done]. eapply Inv_move; [done|done|done|done|..]; intros q; simpl; [|..|done].
  all: unfold refcnt; simpl; rewrite ?cnt_cons, ?cnt_app, ?cnt_cons, ?cnt_nil; lia.
Qed.
Lemma yield_now_spec t X Q run w p :
  Inv t (p :: X) (p :: Q) run w →
  yields (yield_now p w) (λ '(_, w'), Inv t X Q run w' ∧ cells w' = cells w ∧ tasks w' = p :: tasks w).
Proof.
  intros HI. unfold yield_now, gets, lift, mbind, stateM_bind. rewrite (inv_tid _ _ _ _ _ HI). simpl.
  split; [|done]. eapply Inv_move; [done|done|done|done|..]; intros q; simpl; [|..|done].
  all: unfold refcnt; simpl; rewrite ?cnt_cons, ?cnt_app, ?cnt_cons, ?cnt_nil; lia.
Qed.

Lemma woken_cells w w' p : cells w' = cells w → woken w p → woken w' p.
Proof. unfold woken. by intros ->. Qed.

Lemma wake_by_val_spec t X Q run w p :
  Inv t (p :: X) Q run w → keeps X Q run →
  yields (wake_by_val p w) (λ '(_, w'), Inv t X Q run w' ∧ woken w' p).
Proof.
  intros HI Hk. unfold wake_by_val.
  assert (Hp : refcnt (p :: X) w p ≠ 0%nat) by (rewrite refcnt_cons, bool_decide_eq_true_2; done).
  destruct (Inv_lookup _ _ _ _ _ _ HI Hp) as (c & f & Hc & Hok).
  rewrite (bindM_eq _ _ _ _ _ (get_cell_eq _ _ _ Hc)), (ok_owner _ _ _ _ _ _ _ Hok).
  rewrite (bindM_eq _ _ _ _ _ (is_remote_false _ _ _ _ _ HI)).
  destruct (notify_spec _ _ _ _ _ _ HI Hp) as (r & w' & Heq & Hwk & HI' & _ & Hsf).
  rewrite (bindM_eq _ _ _ _ _ Heq). destruct r.
  - eapply yields_mono; [by apply drop_reference_spec|]. intros [_ w''] [? ?].
    split; [done|]. by eapply woken_frame.
  - eapply yields_mono; [by apply schedule_spec|]. intros [_ w''] (? & ? & ?).
    split; [done|]. by eapply woken_cells.
Qed.

Lemma wake_by_ref_spec t X Q run w p :
  Inv t X Q run w → refcnt X w p ≠ 0%nat →
  permits (wake_by_ref p w) (λ '(_, w'), Inv t X Q run w' ∧ woken w' p ∧ stage_frame w w').
Proof.
  intros HI Hp. unfold wake_by_ref.
  destruct (Inv_lookup _ _ _ _ _ _ HI Hp) as (c & f & Hc & Hok).
  rewrite (bindM_eq _ _ _ _ _ (get_cell_eq _ _ _ Hc)), (ok_owner _ _ _ _ _ _ _ Hok).
  rewrite (bindM_eq _ _ _ _ _ (is_remote_false _ _ _ _ _ HI)).
  destruct (notify_spec _ _ _ _ _ _ HI Hp) as (r & w' & Heq & Hwk & HI' & Href & Hsf).
  rewrite (bindM_eq _ _ _ _ _ Heq). destruct r; [done|].
  eapply permits_bindM; [apply state_ref_inc_spec; [done|by rewrite Href]|].
  intros [] w1 [HI1 Hf1]. apply yields_permits.
  eapply yields_mono; [by apply schedule_spec|]. intros [_ w''] (? & ? & ?).
  split_and!; [done|eapply woken_cells; [done|]; by eapply woken_frame|].
  trans w1; [trans w'; [done|by apply frame_stage]|by apply stage_frame_cells].
Qed.

(** Waking any waker the code can hold. *)
Definition waker_woken (w : World) (wk : Waker) : Prop :=
  match wk with TaskWaker p => woken w p | DummyWaker => SHOULD_POLL w = true end.

Lemma Inv_poll t X Q run w b : Inv t X Q run w → Inv t X Q run (set_SHOULD_POLL b w).
Proof. intros HI. by eapply Inv_move. Qed.

Lemma Waker_wake_spec t X Q run w wk :
  Inv t (waker_ptr wk ++ X) Q run w → keeps X Q run →
  yields (Waker_wake wk w) (λ '(_, w'), Inv t X Q run w' ∧ waker_woken w' wk).
Proof.
  destruct wk as [p|]; simpl; [apply wake_by_val_spec|]. intros. split; [by apply Inv_poll|done].
Qed.
Lemma Waker_wake_by_ref_spec t X Q run w wk :
  Inv t X Q run w → (∀ p, wk = TaskWaker p → refcnt X w p ≠ 0%nat) →
  permits (Waker_wake_by_ref wk w) (λ '(_, w'),
    Inv t X Q run w' ∧ waker_woken w' wk ∧ stage_frame w w').
Proof.
  intros HI Hwk. destruct wk as [p|]; simpl; [apply wake_by_ref_spec; auto|].
  split_and!; [by apply Inv_poll|done|by apply stage_frame_cells].
Qed.

(** ** Join handles *)

(** Cell [p] has the flags [f], whatever its count, the stage [s] and the
    trailer waker [wk]. *)
Definition cell_at (w : World) (p : ptr) (f : Flags) (s : Stage) (wk : option Waker) : Prop :=
  ∃ c k, cells w !! p = Some c ∧ state c = encode (set_refs k f) ∧ stage c = s ∧ trailer_waker c = wk.

Lemma cell_at_frame t X Q run w w' p f s wk :
  cell_at w p f s wk → frame w w' → Inv t X Q run w' → refcnt X w' p ≠ 0%nat →
  cell_at w' p f s wk.
Proof.
  intros (c & k & Hc & Hs & Hst & Hwk) Hfr HI Hp.
  destruct (Inv_lookup _ _ _ _ _ _ HI Hp) as (c' & f' & Hc' & _).
  destruct (fr_cells _ _ Hfr _ _ Hc') as (c0 & f0 & k' & Hc0 & Hs0 & Hs' & ? & ? & _).
  rewrite Hc in Hc0. injection Hc0 as <-. exists c', k'. split_and!; try congruence.
  rewrite Hs'. f_equal. rewrite Hs in Hs0. apply (f_equal decode) in Hs0.
  rewrite !decode_encode in Hs0. by subst f0.
Qed.

(** A join handle keeps its task alive. *)
Lemma join_alive X w p : p ∈ joins w → refcnt X w p ≠ 0%nat.
Proof. rewrite cnt_elem. unfold refcnt. lia. Qed.

Lemma cell_ok_trailer t n q j r c f wk :
  cell_ok t n q j r c f → (join_interest f = true → join_waker f = true → is_Some wk) →
  cell_ok t n q j r (mkCell (state c) (owner_id c) (stage c) wk) f.
Proof. intros [] Hw. by split. Qed.

Lemma Trailer_set_waker_spec t X Q run w p c f wk :
  Inv t (opt_ptr wk ++ X) Q run w → keeps X Q run → p ∈ joins w →
  cells w !! p = Some c → state c = encode f →
  (join_interest f = true → join_waker f = true → is_Some wk) →
  yields (Trailer_set_waker p wk w) (λ '(_, w'),
    Inv t X Q run w' ∧ joins w' = joins w ∧ cell_at w' p f (stage c) wk).
Proof.
  intros HI Hk Hj Hc Hst Hw. unfold Trailer_set_waker.
  rewrite (bindM_eq _ _ _ _ _ (get_cell_eq _ _ _ Hc)).
  set (c' := mkCell (state c) (owner_id c) (stage c) wk). set (w1 := set_cells (<[p := c']>) w).
  erewrite (bindM_eq _ _ w tt w1) by done.
  assert (HI1 : Inv t (opt_ptr (trailer_waker c) ++ X) Q run w1).
  { destruct (inv_cell _ _ _ _ _ HI _ _ Hc) as [f0 Hok].
    assert (f0 = f) as ->.
    { apply ok_state in Hok. rewrite Hst in Hok. apply (f_equal decode) in Hok.
      by rewrite !decode_encode in Hok. }
    assert (Hr : ∀ q, refcnt (opt_ptr (trailer_waker c) ++ X) w1 q = refcnt (opt_ptr wk ++ X) w q).
    { intros q. unfold refcnt. rewrite !cnt_app. simpl.
      pose proof (cnt_trailer_insert _ _ _ c' q Hc). simpl in *. lia. }
    eapply (Inv_update t _ _ Q Q run run w w1 p c c' f); try done.
    rewrite Hr. by apply cell_ok_trailer. }
  assert (Hat : cell_at w1 p f (stage c) wk).
  { exists c', (refs f). simpl. rewrite lookup_insert_eq, set_refs_id. done. }
  destruct (trailer_waker c) as [old|].
  - eapply yields_mono; [by apply (drop_waker_spec t X Q run)|]. intros [_ w2] [HI2 Hf2].
    split_and!; [done|by rewrite (fr_joins _ _ Hf2)|].
    eapply cell_at_frame; [done..|]. apply join_alive. by rewrite (fr_joins _ _ Hf2).
  - done.
Qed.

Lemma set_join_waker_spec t X Q run w p c f wk snapshot :
  Inv t (waker_ptr wk ++ X) Q run w → keeps X Q run → p ∈ joins w →
  cells w !! p = Some c → state c = encode f →
  complete f = false → join_interest f = true → join_waker f = false →
  is_join_interested snapshot = true → has_join_waker snapshot = false →
  yields (set_join_waker p wk snapshot w) (λ '(r, w'),
    (∃ s, r = UpdateOk s) ∧ Inv t X Q run w' ∧ joins w' = joins w ∧
    cell_at w' p (set_field 4 true f) (stage c) (Some wk)).
Proof.
  intros HI Hk Hj Hc Hst Hcf Hji Hjw Hs1 Hs2. unfold set_join_waker.
  rewrite Hs1, Hs2. rewrite (bindM_eq _ _ w tt w) by done. rewrite (bindM_eq _ _ w tt w) by done.
  eapply yields_bindM.
  { apply (Trailer_set_waker_spec t X Q run w p c f (Some wk)); try done. }
  intros [] w1 (HI1 & Hj1 & c1 & k & Hc1 & Hst1 & Hsg1 & Hw1).
  pose proof (inv_cell _ _ _ _ _ HI1 _ _ Hc1) as [f1 Hok1].
  assert (f1 = set_refs k f) as ->.
  { apply ok_state in Hok1. rewrite Hst1 in Hok1. apply (f_equal decode) in Hok1.
    by rewrite !decode_encode in Hok1. }
  set (w2 := set_cells (<[p := with_state c1 (encode (set_field 4 true (set_refs k f)))]>) w1).
  erewrite (bindM_eq _ _ w1 _ w2).
  2: { apply on_state_eq; [done|]. rewrite Hst1, set_join_waker_eq by done. simpl. by rewrite Hcf. }
  cbn [is_err]. rewrite (bindM_eq _ _ w2 tt w2) by done. split_and!; [eauto| |done|].
  - eapply (Inv_put _ _ _ _ _ _ _ _ _ _ (set_field 4 true (set_refs k f)));
      [done|done|done|done|done|].
    destruct Hok1 as []. destruct f. split; simpl in *; done.
  - eexists _, k. split; [apply lookup_insert_eq|]. simpl. by destruct f.
Qed.

Lemma cell_flags t n q j r c f f0 : cell_ok t n q j r c f → state c = encode f0 → f0 = f.
Proof.
  intros Hok Hs. apply ok_state in Hok. rewrite Hs in Hok. apply (f_equal decode) in Hok.
  by rewrite !decode_encode in Hok.
Qed.

Lemma Trailer_will_wake_eq w p c old wk :
  cells w !! p = Some c → trailer_waker c = Some old →
  Trailer_will_wake p wk w = Ret (will_wake old wk, w).
Proof.
  intros Hc Ho. unfold Trailer_will_wake.
  rewrite (bindM_eq _ _ _ _ _ (get_cell_eq _ _ _ Hc)), Ho. done.
Qed.

(** The first half of [can_read_output], when the task is not complete: the
    waker is registered, or was already. *)
Lemma can_read_output_pending t X Q run w p c f wk :
  Inv t X Q run w → keeps X Q run → p ∈ joins w →
  cells w !! p = Some c → state c = encode f → complete f = false →
  (∀ q, wk = TaskWaker q → refcnt X w q ≠ 0%nat) →
  permits (can_read_output p wk w) (λ '(r, w'),
    r = false ∧ Inv t X Q run w' ∧ joins w' = joins w ∧
    cell_at w' p (set_field 4 true f) (stage c) (Some wk)).
Proof.
  intros HI Hk Hj Hc Hst Hcf Hwk. unfold can_read_output.
  destruct (inv_cell _ _ _ _ _ HI _ _ Hc) as [f0 Hok].
  pose proof (cell_flags _ _ _ _ _ _ _ _ Hok Hst) as <-.
  assert (Hji : join_interest f = true).
  { apply (ok_interest _ _ _ _ _ _ _ Hok). apply cnt_elem in Hj.
    destruct (ok_join _ _ _ _ _ _ _ Hok); congruence. }
  rewrite (bindM_eq _ _ _ _ _ (get_cell_eq _ _ _ Hc)).
  rewrite (bindM_eq _ _ w tt w).
  2: { unfold lift. rewrite Hst, is_join_interested_encode, Hji. by rewrite debug_assert_true. }
  rewrite Hst, is_complete_encode, Hcf, has_join_waker_encode. cbn [negb].
  assert (Hset : ∀ w0 c0 f0, Inv t X Q run w0 → joins w0 = joins w → cells w0 !! p = Some c0 →
    state c0 = encode f0 → complete f0 = false → join_interest f0 = true → join_waker f0 = false →
    (∀ q, refcnt X w0 q = refcnt X w q) → ∀ s, is_join_interested s = true → has_join_waker s = false →
    permits ((wk' ← clone_waker wk; res ← set_join_waker p wk' s; mret (Some res)) w0) (λ '(r, w'),
      (∃ s, r = Some (UpdateOk s)) ∧ Inv t X Q run w' ∧ joins w' = joins w ∧
      cell_at w' p (set_field 4 true f0) (stage c0) (Some wk))).
  { intros w0 c0 f0 HI0 Hj0 Hc0 Hst0 Hcf0 Hji0 Hjw0 Hr0 s Hs1 Hs2.
    eapply permits_bindM.
    { apply (clone_waker_spec t X Q run w0 wk HI0). intros q ->. rewrite Hr0. by apply Hwk. }
    intros wk' w1 (-> & HI1 & Hf1).
    destruct (Inv_lookup _ _ _ _ _ p HI1) as (c1 & f1 & Hc1 & Hok1).
    { apply join_alive. rewrite (fr_joins _ _ Hf1). congruence. }
    destruct (fr_cells _ _ Hf1 _ _ Hc1) as (c' & f' & k & Hc' & Hs' & Hs1' & Hsg & Htw & _).
    rewrite Hc0 in Hc'. injection Hc' as <-.
    assert (f' = f0) as ->.
    { rewrite Hst0 in Hs'. apply (f_equal decode) in Hs'. by rewrite !decode_encode in Hs'. }
    eapply permits_bindM.
    { apply yields_permits, (set_join_waker_spec t X Q run w1 p c1 (set_refs k f0) wk s); try done.
      - rewrite (fr_joins _ _ Hf1). congruence. }
    intros r w2 ((s2 & ->) & HI2 & Hj2 & c2 & k2 & Hc2 & Hst2 & Hsg2 & Hw2). simpl.
    split_and!; [eauto|done|rewrite Hj2, (fr_joins _ _ Hf1); congruence|].
    exists c2, k2. split_and!; [done| |congruence|done]. rewrite Hst2. by destruct f0. }
  destruct (join_waker f) eqn:Hjw.
  - (* already a waker *)
    destruct (ok_waker _ _ _ _ _ _ _ Hok Hji Hjw) as [old Hold].
    pose proof (Trailer_will_wake_eq w p c old wk Hc Hold) as Hww.
    unfold will_wake in Hww. case_bool_decide as Hsame.
    + subst old. erewrite (bindM_eq _ _ w None w) by by rewrite (bindM_eq _ _ _ _ _ Hww).
      simpl. split_and!; [done..|]. exists c, (refs f). split_and!; try done.
      rewrite Hst. f_equal. destruct f. simpl in *. by subst.
    + set (w1 := set_cells (<[p := with_state c (encode (set_field 4 false f))]>) w).
      assert (Hun : on_state p (unset_waker quiet 1) w = Ret (UpdateOk (encode (set_field 4 false f)), w1)).
      { apply on_state_eq; [done|]. rewrite Hst, unset_waker_eq; [by rewrite Hcf| |done..].
        apply (ok_flags _ _ _ _ _ _ _ Hok). }
      assert (HI1 : Inv t X Q run w1).
      { eapply (Inv_put _ _ _ _ _ _ _ _ _ _ (set_field 4 false f)); [done..|].
        destruct Hok as []. destruct f. split; simpl in *; done. }
      assert (Hc1 : cells w1 !! p = Some (with_state c (encode (set_field 4 false f))))
        by apply lookup_insert_eq.
      eapply permits_bindM.
      { rewrite (bindM_eq _ _ _ _ _ Hww), (bindM_eq _ _ _ _ _ Hun).
        apply (Hset w1 _ (set_field 4 false f) HI1 eq_refl Hc1); try by destruct f.
        - intros q. by apply refcnt_put with (c := c).
        - rewrite is_join_interested_encode. by destruct f.
        - rewrite has_join_waker_encode. by destruct f. }
      intros r w' ((s & ->) & ? & ? & c2 & k2 & ? & Hs2 & ? & ?). simpl.
      split_and!; [done..|]. exists c2, k2. split_and!; try done. rewrite Hs2. by destruct f.
  - assert (Hp := Hset w c f HI eq_refl Hc Hst Hcf Hji Hjw (λ _, eq_refl) (encode f)).
    rewrite is_join_interested_encode, has_join_waker_encode in Hp. specialize (Hp Hji Hjw).
    eapply permits_bindM; [apply Hp|]. intros r w' ((s & ->) & ? & ? & ?). by simpl.
Qed.

Lemma Inv_set_stage_consumed t X Q run w p c f :
  Inv t X Q run w → cells w !! p = Some c → state c = encode f → complete f = true →
  Inv t X Q run (set_cells (<[p := mkCell (state c) (owner_id c) Consumed (trailer_waker c)]>) w).
Proof.
  intros HI Hc Hst Hcf. destruct (inv_cell _ _ _ _ _ HI _ _ Hc) as [f0 Hok].
  pose proof (cell_flags _ _ _ _ _ _ _ _ Hok Hst) as <-.
  eapply (Inv_put _ _ _ _ _ _ _ _ _ _ f); [done..|].
  destruct Hok as []. split; simpl; try done. by rewrite Hcf.
Qed.

(** What polling a join handle does: the output if the task is complete (a panic
    if it was taken before), otherwise the waker is registered. *)
Definition join_polled (w w' : World) (p : ptr) (wk : Waker) (r : option Out) : Prop :=
  match r with
  | Some out => ∃ c, cells w !! p = Some c ∧ is_complete (state c) = true ∧ stage c = Finished out
  | None => (∃ c, cells w !! p = Some c ∧ is_complete (state c) = false) ∧
            ∃ c', cells w' !! p = Some c' ∧ is_complete (state c') = false ∧
                  has_join_waker (state c') = true ∧ trailer_waker c' = Some wk
  end.

Lemma JoinHandle_poll_spec t X Q run w p wk :
  Inv t X Q run w → keeps X Q run → p ∈ joins w →
  (∀ q, wk = TaskWaker q → refcnt X w q ≠ 0%nat) →
  permits (JoinHandle_poll p wk w) (λ '(r, w'),
    Inv t X Q run w' ∧ joins w' = joins w ∧ join_polled w w' p wk r).
Proof.
  intros HI Hk Hj Hwk. unfold JoinHandle_poll, try_read_output.
  destruct (Inv_lookup _ _ _ _ _ p HI (join_alive _ _ _ Hj)) as (c & f & Hc & Hok).
  pose proof (ok_state _ _ _ _ _ _ _ Hok) as Hst.
  destruct (complete f) eqn:Hcf.
  - rewrite (bindM_eq _ _ w true w).
    2: { unfold can_read_output. rewrite (bindM_eq _ _ _ _ _ (get_cell_eq _ _ _ Hc)).
         rewrite Hst, is_complete_encode, Hcf, is_join_interested_encode.
         rewrite (bindM_eq _ _ w tt w); [done|]. unfold lift. rewrite debug_assert_true; [done|].
         apply (ok_interest _ _ _ _ _ _ _ Hok). apply cnt_elem in Hj.
         destruct (ok_join _ _ _ _ _ _ _ Hok); congruence. }
    unfold take_output. pose proof (ok_stage _ _ _ _ _ _ _ Hok) as Hsg. rewrite Hcf in Hsg.
    destruct (stage c) as [fut|out|] eqn:Hstage; [done| |].
    + erewrite (bindM_eq (_ ≫= _)).
      2: { rewrite (bindM_eq _ _ _ _ _ (get_cell_eq _ _ _ Hc)).
           rewrite (bindM_eq _ _ _ _ _ (set_stage_eq _ _ _ _ Hc)), Hstage. reflexivity. }
      simpl. split_and!; [by eapply Inv_set_stage_consumed|done|].
      exists c. rewrite Hst, is_complete_encode. done.
    + unfold mbind, stateM_bind. rewrite (get_cell_eq _ _ _ Hc). simpl.
      rewrite (set_stage_eq _ _ _ _ Hc), Hstage. done.
  - eapply permits_bindM; [by eapply can_read_output_pending|].
    intros r w' (-> & HI' & Hj' & c' & k & Hc' & Hst' & _ & Hw'). simpl.
    split_and!; [done|done|exists c; by rewrite Hst, is_complete_encode|].
    exists c'. rewrite Hst', is_complete_encode, has_join_waker_encode.
    destruct f. simpl in *. done.
Qed.

(** Removing the handle from the live ones: its reference is in hand. *)
Lemma refcnt_remove_join X w p q :
  cnt p (joins w) = 1%nat →
  refcnt (p :: X) (set_joins (filter (λ q, q ≠ p)) w) q = refcnt X w q.
Proof.
  intros Hj. rewrite refcnt_cons. unfold refcnt. simpl. rewrite cnt_filter_ne.
  repeat case_bool_decide; subst; simpl; lia.
Qed.

Lemma JoinHandle_drop_spec t X Q run w p :
  Inv t X Q run w → keeps X Q run → p ∈ joins w →
  yields (JoinHandle_drop p (set_joins (filter (λ q, q ≠ p)) w)) (λ '(_, w'), Inv t X Q run w').
Proof.
  intros HI Hk Hj. set (w1 := set_joins _ w).
  destruct (Inv_lookup _ _ _ _ _ p HI (join_alive _ _ _ Hj)) as (c & f & Hc & Hok).
  pose proof (ok_state _ _ _ _ _ _ _ Hok) as Hst.
  apply cnt_elem in Hj. assert (Hj1 : cnt p (joins w) = 1%nat) by (destruct (ok_join _ _ _ _ _ _ _ Hok); lia).
  assert (Hj0 : cnt p (joins w1) = 0%nat) by (simpl; by rewrite cnt_filter_ne, bool_decide_eq_true_2).
  assert (Hjq : ∀ q, q ≠ p → cnt q (joins w1) = cnt q (joins w)).
  { intros q Hq. simpl. by rewrite cnt_filter_ne, bool_decide_eq_false_2. }
  assert (Hrq : ∀ q, refcnt (p :: X) w1 q = refcnt X w q) by (intros; by apply refcnt_remove_join).
  unfold JoinHandle_drop.
  destruct (bool_decide (f = mkFlags false false true true false 2)) eqn:Hinit.
  - apply bool_decide_eq_true in Hinit.
    erewrite (bindM_eq _ _ w1 true).
    2: { apply on_state_eq; [exact Hc|].
         by rewrite Hst, drop_join_handle_fast_encode, bool_decide_eq_true_2. }
    simpl. set (c' := with_state c _).
    pose proof (ok_refs _ _ _ _ _ _ _ Hok) as Hrefs. rewrite Hinit in Hrefs. simpl in Hrefs.
    assert (Hr : ∀ q, refcnt X (set_cells (<[p:=c']>) w1) q = refcnt X w1 q).
    { intros q. by apply (refcnt_put X w1 p c c'). }
    eapply (Inv_update t X X Q Q run run w _ p c c' (mkFlags false false true false false 1)); try done.
    + intros q Hq. rewrite Hr. specialize (Hrq q). rewrite refcnt_cons, bool_decide_eq_false_2 in Hrq by done.
      split_and!; try done. by apply Hjq.
    + rewrite Hr. specialize (Hrq p). rewrite refcnt_cons, bool_decide_eq_true_2 in Hrq by done.
      simpl in Hrq. change (joins (set_cells (<[p:=c']>) w1)) with (joins w1). rewrite Hj0.
      destruct Hok as []. subst f. simpl in *. split; simpl; try done; try lia.
  - assert (Hw1 : on_state p (λ z, let '(b, z) := drop_join_handle_fast quiet z in Ret (Some b, z)) w1
      = Ret (false, set_cells (<[p := with_state c (encode f)]>) w1)).
    { apply on_state_eq; [exact Hc|]. rewrite Hst, drop_join_handle_fast_encode, Hinit. done. }
    rewrite (bindM_eq _ _ _ _ _ Hw1). set (w2 := set_cells _ w1).
    assert (Hc2 : cells w2 !! p = Some (with_state c (encode f))) by apply lookup_insert_eq.
    assert (Hji : join_interest f = true) by by apply (ok_interest _ _ _ _ _ _ _ Hok).
    unfold drop_join_handle_slow.
    assert (Hun := unset_join_interested_eq f (ok_flags _ _ _ _ _ _ _ Hok) Hji).
    assert (Hgo : ∀ c' f' w3, cells w3 = <[p := c']> (cells w) → tasks w3 = tasks w → held w3 = held w →
      joins w3 = joins w1 → thread_id w3 = thread_id w → fresh w3 = fresh w →
      trailer_waker c' = trailer_waker c →
      cell_ok t (refcnt X w p) (cnt p (Q ++ tasks w)) 0 (bool_decide (run = Some p)) c' f' →
      yields (drop_reference p w3) (λ '(_, w'), Inv t X Q run w')).
    { intros c' f' w3 Hcs Htk Hhd Hjj Htid Hfr Htw Hok'.
      assert (Hr : ∀ q, refcnt (p :: X) w3 q = refcnt X w q).
      { intros q. rewrite <- Hrq. unfold refcnt. rewrite Hcs, Htk, Hhd, Hjj.
        pose proof (cnt_trailer_insert _ _ _ c' q Hc). rewrite Htw in *. simpl. lia. }
      eapply yields_mono; [eapply (drop_reference_spec t X Q run); [|done]|by intros [] []].
      eapply (Inv_update t X (p :: X) Q Q run run w w3 p c c' f'); try done.
      - intros q Hq. rewrite Htk, Hjj, Hr. split_and!; try done. by apply Hjq.
      - by rewrite Htk, Hjj, Hr, Hj0. }
    destruct (complete f) eqn:Hcf.
    + erewrite (bindM_eq _ _ w2). 2: { apply on_state_eq; [done|]. simpl. by rewrite Hun. }
      cbn [is_err]. erewrite (bindM_eq _ _ _ tt).
      2: { unfold drop_future_or_output. apply set_stage_eq. apply lookup_insert_eq. }
      eapply (Hgo (mkCell (encode f) (owner_id c) Consumed (trailer_waker c)) f); try done.
      { simpl. by rewrite !insert_insert_eq. }
      destruct Hok as []. split; simpl; try done; auto; by rewrite ?Hcf.
    + erewrite (bindM_eq _ _ w2). 2: { apply on_state_eq; [done|]. simpl. by rewrite Hun. }
      cbn [is_err]. rewrite (bindM_eq _ _ _ tt _ eq_refl).
      eapply (Hgo (with_state c (encode (set_field 3 false f))) (set_field 3 false f)); try done.
      { simpl. by rewrite !insert_insert_eq. }
      destruct Hok as []. destruct f. split; simpl in *; subst; auto; try done;
        rewrite Hj1 in *; by destruct (stage c).
Qed.

(** ** Spawning and the actions of a poll *)

Lemma spawn_spec t X Q run w fut :
  Inv t X Q run w → yields (spawn fut w) (λ '(_, w'), Inv t X Q run w').
Proof.
  intros HI. unfold spawn, gets, lift, alloc_cell, modify, mbind, stateM_bind.
  rewrite (inv_tid _ _ _ _ _ HI). simpl. set (p := fresh w).
  assert (Hfresh : cells w !! p = None).
  { destruct (cells w !! p) eqn:Hp; [|done].
    pose proof (inv_fresh _ _ _ _ _ HI p (mk_is_Some _ _ Hp)). subst p. lia. }
  destruct (inv_dead _ _ _ _ _ HI _ Hfresh) as (Hr0 & HQ0 & Hrun0).
  set (w' := set_joins _ _). set (c := Cell_new t fut).
  assert (Hr : ∀ q, refcnt X w' q = (Nat.b2n (bool_decide (q = p)) * 2 + refcnt X w q)%nat).
  { intros q. unfold refcnt. simpl.
    rewrite cnt_app, !cnt_cons, cnt_nil, (cnt_perm q _ _ (trailer_ptrs_insert_new _ _ _ Hfresh)). simpl. lia. }
  assert (Hq : ∀ q, cnt q (Q ++ tasks w') = (Nat.b2n (bool_decide (q = p)) + cnt q (Q ++ tasks w))%nat).
  { intros q. simpl. rewrite !cnt_app, !cnt_cons, cnt_nil. lia. }
  assert (Hj : ∀ q, cnt q (joins w') = (Nat.b2n (bool_decide (q = p)) + cnt q (joins w))%nat).
  { intros q. simpl. by rewrite cnt_cons. }
  assert (Ht0 : cnt p (Q ++ tasks w) = 0%nat) by (rewrite cnt_app; unfold refcnt in Hr0; lia).
  assert (Hj0 : cnt p (joins w) = 0%nat) by (unfold refcnt in Hr0; lia).
  split; [..|apply HI|apply HI].
  - intros q d. rewrite Hr, Hq, Hj. simpl. destruct (decide (q = p)) as [->|Hne].
    + rewrite lookup_insert_eq. intros [= <-]. rewrite !bool_decide_eq_true_2 by done.
      rewrite bool_decide_eq_false_2 by done. exists (mkFlags false false true true false 2).
      rewrite Hr0, Ht0, Hj0. split; simpl; try done. by right.
    + rewrite lookup_insert_ne by done. rewrite !(bool_decide_eq_false_2 (q = p)) by done. apply HI.
  - intros q. simpl. destruct (decide (q = p)) as [->|Hne]; [by rewrite lookup_insert_eq|].
    rewrite lookup_insert_ne by done. rewrite Hr, bool_decide_eq_false_2 by done. apply HI.
  - intros q. simpl. destruct (decide (q = p)) as [->|Hne]; [lia|].
    rewrite lookup_insert_ne by done. intros Hs%(inv_fresh _ _ _ _ _ HI). lia.
Qed.

Lemma Inv_keep t X Q run w wk :
  Inv t (waker_ptr wk ++ X) Q run w → Inv t X Q run (set_held (cons wk) w).
Proof.
  intros HI. eapply Inv_move; try done. intros q. unfold refcnt. simpl.
  rewrite !cnt_app. lia.
Qed.
Lemma Inv_take t X Q run w i wk :
  Inv t X Q run w → held w !! i = Some wk → Inv t (waker_ptr wk ++ X) Q run (set_held (delete i) w).
Proof.
  intros HI Hi. eapply Inv_move; try done. intros q. unfold refcnt. simpl.
  rewrite !cnt_app, (cnt_held_delete _ _ _ q Hi). lia.
Qed.
Lemma held_alive X w i p : held w !! i = Some (TaskWaker p) → refcnt X w p ≠ 0%nat.
Proof.
  intros Hi. unfold refcnt. rewrite (cnt_held_delete _ _ _ p Hi). simpl.
  rewrite cnt_cons, bool_decide_eq_true_2 by done. simpl. lia.
Qed.
Lemma hand_alive X w p : cnt p X ≠ 0%nat → refcnt X w p ≠ 0%nat.
Proof. unfold refcnt. lia. Qed.

Definition cx_ok (cx : Waker) (X : list ptr) : Prop := ∀ p, cx = TaskWaker p → cnt p X ≠ 0%nat.

Lemma run_action_spec t X run w cx a :
  Inv t X [] run w → keeps X [] run → cx_ok cx X →
  permits (run_action cx a w) (λ '(_, w'), Inv t X [] run w').
Proof.
  intros HI Hk Hcx.
  assert (Hcx' : ∀ p, cx = TaskWaker p → refcnt X w p ≠ 0%nat) by (intros; apply hand_alive; auto).
  assert (Hheld : ∀ i (k : Waker → M unit),
    (∀ wk, held w !! i = Some wk → permits (k wk w) (λ '(_, w'), Inv t X [] run w')) →
    permits (with_held i k w) (λ '(_, w'), Inv t X [] run w')).
  { intros i k Hkk. unfold with_held, gets, mbind, stateM_bind. simpl.
    destruct (held w !! i) eqn:Hi; [by apply Hkk|done]. }
  assert (Hjoin : ∀ p (m : M unit), (p ∈ joins w → permits (m w) (λ '(_, w'), Inv t X [] run w')) →
    permits (with_join p m w) (λ '(_, w'), Inv t X [] run w')).
  { intros p m Hm. unfold with_join, gets, mbind, stateM_bind. simpl. case_bool_decide; [auto|done]. }
  destruct a as [| |i|i|i|i|fut|p|p]; cbn [run_action].
  - eapply permits_mono; [by apply Waker_wake_by_ref_spec|]. by intros [] [].
  - eapply permits_bindM; [by apply clone_waker_spec|]. intros wk w' (-> & HI' & _). by apply Inv_keep.
  - apply Hheld. intros wk Hi. eapply permits_bindM; [apply clone_waker_spec; [done|]|].
    { intros q ->. by eapply held_alive. }
    intros wk' w' (-> & HI' & _). by apply Inv_keep.
  - apply Hheld. intros wk Hi. apply yields_permits.
    erewrite (bindM_eq _ _ w tt) by reflexivity.
    eapply yields_mono; [eapply (Waker_wake_spec t X [] run); [by apply Inv_take|done]|]. by intros [] [].
  - apply Hheld. intros wk Hi. eapply permits_mono; [apply Waker_wake_by_ref_spec; [done|]|by intros [] []].
    intros q ->. by eapply held_alive.
  - apply Hheld. intros wk Hi. apply yields_permits.
    erewrite (bindM_eq _ _ w tt) by reflexivity.
    eapply yields_mono; [eapply (drop_waker_spec t X [] run); [by apply Inv_take|done]|]. by intros [] [].
  - by apply yields_permits, spawn_spec.
  - apply Hjoin. intros Hj. eapply permits_bindM; [by apply JoinHandle_poll_spec|].
    intros [out|] w' (HI' & _); [|done]. simpl. by eapply Inv_move.
  - apply Hjoin. intros Hj. apply yields_permits.
    erewrite (bindM_eq _ _ w tt) by reflexivity. by apply JoinHandle_drop_spec.
Qed.

Lemma run_actions_spec t X run w cx l :
  Inv t X [] run w → keeps X [] run → cx_ok cx X →
  permits (run_actions cx l w) (λ '(_, w'), Inv t X [] run w').
Proof.
  intros HI Hk Hcx. revert w HI. induction l as [|a l IH]; intros w HI; [done|]. simpl.
  eapply permits_bindM; [by apply run_action_spec|]. intros [] w' HI'. by apply IH.
Qed.

(** ** Running a task keeps the invariant *)

Lemma pop_spec t X Q w p q :
  Inv t X Q None w → tasks w = p :: q →
  TaskQueue_pop w = Ret (Some p, set_tasks (λ _, q) w) ∧
  Inv t (p :: X) (p :: Q) None (set_tasks (λ _, q) w).
Proof.
  intros HI Hq. unfold TaskQueue_pop. rewrite Hq. split; [done|].
  eapply Inv_move; try done; intros x.
  - rewrite refcnt_cons. unfold refcnt. simpl. rewrite Hq, cnt_cons. lia.
  - simpl. rewrite Hq, cnt_cons, !cnt_app, cnt_cons. lia.
Qed.

Lemma start_spec t X w p :
  Inv t (p :: X) [p] None w →
  ∃ w', on_state p (transition_to_running quiet 1) w = Ret (tt, w') ∧ Inv t (p :: X) [] (Some p) w'.
Proof.
  intros HI. assert (Hp : refcnt (p :: X) w p ≠ 0%nat) by (rewrite refcnt_cons, bool_decide_eq_true_2; done).
  destruct (Inv_lookup _ _ _ _ _ _ HI Hp) as (c & f & Hc & Hok).
  pose proof (ok_queue _ _ _ _ _ _ _ Hok) as Hq. simpl in Hq.
  rewrite cnt_cons, bool_decide_eq_true_2 in Hq by done. simpl in Hq.
  assert (notified f = true ∧ running f = false ∧ complete f = false ∧ cnt p (tasks w) = 0%nat) as (Hn & Hr & Hcf & H0).
  { destruct (notified f), (running f), (complete f); simpl in Hq; lia. }
  eexists. split.
  - eapply on_state_eq; [done|]. rewrite (ok_state _ _ _ _ _ _ _ Hok).
    apply transition_to_running_encode; [apply (ok_flags _ _ _ _ _ _ _ Hok)|done..].
  - eapply (Inv_put _ _ _ _ _ _ _ _ _ _ (set_field 2 false (set_field 0 true f))); [done|done|done|..].
    + intros q Hne. by rewrite cnt_cons, bool_decide_eq_false_2.
    + intros q Hne. split; [|done]. congruence.
    + rewrite bool_decide_eq_true_2 by done. simpl. rewrite H0.
      destruct Hok as []. destruct f. split; simpl in *; subst; done.
Qed.

(** The task being polled: its handle is in hand, its stage is the future. *)
Lemma running_cell t X Q w p :
  Inv t X Q (Some p) w →
  ∃ c f fut, cells w !! p = Some c ∧ stage c = Running fut ∧ running f = true ∧ complete f = false ∧
    cnt p (Q ++ tasks w) = 0%nat ∧
    cell_ok t (refcnt X w p) 0 (cnt p (joins w)) true c f.
Proof.
  intros HI. destruct (cells w !! p) as [c|] eqn:Hc.
  2: { by destruct (inv_dead _ _ _ _ _ HI _ Hc) as (_ & _ & []). }
  destruct (inv_cell _ _ _ _ _ HI _ _ Hc) as [f Hok]. rewrite bool_decide_eq_true_2 in Hok by done.
  pose proof (ok_running _ _ _ _ _ _ _ Hok) as Hr. pose proof (ok_excl _ _ _ _ _ _ _ Hok) as Hx.
  pose proof (ok_queue _ _ _ _ _ _ _ Hok) as Hq. pose proof (ok_stage _ _ _ _ _ _ _ Hok) as Hs.
  rewrite Hr in *. simpl in Hx. rewrite Hx in *.
  rewrite andb_false_r in Hq. simpl in Hq. rewrite Hq in Hok.
  destruct (stage c) as [fut| |] eqn:Hst; [|done..]. exists c, f, fut. done.
Qed.

Lemma idle_spec t X w p :
  Inv t (p :: X) [] (Some p) w →
  ∃ r w', on_state p (transition_to_idle quiet 1) w = Ret (r, w') ∧
    Inv t (p :: X) (match r with IdleOkNotified => [p] | IdleOk => [] end) None w'.
Proof.
  intros HI. destruct (running_cell _ _ _ _ _ HI) as (c & f & fut & Hc & Hs & Hr & Hcf & H0 & Hok).
  do 2 eexists. split.
  - eapply on_state_eq; [done|]. rewrite (ok_state _ _ _ _ _ _ _ Hok).
    apply transition_to_idle_encode; [apply (ok_flags _ _ _ _ _ _ _ Hok)|done].
  - eapply (Inv_put _ _ _ _ _ _ _ _ _ _ (set_field 0 false f)); [done|done|done|..].
    + intros q Hne. destruct (notified f); [|done]. by rewrite cnt_cons, bool_decide_eq_false_2.
    + intros q Hne. split; [done|]. congruence.
    + rewrite bool_decide_eq_false_2 by done. simpl in H0.
      rewrite cnt_app, H0. destruct Hok as []. destruct f as [? ? [] ? ? ?]; simpl in *; subst.
      all: split; simpl; try done. by rewrite cnt_cons, bool_decide_eq_true_2.
Qed.

Lemma trailer_alive X w p c q :
  cells w !! p = Some c → trailer_waker c = Some (TaskWaker q) → refcnt X w q ≠ 0%nat.
Proof.
  intros Hc Ht. unfold refcnt. rewrite (cnt_trailer_delete _ _ _ q Hc), Ht. simpl.
  rewrite cnt_cons, bool_decide_eq_true_2 by done. simpl. lia.
Qed.

(** From the poll that returned [Ready] to the end of [complete]: the output is
    kept for a live join handle, and its waker is woken. *)
Definition completed (w w' : World) (p : ptr) (out : Out) : Prop :=
  p ∈ joins w → joins w' = joins w ∧
    (∀ c', cells w' !! p = Some c' → is_complete (state c') = true ∧ stage c' = Finished out) ∧
    (∀ c wk, cells w !! p = Some c → has_join_waker (state c) = true → trailer_waker c = Some wk →
       waker_woken w' wk).

Lemma complete_spec t X w p out :
  Inv t (p :: X) [] (Some p) w →
  permits ((_ ← drop_future_or_output p; _ ← store_output p out; Harness_complete p) w)
    (λ '(_, w'), Inv t (p :: X) [] None w' ∧ completed w w' p out).
Proof.
  intros HI. destruct (running_cell _ _ _ _ _ HI) as (c & f & fut & Hc & Hs & Hr & Hcf & H0 & Hok).
  simpl in H0. pose proof (ok_state _ _ _ _ _ _ _ Hok) as Hst.
  set (c1 := mkCell (state c) (owner_id c) Consumed (trailer_waker c)).
  set (c2 := mkCell (state c) (owner_id c) (Finished out) (trailer_waker c)).
  unfold drop_future_or_output, store_output.
  rewrite (bindM_eq _ _ _ _ _ (set_stage_eq _ _ _ Consumed Hc)). fold c1. set (w1 := set_cells _ w).
  rewrite (bindM_eq _ _ w1 tt (set_cells (<[p := c2]>) w1)).
  2: { apply (set_stage_eq w1 p c1), lookup_insert_eq. }
  set (w2 := set_cells (<[p := c2]>) w1).
  assert (Hc2 : cells w2 !! p = Some c2) by apply lookup_insert_eq.
  unfold Harness_complete. set (f3 := set_field 1 true (set_field 0 false f)).
  set (c3 := with_state c2 (encode f3)). set (w3 := set_cells (<[p := c3]>) w2).
  rewrite (bindM_eq _ _ w2 (encode f3) w3).
  2: { apply on_state_eq; [done|]. simpl. by rewrite Hst, transition_to_complete_encode. }
  rewrite is_join_interested_encode, has_join_waker_encode.
  assert (Hcs3 : cells w3 = <[p := c3]> (cells w)) by (simpl; by rewrite !insert_insert_eq).
  assert (Hput : ∀ c', trailer_waker c' = trailer_waker c →
    cell_ok t (refcnt (p :: X) w p) 0 (cnt p (joins w)) false c' f3 →
    Inv t (p :: X) [] None (set_cells (<[p := c']>) w)).
  { intros c' Ht Hok'. eapply (Inv_put _ _ _ _ _ _ _ _ _ _ f3); [done|done|done|done|..].
    - intros q Hne. split; [done|congruence].
    - simpl. by rewrite H0. }
  destruct (join_interest f) eqn:Hji.
  - assert (Hj : cnt p (joins w) = 1%nat).
    { destruct (ok_join _ _ _ _ _ _ _ Hok) as [Hj|Hj]; [|done].
      pose proof (ok_no_interest _ _ _ _ _ _ _ Hok Hj Hcf). congruence. }
    assert (HI3 : Inv t (p :: X) [] None w3).
    { replace w3 with (set_cells (<[p := c3]>) w) by (unfold w3, w2, w1, set_cells; simpl; by rewrite !insert_insert_eq).
      apply Hput; [done|]. destruct Hok as []. destruct f. subst f3. split; simpl in *; subst; try done.
      by rewrite andb_false_r. }
    replace (join_interest f3) with true by (destruct f; done). cbn [negb].
    replace (join_waker f3) with (join_waker f) by (destruct f; done).
    assert (Hc3 : cells w3 !! p = Some c3) by apply lookup_insert_eq.
    assert (Hdone : ∀ c', cells w3 !! p = Some c' → is_complete (state c') = true ∧ stage c' = Finished out).
    { rewrite Hc3. intros c' [= <-]. simpl. rewrite is_complete_encode. by destruct f. }
    destruct (join_waker f) eqn:Hjw.
    2: { split; [done|]. intros _. split_and!; [done..|]. intros c' wk Hc'. rewrite Hc in Hc'.
         injection Hc' as <-. by rewrite Hst, has_join_waker_encode, Hjw. }
    destruct (ok_waker _ _ _ _ _ _ _ Hok Hji Hjw) as [wk Hwk].
    unfold Trailer_wake_join.
    rewrite (bindM_eq _ _ _ _ _ (get_cell_eq _ _ _ Hc3)). simpl. rewrite Hwk.
    eapply permits_mono; [apply Waker_wake_by_ref_spec; [done|]|].
    { intros q ->. by apply (trailer_alive _ w3 p c3). }
    intros [_ w'] (HI' & Hwoken & Hj' & Hsf). split; [done|]. intros _. split_and!; [done|..].
    + intros c' (c0 & Hc0 & -> & ->)%Hsf. by apply Hdone.
    + intros c' wk' Hc'. rewrite Hc in Hc'. injection Hc' as <-. intros _. rewrite Hwk. by intros [= <-].
  - replace (join_interest f3) with false by (destruct f; done). cbn [negb].
    unfold drop_future_or_output. rewrite (set_stage_eq w3 p c3 Consumed) by apply lookup_insert_eq.
    simpl. split.
    2: { intros Hin. apply cnt_elem in Hin. destruct (ok_join _ _ _ _ _ _ _ Hok) as [|Hj]; [done|].
         pose proof (ok_interest _ _ _ _ _ _ _ Hok Hj). congruence. }
    match goal with |- Inv _ _ _ _ ?w' =>
      replace w' with (set_cells (<[p := mkCell (encode f3) (owner_id c) Consumed (trailer_waker c)]>) w)
        by (unfold w3, w2, w1, set_cells; simpl; by rewrite !insert_insert_eq) end.
    apply Hput; [done|]. destruct Hok as []. destruct f. subst f3. split; simpl in *; subst; try done.
    by rewrite andb_false_r.
Qed.

Lemma set_stage_running t X Q w p c fut fut' :
  Inv t X Q (Some p) w → cells w !! p = Some c → stage c = Running fut →
  Inv t X Q (Some p)
    (set_cells (<[p := mkCell (state c) (owner_id c) (Running fut') (trailer_waker c)]>) w).
Proof.
  intros HI Hc Hs. destruct (inv_cell _ _ _ _ _ HI _ _ Hc) as [f Hok].
  eapply (Inv_put _ _ _ _ _ _ _ _ _ _ f); [done..|].
  destruct Hok as []. split; simpl; try done. rewrite Hs in *. by destruct (complete f).
Qed.

(** [Task::run] on the task at the head of the queue. *)
Lemma Task_run_spec t X w p :
  Inv t (p :: X) [p] None w → permits (Task_run p w) (λ '(_, w'), Inv t X [] None w').
Proof.
  intros HI. unfold Task_run, Harness_poll, poll_inner.
  destruct (start_spec _ _ _ _ HI) as (w1 & Hstart & HI1).
  assert (Hk1 : keeps (p :: X) [] (Some p)).
  { intros q [[= <-]|H]; [rewrite cnt_cons, bool_decide_eq_true_2 by done; simpl; lia|done]. }
  assert (Hfin : ∀ w2, Inv t (p :: X) [] None w2 →
    permits (drop_reference p w2) (λ '(_, w'), Inv t X [] None w')).
  { intros w2 HI2. apply yields_permits. eapply yields_mono; [apply drop_reference_spec; [done|]|by intros [] []].
    apply keeps_none. }
  assert (Hidle : ∀ w2, Inv t (p :: X) [] (Some p) w2 → permits ((
      r ← (t ← on_state p (transition_to_idle quiet 1);
           mret (match t with IdleOk => PollDone | IdleOkNotified => PollNotified end));
      match r with
      | PollNotified => _ ← state_ref_inc p; yield_now p
      | PollComplete => Harness_complete p
      | PollDone => mret tt
      end) w2) (λ '(_, w'), Inv t (p :: X) [] None w')).
  { intros w2 HI2. destruct (idle_spec _ _ _ _ HI2) as (r & w3 & Hid & HI3).
    rewrite (bindM_eq (_ ≫= _) _ w2 (match r with IdleOk => PollDone | IdleOkNotified => PollNotified end) w3).
    2: { by rewrite (bindM_eq _ _ _ _ _ Hid). }
    destruct r; [done|].
    eapply permits_bindM; [apply state_ref_inc_spec; [done|]|].
    { rewrite refcnt_cons, bool_decide_eq_true_2 by done. simpl. lia. }
    intros [] w4 [HI4 _]. apply yields_permits. eapply yields_mono; [by apply yield_now_spec|].
    by intros [] []. }
  apply (permits_bindM _ _ _ (λ '(_, w2), Inv t (p :: X) [] None w2));
    [|intros [] w2 HI2; exact (Hfin w2 HI2)].
  rewrite bindM_assoc, (bindM_eq _ _ _ _ _ Hstart), bindM_assoc.
  destruct (running_cell _ _ _ _ _ HI1) as (c & f & fut & Hc & Hs & _).
  unfold poll_future, CoreStage_poll.
  rewrite bindM_assoc, bindM_assoc, (bindM_eq _ _ _ _ _ (get_cell_eq _ _ _ Hc)), Hs.
  destruct fut as [|[acts res] fut]; [by apply Hidle|].
  rewrite bindM_assoc, (bindM_eq _ _ _ _ _ (set_stage_eq _ _ _ _ Hc)), bindM_assoc.
  pose proof (set_stage_running _ _ _ _ _ _ _ fut HI1 Hc Hs) as HI2.
  eapply permits_bindM; [apply (run_actions_spec _ _ _ _ (TaskWaker p) acts HI2 Hk1)|].
  { intros q [= <-]. rewrite cnt_cons, bool_decide_eq_true_2 by done. simpl. lia. }
  intros [] w3 HI3. destruct res as [out|]; [|by apply Hidle].
  pose proof (complete_spec _ _ _ _ out HI3) as Hcomp.
  rewrite bindM_assoc.
  unfold mbind in Hcomp |- *. unfold stateM_bind in Hcomp |- *.
  destruct (drop_future_or_output p w3) as [[[] w4]| |]; [|done..].
  cbn in Hcomp |- *.
  destruct (store_output p out w4) as [[[] w5]| |]; [|done..].
  eapply permits_mono; [exact Hcomp|]. by intros [] [].
Qed.

(** ** The executor *)

Lemma run_tasks_spec t n w :
  Inv t [] [] None w → permits (run_tasks n w) (λ '(_, w'), Inv t [] [] None w').
Proof.
  revert w. induction n as [|n IH]; intros w HI; cbn [run_tasks].
  all: destruct (tasks w) as [|p q] eqn:Hq.
  1,3: by (unfold TaskQueue_pop, mbind, stateM_bind; rewrite Hq).
  all: destruct (pop_spec _ _ _ _ _ _ HI Hq) as [Hpop HI1]; rewrite (bindM_eq _ _ _ _ _ Hpop).
  all: eapply permits_bindM; [by apply Task_run_spec|]; intros [] w' HI'; (done || by apply IH).
Qed.

Lemma poll_main_spec t w main :
  Inv t [] [] None w → permits (poll_main main w) (λ '(r, w'),
    Inv t [] [] None w' ∧ (∀ m, r = inr m → SHOULD_POLL w' = false)).
Proof.
  revert w. induction main as [|[acts res] main IH]; intros w HI; simpl.
  - unfold should_poll, mbind, stateM_bind. simpl. destruct (SHOULD_POLL w).
    all: split; [by apply Inv_poll|done].
  - unfold should_poll, mbind at 1, stateM_bind at 1. destruct (SHOULD_POLL w).
    2: { split; [by apply Inv_poll|done]. }
    eapply permits_bindM; [apply (run_actions_spec t [] None)|].
    { by apply Inv_poll. } { apply keeps_none. } { done. }
    intros [] w' HI'. destruct res; [split; [done|]; done|]. by apply IH.
Qed.

Lemma block_on_turn_spec t w main :
  Inv t [] [] None w → permits (block_on_turn main w) (λ '(r, w'),
    Inv t [] [] None w' ∧
    ∀ m park, r = inr (m, park) → SHOULD_POLL w' = false ∧ park = bool_decide (tasks w' = [])).
Proof.
  intros HI. unfold block_on_turn, gets, mbind at 1, stateM_bind at 1.
  eapply permits_bindM; [by apply run_tasks_spec|]. intros [] w1 HI1.
  eapply permits_bindM; [by apply poll_main_spec|]. intros [out|m] w2 [HI2 Hp].
  - simpl. split; done.
  - simpl. split; [done|]. intros m' park [= <- <-]. eauto.
Qed.

Lemma block_on_loop_spec t io w main :
  Inv t [] [] None w → permits (block_on_loop io main w) (λ '(_, w'), Inv t [] [] None w').
Proof.
  revert w main. induction io as [|acts io IH]; intros w main HI; cbn [block_on_loop].
  all: eapply permits_bindM; [by apply block_on_turn_spec|]; intros [out|[m park]] w1 [HI1 _]; try done.
  eapply permits_bindM; [apply (run_actions_spec t [] None)|].
  { done. } { apply keeps_none. } { done. }
  intros [] w2 HI2. by apply IH.
Qed.

(** Outside [block_on], no thread id is current. *)
Definition rest_inv (t : Z) (w : World) : Prop :=
  thread_id w = None ∧ Inv t [] [] None (set_thread_id (Some t) w).

Lemma Inv_thread_id t X Q run w : Inv t X Q run w → set_thread_id (Some t) w = w.
Proof. intros HI. pose proof (inv_tid _ _ _ _ _ HI) as Ht. destruct w. simpl in *. by subst. Qed.

Lemma rest_inv_init t : t ≠ DEFAULT_THREAD_ID → rest_inv t world_init.
Proof.
  intros Ht. split; [done|]. split; try done. intros p [c [=]].
Qed.

Lemma block_on_spec t io main w :
  rest_inv t w → permits (block_on t io main w) (λ '(_, w'), rest_inv t w').
Proof.
  intros [Htid HI]. unfold block_on. unfold gets, lift, modify, set_poll, mbind at 1 2 3 4, stateM_bind at 1 2 3 4.
  rewrite Htid, bool_decide_eq_true_2 by done. simpl. unfold modify.
  eapply permits_bindM; [by apply (block_on_loop_spec t), Inv_poll|].
  intros r w' HI'. simpl. split; [done|].
  pose proof (Inv_thread_id _ _ _ _ _ HI') as Heq. by rewrite <- Heq in HI'.
Qed.

(** ** Properties *)

(** A program: one call of [block_on] after the other. *)
Fixpoint run_program (t : Z) (prog : list (list (list action) * future)) : M unit :=
  match prog with
  | [] => mret tt
  | (io, main) :: prog => _ ← block_on t io main; run_program t prog
  end.

Lemma run_program_spec t prog w :
  rest_inv t w → permits (run_program t prog w) (λ '(_, w'), rest_inv t w').
Proof.
  revert w. induction prog as [|[io main] prog IH]; intros w Hw; [done|]. simpl.
  eapply permits_bindM; [by apply block_on_spec|]. intros r w' Hw'. by apply IH.
Qed.

Lemma queued_iff t X w p c :
  Inv t X [] None w → cells w !! p = Some c →
  is_notified (state c) = true → is_complete (state c) = true ∨ p ∈ tasks w.
Proof.
  intros HI Hc Hn. destruct (inv_cell _ _ _ _ _ HI _ _ Hc) as [f Hok].
  pose proof (ok_state _ _ _ _ _ _ _ Hok) as Hst. rewrite Hst in *.
  rewrite is_notified_encode, is_complete_encode in *.
  destruct (complete f) eqn:Hcf; [by left|]. right. apply cnt_elem.
  pose proof (ok_queue _ _ _ _ _ _ _ Hok) as Hq. pose proof (ok_running _ _ _ _ _ _ _ Hok) as Hr.
  simpl in Hq, Hr. rewrite Hn, Hr, Hcf in Hq. simpl in Hq. lia.
Qed.

(** C6: whatever the tasks, the main futures and the completions of the driver
    do with wakers and join handles, the executor never touches a freed task,
    never underflows a reference count and never breaks an internal assertion
    into undefined behaviour; and the invariant holds between calls of
    [block_on]. *)
Theorem executor_never_ub t prog :
  t ≠ DEFAULT_THREAD_ID →
  permits (run_program t prog world_init) (λ '(_, w), rest_inv t w).
Proof. intros Ht. by apply run_program_spec, rest_inv_init. Qed.

(** C7: reference counts are exact: a task cell is allocated exactly as long as
    something refers to it — its place in the queue, its join handle, a waker
    kept by the program or stored in another task — and the count in its state
    word is the number of these references. *)
Theorem refcount_exact t prog w p :
  t ≠ DEFAULT_THREAD_ID → run_program t prog world_init = Ret (tt, w) →
  (is_Some (cells w !! p) ↔ refcnt [] w p ≠ 0%nat) ∧
  ∀ c, cells w !! p = Some c → ref_count (state c) = Z.of_nat (refcnt [] w p).
Proof.
  intros Ht Hrun.
  destruct (permits_eq _ _ _ (run_program_spec t prog _ (rest_inv_init t Ht)) Hrun) as [_ HI].
  change (refcnt [] w p) with (refcnt [] (set_thread_id (Some t) w) p).
  change (cells w) with (cells (set_thread_id (Some t) w)). split; [split|].
  - intros [c Hc]. destruct (inv_cell _ _ _ _ _ HI _ _ Hc) as [f Hok].
    apply (ok_pos _ _ _ _ _ _ _ Hok).
  - intros Hr. destruct (Inv_lookup _ _ _ _ _ _ HI Hr) as (c & f & Hc & _). eauto.
  - intros c Hc. destruct (inv_cell _ _ _ _ _ HI _ _ Hc) as [f Hok].
    rewrite (ok_state _ _ _ _ _ _ _ Hok), ref_count_encode by apply (ok_flags _ _ _ _ _ _ _ Hok).
    apply (ok_refs _ _ _ _ _ _ _ Hok).
Qed.

(** A wakeup is not lost: when [wake] returns, the task has completed or is
    in the run queue (no task being polled). *)
Theorem wake_not_lost t X w p :
  Inv t (p :: X) [] None w →
  permits (Waker_wake (TaskWaker p) w) (λ '(_, w'),
    Inv t X [] None w' ∧ ∀ c, cells w' !! p = Some c → is_complete (state c) = true ∨ p ∈ tasks w').
Proof.
  intros HI. apply yields_permits. eapply yields_mono.
  { apply (Waker_wake_spec t X [] None); [exact HI|apply keeps_none]. }
  intros [_ w'] [HI' Hw]. split; [done|]. intros c Hc.
  destruct (Hw c Hc) as [Hn|]; [|by left]. by eapply queued_iff.
Qed.


(** [block_on] parks only when there is nothing to do: the queue is empty,
    the main future has not been woken since its last poll, and every task that
    has been notified has completed. *)
Theorem block_on_parks_idle t w main main' w' :
  Inv t [] [] None w → block_on_turn main w = Ret (inr (main', true), w') →
  SHOULD_POLL w' = false ∧ tasks w' = [] ∧
  ∀ p c, cells w' !! p = Some c → is_notified (state c) = true → is_complete (state c) = true.
Proof.
  intros HI Hrun.
  destruct (permits_eq _ _ _ (block_on_turn_spec t w main HI) Hrun) as [HI' Hp].
  destruct (Hp main' true eq_refl) as [Hsp Ht]. symmetry in Ht. apply bool_decide_eq_true in Ht.
  split_and!; [done|done|]. intros p c Hc Hn.
  destruct (queued_iff _ _ _ _ _ HI' Hc Hn) as [|Hin]; [done|].
  rewrite Ht in Hin. by apply not_elem_of_nil in Hin.
Qed.
End task.

(** *** Concrete instances *)

#[local] Instance debug_build : Build := true.

Definition outcome_state {W A} (d : W) (m : outcome (A * W)) : W :=
  match m with Ret (_, w) => w | _ => d end.
Definition returns {A} (m : outcome A) : bool := match m with Ret _ => true | _ => false end.

Lemma outcome_state_eq {W} (d : W) (m : outcome (unit * W)) :
  returns m = true → m = Ret (tt, outcome_state d m).
Proof. by destruct m as [[[] w]| |]. Qed.

(** Thread 16 spawns a task that wakes itself once, then returns 7; the main
    future polls its join handle. *)
Definition demo_task : future (Out:=nat) := [([WakeByRef], None); ([CloneWaker], Some 7%nat)].
Definition demo_main : future (Out:=nat) :=
  [([Spawn demo_task; PollJoin 0%nat], None); ([PollJoin 0%nat; DropJoin 0%nat; DropHeld 0%nat], Some 1%nat)].

Lemma executor_never_ub_witness :
  permits (run_program 16 [([[]; []; []], demo_main)] world_init) (λ '(_, w), rest_inv 16 w).
Proof. by apply (executor_never_ub 16). Defined.

Definition demo_end : World :=
  outcome_state world_init (run_program 16 [([[]; []; []], demo_main)] world_init).

Lemma refcount_exact_witness :
  (is_Some (cells demo_end !! 0%nat) ↔ refcnt [] demo_end 0%nat ≠ 0%nat) ∧
  ∀ c, cells demo_end !! 0%nat = Some c → ref_count (state c) = Z.of_nat (refcnt [] demo_end 0%nat).
Proof.
  apply (refcount_exact 16 [([[]; []; []], demo_main)]); [done|].
  apply outcome_state_eq. vm_compute. reflexivity.
Defined.

(** Inside [block_on] on thread 16, a task is spawned and its join handle polled. *)
Definition demo_w0 : World (Out:=nat) := set_thread_id (Some 16) world_init.
Definition demo_acts : list (action (Out:=nat)) := [Spawn demo_task; PollJoin 0%nat].
Definition demo_w1 : World := outcome_state demo_w0 (run_actions DummyWaker demo_acts demo_w0).
Definition demo_w2 : World := outcome_state demo_w0 (state_ref_inc 0%nat demo_w1).
Definition demo_w3 : World :=
  outcome_state demo_w0 (on_state 0%nat (transition_to_running quiet 1) (set_tasks (λ _, []) demo_w1)).

Lemma demo_w0_inv : Inv 16 [] [] None demo_w0.
Proof. by apply (rest_inv_init 16). Qed.

Lemma demo_w1_inv : Inv 16 [] [] None demo_w1.
Proof.
  refine (permits_eq _ _ _ (run_actions_spec 16 [] None demo_w0 DummyWaker demo_acts demo_w0_inv _ _)
            (outcome_state_eq demo_w0 _ _)); [apply keeps_none|done|by vm_compute].
Qed.

Lemma demo_w2_inv : Inv 16 [0%nat] [] None demo_w2.
Proof.
  refine (proj1 (permits_eq _ _ _ (state_ref_inc_spec 16 [] [] None demo_w1 0%nat demo_w1_inv _)
            (outcome_state_eq demo_w0 _ _))); by vm_compute.
Qed.

Lemma demo_w3_inv : Inv 16 [0%nat] [] (Some 0%nat) demo_w3.
Proof.
  destruct (pop_spec 16 [] [] demo_w1 0%nat [] demo_w1_inv) as [_ HI]; [by vm_compute|].
  destruct (start_spec 16 [] _ 0%nat HI) as (w' & Hs & HI').
  unfold demo_w3. by rewrite Hs.
Qed.

Lemma wake_not_lost_witness :
  permits (Waker_wake (TaskWaker 0%nat) demo_w2) (λ '(_, w'),
    Inv 16 [] [] None w' ∧
    ∀ c, cells w' !! 0%nat = Some c → is_complete (state c) = true ∨ 0%nat ∈ tasks w').
Proof. exact (wake_not_lost 16 [] demo_w2 0%nat demo_w2_inv). Defined.


Definition demo_parked : World :=
  outcome_state demo_w0 (block_on_turn [([], None); ([], None)] demo_w1).

Lemma block_on_parks_idle_witness :
  SHOULD_POLL demo_parked = false ∧ tasks demo_parked = [] ∧
  ∀ p c, cells demo_parked !! p = Some c → is_notified (state c) = true → is_complete (state c) = true.
Proof.
  apply (block_on_parks_idle 16 demo_w1 [([], None); ([], None)] [([], None)]); [exact demo_w1_inv|].
  vm_compute. reflexivity.
Defined.
