(* ===== verification/Builder.v ===== *)
(** * Builder: how a runtime comes to be

    The scoped thread local ([macros/scoped_tls.rs]), on which the builder, the
    executor and the driver hand their context to the code they run; the thread ids
    ([utils/thread_id.rs]); the builder itself ([builder.rs], [Runtime::new] and
    [Context::new] of [runtime.rs], the constructors of the driver); and [MaybeDone]
    of [macros/support.rs].

    [scoped_key_lexical]: a scoped key behaves as a dynamically scoped variable, also
    when closures panic, and never reads a value that is gone.  [built_runtimes]: the
    runtimes of a process have distinct ids and run without undefined behaviour. *)

From S2P Require Import Prelude Store Slab Driver TaskState Task.

Local Open Scope Z_scope.

(** ** The scoped key *)

(** How a closure ends.  A panic unwinds: destructors run on the way. *)
Inductive flow (R : Type) : Type := Returned (r : R) | Unwound | Undef.
Arguments Returned {R} _.
Arguments Unwound {R}.
Arguments Undef {R}.

(** One thread and one key: the key's cell, a raw pointer, 0 being null; the values
    that references point to, by address; and all else. *)
Record Thread (T H : Type) : Type := mkThread { inner : Z; live : gmap Z T; rest : H }.
Arguments mkThread {T H} _ _ _.
Arguments inner {T H} _.
Arguments live {T H} _.
Arguments rest {T H} _.

Section key.
Context {T H : Type}.
Implicit Types w : Thread T H.

Definition comp (R : Type) : Type := Thread T H → flow R * Thread T H.
#[export] Instance comp_ret : MRet comp := λ R r w, (Returned r, w).
#[export] Instance comp_bind : MBind comp := λ R S f m w,
  match m w with
  | (Returned r, w) => f r w
  | (Unwound, w) => (Unwound, w)
  | (Undef, w) => (Undef, w)
  end.

Definition with_inner (p : Z) w : Thread T H := mkThread p (live w) (rest w).
Definition with_live (l : gmap Z T) w : Thread T H := mkThread (inner w) l (rest w).
Definition with_rest (h : H) w : Thread T H := mkThread (inner w) (live w) h.

(** [set]: the destructor of [_reset] runs when [f] returns and when it unwinds. *)
Definition ScopedKey_set {R} (t : Z) (f : comp R) : comp R := λ w,
  let prev := inner w in
  let '(r, w) := f (with_inner t w) in
  (r, match r with Undef => w | _ => with_inner prev w end).

Definition ScopedKey_with {R} (f : T → comp R) : comp R := λ w,
  let val := inner w in
  if val =? 0 then (Unwound, w)
  else match live w !! val with Some v => f v w | None => (Undef, w) end.

Definition ScopedKey_try_with {R} (f : option T → comp R) : comp R := λ w,
  let val := inner w in
  if val =? 0 then f None w
  else match live w !! val with Some v => f (Some v) w | None => (Undef, w) end.

Definition ScopedKey_is_set : comp bool := λ w, (Returned (negb (inner w =? 0)), w).

(** A local variable: it is somewhere, not at null, until the block that uses a
    reference to it ends, also by unwinding. *)
Definition local_ {R} (v : T) (f : Z → comp R) : comp R := λ w,
  let a := base.fresh ({[0]} ∪ dom (live w) : gset Z) in
  let '(r, w) := f a (with_live (<[a := v]> (live w)) w) in
  (r, with_live (delete a (live w)) w).

(** [catch_unwind]. *)
Definition catch (f : comp unit) : comp unit := λ w,
  let '(r, w) := f w in (match r with Unwound => Returned tt | r => r end, w).
Definition unwind {R} : comp R := λ w, (Unwound, w).
End key.
Arguments comp : clear implicits.

(** ** What clients do with a key

    Programs over one key; what they see goes to a log. *)
Inductive code (T : Type) : Type :=
  | Skip
  | Then (c1 c2 : code T)
  | Set_ (v : T) (c : code T)               (* [KEY.set(&v, || c)] *)
  | With                                     (* [KEY.with(|v| log(Some(v)))] *)
  | TryWith                                  (* [KEY.try_with(|v| log(v))] *)
  | IfSet (c1 c2 : code T)                   (* [if KEY.is_set() { c1 } else { c2 }] *)
  | PanicNow
  | Catch (c : code T).
Arguments Skip {T}.
Arguments Then {T} _ _.
Arguments Set_ {T} _ _.
Arguments With {T}.
Arguments TryWith {T}.
Arguments IfSet {T} _ _.
Arguments PanicNow {T}.
Arguments Catch {T} _.

Section clients.
Context {T : Type}.

Definition log_ (v : option T) : comp T (list (option T)) unit := λ w, (Returned tt, with_rest (rest w ++ [v]) w).

Fixpoint exec (c : code T) : comp T (list (option T)) unit :=
  match c with
  | Skip => mret tt
  | Then c1 c2 => _ ← exec c1; exec c2
  | Set_ v c => local_ v (λ a, ScopedKey_set a (exec c))
  | With => ScopedKey_with (λ v, log_ (Some v))
  | TryWith => ScopedKey_try_with log_
  | IfSet c1 c2 => b ← ScopedKey_is_set; if b : bool then exec c1 else exec c2
  | PanicNow => unwind
  | Catch c => catch (exec c)
  end.

(** The specification: the key is a variable bound by [Set_] around its body. [true]
    is a return, [false] a panic. *)
Fixpoint scoped (env : option T) (c : code T) : bool * list (option T) :=
  match c with
  | Skip => (true, [])
  | Then c1 c2 =>
      let '(b1, l1) := scoped env c1 in
      if b1 then let '(b2, l2) := scoped env c2 in (b2, l1 ++ l2) else (false, l1)
  | Set_ v c => scoped (Some v) c
  | With => match env with Some v => (true, [Some v]) | None => (false, []) end
  | TryWith => (true, [env])
  | IfSet c1 c2 => if env is Some _ then scoped env c1 else scoped env c2
  | PanicNow => (false, [])
  | Catch c => (true, (scoped env c).2)
  end.

(** The key's cell points to the value of the variable. *)
Definition bound (env : option T) (w : Thread T (list (option T))) : Prop :=
  match env with
  | None => inner w = 0
  | Some v => inner w ≠ 0 ∧ live w !! inner w = Some v
  end.

Lemma exec_scoped c env w :
  bound env w →
  exec c w = (if (scoped env c).1 then Returned tt else Unwound, with_rest (rest w ++ (scoped env c).2) w).
Proof.
  revert env w. induction c as [|c1 IH1 c2 IH2|v c IH| | |c1 IH1 c2 IH2| |c IH]; intros env w Hw; cbn [exec scoped].
  - destruct w; cbn. by rewrite app_nil_r.
  - unfold mbind, comp_bind. rewrite (IH1 env w Hw). destruct (scoped env c1) as [[] l1]; cbn; [|done].
    rewrite (IH2 env) by done. destruct (scoped env c2) as [b2 l2]; cbn. unfold with_rest; cbn. by rewrite app_assoc.
  - unfold local_, ScopedKey_set. set (a := base.fresh _).
    assert (a ∉ ({[0]} ∪ dom (live w) : gset Z)) as Ha by apply is_fresh. apply not_elem_of_union in Ha as [Ha0 Ha].
    rewrite (IH (Some v)); [|split; [set_solver|apply lookup_insert_eq]].
    destruct (scoped (Some v) c) as [[] l]; cbn; unfold with_live, with_inner, with_rest; cbn;
      rewrite delete_insert_id by (by apply not_elem_of_dom); by destruct w.
  - unfold ScopedKey_with, log_. destruct env as [v|]; cbn in Hw.
    + destruct Hw as [Hn Hl]. rewrite (proj2 (Z.eqb_neq _ _) Hn), Hl. done.
    + rewrite Hw. destruct w; cbn. by rewrite app_nil_r.
  - unfold ScopedKey_try_with, log_. destruct env as [v|]; cbn in Hw.
    + destruct Hw as [Hn Hl]. rewrite (proj2 (Z.eqb_neq _ _) Hn), Hl. done.
    + by rewrite Hw.
  - unfold mbind, comp_bind, ScopedKey_is_set. destruct env as [v|]; cbn in Hw.
    + destruct Hw as [Hn Hl]. rewrite (proj2 (Z.eqb_neq _ _) Hn). by apply (IH1 (Some v)).
    + rewrite Hw. by apply (IH2 None).
  - destruct w; cbn. by rewrite app_nil_r.
  - unfold catch. rewrite (IH env w Hw). by destruct (scoped env c) as [[] l].
Qed.

(** A scoped key is a variable with dynamic scope.  Whatever programs do with a key,
    nesting [set], panicking in closures and catching the panics, every access sees
    the value of the innermost [set] that has not ended, or that there is none; it
    never reads a value that is gone; and the key is as before at the end. *)
Theorem scoped_key_lexical c :
  exec c (mkThread 0 ∅ []) =
    (if (scoped None c).1 then Returned tt else Unwound, mkThread 0 ∅ (scoped None c).2).
Proof. by rewrite (exec_scoped c None). Qed.
End clients.

(** ** Ids and contexts *)

(** What the runtimes of a process share: the counter of ids and the boxes the
    drivers allocated for their timeouts and nobody freed ([Box::leak]).  [host] is
    the kernel's part. *)
Record Process (H : Type) : Type := mkProcess { ID_GEN : Z; timespecs : gset nat; host : H }.
Arguments mkProcess {H} _ _ _.
Arguments ID_GEN {H} _.
Arguments timespecs {H} _.
Arguments host {H} _.

Definition Process_new {H} (h : H) : Process H := mkProcess 16 ∅ h.

(** [runtime::Context]: the queue of tasks and the id. *)
Record Context : Type := mkContext { context_tasks : list ptr; context_thread_id : Z }.

(** [utils/thread_id.rs], on the key [CURRENT]. *)
Definition get_current_thread_id {H} : comp Context H Z := ScopedKey_with (λ ctx, mret (context_thread_id ctx)).
Definition try_get_current_thread_id {H} : comp Context H (option Z) :=
  ScopedKey_try_with (λ maybe_ctx, mret (context_thread_id <$> maybe_ctx)).

Section build.
Context {H : Type}.
(** [BUILD_THREAD_ID] is a key for a [usize]. *)
Abbreviation building := (comp Z (Process H)).

(** [fetch_add] wraps. *)
Definition gen_id : building Z := λ w,
  let p := rest w in
  (Returned (ID_GEN p), with_rest (mkProcess (wrap 64 (ID_GEN p + 1)) (timespecs p) (host p)) w).

Definition Context_new : building Context :=
  thread_id ← ScopedKey_with (λ id, mret id);
  mret (mkContext [] thread_id).

(** ** The builder *)

Definition MIN_ENTRIES : Z := 256.
Definition DEFAULT_ENTRIES : Z := 1024.

(** [io_uring::Builder] asks the kernel for a ring of a number of entries. *)
Context {Urb U : Type} (urb_new : Urb) (urb_build : Urb → Z → H → io_result U * H).

Record RuntimeBuilder : Type := mkRuntimeBuilder { entries : option Z; urb : Urb }.
Definition RuntimeBuilder_new : RuntimeBuilder := mkRuntimeBuilder None urb_new.
Definition with_entries (n : Z) (b : RuntimeBuilder) : RuntimeBuilder :=
  if n <? MIN_ENTRIES then mkRuntimeBuilder (Some MIN_ENTRIES) (urb b)
  else mkRuntimeBuilder (Some n) (urb b).
Definition uring_builder (u : Urb) (b : RuntimeBuilder) : RuntimeBuilder := mkRuntimeBuilder (entries b) u.

Context {W D S R : Type} `{!Store S R (@Lifecycle W D)}.

Record IoUringDriver : Type := mkDriver { driver_inner : @UringInner W S U; timespec : nat }.
Record Runtime : Type := mkRuntime { context : Context; driver : IoUringDriver }.

Definition IoUringDriver_new_with_entries (u : Urb) (n : Z) : building (io_result IoUringDriver) := λ w,
  let p := rest w in
  let '(r, h) := urb_build u n (host p) in
  match r with
  | Err_ e => (Returned (Err_ e), with_rest (mkProcess (ID_GEN p) (timespecs p) h) w)
  | Ok_ ring =>
      let a := base.fresh (timespecs p) in
      (Returned (Ok_ (mkDriver (mkInner st_new ring []) a)),
       with_rest (mkProcess (ID_GEN p) ({[a]} ∪ timespecs p) h) w)
  end.
Definition IoUringDriver_new (u : Urb) : building (io_result IoUringDriver) :=
  IoUringDriver_new_with_entries u DEFAULT_ENTRIES.

Definition Runtime_new (c : Context) (d : IoUringDriver) : Runtime := mkRuntime c d.

Definition build (this : RuntimeBuilder) : building (io_result Runtime) :=
  thread_id ← gen_id;
  local_ thread_id (λ a, ScopedKey_set a (
    driver ← match entries this with
             | Some entries => IoUringDriver_new_with_entries (urb this) entries
             | None => IoUringDriver_new (urb this)
             end;
    match driver with
    | Err_ e => mret (Err_ e)
    | Ok_ driver => context ← Context_new; mret (Ok_ (Runtime_new context driver))
    end)).

(** ** What users do: configure builders and build, one runtime after the other *)

Inductive option_ : Type := WithEntries (n : Z) | UringBuilder (u : Urb).
Definition apply_option (b : RuntimeBuilder) (o : option_) : RuntimeBuilder :=
  match o with WithEntries n => with_entries n b | UringBuilder u => uring_builder u b end.
Definition configured (os : list option_) : RuntimeBuilder := foldl apply_option RuntimeBuilder_new os.

Fixpoint build_all (bs : list (list option_)) : building (list (io_result Runtime)) :=
  match bs with
  | [] => mret []
  | os :: bs => r ← build (configured os); rs ← build_all bs; mret (r :: rs)
  end.

(** The entries asked of the kernel. *)
Definition asked (b : RuntimeBuilder) : Z := default DEFAULT_ENTRIES (entries b).

(** The last [with_entries] decides. *)
Lemma asked_last os n : asked (configured (os ++ [WithEntries n])) = Z.max n MIN_ENTRIES.
Proof.
  unfold configured. rewrite foldl_app. simpl. unfold with_entries.
  destruct (n <? MIN_ENTRIES) eqn:Hn; [apply Z.ltb_lt in Hn|apply Z.ltb_ge in Hn]; unfold asked; simpl; lia.
Qed.

Definition oks {A} (rs : list (io_result A)) : list A :=
  rs ≫= λ r, match r with Ok_ a => [a] | Err_ _ => [] end.

(** One call: the kernel's answer to the ring asked for decides. *)
Lemma build_spec b (p : Process H) :
  0 ≤ ID_GEN p < 2 ^ 64 - 1 →
  ∃ r p', build b (mkThread 0 ∅ p) = (Returned r, mkThread 0 ∅ p') ∧
    ID_GEN p' = ID_GEN p + 1 ∧ (urb_build (urb b) (asked b) (host p)).2 = host p' ∧
    match (urb_build (urb b) (asked b) (host p)).1, r with
    | Ok_ ring, Ok_ rt =>
        context rt = mkContext [] (ID_GEN p) ∧ driver_inner (driver rt) = mkInner st_new ring [] ∧
        timespecs p' = {[timespec (driver rt)]} ∪ timespecs p ∧ timespec (driver rt) ∉ timespecs p
    | Err_ e, Err_ e' => e' = e ∧ timespecs p' = timespecs p
    | _, _ => False
    end.
Proof.
  intros Hid. unfold build, gen_id, local_. unfold mbind at 1, comp_bind at 1. cbn [rest inner live with_rest].
  rewrite wrap_small by lia. set (a := base.fresh _).
  assert (a ∉ ({[0]} ∪ dom (∅ : gmap Z Z) : gset Z)) as Ha by apply is_fresh. assert (a ≠ 0) as Ha0 by set_solver.
  unfold ScopedKey_set. cbn [inner with_inner with_live live rest].
  assert (∀ u n q, n = asked b → u = urb b →
    match entries b with
    | Some entries => IoUringDriver_new_with_entries (urb b) entries
    | None => IoUringDriver_new (urb b)
    end q = IoUringDriver_new_with_entries u n q) as Hnew.
  { intros u n q -> ->. unfold asked, IoUringDriver_new. by destruct (entries b). }
  unfold mbind at 1, comp_bind at 1. rewrite (Hnew (urb b) (asked b) _ eq_refl eq_refl).
  unfold IoUringDriver_new_with_entries, with_inner, with_live, with_rest. cbn [rest inner live host ID_GEN timespecs].
  destruct (urb_build (urb b) (asked b) (host p)) as [[ring|e] h] eqn:Hbuild.
  - unfold Context_new, ScopedKey_with, mbind, comp_bind, mret, comp_ret. cbn [inner with_rest live rest].
    rewrite (proj2 (Z.eqb_neq _ _) Ha0), lookup_insert_eq. cbn. unfold with_inner, with_live; cbn.
    rewrite delete_insert_id by done. eexists _, _. split; [done|]. cbn. split_and!; try done. apply is_fresh.
  - cbn. rewrite delete_insert_id by done. by eexists _, _.
Qed.

(** The entries of a ring: the last number given to [with_entries], but at least 256;
    1024 if none was given. *)
Theorem ring_entries os :
  asked (configured os) =
    match last (omap (λ o, match o with WithEntries n => Some n | UringBuilder _ => None end) os) with
    | Some n => Z.max n MIN_ENTRIES
    | None => DEFAULT_ENTRIES
    end.
Proof.
  induction os as [|o os IH] using rev_ind; [done|]. rewrite omap_app, last_app. destruct o as [n|u]; [apply asked_last|].
  cbn [omap list_omap last]. rewrite <-IH. unfold configured. by rewrite foldl_app.
Qed.

(** The runtimes of a process.  Whatever is configured, and whichever rings the kernel
    refuses, every [build] returns; a runtime has an
    id of its own, from 16 on, so not the one of tasks without a runtime, with which
    the executor runs any program without undefined behaviour; the key of the builder
    is unset afterwards; and every driver has a timeout buffer of its own. *)
Theorem built_runtimes bs h :
  Z.of_nat (length bs) < 2 ^ 64 - 16 →
  ∃ rs p, build_all bs (mkThread 0 ∅ (Process_new h)) = (Returned rs, mkThread 0 ∅ p) ∧
    length rs = length bs ∧
    NoDup ((λ rt, context_thread_id (context rt)) <$> oks rs) ∧
    Forall (λ rt, 16 ≤ context_thread_id (context rt) ∧ context_thread_id (context rt) ≠ DEFAULT_THREAD_ID ∧
      ∀ (B : Build) (Out : Type) (prog : list (list (list (@action Out)) * future)),
        permits (run_program (context_thread_id (context rt)) prog world_init)
          (λ '(_, w), rest_inv (context_thread_id (context rt)) w)) (oks rs) ∧
    NoDup ((λ rt, timespec (driver rt)) <$> oks rs) ∧
    timespecs p = list_to_set ((λ rt, timespec (driver rt)) <$> oks rs).
Proof.
  intros Hlen.
  assert (∀ p, 16 ≤ ID_GEN p → ID_GEN p + Z.of_nat (length bs) < 2 ^ 64 → ∃ rs p',
    build_all bs (mkThread 0 ∅ p) = (Returned rs, mkThread 0 ∅ p') ∧ length rs = length bs ∧
    NoDup ((λ rt, context_thread_id (context rt)) <$> oks rs) ∧
    Forall (λ rt, ID_GEN p ≤ context_thread_id (context rt)) (oks rs) ∧
    NoDup ((λ rt, timespec (driver rt)) <$> oks rs) ∧
    Forall (λ rt, timespec (driver rt) ∉ timespecs p) (oks rs) ∧
    timespecs p' = list_to_set ((λ rt, timespec (driver rt)) <$> oks rs) ∪ timespecs p) as Hall.
  { clear Hlen h. induction bs as [|os bs IH]; intros p Hp Hfit; cbn [length] in Hfit.
    - exists [], p. split_and!; try done; try constructor. cbn. set_solver.
    - destruct (build_spec (configured os) p ltac:(lia)) as (r & p1 & Hb & Hid & _ & Hr).
      destruct (IH p1 ltac:(lia) ltac:(lia)) as (rs & p' & Hbs & Hl & Hnd & Hge & Hndt & Hnt & Ht).
      exists (r :: rs), p'. cbn [build_all]. unfold mbind, comp_bind, mret, comp_ret. rewrite Hb, Hbs. cbn [length].
      split; [done|]. split; [by rewrite Hl|].
      destruct (urb_build _ _ _).1 as [ring|e], r as [rt|e']; try done; cbn.
      + destruct Hr as (Hc & _ & Hts & Hfresh). rewrite !Forall_forall in *. rewrite Hts in *.
        split_and!.
        * constructor; [|done]. intros (rt' & Heq & Hin)%list_elem_of_fmap. apply Hge in Hin. rewrite Hc in Heq. cbn in Heq. lia.
        * intros rt' [->|Hin]%elem_of_cons; [rewrite Hc; cbn; lia|]. apply Hge in Hin. lia.
        * constructor; [|done]. intros (rt' & Heq & Hin)%list_elem_of_fmap. apply Hnt in Hin. set_solver.
        * intros rt' [->|Hin]%elem_of_cons; [done|]. apply Hnt in Hin. set_solver.
        * rewrite Ht. set_solver.
      + destruct Hr as [_ Hts]. rewrite Hts in *. split_and!; try done.
        rewrite Forall_forall in *. intros rt Hin. apply Hge in Hin. lia. }
  destruct (Hall (Process_new h)) as (rs & p' & Hb & Hl & Hnd & Hge & Hndt & _ & Ht); [cbn; lia..|].
  exists rs, p'. split_and!; try done.
  - eapply Forall_impl; [exact Hge|]. cbn. intros rt Hrt. split; [done|].
    assert (context_thread_id (context rt) ≠ DEFAULT_THREAD_ID) as Hne by (unfold DEFAULT_THREAD_ID; lia).
    split; [done|]. intros B Out prog. by apply run_program_spec, rest_inv_init.
  - rewrite Ht. cbn. set_solver.
Qed.
End build.

(** ** [MaybeDone] *)

Module MaybeDone.
Section maybe_done.
(** A poll of the inner future: its output when it is ready. *)
Context {F O : Type} (poll_inner : F → option O * F).

Inductive MaybeDone : Type := Future (f : F) | Done (output : O) | Gone.

Definition maybe_done (future : F) : MaybeDone := Future future.

Definition output_mut (m : MaybeDone) : option O := match m with Done res => Some res | _ => None end.
(** Writing through the reference [output_mut] gives. *)
Definition update_output (g : O → O) (m : MaybeDone) : MaybeDone :=
  match output_mut m with Some res => Done (g res) | None => m end.

Definition take_output (m : MaybeDone) : option O * MaybeDone :=
  match m with
  | Done output => (Some output, Gone)
  | Future _ | Gone => (None, m)
  end.

(** [true]: ready. *)
Definition poll (m : MaybeDone) : outcome (bool * MaybeDone) :=
  match m with
  | Future f =>
      match poll_inner f with
      | (Some res, _) => Ret (true, Done res)
      | (None, f) => Ret (false, Future f)
      end
  | Done _ => Ret (true, m)
  | Gone => Panic
  end.

(** The inner future polled [n] times, if it is not ready before. *)
Fixpoint drive (n : nat) (f : F) : O + F :=
  match n with
  | 0%nat => inr f
  | S n => match poll_inner f with (Some res, _) => inl res | (None, f) => drive n f end
  end.

Fixpoint poll_times (n : nat) (m : MaybeDone) : outcome (bool * MaybeDone) :=
  match n with
  | 0%nat => Ret (false, m)
  | S n => '(ready, m) ← poll m; match n with 0%nat => Ret (ready, m) | S _ => poll_times n m end
  end.

(** Polls are those of the inner future until it is ready, and it is not polled again;
    its output is then taken once, and a poll after that panics. *)
Theorem maybe_done_once n f :
  poll_times (S n) (maybe_done f) =
    Ret (match drive (S n) f with inl res => (true, Done res) | inr f => (false, Future f) end) ∧
  (∀ res, drive (S n) f = inl res →
    ∃ m, poll_times (S n) (maybe_done f) = Ret (true, m) ∧ output_mut m = Some res ∧
      take_output m = (Some res, Gone) ∧ poll Gone = Panic ∧ (take_output Gone).1 = None).
Proof.
  assert (∀ n res, poll_times (S n) (Done res) = Ret (true, Done res)) as Hdone.
  { intros k res. induction k as [|k IH]; [done|]. exact IH. }
  assert (poll_times (S n) (maybe_done f) =
    Ret (match drive (S n) f with inl res => (true, Done res) | inr f => (false, Future f) end)) as Hn.
  { unfold maybe_done. revert f. induction n as [|n IH]; intros f; cbn [poll_times drive poll].
    - by destruct (poll_inner f) as [[res|] f'].
    - destruct (poll_inner f) as [[res|] f'] eqn:Hf; cbn [mbind outcome_bind].
      + exact (Hdone n res).
      + exact (IH f'). }
  split; [exact Hn|]. intros res Hres. rewrite Hres in Hn. by exists (Done res).
Qed.
End maybe_done.
End MaybeDone.

(** ** Witnesses *)

(** Nested scopes, a panic caught inside, and an access outside of any. *)
Example scoped_key_demo :
  (exec (Then (Set_ 7 (Then (Catch (Set_ 8 (Then With PanicNow))) With)) (Then TryWith With)) (mkThread 0 ∅ [])).1
    = Unwound ∧
  rest (exec (Then (Set_ 7 (Then (Catch (Set_ 8 (Then With PanicNow))) With)) (Then TryWith With)) (mkThread 0 ∅ [])).2
    = [Some 8; Some 7; None].
Proof. by vm_compute. Qed.

(** A kernel that refuses rings of more than 4096 entries. *)
Definition demo_ring (_ : unit) (n : Z) (h : list Z) : io_result Z * list Z :=
  (if n <=? 4096 then Ok_ n else Err_ (mkIoError OtherKind (Some 12)), h ++ [n]).

Lemma built_runtimes_witness :
  ∃ rs p,
    @build_all _ _ _ tt demo_ring unit Z (Slab (@Lifecycle unit Z)) Ref (@slab_store true _)
      [[]; [WithEntries 1]; [WithEntries 5000]; [UringBuilder tt; WithEntries 300]]
      (mkThread 0 ∅ (Process_new []))
    = (Returned rs, mkThread 0 ∅ p) ∧
    (λ rt, context_thread_id (context rt)) <$> oks rs = [16; 17; 19] ∧
    host p = [1024; 256; 5000; 300] ∧ size (timespecs p) = 3%nat.
Proof.
  destruct (@built_runtimes (list Z) unit Z tt demo_ring unit Z (Slab (@Lifecycle unit Z)) Ref (@slab_store true _)
      [[]; [WithEntries 1]; [WithEntries 5000]; [UringBuilder tt; WithEntries 300]] [])
    as (rs & p & Hrun & _); [vm_compute; done|].
  exists rs, p. split; [exact Hrun|]. vm_compute in Hrun. injection Hrun as <- <-. by vm_compute.
Defined.
