(* ===== verification/RuntimeDrop.v ===== *)
(** * RuntimeDrop: dropping the runtime with tasks in its queue

    [Drop for TaskQueue] ([runtime/src/scheduler.rs]), on the worlds of Task.v.  A
    queued task is dropped without being run; its state word keeps the flag
    NOTIFIED, so that what holds from then on is the part of the invariant about
    references.  The scripts of futures own nothing, so that dropping one drops
    nothing else. *)

From stdpp Require Import gmap list fin_maps.
From S2P Require Import Prelude TaskState Task.

Local Open Scope Z_scope.

Section drop.
Context `{B : Build} {Out : Type}.

Abbreviation World := (World (Out := Out)).
Abbreviation M := (stateM World).
Implicit Types (w : World) (X : list ptr).
#[local] Arguments cnt : simpl never.

(** The [while let] of the drop; the queue is popped once for each of its tasks,
    and nothing is pushed meanwhile. *)
Fixpoint TaskQueue_drop_loop (rounds : nat) : M unit :=
  t ← TaskQueue_pop;
  match t, rounds with
  | None, _ => mret tt
  | Some p, O => undefined
  | Some p, S rounds => _ ← drop_reference p; TaskQueue_drop_loop rounds
  end.
Definition TaskQueue_drop : M unit := λ w, TaskQueue_drop_loop (length (tasks w)) w.

(** ** References *)

(** The counts are exact. *)
Definition RefInv X w : Prop := ∀ p,
  match cells w !! p with
  | Some c => refcnt X w p ≠ 0%nat ∧ ∃ f, state c = encode f ∧ Flags_ok f ∧ refs f = Z.of_nat (refcnt X w p)
  | None => refcnt X w p = 0%nat
  end.

Lemma Inv_RefInv t X Q run w : Inv t X Q run w → RefInv X w.
Proof.
  intros HI p. destruct (cells w !! p) as [c|] eqn:Hc; [|by apply (inv_dead _ _ _ _ _ HI)].
  destruct (inv_cell _ _ _ _ _ HI _ _ Hc) as [f Hok]. split; [apply Hok|]. exists f. split_and!; apply Hok.
Qed.

(** Apart from counts and freed cells nothing changes. *)
Definition same_rest w w' : Prop := tasks w' = tasks w ∧ held w' = held w ∧ joins w' = joins w.

Lemma drop_reference_refs fuel X w p :
  RefInv (p :: X) w → (size (cells w) < fuel)%nat →
  yields (drop_reference_ fuel p w) (λ '(_, w'), RefInv X w' ∧ same_rest w w').
Proof.
  revert X w p. induction fuel as [|fuel IH]; intros X w p HI Hsz; [lia|]. cbn [drop_reference_].
  assert (Hne : ∀ q, q ≠ p → refcnt (p :: X) w q = refcnt X w q) by (intros q ?; by rewrite refcnt_cons, bool_decide_eq_false_2).
  assert (Hp : refcnt (p :: X) w p = S (refcnt X w p)) by (by rewrite refcnt_cons, bool_decide_eq_true_2).
  pose proof (HI p) as HIp. destruct (cells w !! p) as [c|] eqn:Hc; [|by rewrite Hp in HIp].
  destruct HIp as (_ & f & Hst & Hok & Hrefs). rewrite Hp in Hrefs.
  set (w1 := set_cells (<[p := with_state c (encode (set_refs (refs f - 1) f))]>) w).
  assert (state_ref_dec p w = Ret (bool_decide (refs f = 1), w1)) as Hdec.
  { unfold state_ref_dec. rewrite (on_state_eq w p c _ (bool_decide (refs f = 1)) (encode (set_refs (refs f - 1) f))); [done|done|].
    rewrite Hst, ref_dec_encode by (done || lia). done. }
  rewrite (bindM_eq _ _ _ _ _ Hdec).
  assert (∀ q, refcnt X w1 q = refcnt X w q) as Hr1 by (intros q; by apply (refcnt_put X w p c)).
  case_bool_decide as H1.
  - unfold dealloc_. erewrite (bindM_eq _ _ w1); [|apply get_cell_eq; apply lookup_insert_eq].
    set (w2 := set_cells (delete p) w1). erewrite (bindM_eq _ _ w1 tt w2) by done. cbn [trailer_waker with_state].
    assert (cells w2 = delete p (cells w)) as Hcs by apply delete_insert_eq.
    assert (∀ q, refcnt (opt_ptr (trailer_waker c) ++ X) w2 q = refcnt X w q) as Hr2.
    { intros q. unfold refcnt. rewrite cnt_app, Hcs, (cnt_trailer_delete _ _ _ q Hc). cbn -[held_ptrs]. lia. }
    assert (RefInv (opt_ptr (trailer_waker c) ++ X) w2) as HI2.
    { intros q. rewrite Hcs, Hr2. destruct (decide (q = p)) as [->|Hq]; [rewrite lookup_delete_eq; lia|].
      rewrite lookup_delete_ne, <- Hne by done. apply HI. }
    destruct (trailer_waker c) as [[q|]|]; [|done..].
    eapply yields_mono; [apply (IH X w2 q HI2)|by intros [? ?]].
    rewrite Hcs. assert (is_Some (cells w !! p)) as His by eauto.
    rewrite (map_size_delete_Some _ _ His). pose proof (map_size_ne_0_lookup_2 _ _ His). lia.
  - cbn. split; [|done]. intros q. rewrite Hr1. cbn. destruct (decide (q = p)) as [->|Hq].
    + rewrite lookup_insert_eq. split; [lia|]. eexists. split; [reflexivity|]. split; [|cbn; lia].
      unfold Flags_ok in *. cbn. lia.
    + rewrite lookup_insert_ne, <- Hne by done. apply HI.
Qed.

Lemma TaskQueue_drop_loop_spec n w :
  RefInv [] w → length (tasks w) = n →
  yields (TaskQueue_drop_loop n w) (λ '(_, w'), RefInv [] w' ∧ tasks w' = [] ∧ held w' = held w ∧ joins w' = joins w).
Proof.
  revert w. induction n as [|n IH]; intros w HI Hn; cbn [TaskQueue_drop_loop]; unfold mbind, stateM_bind, TaskQueue_pop;
    destruct (tasks w) as [|p q] eqn:Hq; try done.
  set (w1 := set_tasks (λ _, q) w).
  change (yields ((drop_reference p ≫= λ _, TaskQueue_drop_loop n) w1)
    (λ '(_, w'), RefInv [] w' ∧ tasks w' = [] ∧ held w' = held w ∧ joins w' = joins w)).
  assert (RefInv [p] w1) as HI1.
  { intros x. assert (refcnt [p] w1 x = refcnt [] w x) as Hr.
    { rewrite refcnt_cons. unfold refcnt. cbn -[held_ptrs trailer_ptrs]. rewrite Hq, cnt_cons. lia. }
    rewrite Hr. apply HI. }
  pose proof (drop_reference_refs (S (size (cells w1))) [] w1 p HI1 ltac:(lia)) as Hd.
  change (drop_reference_ (S (size (cells w1))) p w1) with (drop_reference p w1) in Hd.
  destruct (drop_reference p w1) as [[[] w2]| |] eqn:He; [|done..]. rewrite (bindM_eq _ _ _ _ _ He). destruct Hd as (HI2 & Ht & Hh & Hj).
  eapply yields_mono; [apply IH; [done|]|].
  - rewrite Ht. cbn. by injection Hn.
  - intros [_ w3] (? & ? & -> & ->). by rewrite Hh, Hj.
Qed.

(** After any program, dropping the runtime empties its queue without a panic
    or undefined behaviour; the tasks that are left are exactly those that a waker
    kept by the program, a join handle or the waker stored in another task refers
    to, with exact counts. *)
Theorem runtime_drop_releases t prog w :
  t ≠ DEFAULT_THREAD_ID → run_program t prog world_init = Ret (tt, w) →
  yields (TaskQueue_drop w) (λ '(_, w'), tasks w' = [] ∧ held w' = held w ∧ joins w' = joins w ∧
    ∀ p, (is_Some (cells w' !! p) ↔ p ∈ joins w' ++ held_ptrs (held w') ++ trailer_ptrs (cells w')) ∧
      ∀ c, cells w' !! p = Some c → ref_count (state c) = Z.of_nat (refcnt [] w' p)).
Proof.
  intros Ht Hrun. destruct (permits_eq _ _ _ (run_program_spec t prog _ (rest_inv_init t Ht)) Hrun) as [_ HI].
  assert (RefInv [] w) as HR by exact (Inv_RefInv _ _ _ _ _ HI).
  eapply yields_mono; [apply (TaskQueue_drop_loop_spec _ w HR eq_refl)|].
  intros [_ w'] (HR' & Hq & Hh & Hj). split_and!; [done..|]. intros p. pose proof (HR' p) as HRp. split.
  - rewrite cnt_elem, !cnt_app. unfold refcnt in HRp. rewrite Hq, !cnt_nil in HRp.
    destruct (cells w' !! p) as [c|]; split; [intros _; lia|by eauto|by intros [? [=]]|intros; lia].
  - intros c Hc. rewrite Hc in HRp. destruct HRp as (_ & f & -> & Hok & Hrefs). by rewrite ref_count_encode.
Qed.
End drop.

(** ** Witness *)

#[local] Existing Instance debug_build.

(** A task is spawned, its handle dropped; the main future ends at once, and the
    task is dropped with the queue. *)
Definition demo_left : World (Out := nat) :=
  outcome_state world_init (run_program 16 [([], [([Spawn demo_task; DropJoin 0%nat], Some 1%nat)])] world_init).
Lemma runtime_drop_releases_witness :
  tasks demo_left = [0%nat] ∧ yields (TaskQueue_drop demo_left) (λ '(_, w'), tasks w' = []).
Proof.
  split; [vm_compute; reflexivity|].
  eapply yields_mono; [apply (runtime_drop_releases 16 [([], [([Spawn demo_task; DropJoin 0%nat], Some 1%nat)])])|]; [done| |].
  - apply outcome_state_eq. vm_compute. reflexivity.
  - intros [_ w'] Hw. apply Hw.
Defined.
