(* ===== verification/InodeTable.v ===== *)
(** * InodeTable: paths and inodes of the multithreaded FUSE adapter
    ([fuse/src/async_fuse/inode_table.rs], [directory_cache.rs])

    Paths are an abstract type with decidable equality, hashed by the code with
    [Path]'s own equality.  A table never holds 2^63 entries, so indices are
    [nat] and an inode is its index plus one; inodes coming from the kernel are
    64-bit integers, and a bad one panics. *)

From stdpp Require Import gmap list.
From S2P Require Import Prelude.

Local Open Scope Z_scope.

Section inode_table.
Context `{B : Build} {P : Type} `{Countable P} (root : P).

Record InodeTableEntry : Type := mkEntry {
  path : option P;
  lookups : Z;
  generation : Z;
}.

Record InodeTable : Type := mkTable {
  table : list InodeTableEntry;
  free_list : list nat;
  by_path : gmap P nat;
}.

Implicit Types (t : InodeTable) (e : InodeTableEntry) (p : P).

Definition InodeTable_new : InodeTable :=
  mkTable [mkEntry (Some root) 0 0] [] {[ root := 0%nat ]}.

Definition inode_of (idx : nat) : Z := Z.of_nat idx + 1.

(** [self.table[inode as usize - 1]], with its index. *)
Definition entry_at t (inode : Z) : outcome (nat * InodeTableEntry) :=
  idx ← usub 64 inode 1;
  e ← unwrap (table t !! Z.to_nat idx);
  Ret (Z.to_nat idx, e).

Definition get_inode_entry t : outcome (nat * InodeTableEntry * InodeTable) :=
  match free_list t with
  | idx :: free =>
      e ← unwrap (table t !! idx);
      g ← uadd 64 (generation e) 1;
      let e := mkEntry (path e) (lookups e) g in
      Ret (idx, e, mkTable (<[idx := e]> (table t)) free (by_path t))
  | [] =>
      let e := mkEntry None 0 0 in
      Ret (length (table t), e, mkTable (table t ++ [e]) [] (by_path t))
  end.

Definition InodeTable_add t p : outcome ((Z * Z) * InodeTable) :=
  '(idx, e, t) ← get_inode_entry t;
  let e := mkEntry (Some p) 1 (generation e) in
  let t := mkTable (<[idx := e]> (table t)) (free_list t) (by_path t) in
  match by_path t !! p with
  | Some _ => Panic                (* "attempted to insert duplicate path" *)
  | None =>
      Ret ((inode_of idx, generation e),
           mkTable (table t) (free_list t) (<[p := idx]> (by_path t)))
  end.

Definition InodeTable_add_or_get t p : outcome ((Z * Z) * InodeTable) :=
  match by_path t !! p with
  | None =>
      '(idx, e, t) ← get_inode_entry t;
      let e := mkEntry (Some p) (lookups e) (generation e) in
      Ret ((inode_of idx, generation e),
           mkTable (<[idx := e]> (table t)) (free_list t) (<[p := idx]> (by_path t)))
  | Some idx =>
      e ← unwrap (table t !! idx);
      Ret ((inode_of idx, generation e), t)
  end.

Definition InodeTable_get_path t (inode : Z) : outcome (option P) :=
  '(_, e) ← entry_at t inode; Ret (path e).

Definition InodeTable_get_inode t p : option Z := inode_of <$> by_path t !! p.

Definition InodeTable_lookup t (inode : Z) : outcome InodeTable :=
  if bool_decide (inode = 1) then Ret t
  else
    '(idx, e) ← entry_at t inode;
    n ← uadd 64 (lookups e) 1;
    Ret (mkTable (<[idx := mkEntry (path e) n (generation e)]> (table t)) (free_list t) (by_path t)).

Definition InodeTable_forget t (inode n : Z) : outcome (Z * InodeTable) :=
  if bool_decide (inode = 1) then Ret (1, t)
  else
    '(idx, e) ← entry_at t inode;
    _ ← assert_ (bool_decide (n ≤ lookups e));
    let l := lookups e - n in
    if bool_decide (l = 0) then
      p ← unwrap (path e);
      Ret (l, mkTable (<[idx := mkEntry None l (generation e)]> (table t))
                      (free_list t ++ [idx]) (delete p (by_path t)))
    else
      Ret (l, mkTable (<[idx := mkEntry (path e) l (generation e)]> (table t))
                      (free_list t) (by_path t)).

Definition InodeTable_rename t (oldpath newpath : P) : outcome InodeTable :=
  idx ← unwrap (by_path t !! oldpath);
  let bp := delete oldpath (by_path t) in
  e ← unwrap (table t !! idx);
  Ret (mkTable (<[idx := mkEntry (Some newpath) (lookups e) (generation e)]> (table t))
               (free_list t) (<[newpath := idx]> bp)).

Definition InodeTable_unlink t p : InodeTable :=
  mkTable (table t) (free_list t) (delete p (by_path t)).

(** ** Runs *)

Inductive inode_op : Type :=
  | OpAdd (p : P)
  | OpAddOrGet (p : P)
  | OpLookup (inode : Z)
  | OpForget (inode n : Z)
  | OpRename (oldpath newpath : P)
  | OpUnlink (p : P).

(** The handle an operation allocates, if it allocates one. *)
Definition inode_step t (op : inode_op) : outcome (option (Z * Z) * InodeTable) :=
  match op with
  | OpAdd p => '(h, t) ← InodeTable_add t p; Ret (Some h, t)
  | OpAddOrGet p =>
      '(h, t') ← InodeTable_add_or_get t p;
      Ret (match by_path t !! p with None => Some h | Some _ => None end, t')
  | OpLookup i => t ← InodeTable_lookup t i; Ret (None, t)
  | OpForget i n => '(_, t) ← InodeTable_forget t i n; Ret (None, t)
  | OpRename o n => t ← InodeTable_rename t o n; Ret (None, t)
  | OpUnlink p => Ret (None, InodeTable_unlink t p)
  end.

(** The handles allocated by a run, in order. *)
Fixpoint inode_run t (ops : list inode_op) : outcome (list (Z * Z) * InodeTable) :=
  match ops with
  | [] => Ret ([], t)
  | op :: ops =>
      '(h, t) ← inode_step t op;
      '(hs, t) ← inode_run t ops;
      Ret (option_list h ++ hs, t)
  end.

(** ** Invariant *)

Record table_wf t : Prop := {
  (** the path map points at entries that carry the path *)
  wf_by_path : ∀ p idx, by_path t !! p = Some idx →
    ∃ e, table t !! idx = Some e ∧ path e = Some p;
  (** the free list: the entries without a path, each once *)
  wf_free : ∀ idx, idx ∈ free_list t ↔ ∃ e, table t !! idx = Some e ∧ path e = None;
  wf_free_nodup : NoDup (free_list t);
  (** the root is never freed *)
  wf_root : ∃ e p, table t !! 0%nat = Some e ∧ path e = Some p;
  wf_counts : ∀ idx e, table t !! idx = Some e → 0 ≤ lookups e < 2 ^ 64 ∧ 0 ≤ generation e < 2 ^ 64;
}.

Lemma insert_at {A} (l : list A) i x y j : l !! i = Some x →
  <[i := y]> l !! j = if decide (j = i) then Some y else l !! j.
Proof.
  intros Hi. destruct (decide (j = i)) as [->|].
  - apply list_lookup_insert_eq. by eapply lookup_lt_Some.
  - by apply list_lookup_insert_ne.
Qed.

Lemma InodeTable_new_wf : table_wf InodeTable_new.
Proof.
  split; simpl.
  - intros p idx [<- <-]%lookup_singleton_Some. eauto.
  - intros idx. split; [by intros ?%elem_of_nil|]. intros (e & He & Hp).
    destruct idx; simplify_eq/=.
  - constructor.
  - eauto.
  - intros [|idx] e; simpl; [|done]. intros [= <-]. simpl. lia.
Qed.

(** What [get_inode_entry] hands out. *)
Record fresh_entry t (idx : nat) e t' : Prop := {
  fe_path : path e = None;
  fe_lookups : 0 ≤ lookups e < 2 ^ 64;
  fe_gen : 0 ≤ generation e < 2 ^ 64;
  fe_idx : idx ≠ 0%nat;
  fe_at : table t' !! idx = Some e;
  fe_other : ∀ j, j ≠ idx → table t' !! j = table t !! j;
  fe_old : match table t !! idx with
    | None => generation e = 0
    | Some e0 => path e0 = None ∧ (generation e0 + 1 < 2 ^ 64 → generation e = generation e0 + 1)
    end;
  fe_free : ∀ j, j ∈ free_list t' ↔ j ∈ free_list t ∧ j ≠ idx;
  fe_nodup : NoDup (free_list t');
  fe_by_path : by_path t' = by_path t;
}.

Lemma uarith_bounds w r z : 0 ≤ w → uarith w r = Ret z → 0 ≤ z < 2 ^ w.
Proof.
  intros Hw. unfold uarith. case_decide; [by intros [= <-]|].
  destruct debug_assertions; [done|]. intros [= <-]. apply Z.mod_pos_bound. by apply Z.pow_pos_nonneg.
Qed.

Lemma get_inode_entry_spec t :
  table_wf t → permits (get_inode_entry t) (λ '(idx, e, t'), fresh_entry t idx e t').
Proof.
  intros Hwf. unfold get_inode_entry. pose proof (wf_free_nodup _ Hwf) as Hnd.
  destruct (free_list t) as [|idx free] eqn:Hfree.
  - simpl. split; simpl; try done.
    + destruct (wf_root _ Hwf) as (e & p & He & _). intros H0.
      apply lookup_lt_Some in He. lia.
    + by rewrite lookup_app_r, Nat.sub_diag.
    + intros j Hj. destruct (decide (j < length (table t))%nat); [by rewrite lookup_app_l|].
      rewrite (lookup_ge_None_2 (table t)) by lia. apply lookup_ge_None_2.
      rewrite length_app. simpl. lia.
    + by rewrite lookup_ge_None_2.
    + intros j. rewrite Hfree. set_solver.
  - assert (Hin : idx ∈ free_list t) by (rewrite Hfree; by left).
    pose proof (proj1 (wf_free _ Hwf idx) Hin) as (e0 & He0 & Hp0). rewrite He0. simpl.
    destruct (uadd 64 (generation e0) 1) as [g| |] eqn:Hg; simpl; [|done|].
    2: { unfold uadd, uarith in Hg. destruct (decide _), debug_assertions; done. }
    pose proof (uarith_bounds 64 _ _ ltac:(lia) Hg) as Hgb.
    split; simpl; try done.
    + apply (wf_counts _ Hwf _ _ He0).
    + intros ->. destruct (wf_root _ Hwf) as (e & p & He & Hp). congruence.
    + rewrite (insert_at _ _ e0) by done. by rewrite decide_True.
    + intros j Hj. rewrite (insert_at _ _ e0) by done. by rewrite decide_False.
    + rewrite He0. split; [done|]. intros Hlt. pose proof (wf_counts _ Hwf _ _ He0) as [_ ?].
      rewrite uadd_small in Hg by lia. congruence.
    + apply NoDup_cons in Hnd as [Hni Hnd]. intros j. rewrite Hfree, elem_of_cons.
      split; [|naive_solver]. intros Hj. split; [by right|]. by intros ->.
    + by apply NoDup_cons in Hnd as [_ ?].
Qed.

Lemma alloc_wf t idx e t' p l :
  table_wf t → fresh_entry t idx e t' → 0 ≤ l < 2 ^ 64 → by_path t !! p = None →
  table_wf (mkTable (<[idx := mkEntry (Some p) l (generation e)]> (table t'))
                    (free_list t') (<[p := idx]> (by_path t'))).
Proof.
  intros Hwf [Hp Hl Hg Hidx Hat Hoth Hold Hfree Hnd Hbp] Hlb Hnone.
  assert (Hlk : ∀ j, <[idx := mkEntry (Some p) l (generation e)]> (table t') !! j =
    if decide (j = idx) then Some (mkEntry (Some p) l (generation e)) else table t !! j).
  { intros j. rewrite (insert_at _ _ e) by done. case_decide; [done|]. by apply Hoth. }
  split; simpl.
  - intros q j. rewrite Hbp, lookup_insert_Some, Hlk. intros [[<- <-]|[Hne Hq]].
    { rewrite decide_True by done. eauto. }
    destruct (wf_by_path _ Hwf _ _ Hq) as (e1 & He1 & Hpe1). rewrite decide_False; [eauto|].
    intros ->. rewrite He1 in Hold. destruct Hold. congruence.
  - intros j. rewrite Hfree, Hlk. case_decide; [naive_solver|]. rewrite (wf_free _ Hwf j). naive_solver.
  - done.
  - rewrite Hlk, decide_False by done. apply (wf_root _ Hwf).
  - intros j e1. rewrite Hlk. case_decide; [intros [= <-]; done|]. apply (wf_counts _ Hwf).
Qed.

(** Changing the counters of an entry that keeps its path. *)
Lemma set_lookups_wf t idx e l :
  table_wf t → table t !! idx = Some e → 0 ≤ l < 2 ^ 64 →
  table_wf (mkTable (<[idx := mkEntry (path e) l (generation e)]> (table t)) (free_list t) (by_path t)).
Proof.
  intros Hwf He Hl.
  assert (Hlk := λ j, insert_at (table t) idx e (mkEntry (path e) l (generation e)) j He).
  assert (Hpath : ∀ j o, (∃ e1, <[idx := mkEntry (path e) l (generation e)]> (table t) !! j = Some e1 ∧
      path e1 = o) ↔ ∃ e1, table t !! j = Some e1 ∧ path e1 = o).
  { intros j o. rewrite Hlk. case_decide; [subst|done].
    split; intros (e1 & He1 & Hpe1); [injection He1 as <-; by eauto|].
    eexists. split; [done|]. simpl. congruence. }
  split; simpl.
  - intros q j Hq. apply Hpath. by apply (wf_by_path _ Hwf).
  - intros j. rewrite Hpath. apply Hwf.
  - apply Hwf.
  - destruct (wf_root _ Hwf) as (e1 & p1 & He1 & Hp1).
    destruct (proj2 (Hpath 0%nat (Some p1))) as (e2 & ? & ?); eauto.
  - intros j e1. rewrite Hlk. case_decide; [|apply (wf_counts _ Hwf)]. intros [= <-]. simpl.
    split; [done|]. by apply (wf_counts _ Hwf _ _ He).
Qed.

Lemma free_entry_wf t idx e p :
  table_wf t → idx ≠ 0%nat → table t !! idx = Some e → path e = Some p →
  table_wf (mkTable (<[idx := mkEntry None 0 (generation e)]> (table t))
                    (free_list t ++ [idx]) (delete p (by_path t))).
Proof.
  intros Hwf Hidx He Hp.
  assert (Hlk := λ j, insert_at (table t) idx e (mkEntry None 0 (generation e)) j He).
  assert (Hni : idx ∉ free_list t).
  { intros (e1 & He1 & ?)%(wf_free _ Hwf). congruence. }
  split; simpl.
  - intros q j [Hne Hq]%lookup_delete_Some.
    destruct (wf_by_path _ Hwf _ _ Hq) as (e1 & He1 & Hpe1). rewrite Hlk.
    case_decide; [subst; congruence|eauto].
  - intros j. rewrite elem_of_app, list_elem_of_singleton, Hlk, (wf_free _ Hwf j).
    case_decide; [subst|].
    + split; [|by right]. intros _. eexists. split; done.
    + split; [intros [?|?]; [done|done]|by left].
  - apply NoDup_app. split_and!; [apply Hwf| |apply NoDup_singleton].
    intros j Hj ->%list_elem_of_singleton. done.
  - rewrite Hlk, decide_False by done. apply Hwf.
  - intros j e1. rewrite Hlk. case_decide; [|apply (wf_counts _ Hwf)]. intros [= <-]. simpl.
    split; [lia|]. by apply (wf_counts _ Hwf _ _ He).
Qed.

Lemma rename_wf t o n idx e :
  table_wf t → by_path t !! o = Some idx → table t !! idx = Some e →
  table_wf (mkTable (<[idx := mkEntry (Some n) (lookups e) (generation e)]> (table t))
                    (free_list t) (<[n := idx]> (delete o (by_path t)))).
Proof.
  intros Hwf Ho He.
  destruct (wf_by_path _ Hwf _ _ Ho) as (e0 & He0 & Hp0). rewrite He in He0. injection He0 as <-.
  assert (Hlk := λ j, insert_at (table t) idx e (mkEntry (Some n) (lookups e) (generation e)) j He).
  split; simpl.
  - intros q j. rewrite lookup_insert_Some, lookup_delete_Some, Hlk.
    intros [[<- <-]|[Hne [Hno Hq]]]; [rewrite decide_True by done; eauto|].
    destruct (wf_by_path _ Hwf _ _ Hq) as (e1 & He1 & Hpe1). case_decide; [subst; congruence|eauto].
  - intros j. rewrite (wf_free _ Hwf j), Hlk. case_decide; [subst|done].
    split; intros (e1 & He1 & Hpe1); [congruence|by injection He1 as <-].
  - apply Hwf.
  - rewrite Hlk. case_decide; [eauto|]. apply Hwf.
  - intros j e1. rewrite Hlk. case_decide; [|apply (wf_counts _ Hwf)]. intros [= <-].
    apply (wf_counts _ Hwf _ _ He).
Qed.

Lemma unlink_wf t p : table_wf t → table_wf (InodeTable_unlink t p).
Proof.
  intros Hwf. split; simpl; try apply Hwf.
  intros q j [_ Hq]%lookup_delete_Some. by apply (wf_by_path _ Hwf).
Qed.

(** ** The operations *)

Lemma uadd_permits w a b : permits (uadd w a b) (λ _, True).
Proof. unfold uadd, uarith. case_decide; [done|]. by destruct debug_assertions. Qed.
Lemma uadd_ok_bounds w a b : 0 ≤ w → permits (uadd w a b) (λ z, 0 ≤ z < 2 ^ w).
Proof.
  intros Hw. destruct (uadd w a b) as [z| |] eqn:Hz; [|done|].
  - by apply (uarith_bounds w (a + b)).
  - pose proof (uadd_permits w a b) as Hp. by rewrite Hz in Hp.
Qed.

Lemma entry_at_spec t inode :
  permits (entry_at t inode) (λ '(idx, e), table t !! idx = Some e ∧
    (0 < inode < 2 ^ 64 → inode = inode_of idx)).
Proof.
  unfold entry_at, usub, uarith. case_decide as Hr.
  - simpl. destruct (table t !! _) eqn:He; simpl; [|done]. split; [done|]. unfold inode_of. lia.
  - destruct debug_assertions; [done|]. simpl. destruct (table t !! _) eqn:He; simpl; [|done].
    split; [done|lia].
Qed.

Lemma add_spec t p :
  table_wf t → permits (InodeTable_add t p) (λ '(h, t'), table_wf t' ∧
    ∃ idx e t1, fresh_entry t idx e t1 ∧ h = (inode_of idx, generation e) ∧
      (∀ j, table t' !! j = if decide (j = idx) then Some (mkEntry (Some p) 1 (generation e)) else table t !! j) ∧
      by_path t !! p = None ∧ by_path t' = <[p := idx]> (by_path t)).
Proof.
  intros Hwf. unfold InodeTable_add. eapply permits_bind; [by apply get_inode_entry_spec|].
  intros [[idx e] t1] Hfe. simpl. rewrite (fe_by_path _ _ _ _ Hfe).
  destruct (by_path t !! p) eqn:Hp; [done|]. simpl. split.
  - rewrite <- (fe_by_path _ _ _ _ Hfe). by eapply alloc_wf.
  - exists idx, e, t1. split_and!; try done. intros j.
    rewrite (insert_at _ _ e) by apply Hfe. case_decide; [done|]. by apply (fe_other _ _ _ _ Hfe).
Qed.

Lemma add_or_get_spec t p :
  table_wf t → permits (InodeTable_add_or_get t p) (λ '(h, t'), table_wf t' ∧
    match by_path t !! p with
    | Some idx => t' = t ∧ ∃ e, table t !! idx = Some e ∧ h = (inode_of idx, generation e)
    | None => ∃ idx e t1, fresh_entry t idx e t1 ∧ h = (inode_of idx, generation e) ∧
        (∀ j, table t' !! j = if decide (j = idx) then Some (mkEntry (Some p) (lookups e) (generation e)) else table t !! j) ∧
        by_path t' = <[p := idx]> (by_path t)
    end).
Proof.
  intros Hwf. unfold InodeTable_add_or_get. destruct (by_path t !! p) as [idx|] eqn:Hp.
  - destruct (wf_by_path _ Hwf _ _ Hp) as (e & He & _). rewrite He. simpl. split; [done|]. eauto.
  - eapply permits_bind; [by apply get_inode_entry_spec|]. intros [[idx e] t1] Hfe. simpl. split.
    + eapply alloc_wf; try done. apply Hfe.
    + exists idx, e, t1. split_and!; try done.
      * intros j. rewrite (insert_at _ _ e) by apply Hfe. case_decide; [done|].
        by apply (fe_other _ _ _ _ Hfe).
      * by rewrite (fe_by_path _ _ _ _ Hfe).
Qed.

Lemma lookup_spec t inode :
  table_wf t → permits (InodeTable_lookup t inode) (λ t', table_wf t' ∧ by_path t' = by_path t ∧
    if bool_decide (inode = 1) then t' = t
    else ∃ idx e n, table t !! idx = Some e ∧ (0 < inode < 2 ^ 64 → inode = inode_of idx) ∧
         uadd 64 (lookups e) 1 = Ret n ∧
         table t' = <[idx := mkEntry (path e) n (generation e)]> (table t)).
Proof.
  intros Hwf. unfold InodeTable_lookup. case_bool_decide; [done|].
  eapply permits_bind; [apply entry_at_spec|]. intros [idx e] [He Hi].
  pose proof (uadd_ok_bounds 64 (lookups e) 1 ltac:(lia)) as Hn.
  destruct (uadd 64 (lookups e) 1) as [n| |] eqn:Hadd; simpl in *; [|done..].
  split_and!; [by apply set_lookups_wf|done|]. exists idx, e, n. done.
Qed.

Lemma forget_spec t inode n :
  table_wf t → 0 ≤ n < 2 ^ 64 → 0 < inode < 2 ^ 64 →
  permits (InodeTable_forget t inode n) (λ '(l, t'), table_wf t' ∧
    if bool_decide (inode = 1) then l = 1 ∧ t' = t
    else ∃ idx e, inode = inode_of idx ∧ table t !! idx = Some e ∧ n ≤ lookups e ∧ l = lookups e - n ∧
      (∀ j, table t' !! j = if decide (j = idx)
         then Some (mkEntry (if decide (l = 0) then None else path e) l (generation e)) else table t !! j) ∧
      if bool_decide (l = 0)
      then ∃ p, path e = Some p ∧ by_path t' = delete p (by_path t) ∧ free_list t' = free_list t ++ [idx]
      else by_path t' = by_path t ∧ free_list t' = free_list t).
Proof.
  intros Hwf Hn Hrange. unfold InodeTable_forget. case_bool_decide; [done|].
  eapply permits_bind; [apply entry_at_spec|]. intros [idx e] [He Hi].
  specialize (Hi Hrange). pose proof (wf_counts _ Hwf _ _ He) as [? ?].
  destruct (decide (n ≤ lookups e)) as [Hle|Hle];
    [rewrite (bool_decide_eq_true_2 (n ≤ lookups e)) by done; simpl
    |by rewrite (bool_decide_eq_false_2 (n ≤ lookups e)) by done].
  case_bool_decide as Hl.
  - destruct (path e) as [p|] eqn:Hp; simpl; [|done]. split.
    + rewrite Hl. apply free_entry_wf; try done. intros ->. unfold inode_of in Hi. lia.
    + exists idx, e. split_and!; try done; [|rewrite bool_decide_eq_true_2 by done; eauto].
      intros j. simpl. rewrite (insert_at _ _ e) by done. case_decide; [|done]. by rewrite decide_True.
  - split; [apply set_lookups_wf; try done; lia|].
    exists idx, e. split_and!; try done; [|by rewrite bool_decide_eq_false_2].
    intros j. simpl. rewrite (insert_at _ _ e) by done. case_decide; [|done]. by rewrite decide_False.
Qed.

Lemma rename_spec t o n :
  table_wf t → permits (InodeTable_rename t o n) (λ t', table_wf t' ∧
    ∃ idx e, by_path t !! o = Some idx ∧ table t !! idx = Some e ∧
      table t' = <[idx := mkEntry (Some n) (lookups e) (generation e)]> (table t) ∧
      free_list t' = free_list t ∧ by_path t' = <[n := idx]> (delete o (by_path t))).
Proof.
  intros Hwf. unfold InodeTable_rename. destruct (by_path t !! o) as [idx|] eqn:Ho; simpl; [|done].
  destruct (table t !! idx) as [e|] eqn:He; simpl; [|done].
  split; [by eapply rename_wf|]. exists idx, e. done.
Qed.

(** Numbers coming from the kernel are [u64]s, and inodes are not 0. *)
Definition op_ok (op : inode_op) : Prop :=
  match op with
  | OpLookup i => 0 < i < 2 ^ 64
  | OpForget i n => 0 < i < 2 ^ 64 ∧ 0 ≤ n < 2 ^ 64
  | _ => True
  end.

Lemma inode_step_wf t op :
  table_wf t → op_ok op → permits (inode_step t op) (λ '(_, t'), table_wf t').
Proof.
  intros Hwf Hok. destruct op as [p|p|i|i n|o n|p]; simpl in *.
  - eapply permits_bind; [by apply add_spec|]. intros [h t'] [? _]. done.
  - eapply permits_bind; [by apply add_or_get_spec|]. intros [h t'] [? _]. done.
  - eapply permits_bind; [by apply lookup_spec|]. intros t' [? _]. done.
  - destruct Hok. eapply permits_bind; [by apply forget_spec|]. intros [l t'] [? _]. done.
  - eapply permits_bind; [by apply rename_spec|]. intros t' [? _]. done.
  - by apply unlink_wf.
Qed.

Lemma inode_run_wf t ops :
  table_wf t → Forall op_ok ops → permits (inode_run t ops) (λ '(_, t'), table_wf t').
Proof.
  intros Hwf Hops. revert t Hwf. induction Hops as [|op ops Hop _ IH]; intros t Hwf; [done|]. simpl.
  eapply permits_bind; [by apply inode_step_wf|]. intros [h t1] Hwf1.
  eapply permits_bind; [by apply IH|]. intros [hs t2] Hwf2. done.
Qed.

(** ** Handles are never reused *)

Definition gens_below (G : Z) t : Prop := ∀ idx e, table t !! idx = Some e → generation e ≤ G.
Definition grows t t' : Prop := ∀ idx e, table t !! idx = Some e →
  ∃ e', table t' !! idx = Some e' ∧ generation e ≤ generation e'.
Definition newer t (h : Z * Z) : Prop :=
  ∃ idx, h.1 = inode_of idx ∧ ∀ e, table t !! idx = Some e → generation e < h.2.
(** [h] is the current handle of its entry. *)
Definition current t (h : Z * Z) : Prop :=
  ∃ idx e, h.1 = inode_of idx ∧ table t !! idx = Some e ∧ generation e = h.2.

Lemma grows_insert t t' idx e e' :
  table t !! idx = Some e → table t' = <[idx := e']> (table t) → generation e' = generation e →
  grows t t' ∧ ∀ G, gens_below G t → gens_below G t'.
Proof.
  intros He Ht Hg. split.
  - intros j e1 He1. rewrite Ht, (insert_at _ _ e) by done. case_decide; [subst|by (exists e1; split; [done|lia])].
    exists e'. split; [done|]. assert (e1 = e) as -> by congruence. lia.
  - intros G HG j e1. rewrite Ht, (insert_at _ _ e) by done. case_decide; [|apply HG].
    intros [= <-]. rewrite Hg. by apply (HG idx).
Qed.

Lemma fresh_handle t idx e t1 t' G :
  fresh_entry t idx e t1 → gens_below G t → 0 ≤ G → G + 1 < 2 ^ 64 →
  (∀ j, table t' !! j = if decide (j = idx) then table t' !! idx else table t !! j) →
  (∃ e', table t' !! idx = Some e' ∧ generation e' = generation e) →
  grows t t' ∧ gens_below (G + 1) t' ∧ newer t (inode_of idx, generation e) ∧
  current t' (inode_of idx, generation e).
Proof.
  intros Hfe HG HG0 HG1 Hlk (e' & He' & Hg).
  pose proof (fe_old _ _ _ _ Hfe) as Hold.
  assert (Hnew : ∀ e0, table t !! idx = Some e0 → generation e = generation e0 + 1).
  { intros e0 He0. rewrite He0 in Hold. apply Hold. specialize (HG _ _ He0). lia. }
  split_and!.
  - intros j e1 He1. rewrite Hlk. case_decide; [subst|by (exists e1; split; [done|lia])].
    exists e'. split; [done|]. rewrite Hg, (Hnew _ He1). lia.
  - intros j e1. rewrite Hlk. case_decide; [|intros H1; specialize (HG _ _ H1); lia].
    rewrite He'. intros [= <-]. rewrite Hg. destruct (table t !! idx) as [e0|] eqn:He0.
    + rewrite (Hnew _ eq_refl). specialize (HG _ _ He0). lia.
    + lia.
  - exists idx. split; [done|]. simpl. intros e0 He0. rewrite (Hnew _ He0). lia.
  - exists idx, e'. done.
Qed.

Lemma inode_step_handles t op G :
  table_wf t → op_ok op → gens_below G t → 0 ≤ G → G + 1 < 2 ^ 64 →
  permits (inode_step t op) (λ '(h, t'),
    table_wf t' ∧ grows t t' ∧ gens_below (G + 1) t' ∧
    ∀ x, h = Some x → newer t x ∧ current t' x).
Proof.
  intros Hwf Hok HG HG0 HG1.
  assert (Hkeep : ∀ t', grows t t' ∧ (∀ G, gens_below G t → gens_below G t') →
    grows t t' ∧ gens_below (G + 1) t' ∧ ∀ x : Z * Z, None = Some x → newer t x ∧ current t' x).
  { intros t' [H1 H2]. split_and!; [done| |done].
    intros idx e He. pose proof (H2 G HG idx e He). lia. }
  assert (Hrefl : grows t t ∧ (∀ G, gens_below G t → gens_below G t)).
  { split; [|done]. intros idx e He. eexists. split; [done|lia]. }
  destruct op as [p|p|i|i n|o n|p]; simpl in *.
  - eapply permits_bind; [by apply add_spec|]. intros [h t'] (Hwf' & idx & e & t1 & Hfe & -> & Hlk & _ & _).
    simpl. split; [done|].
    destruct (fresh_handle t idx e t1 t' G) as (? & ? & ? & ?); try done.
    + intros j. rewrite Hlk. case_decide; [subst|done]. by rewrite Hlk, decide_True.
    + rewrite Hlk, decide_True by done. eauto.
    + split_and!; try done. by intros x [= <-].
  - eapply permits_bind; [by apply add_or_get_spec|]. intros [h t'] (Hwf' & Hcase). simpl. split; [done|].
    destruct (by_path t !! p) as [idx|].
    + destruct Hcase as [-> _]. by apply Hkeep.
    + destruct Hcase as (idx & e & t1 & Hfe & -> & Hlk & _).
      destruct (fresh_handle t idx e t1 t' G) as (? & ? & ? & ?); try done.
      * intros j. rewrite Hlk. case_decide; [subst|done]. by rewrite Hlk, decide_True.
      * rewrite Hlk, decide_True by done. eauto.
      * split_and!; try done. by intros x [= <-].
  - eapply permits_bind; [by apply lookup_spec|]. intros t' (Hwf' & _ & Hcase). simpl. split; [done|].
    apply Hkeep. case_bool_decide; [by subst|].
    destruct Hcase as (idx & e & m & He & _ & _ & Ht). by eapply grows_insert.
  - destruct Hok as [Hi Hn]. eapply permits_bind; [by apply forget_spec|].
    intros [l t'] (Hwf' & Hcase). simpl. split; [done|]. apply Hkeep.
    case_bool_decide; [by destruct Hcase as [_ ->]|].
    destruct Hcase as (idx & e & _ & He & _ & _ & Hlk & _). split.
    + intros j e1 He1. rewrite Hlk.
      destruct (decide (j = idx)) as [->|]; [|by (exists e1; split; [done|lia])].
      eexists. split; [done|]. simpl. assert (e1 = e) as -> by congruence. lia.
    + intros G' HG' j e1. rewrite Hlk.
      destruct (decide (j = idx)) as [->|]; [|apply HG']. intros [= <-]. exact (HG' idx e He).
  - eapply permits_bind; [by apply rename_spec|]. intros t' (Hwf' & idx & e & _ & He & Ht & _).
    simpl. split; [done|]. apply Hkeep. by eapply grows_insert.
  - split; [by apply unlink_wf|]. by apply Hkeep.
Qed.

Lemma inode_run_handles t ops G :
  table_wf t → Forall op_ok ops → gens_below G t → 0 ≤ G →
  G + Z.of_nat (length ops) < 2 ^ 64 →
  permits (inode_run t ops) (λ '(hs, t'), NoDup hs ∧ Forall (newer t) hs).
Proof.
  intros Hwf Hops. revert t G Hwf. induction Hops as [|op ops Hop _ IH]; intros t G Hwf HG HG0 Hlen.
  { simpl. split; constructor. }
  simpl length in Hlen. cbn [inode_run].
  eapply permits_bind; [apply (inode_step_handles t op G); try done; lia|].
  intros [h t1] (Hwf1 & Hgr & HG1 & Hh).
  eapply permits_bind; [apply (IH t1 (G + 1)); try done; lia|]. intros [hs t2] [Hnd Hnew].
  assert (Hnew' : Forall (newer t) hs).
  { eapply Forall_impl; [exact Hnew|]. intros [i g] (idx & Hi & Hg). exists idx. split; [done|].
    intros e He. destruct (Hgr _ _ He) as (e' & He' & ?). specialize (Hg _ He'). lia. }
  destruct h as [x|]; simpl; [|done]. destruct (Hh x eq_refl) as [Hx Hc]. split; [|by constructor].
  constructor; [|done]. intros Hin. rewrite Forall_forall in Hnew. specialize (Hnew _ Hin).
  destruct Hnew as (idx & Hi & Hg), Hc as (idx' & e & Hi' & He & Hge).
  assert (idx = idx') as -> by (unfold inode_of in *; lia). specialize (Hg _ He). lia.
Qed.

(** ** Properties *)

Lemma gens_below_new : gens_below 0 InodeTable_new.
Proof. intros [|idx] e; simpl; [|done]. by intros [= <-]. Qed.

(** C33: inode handles are unique: over any run, the pairs (inode, generation)
    handed out for new paths are pairwise distinct, although inode numbers are
    reused. *)
Theorem inode_handles_unique ops :
  Forall op_ok ops → Z.of_nat (length ops) < 2 ^ 64 →
  permits (inode_run InodeTable_new ops) (λ '(hs, _), NoDup hs).
Proof.
  intros Hops Hlen.
  eapply permits_mono; [apply (inode_run_handles InodeTable_new ops 0)|by intros [hs t] []]; try done.
  - apply InodeTable_new_wf.
  - apply gens_below_new.
Qed.

(** The two directions of the table agree: after any run, the inode that
    [get_inode] finds for a path is one whose [get_path] is that path. *)
Theorem get_inode_get_path ops hs t p i :
  Forall op_ok ops → inode_run InodeTable_new ops = Ret (hs, t) →
  Z.of_nat (length (table t)) < 2 ^ 63 →
  InodeTable_get_inode t p = Some i → InodeTable_get_path t i = Ret (Some p).
Proof.
  intros Hops Hrun Hlen Hp.
  pose proof (permits_eq _ _ _ (inode_run_wf _ ops InodeTable_new_wf Hops) Hrun) as Hwf.
  unfold InodeTable_get_inode in Hp. destruct (by_path t !! p) as [idx|] eqn:Hbp; [|done].
  injection Hp as <-. destruct (wf_by_path _ Hwf _ _ Hbp) as (e & He & Hpe).
  pose proof (lookup_lt_Some _ _ _ He).
  unfold InodeTable_get_path, entry_at, inode_of. rewrite usub_small by lia. simpl.
  replace (Z.to_nat (Z.of_nat idx + 1 - 1)) with idx by lia. rewrite He. simpl. by rewrite Hpe.
Qed.

(** [forget] counts down: it fails if more lookups are forgotten than were
    made, returns what is left, and at zero — and only then — drops the entry's
    path and queues its number for reuse; other entries are not touched and the
    root cannot be forgotten. *)
Theorem InodeTable_forget_counts t inode n :
  table_wf t → 0 ≤ n < 2 ^ 64 → 0 < inode < 2 ^ 64 →
  permits (InodeTable_forget t inode n) (λ '(l, t'),
    if bool_decide (inode = 1) then l = 1 ∧ t' = t
    else ∃ idx e, inode = inode_of idx ∧ table t !! idx = Some e ∧ n ≤ lookups e ∧ l = lookups e - n ∧
      InodeTable_get_path t' inode = Ret (if decide (l = 0) then None else path e) ∧
      (∀ j, j ≠ idx → table t' !! j = table t !! j) ∧
      free_list t' = (if decide (l = 0) then free_list t ++ [idx] else free_list t)).
Proof.
  intros Hwf Hn Hi. eapply permits_mono; [by apply forget_spec|]. intros [l t'] [_ Hcase].
  case_bool_decide; [done|].
  destruct Hcase as (idx & e & -> & He & Hle & Hl & Hlk & Hfree). exists idx, e. split_and!; try done.
  - unfold InodeTable_get_path, entry_at, inode_of in *. rewrite usub_small by lia. simpl.
    replace (Z.to_nat (Z.of_nat idx + 1 - 1)) with idx by lia. rewrite Hlk, decide_True by done. done.
  - intros j Hj. by rewrite Hlk, decide_False.
  - case_bool_decide as Hz; [rewrite decide_True by done|rewrite decide_False by done].
    + by destruct Hfree as (p & _ & _ & ?).
    + by destruct Hfree.
Qed.

(** Forgetting an unlinked inode can take away the mapping of another one:
    when a path was removed and created again, the last [forget] of the old
    inode unmaps the path although the new inode is alive, and the next
    [add_or_get] gives the path a second inode. *)
Theorem forget_unmaps_live_inode (a : P) :
  a ≠ root →
  ∃ t t', inode_run InodeTable_new [OpAdd a; OpUnlink a; OpAdd a; OpForget 2 1] = Ret ([(2, 0); (3, 0)], t) ∧
    InodeTable_get_path t 3 = Ret (Some a) ∧ table t !! 2%nat = Some (mkEntry (Some a) 1 0) ∧
    InodeTable_get_inode t a = None ∧
    InodeTable_add_or_get t a = Ret ((2, 1), t') ∧
    InodeTable_get_path t' 2 = Ret (Some a) ∧ InodeTable_get_path t' 3 = Ret (Some a).
Proof.
  intros Ha.
  assert (H1 : InodeTable_add InodeTable_new a = Ret ((2, 0),
    mkTable [mkEntry (Some root) 0 0; mkEntry (Some a) 1 0] [] (<[a := 1%nat]> {[root := 0%nat]}))).
  { unfold InodeTable_add. simpl. by rewrite lookup_singleton_ne. }
  cbn [inode_run inode_step]. rewrite H1. simpl.
  assert (H2 : InodeTable_add (InodeTable_unlink (mkTable [mkEntry (Some root) 0 0; mkEntry (Some a) 1 0] []
      (<[a := 1%nat]> {[root := 0%nat]})) a) a = Ret ((3, 0),
    mkTable [mkEntry (Some root) 0 0; mkEntry (Some a) 1 0; mkEntry (Some a) 1 0] []
      (<[a := 2%nat]> {[root := 0%nat]}))).
  { unfold InodeTable_add, InodeTable_unlink. simpl. rewrite delete_insert_id by by rewrite lookup_singleton_ne.
    by rewrite lookup_singleton_ne. }
  rewrite H2. simpl.
  set (t := mkTable [mkEntry (Some root) 0 0; mkEntry None 0 0; mkEntry (Some a) 1 0] [1%nat]
    (delete a (<[a := 2%nat]> {[root := 0%nat]}))).
  exists t, (mkTable [mkEntry (Some root) 0 0; mkEntry (Some a) 0 1; mkEntry (Some a) 1 0] []
    (<[a := 1%nat]> (by_path t))).
  assert (Hn : by_path t !! a = None) by apply lookup_delete_eq.
  split_and!; try (by destruct B).
  - unfold InodeTable_get_inode. by rewrite Hn.
  - unfold InodeTable_add_or_get. rewrite Hn. by destruct B.
Qed.
End inode_table.

(** ** DirectoryCache *)

Section directory_cache.
Context {DirectoryEntry : Type}.

Record DirectoryCacheEntry : Type := mkDirEntry {
  fh : Z;
  entries : option (list DirectoryEntry);
}.

Record DirectoryCache : Type := mkCache {
  next_key : Z;
  cache_entries : gmap Z DirectoryCacheEntry;
}.

Implicit Types (c : DirectoryCache) (e : DirectoryCacheEntry).

Definition DirectoryCache_new : DirectoryCache := mkCache 1 ∅.

Definition DirectoryCache_new_entry c (f : Z) : Z * DirectoryCache :=
  let key := next_key c in
  (key, mkCache (wrap 64 (next_key c + 1)) (<[key := mkDirEntry f None]> (cache_entries c))).

Definition DirectoryCache_real_fh c (key : Z) : outcome Z :=
  e ← unwrap (cache_entries c !! key); Ret (fh e).

(** [get_mut], and the assignment through the reference it returns. *)
Definition DirectoryCache_get_mut c (key : Z) (g : DirectoryCacheEntry → DirectoryCacheEntry)
    : outcome DirectoryCache :=
  e ← unwrap (cache_entries c !! key);
  Ret (mkCache (next_key c) (<[key := g e]> (cache_entries c))).

Definition DirectoryCache_delete c (key : Z) : DirectoryCache :=
  mkCache (next_key c) (delete key (cache_entries c)).

(** opendir, a first readdir that fills the entry, releasedir *)
Inductive dir_op : Type :=
  | DirOpen (f : Z)
  | DirFill (key : Z) (l : list DirectoryEntry)
  | DirRelease (key : Z).

Definition dir_step c (op : dir_op) : outcome DirectoryCache :=
  match op with
  | DirOpen f => Ret (DirectoryCache_new_entry c f).2
  | DirFill key l => DirectoryCache_get_mut c key (λ e, mkDirEntry (fh e) (Some l))
  | DirRelease key => Ret (DirectoryCache_delete c key)
  end.

Fixpoint dir_run c (ops : list dir_op) : outcome DirectoryCache :=
  match ops with [] => Ret c | op :: ops => c ← dir_step c op; dir_run c ops end.

Definition cache_below (n : Z) c : Prop :=
  1 ≤ next_key c ≤ n ∧ ∀ k, is_Some (cache_entries c !! k) → 1 ≤ k < next_key c.

Lemma dir_step_below n c op :
  cache_below n c → n + 1 < 2 ^ 64 → permits (dir_step c op) (cache_below (n + 1)).
Proof.
  intros [Hn Hk] Hb. destruct op as [f|key l|key]; simpl.
  - rewrite wrap_small by lia. split; simpl; [lia|]. intros k [e He].
    apply lookup_insert_Some in He as [[<- _]|[_ He]]; [lia|].
    specialize (Hk k (mk_is_Some _ _ He)). lia.
  - unfold DirectoryCache_get_mut. destruct (cache_entries c !! key) eqn:Hkey; simpl; [|done].
    split; simpl; [lia|]. intros k [e He].
    apply lookup_insert_Some in He as [[<- _]|[_ He]]; apply Hk; eauto.
  - split; simpl; [lia|]. intros k [e [_ He]%lookup_delete_Some]. apply Hk. eauto.
Qed.

Lemma dir_run_below n c ops :
  cache_below n c → n + Z.of_nat (length ops) < 2 ^ 64 →
  permits (dir_run c ops) (λ c', ∃ n', cache_below n' c' ∧ n' ≤ n + Z.of_nat (length ops)).
Proof.
  revert n c. induction ops as [|op ops IH]; intros n c Hc Hn; simpl in *.
  { exists n. split; [done|lia]. }
  eapply permits_bind; [apply (dir_step_below n); [done|lia]|]. intros c1 Hc1.
  eapply permits_mono; [apply (IH (n + 1)); [done|lia]|]. intros c2 (n' & ? & ?). exists n'. split; [done|lia].
Qed.

(** a directory handle names one open directory: [opendir] returns a key
    that is not in use, under which the file system's handle is found again, and
    no other key is disturbed. *)
Theorem directory_key_fresh ops c f :
  1 + Z.of_nat (length ops) < 2 ^ 64 → dir_run DirectoryCache_new ops = Ret c →
  let '(key, c') := DirectoryCache_new_entry c f in
  cache_entries c !! key = None ∧ DirectoryCache_real_fh c' key = Ret f ∧
  ∀ k, k ≠ key → DirectoryCache_real_fh c' k = DirectoryCache_real_fh c k.
Proof.
  intros Hn Hrun. assert (H0 : cache_below 1 DirectoryCache_new).
  { split; [done|]. intros k [e [=]]. }
  destruct (permits_eq _ _ _ (dir_run_below 1 _ ops H0 Hn) Hrun) as (n' & [_ Hk] & _).
  simpl. split_and!.
  - destruct (cache_entries c !! next_key c) as [e|] eqn:He; [|done].
    specialize (Hk _ (mk_is_Some _ _ He)). lia.
  - unfold DirectoryCache_real_fh. simpl. by rewrite lookup_insert_eq.
  - intros k Hk'. unfold DirectoryCache_real_fh. simpl. by rewrite lookup_insert_ne.
Qed.
End directory_cache.

(** *** Concrete instances: paths are numbers, the root is 0 *)

#[local] Instance debug_build : Build := true.

Definition demo_inode_ops : list (inode_op (P:=nat)) :=
  [OpAdd 1%nat; OpAddOrGet 2%nat; OpLookup 3; OpForget 2 1; OpAdd 5%nat; OpRename 2%nat 7%nat; OpUnlink 5%nat].

Lemma demo_inode_ops_ok : Forall op_ok demo_inode_ops.
Proof. repeat constructor; lia. Qed.

Lemma inode_handles_unique_witness :
  permits (inode_run (InodeTable_new 0%nat) demo_inode_ops) (λ '(hs, _), NoDup hs).
Proof. apply inode_handles_unique; [apply demo_inode_ops_ok|by vm_compute]. Defined.

Definition demo_table : InodeTable (P:=nat) :=
  match inode_run (InodeTable_new 0%nat) demo_inode_ops with Ret (_, t) => t | _ => InodeTable_new 0%nat end.

Lemma get_inode_get_path_witness :
  InodeTable_get_inode demo_table 7%nat = Some 3 ∧ InodeTable_get_path demo_table 3 = Ret (Some 7%nat).
Proof.
  split; [by vm_compute|].
  apply (get_inode_get_path 0%nat demo_inode_ops [(2, 0); (3, 0); (2, 1)]).
  - apply demo_inode_ops_ok.
  - vm_compute. reflexivity.
  - by vm_compute.
  - by vm_compute.
Defined.

Lemma demo_table_wf : table_wf demo_table.
Proof.
  pose proof (inode_run_wf _ demo_inode_ops (InodeTable_new_wf 0%nat) demo_inode_ops_ok) as H.
  unfold demo_table. destruct (inode_run _ _) as [[hs t]| |]; [exact H|apply InodeTable_new_wf..].
Qed.

Lemma InodeTable_forget_counts_witness :
  permits (InodeTable_forget demo_table 2 1) (λ '(l, t'),
    if bool_decide (2 = 1) then l = 1 ∧ t' = demo_table
    else ∃ idx e, 2 = inode_of idx ∧ table demo_table !! idx = Some e ∧ 1 ≤ lookups e ∧ l = lookups e - 1 ∧
      InodeTable_get_path t' 2 = Ret (if decide (l = 0) then None else path e) ∧
      (∀ j, j ≠ idx → table t' !! j = table demo_table !! j) ∧
      free_list t' = (if decide (l = 0) then free_list demo_table ++ [idx] else free_list demo_table)).
Proof. apply InodeTable_forget_counts; [apply demo_table_wf|lia|lia]. Defined.

Lemma forget_unmaps_live_inode_witness :
  ∃ t t', inode_run (InodeTable_new 0%nat) [OpAdd 1%nat; OpUnlink 1%nat; OpAdd 1%nat; OpForget 2 1]
      = Ret ([(2, 0); (3, 0)], t) ∧
    InodeTable_get_path t 3 = Ret (Some 1%nat) ∧ table t !! 2%nat = Some (mkEntry (Some 1%nat) 1 0) ∧
    InodeTable_get_inode t 1%nat = None ∧
    InodeTable_add_or_get t 1%nat = Ret ((2, 1), t') ∧
    InodeTable_get_path t' 2 = Ret (Some 1%nat) ∧ InodeTable_get_path t' 3 = Ret (Some 1%nat).
Proof. apply (forget_unmaps_live_inode 0%nat 1%nat). lia. Defined.

Lemma directory_key_fresh_witness :
  let '(key, c') := DirectoryCache_new_entry
    (mkCache 3 {[ 2 := mkDirEntry 70 (Some [1%nat]) ]}) 80 in
  cache_entries (mkCache 3 {[ 2 := mkDirEntry 70 (Some [1%nat]) ]}) !! key = None ∧
  DirectoryCache_real_fh c' key = Ret 80 ∧
  ∀ k, k ≠ key →
    DirectoryCache_real_fh c' k = DirectoryCache_real_fh (mkCache 3 {[ 2 := mkDirEntry 70 (Some [1%nat]) ]}) k.
Proof.
  apply (directory_key_fresh [DirOpen 60; DirOpen 70; DirRelease 1; DirFill 2 [1%nat]]).
  - by vm_compute.
  - vm_compute. reflexivity.
Defined.
