(* ===== verification/Wire.v ===== *)
(** * Wire: memory layout of the FUSE messages

    The kernel and the daemon exchange [repr(C)] structs of little-endian
    integers.  This file models that part of the language: the byte image of the
    integer types, of arrays and of structs, and the layout rule of [repr(C)]
    (each field at the next multiple of its alignment, the size rounded up to the
    alignment of the struct).  A [codec] is the layout of one type; the class
    [CodecLaws] says what [FromBytes] and [AsBytes] of zerocopy demand of it: no
    padding, every byte string a value, and decoding inverse to encoding. *)

From S2P Require Import Prelude.
From stdpp Require Import list_numbers vector.

Local Open Scope Z_scope.

(** A byte is an integer below 256. *)
Definition is_byte (b : Z) : Prop := 0 ≤ b < 2 ^ 8.
Abbreviation bytes := (Forall is_byte).

#[export] Instance is_byte_dec b : Decision (is_byte b).
Proof. unfold is_byte. apply _. Defined.

(** ** Layouts *)

(** The layout of a type: [size_of::<T>()], [align_of::<T>()], the byte image of
    a value and its inverse; [valid] bounds the integers of a value to their
    widths, [packed] says that no struct inside has padding. *)
Record codec (A : Type) : Type := Codec {
  size_of : nat;
  align_of : nat;
  encode : A → list Z;
  decode : list Z → A;
  valid : A → Prop;
  packed : bool }.
Arguments Codec {A}.
Arguments size_of {A} _.
Arguments align_of {A} _.
Arguments encode {A} _ _.
Arguments decode {A} _ _.
Arguments valid {A} _ _.
Arguments packed {A} _.

Class CodecLaws {A} (c : codec A) : Prop := {
  codec_size_pos : (0 < size_of c)%nat;
  codec_align_pos : (0 < align_of c)%nat;
  codec_packed : packed c = true;
  encode_length a : length (encode c a) = size_of c;
  encode_bytes a : bytes (encode c a);
  decode_encode a : valid c a → decode c (encode c a) = a;
  decode_valid bs : length bs = size_of c → bytes bs → valid c (decode c bs);
  encode_decode bs : length bs = size_of c → bytes bs → encode c (decode c bs) = bs }.

(** ** Integers *)

(** An unsigned integer of [n] bytes, aligned to its size. *)
Definition uint (n : nat) : codec Z := {|
  size_of := n;
  align_of := n;
  encode z := Z_to_little_endian (Z.of_nat n) 8 z;
  decode bs := little_endian_to_Z 8 bs;
  valid z := 0 ≤ z < 2 ^ (8 * Z.of_nat n);
  packed := true |}.

(** A signed integer of [n] bytes, in two's complement. *)
Definition sint (n : nat) : codec Z := {|
  size_of := n;
  align_of := n;
  encode z := Z_to_little_endian (Z.of_nat n) 8 z;
  decode bs := to_signed (8 * Z.of_nat n) (little_endian_to_Z 8 bs);
  valid z := - 2 ^ (8 * Z.of_nat n - 1) ≤ z < 2 ^ (8 * Z.of_nat n - 1);
  packed := true |}.

Definition u16 : codec Z := uint 2.
Definition u32 : codec Z := uint 4.
Definition u64 : codec Z := uint 8.
Definition i32 : codec Z := sint 4.
Definition i64 : codec Z := sint 8.

(** ** Arrays *)

Fixpoint decode_array {A} (c : codec A) (n : nat) (bs : list Z) : vec A n :=
  match n with
  | 0%nat => [#]
  | S n => decode c (take (size_of c) bs) ::: decode_array c n (drop (size_of c) bs)
  end.

(** [[T; n]]. *)
Definition array {A} (n : nat) (c : codec A) : codec (vec A n) := {|
  size_of := n * size_of c;
  align_of := align_of c;
  encode l := concat (encode c <$> vec_to_list l);
  decode bs := decode_array c n bs;
  valid l := Forall (valid c) l;
  packed := packed c |}.

(** ** Structs *)

(** The fields of a struct in order: size and alignment of each, whether each
    is packed, and the concatenation of their images. *)
Record fields (A : Type) : Type := Fields {
  members : list (nat * nat);
  members_packed : bool;
  fields_encode : A → list Z;
  fields_decode : list Z → A;
  fields_valid : A → Prop }.
Arguments Fields {A}.
Arguments members {A} _.
Arguments members_packed {A} _.
Arguments fields_encode {A} _ _.
Arguments fields_decode {A} _ _.
Arguments fields_valid {A} _ _.

Definition fields_size {A} (f : fields A) : nat := sum_list (members f).*1.

Definition fld {A} (c : codec A) : fields A := {|
  members := [(size_of c, align_of c)];
  members_packed := packed c;
  fields_encode := encode c;
  fields_decode := decode c;
  fields_valid := valid c |}.

Definition fields_snoc {A B} (f : fields A) (c : codec B) : fields (A * B) := {|
  members := members f ++ [(size_of c, align_of c)];
  members_packed := members_packed f && packed c;
  fields_encode p := fields_encode f p.1 ++ encode c p.2;
  fields_decode bs :=
    (fields_decode f (take (fields_size f) bs), decode c (drop (fields_size f) bs));
  fields_valid p := fields_valid f p.1 ∧ valid c p.2 |}.

Declare Scope wire_scope.
Delimit Scope wire_scope with wire.
Infix "⊗" := fields_snoc (at level 51, left associativity) : wire_scope.

(** The [repr(C)] rule: [round_up off al] is the next multiple of [al], and
    [struct_end] the offset at which the last field ends. *)
Definition round_up (off al : nat) : nat := (off + (al - off mod al) mod al)%nat.
Fixpoint struct_end (off : nat) (ms : list (nat * nat)) : nat :=
  match ms with
  | [] => off
  | (sz, al) :: ms => struct_end (round_up off al + sz) ms
  end.
Definition struct_align (ms : list (nat * nat)) : nat := foldr max 1%nat ms.*2.
Definition struct_size (ms : list (nat * nat)) : nat :=
  round_up (struct_end 0 ms) (struct_align ms).

(** A struct [B] with these fields. *)
Definition struct {A B} (f : fields A) (mk : A → B) (un : B → A) : codec B := {|
  size_of := struct_size (members f);
  align_of := struct_align (members f);
  encode b := fields_encode f (un b);
  decode bs := mk (fields_decode f bs);
  valid b := fields_valid f (un b);
  packed := members_packed f && bool_decide (struct_size (members f) = fields_size f) |}.

(** ** Laws *)

Lemma uint_laws n : (0 < n)%nat → CodecLaws (uint n).
Proof.
  intros Hn. split; simpl; [done..| | | | |].
  - intros z. apply Nat2Z.inj. rewrite length_Z_to_little_endian; lia.
  - intros z. apply Z_to_little_endian_bound; lia.
  - intros z Hz. rewrite little_endian_to_Z_to_little_endian by lia.
    rewrite Z.mul_comm. by apply Z.mod_small.
  - intros bs Hl Hb. pose proof (little_endian_to_Z_bound 8 bs ltac:(lia) Hb) as H.
    rewrite Hl in H. by rewrite Z.mul_comm.
  - intros bs Hl Hb. apply Z_to_little_endian_to_Z; [lia..|done].
Qed.

Lemma to_signed_bounds w z : 0 < w → - 2 ^ (w - 1) ≤ to_signed w z < 2 ^ (w - 1).
Proof.
  intros. unfold to_signed. pose proof (wrap_bounds w z ltac:(lia)).
  assert (2 ^ w = 2 * 2 ^ (w - 1)).
  { replace w with (Z.succ (w - 1)) at 1 by lia. apply Z.pow_succ_r. lia. }
  pose proof (Z.pow_pos_nonneg 2 (w - 1)). case_decide; lia.
Qed.
Lemma to_signed_mod w z : 0 < w → to_signed w z `mod` 2 ^ w = z `mod` 2 ^ w.
Proof.
  intros. unfold to_signed. case_decide; unfold wrap in *.
  - apply Zmod_mod.
  - rewrite Zminus_mod, Z_mod_same_full, Z.sub_0_r, !Zmod_mod. done.
Qed.
Lemma to_signed_small w z :
  0 < w → - 2 ^ (w - 1) ≤ z < 2 ^ (w - 1) → to_signed w (z `mod` 2 ^ w) = z.
Proof.
  intros. assert (2 ^ w = 2 * 2 ^ (w - 1)).
  { replace w with (Z.succ (w - 1)) at 1 by lia. apply Z.pow_succ_r. lia. }
  unfold to_signed, wrap. rewrite Zmod_mod. destruct (decide (0 ≤ z)).
  - rewrite Z.mod_small by lia. by rewrite decide_True by lia.
  - assert (z `mod` 2 ^ w = z + 2 ^ w) as ->.
    { symmetry. apply Z.mod_unique_pos with (-1); lia. }
    rewrite decide_False by lia. lia.
Qed.

Lemma Z_to_little_endian_mod m z z' :
  0 ≤ m → z `mod` 2 ^ (8 * m) = z' `mod` 2 ^ (8 * m) →
  Z_to_little_endian m 8 z = Z_to_little_endian m 8 z'.
Proof.
  intros Hm Heq.
  assert (∀ x, Z_to_little_endian m 8 x
    = Z_to_little_endian m 8 (x `mod` 2 ^ (8 * m))) as Hx; [|by rewrite Hx, Heq, <-Hx].
  intros x. rewrite Z.mul_comm, <-little_endian_to_Z_to_little_endian by lia.
  rewrite Z_to_little_endian_to_Z; try done.
  - rewrite length_Z_to_little_endian; lia.
  - apply Z_to_little_endian_bound; lia.
Qed.

Lemma sint_laws n : (0 < n)%nat → CodecLaws (sint n).
Proof.
  intros Hn. destruct (uint_laws n Hn) as [_ _ _ Hlen Hbytes _ _ Hdec].
  split; [done| |done|done|done|..]; simpl in *; [done|..].
  - intros z Hz. rewrite little_endian_to_Z_to_little_endian by lia.
    rewrite (Z.mul_comm (Z.of_nat n) 8). apply to_signed_small; lia.
  - intros bs _ _. apply to_signed_bounds. lia.
  - intros bs Hl Hb. rewrite <-(Hdec bs) at 2 by done. apply Z_to_little_endian_mod; [lia|].
    by rewrite to_signed_mod by lia.
Qed.

#[export] Instance u16_laws : CodecLaws u16 := uint_laws 2 ltac:(lia).
#[export] Instance u32_laws : CodecLaws u32 := uint_laws 4 ltac:(lia).
#[export] Instance u64_laws : CodecLaws u64 := uint_laws 8 ltac:(lia).
#[export] Instance i32_laws : CodecLaws i32 := sint_laws 4 ltac:(lia).
#[export] Instance i64_laws : CodecLaws i64 := sint_laws 8 ltac:(lia).

Lemma bytes_take n bs : bytes bs → bytes (take n bs).
Proof. apply Forall_take. Qed.
Lemma bytes_drop n bs : bytes bs → bytes (drop n bs).
Proof. apply Forall_drop. Qed.
Create HintDb wire.
#[export] Hint Resolve bytes_take bytes_drop encode_bytes decode_valid : wire.

Lemma array_laws {A} n (c : codec A) :
  (0 < n)%nat → CodecLaws c → CodecLaws (array n c).
Proof.
  intros Hn Hc. pose proof (codec_size_pos (c := c)).
  split; simpl; [nia|apply codec_align_pos|apply codec_packed|..]; clear Hn.
  - intros l. induction l as [|a n l IH]; simpl; [done|].
    rewrite length_app, encode_length. f_equal. exact IH.
  - intros l. induction l; simpl; [done|]. apply Forall_app; auto with wire.
  - intros l. induction l as [|a n l IH]; intros Hl; simpl in *; [done|].
    apply Forall_cons in Hl as [??].
    rewrite take_app_length', drop_app_length' by (by rewrite encode_length).
    rewrite decode_encode by done. f_equal. by apply IH.
  - induction n as [|n IH]; intros bs Hl Hb; simpl in *; [constructor|]. constructor.
    + apply decode_valid; [rewrite length_take; lia|auto with wire].
    + apply IH; [rewrite length_drop; lia|auto with wire].
  - induction n as [|n IH]; intros bs Hl Hb; simpl in *.
    { by apply nil_length_inv in Hl. }
    rewrite encode_decode, IH; [apply take_drop|..]; auto with wire;
      rewrite ?length_drop, ?length_take; lia.
Qed.

(** ** Laws of structs *)

Class FieldsLaws {A} (f : fields A) : Prop := {
  fields_size_pos : (0 < fields_size f)%nat;
  fields_encode_length a : length (fields_encode f a) = fields_size f;
  fields_encode_bytes a : bytes (fields_encode f a);
  fields_decode_encode a : fields_valid f a → fields_decode f (fields_encode f a) = a;
  fields_decode_valid bs :
    length bs = fields_size f → bytes bs → fields_valid f (fields_decode f bs);
  fields_encode_decode bs :
    length bs = fields_size f → bytes bs → fields_encode f (fields_decode f bs) = bs }.

#[export] Instance fld_laws {A} (c : codec A) : CodecLaws c → FieldsLaws (fld c).
Proof.
  intros Hc. pose proof (codec_size_pos (c := c)).
  assert (fields_size (fld c) = size_of c) as Hs.
  { unfold fields_size; simpl; lia. }
  split; rewrite ?Hs; simpl; first [done|apply Hc].
Qed.

Lemma fields_size_snoc {A B} (f : fields A) (c : codec B) :
  fields_size (fields_snoc f c) = (fields_size f + size_of c)%nat.
Proof.
  unfold fields_size. simpl.
  induction (members f) as [|[s a] l IH]; csimpl; [lia|]. rewrite IH. lia.
Qed.

#[export] Instance fields_snoc_laws {A B} (f : fields A) (c : codec B) :
  FieldsLaws f → CodecLaws c → FieldsLaws (fields_snoc f c).
Proof.
  intros Hf Hc. pose proof (codec_size_pos (c := c)).
  split; rewrite ?fields_size_snoc; simpl.
  - lia.
  - intros a. by rewrite length_app, fields_encode_length, encode_length.
  - intros a. apply Forall_app; split; [apply fields_encode_bytes|apply encode_bytes].
  - intros [a b] [Ha Hb]; simpl in *.
    rewrite take_app_length', drop_app_length' by (by rewrite fields_encode_length).
    by rewrite fields_decode_encode, decode_encode.
  - intros bs Hl Hbs. split; [apply fields_decode_valid|apply decode_valid]; auto with wire;
      rewrite ?length_take, ?length_drop; lia.
  - intros bs Hl Hbs. rewrite fields_encode_decode, encode_decode; [apply take_drop|..];
      auto with wire; rewrite ?length_take, ?length_drop; lia.
Qed.

Lemma struct_align_pos ms : (0 < struct_align ms)%nat.
Proof. unfold struct_align. induction ms as [|[]]; csimpl; lia. Qed.

(** A struct whose conversions are inverse and whose fields leave no gap. *)
Lemma struct_laws {A B} (f : fields A) (mk : A → B) (un : B → A) :
  FieldsLaws f → packed (struct f mk un) = true →
  (∀ b, mk (un b) = b) → (∀ a, un (mk a) = a) → CodecLaws (struct f mk un).
Proof.
  intros Hf Hp Hmu Hum. pose proof Hp as [Hm Hsz]%andb_prop.
  apply bool_decide_eq_true in Hsz. simpl in Hsz.
  split; simpl; rewrite ?Hsz.
  - apply fields_size_pos.
  - apply struct_align_pos.
  - rewrite Hm. by apply bool_decide_eq_true.
  - intros a. apply fields_encode_length.
  - intros a. apply fields_encode_bytes.
  - intros a Ha. by rewrite fields_decode_encode.
  - intros bs Hl Hb. rewrite Hum. by apply fields_decode_valid.
  - intros bs Hl Hb. rewrite Hum. by apply fields_encode_decode.
Qed.

(** Solves [CodecLaws] of a struct of the interface. *)
Ltac solve_struct :=
  apply struct_laws; [apply _|reflexivity|by intros []|
    intros; repeat match goal with p : (_ * _)%type |- _ => destruct p end; reflexivity].
