(* ===== verification/KernelInterface.v ===== *)
(** * KernelInterface: [low_level/kernel_interface.rs]

    The types the FUSE kernel driver and the daemon exchange, as the crate is
    built by default (features abi-7-9 to abi-7-30, Linux): the constants, the
    operation and notification codes, and the structs with their layouts.  A
    field [f] of the struct [fuse_x] is the projection [x_f]. *)

From S2P Require Import Prelude Wire.
From stdpp Require Import vector.

Local Open Scope Z_scope.
Local Open Scope wire_scope.

(** ** Constants *)

Definition FUSE_KERNEL_VERSION : Z := 7.
Definition FUSE_KERNEL_MINOR_VERSION : Z := 30.
Definition FUSE_ROOT_ID : Z := 1.
Definition FATTR_MODE : Z := Z.shiftl 1 0.
Definition FATTR_UID : Z := Z.shiftl 1 1.
Definition FATTR_GID : Z := Z.shiftl 1 2.
Definition FATTR_SIZE : Z := Z.shiftl 1 3.
Definition FATTR_ATIME : Z := Z.shiftl 1 4.
Definition FATTR_MTIME : Z := Z.shiftl 1 5.
Definition FATTR_FH : Z := Z.shiftl 1 6.
Definition FATTR_ATIME_NOW : Z := Z.shiftl 1 7.
Definition FATTR_MTIME_NOW : Z := Z.shiftl 1 8.
Definition FATTR_LOCKOWNER : Z := Z.shiftl 1 9.
Definition FATTR_CTIME : Z := Z.shiftl 1 10.
Definition FOPEN_DIRECT_IO : Z := Z.shiftl 1 0.
Definition FOPEN_KEEP_CACHE : Z := Z.shiftl 1 1.
Definition FOPEN_NONSEEKABLE : Z := Z.shiftl 1 2.
Definition FOPEN_CACHE_DIR : Z := Z.shiftl 1 3.
Definition FUSE_ASYNC_READ : Z := Z.shiftl 1 0.
Definition FUSE_POSIX_LOCKS : Z := Z.shiftl 1 1.
Definition FUSE_FILE_OPS : Z := Z.shiftl 1 2.
Definition FUSE_ATOMIC_O_TRUNC : Z := Z.shiftl 1 3.
Definition FUSE_EXPORT_SUPPORT : Z := Z.shiftl 1 4.
Definition FUSE_BIG_WRITES : Z := Z.shiftl 1 5.
Definition FUSE_DONT_MASK : Z := Z.shiftl 1 6.
Definition FUSE_SPLICE_WRITE : Z := Z.shiftl 1 7.
Definition FUSE_SPLICE_MOVE : Z := Z.shiftl 1 8.
Definition FUSE_SPLICE_READ : Z := Z.shiftl 1 9.
Definition FUSE_FLOCK_LOCKS : Z := Z.shiftl 1 10.
Definition FUSE_HAS_IOCTL_DIR : Z := Z.shiftl 1 11.
Definition FUSE_AUTO_INVAL_DATA : Z := Z.shiftl 1 12.
Definition FUSE_DO_READDIRPLUS : Z := Z.shiftl 1 13.
Definition FUSE_READDIRPLUS_AUTO : Z := Z.shiftl 1 14.
Definition FUSE_ASYNC_DIO : Z := Z.shiftl 1 15.
Definition FUSE_WRITEBACK_CACHE : Z := Z.shiftl 1 16.
Definition FUSE_NO_OPEN_SUPPORT : Z := Z.shiftl 1 17.
Definition FUSE_PARALLEL_DIROPS : Z := Z.shiftl 1 18.
Definition FUSE_HANDLE_KILLPRIV : Z := Z.shiftl 1 19.
Definition FUSE_POSIX_ACL : Z := Z.shiftl 1 20.
Definition FUSE_ABORT_ERROR : Z := Z.shiftl 1 21.
Definition FUSE_MAX_PAGES : Z := Z.shiftl 1 22.
Definition FUSE_CACHE_SYMLINKS : Z := Z.shiftl 1 23.
Definition FUSE_NO_OPENDIR_SUPPORT : Z := Z.shiftl 1 24.
Definition FUSE_EXPLICIT_INVAL_DATA : Z := Z.shiftl 1 25.
Definition CUSE_UNRESTRICTED_IOCTL : Z := Z.shiftl 1 0.
Definition FUSE_RELEASE_FLUSH : Z := Z.shiftl 1 0.
Definition FUSE_RELEASE_FLOCK_UNLOCK : Z := Z.shiftl 1 1.
Definition FUSE_GETATTR_FH : Z := Z.shiftl 1 0.
Definition FUSE_LK_FLOCK : Z := Z.shiftl 1 0.
Definition FUSE_WRITE_CACHE : Z := Z.shiftl 1 0.
Definition FUSE_WRITE_LOCKOWNER : Z := Z.shiftl 1 1.
Definition FUSE_READ_LOCKOWNER : Z := Z.shiftl 1 1.
Definition FUSE_IOCTL_COMPAT : Z := Z.shiftl 1 0.
Definition FUSE_IOCTL_UNRESTRICTED : Z := Z.shiftl 1 1.
Definition FUSE_IOCTL_RETRY : Z := Z.shiftl 1 2.
Definition FUSE_IOCTL_32BIT : Z := Z.shiftl 1 3.
Definition FUSE_IOCTL_DIR : Z := Z.shiftl 1 4.
Definition FUSE_IOCTL_COMPAT_X32 : Z := Z.shiftl 1 5.
Definition FUSE_IOCTL_MAX_IOV : Z := 256.
Definition FUSE_POLL_SCHEDULE_NOTIFY : Z := Z.shiftl 1 0.
Definition FUSE_FSYNC_FDATASYNC : Z := Z.shiftl 1 0.
Definition FUSE_MIN_READ_BUFFER : Z := 8192.

(** ** [fuse_opcode] *)

Inductive fuse_opcode : Type :=
  | FUSE_LOOKUP
  | FUSE_FORGET
  | FUSE_GETATTR
  | FUSE_SETATTR
  | FUSE_READLINK
  | FUSE_SYMLINK
  | FUSE_MKNOD
  | FUSE_MKDIR
  | FUSE_UNLINK
  | FUSE_RMDIR
  | FUSE_RENAME
  | FUSE_LINK
  | FUSE_OPEN
  | FUSE_READ
  | FUSE_WRITE
  | FUSE_STATFS
  | FUSE_RELEASE
  | FUSE_FSYNC
  | FUSE_SETXATTR
  | FUSE_GETXATTR
  | FUSE_LISTXATTR
  | FUSE_REMOVEXATTR
  | FUSE_FLUSH
  | FUSE_INIT
  | FUSE_OPENDIR
  | FUSE_READDIR
  | FUSE_RELEASEDIR
  | FUSE_FSYNCDIR
  | FUSE_GETLK
  | FUSE_SETLK
  | FUSE_SETLKW
  | FUSE_ACCESS
  | FUSE_CREATE
  | FUSE_INTERRUPT
  | FUSE_BMAP
  | FUSE_DESTROY
  | FUSE_IOCTL
  | FUSE_POLL
  | FUSE_NOTIFY_REPLY
  | FUSE_BATCH_FORGET
  | FUSE_FALLOCATE
  | FUSE_READDIRPLUS
  | FUSE_RENAME2
  | FUSE_LSEEK
  | FUSE_COPY_FILE_RANGE
  | CUSE_INIT.

(** The code of a variant ([as u32]). *)
Definition fuse_opcode_code (c : fuse_opcode) : Z :=
  match c with
  | FUSE_LOOKUP => 1
  | FUSE_FORGET => 2
  | FUSE_GETATTR => 3
  | FUSE_SETATTR => 4
  | FUSE_READLINK => 5
  | FUSE_SYMLINK => 6
  | FUSE_MKNOD => 8
  | FUSE_MKDIR => 9
  | FUSE_UNLINK => 10
  | FUSE_RMDIR => 11
  | FUSE_RENAME => 12
  | FUSE_LINK => 13
  | FUSE_OPEN => 14
  | FUSE_READ => 15
  | FUSE_WRITE => 16
  | FUSE_STATFS => 17
  | FUSE_RELEASE => 18
  | FUSE_FSYNC => 20
  | FUSE_SETXATTR => 21
  | FUSE_GETXATTR => 22
  | FUSE_LISTXATTR => 23
  | FUSE_REMOVEXATTR => 24
  | FUSE_FLUSH => 25
  | FUSE_INIT => 26
  | FUSE_OPENDIR => 27
  | FUSE_READDIR => 28
  | FUSE_RELEASEDIR => 29
  | FUSE_FSYNCDIR => 30
  | FUSE_GETLK => 31
  | FUSE_SETLK => 32
  | FUSE_SETLKW => 33
  | FUSE_ACCESS => 34
  | FUSE_CREATE => 35
  | FUSE_INTERRUPT => 36
  | FUSE_BMAP => 37
  | FUSE_DESTROY => 38
  | FUSE_IOCTL => 39
  | FUSE_POLL => 40
  | FUSE_NOTIFY_REPLY => 41
  | FUSE_BATCH_FORGET => 42
  | FUSE_FALLOCATE => 43
  | FUSE_READDIRPLUS => 44
  | FUSE_RENAME2 => 45
  | FUSE_LSEEK => 46
  | FUSE_COPY_FILE_RANGE => 47
  | CUSE_INIT => 4096
  end.

(** [TryFrom<u32>]; [None] is [InvalidOpcodeError]. *)
Definition fuse_opcode_try_from (n : Z) : option fuse_opcode :=
  match n with
  | 1 => Some FUSE_LOOKUP
  | 2 => Some FUSE_FORGET
  | 3 => Some FUSE_GETATTR
  | 4 => Some FUSE_SETATTR
  | 5 => Some FUSE_READLINK
  | 6 => Some FUSE_SYMLINK
  | 8 => Some FUSE_MKNOD
  | 9 => Some FUSE_MKDIR
  | 10 => Some FUSE_UNLINK
  | 11 => Some FUSE_RMDIR
  | 12 => Some FUSE_RENAME
  | 13 => Some FUSE_LINK
  | 14 => Some FUSE_OPEN
  | 15 => Some FUSE_READ
  | 16 => Some FUSE_WRITE
  | 17 => Some FUSE_STATFS
  | 18 => Some FUSE_RELEASE
  | 20 => Some FUSE_FSYNC
  | 21 => Some FUSE_SETXATTR
  | 22 => Some FUSE_GETXATTR
  | 23 => Some FUSE_LISTXATTR
  | 24 => Some FUSE_REMOVEXATTR
  | 25 => Some FUSE_FLUSH
  | 26 => Some FUSE_INIT
  | 27 => Some FUSE_OPENDIR
  | 28 => Some FUSE_READDIR
  | 29 => Some FUSE_RELEASEDIR
  | 30 => Some FUSE_FSYNCDIR
  | 31 => Some FUSE_GETLK
  | 32 => Some FUSE_SETLK
  | 33 => Some FUSE_SETLKW
  | 34 => Some FUSE_ACCESS
  | 35 => Some FUSE_CREATE
  | 36 => Some FUSE_INTERRUPT
  | 37 => Some FUSE_BMAP
  | 38 => Some FUSE_DESTROY
  | 39 => Some FUSE_IOCTL
  | 40 => Some FUSE_POLL
  | 41 => Some FUSE_NOTIFY_REPLY
  | 42 => Some FUSE_BATCH_FORGET
  | 43 => Some FUSE_FALLOCATE
  | 44 => Some FUSE_READDIRPLUS
  | 45 => Some FUSE_RENAME2
  | 46 => Some FUSE_LSEEK
  | 47 => Some FUSE_COPY_FILE_RANGE
  | 4096 => Some CUSE_INIT
  | _ => None
  end.

(** ** [fuse_notify_code] *)

Inductive fuse_notify_code : Type :=
  | FUSE_NOTIFY_POLL
  | FUSE_NOTIFY_INVAL_INODE
  | FUSE_NOTIFY_INVAL_ENTRY
  | FUSE_NOTIFY_STORE
  | FUSE_NOTIFY_RETRIEVE
  | FUSE_NOTIFY_DELETE.

(** The code of a variant ([as u32]). *)
Definition fuse_notify_code_code (c : fuse_notify_code) : Z :=
  match c with
  | FUSE_NOTIFY_POLL => 1
  | FUSE_NOTIFY_INVAL_INODE => 2
  | FUSE_NOTIFY_INVAL_ENTRY => 3
  | FUSE_NOTIFY_STORE => 4
  | FUSE_NOTIFY_RETRIEVE => 5
  | FUSE_NOTIFY_DELETE => 6
  end.

(** [TryFrom<u32>]; [None] is [InvalidNotifyCodeError]. *)
Definition fuse_notify_code_try_from (n : Z) : option fuse_notify_code :=
  match n with
  | 1 => Some FUSE_NOTIFY_POLL
  | 2 => Some FUSE_NOTIFY_INVAL_INODE
  | 3 => Some FUSE_NOTIFY_INVAL_ENTRY
  | 4 => Some FUSE_NOTIFY_STORE
  | 5 => Some FUSE_NOTIFY_RETRIEVE
  | 6 => Some FUSE_NOTIFY_DELETE
  | _ => None
  end.

(** ** Structs *)

Record fuse_attr : Type := Mk_fuse_attr {
  attr_ino : Z;
  attr_size : Z;
  attr_blocks : Z;
  attr_atime : Z;
  attr_mtime : Z;
  attr_ctime : Z;
  attr_atimensec : Z;
  attr_mtimensec : Z;
  attr_ctimensec : Z;
  attr_mode : Z;
  attr_nlink : Z;
  attr_uid : Z;
  attr_gid : Z;
  attr_rdev : Z;
  attr_blksize : Z;
  attr_padding : Z }.
Definition fuse_attr_layout : codec fuse_attr := struct
  (fld u64 ⊗ u64 ⊗ u64 ⊗ i64 ⊗ i64 ⊗ i64 ⊗ u32 ⊗ u32 ⊗ u32 ⊗ u32 ⊗ u32 ⊗ u32 ⊗ u32 ⊗ u32
   ⊗ u32 ⊗ u32)
  (λ '(x0, x1, x2, x3, x4, x5, x6, x7, x8, x9, x10, x11, x12, x13, x14, x15), Mk_fuse_attr x0 x1 x2 x3 x4 x5 x6 x7 x8 x9 x10 x11 x12 x13 x14 x15)
  (λ r, (attr_ino r, attr_size r, attr_blocks r, attr_atime r, attr_mtime r, attr_ctime r,
      attr_atimensec r, attr_mtimensec r, attr_ctimensec r, attr_mode r, attr_nlink r,
      attr_uid r, attr_gid r, attr_rdev r, attr_blksize r, attr_padding r)).

Record fuse_kstatfs : Type := Mk_fuse_kstatfs {
  kstatfs_blocks : Z;
  kstatfs_bfree : Z;
  kstatfs_bavail : Z;
  kstatfs_files : Z;
  kstatfs_ffree : Z;
  kstatfs_bsize : Z;
  kstatfs_namelen : Z;
  kstatfs_frsize : Z;
  kstatfs_padding : Z;
  kstatfs_spare : vec Z 6 }.
Definition fuse_kstatfs_layout : codec fuse_kstatfs := struct
  (fld u64 ⊗ u64 ⊗ u64 ⊗ u64 ⊗ u64 ⊗ u32 ⊗ u32 ⊗ u32 ⊗ u32 ⊗ (array 6 u32))
  (λ '(x0, x1, x2, x3, x4, x5, x6, x7, x8, x9), Mk_fuse_kstatfs x0 x1 x2 x3 x4 x5 x6 x7 x8 x9)
  (λ r, (kstatfs_blocks r, kstatfs_bfree r, kstatfs_bavail r, kstatfs_files r,
      kstatfs_ffree r, kstatfs_bsize r, kstatfs_namelen r, kstatfs_frsize r,
      kstatfs_padding r, kstatfs_spare r)).

Record fuse_file_lock : Type := Mk_fuse_file_lock {
  file_lock_start : Z;
  file_lock_end : Z;
  file_lock_typ : Z;
  file_lock_pid : Z }.
Definition fuse_file_lock_layout : codec fuse_file_lock := struct
  (fld u64 ⊗ u64 ⊗ i32 ⊗ u32)
  (λ '(x0, x1, x2, x3), Mk_fuse_file_lock x0 x1 x2 x3)
  (λ r, (file_lock_start r, file_lock_end r, file_lock_typ r, file_lock_pid r)).

Record fuse_entry_out : Type := Mk_fuse_entry_out {
  entry_out_nodeid : Z;
  entry_out_generation : Z;
  entry_out_entry_valid : Z;
  entry_out_attr_valid : Z;
  entry_out_entry_valid_nsec : Z;
  entry_out_attr_valid_nsec : Z;
  entry_out_attr : fuse_attr }.
Definition fuse_entry_out_layout : codec fuse_entry_out := struct
  (fld u64 ⊗ u64 ⊗ u64 ⊗ u64 ⊗ u32 ⊗ u32 ⊗ fuse_attr_layout)
  (λ '(x0, x1, x2, x3, x4, x5, x6), Mk_fuse_entry_out x0 x1 x2 x3 x4 x5 x6)
  (λ r, (entry_out_nodeid r, entry_out_generation r, entry_out_entry_valid r,
      entry_out_attr_valid r, entry_out_entry_valid_nsec r, entry_out_attr_valid_nsec r,
      entry_out_attr r)).

Record fuse_forget_in : Type := Mk_fuse_forget_in {
  forget_in_nlookup : Z }.
Definition fuse_forget_in_layout : codec fuse_forget_in := struct
  (fld u64)
  (λ x0, Mk_fuse_forget_in x0)
  (λ r, forget_in_nlookup r).

Record fuse_forget_one : Type := Mk_fuse_forget_one {
  forget_one_nodeid : Z;
  forget_one_nlookup : Z }.
Definition fuse_forget_one_layout : codec fuse_forget_one := struct
  (fld u64 ⊗ u64)
  (λ '(x0, x1), Mk_fuse_forget_one x0 x1)
  (λ r, (forget_one_nodeid r, forget_one_nlookup r)).

Record fuse_batch_forget_in : Type := Mk_fuse_batch_forget_in {
  batch_forget_in_count : Z;
  batch_forget_in_dummy : Z }.
Definition fuse_batch_forget_in_layout : codec fuse_batch_forget_in := struct
  (fld u32 ⊗ u32)
  (λ '(x0, x1), Mk_fuse_batch_forget_in x0 x1)
  (λ r, (batch_forget_in_count r, batch_forget_in_dummy r)).

Record fuse_getattr_in : Type := Mk_fuse_getattr_in {
  getattr_in_getattr_flags : Z;
  getattr_in_dummy : Z;
  getattr_in_fh : Z }.
Definition fuse_getattr_in_layout : codec fuse_getattr_in := struct
  (fld u32 ⊗ u32 ⊗ u64)
  (λ '(x0, x1, x2), Mk_fuse_getattr_in x0 x1 x2)
  (λ r, (getattr_in_getattr_flags r, getattr_in_dummy r, getattr_in_fh r)).

Record fuse_attr_out : Type := Mk_fuse_attr_out {
  attr_out_attr_valid : Z;
  attr_out_attr_valid_nsec : Z;
  attr_out_dummy : Z;
  attr_out_attr : fuse_attr }.
Definition fuse_attr_out_layout : codec fuse_attr_out := struct
  (fld u64 ⊗ u32 ⊗ u32 ⊗ fuse_attr_layout)
  (λ '(x0, x1, x2, x3), Mk_fuse_attr_out x0 x1 x2 x3)
  (λ r, (attr_out_attr_valid r, attr_out_attr_valid_nsec r, attr_out_dummy r,
      attr_out_attr r)).

Record fuse_mknod_in : Type := Mk_fuse_mknod_in {
  mknod_in_mode : Z;
  mknod_in_rdev : Z;
  mknod_in_umask : Z;
  mknod_in_padding : Z }.
Definition fuse_mknod_in_layout : codec fuse_mknod_in := struct
  (fld u32 ⊗ u32 ⊗ u32 ⊗ u32)
  (λ '(x0, x1, x2, x3), Mk_fuse_mknod_in x0 x1 x2 x3)
  (λ r, (mknod_in_mode r, mknod_in_rdev r, mknod_in_umask r, mknod_in_padding r)).

Record fuse_mkdir_in : Type := Mk_fuse_mkdir_in {
  mkdir_in_mode : Z;
  mkdir_in_umask : Z }.
Definition fuse_mkdir_in_layout : codec fuse_mkdir_in := struct
  (fld u32 ⊗ u32)
  (λ '(x0, x1), Mk_fuse_mkdir_in x0 x1)
  (λ r, (mkdir_in_mode r, mkdir_in_umask r)).

Record fuse_rename_in : Type := Mk_fuse_rename_in {
  rename_in_newdir : Z }.
Definition fuse_rename_in_layout : codec fuse_rename_in := struct
  (fld u64)
  (λ x0, Mk_fuse_rename_in x0)
  (λ r, rename_in_newdir r).

Record fuse_rename2_in : Type := Mk_fuse_rename2_in {
  rename2_in_newdir : Z;
  rename2_in_flags : Z;
  rename2_in_padding : Z }.
Definition fuse_rename2_in_layout : codec fuse_rename2_in := struct
  (fld u64 ⊗ u32 ⊗ u32)
  (λ '(x0, x1, x2), Mk_fuse_rename2_in x0 x1 x2)
  (λ r, (rename2_in_newdir r, rename2_in_flags r, rename2_in_padding r)).

Record fuse_link_in : Type := Mk_fuse_link_in {
  link_in_oldnodeid : Z }.
Definition fuse_link_in_layout : codec fuse_link_in := struct
  (fld u64)
  (λ x0, Mk_fuse_link_in x0)
  (λ r, link_in_oldnodeid r).

Record fuse_setattr_in : Type := Mk_fuse_setattr_in {
  setattr_in_valid : Z;
  setattr_in_padding : Z;
  setattr_in_fh : Z;
  setattr_in_size : Z;
  setattr_in_lock_owner : Z;
  setattr_in_atime : Z;
  setattr_in_mtime : Z;
  setattr_in_ctime : Z;
  setattr_in_atimensec : Z;
  setattr_in_mtimensec : Z;
  setattr_in_ctimensec : Z;
  setattr_in_mode : Z;
  setattr_in_unused4 : Z;
  setattr_in_uid : Z;
  setattr_in_gid : Z;
  setattr_in_unused5 : Z }.
Definition fuse_setattr_in_layout : codec fuse_setattr_in := struct
  (fld u32 ⊗ u32 ⊗ u64 ⊗ u64 ⊗ u64 ⊗ i64 ⊗ i64 ⊗ i64 ⊗ u32 ⊗ u32 ⊗ u32 ⊗ u32 ⊗ u32 ⊗ u32
   ⊗ u32 ⊗ u32)
  (λ '(x0, x1, x2, x3, x4, x5, x6, x7, x8, x9, x10, x11, x12, x13, x14, x15), Mk_fuse_setattr_in x0 x1 x2 x3 x4 x5 x6 x7 x8 x9 x10 x11 x12 x13 x14 x15)
  (λ r, (setattr_in_valid r, setattr_in_padding r, setattr_in_fh r, setattr_in_size r,
      setattr_in_lock_owner r, setattr_in_atime r, setattr_in_mtime r, setattr_in_ctime
      r, setattr_in_atimensec r, setattr_in_mtimensec r, setattr_in_ctimensec r,
      setattr_in_mode r, setattr_in_unused4 r, setattr_in_uid r, setattr_in_gid r,
      setattr_in_unused5 r)).

Record fuse_open_in : Type := Mk_fuse_open_in {
  open_in_flags : Z;
  open_in_unused : Z }.
Definition fuse_open_in_layout : codec fuse_open_in := struct
  (fld i32 ⊗ u32)
  (λ '(x0, x1), Mk_fuse_open_in x0 x1)
  (λ r, (open_in_flags r, open_in_unused r)).

Record fuse_create_in : Type := Mk_fuse_create_in {
  create_in_flags : Z;
  create_in_mode : Z;
  create_in_umask : Z;
  create_in_padding : Z }.
Definition fuse_create_in_layout : codec fuse_create_in := struct
  (fld i32 ⊗ u32 ⊗ u32 ⊗ u32)
  (λ '(x0, x1, x2, x3), Mk_fuse_create_in x0 x1 x2 x3)
  (λ r, (create_in_flags r, create_in_mode r, create_in_umask r, create_in_padding r)).

Record fuse_open_out : Type := Mk_fuse_open_out {
  open_out_fh : Z;
  open_out_open_flags : Z;
  open_out_padding : Z }.
Definition fuse_open_out_layout : codec fuse_open_out := struct
  (fld u64 ⊗ u32 ⊗ u32)
  (λ '(x0, x1, x2), Mk_fuse_open_out x0 x1 x2)
  (λ r, (open_out_fh r, open_out_open_flags r, open_out_padding r)).

Record fuse_create_out : Type := Mk_fuse_create_out {
  create_out_0 : fuse_entry_out;
  create_out_1 : fuse_open_out }.
Definition fuse_create_out_layout : codec fuse_create_out := struct
  (fld fuse_entry_out_layout ⊗ fuse_open_out_layout)
  (λ '(x0, x1), Mk_fuse_create_out x0 x1)
  (λ r, (create_out_0 r, create_out_1 r)).

Record fuse_release_in : Type := Mk_fuse_release_in {
  release_in_fh : Z;
  release_in_flags : Z;
  release_in_release_flags : Z;
  release_in_lock_owner : Z }.
Definition fuse_release_in_layout : codec fuse_release_in := struct
  (fld u64 ⊗ i32 ⊗ u32 ⊗ u64)
  (λ '(x0, x1, x2, x3), Mk_fuse_release_in x0 x1 x2 x3)
  (λ r, (release_in_fh r, release_in_flags r, release_in_release_flags r,
      release_in_lock_owner r)).

Record fuse_flush_in : Type := Mk_fuse_flush_in {
  flush_in_fh : Z;
  flush_in_unused : Z;
  flush_in_padding : Z;
  flush_in_lock_owner : Z }.
Definition fuse_flush_in_layout : codec fuse_flush_in := struct
  (fld u64 ⊗ u32 ⊗ u32 ⊗ u64)
  (λ '(x0, x1, x2, x3), Mk_fuse_flush_in x0 x1 x2 x3)
  (λ r, (flush_in_fh r, flush_in_unused r, flush_in_padding r, flush_in_lock_owner r)).

Record fuse_read_in : Type := Mk_fuse_read_in {
  read_in_fh : Z;
  read_in_offset : Z;
  read_in_size : Z;
  read_in_read_flags : Z;
  read_in_lock_owner : Z;
  read_in_flags : Z;
  read_in_padding : Z }.
Definition fuse_read_in_layout : codec fuse_read_in := struct
  (fld u64 ⊗ i64 ⊗ u32 ⊗ u32 ⊗ u64 ⊗ i32 ⊗ u32)
  (λ '(x0, x1, x2, x3, x4, x5, x6), Mk_fuse_read_in x0 x1 x2 x3 x4 x5 x6)
  (λ r, (read_in_fh r, read_in_offset r, read_in_size r, read_in_read_flags r,
      read_in_lock_owner r, read_in_flags r, read_in_padding r)).

Record fuse_write_in : Type := Mk_fuse_write_in {
  write_in_fh : Z;
  write_in_offset : Z;
  write_in_size : Z;
  write_in_write_flags : Z;
  write_in_lock_owner : Z;
  write_in_flags : Z;
  write_in_padding : Z }.
Definition fuse_write_in_layout : codec fuse_write_in := struct
  (fld u64 ⊗ i64 ⊗ u32 ⊗ u32 ⊗ u64 ⊗ i32 ⊗ u32)
  (λ '(x0, x1, x2, x3, x4, x5, x6), Mk_fuse_write_in x0 x1 x2 x3 x4 x5 x6)
  (λ r, (write_in_fh r, write_in_offset r, write_in_size r, write_in_write_flags r,
      write_in_lock_owner r, write_in_flags r, write_in_padding r)).

Record fuse_write_out : Type := Mk_fuse_write_out {
  write_out_size : Z;
  write_out_padding : Z }.
Definition fuse_write_out_layout : codec fuse_write_out := struct
  (fld u32 ⊗ u32)
  (λ '(x0, x1), Mk_fuse_write_out x0 x1)
  (λ r, (write_out_size r, write_out_padding r)).

Record fuse_statfs_out : Type := Mk_fuse_statfs_out {
  statfs_out_st : fuse_kstatfs }.
Definition fuse_statfs_out_layout : codec fuse_statfs_out := struct
  (fld fuse_kstatfs_layout)
  (λ x0, Mk_fuse_statfs_out x0)
  (λ r, statfs_out_st r).

Record fuse_fsync_in : Type := Mk_fuse_fsync_in {
  fsync_in_fh : Z;
  fsync_in_fsync_flags : Z;
  fsync_in_padding : Z }.
Definition fuse_fsync_in_layout : codec fuse_fsync_in := struct
  (fld u64 ⊗ u32 ⊗ u32)
  (λ '(x0, x1, x2), Mk_fuse_fsync_in x0 x1 x2)
  (λ r, (fsync_in_fh r, fsync_in_fsync_flags r, fsync_in_padding r)).

Record fuse_setxattr_in : Type := Mk_fuse_setxattr_in {
  setxattr_in_size : Z;
  setxattr_in_flags : Z }.
Definition fuse_setxattr_in_layout : codec fuse_setxattr_in := struct
  (fld u32 ⊗ i32)
  (λ '(x0, x1), Mk_fuse_setxattr_in x0 x1)
  (λ r, (setxattr_in_size r, setxattr_in_flags r)).

Record fuse_getxattr_in : Type := Mk_fuse_getxattr_in {
  getxattr_in_size : Z;
  getxattr_in_padding : Z }.
Definition fuse_getxattr_in_layout : codec fuse_getxattr_in := struct
  (fld u32 ⊗ u32)
  (λ '(x0, x1), Mk_fuse_getxattr_in x0 x1)
  (λ r, (getxattr_in_size r, getxattr_in_padding r)).

Record fuse_getxattr_out : Type := Mk_fuse_getxattr_out {
  getxattr_out_size : Z;
  getxattr_out_padding : Z }.
Definition fuse_getxattr_out_layout : codec fuse_getxattr_out := struct
  (fld u32 ⊗ u32)
  (λ '(x0, x1), Mk_fuse_getxattr_out x0 x1)
  (λ r, (getxattr_out_size r, getxattr_out_padding r)).

Record fuse_lk_in : Type := Mk_fuse_lk_in {
  lk_in_fh : Z;
  lk_in_owner : Z;
  lk_in_lk : fuse_file_lock;
  lk_in_lk_flags : Z;
  lk_in_padding : Z }.
Definition fuse_lk_in_layout : codec fuse_lk_in := struct
  (fld u64 ⊗ u64 ⊗ fuse_file_lock_layout ⊗ u32 ⊗ u32)
  (λ '(x0, x1, x2, x3, x4), Mk_fuse_lk_in x0 x1 x2 x3 x4)
  (λ r, (lk_in_fh r, lk_in_owner r, lk_in_lk r, lk_in_lk_flags r, lk_in_padding r)).

Record fuse_lk_out : Type := Mk_fuse_lk_out {
  lk_out_lk : fuse_file_lock }.
Definition fuse_lk_out_layout : codec fuse_lk_out := struct
  (fld fuse_file_lock_layout)
  (λ x0, Mk_fuse_lk_out x0)
  (λ r, lk_out_lk r).

Record fuse_access_in : Type := Mk_fuse_access_in {
  access_in_mask : Z;
  access_in_padding : Z }.
Definition fuse_access_in_layout : codec fuse_access_in := struct
  (fld i32 ⊗ u32)
  (λ '(x0, x1), Mk_fuse_access_in x0 x1)
  (λ r, (access_in_mask r, access_in_padding r)).

Record fuse_init_in : Type := Mk_fuse_init_in {
  init_in_major : Z;
  init_in_minor : Z;
  init_in_max_readahead : Z;
  init_in_flags : Z }.
Definition fuse_init_in_layout : codec fuse_init_in := struct
  (fld u32 ⊗ u32 ⊗ u32 ⊗ u32)
  (λ '(x0, x1, x2, x3), Mk_fuse_init_in x0 x1 x2 x3)
  (λ r, (init_in_major r, init_in_minor r, init_in_max_readahead r, init_in_flags r)).

Record fuse_init_out : Type := Mk_fuse_init_out {
  init_out_major : Z;
  init_out_minor : Z;
  init_out_max_readahead : Z;
  init_out_flags : Z;
  init_out_max_background : Z;
  init_out_congestion_threshold : Z;
  init_out_max_write : Z;
  init_out_time_gran : Z;
  init_out_max_pages : Z;
  init_out_unused2 : Z;
  init_out_reserved : vec Z 8 }.
Definition fuse_init_out_layout : codec fuse_init_out := struct
  (fld u32 ⊗ u32 ⊗ u32 ⊗ u32 ⊗ u16 ⊗ u16 ⊗ u32 ⊗ u32 ⊗ u16 ⊗ u16 ⊗ (array 8 u32))
  (λ '(x0, x1, x2, x3, x4, x5, x6, x7, x8, x9, x10), Mk_fuse_init_out x0 x1 x2 x3 x4 x5 x6 x7 x8 x9 x10)
  (λ r, (init_out_major r, init_out_minor r, init_out_max_readahead r, init_out_flags r,
      init_out_max_background r, init_out_congestion_threshold r, init_out_max_write r,
      init_out_time_gran r, init_out_max_pages r, init_out_unused2 r, init_out_reserved
      r)).

Record cuse_init_in : Type := Mk_cuse_init_in {
  cuse_init_in_major : Z;
  cuse_init_in_minor : Z;
  cuse_init_in_unused : Z;
  cuse_init_in_flags : Z }.
Definition cuse_init_in_layout : codec cuse_init_in := struct
  (fld u32 ⊗ u32 ⊗ u32 ⊗ u32)
  (λ '(x0, x1, x2, x3), Mk_cuse_init_in x0 x1 x2 x3)
  (λ r, (cuse_init_in_major r, cuse_init_in_minor r, cuse_init_in_unused r,
      cuse_init_in_flags r)).

Record cuse_init_out : Type := Mk_cuse_init_out {
  cuse_init_out_major : Z;
  cuse_init_out_minor : Z;
  cuse_init_out_unused : Z;
  cuse_init_out_flags : Z;
  cuse_init_out_max_read : Z;
  cuse_init_out_max_write : Z;
  cuse_init_out_dev_major : Z;
  cuse_init_out_dev_minor : Z;
  cuse_init_out_spare : vec Z 10 }.
Definition cuse_init_out_layout : codec cuse_init_out := struct
  (fld u32 ⊗ u32 ⊗ u32 ⊗ u32 ⊗ u32 ⊗ u32 ⊗ u32 ⊗ u32 ⊗ (array 10 u32))
  (λ '(x0, x1, x2, x3, x4, x5, x6, x7, x8), Mk_cuse_init_out x0 x1 x2 x3 x4 x5 x6 x7 x8)
  (λ r, (cuse_init_out_major r, cuse_init_out_minor r, cuse_init_out_unused r,
      cuse_init_out_flags r, cuse_init_out_max_read r, cuse_init_out_max_write r,
      cuse_init_out_dev_major r, cuse_init_out_dev_minor r, cuse_init_out_spare r)).

Record fuse_interrupt_in : Type := Mk_fuse_interrupt_in {
  interrupt_in_unique : Z }.
Definition fuse_interrupt_in_layout : codec fuse_interrupt_in := struct
  (fld u64)
  (λ x0, Mk_fuse_interrupt_in x0)
  (λ r, interrupt_in_unique r).

Record fuse_bmap_in : Type := Mk_fuse_bmap_in {
  bmap_in_block : Z;
  bmap_in_blocksize : Z;
  bmap_in_padding : Z }.
Definition fuse_bmap_in_layout : codec fuse_bmap_in := struct
  (fld u64 ⊗ u32 ⊗ u32)
  (λ '(x0, x1, x2), Mk_fuse_bmap_in x0 x1 x2)
  (λ r, (bmap_in_block r, bmap_in_blocksize r, bmap_in_padding r)).

Record fuse_bmap_out : Type := Mk_fuse_bmap_out {
  bmap_out_block : Z }.
Definition fuse_bmap_out_layout : codec fuse_bmap_out := struct
  (fld u64)
  (λ x0, Mk_fuse_bmap_out x0)
  (λ r, bmap_out_block r).

Record fuse_ioctl_in : Type := Mk_fuse_ioctl_in {
  ioctl_in_fh : Z;
  ioctl_in_flags : Z;
  ioctl_in_cmd : Z;
  ioctl_in_arg : Z;
  ioctl_in_in_size : Z;
  ioctl_in_out_size : Z }.
Definition fuse_ioctl_in_layout : codec fuse_ioctl_in := struct
  (fld u64 ⊗ u32 ⊗ u32 ⊗ u64 ⊗ u32 ⊗ u32)
  (λ '(x0, x1, x2, x3, x4, x5), Mk_fuse_ioctl_in x0 x1 x2 x3 x4 x5)
  (λ r, (ioctl_in_fh r, ioctl_in_flags r, ioctl_in_cmd r, ioctl_in_arg r, ioctl_in_in_size
      r, ioctl_in_out_size r)).

Record fuse_ioctl_iovec : Type := Mk_fuse_ioctl_iovec {
  ioctl_iovec_base : Z;
  ioctl_iovec_len : Z }.
Definition fuse_ioctl_iovec_layout : codec fuse_ioctl_iovec := struct
  (fld u64 ⊗ u64)
  (λ '(x0, x1), Mk_fuse_ioctl_iovec x0 x1)
  (λ r, (ioctl_iovec_base r, ioctl_iovec_len r)).

Record fuse_ioctl_out : Type := Mk_fuse_ioctl_out {
  ioctl_out_result : Z;
  ioctl_out_flags : Z;
  ioctl_out_in_iovs : Z;
  ioctl_out_out_iovs : Z }.
Definition fuse_ioctl_out_layout : codec fuse_ioctl_out := struct
  (fld i32 ⊗ u32 ⊗ u32 ⊗ u32)
  (λ '(x0, x1, x2, x3), Mk_fuse_ioctl_out x0 x1 x2 x3)
  (λ r, (ioctl_out_result r, ioctl_out_flags r, ioctl_out_in_iovs r, ioctl_out_out_iovs r)).

Record fuse_poll_in : Type := Mk_fuse_poll_in {
  poll_in_fh : Z;
  poll_in_kh : Z;
  poll_in_flags : Z;
  poll_in_events : Z }.
Definition fuse_poll_in_layout : codec fuse_poll_in := struct
  (fld u64 ⊗ u64 ⊗ u32 ⊗ u32)
  (λ '(x0, x1, x2, x3), Mk_fuse_poll_in x0 x1 x2 x3)
  (λ r, (poll_in_fh r, poll_in_kh r, poll_in_flags r, poll_in_events r)).

Record fuse_poll_out : Type := Mk_fuse_poll_out {
  poll_out_revents : Z;
  poll_out_padding : Z }.
Definition fuse_poll_out_layout : codec fuse_poll_out := struct
  (fld u32 ⊗ u32)
  (λ '(x0, x1), Mk_fuse_poll_out x0 x1)
  (λ r, (poll_out_revents r, poll_out_padding r)).

Record fuse_notify_poll_wakeup_out : Type := Mk_fuse_notify_poll_wakeup_out {
  notify_poll_wakeup_out_kh : Z }.
Definition fuse_notify_poll_wakeup_out_layout : codec fuse_notify_poll_wakeup_out := struct
  (fld u64)
  (λ x0, Mk_fuse_notify_poll_wakeup_out x0)
  (λ r, notify_poll_wakeup_out_kh r).

Record fuse_fallocate_in : Type := Mk_fuse_fallocate_in {
  fallocate_in_fh : Z;
  fallocate_in_offset : Z;
  fallocate_in_length : Z;
  fallocate_in_mode : Z;
  fallocate_in_padding : Z }.
Definition fuse_fallocate_in_layout : codec fuse_fallocate_in := struct
  (fld u64 ⊗ i64 ⊗ i64 ⊗ i32 ⊗ u32)
  (λ '(x0, x1, x2, x3, x4), Mk_fuse_fallocate_in x0 x1 x2 x3 x4)
  (λ r, (fallocate_in_fh r, fallocate_in_offset r, fallocate_in_length r,
      fallocate_in_mode r, fallocate_in_padding r)).

Record fuse_in_header : Type := Mk_fuse_in_header {
  in_header_len : Z;
  in_header_opcode : Z;
  in_header_unique : Z;
  in_header_nodeid : Z;
  in_header_uid : Z;
  in_header_gid : Z;
  in_header_pid : Z;
  in_header_padding : Z }.
Definition fuse_in_header_layout : codec fuse_in_header := struct
  (fld u32 ⊗ u32 ⊗ u64 ⊗ u64 ⊗ u32 ⊗ u32 ⊗ u32 ⊗ u32)
  (λ '(x0, x1, x2, x3, x4, x5, x6, x7), Mk_fuse_in_header x0 x1 x2 x3 x4 x5 x6 x7)
  (λ r, (in_header_len r, in_header_opcode r, in_header_unique r, in_header_nodeid r,
      in_header_uid r, in_header_gid r, in_header_pid r, in_header_padding r)).

Record fuse_out_header : Type := Mk_fuse_out_header {
  out_header_len : Z;
  out_header_error : Z;
  out_header_unique : Z }.
Definition fuse_out_header_layout : codec fuse_out_header := struct
  (fld u32 ⊗ i32 ⊗ u64)
  (λ '(x0, x1, x2), Mk_fuse_out_header x0 x1 x2)
  (λ r, (out_header_len r, out_header_error r, out_header_unique r)).

Record fuse_dirent : Type := Mk_fuse_dirent {
  dirent_ino : Z;
  dirent_off : Z;
  dirent_namelen : Z;
  dirent_typ : Z }.
Definition fuse_dirent_layout : codec fuse_dirent := struct
  (fld u64 ⊗ i64 ⊗ u32 ⊗ u32)
  (λ '(x0, x1, x2, x3), Mk_fuse_dirent x0 x1 x2 x3)
  (λ r, (dirent_ino r, dirent_off r, dirent_namelen r, dirent_typ r)).

Record fuse_direntplus : Type := Mk_fuse_direntplus {
  direntplus_entry_out : fuse_entry_out;
  direntplus_dirent : fuse_dirent }.
Definition fuse_direntplus_layout : codec fuse_direntplus := struct
  (fld fuse_entry_out_layout ⊗ fuse_dirent_layout)
  (λ '(x0, x1), Mk_fuse_direntplus x0 x1)
  (λ r, (direntplus_entry_out r, direntplus_dirent r)).

Record fuse_notify_inval_inode_out : Type := Mk_fuse_notify_inval_inode_out {
  notify_inval_inode_out_ino : Z;
  notify_inval_inode_out_off : Z;
  notify_inval_inode_out_len : Z }.
Definition fuse_notify_inval_inode_out_layout : codec fuse_notify_inval_inode_out := struct
  (fld u64 ⊗ i64 ⊗ i64)
  (λ '(x0, x1, x2), Mk_fuse_notify_inval_inode_out x0 x1 x2)
  (λ r, (notify_inval_inode_out_ino r, notify_inval_inode_out_off r,
      notify_inval_inode_out_len r)).

Record fuse_notify_inval_entry_out : Type := Mk_fuse_notify_inval_entry_out {
  notify_inval_entry_out_parent : Z;
  notify_inval_entry_out_namelen : Z;
  notify_inval_entry_out_padding : Z }.
Definition fuse_notify_inval_entry_out_layout : codec fuse_notify_inval_entry_out := struct
  (fld u64 ⊗ u32 ⊗ u32)
  (λ '(x0, x1, x2), Mk_fuse_notify_inval_entry_out x0 x1 x2)
  (λ r, (notify_inval_entry_out_parent r, notify_inval_entry_out_namelen r,
      notify_inval_entry_out_padding r)).

Record fuse_notify_delete_out : Type := Mk_fuse_notify_delete_out {
  notify_delete_out_parent : Z;
  notify_delete_out_child : Z;
  notify_delete_out_namelen : Z;
  notify_delete_out_padding : Z }.
Definition fuse_notify_delete_out_layout : codec fuse_notify_delete_out := struct
  (fld u64 ⊗ u64 ⊗ u32 ⊗ u32)
  (λ '(x0, x1, x2, x3), Mk_fuse_notify_delete_out x0 x1 x2 x3)
  (λ r, (notify_delete_out_parent r, notify_delete_out_child r, notify_delete_out_namelen
      r, notify_delete_out_padding r)).

Record fuse_notify_store_out : Type := Mk_fuse_notify_store_out {
  notify_store_out_nodeid : Z;
  notify_store_out_offset : Z;
  notify_store_out_size : Z;
  notify_store_out_padding : Z }.
Definition fuse_notify_store_out_layout : codec fuse_notify_store_out := struct
  (fld u64 ⊗ u64 ⊗ u32 ⊗ u32)
  (λ '(x0, x1, x2, x3), Mk_fuse_notify_store_out x0 x1 x2 x3)
  (λ r, (notify_store_out_nodeid r, notify_store_out_offset r, notify_store_out_size r,
      notify_store_out_padding r)).

Record fuse_notify_retrieve_out : Type := Mk_fuse_notify_retrieve_out {
  notify_retrieve_out_notify_unique : Z;
  notify_retrieve_out_nodeid : Z;
  notify_retrieve_out_offset : Z;
  notify_retrieve_out_size : Z;
  notify_retrieve_out_padding : Z }.
Definition fuse_notify_retrieve_out_layout : codec fuse_notify_retrieve_out := struct
  (fld u64 ⊗ u64 ⊗ u64 ⊗ u32 ⊗ u32)
  (λ '(x0, x1, x2, x3, x4), Mk_fuse_notify_retrieve_out x0 x1 x2 x3 x4)
  (λ r, (notify_retrieve_out_notify_unique r, notify_retrieve_out_nodeid r,
      notify_retrieve_out_offset r, notify_retrieve_out_size r,
      notify_retrieve_out_padding r)).

Record fuse_notify_retrieve_in : Type := Mk_fuse_notify_retrieve_in {
  notify_retrieve_in_dummy1 : Z;
  notify_retrieve_in_offset : Z;
  notify_retrieve_in_size : Z;
  notify_retrieve_in_dummy2 : Z;
  notify_retrieve_in_dummy3 : Z;
  notify_retrieve_in_dummy4 : Z }.
Definition fuse_notify_retrieve_in_layout : codec fuse_notify_retrieve_in := struct
  (fld u64 ⊗ u64 ⊗ u32 ⊗ u32 ⊗ u64 ⊗ u64)
  (λ '(x0, x1, x2, x3, x4, x5), Mk_fuse_notify_retrieve_in x0 x1 x2 x3 x4 x5)
  (λ r, (notify_retrieve_in_dummy1 r, notify_retrieve_in_offset r, notify_retrieve_in_size
      r, notify_retrieve_in_dummy2 r, notify_retrieve_in_dummy3 r,
      notify_retrieve_in_dummy4 r)).

Record fuse_lseek_in : Type := Mk_fuse_lseek_in {
  lseek_in_fh : Z;
  lseek_in_offset : Z;
  lseek_in_whence : Z;
  lseek_in_padding : Z }.
Definition fuse_lseek_in_layout : codec fuse_lseek_in := struct
  (fld u64 ⊗ i64 ⊗ i32 ⊗ u32)
  (λ '(x0, x1, x2, x3), Mk_fuse_lseek_in x0 x1 x2 x3)
  (λ r, (lseek_in_fh r, lseek_in_offset r, lseek_in_whence r, lseek_in_padding r)).

Record fuse_lseek_out : Type := Mk_fuse_lseek_out {
  lseek_out_offset : Z }.
Definition fuse_lseek_out_layout : codec fuse_lseek_out := struct
  (fld i64)
  (λ x0, Mk_fuse_lseek_out x0)
  (λ r, lseek_out_offset r).

Record fuse_copy_file_range_in : Type := Mk_fuse_copy_file_range_in {
  copy_file_range_in_fh_in : Z;
  copy_file_range_in_off_in : Z;
  copy_file_range_in_nodeid_out : Z;
  copy_file_range_in_fh_out : Z;
  copy_file_range_in_off_out : Z;
  copy_file_range_in_len : Z;
  copy_file_range_in_flags : Z }.
Definition fuse_copy_file_range_in_layout : codec fuse_copy_file_range_in := struct
  (fld u64 ⊗ i64 ⊗ u64 ⊗ u64 ⊗ i64 ⊗ u64 ⊗ u64)
  (λ '(x0, x1, x2, x3, x4, x5, x6), Mk_fuse_copy_file_range_in x0 x1 x2 x3 x4 x5 x6)
  (λ r, (copy_file_range_in_fh_in r, copy_file_range_in_off_in r,
      copy_file_range_in_nodeid_out r, copy_file_range_in_fh_out r,
      copy_file_range_in_off_out r, copy_file_range_in_len r, copy_file_range_in_flags
      r)).

(** ** Laws: every struct is free of padding and decodes what it encodes *)

#[export] Instance array_u32_10_laws : CodecLaws (array 10 u32) := array_laws 10 u32 ltac:(lia) _.
#[export] Instance array_u32_6_laws : CodecLaws (array 6 u32) := array_laws 6 u32 ltac:(lia) _.
#[export] Instance array_u32_8_laws : CodecLaws (array 8 u32) := array_laws 8 u32 ltac:(lia) _.
#[export] Instance fuse_attr_laws : CodecLaws fuse_attr_layout.
Proof. solve_struct. Qed.
#[export] Instance fuse_kstatfs_laws : CodecLaws fuse_kstatfs_layout.
Proof. solve_struct. Qed.
#[export] Instance fuse_file_lock_laws : CodecLaws fuse_file_lock_layout.
Proof. solve_struct. Qed.
#[export] Instance fuse_entry_out_laws : CodecLaws fuse_entry_out_layout.
Proof. solve_struct. Qed.
#[export] Instance fuse_forget_in_laws : CodecLaws fuse_forget_in_layout.
Proof. solve_struct. Qed.
#[export] Instance fuse_forget_one_laws : CodecLaws fuse_forget_one_layout.
Proof. solve_struct. Qed.
#[export] Instance fuse_batch_forget_in_laws : CodecLaws fuse_batch_forget_in_layout.
Proof. solve_struct. Qed.
#[export] Instance fuse_getattr_in_laws : CodecLaws fuse_getattr_in_layout.
Proof. solve_struct. Qed.
#[export] Instance fuse_attr_out_laws : CodecLaws fuse_attr_out_layout.
Proof. solve_struct. Qed.
#[export] Instance fuse_mknod_in_laws : CodecLaws fuse_mknod_in_layout.
Proof. solve_struct. Qed.
#[export] Instance fuse_mkdir_in_laws : CodecLaws fuse_mkdir_in_layout.
Proof. solve_struct. Qed.
#[export] Instance fuse_rename_in_laws : CodecLaws fuse_rename_in_layout.
Proof. solve_struct. Qed.
#[export] Instance fuse_rename2_in_laws : CodecLaws fuse_rename2_in_layout.
Proof. solve_struct. Qed.
#[export] Instance fuse_link_in_laws : CodecLaws fuse_link_in_layout.
Proof. solve_struct. Qed.
#[export] Instance fuse_setattr_in_laws : CodecLaws fuse_setattr_in_layout.
Proof. solve_struct. Qed.
#[export] Instance fuse_open_in_laws : CodecLaws fuse_open_in_layout.
Proof. solve_struct. Qed.
#[export] Instance fuse_create_in_laws : CodecLaws fuse_create_in_layout.
Proof. solve_struct. Qed.
#[export] Instance fuse_open_out_laws : CodecLaws fuse_open_out_layout.
Proof. solve_struct. Qed.
#[export] Instance fuse_create_out_laws : CodecLaws fuse_create_out_layout.
Proof. solve_struct. Qed.
#[export] Instance fuse_release_in_laws : CodecLaws fuse_release_in_layout.
Proof. solve_struct. Qed.
#[export] Instance fuse_flush_in_laws : CodecLaws fuse_flush_in_layout.
Proof. solve_struct. Qed.
#[export] Instance fuse_read_in_laws : CodecLaws fuse_read_in_layout.
Proof. solve_struct. Qed.
#[export] Instance fuse_write_in_laws : CodecLaws fuse_write_in_layout.
Proof. solve_struct. Qed.
#[export] Instance fuse_write_out_laws : CodecLaws fuse_write_out_layout.
Proof. solve_struct. Qed.
#[export] Instance fuse_statfs_out_laws : CodecLaws fuse_statfs_out_layout.
Proof. solve_struct. Qed.
#[export] Instance fuse_fsync_in_laws : CodecLaws fuse_fsync_in_layout.
Proof. solve_struct. Qed.
#[export] Instance fuse_setxattr_in_laws : CodecLaws fuse_setxattr_in_layout.
Proof. solve_struct. Qed.
#[export] Instance fuse_getxattr_in_laws : CodecLaws fuse_getxattr_in_layout.
Proof. solve_struct. Qed.
#[export] Instance fuse_getxattr_out_laws : CodecLaws fuse_getxattr_out_layout.
Proof. solve_struct. Qed.
#[export] Instance fuse_lk_in_laws : CodecLaws fuse_lk_in_layout.
Proof. solve_struct. Qed.
#[export] Instance fuse_lk_out_laws : CodecLaws fuse_lk_out_layout.
Proof. solve_struct. Qed.
#[export] Instance fuse_access_in_laws : CodecLaws fuse_access_in_layout.
Proof. solve_struct. Qed.
#[export] Instance fuse_init_in_laws : CodecLaws fuse_init_in_layout.
Proof. solve_struct. Qed.
#[export] Instance fuse_init_out_laws : CodecLaws fuse_init_out_layout.
Proof. solve_struct. Qed.
#[export] Instance cuse_init_in_laws : CodecLaws cuse_init_in_layout.
Proof. solve_struct. Qed.
#[export] Instance cuse_init_out_laws : CodecLaws cuse_init_out_layout.
Proof. solve_struct. Qed.
#[export] Instance fuse_interrupt_in_laws : CodecLaws fuse_interrupt_in_layout.
Proof. solve_struct. Qed.
#[export] Instance fuse_bmap_in_laws : CodecLaws fuse_bmap_in_layout.
Proof. solve_struct. Qed.
#[export] Instance fuse_bmap_out_laws : CodecLaws fuse_bmap_out_layout.
Proof. solve_struct. Qed.
#[export] Instance fuse_ioctl_in_laws : CodecLaws fuse_ioctl_in_layout.
Proof. solve_struct. Qed.
#[export] Instance fuse_ioctl_iovec_laws : CodecLaws fuse_ioctl_iovec_layout.
Proof. solve_struct. Qed.
#[export] Instance fuse_ioctl_out_laws : CodecLaws fuse_ioctl_out_layout.
Proof. solve_struct. Qed.
#[export] Instance fuse_poll_in_laws : CodecLaws fuse_poll_in_layout.
Proof. solve_struct. Qed.
#[export] Instance fuse_poll_out_laws : CodecLaws fuse_poll_out_layout.
Proof. solve_struct. Qed.
#[export] Instance fuse_notify_poll_wakeup_out_laws : CodecLaws fuse_notify_poll_wakeup_out_layout.
Proof. solve_struct. Qed.
#[export] Instance fuse_fallocate_in_laws : CodecLaws fuse_fallocate_in_layout.
Proof. solve_struct. Qed.
#[export] Instance fuse_in_header_laws : CodecLaws fuse_in_header_layout.
Proof. solve_struct. Qed.
#[export] Instance fuse_out_header_laws : CodecLaws fuse_out_header_layout.
Proof. solve_struct. Qed.
#[export] Instance fuse_dirent_laws : CodecLaws fuse_dirent_layout.
Proof. solve_struct. Qed.
#[export] Instance fuse_direntplus_laws : CodecLaws fuse_direntplus_layout.
Proof. solve_struct. Qed.
#[export] Instance fuse_notify_inval_inode_out_laws : CodecLaws fuse_notify_inval_inode_out_layout.
Proof. solve_struct. Qed.
#[export] Instance fuse_notify_inval_entry_out_laws : CodecLaws fuse_notify_inval_entry_out_layout.
Proof. solve_struct. Qed.
#[export] Instance fuse_notify_delete_out_laws : CodecLaws fuse_notify_delete_out_layout.
Proof. solve_struct. Qed.
#[export] Instance fuse_notify_store_out_laws : CodecLaws fuse_notify_store_out_layout.
Proof. solve_struct. Qed.
#[export] Instance fuse_notify_retrieve_out_laws : CodecLaws fuse_notify_retrieve_out_layout.
Proof. solve_struct. Qed.
#[export] Instance fuse_notify_retrieve_in_laws : CodecLaws fuse_notify_retrieve_in_layout.
Proof. solve_struct. Qed.
#[export] Instance fuse_lseek_in_laws : CodecLaws fuse_lseek_in_layout.
Proof. solve_struct. Qed.
#[export] Instance fuse_lseek_out_laws : CodecLaws fuse_lseek_out_layout.
Proof. solve_struct. Qed.
#[export] Instance fuse_copy_file_range_in_laws : CodecLaws fuse_copy_file_range_in_layout.
Proof. solve_struct. Qed.

(** ** [impl fuse_setattr_in] *)

Definition atime_now (a : fuse_setattr_in) : bool :=
  negb (Z.land (setattr_in_valid a) FATTR_ATIME_NOW =? 0).
Definition mtime_now (a : fuse_setattr_in) : bool :=
  negb (Z.land (setattr_in_valid a) FATTR_MTIME_NOW =? 0).

(** ** Properties *)

(** A struct of the interface has size [n] and alignment [al], and its layout
    obeys the laws. *)
Definition laid_out {A} (c : codec A) (n al : nat) : Prop :=
  CodecLaws c ∧ size_of c = n ∧ align_of c = al.

Ltac solve_laid_out := split; [apply _|by split].

(** Every struct of the interface is laid out without padding, in the size
    and alignment of its declaration in [fuse_kernel.h], and its byte image and
    its value determine each other: a value within its widths is what its image
    decodes to, and any bytes of that length are the image of what they decode
    to, which is such a value. *)
Theorem kernel_interface_layouts :
  laid_out fuse_attr_layout 88 8 ∧
  laid_out fuse_kstatfs_layout 80 8 ∧
  laid_out fuse_file_lock_layout 24 8 ∧
  laid_out fuse_entry_out_layout 128 8 ∧
  laid_out fuse_forget_in_layout 8 8 ∧
  laid_out fuse_forget_one_layout 16 8 ∧
  laid_out fuse_batch_forget_in_layout 8 4 ∧
  laid_out fuse_getattr_in_layout 16 8 ∧
  laid_out fuse_attr_out_layout 104 8 ∧
  laid_out fuse_mknod_in_layout 16 4 ∧
  laid_out fuse_mkdir_in_layout 8 4 ∧
  laid_out fuse_rename_in_layout 8 8 ∧
  laid_out fuse_rename2_in_layout 16 8 ∧
  laid_out fuse_link_in_layout 8 8 ∧
  laid_out fuse_setattr_in_layout 88 8 ∧
  laid_out fuse_open_in_layout 8 4 ∧
  laid_out fuse_create_in_layout 16 4 ∧
  laid_out fuse_open_out_layout 16 8 ∧
  laid_out fuse_create_out_layout 144 8 ∧
  laid_out fuse_release_in_layout 24 8 ∧
  laid_out fuse_flush_in_layout 24 8 ∧
  laid_out fuse_read_in_layout 40 8 ∧
  laid_out fuse_write_in_layout 40 8 ∧
  laid_out fuse_write_out_layout 8 4 ∧
  laid_out fuse_statfs_out_layout 80 8 ∧
  laid_out fuse_fsync_in_layout 16 8 ∧
  laid_out fuse_setxattr_in_layout 8 4 ∧
  laid_out fuse_getxattr_in_layout 8 4 ∧
  laid_out fuse_getxattr_out_layout 8 4 ∧
  laid_out fuse_lk_in_layout 48 8 ∧
  laid_out fuse_lk_out_layout 24 8 ∧
  laid_out fuse_access_in_layout 8 4 ∧
  laid_out fuse_init_in_layout 16 4 ∧
  laid_out fuse_init_out_layout 64 4 ∧
  laid_out cuse_init_in_layout 16 4 ∧
  laid_out cuse_init_out_layout 72 4 ∧
  laid_out fuse_interrupt_in_layout 8 8 ∧
  laid_out fuse_bmap_in_layout 16 8 ∧
  laid_out fuse_bmap_out_layout 8 8 ∧
  laid_out fuse_ioctl_in_layout 32 8 ∧
  laid_out fuse_ioctl_iovec_layout 16 8 ∧
  laid_out fuse_ioctl_out_layout 16 4 ∧
  laid_out fuse_poll_in_layout 24 8 ∧
  laid_out fuse_poll_out_layout 8 4 ∧
  laid_out fuse_notify_poll_wakeup_out_layout 8 8 ∧
  laid_out fuse_fallocate_in_layout 32 8 ∧
  laid_out fuse_in_header_layout 40 8 ∧
  laid_out fuse_out_header_layout 16 8 ∧
  laid_out fuse_dirent_layout 24 8 ∧
  laid_out fuse_direntplus_layout 152 8 ∧
  laid_out fuse_notify_inval_inode_out_layout 24 8 ∧
  laid_out fuse_notify_inval_entry_out_layout 16 8 ∧
  laid_out fuse_notify_delete_out_layout 24 8 ∧
  laid_out fuse_notify_store_out_layout 24 8 ∧
  laid_out fuse_notify_retrieve_out_layout 32 8 ∧
  laid_out fuse_notify_retrieve_in_layout 40 8 ∧
  laid_out fuse_lseek_in_layout 24 8 ∧
  laid_out fuse_lseek_out_layout 8 8 ∧
  laid_out fuse_copy_file_range_in_layout 56 8.
Proof. repeat (split; [solve_laid_out|]); solve_laid_out. Qed.

(** The operation codes: [try_from] accepts exactly the codes of the enum,
    and answers the variant with that code. *)
Theorem fuse_opcode_try_from_code n c :
  fuse_opcode_try_from n = Some c ↔ fuse_opcode_code c = n.
Proof.
  split; [|intros <-; by destruct c].
  intros H. unfold fuse_opcode_try_from in H. repeat case_match; by simplify_eq.
Qed.
