(* ===== verification/Time.v ===== *)
(** * Time: timestamps between the kernel and the standard library

    [std::time::Duration] and [std::time::SystemTime] as they are on Linux, and
    the two conversions of the crate: [system_time_from_time] (op.rs) for a
    timestamp of a SETATTR request, [time_from_system_time] (file_meta.rs) for a
    timestamp of an attribute reply. *)

From S2P Require Import Prelude.

Local Open Scope Z_scope.

(** ** The standard library *)

Definition NANOS_PER_SEC : Z := 1000000000.

Record Duration : Type := MkDuration { as_secs : Z; subsec_nanos : Z }.

(** [Duration::new]: whole seconds of [nanos] are carried; an overflow of the
    seconds panics in every build. *)
Definition Duration_new (secs nanos : Z) : outcome Duration :=
  let secs := secs + nanos / NANOS_PER_SEC in
  if decide (secs < 2 ^ 64) then Ret (MkDuration secs (nanos `mod` NANOS_PER_SEC)) else Panic.
Definition Duration_as_nanos (d : Duration) : Z := as_secs d * NANOS_PER_SEC + subsec_nanos d.

(** A [SystemTime] is a [timespec]: signed seconds, nanoseconds from 0. *)
Record SystemTime : Type := MkSystemTime { tv_sec : Z; tv_nsec : Z }.
Definition UNIX_EPOCH : SystemTime := MkSystemTime 0 0.

Definition i64_checked (z : Z) : outcome Z :=
  if decide (- 2 ^ 63 ≤ z < 2 ^ 63) then Ret z else Panic.

(** [SystemTime + Duration] and [SystemTime - Duration] panic on overflow. *)
Definition SystemTime_add (t : SystemTime) (d : Duration) : outcome SystemTime :=
  secs ← i64_checked (tv_sec t + as_secs d);
  let nsec := tv_nsec t + subsec_nanos d in
  if decide (nsec < NANOS_PER_SEC) then Ret (MkSystemTime secs nsec)
  else secs ← i64_checked (secs + 1); Ret (MkSystemTime secs (nsec - NANOS_PER_SEC)).
Definition SystemTime_sub (t : SystemTime) (d : Duration) : outcome SystemTime :=
  secs ← i64_checked (tv_sec t - as_secs d);
  let nsec := tv_nsec t - subsec_nanos d in
  if decide (0 ≤ nsec) then Ret (MkSystemTime secs nsec)
  else secs ← i64_checked (secs - 1); Ret (MkSystemTime secs (nsec + NANOS_PER_SEC)).

(** The instant in nanoseconds since the epoch. *)
Definition SystemTime_nanos (t : SystemTime) : Z := tv_sec t * NANOS_PER_SEC + tv_nsec t.

Definition nanos_to_duration (n : Z) : Duration :=
  MkDuration (n / NANOS_PER_SEC) (n `mod` NANOS_PER_SEC).

(** [duration_since]: [inr] is the [SystemTimeError], with the distance. *)
Definition duration_since (t u : SystemTime) : Duration + Duration :=
  let d := SystemTime_nanos t - SystemTime_nanos u in
  if decide (0 ≤ d) then inl (nanos_to_duration d) else inr (nanos_to_duration (- d)).

(** ** The conversions *)

Section time.
Context `{B : Build}.

(** Negation of an [i64] overflows at the least value: a panic in a debug
    build. *)
Definition i64_neg (z : Z) : outcome Z :=
  if decide (z = - 2 ^ 63) then if debug_assertions then Panic else Ret z else Ret (- z).

Definition system_time_from_time (secs nsecs : Z) : outcome SystemTime :=
  if decide (0 ≤ secs) then
    d ← Duration_new (wrap 64 secs) nsecs;
    SystemTime_add UNIX_EPOCH d
  else
    neg ← i64_neg secs;
    d ← Duration_new (wrap 64 neg) nsecs;
    SystemTime_sub UNIX_EPOCH d.

Definition time_from_system_time (system_time : SystemTime) : outcome (Z * Z) :=
  match duration_since system_time UNIX_EPOCH with
  | inl duration => Ret (to_signed 64 (as_secs duration), subsec_nanos duration)
  | inr before_epoch_error =>
      secs ← i64_neg (to_signed 64 (as_secs before_epoch_error));
      Ret (secs, subsec_nanos before_epoch_error)
  end.

(** ** Properties *)

(** A well-formed [SystemTime]. *)
Definition SystemTime_wf (t : SystemTime) : Prop :=
  - 2 ^ 63 ≤ tv_sec t < 2 ^ 63 ∧ 0 ≤ tv_nsec t < NANOS_PER_SEC.

Lemma Duration_new_small secs nanos :
  0 ≤ secs < 2 ^ 64 → 0 ≤ nanos < NANOS_PER_SEC →
  Duration_new secs nanos = Ret (MkDuration secs nanos).
Proof.
  intros. unfold Duration_new. rewrite Z.div_small, Z.mod_small by done.
  rewrite decide_True by lia. by rewrite Z.add_0_r.
Qed.
Lemma i64_checked_ok z : - 2 ^ 63 ≤ z < 2 ^ 63 → i64_checked z = Ret z.
Proof. intros. unfold i64_checked. by rewrite decide_True. Qed.
Lemma i64_neg_ok z : - 2 ^ 63 < z → i64_neg z = Ret (- z).
Proof. intros. unfold i64_neg. by rewrite decide_False by lia. Qed.

Lemma to_signed_id w z : 0 ≤ z < 2 ^ (w - 1) → 0 < w → to_signed w z = z.
Proof.
  intros Hz Hw. assert (2 ^ w = 2 * 2 ^ (w - 1)).
  { replace w with (Z.succ (w - 1)) at 1 by lia. apply Z.pow_succ_r. lia. }
  unfold to_signed. rewrite wrap_small by lia. by rewrite decide_True by lia.
Qed.

(** The nanoseconds of the instant a timestamp is converted to: below the
    epoch the nanoseconds count away from it. *)
Lemma system_time_from_time_spec secs nsecs :
  - 2 ^ 63 < secs < 2 ^ 63 → 0 ≤ nsecs < NANOS_PER_SEC →
  yields (system_time_from_time secs nsecs) (λ t, SystemTime_wf t ∧
    SystemTime_nanos t
    = if decide (0 ≤ secs) then secs * NANOS_PER_SEC + nsecs
      else secs * NANOS_PER_SEC - nsecs).
Proof.
  intros Hs Hn. unfold system_time_from_time. destruct (decide (0 ≤ secs)).
  - rewrite wrap_small by lia. rewrite Duration_new_small by lia.
    unfold SystemTime_add; simpl. rewrite i64_checked_ok by lia. simpl.
    rewrite decide_True by lia. unfold SystemTime_wf, SystemTime_nanos; simpl. lia.
  - rewrite i64_neg_ok by lia. simpl. rewrite wrap_small by lia.
    rewrite Duration_new_small by lia. unfold SystemTime_sub; simpl.
    rewrite i64_checked_ok by lia. simpl. unfold NANOS_PER_SEC in *. case_decide.
    + unfold SystemTime_wf, SystemTime_nanos, NANOS_PER_SEC; simpl. lia.
    + rewrite i64_checked_ok by lia.
      unfold SystemTime_wf, SystemTime_nanos, NANOS_PER_SEC; simpl. lia.
Qed.

Lemma time_from_system_time_spec t secs nsecs :
  - 2 ^ 63 < secs < 2 ^ 63 → 0 ≤ nsecs < NANOS_PER_SEC →
  SystemTime_nanos t = (if decide (0 ≤ secs) then secs * NANOS_PER_SEC + nsecs
                        else secs * NANOS_PER_SEC - nsecs) →
  time_from_system_time t = Ret (secs, nsecs).
Proof.
  intros Hs Hn Ht. unfold time_from_system_time, duration_since.
  change (SystemTime_nanos UNIX_EPOCH) with 0. cbv zeta. rewrite Z.sub_0_r, Ht.
  assert (∀ q, 0 ≤ q → nanos_to_duration (q * NANOS_PER_SEC + nsecs) = MkDuration q nsecs) as Hd.
  { intros q Hq. unfold nanos_to_duration. rewrite Z.add_comm, Z.div_add, Z.mod_add by done.
    by rewrite Z.div_small, Z.mod_small. }
  destruct (decide (0 ≤ secs)).
  - rewrite decide_True by (unfold NANOS_PER_SEC in *; lia). rewrite Hd by done. simpl. by rewrite to_signed_id by lia.
  - rewrite decide_False by (unfold NANOS_PER_SEC in *; lia).
    replace (- (secs * NANOS_PER_SEC - nsecs)) with (- secs * NANOS_PER_SEC + nsecs) by lia.
    rewrite Hd by lia. simpl. rewrite to_signed_id, i64_neg_ok by lia. simpl.
    by rewrite Z.opp_involutive.
Qed.

(** A timestamp of a SETATTR request that a file system stores and returns
    in an attribute reaches the kernel unchanged: the two conversions are inverse
    on all 64-bit seconds but the least, and neither panics. *)
Theorem system_time_round_trip secs nsecs :
  - 2 ^ 63 < secs < 2 ^ 63 → 0 ≤ nsecs < NANOS_PER_SEC →
  ∃ t, system_time_from_time secs nsecs = Ret t ∧
       time_from_system_time t = Ret (secs, nsecs).
Proof.
  intros Hs Hn.
  pose proof (system_time_from_time_spec secs nsecs Hs Hn) as (t & Ht & _ & Hnanos)%yields_Ret.
  exists t. split; [done|]. by apply time_from_system_time_spec.
Qed.

(** Seconds and nanoseconds within the ranges of a [timespec]. *)
Definition time_ok (t : Z * Z) : Prop := - 2 ^ 63 < t.1 < 2 ^ 63 ∧ 0 ≤ t.2 < NANOS_PER_SEC.
Lemma time_from_ok t :
  - 2 ^ 63 < tv_sec t < 2 ^ 63 → 0 ≤ tv_nsec t < NANOS_PER_SEC →
  yields (time_from_system_time t) time_ok.
Proof.
  intros Hs Hn. destruct t as [s n]. simpl in *.
  destruct (decide (0 ≤ s * NANOS_PER_SEC + n)) as [Hp|Hp].
  - assert (0 ≤ s) by (unfold NANOS_PER_SEC in *; lia).
    rewrite (time_from_system_time_spec _ s n); [by split|lia|done|].
    by rewrite decide_True.
  - set (d := - (s * NANOS_PER_SEC + n)).
    assert (0 ≤ d / NANOS_PER_SEC < 2 ^ 63 ∧ 0 ≤ d `mod` NANOS_PER_SEC < NANOS_PER_SEC) as [Hq Hr].
    { unfold d, NANOS_PER_SEC in *. Z.to_euclidean_division_equations. lia. }
    unfold time_from_system_time, duration_since.
    replace (SystemTime_nanos (MkSystemTime s n) - SystemTime_nanos UNIX_EPOCH) with (- d)
      by (unfold d, SystemTime_nanos; simpl; lia).
    rewrite decide_False by (unfold d; lia). rewrite Z.opp_involutive.
    unfold nanos_to_duration. cbn [as_secs subsec_nanos].
    rewrite to_signed_id by lia. rewrite i64_neg_ok by lia. simpl. unfold time_ok; simpl. lia.
Qed.

(** Before the epoch both conversions take the nanoseconds with the wrong
    sign: a [timespec] (secs, nsecs) with negative seconds, which denotes the
    instant [secs] seconds plus [nsecs] nanoseconds, becomes the instant
    [secs] seconds minus [nsecs] nanoseconds; and the half second before the epoch
    is reported as the half second after it. *)
Theorem time_before_epoch_mirrored secs nsecs :
  - 2 ^ 63 < secs < 0 → 0 < nsecs < NANOS_PER_SEC →
  (∃ t, system_time_from_time secs nsecs = Ret t ∧
        SystemTime_nanos t = secs * NANOS_PER_SEC - nsecs ∧
        SystemTime_nanos t ≠ secs * NANOS_PER_SEC + nsecs) ∧
  SystemTime_nanos (MkSystemTime (-1) 500000000) < 0 ∧
  time_from_system_time (MkSystemTime (-1) 500000000) = Ret (0, 500000000).
Proof.
  intros Hs Hn. split; [|split; [done|by vm_compute]].
  pose proof (system_time_from_time_spec secs nsecs ltac:(lia) ltac:(lia))
    as (t & Ht & _ & Hnanos)%yields_Ret.
  rewrite decide_False in Hnanos by lia. exists t. split; [done|]. lia.
Qed.
End time.

(** ** Witnesses *)

Lemma system_time_round_trip_witness :
  ∃ t, @system_time_from_time true (-5) 3 = Ret t ∧
       @time_from_system_time true t = Ret (-5, 3).
Proof. apply (@system_time_round_trip true (-5) 3); unfold NANOS_PER_SEC; lia. Defined.

Lemma time_before_epoch_mirrored_witness :
  ∃ t, @system_time_from_time true (-5) 3 = Ret t ∧ SystemTime_nanos t = -5000000003.
Proof.
  destruct (@time_before_epoch_mirrored true (-5) 3) as [(t & ? & ? & ?) _];
    [lia|unfold NANOS_PER_SEC; lia|]. by exists t.
Defined.
