(* ===== verification/Argument.v ===== *)
(** * Argument: [low_level/argument.rs]

    The iterator that decomposes the bytes of a request into typed arguments and
    NUL-terminated strings.  The crates it calls, zerocopy and memchr, are the
    class [Libs]; what their documentation promises is the class [LibsLaws]. *)

From S2P Require Import Prelude Wire.

Local Open Scope Z_scope.

(** A byte slice in memory: where it starts matters for alignment. *)
Record slice : Type := MkSlice { addr : Z; data : list Z }.

Definition slice_drop (n : nat) (s : slice) : slice :=
  MkSlice (addr s + Z.of_nat n) (drop n (data s)).
(** [as_ptr() as usize % align_of::<T>() == 0]. *)
Definition aligned (al : nat) (s : slice) : bool := bool_decide (addr s `mod` Z.of_nat al = 0).

(** ** Third-party code *)

Class Libs := {
  (** zerocopy: [LayoutVerified::<_, T>::new_from_prefix] *)
  new_from_prefix : ∀ {A}, codec A → slice → option (A * slice);
  (** zerocopy: [LayoutVerified::<_, [T]>::new_slice_from_prefix] *)
  new_slice_from_prefix : ∀ {A}, codec A → slice → Z → option (list A * slice);
  (** memchr: [memchr(needle, haystack)] *)
  memchr : Z → list Z → option nat;
  (** where the compiler puts the empty slice [&[]] *)
  empty_slice_addr : Z }.

(** The values of consecutive images. *)
Fixpoint decode_list {A} (c : codec A) (n : nat) (bs : list Z) : list A :=
  match n with
  | 0%nat => []
  | S n => decode c (take (size_of c) bs) :: decode_list c n (drop (size_of c) bs)
  end.

(** zerocopy: "verifies that [bytes.len() >= size_of::<T>()] and that [bytes] is
    aligned to [align_of::<T>()].  It consumes the first [size_of::<T>()] bytes
    [...] and returns the remaining bytes to the caller.  If either the length or
    alignment checks fail, it returns [None]"; the same for a slice.  memchr:
    "the index of the first occurrence of [needle]". *)
Class LibsLaws (L : Libs) : Prop := {
  new_from_prefix_spec A (c : codec A) s :
    new_from_prefix c s =
      if aligned (align_of c) s && bool_decide (size_of c ≤ length (data s))%nat
      then Some (decode c (take (size_of c) (data s)), slice_drop (size_of c) s)
      else None;
  new_slice_from_prefix_spec A (c : codec A) s n :
    0 ≤ n →
    new_slice_from_prefix c s n =
      if aligned (align_of c) s &&
         bool_decide (n * Z.of_nat (size_of c) ≤ Z.of_nat (length (data s)))
      then Some (decode_list c (Z.to_nat n) (data s),
                 slice_drop (Z.to_nat n * size_of c) s)
      else None;
  memchr_spec b l : memchr b l = fst <$> list_find (b =.) l }.

(** An instance, for the examples. *)
Definition model_libs : Libs := {|
  new_from_prefix A c s :=
    if aligned (align_of c) s && bool_decide (size_of c ≤ length (data s))%nat
    then Some (decode c (take (size_of c) (data s)), slice_drop (size_of c) s)
    else None;
  new_slice_from_prefix A c s n :=
    if aligned (align_of c) s &&
       bool_decide (n * Z.of_nat (size_of c) ≤ Z.of_nat (length (data s)))
    then Some (decode_list c (Z.to_nat n) (data s), slice_drop (Z.to_nat n * size_of c) s)
    else None;
  memchr b l := fst <$> list_find (b =.) l;
  empty_slice_addr := 1 |}.
Lemma model_libs_laws : LibsLaws model_libs.
Proof. by split. Qed.

(** ** [ArgumentIterator] *)

(** The iterator is the slice that remains. *)
Abbreviation ArgumentIterator := slice.
Abbreviation argM := (stateM ArgumentIterator).

(** The operator [?] in a function returning an [Option]. *)
Definition question {A B} (m : argM (option A)) (k : A → argM (option B)) : argM (option B) :=
  o ← m; match o with Some a => k a | None => mret None end.
Notation "x ←? y ; z" := (question y (λ x : _, z))
  (at level 20, y at level 100, z at level 200, only parsing) : stdpp_scope.

Section argument.
Context `{L : Libs}.

Definition ArgumentIterator_new (data : slice) : ArgumentIterator := data.
Definition ArgumentIterator_len (it : ArgumentIterator) : Z := Z.of_nat (length (data it)).

Definition ArgumentIterator_fetch_all : argM (list Z) := λ it,
  Ret (data it, MkSlice empty_slice_addr []).

Definition ArgumentIterator_fetch {A} (c : codec A) : argM (option A) := λ it,
  match new_from_prefix c it with
  | None => if negb (aligned (align_of c) it) then Panic else Ret (None, it)
  | Some (x, rest) => Ret (Some x, rest)
  end.

Definition ArgumentIterator_fetch_slice {A} (c : codec A) (count : Z)
    : argM (option (list A)) := λ it,
  match new_slice_from_prefix c it count with
  | None => if negb (aligned (align_of c) it) then Panic else Ret (None, it)
  | Some (x, rest) => Ret (Some x, rest)
  end.

(** [split_at] panics past the end, and so does [rest[1..]] on an empty
    [rest]. *)
Definition ArgumentIterator_fetch_str : argM (option (list Z)) := λ it,
  match memchr 0 (data it) with
  | None => Ret (None, it)
  | Some len =>
      if decide (len < length (data it))%nat
      then Ret (Some (take len (data it)), slice_drop (S len) it)
      else Panic
  end.

(** ** Lemmas *)

Context `{!LibsLaws L}.

Lemma question_None {A B} (m : argM (option A)) (k : A → argM (option B)) it it' :
  m it = Ret (None, it') → question m k it = Ret (None, it').
Proof. intros H. unfold question. by rewrite (bindM_eq _ _ _ _ _ H). Qed.
Lemma question_Some {A B} (m : argM (option A)) (k : A → argM (option B)) it a it' :
  m it = Ret (Some a, it') → question m k it = k a it'.
Proof. intros H. unfold question. by rewrite (bindM_eq _ _ _ _ _ H). Qed.

(** [fetch], by cases on alignment and length. *)
Lemma fetch_spec {A} (c : codec A) it :
  ArgumentIterator_fetch c it =
    if aligned (align_of c) it then
      if decide (size_of c ≤ length (data it))%nat
      then Ret (Some (decode c (take (size_of c) (data it))), slice_drop (size_of c) it)
      else Ret (None, it)
    else Panic.
Proof.
  unfold ArgumentIterator_fetch. rewrite new_from_prefix_spec.
  destruct (aligned _ _); simpl; [|done].
  destruct (decide _); [by rewrite bool_decide_eq_true_2|by rewrite bool_decide_eq_false_2].
Qed.
Lemma fetch_slice_spec {A} (c : codec A) n it :
  0 ≤ n →
  ArgumentIterator_fetch_slice c n it =
    if aligned (align_of c) it then
      if decide (n * Z.of_nat (size_of c) ≤ Z.of_nat (length (data it)))
      then Ret (Some (decode_list c (Z.to_nat n) (data it)),
                slice_drop (Z.to_nat n * size_of c) it)
      else Ret (None, it)
    else Panic.
Proof.
  intros. unfold ArgumentIterator_fetch_slice. rewrite new_slice_from_prefix_spec by done.
  destruct (aligned _ _); simpl; [|done].
  destruct (decide _); [by rewrite bool_decide_eq_true_2|by rewrite bool_decide_eq_false_2].
Qed.

(** [fetch_str] never panics: it takes the bytes up to the first NUL, if there
    is one. *)
Lemma fetch_str_spec it :
  ((0 ∉ data it) ∧ ArgumentIterator_fetch_str it = Ret (None, it)) ∨
  (∃ s rest, data it = s ++ 0 :: rest ∧ (0 ∉ s) ∧
     ArgumentIterator_fetch_str it
     = Ret (Some s, MkSlice (addr it + Z.of_nat (S (length s))) rest)).
Proof.
  unfold ArgumentIterator_fetch_str. rewrite memchr_spec.
  destruct (list_find (0 =.) (data it)) as [[i b]|] eqn:Hf; simpl.
  - right. apply list_find_Some in Hf as (Hi & <- & Hlt).
    pose proof (lookup_lt_Some _ _ _ Hi).
    exists (take i (data it)), (drop (S i) (data it)). rewrite decide_True by done.
    split_and!.
    + by rewrite take_drop_middle.
    + intros (j & Hj)%list_elem_of_lookup.
      apply lookup_take_Some in Hj as [Hj ?]. by apply (Hlt _ _ Hj).
    + rewrite length_take_le by lia. done.
  - left. split; [|done]. intros Hin. apply list_find_None in Hf.
    rewrite Forall_forall in Hf. by apply (Hf _ Hin).
Qed.
Lemma fetch_str_app a s rest :
  0 ∉ s →
  ArgumentIterator_fetch_str (MkSlice a (s ++ 0 :: rest))
  = Ret (Some s, MkSlice (a + Z.of_nat (S (length s))) rest).
Proof.
  intros Hs. unfold ArgumentIterator_fetch_str. rewrite memchr_spec; simpl.
  assert (list_find (0 =.) (s ++ 0 :: rest) = Some (length s, 0)) as ->.
  { apply list_find_Some. split_and!; [by apply list_lookup_middle|done|].
    intros j y Hj Hlt <-. apply Hs. rewrite lookup_app_l in Hj by done.
    by apply list_elem_of_lookup_2 in Hj. }
  simpl. rewrite decide_True by (rewrite length_app; simpl; lia).
  unfold slice_drop; simpl. rewrite take_app_length.
  rewrite (cons_middle 0 s rest), app_assoc, drop_app_length' by (rewrite length_app; simpl; lia).
  done.
Qed.
Lemma fetch_app {A} (c : codec A) `{!CodecLaws c} a (x : A) rest :
  valid c x → a `mod` Z.of_nat (align_of c) = 0 →
  ArgumentIterator_fetch c (MkSlice a (encode c x ++ rest))
  = Ret (Some x, MkSlice (a + Z.of_nat (size_of c)) rest).
Proof.
  intros Hx Ha. rewrite fetch_spec. unfold aligned; simpl.
  rewrite bool_decide_eq_true_2 by done.
  rewrite decide_True by (rewrite length_app, encode_length; lia).
  unfold slice_drop; simpl.
  rewrite take_app_length', drop_app_length' by (by rewrite encode_length).
  by rewrite decode_encode.
Qed.
Lemma fetch_all_app it :
  ArgumentIterator_fetch_all it = Ret (data it, MkSlice empty_slice_addr []).
Proof. done. Qed.

Lemma decode_list_encode {A} (c : codec A) `{!CodecLaws c} (l : list A) rest :
  Forall (valid c) l → decode_list c (length l) (concat (encode c <$> l) ++ rest) = l.
Proof.
  induction 1 as [|a l Ha _ IH]; [done|]. csimpl. rewrite <-app_assoc.
  rewrite take_app_length', drop_app_length' by (by rewrite encode_length).
  by rewrite decode_encode, IH.
Qed.
Lemma length_encode_list {A} (c : codec A) `{!CodecLaws c} (l : list A) :
  length (concat (encode c <$> l)) = (length l * size_of c)%nat.
Proof. induction l; csimpl; [done|]. rewrite length_app, encode_length. lia. Qed.
Lemma fetch_slice_app {A} (c : codec A) `{!CodecLaws c} a (l : list A) rest :
  Forall (valid c) l → a `mod` Z.of_nat (align_of c) = 0 →
  ArgumentIterator_fetch_slice c (Z.of_nat (length l))
    (MkSlice a (concat (encode c <$> l) ++ rest))
  = Ret (Some l, MkSlice (a + Z.of_nat (length l * size_of c)) rest).
Proof.
  intros Hl Ha. rewrite fetch_slice_spec by lia. unfold aligned; simpl.
  rewrite bool_decide_eq_true_2 by done.
  rewrite decide_True by (rewrite length_app, length_encode_list; [lia|done]).
  rewrite Nat2Z.id, decode_list_encode by done. unfold slice_drop; simpl.
  by rewrite drop_app_length' by (by rewrite length_encode_list).
Qed.
End argument.
