(* ===== verification/Operation.v ===== *)
(** * Operation: the requests of [low_level/op.rs] and [low_level/operation.rs]

    One record per kind of request, as the crate declares it, with its accessor
    methods ([X_m] is [X::m], the projection [x_f] the field [f] of [X]), and the
    tagged union [Operation] of them.  A reference into the request buffer is the
    value it refers to; [OsStr] and [Path] are the bytes they wrap.  The parser is
    in Request.v. *)

From S2P Require Import Prelude Wire KernelInterface Time.

Local Open Scope Z_scope.

Abbreviation OsStr := (list Z).
Abbreviation Path := (list Z).

(** ** [lock.rs], [version.rs] *)

Record LockOwner : Type := MkLockOwner { lock_owner_0 : Z }.

Record Lock : Type := MkLock { lock_range : Z * Z; lock_typ : Z; lock_pid : Z }.
Definition Lock_from_abi (x : fuse_file_lock) : Lock :=
  MkLock (file_lock_start x, file_lock_end x) (file_lock_typ x) (file_lock_pid x).

Record Version : Type := MkVersion { version_major : Z; version_minor : Z }.

(** [TimeOrNow] of uring_fuse/mod.rs. *)
Inductive TimeOrNow : Type := SpecificTime (t : SystemTime) | Now.

(** ** The trait [Request]

    [impl_request!] implements it for a struct by its field [header]. *)
Class Request (T : Type) := request_header : T → fuse_in_header.

Section request.
Context `{Request T}.
Definition request_unique (r : T) : Z := in_header_unique (request_header r).
Definition request_nodeid (r : T) : Z := in_header_nodeid (request_header r).
Definition request_uid (r : T) : Z := in_header_uid (request_header r).
Definition request_gid (r : T) : Z := in_header_gid (request_header r).
Definition request_pid (r : T) : Z := in_header_pid (request_header r).
End request.

(** ** Requests *)

(** A filename in a directory. *)
Record FilenameInDir : Type := MkFilenameInDir { dir : Z; name : Path }.


Record Lookup : Type := MkLookup {
  lookup_header : fuse_in_header;
  lookup_name : OsStr }.
#[export] Instance Lookup_request : Request Lookup := lookup_header.
Definition Lookup_name (x : Lookup) : OsStr := lookup_name x.

Record Forget : Type := MkForget {
  forget_header : fuse_in_header;
  forget_arg : fuse_forget_in }.
#[export] Instance Forget_request : Request Forget := forget_header.
Definition Forget_nlookup (x : Forget) : Z := forget_in_nlookup (forget_arg x).

Record GetAttr : Type := MkGetAttr {
  getattr_header : fuse_in_header }.
#[export] Instance GetAttr_request : Request GetAttr := getattr_header.

Record SetAttr : Type := MkSetAttr {
  setattr_header : fuse_in_header;
  setattr_arg : fuse_setattr_in }.
#[export] Instance SetAttr_request : Request SetAttr := setattr_header.
Definition SetAttr_mode (x : SetAttr) : option Z :=
  if Z.land (setattr_in_valid (setattr_arg x)) FATTR_MODE =? 0 then None
  else Some (setattr_in_mode (setattr_arg x)).
Definition SetAttr_uid (x : SetAttr) : option Z :=
  if Z.land (setattr_in_valid (setattr_arg x)) FATTR_UID =? 0 then None
  else Some (setattr_in_uid (setattr_arg x)).
Definition SetAttr_gid (x : SetAttr) : option Z :=
  if Z.land (setattr_in_valid (setattr_arg x)) FATTR_GID =? 0 then None
  else Some (setattr_in_gid (setattr_arg x)).
Definition SetAttr_size (x : SetAttr) : option Z :=
  if Z.land (setattr_in_valid (setattr_arg x)) FATTR_SIZE =? 0 then None
  else Some (setattr_in_size (setattr_arg x)).
Definition SetAttr_atime `{B : Build} (x : SetAttr) : outcome (option TimeOrNow) :=
  if Z.land (setattr_in_valid (setattr_arg x)) FATTR_ATIME =? 0 then Ret None
  else if atime_now (setattr_arg x) then Ret (Some Now)
  else t ← system_time_from_time (setattr_in_atime (setattr_arg x))
             (setattr_in_atimensec (setattr_arg x));
       Ret (Some (SpecificTime t)).
Definition SetAttr_mtime `{B : Build} (x : SetAttr) : outcome (option TimeOrNow) :=
  if Z.land (setattr_in_valid (setattr_arg x)) FATTR_MTIME =? 0 then Ret None
  else if mtime_now (setattr_arg x) then Ret (Some Now)
  else t ← system_time_from_time (setattr_in_mtime (setattr_arg x))
             (setattr_in_mtimensec (setattr_arg x));
       Ret (Some (SpecificTime t)).
Definition SetAttr_ctime `{B : Build} (x : SetAttr) : outcome (option SystemTime) :=
  if Z.land (setattr_in_valid (setattr_arg x)) FATTR_CTIME =? 0 then Ret None
  else t ← system_time_from_time (setattr_in_ctime (setattr_arg x))
             (setattr_in_ctimensec (setattr_arg x));
       Ret (Some t).
Definition SetAttr_file_handle (x : SetAttr) : option Z :=
  if Z.land (setattr_in_valid (setattr_arg x)) FATTR_FH =? 0 then None
  else Some (setattr_in_fh (setattr_arg x)).
Definition SetAttr_crtime (x : SetAttr) : option SystemTime :=
  None.
Definition SetAttr_chgtime (x : SetAttr) : option SystemTime :=
  None.
Definition SetAttr_bkuptime (x : SetAttr) : option SystemTime :=
  None.
Definition SetAttr_flags (x : SetAttr) : option Z :=
  None.

Record ReadLink : Type := MkReadLink {
  readlink_header : fuse_in_header }.
#[export] Instance ReadLink_request : Request ReadLink := readlink_header.

Record SymLink : Type := MkSymLink {
  symlink_header : fuse_in_header;
  symlink_target : Path;
  symlink_link : Path }.
#[export] Instance SymLink_request : Request SymLink := symlink_header.
Definition SymLink_target (x : SymLink) : Path := symlink_target x.
Definition SymLink_link (x : SymLink) : Path := symlink_link x.

Record MkNod : Type := MkMkNod {
  mknod_header : fuse_in_header;
  mknod_arg : fuse_mknod_in;
  mknod_name : Path }.
#[export] Instance MkNod_request : Request MkNod := mknod_header.
Definition MkNod_name (x : MkNod) : Path := mknod_name x.
Definition MkNod_mode (x : MkNod) : Z := mknod_in_mode (mknod_arg x).
Definition MkNod_umask (x : MkNod) : Z := mknod_in_umask (mknod_arg x).
Definition MkNod_rdev (x : MkNod) : Z := mknod_in_rdev (mknod_arg x).

Record MkDir : Type := MkMkDir {
  mkdir_header : fuse_in_header;
  mkdir_arg : fuse_mkdir_in;
  mkdir_name : Path }.
#[export] Instance MkDir_request : Request MkDir := mkdir_header.
Definition MkDir_name (x : MkDir) : Path := mkdir_name x.
Definition MkDir_mode (x : MkDir) : Z := mkdir_in_mode (mkdir_arg x).
Definition MkDir_umask (x : MkDir) : Z := mkdir_in_umask (mkdir_arg x).

Record Unlink : Type := MkUnlink {
  unlink_header : fuse_in_header;
  unlink_name : Path }.
#[export] Instance Unlink_request : Request Unlink := unlink_header.
Definition Unlink_name (x : Unlink) : Path := unlink_name x.

Record RmDir : Type := MkRmDir {
  rmdir_header : fuse_in_header;
  rmdir_name : Path }.
#[export] Instance RmDir_request : Request RmDir := rmdir_header.
Definition RmDir_name (x : RmDir) : Path := rmdir_name x.

Record Rename : Type := MkRename {
  rename_header : fuse_in_header;
  rename_arg : fuse_rename_in;
  rename_name : Path;
  rename_newname : Path }.
#[export] Instance Rename_request : Request Rename := rename_header.
Definition Rename_src (x : Rename) : FilenameInDir :=
  MkFilenameInDir (in_header_nodeid (rename_header x)) (rename_name x).
Definition Rename_dest (x : Rename) : FilenameInDir :=
  MkFilenameInDir (rename_in_newdir (rename_arg x)) (rename_newname x).

Record Link : Type := MkLink {
  link_header : fuse_in_header;
  link_arg : fuse_link_in;
  link_name : Path }.
#[export] Instance Link_request : Request Link := link_header.
Definition Link_inode_no (x : Link) : Z := link_in_oldnodeid (link_arg x).
Definition Link_dest (x : Link) : FilenameInDir :=
  MkFilenameInDir (Link_inode_no x) (link_name x).

Record Open : Type := MkOpen {
  open_header : fuse_in_header;
  open_arg : fuse_open_in }.
#[export] Instance Open_request : Request Open := open_header.
Definition Open_flags (x : Open) : Z := open_in_flags (open_arg x).

Record Read : Type := MkRead {
  read_header : fuse_in_header;
  read_arg : fuse_read_in }.
#[export] Instance Read_request : Request Read := read_header.
Definition Read_file_handle (x : Read) : Z := read_in_fh (read_arg x).
Definition Read_offset (x : Read) : Z := read_in_offset (read_arg x).
Definition Read_size (x : Read) : Z := read_in_size (read_arg x).
Definition Read_lock_owner (x : Read) : option LockOwner :=
  if negb (Z.land (read_in_read_flags (read_arg x)) FUSE_READ_LOCKOWNER =? 0)
  then Some (MkLockOwner (read_in_lock_owner (read_arg x))) else None.
Definition Read_flags (x : Read) : Z := read_in_flags (read_arg x).

Record Write : Type := MkWrite {
  write_header : fuse_in_header;
  write_arg : fuse_write_in;
  write_data : list Z }.
#[export] Instance Write_request : Request Write := write_header.
Definition Write_file_handle (x : Write) : Z := write_in_fh (write_arg x).
Definition Write_offset (x : Write) : Z := write_in_offset (write_arg x).
Definition Write_data (x : Write) : list Z := write_data x.
Definition Write_write_flags (x : Write) : Z := write_in_write_flags (write_arg x).
Definition Write_lock_owner (x : Write) : option LockOwner :=
  if negb (Z.land (write_in_write_flags (write_arg x)) FUSE_WRITE_LOCKOWNER =? 0)
  then Some (MkLockOwner (write_in_lock_owner (write_arg x))) else None.
Definition Write_flags (x : Write) : Z := write_in_flags (write_arg x).

Record StatFs : Type := MkStatFs {
  statfs_header : fuse_in_header }.
#[export] Instance StatFs_request : Request StatFs := statfs_header.

Record Release : Type := MkRelease {
  release_header : fuse_in_header;
  release_arg : fuse_release_in }.
#[export] Instance Release_request : Request Release := release_header.
Definition Release_flush (x : Release) : bool :=
  negb (Z.land (release_in_release_flags (release_arg x)) FUSE_RELEASE_FLUSH =? 0).
Definition Release_file_handle (x : Release) : Z := release_in_fh (release_arg x).
Definition Release_flags (x : Release) : Z := release_in_flags (release_arg x).
Definition Release_lock_owner (x : Release) : option LockOwner :=
  if negb (Z.land (release_in_release_flags (release_arg x)) FUSE_RELEASE_FLOCK_UNLOCK =? 0)
  then Some (MkLockOwner (release_in_lock_owner (release_arg x))) else None.

Record FSync : Type := MkFSync {
  fsync_header : fuse_in_header;
  fsync_arg : fuse_fsync_in }.
#[export] Instance FSync_request : Request FSync := fsync_header.
Definition FSync_file_handle (x : FSync) : Z := fsync_in_fh (fsync_arg x).
Definition FSync_fdatasync (x : FSync) : bool :=
  negb (Z.land (fsync_in_fsync_flags (fsync_arg x)) FUSE_FSYNC_FDATASYNC =? 0).

Record SetXAttr : Type := MkSetXAttr {
  setxattr_header : fuse_in_header;
  setxattr_arg : fuse_setxattr_in;
  setxattr_name : OsStr;
  setxattr_value : list Z }.
#[export] Instance SetXAttr_request : Request SetXAttr := setxattr_header.
Definition SetXAttr_name (x : SetXAttr) : OsStr := setxattr_name x.
Definition SetXAttr_value (x : SetXAttr) : list Z := setxattr_value x.
Definition SetXAttr_flags (x : SetXAttr) : Z := setxattr_in_flags (setxattr_arg x).
Definition SetXAttr_position (x : SetXAttr) : Z :=
  0.

(** [GetXAttrSizeEnum]: the payload of [Size] is non-zero. *)
Inductive GetXAttrSizeEnum : Type := GetSize | Size (size : Z).

Record GetXAttr : Type := MkGetXAttr {
  getxattr_header : fuse_in_header;
  getxattr_arg : fuse_getxattr_in;
  getxattr_name : OsStr }.
#[export] Instance GetXAttr_request : Request GetXAttr := getxattr_header.
Definition GetXAttr_name (x : GetXAttr) : OsStr := getxattr_name x.
Definition GetXAttr_size (x : GetXAttr) : GetXAttrSizeEnum :=
  if getxattr_in_size (getxattr_arg x) =? 0 then GetSize
  else Size (getxattr_in_size (getxattr_arg x)).
Definition GetXAttr_size_u32 (x : GetXAttr) : Z := getxattr_in_size (getxattr_arg x).

Record ListXAttr : Type := MkListXAttr {
  listxattr_header : fuse_in_header;
  listxattr_arg : fuse_getxattr_in }.
#[export] Instance ListXAttr_request : Request ListXAttr := listxattr_header.
Definition ListXAttr_size (x : ListXAttr) : Z := getxattr_in_size (listxattr_arg x).

Record RemoveXAttr : Type := MkRemoveXAttr {
  removexattr_header : fuse_in_header;
  removexattr_name : OsStr }.
#[export] Instance RemoveXAttr_request : Request RemoveXAttr := removexattr_header.
Definition RemoveXAttr_name (x : RemoveXAttr) : OsStr := removexattr_name x.

Record Flush : Type := MkFlush {
  flush_header : fuse_in_header;
  flush_arg : fuse_flush_in }.
#[export] Instance Flush_request : Request Flush := flush_header.
Definition Flush_file_handle (x : Flush) : Z := flush_in_fh (flush_arg x).
Definition Flush_lock_owner (x : Flush) : LockOwner :=
  MkLockOwner (flush_in_lock_owner (flush_arg x)).

Record Init : Type := MkInit {
  init_header : fuse_in_header;
  init_arg : fuse_init_in }.
#[export] Instance Init_request : Request Init := init_header.
Definition Init_capabilities (x : Init) : Z := init_in_flags (init_arg x).
Definition Init_max_readahead (x : Init) : Z := init_in_max_readahead (init_arg x).
Definition Init_version (x : Init) : Version :=
  MkVersion (init_in_major (init_arg x)) (init_in_minor (init_arg x)).

Record OpenDir : Type := MkOpenDir {
  opendir_header : fuse_in_header;
  opendir_arg : fuse_open_in }.
#[export] Instance OpenDir_request : Request OpenDir := opendir_header.
Definition OpenDir_flags (x : OpenDir) : Z := open_in_flags (opendir_arg x).

Record ReadDir : Type := MkReadDir {
  readdir_header : fuse_in_header;
  readdir_arg : fuse_read_in }.
#[export] Instance ReadDir_request : Request ReadDir := readdir_header.
Definition ReadDir_file_handle (x : ReadDir) : Z := read_in_fh (readdir_arg x).
Definition ReadDir_offset (x : ReadDir) : Z := read_in_offset (readdir_arg x).
Definition ReadDir_size (x : ReadDir) : Z := read_in_size (readdir_arg x).

Record ReleaseDir : Type := MkReleaseDir {
  releasedir_header : fuse_in_header;
  releasedir_arg : fuse_release_in }.
#[export] Instance ReleaseDir_request : Request ReleaseDir := releasedir_header.
Definition ReleaseDir_file_handle (x : ReleaseDir) : Z :=
  release_in_fh (releasedir_arg x).
Definition ReleaseDir_flush (x : ReleaseDir) : bool :=
  negb (Z.land (release_in_release_flags (releasedir_arg x)) FUSE_RELEASE_FLUSH =? 0).
Definition ReleaseDir_lock_owner (x : ReleaseDir) : option LockOwner :=
  if negb (Z.land (release_in_release_flags (releasedir_arg x)) FUSE_RELEASE_FLOCK_UNLOCK =? 0)
  then Some (MkLockOwner (release_in_lock_owner (releasedir_arg x))) else None.
Definition ReleaseDir_flags (x : ReleaseDir) : Z := release_in_flags (releasedir_arg x).

Record FSyncDir : Type := MkFSyncDir {
  fsyncdir_header : fuse_in_header;
  fsyncdir_arg : fuse_fsync_in }.
#[export] Instance FSyncDir_request : Request FSyncDir := fsyncdir_header.
Definition FSyncDir_file_handle (x : FSyncDir) : Z := fsync_in_fh (fsyncdir_arg x).
Definition FSyncDir_fdatasync (x : FSyncDir) : bool :=
  negb (Z.land (fsync_in_fsync_flags (fsyncdir_arg x)) FUSE_FSYNC_FDATASYNC =? 0).

Record GetLk : Type := MkGetLk {
  getlk_header : fuse_in_header;
  getlk_arg : fuse_lk_in }.
#[export] Instance GetLk_request : Request GetLk := getlk_header.
Definition GetLk_file_handle (x : GetLk) : Z := lk_in_fh (getlk_arg x).
Definition GetLk_lock (x : GetLk) : Lock := Lock_from_abi (lk_in_lk (getlk_arg x)).
Definition GetLk_lock_owner (x : GetLk) : LockOwner :=
  MkLockOwner (lk_in_owner (getlk_arg x)).

Record SetLk : Type := MkSetLk {
  setlk_header : fuse_in_header;
  setlk_arg : fuse_lk_in }.
#[export] Instance SetLk_request : Request SetLk := setlk_header.
Definition SetLk_file_handle (x : SetLk) : Z := lk_in_fh (setlk_arg x).
Definition SetLk_lock (x : SetLk) : Lock := Lock_from_abi (lk_in_lk (setlk_arg x)).
Definition SetLk_lock_owner (x : SetLk) : LockOwner :=
  MkLockOwner (lk_in_owner (setlk_arg x)).

Record SetLkW : Type := MkSetLkW {
  setlkw_header : fuse_in_header;
  setlkw_arg : fuse_lk_in }.
#[export] Instance SetLkW_request : Request SetLkW := setlkw_header.
Definition SetLkW_file_handle (x : SetLkW) : Z := lk_in_fh (setlkw_arg x).
Definition SetLkW_lock (x : SetLkW) : Lock := Lock_from_abi (lk_in_lk (setlkw_arg x)).
Definition SetLkW_lock_owner (x : SetLkW) : LockOwner :=
  MkLockOwner (lk_in_owner (setlkw_arg x)).

Record Access : Type := MkAccess {
  access_header : fuse_in_header;
  access_arg : fuse_access_in }.
#[export] Instance Access_request : Request Access := access_header.
Definition Access_mask (x : Access) : Z := access_in_mask (access_arg x).

Record Create : Type := MkCreate {
  create_header : fuse_in_header;
  create_arg : fuse_create_in;
  create_name : Path }.
#[export] Instance Create_request : Request Create := create_header.
Definition Create_name (x : Create) : Path := create_name x.
Definition Create_mode (x : Create) : Z := create_in_mode (create_arg x).
Definition Create_flags (x : Create) : Z := create_in_flags (create_arg x).
Definition Create_umask (x : Create) : Z := create_in_umask (create_arg x).

Record Interrupt : Type := MkInterrupt {
  interrupt_header : fuse_in_header;
  interrupt_arg : fuse_interrupt_in }.
#[export] Instance Interrupt_request : Request Interrupt := interrupt_header.
Definition Interrupt_unique (x : Interrupt) : Z :=
  interrupt_in_unique (interrupt_arg x).

Record BMap : Type := MkBMap {
  bmap_header : fuse_in_header;
  bmap_arg : fuse_bmap_in }.
#[export] Instance BMap_request : Request BMap := bmap_header.
Definition BMap_block_size (x : BMap) : Z := bmap_in_blocksize (bmap_arg x).
Definition BMap_block (x : BMap) : Z := bmap_in_block (bmap_arg x).

Record Destroy : Type := MkDestroy {
  destroy_header : fuse_in_header }.
#[export] Instance Destroy_request : Request Destroy := destroy_header.

Record IoCtl : Type := MkIoCtl {
  ioctl_header : fuse_in_header;
  ioctl_arg : fuse_ioctl_in;
  ioctl_data : list Z }.
#[export] Instance IoCtl_request : Request IoCtl := ioctl_header.
Definition IoCtl_in_data (x : IoCtl) : outcome (list Z) :=
  let n := Z.to_nat (ioctl_in_in_size (ioctl_arg x)) in
  if decide (n ≤ length (ioctl_data x))%nat then Ret (take n (ioctl_data x)) else Panic.
Definition IoCtl_unrestricted (x : IoCtl) : bool :=
  negb (Z.land (ioctl_in_flags (ioctl_arg x)) FUSE_IOCTL_UNRESTRICTED =? 0).
Definition IoCtl_file_handle (x : IoCtl) : Z := ioctl_in_fh (ioctl_arg x).
Definition IoCtl_flags (x : IoCtl) : Z := ioctl_in_flags (ioctl_arg x).
Definition IoCtl_command (x : IoCtl) : Z := ioctl_in_cmd (ioctl_arg x).
Definition IoCtl_out_size (x : IoCtl) : Z := ioctl_in_out_size (ioctl_arg x).

Record Poll : Type := MkPoll {
  poll_header : fuse_in_header;
  poll_arg : fuse_poll_in }.
#[export] Instance Poll_request : Request Poll := poll_header.
Definition Poll_file_handle (x : Poll) : Z := poll_in_fh (poll_arg x).

Record NotifyReply : Type := MkNotifyReply {
  notifyreply_header : fuse_in_header;
  notifyreply_arg : list Z }.
#[export] Instance NotifyReply_request : Request NotifyReply := notifyreply_header.

Record BatchForget : Type := MkBatchForget {
  batchforget_header : fuse_in_header;
  batchforget_arg : fuse_batch_forget_in;
  batchforget_nodes : list fuse_forget_one }.
#[export] Instance BatchForget_request : Request BatchForget := batchforget_header.
Definition BatchForget_nodes (x : BatchForget) : list fuse_forget_one :=
  batchforget_nodes x.

Record FAllocate : Type := MkFAllocate {
  fallocate_header : fuse_in_header;
  fallocate_arg : fuse_fallocate_in }.
#[export] Instance FAllocate_request : Request FAllocate := fallocate_header.
Definition FAllocate_file_handle (x : FAllocate) : Z :=
  fallocate_in_fh (fallocate_arg x).
Definition FAllocate_offset (x : FAllocate) : Z :=
  fallocate_in_offset (fallocate_arg x).
Definition FAllocate_len (x : FAllocate) : Z := fallocate_in_length (fallocate_arg x).
Definition FAllocate_mode (x : FAllocate) : Z := fallocate_in_mode (fallocate_arg x).

Record ReadDirPlus : Type := MkReadDirPlus {
  readdirplus_header : fuse_in_header;
  readdirplus_arg : fuse_read_in }.
#[export] Instance ReadDirPlus_request : Request ReadDirPlus := readdirplus_header.
Definition ReadDirPlus_file_handle (x : ReadDirPlus) : Z :=
  read_in_fh (readdirplus_arg x).
Definition ReadDirPlus_offset (x : ReadDirPlus) : Z :=
  read_in_offset (readdirplus_arg x).
Definition ReadDirPlus_size (x : ReadDirPlus) : Z := read_in_size (readdirplus_arg x).

Record Rename2 : Type := MkRename2 {
  rename2_header : fuse_in_header;
  rename2_arg : fuse_rename2_in;
  rename2_name : Path;
  rename2_newname : Path;
  rename2_old_parent : Z }.
#[export] Instance Rename2_request : Request Rename2 := rename2_header.
Definition Rename2_from (x : Rename2) : FilenameInDir :=
  MkFilenameInDir (rename2_old_parent x) (rename2_name x).
Definition Rename2_to (x : Rename2) : FilenameInDir :=
  MkFilenameInDir (rename2_in_newdir (rename2_arg x)) (rename2_newname x).
Definition Rename2_flags (x : Rename2) : Z := rename2_in_flags (rename2_arg x).

Record Lseek : Type := MkLseek {
  lseek_header : fuse_in_header;
  lseek_arg : fuse_lseek_in }.
#[export] Instance Lseek_request : Request Lseek := lseek_header.
Definition Lseek_file_handle (x : Lseek) : Z := lseek_in_fh (lseek_arg x).
Definition Lseek_offset (x : Lseek) : Z := lseek_in_offset (lseek_arg x).
Definition Lseek_whence (x : Lseek) : Z := lseek_in_whence (lseek_arg x).

Record CopyFileRangeFile : Type := MkCopyFileRangeFile {
  inode : Z; file_handle : Z; offset : Z }.

Record CopyFileRange : Type := MkCopyFileRange {
  copyfilerange_header : fuse_in_header;
  copyfilerange_arg : fuse_copy_file_range_in }.
#[export] Instance CopyFileRange_request : Request CopyFileRange := copyfilerange_header.
Definition CopyFileRange_src (x : CopyFileRange) : CopyFileRangeFile :=
  MkCopyFileRangeFile (in_header_nodeid (copyfilerange_header x))
    (copy_file_range_in_fh_in (copyfilerange_arg x))
    (copy_file_range_in_off_in (copyfilerange_arg x)).
Definition CopyFileRange_dest (x : CopyFileRange) : CopyFileRangeFile :=
  MkCopyFileRangeFile (copy_file_range_in_nodeid_out (copyfilerange_arg x))
    (copy_file_range_in_fh_out (copyfilerange_arg x))
    (copy_file_range_in_off_out (copyfilerange_arg x)).
Definition CopyFileRange_len (x : CopyFileRange) : Z :=
  copy_file_range_in_len (copyfilerange_arg x).
Definition CopyFileRange_flags (x : CopyFileRange) : Z :=
  copy_file_range_in_flags (copyfilerange_arg x).

Record CuseInit : Type := MkCuseInit {
  cuseinit_header : fuse_in_header;
  cuseinit_arg : fuse_init_in }.
#[export] Instance CuseInit_request : Request CuseInit := cuseinit_header.

(** ** [Operation] *)

Inductive Operation : Type :=
  | OpLookup (x : Lookup)
  | OpForget (x : Forget)
  | OpGetAttr (x : GetAttr)
  | OpSetAttr (x : SetAttr)
  | OpReadLink (x : ReadLink)
  | OpSymLink (x : SymLink)
  | OpMkNod (x : MkNod)
  | OpMkDir (x : MkDir)
  | OpUnlink (x : Unlink)
  | OpRmDir (x : RmDir)
  | OpRename (x : Rename)
  | OpLink (x : Link)
  | OpOpen (x : Open)
  | OpRead (x : Read)
  | OpWrite (x : Write)
  | OpStatFs (x : StatFs)
  | OpRelease (x : Release)
  | OpFSync (x : FSync)
  | OpSetXAttr (x : SetXAttr)
  | OpGetXAttr (x : GetXAttr)
  | OpListXAttr (x : ListXAttr)
  | OpRemoveXAttr (x : RemoveXAttr)
  | OpFlush (x : Flush)
  | OpInit (x : Init)
  | OpOpenDir (x : OpenDir)
  | OpReadDir (x : ReadDir)
  | OpReleaseDir (x : ReleaseDir)
  | OpFSyncDir (x : FSyncDir)
  | OpGetLk (x : GetLk)
  | OpSetLk (x : SetLk)
  | OpSetLkW (x : SetLkW)
  | OpAccess (x : Access)
  | OpCreate (x : Create)
  | OpInterrupt (x : Interrupt)
  | OpBMap (x : BMap)
  | OpDestroy (x : Destroy)
  | OpIoCtl (x : IoCtl)
  | OpPoll (x : Poll)
  | OpNotifyReply (x : NotifyReply)
  | OpBatchForget (x : BatchForget)
  | OpFAllocate (x : FAllocate)
  | OpReadDirPlus (x : ReadDirPlus)
  | OpRename2 (x : Rename2)
  | OpLseek (x : Lseek)
  | OpCopyFileRange (x : CopyFileRange)
  | OpCuseInit (x : CuseInit).
