(* ===== verification/Request.v ===== *)
(** * Request: from bytes to an operation

    [RequestError] of low_level/request.rs, and [AnyRequest] and [parse] of
    low_level/op.rs: what the daemon does with the bytes it reads from
    [/dev/fuse].  The second half is the specification: the bytes the kernel
    sends for an operation ([Operation_args] after the header), against which the
    parser is proved inverse. *)

From S2P Require Import Prelude Wire KernelInterface Time Argument Operation.

Local Open Scope Z_scope.

Inductive RequestError : Type :=
  | ShortReadHeader (len : Z)
  | UnknownOperation (opcode : Z)
  | ShortRead (len total : Z)
  | InsufficientData.

Record AnyRequest : Type := MkAnyRequest {
  any_header : fuse_in_header;
  any_data : slice }.
#[export] Instance AnyRequest_request : Request AnyRequest := any_header.

Section request.
Context `{L : Libs}.

Definition ok (op : Operation) : argM (option Operation) := mret (Some op).

(** One arm of [parse]: the fields of the request in the order of the literal. *)
Definition parse_arm (header : fuse_in_header) (opcode : fuse_opcode)
    : argM (option Operation) :=
  match opcode with
  | FUSE_LOOKUP =>
      name ←? ArgumentIterator_fetch_str;
      ok (OpLookup (MkLookup header name))
  | FUSE_FORGET =>
      arg ←? ArgumentIterator_fetch fuse_forget_in_layout;
      ok (OpForget (MkForget header arg))
  | FUSE_GETATTR => ok (OpGetAttr (MkGetAttr header))
  | FUSE_SETATTR =>
      arg ←? ArgumentIterator_fetch fuse_setattr_in_layout;
      ok (OpSetAttr (MkSetAttr header arg))
  | FUSE_READLINK => ok (OpReadLink (MkReadLink header))
  | FUSE_SYMLINK =>
      target ←? ArgumentIterator_fetch_str;
      link ←? ArgumentIterator_fetch_str;
      ok (OpSymLink (MkSymLink header target link))
  | FUSE_MKNOD =>
      arg ←? ArgumentIterator_fetch fuse_mknod_in_layout;
      name ←? ArgumentIterator_fetch_str;
      ok (OpMkNod (MkMkNod header arg name))
  | FUSE_MKDIR =>
      arg ←? ArgumentIterator_fetch fuse_mkdir_in_layout;
      name ←? ArgumentIterator_fetch_str;
      ok (OpMkDir (MkMkDir header arg name))
  | FUSE_UNLINK =>
      name ←? ArgumentIterator_fetch_str;
      ok (OpUnlink (MkUnlink header name))
  | FUSE_RMDIR =>
      name ←? ArgumentIterator_fetch_str;
      ok (OpRmDir (MkRmDir header name))
  | FUSE_RENAME =>
      arg ←? ArgumentIterator_fetch fuse_rename_in_layout;
      name ←? ArgumentIterator_fetch_str;
      newname ←? ArgumentIterator_fetch_str;
      ok (OpRename (MkRename header arg name newname))
  | FUSE_LINK =>
      arg ←? ArgumentIterator_fetch fuse_link_in_layout;
      name ←? ArgumentIterator_fetch_str;
      ok (OpLink (MkLink header arg name))
  | FUSE_OPEN =>
      arg ←? ArgumentIterator_fetch fuse_open_in_layout;
      ok (OpOpen (MkOpen header arg))
  | FUSE_READ =>
      arg ←? ArgumentIterator_fetch fuse_read_in_layout;
      ok (OpRead (MkRead header arg))
  | FUSE_WRITE =>
      arg ←? ArgumentIterator_fetch fuse_write_in_layout;
      data ← ArgumentIterator_fetch_all;
      lift (assert_ (Z.of_nat (length data) =? write_in_size arg));;
      ok (OpWrite (MkWrite header arg data))
  | FUSE_STATFS => ok (OpStatFs (MkStatFs header))
  | FUSE_RELEASE =>
      arg ←? ArgumentIterator_fetch fuse_release_in_layout;
      ok (OpRelease (MkRelease header arg))
  | FUSE_FSYNC =>
      arg ←? ArgumentIterator_fetch fuse_fsync_in_layout;
      ok (OpFSync (MkFSync header arg))
  | FUSE_SETXATTR =>
      arg ←? ArgumentIterator_fetch fuse_setxattr_in_layout;
      name ←? ArgumentIterator_fetch_str;
      value ← ArgumentIterator_fetch_all;
      lift (assert_ (Z.of_nat (length value) =? setxattr_in_size arg));;
      ok (OpSetXAttr (MkSetXAttr header arg name value))
  | FUSE_GETXATTR =>
      arg ←? ArgumentIterator_fetch fuse_getxattr_in_layout;
      name ←? ArgumentIterator_fetch_str;
      ok (OpGetXAttr (MkGetXAttr header arg name))
  | FUSE_LISTXATTR =>
      arg ←? ArgumentIterator_fetch fuse_getxattr_in_layout;
      ok (OpListXAttr (MkListXAttr header arg))
  | FUSE_REMOVEXATTR =>
      name ←? ArgumentIterator_fetch_str;
      ok (OpRemoveXAttr (MkRemoveXAttr header name))
  | FUSE_FLUSH =>
      arg ←? ArgumentIterator_fetch fuse_flush_in_layout;
      ok (OpFlush (MkFlush header arg))
  | FUSE_INIT =>
      arg ←? ArgumentIterator_fetch fuse_init_in_layout;
      ok (OpInit (MkInit header arg))
  | FUSE_OPENDIR =>
      arg ←? ArgumentIterator_fetch fuse_open_in_layout;
      ok (OpOpenDir (MkOpenDir header arg))
  | FUSE_READDIR =>
      arg ←? ArgumentIterator_fetch fuse_read_in_layout;
      ok (OpReadDir (MkReadDir header arg))
  | FUSE_RELEASEDIR =>
      arg ←? ArgumentIterator_fetch fuse_release_in_layout;
      ok (OpReleaseDir (MkReleaseDir header arg))
  | FUSE_FSYNCDIR =>
      arg ←? ArgumentIterator_fetch fuse_fsync_in_layout;
      ok (OpFSyncDir (MkFSyncDir header arg))
  | FUSE_GETLK =>
      arg ←? ArgumentIterator_fetch fuse_lk_in_layout;
      ok (OpGetLk (MkGetLk header arg))
  | FUSE_SETLK =>
      arg ←? ArgumentIterator_fetch fuse_lk_in_layout;
      ok (OpSetLk (MkSetLk header arg))
  | FUSE_SETLKW =>
      arg ←? ArgumentIterator_fetch fuse_lk_in_layout;
      ok (OpSetLkW (MkSetLkW header arg))
  | FUSE_ACCESS =>
      arg ←? ArgumentIterator_fetch fuse_access_in_layout;
      ok (OpAccess (MkAccess header arg))
  | FUSE_CREATE =>
      arg ←? ArgumentIterator_fetch fuse_create_in_layout;
      name ←? ArgumentIterator_fetch_str;
      ok (OpCreate (MkCreate header arg name))
  | FUSE_INTERRUPT =>
      arg ←? ArgumentIterator_fetch fuse_interrupt_in_layout;
      ok (OpInterrupt (MkInterrupt header arg))
  | FUSE_BMAP =>
      arg ←? ArgumentIterator_fetch fuse_bmap_in_layout;
      ok (OpBMap (MkBMap header arg))
  | FUSE_DESTROY => ok (OpDestroy (MkDestroy header))
  | FUSE_IOCTL =>
      arg ←? ArgumentIterator_fetch fuse_ioctl_in_layout;
      data ← ArgumentIterator_fetch_all;
      ok (OpIoCtl (MkIoCtl header arg data))
  | FUSE_POLL =>
      arg ←? ArgumentIterator_fetch fuse_poll_in_layout;
      ok (OpPoll (MkPoll header arg))
  | FUSE_NOTIFY_REPLY =>
      arg ← ArgumentIterator_fetch_all;
      ok (OpNotifyReply (MkNotifyReply header arg))
  | FUSE_BATCH_FORGET =>
      arg ←? ArgumentIterator_fetch fuse_batch_forget_in_layout;
      nodes ←? ArgumentIterator_fetch_slice fuse_forget_one_layout
        (batch_forget_in_count arg);
      ok (OpBatchForget (MkBatchForget header arg nodes))
  | FUSE_FALLOCATE =>
      arg ←? ArgumentIterator_fetch fuse_fallocate_in_layout;
      ok (OpFAllocate (MkFAllocate header arg))
  | FUSE_READDIRPLUS =>
      arg ←? ArgumentIterator_fetch fuse_read_in_layout;
      ok (OpReadDirPlus (MkReadDirPlus header arg))
  | FUSE_RENAME2 =>
      arg ←? ArgumentIterator_fetch fuse_rename2_in_layout;
      name ←? ArgumentIterator_fetch_str;
      newname ←? ArgumentIterator_fetch_str;
      ok (OpRename2 (MkRename2 header arg name newname (in_header_nodeid header)))
  | FUSE_LSEEK =>
      arg ←? ArgumentIterator_fetch fuse_lseek_in_layout;
      ok (OpLseek (MkLseek header arg))
  | FUSE_COPY_FILE_RANGE =>
      arg ←? ArgumentIterator_fetch fuse_copy_file_range_in_layout;
      ok (OpCopyFileRange (MkCopyFileRange header arg))
  | CUSE_INIT =>
      arg ←? ArgumentIterator_fetch fuse_init_in_layout;
      ok (OpCuseInit (MkCuseInit header arg))
  end.

Definition parse (header : fuse_in_header) (opcode : fuse_opcode) (data : slice)
    : outcome (option Operation) :=
  fst <$> parse_arm header opcode (ArgumentIterator_new data).

Definition AnyRequest_operation (r : AnyRequest) : outcome (RequestError + Operation) :=
  let n := in_header_opcode (any_header r) in
  match fuse_opcode_try_from n with
  | None => Ret (inl (UnknownOperation n))
  | Some opcode =>
      o ← parse (any_header r) opcode (any_data r);
      Ret (match o with Some op => inr op | None => inl InsufficientData end)
  end.

(** Slicing [data[40..header.len]] panics when the range is not inside. *)
Definition AnyRequest_try_from (data : slice) : outcome (RequestError + AnyRequest) :=
  let data_len := Z.of_nat (length (Argument.data data)) in
  '(o, arg_iter) ← ArgumentIterator_fetch fuse_in_header_layout (ArgumentIterator_new data);
  match o with
  | None => Ret (inl (ShortReadHeader (ArgumentIterator_len arg_iter)))
  | Some header =>
      let len := in_header_len header in
      if decide (data_len < len) then Ret (inl (ShortRead data_len len))
      else
        let start := size_of fuse_in_header_layout in
        if decide (Z.of_nat start ≤ len ≤ data_len) then
          Ret (inr (MkAnyRequest header
            (MkSlice (addr data + Z.of_nat start)
               (take (Z.to_nat len - start) (drop start (Argument.data data))))))
        else Panic
  end.

(** ** What the kernel sends *)

(** A NUL-terminated string. *)
Definition str (s : list Z) : list Z := s ++ [0].
Definition wf_str (s : list Z) : Prop := (0 ∉ s) ∧ bytes s.

Definition Operation_opcode (op : Operation) : fuse_opcode :=
  match op with
  | OpLookup _ => FUSE_LOOKUP
  | OpForget _ => FUSE_FORGET
  | OpGetAttr _ => FUSE_GETATTR
  | OpSetAttr _ => FUSE_SETATTR
  | OpReadLink _ => FUSE_READLINK
  | OpSymLink _ => FUSE_SYMLINK
  | OpMkNod _ => FUSE_MKNOD
  | OpMkDir _ => FUSE_MKDIR
  | OpUnlink _ => FUSE_UNLINK
  | OpRmDir _ => FUSE_RMDIR
  | OpRename _ => FUSE_RENAME
  | OpLink _ => FUSE_LINK
  | OpOpen _ => FUSE_OPEN
  | OpRead _ => FUSE_READ
  | OpWrite _ => FUSE_WRITE
  | OpStatFs _ => FUSE_STATFS
  | OpRelease _ => FUSE_RELEASE
  | OpFSync _ => FUSE_FSYNC
  | OpSetXAttr _ => FUSE_SETXATTR
  | OpGetXAttr _ => FUSE_GETXATTR
  | OpListXAttr _ => FUSE_LISTXATTR
  | OpRemoveXAttr _ => FUSE_REMOVEXATTR
  | OpFlush _ => FUSE_FLUSH
  | OpInit _ => FUSE_INIT
  | OpOpenDir _ => FUSE_OPENDIR
  | OpReadDir _ => FUSE_READDIR
  | OpReleaseDir _ => FUSE_RELEASEDIR
  | OpFSyncDir _ => FUSE_FSYNCDIR
  | OpGetLk _ => FUSE_GETLK
  | OpSetLk _ => FUSE_SETLK
  | OpSetLkW _ => FUSE_SETLKW
  | OpAccess _ => FUSE_ACCESS
  | OpCreate _ => FUSE_CREATE
  | OpInterrupt _ => FUSE_INTERRUPT
  | OpBMap _ => FUSE_BMAP
  | OpDestroy _ => FUSE_DESTROY
  | OpIoCtl _ => FUSE_IOCTL
  | OpPoll _ => FUSE_POLL
  | OpNotifyReply _ => FUSE_NOTIFY_REPLY
  | OpBatchForget _ => FUSE_BATCH_FORGET
  | OpFAllocate _ => FUSE_FALLOCATE
  | OpReadDirPlus _ => FUSE_READDIRPLUS
  | OpRename2 _ => FUSE_RENAME2
  | OpLseek _ => FUSE_LSEEK
  | OpCopyFileRange _ => FUSE_COPY_FILE_RANGE
  | OpCuseInit _ => CUSE_INIT
  end.
Definition Operation_header (op : Operation) : fuse_in_header :=
  match op with
  | OpLookup x => lookup_header x
  | OpForget x => forget_header x
  | OpGetAttr x => getattr_header x
  | OpSetAttr x => setattr_header x
  | OpReadLink x => readlink_header x
  | OpSymLink x => symlink_header x
  | OpMkNod x => mknod_header x
  | OpMkDir x => mkdir_header x
  | OpUnlink x => unlink_header x
  | OpRmDir x => rmdir_header x
  | OpRename x => rename_header x
  | OpLink x => link_header x
  | OpOpen x => open_header x
  | OpRead x => read_header x
  | OpWrite x => write_header x
  | OpStatFs x => statfs_header x
  | OpRelease x => release_header x
  | OpFSync x => fsync_header x
  | OpSetXAttr x => setxattr_header x
  | OpGetXAttr x => getxattr_header x
  | OpListXAttr x => listxattr_header x
  | OpRemoveXAttr x => removexattr_header x
  | OpFlush x => flush_header x
  | OpInit x => init_header x
  | OpOpenDir x => opendir_header x
  | OpReadDir x => readdir_header x
  | OpReleaseDir x => releasedir_header x
  | OpFSyncDir x => fsyncdir_header x
  | OpGetLk x => getlk_header x
  | OpSetLk x => setlk_header x
  | OpSetLkW x => setlkw_header x
  | OpAccess x => access_header x
  | OpCreate x => create_header x
  | OpInterrupt x => interrupt_header x
  | OpBMap x => bmap_header x
  | OpDestroy x => destroy_header x
  | OpIoCtl x => ioctl_header x
  | OpPoll x => poll_header x
  | OpNotifyReply x => notifyreply_header x
  | OpBatchForget x => batchforget_header x
  | OpFAllocate x => fallocate_header x
  | OpReadDirPlus x => readdirplus_header x
  | OpRename2 x => rename2_header x
  | OpLseek x => lseek_header x
  | OpCopyFileRange x => copyfilerange_header x
  | OpCuseInit x => cuseinit_header x
  end.

(** The bytes after the header. *)
Definition Operation_args (op : Operation) : list Z :=
  match op with
  | OpLookup x => str (lookup_name x)
  | OpForget x => encode fuse_forget_in_layout (forget_arg x)
  | OpGetAttr x => []
  | OpSetAttr x => encode fuse_setattr_in_layout (setattr_arg x)
  | OpReadLink x => []
  | OpSymLink x => str (symlink_target x) ++ str (symlink_link x)
  | OpMkNod x => encode fuse_mknod_in_layout (mknod_arg x) ++ str (mknod_name x)
  | OpMkDir x => encode fuse_mkdir_in_layout (mkdir_arg x) ++ str (mkdir_name x)
  | OpUnlink x => str (unlink_name x)
  | OpRmDir x => str (rmdir_name x)
  | OpRename x => encode fuse_rename_in_layout (rename_arg x) ++ str (rename_name x) ++ str (rename_newname x)
  | OpLink x => encode fuse_link_in_layout (link_arg x) ++ str (link_name x)
  | OpOpen x => encode fuse_open_in_layout (open_arg x)
  | OpRead x => encode fuse_read_in_layout (read_arg x)
  | OpWrite x => encode fuse_write_in_layout (write_arg x) ++ write_data x
  | OpStatFs x => []
  | OpRelease x => encode fuse_release_in_layout (release_arg x)
  | OpFSync x => encode fuse_fsync_in_layout (fsync_arg x)
  | OpSetXAttr x => encode fuse_setxattr_in_layout (setxattr_arg x) ++ str (setxattr_name x) ++ setxattr_value x
  | OpGetXAttr x => encode fuse_getxattr_in_layout (getxattr_arg x) ++ str (getxattr_name x)
  | OpListXAttr x => encode fuse_getxattr_in_layout (listxattr_arg x)
  | OpRemoveXAttr x => str (removexattr_name x)
  | OpFlush x => encode fuse_flush_in_layout (flush_arg x)
  | OpInit x => encode fuse_init_in_layout (init_arg x)
  | OpOpenDir x => encode fuse_open_in_layout (opendir_arg x)
  | OpReadDir x => encode fuse_read_in_layout (readdir_arg x)
  | OpReleaseDir x => encode fuse_release_in_layout (releasedir_arg x)
  | OpFSyncDir x => encode fuse_fsync_in_layout (fsyncdir_arg x)
  | OpGetLk x => encode fuse_lk_in_layout (getlk_arg x)
  | OpSetLk x => encode fuse_lk_in_layout (setlk_arg x)
  | OpSetLkW x => encode fuse_lk_in_layout (setlkw_arg x)
  | OpAccess x => encode fuse_access_in_layout (access_arg x)
  | OpCreate x => encode fuse_create_in_layout (create_arg x) ++ str (create_name x)
  | OpInterrupt x => encode fuse_interrupt_in_layout (interrupt_arg x)
  | OpBMap x => encode fuse_bmap_in_layout (bmap_arg x)
  | OpDestroy x => []
  | OpIoCtl x => encode fuse_ioctl_in_layout (ioctl_arg x) ++ ioctl_data x
  | OpPoll x => encode fuse_poll_in_layout (poll_arg x)
  | OpNotifyReply x => notifyreply_arg x
  | OpBatchForget x => encode fuse_batch_forget_in_layout (batchforget_arg x) ++ concat (encode fuse_forget_one_layout <$> batchforget_nodes x)
  | OpFAllocate x => encode fuse_fallocate_in_layout (fallocate_arg x)
  | OpReadDirPlus x => encode fuse_read_in_layout (readdirplus_arg x)
  | OpRename2 x => encode fuse_rename2_in_layout (rename2_arg x) ++ str (rename2_name x) ++ str (rename2_newname x)
  | OpLseek x => encode fuse_lseek_in_layout (lseek_arg x)
  | OpCopyFileRange x => encode fuse_copy_file_range_in_layout (copyfilerange_arg x)
  | OpCuseInit x => encode fuse_init_in_layout (cuseinit_arg x)
  end.

(** Integers within their widths, names without NUL, and the counts of the
    variable parts as the kernel fills them in. *)
Definition Operation_wf (op : Operation) : Prop :=
  match op with
  | OpLookup x =>
      wf_str (lookup_name x)
  | OpForget x =>
      valid fuse_forget_in_layout (forget_arg x)
  | OpGetAttr _ => True
  | OpSetAttr x =>
      valid fuse_setattr_in_layout (setattr_arg x)
  | OpReadLink _ => True
  | OpSymLink x =>
      wf_str (symlink_target x) ∧
      wf_str (symlink_link x)
  | OpMkNod x =>
      valid fuse_mknod_in_layout (mknod_arg x) ∧
      wf_str (mknod_name x)
  | OpMkDir x =>
      valid fuse_mkdir_in_layout (mkdir_arg x) ∧
      wf_str (mkdir_name x)
  | OpUnlink x =>
      wf_str (unlink_name x)
  | OpRmDir x =>
      wf_str (rmdir_name x)
  | OpRename x =>
      valid fuse_rename_in_layout (rename_arg x) ∧
      wf_str (rename_name x) ∧
      wf_str (rename_newname x)
  | OpLink x =>
      valid fuse_link_in_layout (link_arg x) ∧
      wf_str (link_name x)
  | OpOpen x =>
      valid fuse_open_in_layout (open_arg x)
  | OpRead x =>
      valid fuse_read_in_layout (read_arg x)
  | OpWrite x =>
      valid fuse_write_in_layout (write_arg x) ∧
      bytes (write_data x) ∧
      Z.of_nat (length (write_data x)) = write_in_size (write_arg x)
  | OpStatFs _ => True
  | OpRelease x =>
      valid fuse_release_in_layout (release_arg x)
  | OpFSync x =>
      valid fuse_fsync_in_layout (fsync_arg x)
  | OpSetXAttr x =>
      valid fuse_setxattr_in_layout (setxattr_arg x) ∧
      wf_str (setxattr_name x) ∧
      bytes (setxattr_value x) ∧
      Z.of_nat (length (setxattr_value x)) = setxattr_in_size (setxattr_arg x)
  | OpGetXAttr x =>
      valid fuse_getxattr_in_layout (getxattr_arg x) ∧
      wf_str (getxattr_name x)
  | OpListXAttr x =>
      valid fuse_getxattr_in_layout (listxattr_arg x)
  | OpRemoveXAttr x =>
      wf_str (removexattr_name x)
  | OpFlush x =>
      valid fuse_flush_in_layout (flush_arg x)
  | OpInit x =>
      valid fuse_init_in_layout (init_arg x)
  | OpOpenDir x =>
      valid fuse_open_in_layout (opendir_arg x)
  | OpReadDir x =>
      valid fuse_read_in_layout (readdir_arg x)
  | OpReleaseDir x =>
      valid fuse_release_in_layout (releasedir_arg x)
  | OpFSyncDir x =>
      valid fuse_fsync_in_layout (fsyncdir_arg x)
  | OpGetLk x =>
      valid fuse_lk_in_layout (getlk_arg x)
  | OpSetLk x =>
      valid fuse_lk_in_layout (setlk_arg x)
  | OpSetLkW x =>
      valid fuse_lk_in_layout (setlkw_arg x)
  | OpAccess x =>
      valid fuse_access_in_layout (access_arg x)
  | OpCreate x =>
      valid fuse_create_in_layout (create_arg x) ∧
      wf_str (create_name x)
  | OpInterrupt x =>
      valid fuse_interrupt_in_layout (interrupt_arg x)
  | OpBMap x =>
      valid fuse_bmap_in_layout (bmap_arg x)
  | OpDestroy _ => True
  | OpIoCtl x =>
      valid fuse_ioctl_in_layout (ioctl_arg x) ∧
      bytes (ioctl_data x)
  | OpPoll x =>
      valid fuse_poll_in_layout (poll_arg x)
  | OpNotifyReply x =>
      bytes (notifyreply_arg x)
  | OpBatchForget x =>
      valid fuse_batch_forget_in_layout (batchforget_arg x) ∧
      Forall (valid fuse_forget_one_layout) (batchforget_nodes x) ∧
      batch_forget_in_count (batchforget_arg x) = Z.of_nat (length (batchforget_nodes x))
  | OpFAllocate x =>
      valid fuse_fallocate_in_layout (fallocate_arg x)
  | OpReadDirPlus x =>
      valid fuse_read_in_layout (readdirplus_arg x)
  | OpRename2 x =>
      valid fuse_rename2_in_layout (rename2_arg x) ∧
      wf_str (rename2_name x) ∧
      wf_str (rename2_newname x) ∧
      rename2_old_parent x = in_header_nodeid (rename2_header x)
  | OpLseek x =>
      valid fuse_lseek_in_layout (lseek_arg x)
  | OpCopyFileRange x =>
      valid fuse_copy_file_range_in_layout (copyfilerange_arg x)
  | OpCuseInit x =>
      valid fuse_init_in_layout (cuseinit_arg x)
  end.

Context `{!LibsLaws L}.

(** ** Parsing what the kernel sends *)

Lemma fetch_str_str a s rest :
  wf_str s →
  ArgumentIterator_fetch_str (MkSlice a (str s ++ rest))
  = Ret (Some s, MkSlice (a + Z.of_nat (S (length s))) rest).
Proof. intros [? _]. unfold str. rewrite <-app_assoc. by apply fetch_str_app. Qed.
Lemma fetch_str_last a s :
  wf_str s →
  ArgumentIterator_fetch_str (MkSlice a (str s))
  = Ret (Some s, MkSlice (a + Z.of_nat (S (length s))) []).
Proof. intros. rewrite <-(app_nil_r (str s)). by apply fetch_str_str. Qed.
Lemma fetch_last {A} (c : codec A) `{!CodecLaws c} a (x : A) :
  valid c x → a `mod` Z.of_nat (align_of c) = 0 →
  ArgumentIterator_fetch c (MkSlice a (encode c x))
  = Ret (Some x, MkSlice (a + Z.of_nat (size_of c)) []).
Proof. intros. rewrite <-(app_nil_r (encode c x)). by apply fetch_app. Qed.
Lemma fetch_slice_last {A} (c : codec A) `{!CodecLaws c} a n (l : list A) :
  Forall (valid c) l → a `mod` Z.of_nat (align_of c) = 0 → n = Z.of_nat (length l) →
  ArgumentIterator_fetch_slice c n (MkSlice a (concat (encode c <$> l)))
  = Ret (Some l, MkSlice (a + Z.of_nat (length l * size_of c)) []).
Proof.
  intros Hl Ha ->. rewrite <-(app_nil_r (concat _)). by apply fetch_slice_app.
Qed.

Lemma assert_step {B} b (k : argM (option B)) it :
  b = true → (lift (assert_ b);; k) it = k it.
Proof. by intros ->. Qed.

(** An address aligned to 8 is aligned to 4, and stays aligned after 8 bytes. *)
Lemma mod_8_4 a : a `mod` 8 = 0 → a `mod` 4 = 0.
Proof. intros. Z.to_euclidean_division_equations. lia. Qed.
Lemma mod_8_add a : a `mod` 8 = 0 → (a + 8) `mod` 8 = 0.
Proof. intros. Z.to_euclidean_division_equations. lia. Qed.

Ltac solve_align := first [done | by apply mod_8_4 | by apply mod_8_add].
Ltac parse_step :=
  first
    [ erewrite question_Some; [|first
        [ apply fetch_app; [apply _|done|solve_align]
        | apply fetch_last; [apply _|done|solve_align]
        | apply fetch_str_str; done
        | apply fetch_str_last; done
        | apply fetch_slice_last; [apply _|done|solve_align|done] ]]
    | erewrite bindM_eq; [|apply fetch_all_app]
    | rewrite assert_step by (by apply Z.eqb_eq) ]; cbv beta.

Lemma parse_encoded op a :
  Operation_wf op → a `mod` 8 = 0 →
  parse (Operation_header op) (Operation_opcode op) (MkSlice a (Operation_args op))
  = Ret (Some op).
Proof.
  intros Hwf Ha. unfold parse, ArgumentIterator_new.
  destruct op as []; destruct x; simpl in Hwf;
    repeat match goal with H : _ ∧ _ |- _ => destruct H end;
    cbn -[ArgumentIterator_fetch ArgumentIterator_fetch_str ArgumentIterator_fetch_all
          ArgumentIterator_fetch_slice encode str Z.of_nat question];
    repeat parse_step; by subst.
Qed.

(** ** Parsing anything *)

(** The arms that compare a length with the size the argument announces: the
    data that fails the comparison. *)
Definition size_mismatch (opcode : fuse_opcode) (bs : list Z) : Prop :=
  match opcode with
  | FUSE_WRITE =>
      (40 ≤ length bs)%nat ∧
      write_in_size (decode fuse_write_in_layout (take 40 bs)) ≠ Z.of_nat (length bs) - 40
  | FUSE_SETXATTR =>
      ∃ name value, drop 8 bs = name ++ 0 :: value ∧ (0 ∉ name) ∧
        setxattr_in_size (decode fuse_setxattr_in_layout (take 8 bs))
        ≠ Z.of_nat (length value)
  | _ => False
  end.

Definition returns {B} (m : argM B) (it : slice) : Prop := ∃ r, m it = Ret r.

Lemma returns_ok op it : returns (ok op) it.
Proof. by eexists. Qed.
Lemma returns_fetch_question {A B} (c : codec A) (k : A → argM (option B)) it :
  addr it `mod` Z.of_nat (align_of c) = 0 →
  (∀ a it', addr it' = addr it + Z.of_nat (size_of c) → returns (k a) it') →
  returns (question (ArgumentIterator_fetch c) k) it.
Proof.
  intros Ha Hk. pose proof (fetch_spec c it) as Hf.
  unfold aligned in Hf. rewrite bool_decide_eq_true_2 in Hf by done. unfold returns.
  case_decide; [erewrite question_Some by done; by apply Hk|
    erewrite question_None by done; eauto].
Qed.
Lemma returns_fetch_slice_question {A B} (c : codec A) n (k : list A → argM (option B)) it :
  0 ≤ n → addr it `mod` Z.of_nat (align_of c) = 0 →
  (∀ a it', returns (k a) it') →
  returns (question (ArgumentIterator_fetch_slice c n) k) it.
Proof.
  intros Hn Ha Hk. pose proof (fetch_slice_spec c n it Hn) as Hf.
  unfold aligned in Hf. rewrite bool_decide_eq_true_2 in Hf by done. unfold returns.
  case_decide; [erewrite question_Some by done; apply Hk|erewrite question_None by done; eauto].
Qed.
Lemma returns_fetch_str_question {B} (k : list Z → argM (option B)) it :
  (∀ s it', returns (k s) it') → returns (question ArgumentIterator_fetch_str k) it.
Proof.
  intros Hk. unfold returns. destruct (fetch_str_spec it) as [[_ Hf]|(s & rest & _ & _ & Hf)].
  - erewrite question_None by done. eauto.
  - erewrite question_Some by done. apply Hk.
Qed.
Lemma returns_fetch_all_bind {B} (k : list Z → argM B) it :
  (∀ l it', returns (k l) it') → returns (ArgumentIterator_fetch_all ≫= k) it.
Proof. intros Hk. unfold returns. erewrite bindM_eq by done. apply Hk. Qed.
Lemma returns_not_Panic {B} (m : argM B) it : returns m it → m it = Panic ↔ False.
Proof. intros [? ->]. naive_solver. Qed.

(** A count is not negative. *)
Lemma batch_forget_count_nonneg bs :
  length bs = 8%nat → bytes bs →
  0 ≤ batch_forget_in_count (decode fuse_batch_forget_in_layout bs).
Proof.
  intros Hl Hb. pose proof (decode_valid (c := fuse_batch_forget_in_layout) bs Hl Hb) as Hv.
  destruct Hv as [[Hc _] _]. exact Hc.
Qed.

Lemma parse_write_panics header it :
  addr it `mod` 8 = 0 →
  parse_arm header FUSE_WRITE it = Panic ↔ size_mismatch FUSE_WRITE (data it).
Proof.
  intros Ha. cbn [parse_arm size_mismatch]. pose proof (fetch_spec fuse_write_in_layout it) as Hf.
  unfold aligned in Hf. rewrite bool_decide_eq_true_2 in Hf by done.
  change (size_of fuse_write_in_layout) with 40%nat in Hf.
  set (arg := decode fuse_write_in_layout (take 40 (data it))) in *.
  clearbody arg. case_decide as Hl.
  - erewrite question_Some by done. cbv beta. erewrite bindM_eq by apply fetch_all_app.
    cbn [data slice_drop]. rewrite length_drop.
    unfold mbind, stateM_bind, lift.
    destruct (Z.eqb_spec (Z.of_nat (length (data it) - 40)) (write_in_size arg))
      as [He|He]; simpl.
    + split; [done|]. intros [_ Hne]. lia.
    + split; [|done]. intros _. split; [done|lia].
  - erewrite question_None by done. split; [done|]. intros [? _]. lia.
Qed.

Lemma fetch_str_of it name value :
  data it = name ++ 0 :: value → 0 ∉ name →
  ∃ it', ArgumentIterator_fetch_str it = Ret (Some name, it') ∧ data it' = value.
Proof.
  intros Hd Hn. destruct it as [a bs]; simpl in Hd; subst.
  eexists; split; [by apply fetch_str_app|done].
Qed.

Lemma parse_setxattr_panics header it :
  addr it `mod` 8 = 0 →
  parse_arm header FUSE_SETXATTR it = Panic ↔ size_mismatch FUSE_SETXATTR (data it).
Proof.
  intros Ha. cbn [parse_arm size_mismatch].
  pose proof (fetch_spec fuse_setxattr_in_layout it) as Hf.
  unfold aligned in Hf. rewrite bool_decide_eq_true_2 in Hf by (by apply mod_8_4).
  change (size_of fuse_setxattr_in_layout) with 8%nat in Hf.
  set (arg := decode fuse_setxattr_in_layout (take 8 (data it))) in *.
  clearbody arg. case_decide as Hl.
  - erewrite question_Some by done. cbv beta.
    destruct (fetch_str_spec (slice_drop 8 it)) as [[Hn Hs]|(s & rest & Hd & Hn & Hs)];
      cbn [data slice_drop] in *.
    + erewrite question_None by done. split; [done|].
      intros (name & value & Hd & _). rewrite Hd in Hn. set_solver.
    + erewrite question_Some by done. cbv beta. erewrite bindM_eq by apply fetch_all_app.
      cbn [data]. unfold mbind, stateM_bind, lift.
      destruct (Z.eqb_spec (Z.of_nat (length rest)) (setxattr_in_size arg)) as [He|He]; simpl.
      * split; [done|]. intros (name & value & Hd' & Hn' & Hne).
        destruct (fetch_str_of (slice_drop 8 it) name value Hd' Hn') as (it' & Hs' & <-).
        rewrite Hs in Hs'. by simplify_eq/=.
      * split; [|done]. intros _. exists s, rest. split_and!; [done..|lia].
  - erewrite question_None by done. split; [done|].
    intros (name & value & Hd & _). apply (f_equal length) in Hd.
    rewrite length_drop, length_app in Hd. simpl in Hd. lia.
Qed.

Lemma parse_batch_forget_returns header it :
  addr it `mod` 8 = 0 → bytes (data it) → returns (parse_arm header FUSE_BATCH_FORGET) it.
Proof.
  intros Ha Hb. cbn [parse_arm].
  pose proof (fetch_spec fuse_batch_forget_in_layout it) as Hf.
  unfold aligned in Hf. rewrite bool_decide_eq_true_2 in Hf by (by apply mod_8_4).
  change (size_of fuse_batch_forget_in_layout) with 8%nat in Hf. unfold returns.
  case_decide; [|erewrite question_None by done; eauto].
  erewrite question_Some by done. cbv beta. apply returns_fetch_slice_question.
  - apply batch_forget_count_nonneg; [rewrite length_take; lia|auto with wire].
  - by apply mod_8_add.
  - intros. apply returns_ok.
Qed.

Lemma parse_arm_panics_iff header opcode it :
  addr it `mod` 8 = 0 → bytes (data it) →
  parse_arm header opcode it = Panic ↔ size_mismatch opcode (data it).
Proof.
  intros Ha Hb. pose proof (mod_8_4 _ Ha).
  destruct opcode;
    try (by apply parse_write_panics); try (by apply parse_setxattr_panics);
    cbn [size_mismatch]; apply returns_not_Panic;
    try (by apply parse_batch_forget_returns);
    cbn [parse_arm];
    repeat first
      [ apply returns_ok
      | apply returns_fetch_question; [done|intros ? ? _]
      | apply returns_fetch_str_question; intros ? ?
      | apply returns_fetch_all_bind; intros ? ? ].
Qed.

Lemma exists_unique_opcode (o : fuse_opcode) (P : fuse_opcode → Prop) :
  P o ↔ ∃ opcode, Some o = Some opcode ∧ P opcode.
Proof. naive_solver. Qed.

(** No arm executes undefined behaviour. *)
Definition defined {B} (m : argM B) : Prop := ∀ it, m it ≠ UB.
Lemma defined_bind {A B} (m : argM A) (k : A → argM B) :
  defined m → (∀ a, defined (k a)) → defined (m ≫= k).
Proof.
  intros Hm Hk it. unfold mbind, stateM_bind. specialize (Hm it).
  destruct (m it) as [[a it']| |]; [apply Hk|done|done].
Qed.
Lemma defined_question {A B} (m : argM (option A)) (k : A → argM (option B)) :
  defined m → (∀ a, defined (k a)) → defined (question m k).
Proof. intros Hm Hk. apply defined_bind; [done|]. by intros [a|]. Qed.
Lemma defined_fetch {A} (c : codec A) : defined (ArgumentIterator_fetch c).
Proof. intros it. unfold ArgumentIterator_fetch. by repeat case_match. Qed.
Lemma defined_fetch_slice {A} (c : codec A) n : defined (ArgumentIterator_fetch_slice c n).
Proof. intros it. unfold ArgumentIterator_fetch_slice. by repeat case_match. Qed.
Lemma defined_fetch_str : defined ArgumentIterator_fetch_str.
Proof. intros it. unfold ArgumentIterator_fetch_str. by repeat case_match. Qed.
Lemma defined_fetch_all : defined ArgumentIterator_fetch_all.
Proof. done. Qed.
Lemma defined_assert b : defined (lift (assert_ b)).
Proof. intros it. by destruct b. Qed.
Lemma defined_ok op : defined (ok op).
Proof. done. Qed.
#[local] Hint Resolve defined_bind defined_question defined_fetch defined_fetch_slice
  defined_fetch_str defined_fetch_all defined_assert defined_ok : rust.
Lemma parse_arm_not_UB header opcode it : parse_arm header opcode it ≠ UB.
Proof.
  assert (defined (parse_arm header opcode)) as Hd; [|apply Hd].
  destruct opcode; cbn [parse_arm]; auto 10 with rust.
Qed.

Lemma bytes_data_take s n m : bytes (data s) → bytes (take n (drop m (data s))).
Proof. auto with wire. Qed.

Lemma header_length h : length (encode fuse_in_header_layout h) = 40%nat.
Proof. exact (encode_length (c := fuse_in_header_layout) h). Qed.

(** The outcome of reading the header, on every aligned buffer. *)
Lemma AnyRequest_try_from_spec s :
  addr s `mod` 8 = 0 →
  AnyRequest_try_from s =
    let len := Z.of_nat (length (data s)) in
    let header := decode fuse_in_header_layout (take 40 (data s)) in
    if decide (len < 40) then Ret (inl (ShortReadHeader len))
    else if decide (len < in_header_len header) then
      Ret (inl (ShortRead len (in_header_len header)))
    else if decide (in_header_len header < 40) then Panic
    else Ret (inr (MkAnyRequest header (MkSlice (addr s + 40)
           (take (Z.to_nat (in_header_len header) - 40) (drop 40 (data s)))))).
Proof.
  intros Ha. unfold AnyRequest_try_from, ArgumentIterator_new. rewrite fetch_spec.
  unfold aligned. rewrite bool_decide_eq_true_2 by done.
  change (size_of fuse_in_header_layout) with 40%nat.
  generalize (decode fuse_in_header_layout (take 40 (data s))). intros header.
  destruct (decide (40 ≤ length (data s))%nat) as [Hl|Hl]; cbv zeta; simpl.
  - rewrite (decide_False (P := _ < 40)) by lia. case_decide as Hs; [done|].
    destruct (decide (in_header_len header < 40)).
    + by rewrite decide_False by lia.
    + by rewrite decide_True by lia.
  - by rewrite decide_True by lia.
Qed.

Lemma request_decodes op a rest :
  Operation_wf op →
  valid fuse_in_header_layout (Operation_header op) →
  in_header_len (Operation_header op) = 40 + Z.of_nat (length (Operation_args op)) →
  in_header_opcode (Operation_header op) = fuse_opcode_code (Operation_opcode op) →
  a `mod` 8 = 0 →
  ∃ r, AnyRequest_try_from (MkSlice a
         (encode fuse_in_header_layout (Operation_header op) ++ Operation_args op ++ rest))
       = Ret (inr r) ∧
       any_header r = Operation_header op ∧
       AnyRequest_operation r = Ret (inr op).
Proof.
  intros Hwf Hv Hlen Hcode Ha.
  set (header := Operation_header op) in *.
  pose proof (header_length header) as He.
  rewrite AnyRequest_try_from_spec by done. cbn [data addr]. cbv zeta.
  rewrite take_app_length', drop_app_length' by done. rewrite decode_encode by done.
  rewrite !length_app, He.
  rewrite decide_False by lia. rewrite decide_False by lia. rewrite decide_False by lia.
  eexists; split; [done|]. split; [done|].
  unfold AnyRequest_operation. cbn [any_header any_data].
  rewrite Hcode. assert (fuse_opcode_try_from (fuse_opcode_code (Operation_opcode op))
    = Some (Operation_opcode op)) as -> by (by destruct (Operation_opcode op)).
  rewrite take_app_length' by lia.
  unfold header. by rewrite parse_encoded by (done || by rewrite Zplus_mod, Ha).
Qed.

(** C19: A request the kernel sends is understood: for every operation, any
    values of its fields and any bytes after it in the read buffer, the header is
    accepted and [operation] returns exactly that operation. *)
Theorem request_round_trip op a rest :
  Operation_wf op →
  valid fuse_in_header_layout (Operation_header op) →
  in_header_len (Operation_header op) = 40 + Z.of_nat (length (Operation_args op)) →
  in_header_opcode (Operation_header op) = fuse_opcode_code (Operation_opcode op) →
  a `mod` 8 = 0 →
  ∃ r, AnyRequest_try_from (MkSlice a
         (encode fuse_in_header_layout (Operation_header op) ++ Operation_args op ++ rest))
       = Ret (inr r) ∧
       any_header r = Operation_header op ∧
       AnyRequest_operation r = Ret (inr op).
Proof. apply request_decodes. Qed.

(** A buffer that holds less than the message the kernel announced is
    rejected with the short-read error that says how much was read. *)
Theorem truncated_request_rejected op a n :
  valid fuse_in_header_layout (Operation_header op) →
  in_header_len (Operation_header op) = 40 + Z.of_nat (length (Operation_args op)) →
  a `mod` 8 = 0 →
  (n < 40 + length (Operation_args op))%nat →
  AnyRequest_try_from (MkSlice a (take n
    (encode fuse_in_header_layout (Operation_header op) ++ Operation_args op)))
  = Ret (inl (if decide (n < 40)%nat then ShortReadHeader (Z.of_nat n)
              else ShortRead (Z.of_nat n) (in_header_len (Operation_header op)))).
Proof.
  intros Hv Hlen Ha Hn. set (header := Operation_header op) in *.
  pose proof (header_length header) as He.
  rewrite AnyRequest_try_from_spec by done. cbn [data]. cbv zeta.
  rewrite length_take_le by (rewrite length_app; lia).
  destruct (decide (n < 40)%nat); [by rewrite decide_True by lia|].
  rewrite decide_False by lia. rewrite take_take, Nat.min_l by lia.
  rewrite take_app_length' by done. rewrite decode_encode by done.
  by rewrite decide_True by lia.
Qed.

(** C20: Whatever bytes are in an aligned buffer, decoding them executes no
    undefined behaviour, and it panics in two cases only: the header announces a
    length below its own size, or a WRITE or SETXATTR announces a size other than
    that of the data it carries.  Every other defect is an error value: a short
    read, an unknown operation, or too few argument bytes. *)
Theorem decode_panics_iff s :
  addr s `mod` 8 = 0 → bytes (data s) →
  let header := decode fuse_in_header_layout (take 40 (data s)) in
  permits (r ← AnyRequest_try_from s;
           match r with inl e => Ret (inl e) | inr r => AnyRequest_operation r end)
    (λ _, True) ∧
  (AnyRequest_try_from s = Panic ↔
     40 ≤ Z.of_nat (length (data s)) ∧
     in_header_len header ≤ Z.of_nat (length (data s)) ∧ in_header_len header < 40) ∧
  (∀ r, AnyRequest_try_from s = Ret (inr r) →
     AnyRequest_operation r = Panic ↔
     ∃ opcode, fuse_opcode_try_from (in_header_opcode header) = Some opcode ∧
       size_mismatch opcode
         (take (Z.to_nat (in_header_len header) - 40) (drop 40 (data s)))).
Proof.
  intros Ha Hb. cbv zeta. rewrite AnyRequest_try_from_spec by done. cbv zeta.
  set (header := decode fuse_in_header_layout (take 40 (data s))).
  set (s' := MkSlice (addr s + 40)
    (take (Z.to_nat (in_header_len header) - 40) (drop 40 (data s)))).
  assert (∀ opcode, parse_arm header opcode s' = Panic
    ↔ size_mismatch opcode (data s')) as Hparse.
  { intros opcode. apply parse_arm_panics_iff; [simpl; by rewrite Zplus_mod, Ha|].
    by apply bytes_data_take. }
  assert (AnyRequest_operation (MkAnyRequest header s') = Panic ↔
     ∃ opcode, fuse_opcode_try_from (in_header_opcode header) = Some opcode ∧
       size_mismatch opcode (data s')) as Hop.
  { unfold AnyRequest_operation, parse. cbn [any_header any_data].
    destruct (fuse_opcode_try_from _) as [opcode|]; [|naive_solver].
    rewrite <-(exists_unique_opcode opcode (λ o, size_mismatch o (data s'))), <-Hparse.
    unfold ArgumentIterator_new.
    destruct (parse_arm header opcode s') as [[o ?]| |]; simpl; naive_solver. }
  split_and!.
  - repeat case_decide; simpl; try done.
    unfold AnyRequest_operation, parse. cbn [any_header any_data].
    destruct (fuse_opcode_try_from _) as [opcode|]; [|done].
    pose proof (parse_arm_not_UB header opcode s').
    unfold ArgumentIterator_new. by destruct (parse_arm header opcode s') as [[[] ?]| |].
  - repeat case_decide; split; try done; lia.
  - intros r. repeat case_decide; intros [= <-]. exact Hop.
Qed.

(** ** What the accessors promise *)

Lemma flag_set v i : 0 ≤ i → (Z.land v (Z.shiftl 1 i) =? 0) = negb (Z.testbit v i).
Proof.
  intros Hi. rewrite Z.shiftl_1_l. destruct (Z.testbit v i) eqn:Ht; simpl.
  - apply Z.eqb_neq. intros H0. apply (f_equal (λ z, Z.testbit z i)) in H0.
    rewrite Z.land_spec, Ht, Z.pow2_bits_true, Z.bits_0 in H0 by done. done.
  - apply Z.eqb_eq. apply Z.bits_inj'. intros j Hj. rewrite Z.land_spec, Z.bits_0.
    destruct (decide (i = j)) as [<-|]; [by rewrite Ht|].
    by rewrite Z.pow2_bits_false, andb_false_r.
Qed.

(** SETATTR: each optional attribute is present exactly when its bit of
    [valid] is set, and then it is the field of the message; a time is "now"
    exactly when the second bit says so, and otherwise the converted timestamp. *)
Theorem SetAttr_fields `{Build} (x : SetAttr) :
  let a := setattr_arg x in
  let given (i : Z) (z : Z) := if Z.testbit (setattr_in_valid a) i then Some z else None in
  let time (i now secs nsecs : Z) :=
    if negb (Z.testbit (setattr_in_valid a) i) then Ret None
    else if Z.testbit (setattr_in_valid a) now then Ret (Some Now)
    else t ← system_time_from_time secs nsecs; Ret (Some (SpecificTime t)) in
  SetAttr_mode x = given 0 (setattr_in_mode a) ∧
  SetAttr_uid x = given 1 (setattr_in_uid a) ∧
  SetAttr_gid x = given 2 (setattr_in_gid a) ∧
  SetAttr_size x = given 3 (setattr_in_size a) ∧
  SetAttr_file_handle x = given 6 (setattr_in_fh a) ∧
  SetAttr_atime x = time 4 7 (setattr_in_atime a) (setattr_in_atimensec a) ∧
  SetAttr_mtime x = time 5 8 (setattr_in_mtime a) (setattr_in_mtimensec a) ∧
  SetAttr_ctime x = if negb (Z.testbit (setattr_in_valid a) 10) then Ret None
    else t ← system_time_from_time (setattr_in_ctime a) (setattr_in_ctimensec a);
         Ret (Some t).
Proof.
  cbv zeta. unfold SetAttr_mode, SetAttr_uid, SetAttr_gid, SetAttr_size,
    SetAttr_file_handle, SetAttr_atime, SetAttr_mtime, SetAttr_ctime, atime_now, mtime_now.
  unfold FATTR_MODE, FATTR_UID, FATTR_GID, FATTR_SIZE, FATTR_FH, FATTR_ATIME, FATTR_MTIME,
    FATTR_ATIME_NOW, FATTR_MTIME_NOW, FATTR_CTIME.
  rewrite !flag_set by done. rewrite !negb_involutive.
  split_and!; try done; by destruct (Z.testbit _ _).
Qed.

(** LINK: the request names the file to link, and its header the directory to
    link it into; [dest] answers the name in the file, not in the directory. *)
Lemma Link_dest_not_in_directory (x : Link) :
  link_in_oldnodeid (link_arg x) ≠ request_nodeid x →
  dir (Link_dest x) = Link_inode_no x ∧ dir (Link_dest x) ≠ request_nodeid x.
Proof. done. Qed.

(** IOCTL: unlike WRITE and SETXATTR the announced input size is not
    compared with the data when the request is parsed, and [in_data] panics when
    it is larger; otherwise it is that prefix of the data. *)
Theorem IoCtl_in_data_panics_iff header (arg : fuse_ioctl_in) bs a :
  valid fuse_ioctl_in_layout arg → a `mod` 8 = 0 →
  ∃ x, parse header FUSE_IOCTL (MkSlice a (encode fuse_ioctl_in_layout arg ++ bs))
       = Ret (Some (OpIoCtl x)) ∧
    (IoCtl_in_data x = Panic ↔ Z.of_nat (length bs) < ioctl_in_in_size arg) ∧
    (ioctl_in_in_size arg ≤ Z.of_nat (length bs) →
     IoCtl_in_data x = Ret (take (Z.to_nat (ioctl_in_in_size arg)) bs)).
Proof.
  intros Hv Ha. exists (MkIoCtl header arg bs). split.
  - unfold parse, ArgumentIterator_new. cbn [parse_arm].
    erewrite question_Some by (apply fetch_app; [apply _|done|solve_align]).
    cbv beta. by erewrite bindM_eq by apply fetch_all_app.
  - assert (0 ≤ ioctl_in_in_size arg) by (destruct Hv as [[_ [? _]] _]; done).
    unfold IoCtl_in_data. cbn [ioctl_arg ioctl_data]. case_decide; [|split; [split; [lia|done]|lia]].
    split; [|done]. split; [done|lia].
Qed.

End request.

(** ** Witnesses *)

(** LOOKUP of "ab" in the root directory. *)
Definition example_lookup : Operation :=
  OpLookup (MkLookup (Mk_fuse_in_header 43 1 7 1 1000 1000 42 0) [97; 98]).
(** A WRITE that announces 9 bytes and carries 2. *)
Definition example_write_bytes : list Z :=
  encode fuse_in_header_layout (Mk_fuse_in_header 82 16 7 1 1000 1000 42 0) ++
  encode fuse_write_in_layout (Mk_fuse_write_in 3 0 9 0 0 0 0) ++ [1; 2].

Lemma example_lookup_wf : Operation_wf example_lookup ∧
  valid fuse_in_header_layout (Operation_header example_lookup).
Proof.
  split; [split; [set_solver|repeat constructor; done]|].
  vm_compute. by repeat split.
Qed.

Lemma request_round_trip_witness :
  ∃ r, AnyRequest_try_from (L := model_libs) (MkSlice 4096
         (encode fuse_in_header_layout (Operation_header example_lookup) ++
          Operation_args example_lookup ++ [0; 0; 0]))
       = Ret (inr r) ∧
       any_header r = Operation_header example_lookup ∧
       AnyRequest_operation (L := model_libs) r = Ret (inr example_lookup).
Proof.
  apply (request_round_trip (L := model_libs) (LibsLaws0 := model_libs_laws)
           example_lookup 4096 [0; 0; 0]); [apply example_lookup_wf..|done|done|done].
Defined.

Lemma truncated_request_rejected_witness :
  AnyRequest_try_from (L := model_libs) (MkSlice 4096 (take 41
    (encode fuse_in_header_layout (Operation_header example_lookup) ++
     Operation_args example_lookup)))
  = Ret (inl (ShortRead 41 43)).
Proof.
  apply (truncated_request_rejected (L := model_libs) (LibsLaws0 := model_libs_laws)
           example_lookup 4096 41); [apply example_lookup_wf|done|done|simpl; lia].
Defined.

Lemma decode_panics_iff_witness :
  ∃ r, AnyRequest_try_from (L := model_libs) (MkSlice 4096 example_write_bytes)
       = Ret (inr r) ∧
       AnyRequest_operation (L := model_libs) r = Panic.
Proof.
  eexists; split; [by vm_compute|].
  apply (decode_panics_iff (L := model_libs) (LibsLaws0 := model_libs_laws)
           (MkSlice 4096 example_write_bytes)); [done| |by vm_compute|].
  - apply (bool_decide_unpack _). by vm_compute.
  - exists FUSE_WRITE. split; [by vm_compute|]. vm_compute. split; [lia|done].
Defined.

Lemma IoCtl_in_data_panics_iff_witness :
  ∃ x, parse (L := model_libs) (Mk_fuse_in_header 74 39 7 1 0 0 0 0) FUSE_IOCTL
         (MkSlice 4096 (encode fuse_ioctl_in_layout (Mk_fuse_ioctl_in 3 0 0 0 8 0) ++ [1; 2]))
       = Ret (Some (OpIoCtl x)) ∧ IoCtl_in_data x = Panic.
Proof.
  destruct (IoCtl_in_data_panics_iff (L := model_libs) (LibsLaws0 := model_libs_laws)
    (Mk_fuse_in_header 74 39 7 1 0 0 0 0) (Mk_fuse_ioctl_in 3 0 0 0 8 0) [1; 2] 4096)
    as (x & Hx & Hp & _); [vm_compute; by repeat split|done|].
  exists x. split; [exact Hx|]. apply Hp. simpl. lia.
Defined.
