(* ===== verification/KernelConfig.v ===== *)
(** * KernelConfig: the settings negotiated in INIT ([uring_fuse/mod.rs])

    What the file system's [init] may change of the reply to the kernel's INIT
    request, and the values the reply is computed from. *)

From S2P Require Import Prelude Wire KernelInterface Time.

Local Open Scope Z_scope.

(** [session.rs]: [MAX_WRITE_SIZE]. *)
Definition MAX_WRITE_SIZE : Z := 16 * 1024 * 1024.

Definition INIT_FLAGS : Z :=
  Z.lor (Z.lor (Z.lor (Z.lor FUSE_ASYNC_READ FUSE_BIG_WRITES) FUSE_SPLICE_WRITE)
    FUSE_SPLICE_READ) FUSE_SPLICE_MOVE.

Definition default_init_flags (capabilities : Z) : Z :=
  let flags := INIT_FLAGS in
  if negb (Z.land capabilities FUSE_MAX_PAGES =? 0) then Z.lor flags FUSE_MAX_PAGES
  else flags.

Record KernelConfig : Type := MkKernelConfig {
  capabilities : Z;
  requested : Z;
  max_readahead : Z;
  max_max_readahead : Z;
  max_background : Z;
  congestion_threshold : option Z;
  max_write : Z;
  time_gran : Duration }.

Definition KernelConfig_new (capabilities max_readahead : Z) : KernelConfig := {|
  capabilities := capabilities;
  requested := default_init_flags capabilities;
  max_readahead := max_readahead;
  max_max_readahead := max_readahead;
  max_background := 16;
  congestion_threshold := None;
  max_write := MAX_WRITE_SIZE;
  time_gran := MkDuration 0 1 |}.

(** ** Setters

    The left summand is [Ok], the right one [Err]. *)

Definition with_requested v c := MkKernelConfig (capabilities c) v (max_readahead c)
  (max_max_readahead c) (max_background c) (congestion_threshold c) (max_write c) (time_gran c).
Definition with_max_readahead v c := MkKernelConfig (capabilities c) (requested c) v
  (max_max_readahead c) (max_background c) (congestion_threshold c) (max_write c) (time_gran c).
Definition with_max_background v c := MkKernelConfig (capabilities c) (requested c)
  (max_readahead c) (max_max_readahead c) v (congestion_threshold c) (max_write c) (time_gran c).
Definition with_congestion_threshold v c := MkKernelConfig (capabilities c) (requested c)
  (max_readahead c) (max_max_readahead c) (max_background c) v (max_write c) (time_gran c).
Definition with_max_write v c := MkKernelConfig (capabilities c) (requested c)
  (max_readahead c) (max_max_readahead c) (max_background c) (congestion_threshold c) v (time_gran c).
Definition with_time_gran v c := MkKernelConfig (capabilities c) (requested c)
  (max_readahead c) (max_max_readahead c) (max_background c) (congestion_threshold c) (max_write c) v.

(** The loop of [set_time_granularity]: [Some (Some p)] is its early return of
    the error [p], [Some None] its end, [None] fuel exhausted. *)
Fixpoint set_time_granularity_loop (fuel : nat) (power_of_10 nanos : Z) : option (option Z) :=
  match fuel with
  | O => None
  | S fuel =>
      if decide (power_of_10 < nanos) then
        if decide (nanos < power_of_10 * 10) then Some (Some power_of_10)
        else set_time_granularity_loop fuel (power_of_10 * 10) nanos
      else Some None
  end.

(** A granularity is at most a second, [10^9] nanoseconds: ten rounds. *)
Definition granularity_fuel : nat := 10.

Definition KernelConfig_set_time_granularity (value : Duration) (c : KernelConfig)
    : option ((Duration + Duration) * KernelConfig) :=
  if decide (Duration_as_nanos value = 0) then Some (inr (MkDuration 0 1), c)
  else if decide (as_secs value > 1 ∨ as_secs value = 1 ∧ subsec_nanos value > 0) then
    Some (inr (MkDuration 1 0), c)
  else
    r ← set_time_granularity_loop granularity_fuel 1 (Duration_as_nanos value);
    Some match r with
    | Some power_of_10 => (inr (nanos_to_duration (wrap 32 power_of_10)), c)
    | None => (inl (time_gran c), with_time_gran value c)
    end.

Definition KernelConfig_set_max_write (value : Z) (c : KernelConfig)
    : (Z + Z) * KernelConfig :=
  if decide (value = 0) then (inr 1, c)
  else if decide (value > MAX_WRITE_SIZE) then (inr MAX_WRITE_SIZE, c)
  else (inl (max_write c), with_max_write value c).

Definition KernelConfig_set_max_readahead (value : Z) (c : KernelConfig)
    : (Z + Z) * KernelConfig :=
  if decide (value = 0) then (inr 1, c)
  else if decide (value > max_max_readahead c) then (inr (max_max_readahead c), c)
  else (inl (max_readahead c), with_max_readahead value c).

Definition KernelConfig_set_max_background (value : Z) (c : KernelConfig)
    : (Z + Z) * KernelConfig :=
  if decide (value = 0) then (inr 1, c)
  else (inl (max_background c), with_max_background value c).

(** The private method [congestion_threshold]. *)
Definition KernelConfig_congestion_threshold (c : KernelConfig) : Z :=
  match congestion_threshold c with
  | None => wrap 16 (max_background c * 3 / 4)
  | Some value => Z.min value (max_background c)
  end.

Definition KernelConfig_set_congestion_threshold (value : Z) (c : KernelConfig)
    : (Z + Z) * KernelConfig :=
  if decide (value = 0) then (inr 1, c)
  else (inl (KernelConfig_congestion_threshold c), with_congestion_threshold (Some value) c).

Section config.
Context `{B : Build}.

Definition KernelConfig_add_capabilities (capabilities_to_add : Z) (c : KernelConfig)
    : outcome ((unit + Z) * KernelConfig) :=
  let supported := Z.land capabilities_to_add (capabilities c) in
  if decide (supported ≠ capabilities_to_add) then
    missing ← usub 32 capabilities_to_add supported;
    Ret (inr missing, c)
  else Ret (inl tt, with_requested (Z.lor (requested c) capabilities_to_add) c).

(** [page_size::get()] is a parameter. *)
Definition KernelConfig_max_pages (page_size : Z) (c : KernelConfig) : outcome Z :=
  n ← usub 32 (Z.max (max_write c) (max_readahead c)) 1;
  let d := wrap 32 page_size in
  if decide (d = 0) then Panic else uadd 16 (wrap 16 (n / d)) 1.

(** ** Invariant *)

(** A granularity the kernel accepts. *)
Definition power_of_ten (d : Duration) : Prop :=
  ∃ k, 0 ≤ k ≤ 9 ∧ Duration_as_nanos d = 10 ^ k.

Record config_wf (c : KernelConfig) : Prop := {
  wf_capabilities : 0 ≤ capabilities c < 2 ^ 32;
  wf_requested : 0 ≤ requested c < 2 ^ 32;
  wf_max_readahead : 0 ≤ max_readahead c ≤ max_max_readahead c;
  wf_max_max_readahead : max_max_readahead c < 2 ^ 32;
  wf_max_background : 1 ≤ max_background c < 2 ^ 16;
  wf_congestion : ∀ v, congestion_threshold c = Some v → 1 ≤ v < 2 ^ 16;
  wf_max_write : 1 ≤ max_write c ≤ MAX_WRITE_SIZE;
  wf_time_gran : power_of_ten (time_gran c) ∧
    0 ≤ subsec_nanos (time_gran c) < NANOS_PER_SEC }.

(** The calls a file system can make. *)
Inductive setter : Type :=
  | SetTimeGranularity (value : Duration)
  | SetMaxWrite (value : Z)
  | SetMaxReadahead (value : Z)
  | SetMaxBackground (value : Z)
  | SetCongestionThreshold (value : Z)
  | AddCapabilities (value : Z).

(** What a caller can pass: a [Duration], a [u32], a [u16]. *)
Definition setter_typed (s : setter) : Prop :=
  match s with
  | SetTimeGranularity d => 0 ≤ as_secs d < 2 ^ 64 ∧ 0 ≤ subsec_nanos d < NANOS_PER_SEC
  | SetMaxWrite v | SetMaxReadahead v | AddCapabilities v => 0 ≤ v < 2 ^ 32
  | SetMaxBackground v | SetCongestionThreshold v => 0 ≤ v < 2 ^ 16
  end.

(** Runs a call; on an error, the call the error suggests instead. *)
Definition suggest {A} (mk : A → setter) (r : (A + A) * KernelConfig)
    : option setter * KernelConfig :=
  (match r.1 with inl _ => None | inr v => Some (mk v) end, r.2).
Definition run_setter (s : setter) (c : KernelConfig)
    : option (outcome (option setter * KernelConfig)) :=
  match s with
  | SetTimeGranularity v =>
      (λ r, Ret (suggest SetTimeGranularity r)) <$> KernelConfig_set_time_granularity v c
  | SetMaxWrite v => Some (Ret (suggest SetMaxWrite (KernelConfig_set_max_write v c)))
  | SetMaxReadahead v =>
      Some (Ret (suggest SetMaxReadahead (KernelConfig_set_max_readahead v c)))
  | SetMaxBackground v =>
      Some (Ret (suggest SetMaxBackground (KernelConfig_set_max_background v c)))
  | SetCongestionThreshold v =>
      Some (Ret (suggest SetCongestionThreshold (KernelConfig_set_congestion_threshold v c)))
  | AddCapabilities v => Some (
      '(r, c') ← KernelConfig_add_capabilities v c;
      Ret (match r with inl _ => None | inr missing => Some (AddCapabilities (v - missing)) end,
           c'))
  end.

(** ** Lemmas *)

Lemma land_bounds a b w : 0 ≤ w → 0 ≤ a < 2 ^ w → 0 ≤ b → 0 ≤ Z.land a b < 2 ^ w.
Proof.
  intros Hw Ha Hb. split; [apply Z.land_nonneg; lia|].
  destruct (decide (Z.land a b = 0)) as [->|]; [lia|].
  apply Z.log2_lt_pow2; [pose proof (Z.land_nonneg a b); lia|].
  destruct (decide (a = 0)) as [->|]; [by rewrite Z.land_0_l in *|].
  pose proof (Z.log2_land a b ltac:(lia) Hb). assert (Z.log2 a < w) by (apply Z.log2_lt_pow2; lia).
  lia.
Qed.
Lemma lor_bounds a b w : 0 ≤ w → 0 ≤ a < 2 ^ w → 0 ≤ b < 2 ^ w → 0 ≤ Z.lor a b < 2 ^ w.
Proof.
  intros Hw Ha Hb.
  destruct (decide (a = 0)) as [->|]; [by rewrite Z.lor_0_l|].
  destruct (decide (b = 0)) as [->|]; [by rewrite Z.lor_0_r|].
  split; [apply Z.lor_nonneg; lia|].
  destruct (decide (Z.lor a b = 0)) as [->|]; [lia|].
  apply Z.log2_lt_pow2; [pose proof (Z.lor_nonneg a b); lia|].
  rewrite Z.log2_lor by lia.
  assert (Z.log2 a < w) by (apply Z.log2_lt_pow2; lia).
  assert (Z.log2 b < w) by (apply Z.log2_lt_pow2; lia). lia.
Qed.
Lemma land_le a b : 0 ≤ a → 0 ≤ b → Z.land a b ≤ a.
Proof.
  intros Ha Hb. rewrite <-(Z.lor_ldiff_and a b) at 2.
  assert (Z.land (Z.ldiff a b) (Z.land a b) = 0) as Hd.
  { apply Z.bits_inj'. intros n Hn. rewrite !Z.land_spec, Z.ldiff_spec, Z.bits_0.
    by destruct (Z.testbit a n), (Z.testbit b n). }
  pose proof (Z.add_lor_land (Z.ldiff a b) (Z.land a b)) as He. rewrite Hd in He.
  pose proof (proj2 (Z.ldiff_nonneg a b) (or_introl Ha)). lia.
Qed.

(** What the loop finds: the exact power of ten, or the greatest one below. *)
Lemma set_time_granularity_loop_spec fuel k nanos :
  0 ≤ k → 10 ^ k ≤ nanos ≤ 10 ^ 9 → 9 - k < Z.of_nat fuel →
  ∃ r, set_time_granularity_loop fuel (10 ^ k) nanos = Some r ∧
    match r with
    | None => ∃ k', k ≤ k' ≤ 9 ∧ nanos = 10 ^ k'
    | Some p => ∃ k', k ≤ k' ≤ 9 ∧ p = 10 ^ k' ∧ p < nanos < p * 10
    end.
Proof.
  revert k. induction fuel as [|fuel IH]; intros k Hk Hn Hf.
  { assert (10 ^ 10 ≤ 10 ^ k) by (apply Z.pow_le_mono_r; lia). lia. }
  assert (k ≤ 9) by (apply (Z.pow_le_mono_r_iff 10); lia). simpl. case_decide.
  - case_decide; [eexists; split; [done|]; exists k; lia|].
    rewrite Z.mul_comm, <-Z.pow_succ_r by lia.
    destruct (IH (Z.succ k)) as (r & -> & Hr); [lia| |lia|].
    { rewrite Z.pow_succ_r by lia. lia. }
    exists r. split; [done|]. destruct r; destruct Hr as (k' & ? & ?); exists k'; lia.
  - eexists; split; [done|]. exists k. lia.
Qed.

Lemma nanos_to_duration_nanos n :
  0 ≤ n → Duration_as_nanos (nanos_to_duration n) = n ∧
  0 ≤ as_secs (nanos_to_duration n) ∧
  0 ≤ subsec_nanos (nanos_to_duration n) < NANOS_PER_SEC.
Proof.
  intros. unfold Duration_as_nanos, nanos_to_duration, NANOS_PER_SEC; simpl.
  Z.to_euclidean_division_equations. lia.
Qed.

(** A granularity is accepted exactly if it is a power of ten of at most a
    second. *)
Lemma set_time_granularity_spec value c :
  0 ≤ as_secs value < 2 ^ 64 → 0 ≤ subsec_nanos value < NANOS_PER_SEC →
  (power_of_ten value ∧
     KernelConfig_set_time_granularity value c
     = Some (inl (time_gran c), with_time_gran value c)) ∨
  (¬ power_of_ten value ∧ ∃ v, power_of_ten v ∧
     0 ≤ as_secs v < 2 ^ 64 ∧ 0 ≤ subsec_nanos v < NANOS_PER_SEC ∧
     KernelConfig_set_time_granularity value c = Some (inr v, c)).
Proof.
  intros Hs Hn. unfold KernelConfig_set_time_granularity.
  assert (Hpos : ∀ k, 0 ≤ k → 0 < 10 ^ k) by (intros; by apply Z.pow_pos_nonneg).
  case_decide as H0.
  { right. split; [intros (k & ? & ?); pose proof (Hpos k); lia|].
    exists (MkDuration 0 1). split; [by exists 0|]. unfold NANOS_PER_SEC; simpl. split_and!; try lia; done. }
  case_decide as H1.
  { right. split.
    - intros (k & ? & Hk). assert (10 ^ k ≤ 10 ^ 9) by (apply Z.pow_le_mono_r; lia).
      unfold Duration_as_nanos, NANOS_PER_SEC in *. lia.
    - exists (MkDuration 1 0). split; [by exists 9|]. unfold NANOS_PER_SEC; simpl. split_and!; try lia; done. }
  assert (10 ^ 0 ≤ Duration_as_nanos value ≤ 10 ^ 9).
  { unfold Duration_as_nanos, NANOS_PER_SEC in *. lia. }
  destruct (set_time_granularity_loop_spec granularity_fuel 0 (Duration_as_nanos value))
    as (r & Hr & Hspec); [lia|done|done|].
  change (10 ^ 0) with 1 in Hr. rewrite Hr. simpl. destruct r as [p|].
  - destruct Hspec as (k' & Hk' & -> & Hlt). right. split.
    + intros (k & Hk & Heq). rewrite Heq in Hlt. rewrite Z.mul_comm, <-Z.pow_succ_r in Hlt by lia.
      destruct Hlt as [H3 H4]. apply Z.pow_lt_mono_r_iff in H3, H4; lia.
    + assert (10 ^ k' ≤ 10 ^ 9) by (apply Z.pow_le_mono_r; lia).
      rewrite wrap_small by (pose proof (Hpos k'); lia).
      destruct (nanos_to_duration_nanos (10 ^ k')) as (He & ? & ?); [pose proof (Hpos k'); lia|].
      eexists; split; [exists k'; split; [lia|done]|].
      unfold Duration_as_nanos, NANOS_PER_SEC in *. split_and!; try done; lia.
  - destruct Hspec as (k' & Hk' & Heq). left. split; [by exists k'|done].
Qed.

Ltac solve_wf := constructor; simpl in *; eauto; try lia.

(** The setter of one field: its guards reject a zero and a value above the
    maximum, and the value each suggests passes both. *)
Lemma with_max_write_wf v c : config_wf c → 1 ≤ v ≤ MAX_WRITE_SIZE → config_wf (with_max_write v c).
Proof. intros [] ?. solve_wf. Qed.
Lemma with_max_readahead_wf v c :
  config_wf c → 0 ≤ v ≤ max_max_readahead c → config_wf (with_max_readahead v c).
Proof. intros [] ?. solve_wf. Qed.
Lemma with_max_background_wf v c :
  config_wf c → 1 ≤ v < 2 ^ 16 → config_wf (with_max_background v c).
Proof. intros [] ?. solve_wf. Qed.
Lemma with_congestion_threshold_wf v c :
  config_wf c → 1 ≤ v < 2 ^ 16 → config_wf (with_congestion_threshold (Some v) c).
Proof. intros [] ?. solve_wf. intros ? [= <-]. lia. Qed.
Lemma with_time_gran_wf v c :
  config_wf c → power_of_ten v → 0 ≤ subsec_nanos v < NANOS_PER_SEC →
  config_wf (with_time_gran v c).
Proof. intros [] ? ?. solve_wf. Qed.
Lemma with_requested_wf v c :
  config_wf c → 0 ≤ v < 2 ^ 32 → config_wf (with_requested (Z.lor (requested c) v) c).
Proof. intros [] ?. solve_wf. apply lor_bounds; lia. Qed.

Lemma KernelConfig_add_capabilities_ok v c :
  config_wf c → 0 ≤ v < 2 ^ 32 →
  KernelConfig_add_capabilities v c =
    Ret (if decide (Z.land v (capabilities c) ≠ v)
         then (inr (v - Z.land v (capabilities c)), c)
         else (inl tt, with_requested (Z.lor (requested c) v) c)).
Proof.
  intros [Hcap _ _ _ _ _ _ _] Hv. unfold KernelConfig_add_capabilities. case_decide; [|done].
  pose proof (land_le v (capabilities c) ltac:(lia) ltac:(lia)).
  pose proof (land_bounds v (capabilities c) 32 ltac:(lia) Hv ltac:(lia)).
  by rewrite usub_small by lia.
Qed.

#[local] Arguments KernelConfig_set_time_granularity : simpl never.
#[local] Arguments KernelConfig_add_capabilities : simpl never.

(** The suggestion after an error: it passes the guards, and what the setter
    then does is [wf]. *)
Ltac suggests wf :=
  split; [done|]; split; [done|]; split; [unfold MAX_WRITE_SIZE; lia|];
  unfold KernelConfig_set_max_write, KernelConfig_set_max_readahead;
  rewrite ?decide_False by (unfold MAX_WRITE_SIZE in *; lia);
  eexists; split; [reflexivity|]; apply wf; [done|unfold MAX_WRITE_SIZE; lia].

(** The settings a file system negotiates stay within what the protocol
    allows: every call of a setter, with any arguments, returns, keeps the
    invariant of the configuration, and either succeeds or leaves the
    configuration unchanged and suggests a value with which the same call
    succeeds. *)
Theorem KernelConfig_setters s c :
  config_wf c → 1 ≤ max_max_readahead c → setter_typed s →
  ∃ r c', run_setter s c = Some (Ret (r, c')) ∧ config_wf c' ∧
    match r with
    | None => True
    | Some s' => c' = c ∧ setter_typed s' ∧
        ∃ c'', run_setter s' c = Some (Ret (None, c'')) ∧ config_wf c''
    end.
Proof.
  intros Hwf Hm Hty. destruct s as [v|v|v|v|v|v]; simpl in Hty; simpl.
  - destruct Hty as [Hs Hn].
    destruct (set_time_granularity_spec v c Hs Hn) as [[Hp ->]|(_ & v' & Hp & Hs' & Hn' & ->)];
      simpl; (eexists _, _; split; [done|]); (split; [done || by apply with_time_gran_wf|]); [done|].
    simpl. split; [done|]. split; [done|].
    destruct (set_time_granularity_spec v' c Hs' Hn') as [[_ ->]|[Hnp _]]; [|done].
    simpl. eexists; split; [done|]. by apply with_time_gran_wf.
  - unfold KernelConfig_set_max_write.
    case_decide; [|case_decide]; (eexists _, _; split; [done|]); simpl.
    + suggests with_max_write_wf.
    + suggests with_max_write_wf.
    + split; [apply with_max_write_wf; [done|lia]|done].
  - unfold KernelConfig_set_max_readahead. pose proof (wf_max_max_readahead c Hwf).
    case_decide; [|case_decide]; (eexists _, _; split; [done|]); simpl.
    + suggests with_max_readahead_wf.
    + suggests with_max_readahead_wf.
    + split; [apply with_max_readahead_wf; [done|lia]|done].
  - unfold KernelConfig_set_max_background.
    case_decide; (eexists _, _; split; [done|]); simpl.
    + suggests with_max_background_wf.
    + split; [apply with_max_background_wf; [done|lia]|done].
  - unfold KernelConfig_set_congestion_threshold.
    case_decide; (eexists _, _; split; [done|]); simpl.
    + suggests with_congestion_threshold_wf.
    + split; [apply with_congestion_threshold_wf; [done|lia]|done].
  - rewrite KernelConfig_add_capabilities_ok by done. case_decide; simpl.
    + eexists _, _; split; [done|]. split; [done|]. split; [done|].
      replace (v - (v - Z.land v (capabilities c))) with (Z.land v (capabilities c)) by lia.
      pose proof (wf_capabilities c Hwf).
      pose proof (land_bounds v (capabilities c) 32 ltac:(lia) Hty ltac:(lia)).
      split; [done|]. simpl. rewrite KernelConfig_add_capabilities_ok by done.
      rewrite decide_False by (rewrite <-Z.land_assoc, Z.land_diag; auto).
      eexists; split; [done|]. by apply with_requested_wf.
    + eexists _, _; split; [done|]. split; [by apply with_requested_wf|done].
Qed.

(** ** What a file system negotiates

    The calls its [init] makes, one after the other, on what the kernel offered. *)

Fixpoint run_setters (ss : list setter) (c : KernelConfig) : option (outcome KernelConfig) :=
  match ss with
  | [] => Some (Ret c)
  | s :: ss =>
      match run_setter s c with
      | Some (Ret (_, c)) => run_setters ss c
      | Some Panic => Some Panic
      | Some UB => Some UB
      | None => None
      end
  end.

Lemma KernelConfig_new_wf caps readahead :
  0 ≤ caps < 2 ^ 32 → 0 ≤ readahead < 2 ^ 32 → config_wf (KernelConfig_new caps readahead).
Proof.
  intros Hc Hr. split; simpl; try done; try (unfold MAX_WRITE_SIZE; lia).
  - unfold default_init_flags. case_match; by split.
  - split; [by exists 0|done].
Qed.

Lemma run_setter_offered s c r c' :
  run_setter s c = Some (Ret (r, c')) →
  capabilities c' = capabilities c ∧ max_max_readahead c' = max_max_readahead c.
Proof.
  destruct s as [v|v|v|v|v|v]; cbn [run_setter]; intros Hr.
  - apply fmap_Some in Hr as ([r' c0] & Hr & [= -> ->]). revert Hr.
    unfold KernelConfig_set_time_granularity. do 2 (case_decide; [by intros [= <- <-]|]).
    intros (loop & _ & Hl)%bind_Some. simplify_eq. by destruct loop; simplify_eq/=.
  - unfold KernelConfig_set_max_write in Hr. by repeat case_decide; simplify_eq/=.
  - unfold KernelConfig_set_max_readahead in Hr. by repeat case_decide; simplify_eq/=.
  - unfold KernelConfig_set_max_background in Hr. by repeat case_decide; simplify_eq/=.
  - unfold KernelConfig_set_congestion_threshold in Hr. by repeat case_decide; simplify_eq/=.
  - unfold KernelConfig_add_capabilities in Hr. case_decide; [|by simplify_eq/=].
    by destruct (usub 32 _ _); simplify_eq/=.
Qed.

Lemma run_setters_ok ss c :
  config_wf c → 1 ≤ max_max_readahead c → Forall setter_typed ss →
  ∃ c', run_setters ss c = Some (Ret c') ∧ config_wf c' ∧
    capabilities c' = capabilities c ∧ max_max_readahead c' = max_max_readahead c.
Proof.
  intros Hwf Hm Hss. revert c Hwf Hm. induction Hss as [|s ss Hs _ IH]; intros c Hwf Hm; [by exists c|].
  destruct (KernelConfig_setters s c Hwf Hm Hs) as (r & c1 & Hr & Hwf1 & _).
  destruct (run_setter_offered _ _ _ _ Hr) as [Hc1 Hm1].
  destruct (IH c1 Hwf1 ltac:(lia)) as (c' & Hc' & ? & ? & ?).
  exists c'. cbn [run_setters]. rewrite Hr, Hc'. split_and!; [done|done| |]; congruence.
Qed.

(** ** What the reply says *)

Lemma congestion_threshold_bound c :
  config_wf c → 0 ≤ KernelConfig_congestion_threshold c ≤ max_background c.
Proof.
  intros [_ _ _ _ Hbg Hct _ _]. unfold KernelConfig_congestion_threshold.
  destruct (congestion_threshold c) as [v|].
  - specialize (Hct v eq_refl). lia.
  - assert (0 ≤ max_background c * 3 / 4 ≤ max_background c).
    { Z.to_euclidean_division_equations. lia. }
    rewrite wrap_small by lia. lia.
Qed.

(** The [max_pages] of the INIT reply covers the largest write and the
    largest readahead without a page to spare, unless that takes more than 65535
    pages; then the 16-bit conversion drops bits, and at 65536 pages a debug
    build panics. *)
Lemma KernelConfig_max_pages_covers page_size c :
  config_wf c → 0 < page_size < 2 ^ 32 →
  let most := Z.max (max_write c) (max_readahead c) in
  let pages := (most - 1) / page_size + 1 in
  (pages < 2 ^ 16 → KernelConfig_max_pages page_size c = Ret pages ∧
     (pages - 1) * page_size < most ≤ pages * page_size) ∧
  (pages = 2 ^ 16 →
     KernelConfig_max_pages page_size c = if debug_assertions then Panic else Ret 0).
Proof.
  intros [_ _ Hra Hmra _ _ Hmw _] Hp. cbv zeta. unfold MAX_WRITE_SIZE in *.
  set (most := Z.max (max_write c) (max_readahead c)).
  assert (1 ≤ most < 2 ^ 32) as Hmost by (unfold most; lia).
  assert (0 ≤ (most - 1) / page_size) as Hq by (apply Z.div_pos; lia).
  unfold KernelConfig_max_pages. fold most. rewrite usub_small by lia. simpl.
  rewrite (wrap_small 32) by lia. rewrite decide_False by lia. split.
  - intros Hlt. rewrite wrap_small by lia. rewrite uadd_small by lia. split; [done|].
    pose proof (Z.mul_div_le (most - 1) page_size ltac:(lia)).
    pose proof (Z.mul_succ_div_gt (most - 1) page_size ltac:(lia)). lia.
  - intros Heq. rewrite wrap_small by lia.
    replace ((most - 1) / page_size) with (2 ^ 16 - 1) by lia.
    unfold uadd, uarith. by rewrite decide_False by lia.
Qed.
End config.

(** ** Witnesses *)

Lemma default_config_wf : config_wf (KernelConfig_new 4194304 131072).
Proof.
  split; simpl; try (vm_compute; by split || lia); try done.
  split; [by exists 0|done].
Qed.

Lemma KernelConfig_setters_witness :
  ∃ r c', @run_setter true (SetTimeGranularity (MkDuration 0 35)) (KernelConfig_new 4194304 131072)
    = Some (Ret (r, c')) ∧ r = Some (SetTimeGranularity (MkDuration 0 10)).
Proof.
  destruct (@KernelConfig_setters true (SetTimeGranularity (MkDuration 0 35))
    (KernelConfig_new 4194304 131072)) as (r & c' & Hr & _);
    [apply default_config_wf|done|vm_compute; by repeat split|].
  exists r, c'. split; [exact Hr|]. vm_compute in Hr. by injection Hr as <- _.
Defined.

(** The suggestion of [set_time_granularity] is not the nearest power of ten. *)
Example set_time_granularity_not_nearest c :
  KernelConfig_set_time_granularity (MkDuration 0 9) c = Some (inr (MkDuration 0 1), c).
Proof. reflexivity. Qed.
