(* ===== verification/Response.v ===== *)
(** * Response: the bytes sent back to the kernel

    [low_level/response.rs], the reply part of [low_level/file_meta.rs],
    [uring_fuse/file_meta.rs], [Init::reply] and [Destroy::reply] of op.rs, and
    the reply object of [reply/reply_raw.rs] that makes sure a request is answered
    once.  [x.as_bytes()] is the image of [x] under its layout; a [SmallVec] is the
    list of its elements. *)

From S2P Require Import Prelude Wire KernelInterface Time KernelConfig Operation.
From stdpp Require Import vector.

Local Open Scope Z_scope.

(** ** Constants of the crate libc *)

(** [FileType] of uring_fuse/file_meta.rs. *)
Inductive FileType : Type :=
  | NamedPipe | CharDevice | BlockDevice | Directory | RegularFile | Symlink | Socket.
#[export] Instance FileType_eq_dec : EqDecision FileType.
Proof. solve_decision. Defined.

Class Libc := { S_IFIFO : Z; S_IFCHR : Z; S_IFBLK : Z; S_IFDIR : Z; S_IFREG : Z;
  S_IFLNK : Z; S_IFSOCK : Z; EIO : Z; ENOSYS : Z; EACCES : Z; EPROTO : Z; ENOENT : Z;
  EINTR : Z; EAGAIN : Z; ENODEV : Z; page_size : Z }.

(** The type bits of a mode, [libc::S_IF*]. *)
Definition S_IF `{Libc} (kind : FileType) : Z :=
  match kind with
  | NamedPipe => S_IFIFO
  | CharDevice => S_IFCHR
  | BlockDevice => S_IFBLK
  | Directory => S_IFDIR
  | RegularFile => S_IFREG
  | Symlink => S_IFLNK
  | Socket => S_IFSOCK
  end.

(** What POSIX and Linux document: the type is in the four bits above the twelve
    permission bits and tells the types apart; error numbers are positive; a page
    is not empty. *)
Class LibcLaws (C : Libc) : Prop := {
  S_IF_bits kind : ∃ t, 0 ≤ t < 16 ∧ S_IF kind = Z.shiftl t 12;
  S_IF_inj : Inj (=) (=) S_IF;
  EIO_pos : 0 < EIO < 2 ^ 31;
  ENOSYS_pos : 0 < ENOSYS < 2 ^ 31;
  EACCES_pos : 0 < EACCES < 2 ^ 31;
  EPROTO_pos : 0 < EPROTO < 2 ^ 31;
  page_size_pos : 0 < page_size < 2 ^ 32 }.

(** Linux on x86-64, for the examples. *)
Definition linux : Libc := {|
  S_IFIFO := 4096; S_IFCHR := 8192; S_IFBLK := 24576; S_IFDIR := 16384;
  S_IFREG := 32768; S_IFLNK := 40960; S_IFSOCK := 49152; EIO := 5; ENOSYS := 38;
  EACCES := 13; EPROTO := 71; ENOENT := 2; EINTR := 4; EAGAIN := 11; ENODEV := 19;
  page_size := 4096 |}.
Lemma linux_laws : LibcLaws linux.
Proof.
  split; [|by intros [] []|done..].
  intros kind. exists (Z.shiftr (@S_IF linux kind) 12). by destruct kind.
Qed.

(** The constants the file systems use besides. *)
Class LibcFs := {
  S_IFMT : Z; S_ISUID : Z; S_ISGID : Z; S_ISVTX : Z;
  S_IXUSR : Z; S_IXGRP : Z; S_IXOTH : Z;
  F_OK : Z; R_OK : Z; W_OK : Z; X_OK : Z;
  O_ACCMODE : Z; O_RDONLY : Z; O_WRONLY : Z; O_RDWR : Z; O_TRUNC : Z;
  RENAME_EXCHANGE : Z; FALLOC_FL_KEEP_SIZE : Z;
  EPERM : Z; ENOTSUP : Z; EEXIST : Z; EFBIG : Z; ENAMETOOLONG : Z; EINVAL : Z;
  EBADF : Z; ERANGE : Z; ENODATA : Z; ENOTEMPTY : Z }.

(** What inode(7), access(2) and open(2) document: the bits of a mode, the bits of
    an access mask, and that the access modes are told apart by [O_ACCMODE]. *)
Class LibcFsLaws (C : Libc) (F : LibcFs) : Prop := {
  S_IFMT_value : S_IFMT = 61440;
  S_ISUID_value : S_ISUID = 2048;
  S_ISGID_value : S_ISGID = 1024;
  S_IX_values : S_IXUSR = 64 ∧ S_IXGRP = 8 ∧ S_IXOTH = 1;
  F_OK_value : F_OK = 0;
  R_OK_value : R_OK = 4;
  W_OK_value : W_OK = 2;
  X_OK_value : X_OK = 1;
  O_modes : NoDup [O_RDONLY; O_WRONLY; O_RDWR] }.

(** Linux on x86-64, for the examples. *)
Definition linux_fs : LibcFs := {|
  S_IFMT := 61440; S_ISUID := 2048; S_ISGID := 1024; S_ISVTX := 512;
  S_IXUSR := 64; S_IXGRP := 8; S_IXOTH := 1;
  F_OK := 0; R_OK := 4; W_OK := 2; X_OK := 1;
  O_ACCMODE := 3; O_RDONLY := 0; O_WRONLY := 1; O_RDWR := 2; O_TRUNC := 512;
  RENAME_EXCHANGE := 2; FALLOC_FL_KEEP_SIZE := 1;
  EPERM := 1; ENOTSUP := 95; EEXIST := 17; EFBIG := 27; ENAMETOOLONG := 36; EINVAL := 22;
  EBADF := 9; ERANGE := 34; ENODATA := 61; ENOTEMPTY := 39 |}.
Lemma linux_fs_laws : LibcFsLaws linux linux_fs.
Proof. split; try done. by repeat constructor; set_solver. Qed.

(** ** File attributes *)

Record FileAttr : Type := MkFileAttr {
  attr_ino' : Z; attr_size' : Z; attr_blocks' : Z;
  attr_atime' : SystemTime; attr_mtime' : SystemTime; attr_ctime' : SystemTime;
  attr_crtime' : SystemTime; attr_kind : FileType; attr_perm : Z;
  attr_nlink' : Z; attr_uid' : Z; attr_gid' : Z; attr_rdev' : Z; attr_blksize' : Z;
  attr_flags' : Z }.

(** [struct Attr { attr: fuse_attr }]. *)
Record Attr : Type := MkAttr { the_attr : fuse_attr }.

Definition mode_from_kind_and_perm `{Libc} (kind : FileType) (perm : Z) : Z :=
  Z.lor (S_IF kind) perm.

Definition fuse_attr_from_attr `{Libc, Build} (attr : FileAttr) : outcome fuse_attr :=
  '(atime_secs, atime_nanos) ← time_from_system_time (attr_atime' attr);
  '(mtime_secs, mtime_nanos) ← time_from_system_time (attr_mtime' attr);
  '(ctime_secs, ctime_nanos) ← time_from_system_time (attr_ctime' attr);
  Ret {|
    attr_ino := attr_ino' attr;
    attr_size := attr_size' attr;
    attr_blocks := attr_blocks' attr;
    attr_atime := atime_secs;
    attr_mtime := mtime_secs;
    attr_ctime := ctime_secs;
    attr_atimensec := atime_nanos;
    attr_mtimensec := mtime_nanos;
    attr_ctimensec := ctime_nanos;
    attr_mode := mode_from_kind_and_perm (attr_kind attr) (attr_perm attr);
    attr_nlink := attr_nlink' attr;
    attr_uid := attr_uid' attr;
    attr_gid := attr_gid' attr;
    attr_rdev := attr_rdev' attr;
    attr_blksize := attr_blksize' attr;
    attr_padding := 0 |}.

(** [impl From<&FileAttr> for Attr]. *)
Definition Attr_from `{Libc, Build} (attr : FileAttr) : outcome Attr :=
  MkAttr <$> fuse_attr_from_attr attr.

(** ** Directory listings *)

Record EntListBuf : Type := MkEntListBuf { max_size : Z; buf : list Z }.

Definition EntListBuf_new (max_size : Z) : EntListBuf := MkEntListBuf max_size [].

(** Lengths are [usize]; those of two slices and 7 do not overflow it. *)
Definition EntListBuf_push (ent0 ent1 : list Z) (b : EntListBuf) : outcome (bool * EntListBuf) :=
  let entlen := Z.of_nat (length ent0) + Z.of_nat (length ent1) in
  let entsize := Z.ldiff (entlen + 8 - 1) (8 - 1) in
  if decide (Z.of_nat (length (buf b)) + entsize > max_size b) then Ret (true, b)
  else
    let padlen := entsize - entlen in
    if decide (padlen ≤ 8) then
      Ret (false, MkEntListBuf (max_size b)
        (buf b ++ ent0 ++ ent1 ++ replicate (Z.to_nat padlen) 0))
    else Panic.

Record DirEntry : Type := MkDirEntry {
  dirent_entry_ino : Z; dirent_entry_offset : Z; dirent_entry_kind : FileType;
  dirent_entry_name : Path }.

(** [try_into().expect("Name too long")]. *)
Definition name_len (name : Path) : outcome Z :=
  if decide (Z.of_nat (length name) < 2 ^ 32) then Ret (Z.of_nat (length name)) else Panic.

Definition DirEntList_new (max_size : Z) : EntListBuf := EntListBuf_new max_size.

Definition DirEntList_push `{Libc} (ent : DirEntry) (l : EntListBuf)
    : outcome (bool * EntListBuf) :=
  let name := dirent_entry_name ent in
  namelen ← name_len name;
  let header := {|
    dirent_ino := dirent_entry_ino ent;
    dirent_off := dirent_entry_offset ent;
    dirent_namelen := namelen;
    dirent_typ := Z.shiftr (mode_from_kind_and_perm (dirent_entry_kind ent) 0) 12 |} in
  EntListBuf_push (encode fuse_dirent_layout header) name l.

Record DirEntryPlus : Type := MkDirEntryPlus {
  plus_ino : Z; plus_generation : Z; plus_offset : Z; plus_name : Path;
  plus_entry_valid : Duration; plus_attr : Attr; plus_attr_valid : Duration }.

Definition DirEntPlusList_new (max_size : Z) : EntListBuf := EntListBuf_new max_size.

Definition DirEntPlusList_push (x : DirEntryPlus) (l : EntListBuf)
    : outcome (bool * EntListBuf) :=
  let name := plus_name x in
  let attr := the_attr (plus_attr x) in
  namelen ← name_len name;
  let header := {|
    direntplus_entry_out := {|
      entry_out_nodeid := attr_ino attr;
      entry_out_generation := plus_generation x;
      entry_out_entry_valid := as_secs (plus_entry_valid x);
      entry_out_attr_valid := as_secs (plus_attr_valid x);
      entry_out_entry_valid_nsec := subsec_nanos (plus_entry_valid x);
      entry_out_attr_valid_nsec := subsec_nanos (plus_attr_valid x);
      entry_out_attr := attr |};
    direntplus_dirent := {|
      dirent_ino := attr_ino attr;
      dirent_off := plus_offset x;
      dirent_namelen := namelen;
      dirent_typ := Z.shiftr (attr_mode attr) 12 |} |} in
  EntListBuf_push (encode fuse_direntplus_layout header) name l.

(** ** [Response] *)

Inductive Response : Type :=
  | Response_Error (errno : Z)
  | Response_Data (v : list Z)
  | Response_Slice (d : list Z).

(** [Errno] wraps a non-zero [i32]; [from_i32] turns 0 into [EIO]. *)
Definition Errno : Type := Z.
Definition Errno_from_i32 `{Libc} (err : Z) : Errno := if decide (err = 0) then EIO else err.

Definition i32_neg `{Build} (z : Z) : outcome Z :=
  if decide (z = - 2 ^ 31) then if debug_assertions then Panic else Ret z else Ret (- z).

Definition Response_datalen (r : Response) : Z :=
  match r with
  | Response_Error _ => 0
  | Response_Data v => Z.of_nat (length v)
  | Response_Slice d => Z.of_nat (length d)
  end.

(** The io vector handed to the callback. *)
Definition Response_with_iovec `{Build} (r : Response) (unique : Z) : outcome (list (list Z)) :=
  error ← match r with Response_Error errno => i32_neg errno | _ => Ret 0 end;
  let len := Z.of_nat (size_of fuse_out_header_layout) + Response_datalen r in
  len ← (if decide (len < 2 ^ 32) then Ret len else Panic);
  let header := Mk_fuse_out_header len error unique in
  Ret (encode fuse_out_header_layout header ::
       match r with
       | Response_Error _ => []
       | Response_Data d => [d]
       | Response_Slice d => [d]
       end).

Definition Response_new_empty : Response := Response_Error 0.
Definition Response_new_error (error : Errno) : Response := Response_Error error.
Definition Response_new_data (data : list Z) : Response := Response_Data data.
Definition Response_new_slice (data : list Z) : Response := Response_Slice data.
Definition Response_from_struct {A} (c : codec A) (data : A) : Response :=
  Response_Data (encode c data).

Definition Response_new_entry (ino generation : Z) (attr : Attr) (attr_ttl entry_ttl : Duration)
    : Response :=
  Response_from_struct fuse_entry_out_layout {|
    entry_out_nodeid := ino;
    entry_out_generation := generation;
    entry_out_entry_valid := as_secs entry_ttl;
    entry_out_attr_valid := as_secs attr_ttl;
    entry_out_entry_valid_nsec := subsec_nanos entry_ttl;
    entry_out_attr_valid_nsec := subsec_nanos attr_ttl;
    entry_out_attr := the_attr attr |}.
Definition Response_new_attr (ttl : Duration) (attr : Attr) : Response :=
  Response_from_struct fuse_attr_out_layout {|
    attr_out_attr_valid := as_secs ttl;
    attr_out_attr_valid_nsec := subsec_nanos ttl;
    attr_out_dummy := 0;
    attr_out_attr := the_attr attr |}.
Definition Response_new_open (file_handle flags : Z) : Response :=
  Response_from_struct fuse_open_out_layout (Mk_fuse_open_out file_handle flags 0).
Definition Response_new_lock (lock : Lock) : Response :=
  Response_from_struct fuse_lk_out_layout (Mk_fuse_lk_out
    (Mk_fuse_file_lock (lock_range lock).1 (lock_range lock).2 (lock_typ lock) (lock_pid lock))).
Definition Response_new_bmap (block : Z) : Response :=
  Response_from_struct fuse_bmap_out_layout (Mk_fuse_bmap_out block).
Definition Response_new_write (written : Z) : Response :=
  Response_from_struct fuse_write_out_layout (Mk_fuse_write_out written 0).
Definition Response_new_statfs (blocks bfree bavail files ffree bsize namelen frsize : Z)
    : Response :=
  Response_from_struct fuse_statfs_out_layout (Mk_fuse_statfs_out
    (Mk_fuse_kstatfs blocks bfree bavail files ffree bsize namelen frsize 0
       (vreplicate 6 0))).
Definition Response_new_create (ttl : Duration) (attr : Attr)
    (generation file_handle flags : Z) : Response :=
  Response_from_struct fuse_create_out_layout (Mk_fuse_create_out
    {| entry_out_nodeid := attr_ino (the_attr attr);
       entry_out_generation := generation;
       entry_out_entry_valid := as_secs ttl;
       entry_out_attr_valid := as_secs ttl;
       entry_out_entry_valid_nsec := subsec_nanos ttl;
       entry_out_attr_valid_nsec := subsec_nanos ttl;
       entry_out_attr := the_attr attr |}
    (Mk_fuse_open_out file_handle flags 0)).
Definition Response_new_ioctl (result : Z) (data : list (list Z)) : Response :=
  let r := Mk_fuse_ioctl_out result 0 1 (if decide (data = []) then 0 else 1) in
  Response_Data (encode fuse_ioctl_out_layout r ++ concat data).
Definition Response_new_directory (list : EntListBuf) : outcome Response :=
  assert_ (Z.of_nat (length (buf list)) <=? max_size list);;
  Ret (Response_Data (buf list)).
Definition Response_new_xattr_size (size : Z) : Response :=
  Response_from_struct fuse_getxattr_out_layout (Mk_fuse_getxattr_out size 0).
Definition Response_new_lseek (offset : Z) : Response :=
  Response_from_struct fuse_lseek_out_layout (Mk_fuse_lseek_out offset).

(** [From<DirEntList> for Response], [From<DirEntPlusList> for Response]. *)
Definition Response_from_DirEntList (l : EntListBuf) : outcome Response :=
  assert_ (Z.of_nat (length (buf l)) <=? max_size l);; Response_new_directory l.
Definition Response_from_DirEntPlusList (l : EntListBuf) : outcome Response :=
  assert_ (Z.of_nat (length (buf l)) <=? max_size l);; Response_new_directory l.

(** [Init::reply], [Destroy::reply]. *)
Definition Init_reply `{Libc, Build} (x : Init) (config : KernelConfig) : outcome Response :=
  pages ← KernelConfig_max_pages page_size config;
  let init := {|
    init_out_major := FUSE_KERNEL_VERSION;
    init_out_minor := FUSE_KERNEL_MINOR_VERSION;
    init_out_max_readahead := max_readahead config;
    init_out_flags := Z.land (Init_capabilities x) (requested config);
    init_out_max_background := max_background config;
    init_out_congestion_threshold := KernelConfig_congestion_threshold config;
    init_out_max_write := max_write config;
    init_out_time_gran := wrap 32 (Duration_as_nanos (time_gran config));
    init_out_max_pages := pages;
    init_out_unused2 := 0;
    init_out_reserved := vreplicate 8 0 |} in
  Ret (Response_new_data (encode fuse_init_out_layout init)).
Definition Destroy_reply (x : Destroy) : Response := Response_new_empty.

(** ** [ReplyRaw]

    The object a file system answers a request through.  Its sender is taken when
    a response is sent; what was handed to the channel is the list of messages,
    each the pieces of one [writev]. *)

Record ReplyRaw : Type := MkReplyRaw { reply_unique : Z; sender : bool }.
Abbreviation sentM := (stateM (list (list (list Z)))).

Definition ReplyRaw_new (unique : Z) : ReplyRaw := MkReplyRaw unique true.

Section reply.
Context `{C : Libc, B : Build}.

(** The reply with its sender taken; a failure of the channel is only logged. *)
Definition ReplyRaw_send_ll_mut (r : ReplyRaw) (response : Response) : sentM ReplyRaw :=
  lift (assert_ (sender r));;
  iov ← lift (Response_with_iovec response (reply_unique r));
  modify (λ sent, sent ++ [iov]);;
  mret (MkReplyRaw (reply_unique r) false).

Definition ReplyRaw_drop (r : ReplyRaw) : sentM unit :=
  if sender r then ReplyRaw_send_ll_mut r (Response_new_error EIO);; mret tt else mret tt.

(** [send_ll] and [error] consume the reply, which is dropped when they
    return. *)
Definition ReplyRaw_send_ll (r : ReplyRaw) (response : Response) : sentM unit :=
  r ← ReplyRaw_send_ll_mut r response; ReplyRaw_drop r.

(** [assert_ne!] unwinds through [self], whose drop runs before the panic goes
    on: [true] is a panic. *)
Definition ReplyRaw_error (r : ReplyRaw) (err : Z) : sentM bool :=
  if decide (err = 0) then ReplyRaw_drop r;; mret true
  else ReplyRaw_send_ll r (Response_new_error (Errno_from_i32 err));; mret false.
End reply.

(** ** What the kernel reads *)

(** The kernel's side of a reply: a header whose length is that of the whole
    message; the request it answers, the error and the payload. *)
Definition kernel_reads (msg : list Z) : option (Z * Z * list Z) :=
  if decide (16 ≤ length msg)%nat then
    let header := decode fuse_out_header_layout (take 16 msg) in
    if decide (out_header_len header = Z.of_nat (length msg))
    then Some (out_header_unique header, out_header_error header, drop 16 msg)
    else None
  else None.

Definition Response_payload (r : Response) : list Z :=
  match r with Response_Error _ => [] | Response_Data v => v | Response_Slice d => d end.
Definition Response_errno (r : Response) : Z :=
  match r with Response_Error e => e | _ => 0 end.

Lemma Response_datalen_payload r : Response_datalen r = Z.of_nat (length (Response_payload r)).
Proof. by destruct r. Qed.

Lemma out_header_length h : length (encode fuse_out_header_layout h) = 16%nat.
Proof. exact (encode_length (c := fuse_out_header_layout) h). Qed.

Lemma kernel_reads_app len error unique payload :
  len = 16 + Z.of_nat (length payload) → len < 2 ^ 32 →
  - 2 ^ 31 ≤ error < 2 ^ 31 → 0 ≤ unique < 2 ^ 64 →
  kernel_reads (encode fuse_out_header_layout (Mk_fuse_out_header len error unique) ++ payload)
  = Some (unique, error, payload).
Proof.
  intros Hl Hlen He Hu. unfold kernel_reads.
  pose proof (out_header_length (Mk_fuse_out_header len error unique)) as Hh.
  rewrite length_app, Hh. rewrite decide_True by lia.
  rewrite take_app_length', drop_app_length' by done.
  rewrite decode_encode by (split; [split|]; simpl; lia).
  cbv zeta. simpl. rewrite decide_True by lia. done.
Qed.

(** The header written before a response is the one the kernel expects: the
    length of the whole message, the negated error number and the id of the
    request, so that the kernel reads back exactly this answer; and the only
    responses that panic are those whose message has 4 GiB or more. *)
Lemma with_iovec_round_trip `{B : Build} r unique :
  - 2 ^ 31 < Response_errno r < 2 ^ 31 → 0 ≤ unique < 2 ^ 64 →
  (16 + Z.of_nat (length (Response_payload r)) < 2 ^ 32 →
   ∃ iov, Response_with_iovec r unique = Ret iov ∧
     kernel_reads (concat iov) = Some (unique, - Response_errno r, Response_payload r)) ∧
  (2 ^ 32 ≤ 16 + Z.of_nat (length (Response_payload r)) →
   Response_with_iovec r unique = Panic).
Proof.
  intros He Hu. unfold Response_with_iovec.
  assert ((match r with Response_Error errno => i32_neg errno | _ => Ret 0 end)
    = Ret (- Response_errno r)) as ->.
  { destruct r; simpl in *; [|done..]. unfold i32_neg. by rewrite decide_False by lia. }
  rewrite Response_datalen_payload. change (Z.of_nat (size_of fuse_out_header_layout)) with 16.
  split; intros Hlen; cbn [mbind outcome_bind].
  - rewrite decide_True by done. cbn [mbind outcome_bind]. eexists; split; [done|].
    replace (concat _) with (encode fuse_out_header_layout (Mk_fuse_out_header
      (16 + Z.of_nat (length (Response_payload r))) (- Response_errno r) unique)
      ++ Response_payload r) by (by destruct r; cbn [concat Response_payload]; rewrite ?app_nil_r).
    apply kernel_reads_app; lia.
  - by rewrite decide_False by lia.
Qed.

(** ** Every request is answered once *)

(** What a file system can do with a reply object. *)
Inductive reply_use : Type :=
  | UseSend (response : Response)
  | UseError (err : Z)
  | UseDrop.

Section use.
Context `{C : Libc, !LibcLaws C, B : Build}.

Definition run_use (u : reply_use) (r : ReplyRaw) : sentM bool :=
  match u with
  | UseSend response => ReplyRaw_send_ll r response;; mret false
  | UseError err => ReplyRaw_error r err
  | UseDrop => ReplyRaw_drop r;; mret false
  end.

(** The answer the kernel gets. *)
Definition use_answer (u : reply_use) : Z * list Z :=
  match u with
  | UseSend response => (- Response_errno response, Response_payload response)
  | UseError err => (- (if decide (err = 0) then EIO else err), [])
  | UseDrop => (- EIO, [])
  end.
Definition use_typed (u : reply_use) : Prop :=
  match u with
  | UseSend response => - 2 ^ 31 < Response_errno response < 2 ^ 31 ∧
      16 + Z.of_nat (length (Response_payload response)) < 2 ^ 32
  | UseError err => - 2 ^ 31 < err < 2 ^ 31
  | UseDrop => True
  end.

Lemma send_ll_mut_sends unique response sent :
  - 2 ^ 31 < Response_errno response < 2 ^ 31 → 0 ≤ unique < 2 ^ 64 →
  16 + Z.of_nat (length (Response_payload response)) < 2 ^ 32 →
  ∃ iov, ReplyRaw_send_ll_mut (MkReplyRaw unique true) response sent
      = Ret (MkReplyRaw unique false, sent ++ [iov]) ∧
    kernel_reads (concat iov)
      = Some (unique, - Response_errno response, Response_payload response).
Proof.
  intros He Hu Hl.
  destruct (with_iovec_round_trip response unique He Hu) as [(iov & Hi & Hk) _]; [done|].
  exists iov. split; [|done]. unfold ReplyRaw_send_ll_mut. cbn [sender reply_unique].
  rewrite Hi. reflexivity.
Qed.

Lemma drop_sends unique sent :
  0 ≤ unique < 2 ^ 64 →
  ∃ iov, ReplyRaw_drop (MkReplyRaw unique true) sent = Ret (tt, sent ++ [iov]) ∧
    kernel_reads (concat iov) = Some (unique, - EIO, []).
Proof.
  intros Hu. pose proof EIO_pos.
  destruct (send_ll_mut_sends unique (Response_new_error EIO) sent) as (iov & Hi & Hk);
    [simpl; lia|done|simpl; lia|].
  exists iov. split; [|done]. unfold ReplyRaw_drop. cbn [sender].
  by rewrite (bindM_eq _ _ _ _ _ Hi).
Qed.
Lemma send_ll_sends unique response sent :
  - 2 ^ 31 < Response_errno response < 2 ^ 31 → 0 ≤ unique < 2 ^ 64 →
  16 + Z.of_nat (length (Response_payload response)) < 2 ^ 32 →
  ∃ iov, ReplyRaw_send_ll (MkReplyRaw unique true) response sent = Ret (tt, sent ++ [iov]) ∧
    kernel_reads (concat iov)
      = Some (unique, - Response_errno response, Response_payload response).
Proof.
  intros He Hu Hl.
  destruct (send_ll_mut_sends unique response sent He Hu Hl) as (iov & Hi & Hk).
  exists iov. split; [|done]. unfold ReplyRaw_send_ll. by rewrite (bindM_eq _ _ _ _ _ Hi).
Qed.

Lemma error_sends unique err sent :
  0 ≤ unique < 2 ^ 64 → - 2 ^ 31 < err < 2 ^ 31 →
  ∃ iov, ReplyRaw_error (MkReplyRaw unique true) err sent = Ret (err =? 0, sent ++ [iov]) ∧
    kernel_reads (concat iov) = Some (unique, - (if decide (err = 0) then EIO else err), []).
Proof.
  intros Hu He. unfold ReplyRaw_error. case_decide as H0.
  - destruct (drop_sends unique sent Hu) as (iov & Hi & Hk). subst.
    exists iov. by rewrite (bindM_eq _ _ _ _ _ Hi).
  - unfold Errno_from_i32. rewrite decide_False by done.
    destruct (send_ll_sends unique (Response_new_error err) sent) as (iov & Hi & Hk);
      [done|done|simpl; lia|].
    exists iov. rewrite (bindM_eq _ _ _ _ _ Hi). by rewrite (proj2 (Z.eqb_neq err 0)).
Qed.

(** C25: A reply object answers its request exactly once, whatever the file
    system does with it: a response, an error, the forbidden error 0, or dropping
    it without an answer puts exactly one message on the channel, which the
    kernel reads as that answer, an I/O error in the last two cases. *)
Theorem reply_exactly_once unique u sent :
  0 ≤ unique < 2 ^ 64 → use_typed u →
  ∃ panicked iov,
    run_use u (ReplyRaw_new unique) sent = Ret (panicked, sent ++ [iov]) ∧
    kernel_reads (concat iov) = Some (unique, (use_answer u).1, (use_answer u).2) ∧
    (panicked = true ↔ u = UseError 0).
Proof.
  intros Hu Ht. unfold ReplyRaw_new. destruct u as [response|err|]; simpl in *.
  - destruct Ht as [He Hl].
    destruct (send_ll_sends unique response sent He Hu Hl) as (iov & Hi & Hk).
    exists false, iov. by rewrite (bindM_eq _ _ _ _ _ Hi).
  - destruct (error_sends unique err sent Hu Ht) as (iov & Hi & Hk).
    exists (err =? 0), iov. split_and!; [done..|]. rewrite Z.eqb_eq. naive_solver.
  - destruct (drop_sends unique sent Hu) as (iov & Hi & Hk).
    exists false, iov. by rewrite (bindM_eq _ _ _ _ _ Hi).
Qed.
End use.

(** ** Directory listings, read back by the kernel *)

Lemma round_up_8 n : Z.ldiff (n + 8 - 1) (8 - 1) = 8 * ((n + 7) / 8).
Proof.
  change (8 - 1) with (Z.ones 3). rewrite Z.ldiff_ones_r by lia.
  rewrite Z.shiftl_mul_pow2, Z.shiftr_div_pow2 by lia.
  change (2 ^ 3) with 8. replace (n + 8 - 1) with (n + 7) by lia. lia.
Qed.

(** The padding that brings a length to a multiple of 8. *)
Definition padding (n : nat) : list Z :=
  replicate (Z.to_nat (8 * ((Z.of_nat n + 7) / 8) - Z.of_nat n)) 0.
Definition padded (ent0 ent1 : list Z) : list Z :=
  ent0 ++ ent1 ++ padding (length ent0 + length ent1).

Lemma padding_length n :
  Z.of_nat (n + length (padding n)) = 8 * ((Z.of_nat n + 7) / 8).
Proof.
  unfold padding. rewrite length_replicate. Z.to_euclidean_division_equations. lia.
Qed.

Lemma EntListBuf_push_spec ent0 ent1 b :
  EntListBuf_push ent0 ent1 b =
    Ret (if decide (Z.of_nat (length (buf b ++ padded ent0 ent1)) ≤ max_size b)
         then (false, MkEntListBuf (max_size b) (buf b ++ padded ent0 ent1))
         else (true, b)).
Proof.
  unfold EntListBuf_push. rewrite round_up_8. unfold padded, padding.
  rewrite <-Nat2Z.inj_add. set (n := (length ent0 + length ent1)%nat).
  assert (Z.of_nat n ≤ 8 * ((Z.of_nat n + 7) / 8) ≤ Z.of_nat n + 7) as Hn.
  { Z.to_euclidean_division_equations. lia. }
  assert (Z.of_nat (length (buf b ++ ent0 ++ ent1 ++ replicate (Z.to_nat
    (8 * ((Z.of_nat n + 7) / 8) - Z.of_nat n)) 0))
    = Z.of_nat (length (buf b)) + 8 * ((Z.of_nat n + 7) / 8)) as ->.
  { rewrite !length_app, length_replicate. unfold n in *. lia. }
  case_decide; [by rewrite decide_False by lia|].
  rewrite (decide_True (P := _ ≤ max_size b)) by lia. by rewrite decide_True by lia.
Qed.

(** The kernel's walk over a READDIR reply ([fuse_dir_emit]): a header, the name,
    then the next multiple of 8. *)
Fixpoint parse_dirents (fuel : nat) (bs : list Z) : list (fuse_dirent * list Z) :=
  match fuel with
  | O => []
  | S fuel =>
      if decide (24 ≤ length bs)%nat then
        let d := decode fuse_dirent_layout (take 24 bs) in
        let n := Z.to_nat (dirent_namelen d) in
        if decide (24 + n ≤ length bs)%nat then
          (d, take n (drop 24 bs))
            :: parse_dirents fuel (drop (24 + n + length (padding (24 + n))) bs)
        else []
      else []
  end.

Section readdir.
Context `{C : Libc, !LibcLaws C}.

Definition entry_wf (e : DirEntry) : Prop :=
  0 ≤ dirent_entry_ino e < 2 ^ 64 ∧ - 2 ^ 63 ≤ dirent_entry_offset e < 2 ^ 63 ∧
  Z.of_nat (length (dirent_entry_name e)) < 2 ^ 32.

(** What the kernel should see of an entry. *)
Definition entry_header (e : DirEntry) : fuse_dirent := {|
  dirent_ino := dirent_entry_ino e;
  dirent_off := dirent_entry_offset e;
  dirent_namelen := Z.of_nat (length (dirent_entry_name e));
  dirent_typ := Z.shiftr (S_IF (dirent_entry_kind e)) 12 |}.
Definition entry_image (e : DirEntry) : list Z :=
  padded (encode fuse_dirent_layout (entry_header e)) (dirent_entry_name e).

(** Pushes the entries one by one; the flags it answers. *)
Fixpoint push_all (es : list DirEntry) (b : EntListBuf) : outcome (list bool * EntListBuf) :=
  match es with
  | [] => Ret ([], b)
  | e :: es =>
      '(full, b) ← DirEntList_push e b;
      '(fulls, b) ← push_all es b;
      Ret (full :: fulls, b)
  end.
(** The entries that were taken. *)
Fixpoint accepted (es : list DirEntry) (fulls : list bool) : list DirEntry :=
  match es, fulls with
  | e :: es, full :: fulls => (if full : bool then id else cons e) (accepted es fulls)
  | _, _ => []
  end.

Lemma DirEntList_push_spec e b :
  entry_wf e →
  DirEntList_push e b =
    Ret (if decide (Z.of_nat (length (buf b ++ entry_image e)) ≤ max_size b)
         then (false, MkEntListBuf (max_size b) (buf b ++ entry_image e))
         else (true, b)).
Proof.
  intros (_ & _ & Hn). unfold DirEntList_push, name_len. rewrite decide_True by done.
  unfold mode_from_kind_and_perm. rewrite Z.lor_0_r. apply EntListBuf_push_spec.
Qed.

Lemma entry_header_valid e : entry_wf e → valid fuse_dirent_layout (entry_header e).
Proof.
  intros (? & ? & ?). destruct (S_IF_bits (dirent_entry_kind e)) as (t & Ht & He).
  split; [split; [split|]|]; simpl; try lia.
  rewrite He, Z.shiftr_shiftl_l, Z.sub_diag, Z.shiftl_0_r by lia. lia.
Qed.

Lemma dirent_length h : length (encode fuse_dirent_layout h) = 24%nat.
Proof. exact (encode_length (c := fuse_dirent_layout) h). Qed.

Lemma parse_dirents_image fuel e rest :
  entry_wf e →
  parse_dirents (S fuel) (entry_image e ++ rest)
  = (entry_header e, dirent_entry_name e) :: parse_dirents fuel rest.
Proof.
  intros He. pose proof (dirent_length (entry_header e)) as Hh.
  unfold entry_image, padded. cbn [parse_dirents].
  set (name := dirent_entry_name e). set (pad := padding _). rewrite <-!app_assoc.
  rewrite decide_True by (rewrite length_app; lia).
  rewrite take_app_length', drop_app_length' by done.
  rewrite decode_encode by (by apply entry_header_valid).
  assert (Z.to_nat (dirent_namelen (entry_header e)) = length name) as -> by apply Nat2Z.id.
  rewrite decide_True by (rewrite !length_app; lia). rewrite take_app_length.
  f_equal. f_equal.
  rewrite !app_assoc, drop_app_length'; [done|].
  rewrite !length_app. subst pad. rewrite Hh. lia.
Qed.

Lemma push_all_spec es b taken :
  Forall entry_wf es →
  Forall entry_wf taken → buf b = concat (entry_image <$> taken) →
  Z.of_nat (length (buf b)) ≤ max_size b →
  ∃ fulls b', push_all es b = Ret (fulls, b') ∧
    length fulls = length es ∧
    max_size b' = max_size b ∧
    Z.of_nat (length (buf b')) ≤ max_size b ∧
    buf b' = concat (entry_image <$> taken ++ accepted es fulls) ∧
    Forall entry_wf (accepted es fulls).
Proof.
  intros Hes. revert b taken. induction Hes as [|e es He Hes IH]; intros b taken Ht Hb Hm.
  { exists [], b. rewrite app_nil_r. simpl. split_and!; done. }
  cbn [push_all]. rewrite DirEntList_push_spec by done. case_decide as Hfit; simpl.
  - destruct (IH (MkEntListBuf (max_size b) (buf b ++ entry_image e)) (taken ++ [e]))
      as (fulls & b' & Hp & Hl & Hmax & Hlen & Hbuf & Hacc).
    + apply Forall_app; auto.
    + simpl. rewrite Hb, fmap_app, concat_app. simpl. by rewrite app_nil_r.
    + done.
    + rewrite Hp. simpl in *. exists (false :: fulls), b'. rewrite <-app_assoc in Hbuf.
      split; [reflexivity|]. split; [exact (f_equal S Hl)|]. split; [exact Hmax|].
      split; [exact Hlen|]. split; [exact Hbuf|]. by constructor.
  - destruct (IH b taken Ht Hb Hm) as (fulls & b' & Hp & Hl & Hmax & Hlen & Hbuf & Hacc).
    rewrite Hp. simpl. exists (true :: fulls), b'.
    split; [reflexivity|]. split; [exact (f_equal S Hl)|]. auto.
Qed.

Lemma parse_dirents_concat es fuel :
  Forall entry_wf es → (length es ≤ fuel)%nat →
  parse_dirents fuel (concat (entry_image <$> es))
  = (λ e, (entry_header e, dirent_entry_name e)) <$> es.
Proof.
  intros Hes. revert fuel. induction Hes as [|e es He Hes IH]; intros fuel Hf.
  { by destruct fuel. }
  destruct fuel as [|fuel]; cbn [length] in Hf; [lia|].
  rewrite !fmap_cons. cbn [concat]. rewrite parse_dirents_image by done.
  f_equal. apply IH. lia.
Qed.

Lemma entry_image_length e : (1 ≤ length (entry_image e))%nat.
Proof. unfold entry_image, padded. rewrite length_app, dirent_length. lia. Qed.
Lemma concat_images_length es : (length es ≤ length (concat (entry_image <$> es)))%nat.
Proof.
  induction es as [|e es IH]; [cbn; lia|]. rewrite fmap_cons. cbn [concat length].
  rewrite length_app. pose proof (entry_image_length e). lia.
Qed.

(** C27: A READDIR reply fits the size the kernel asked for, and the kernel reads
    from it exactly the entries the file system added, in order, with their inode,
    offset, type and name: those for which [push] answered that the buffer is not
    full.  The listing is never refused when it is sent. *)
Theorem readdir_round_trip es max :
  Forall entry_wf es → 0 ≤ max →
  ∃ fulls b, push_all es (DirEntList_new max) = Ret (fulls, b) ∧
    length fulls = length es ∧
    Response_from_DirEntList b = Ret (Response_Data (buf b)) ∧
    Z.of_nat (length (buf b)) ≤ max ∧
    parse_dirents (length (buf b)) (buf b)
      = (λ e, (entry_header e, dirent_entry_name e)) <$> accepted es fulls.
Proof.
  intros Hes Hmax.
  destruct (push_all_spec es (DirEntList_new max) []) as (fulls & b & Hp & Hl & Hm & Hlen & Hb & Ha);
    [done|constructor|done|done|].
  exists fulls, b. simpl in *. split_and!; [done..| |done|].
  - unfold Response_from_DirEntList, Response_new_directory. rewrite Hm.
    by rewrite (proj2 (Z.leb_le _ _) Hlen).
  - rewrite Hb. apply parse_dirents_concat; [done|]. apply concat_images_length.
Qed.

(** A push fails only when the entry does not fit. *)
Lemma DirEntList_push_full_iff e b :
  entry_wf e →
  (∃ b', DirEntList_push e b = Ret (true, b'))
  ↔ max_size b < Z.of_nat (length (buf b)) + Z.of_nat (length (entry_image e)).
Proof.
  intros He. rewrite DirEntList_push_spec by done. rewrite length_app.
  case_decide; split; try lia; [intros [? [=]]|eauto].
Qed.
End readdir.

(** ** The INIT reply *)

(** The reply to INIT states the protocol version of the crate and the
    negotiated settings, within the widths of the message: no feature the kernel
    did not offer or the file system did not request, a congestion threshold of at
    most the background limit, the granularity in nanoseconds, and pages for the
    largest write and readahead. *)
Theorem Init_reply_negotiated `{C : Libc, !LibcLaws C, B : Build} x c :
  config_wf c → 0 ≤ Init_capabilities x < 2 ^ 32 →
  Z.max (max_write c) (max_readahead c) ≤ 65535 * page_size →
  ∃ out, Init_reply x c = Ret (Response_Data (encode fuse_init_out_layout out)) ∧
    valid fuse_init_out_layout out ∧
    init_out_major out = 7 ∧ init_out_minor out = 30 ∧
    (∀ i, Z.testbit (init_out_flags out) i
          = Z.testbit (Init_capabilities x) i && Z.testbit (requested c) i) ∧
    init_out_max_write out = max_write c ∧
    init_out_max_readahead out = max_readahead c ∧
    init_out_congestion_threshold out ≤ init_out_max_background out ∧
    init_out_time_gran out = Duration_as_nanos (time_gran c) ∧
    Z.max (max_write c) (max_readahead c) ≤ init_out_max_pages out * page_size.
Proof.
  intros Hwf Hx Hfit. pose proof page_size_pos as Hp.
  destruct (KernelConfig_max_pages_covers page_size c Hwf Hp) as [Hpages _].
  pose proof (congestion_threshold_bound c Hwf) as Hct.
  destruct Hwf as [Hcap Hreq Hra Hmra Hbg _ Hmw [(k & Hk & Hg) _]].
  assert (0 < 10 ^ k ≤ 10 ^ 9) as Hg'.
  { split; [apply Z.pow_pos_nonneg; lia|apply Z.pow_le_mono_r; lia]. }
  unfold MAX_WRITE_SIZE in *. set (most := Z.max (max_write c) (max_readahead c)) in *.
  assert ((most - 1) / page_size < 65535) as Hdiv by (apply Z.div_lt_upper_bound; lia).
  assert (0 ≤ (most - 1) / page_size) by (apply Z.div_pos; unfold most; lia).
  destruct Hpages as [Hpages [_ Hcover]]; [lia|].
  unfold Init_reply. rewrite Hpages. cbn [mbind outcome_bind]. cbv zeta.
  rewrite (wrap_small 32 (Duration_as_nanos (time_gran c))) by lia.
  eexists; split; [reflexivity|].
  pose proof (land_bounds (Init_capabilities x) (requested c) 32 ltac:(lia) Hx ltac:(lia)).
  split_and!; try reflexivity; simpl.
  - unfold FUSE_KERNEL_VERSION, FUSE_KERNEL_MINOR_VERSION.
    repeat split; simpl; try lia; by repeat constructor.
  - intros i. apply Z.land_spec.
  - lia.
  - exact Hcover.
Qed.


(** ** Witnesses *)


Definition example_entries : list DirEntry :=
  [MkDirEntry 2 1 Directory [46]; MkDirEntry 3 2 RegularFile [97; 98; 99]].

Lemma reply_exactly_once_witness :
  ∃ panicked iov,
    @run_use linux true UseDrop (ReplyRaw_new 7) [] = Ret (panicked, [iov]) ∧
    kernel_reads (concat iov) = Some (7, -5, []).
Proof.
  destruct (@reply_exactly_once linux linux_laws true 7 UseDrop []) as (p & iov & ? & ? & _);
    [done|done|]. by exists p, iov.
Defined.

(** The second entry does not fit into 40 bytes. *)
Lemma readdir_round_trip_witness :
  ∃ b, @push_all linux example_entries (DirEntList_new 40) = Ret ([false; true], b) ∧
    (λ e, (dirent_ino e.1, e.2)) <$> parse_dirents (length (buf b)) (buf b) = [(2, [46])].
Proof.
  destruct (@readdir_round_trip linux linux_laws example_entries 40)
    as (fulls & b & Hp & _ & _ & _ & Hd); [by repeat constructor|done|].
  assert (fulls = [false; true]) as -> by (vm_compute in Hp; by injection Hp).
  exists b. split; [done|]. by rewrite Hd.
Defined.

Lemma Init_reply_negotiated_witness :
  ∃ out, @Init_reply linux true
      (MkInit (Mk_fuse_in_header 56 26 1 0 0 0 0 0) (Mk_fuse_init_in 7 31 131072 4194305))
      (KernelConfig_new 4194305 131072)
    = Ret (Response_Data (encode fuse_init_out_layout out)) ∧
    init_out_major out = 7 ∧ 16777216 ≤ init_out_max_pages out * 4096.
Proof.
  destruct (@Init_reply_negotiated linux linux_laws true
      (MkInit (Mk_fuse_in_header 56 26 1 0 0 0 0 0) (Mk_fuse_init_in 7 31 131072 4194305))
      (KernelConfig_new 4194305 131072))
    as (out & ? & _ & ? & _ & _ & _ & _ & _ & _ & ?); [|done|done|].
  { split; simpl; try (vm_compute; by split || lia); try done. split; [by exists 0|done]. }
  by exists out.
Defined.
