(* ===== verification/Listing.v ===== *)
(** * Listing: directories page by page

    How a listing is sent in pages: entries are pushed until the buffer is full, an
    entry's offset is the position after it, and the client continues from the
    offset of the last entry it got until a page is empty.  Shared by the file
    systems that page this way. *)

From S2P Require Import Prelude Wire KernelInterface Operation Response.

Local Open Scope Z_scope.

Section listing.
Context `{C : Libc, CL : !LibcLaws C}.

(** The loop of a handler: push until an entry does not fit. *)
Fixpoint push_page (es : list DirEntry) (b : EntListBuf) : outcome EntListBuf :=
  match es with
  | [] => Ret b
  | e :: es =>
      '(full, b) ← DirEntList_push e b;
      if (full : bool) then Ret b else push_page es b
  end.

(** The entries after position [p] as the kernel should see them. *)
Fixpoint dirents (p : Z) (es : list (OsStr * (Z * FileType))) : list DirEntry :=
  match es with
  | [] => []
  | (n, (i, k)) :: es => MkDirEntry i (p + 1) k n :: dirents (p + 1) es
  end.
Definition seen (e : DirEntry) : fuse_dirent * OsStr := (entry_header e, dirent_entry_name e).

Lemma dirents_app p es es' : dirents p (es ++ es') = dirents p es ++ dirents (p + Z.of_nat (length es)) es'.
Proof.
  revert p. induction es as [|[n [i k]] es IH]; intros p; simpl; [by rewrite Z.add_0_r|].
  rewrite IH. do 3 f_equal. lia.
Qed.
Lemma last_dirents p es d :
  last (dirents p es) = Some d → dirent_entry_offset d = p + Z.of_nat (length es).
Proof.
  destruct es as [|[n [i k]] es _] using rev_ind; [done|]. rewrite dirents_app. cbn [dirents].
  rewrite last_snoc.
  intros [= <-]. rewrite length_app. simpl. lia.
Qed.
Lemma dirents_names p es : dirent_entry_name <$> dirents p es = es.*1.
Proof.
  revert p. induction es as [|[n [i k]] es IH]; intros p; [done|]. cbn. f_equal. apply IH.
Qed.
Lemma dirents_length p es : length (dirents p es) = length es.
Proof. by rewrite <- (length_fmap dirent_entry_name), dirents_names, length_fmap. Qed.
Lemma dirents_take p es k : take k (dirents p es) = dirents p (take k es).
Proof.
  revert p k. induction es as [|[n [i t]] es IH]; intros p [|k]; [done..|]. simpl. by rewrite IH.
Qed.

(** The entries have the widths of their types. *)
Definition dirents_ok (es : list (OsStr * (Z * FileType))) : Prop :=
  Forall (λ e, 0 ≤ e.2.1 < 2 ^ 64 ∧ Z.of_nat (length e.1) < 2 ^ 32) es.
Lemma dirents_wf p es :
  0 ≤ p → p + Z.of_nat (length es) < 2 ^ 63 → dirents_ok es → Forall entry_wf (dirents p es).
Proof.
  intros Hp Hl Hes. revert p Hp Hl.
  induction Hes as [|[n [i k]] es [Hi Hn] _ IH]; intros p Hp Hl; [constructor|].
  cbn [length] in Hl. constructor; [|apply IH; lia]. split_and!; simpl in *; lia.
Qed.

Lemma push_page_spec es b :
  Forall entry_wf es →
  ∃ k b', push_page es b = Ret b' ∧ (k ≤ length es)%nat ∧ max_size b' = max_size b ∧
    buf b' = buf b ++ concat (entry_image <$> take k es) ∧
    (∀ e l, es = e :: l → Z.of_nat (length (buf b)) + Z.of_nat (length (entry_image e)) ≤ max_size b →
      k ≠ 0%nat).
Proof.
  intros Hwf. revert b. induction Hwf as [|e es He Hes IH]; intros b.
  { exists 0%nat, b. simpl. by rewrite app_nil_r. }
  cbn [push_page]. rewrite DirEntList_push_spec by done. case_decide as Hfit; cbn [mbind outcome_bind].
  - destruct (IH (MkEntListBuf (max_size b) (buf b ++ entry_image e))) as (k & b' & Hl & Hk & Hm & Hb & _).
    exists (S k), b'. rewrite Hl, Hm, Hb. simpl. split_and!; [done|lia|done|by rewrite <- app_assoc|done].
  - exists 0%nat, b. simpl. rewrite app_nil_r. split_and!; [done|lia|done..|].
    intros e' l [= <- <-] Hf. rewrite length_app, Nat2Z.inj_add in Hfit. done.
Qed.

Lemma entry_image_size e : Z.of_nat (length (entry_image e)) ≤ Z.of_nat (length (dirent_entry_name e)) + 31.
Proof.
  unfold entry_image, padded. rewrite !length_app, dirent_length.
  pose proof (padding_length (24 + length (dirent_entry_name e))) as Hp.
  Z.to_euclidean_division_equations. lia.
Qed.

(** One page: a prefix of what is left, empty only at the end. *)
Lemma page_spec es p max :
  0 ≤ p → Z.of_nat (length es) < 2 ^ 63 → dirents_ok es →
  Forall (λ e, Z.of_nat (length e.1) + 31 ≤ max) es →
  let rest := drop (Z.to_nat p) es in
  ∃ k b, push_page (dirents p rest) (DirEntList_new max) = Ret b ∧
    (k ≤ length rest)%nat ∧ (rest ≠ [] → k ≠ 0%nat) ∧
    parse_dirents (length (buf b)) (buf b) = seen <$> dirents p (take k rest).
Proof.
  intros Hp Hlen Hes Hmax rest.
  assert (dirents_ok rest) as Hrest by by apply Forall_drop.
  assert (Forall entry_wf (dirents p rest)) as Hwf.
  { destruct (decide (Z.to_nat p < length es)%nat).
    - apply dirents_wf; [done| |done]. unfold rest. rewrite length_drop. lia.
    - unfold rest. rewrite drop_ge by lia. constructor. }
  destruct (push_page_spec _ (DirEntList_new max) Hwf) as (k & b & Hl & Hk & Hm & Hb & Hne).
  rewrite dirents_length in Hk. exists k, b. split_and!; [done|done| |].
  - intros Hr. apply (Forall_drop _ (Z.to_nat p)) in Hmax. fold rest in Hmax.
    destruct rest as [|[n [i t]] l]; [done|]. eapply Hne; [done|]. simpl.
    apply Forall_cons in Hmax as [Hmax _]. simpl in Hmax.
    pose proof (entry_image_size (MkDirEntry i (p + 1) t n)) as Hi. simpl in Hi. lia.
  - rewrite Hb, dirents_take. simpl. apply parse_dirents_concat.
    + rewrite <- (take_drop k rest), dirents_app in Hwf. by apply Forall_app in Hwf as [? _].
    + etransitivity; [|apply concat_images_length]. done.
Qed.

(** A client that lists a directory: [read] answers the page from an offset, if it
    answers a listing. *)
Fixpoint list_pages {W} (read : Z → stateM W (option EntListBuf)) (fuel : nat) (offset : Z)
    : stateM W (list (fuse_dirent * OsStr)) :=
  match fuel with
  | O => mret []
  | S fuel =>
      r ← read offset;
      match r with
      | Some b =>
          let page := parse_dirents (length (buf b)) (buf b) in
          match last page with
          | Some (d, _) => rest ← list_pages read fuel (dirent_off d); mret (page ++ rest)
          | None => mret []
          end
      | None => mret []
      end
  end.

(** It sees every entry once, if every [read] answers a page of the entries. *)
Lemma list_pages_complete {W} (I : W → Prop) read es max :
  Z.of_nat (length es) < 2 ^ 63 → dirents_ok es →
  Forall (λ e, Z.of_nat (length e.1) + 31 ≤ max) es →
  (∀ p st, I st → 0 ≤ p < 2 ^ 63 → yields (read p st) (λ '(r, st'), I st' ∧
    ∃ b, push_page (dirents p (drop (Z.to_nat p) es)) (DirEntList_new max) = Ret b ∧ r = Some b)) →
  ∀ fuel p st, I st → 0 ≤ p ≤ Z.of_nat (length es) → (length (drop (Z.to_nat p) es) < fuel)%nat →
    yields (list_pages read fuel p st) (λ '(l, st'), I st' ∧ l = seen <$> dirents p (drop (Z.to_nat p) es)).
Proof.
  intros Hlen Hes Hmax Hread fuel. induction fuel as [|fuel IH]; intros p st Hst Hp Hf; [lia|].
  cbn [list_pages].
  destruct (page_spec es p max ltac:(lia) Hlen Hes Hmax) as (k & b & Hb & Hk & Hne & Hpage).
  eapply yields_bindM; [by apply Hread; [|lia]|]. intros r st1 (Hst1 & b' & Hb' & ->).
  rewrite Hb in Hb'. injection Hb' as <-. cbv zeta. rewrite Hpage, fmap_last.
  set (rest := drop (Z.to_nat p) es) in *.
  destruct (last (dirents p (take k rest))) as [d|] eqn:Hlast; cbn [fmap option_fmap option_map seen].
  - pose proof (last_dirents _ _ _ Hlast) as Hoff. rewrite length_take_le in Hoff by done.
    assert (k ≠ 0%nat) as Hk0.
    { apply Hne. intros E. by rewrite E, take_nil in Hlast. }
    assert (drop (Z.to_nat (p + Z.of_nat k)) es = drop k rest) as Hdrop.
    { unfold rest. rewrite drop_drop. f_equal. lia. }
    assert (length rest = (length es - Z.to_nat p)%nat) as Hr by apply length_drop.
    cbn [entry_header dirent_off]. rewrite Hoff.
    eapply yields_bindM; [apply IH; [done|lia|rewrite Hdrop, length_drop; lia]|].
    intros l st2 [Hst2 ->]. rewrite Hdrop. split; [done|].
    rewrite <- (take_drop k rest) at 3. rewrite dirents_app, fmap_app, length_take_le by done. done.
  - apply last_None in Hlast. assert (rest = []) as ->; [|done].
    destruct rest as [|[n [j t]] l]; [done|]. destruct k; [by destruct (Hne ltac:(done))|done].
Qed.
End listing.
