(* ===== verification/Reply.v ===== *)
(** * Reply: the typed reply objects (src/fuse/src/uring_fuse/reply/)

    Each method of the file system gets a reply object of its own type; its
    methods build a [Response] and send it through the [ReplyRaw] inside.  [Answer]
    is the choice a file system makes; the theorem says that the kernel decodes
    from the one message on the channel exactly the values the file system gave. *)

From S2P Require Import Prelude Wire KernelInterface Time KernelConfig Operation Response.

Local Open Scope Z_scope.

(** The types that hold nothing but a [ReplyRaw]; [Reply::new] makes it. *)
Definition ReplyEntry : Type := ReplyRaw.
Definition ReplyAttr : Type := ReplyRaw.
Definition ReplyData : Type := ReplyRaw.
Definition ReplyEmpty : Type := ReplyRaw.
Definition ReplyOpen : Type := ReplyRaw.
Definition ReplyWrite : Type := ReplyRaw.
Definition ReplyStatfs : Type := ReplyRaw.
Definition ReplyCreate : Type := ReplyRaw.
Definition ReplyLock : Type := ReplyRaw.
Definition ReplyBmap : Type := ReplyRaw.
Definition ReplyIoctl : Type := ReplyRaw.
Definition ReplyXattr : Type := ReplyRaw.
Definition ReplyLseek : Type := ReplyRaw.

Record ReplyDirectory : Type := MkReplyDirectory { dir_reply : ReplyRaw; dir_data : EntListBuf }.
Record ReplyDirectoryPlus : Type :=
  MkReplyDirectoryPlus { dirplus_reply : ReplyRaw; dirplus_buf : EntListBuf }.

Section replies.
Context `{C : Libc, B : Build}.

(** A panic while the response is built ends the model; in the program it also
    drops the reply. *)
Definition ReplyEntry_entry (self : ReplyEntry) (ttl : Duration) (attr : FileAttr) (generation : Z)
    : sentM unit :=
  a ← lift (Attr_from attr);
  ReplyRaw_send_ll self (Response_new_entry (attr_ino' attr) generation a ttl ttl).
Definition ReplyAttr_attr (self : ReplyAttr) (ttl : Duration) (attr : FileAttr) : sentM unit :=
  a ← lift (Attr_from attr); ReplyRaw_send_ll self (Response_new_attr ttl a).
Definition ReplyData_data (self : ReplyData) (data : list Z) : sentM unit :=
  ReplyRaw_send_ll self (Response_new_slice data).
Definition ReplyEmpty_ok (self : ReplyEmpty) : sentM unit :=
  ReplyRaw_send_ll self Response_new_empty.
Definition ReplyOpen_opened (self : ReplyOpen) (fh flags : Z) : sentM unit :=
  ReplyRaw_send_ll self (Response_new_open fh flags).
Definition ReplyWrite_written (self : ReplyWrite) (size : Z) : sentM unit :=
  ReplyRaw_send_ll self (Response_new_write size).
Definition ReplyStatfs_statfs (self : ReplyStatfs)
    (blocks bfree bavail files ffree bsize namelen frsize : Z) : sentM unit :=
  ReplyRaw_send_ll self
    (Response_new_statfs blocks bfree bavail files ffree bsize namelen frsize).
Definition ReplyCreate_created (self : ReplyCreate) (ttl : Duration) (attr : FileAttr)
    (generation fh flags : Z) : sentM unit :=
  a ← lift (Attr_from attr);
  ReplyRaw_send_ll self (Response_new_create ttl a generation fh flags).
Definition ReplyLock_locked (self : ReplyLock) (start end' typ pid : Z) : sentM unit :=
  ReplyRaw_send_ll self (Response_new_lock (MkLock (start, end') typ pid)).
Definition ReplyBmap_bmap (self : ReplyBmap) (block : Z) : sentM unit :=
  ReplyRaw_send_ll self (Response_new_bmap block).
Definition ReplyIoctl_ioctl (self : ReplyIoctl) (result : Z) (data : list Z) : sentM unit :=
  ReplyRaw_send_ll self (Response_new_ioctl result [data]).
Definition ReplyXattr_size (self : ReplyXattr) (size : Z) : sentM unit :=
  ReplyRaw_send_ll self (Response_new_xattr_size size).
Definition ReplyXattr_data (self : ReplyXattr) (data : list Z) : sentM unit :=
  ReplyRaw_send_ll self (Response_new_data data).
Definition ReplyLseek_offset (self : ReplyLseek) (offset : Z) : sentM unit :=
  ReplyRaw_send_ll self (Response_new_lseek offset).
(** [error] of every type. *)
Definition Reply_error (self : ReplyRaw) (err : Z) : sentM bool := ReplyRaw_error self err.

Definition ReplyDirectory_new (unique size : Z) : ReplyDirectory :=
  MkReplyDirectory (ReplyRaw_new unique) (DirEntList_new size).
Definition ReplyDirectory_add (self : ReplyDirectory) (ino offset : Z) (kind : FileType) (name : OsStr)
    : outcome (bool * ReplyDirectory) :=
  '(full, data) ← DirEntList_push (MkDirEntry ino offset kind name) (dir_data self);
  Ret (full, MkReplyDirectory (dir_reply self) data).
Definition ReplyDirectory_ok (self : ReplyDirectory) : sentM unit :=
  response ← lift (Response_from_DirEntList (dir_data self));
  ReplyRaw_send_ll (dir_reply self) response.

Definition ReplyDirectoryPlus_new (unique size : Z) : ReplyDirectoryPlus :=
  MkReplyDirectoryPlus (ReplyRaw_new unique) (DirEntPlusList_new size).
Definition ReplyDirectoryPlus_add (self : ReplyDirectoryPlus) (ino offset : Z) (name : OsStr)
    (ttl : Duration) (attr : FileAttr) (generation : Z) : outcome (bool * ReplyDirectoryPlus) :=
  a ← Attr_from attr;
  '(full, b) ← DirEntPlusList_push (MkDirEntryPlus ino generation offset name ttl a ttl)
                 (dirplus_buf self);
  Ret (full, MkReplyDirectoryPlus (dirplus_reply self) b).
Definition ReplyDirectoryPlus_ok (self : ReplyDirectoryPlus) : sentM unit :=
  response ← lift (Response_from_DirEntPlusList (dirplus_buf self));
  ReplyRaw_send_ll (dirplus_reply self) response.
End replies.

(** ** What a file system answers *)

Inductive Answer : Type :=
  | AEntry (ttl : Duration) (attr : FileAttr) (generation : Z)
  | AAttr (ttl : Duration) (attr : FileAttr)
  | AData (data : list Z)
  | AEmpty
  | AOpened (fh flags : Z)
  | AWritten (n : Z)
  | AStatfs (blocks bfree bavail files ffree bsize namelen frsize : Z)
  | ACreated (ttl : Duration) (attr : FileAttr) (generation fh flags : Z)
  | ALocked (start end' typ pid : Z)
  | ABmap (block : Z)
  | AIoctl (result : Z) (data : list Z)
  | ADirectory (data : EntListBuf)
  | ADirectoryPlus (data : EntListBuf)
  | AXattrSize (n : Z)
  | AXattrData (data : list Z)
  | ALseek (offset : Z)
  | AError (err : Z).

Section answers.
Context `{C : Libc, B : Build}.

(** The method of the reply object that gives the answer; [true] is a panic. *)
Definition send_answer (a : Answer) (r : ReplyRaw) : sentM bool :=
  match a with
  | AEntry ttl attr generation => ReplyEntry_entry r ttl attr generation;; mret false
  | AAttr ttl attr => ReplyAttr_attr r ttl attr;; mret false
  | AData data => ReplyData_data r data;; mret false
  | AEmpty => ReplyEmpty_ok r;; mret false
  | AOpened fh flags => ReplyOpen_opened r fh flags;; mret false
  | AWritten n => ReplyWrite_written r n;; mret false
  | AStatfs a b c d e f g h => ReplyStatfs_statfs r a b c d e f g h;; mret false
  | ACreated ttl attr generation fh flags =>
      ReplyCreate_created r ttl attr generation fh flags;; mret false
  | ALocked start end' typ pid => ReplyLock_locked r start end' typ pid;; mret false
  | ABmap block => ReplyBmap_bmap r block;; mret false
  | AIoctl result data => ReplyIoctl_ioctl r result data;; mret false
  | ADirectory data => ReplyDirectory_ok (MkReplyDirectory r data);; mret false
  | ADirectoryPlus data => ReplyDirectoryPlus_ok (MkReplyDirectoryPlus r data);; mret false
  | AXattrSize n => ReplyXattr_size r n;; mret false
  | AXattrData data => ReplyXattr_data r data;; mret false
  | ALseek offset => ReplyLseek_offset r offset;; mret false
  | AError err => Reply_error r err
  end.
End answers.

(** ** What the kernel decodes *)

Section decoding.
Context `{C : Libc, CL : !LibcLaws C, B : Build}.

Definition SystemTime_fits (t : SystemTime) : Prop :=
  - 2 ^ 63 < tv_sec t < 2 ^ 63 ∧ 0 ≤ tv_nsec t < NANOS_PER_SEC.
(** The fields have the widths of their types; the birth time and the flags are
    not sent. *)
Definition FileAttr_fits (a : FileAttr) : Prop :=
  0 ≤ attr_ino' a < 2 ^ 64 ∧ 0 ≤ attr_size' a < 2 ^ 64 ∧ 0 ≤ attr_blocks' a < 2 ^ 64 ∧
  SystemTime_fits (attr_atime' a) ∧ SystemTime_fits (attr_mtime' a) ∧ SystemTime_fits (attr_ctime' a) ∧
  0 ≤ attr_perm a < 2 ^ 16 ∧ 0 ≤ attr_nlink' a < 2 ^ 32 ∧ 0 ≤ attr_uid' a < 2 ^ 32 ∧
  0 ≤ attr_gid' a < 2 ^ 32 ∧ 0 ≤ attr_rdev' a < 2 ^ 32 ∧ 0 ≤ attr_blksize' a < 2 ^ 32.
Definition Duration_fits (d : Duration) : Prop :=
  0 ≤ as_secs d < 2 ^ 64 ∧ 0 ≤ subsec_nanos d < NANOS_PER_SEC.

(** A [u16] of permissions, some of the type bits included, leaves a mode of 16 bits. *)
Lemma mode_bounds k perm : 0 ≤ perm < 2 ^ 16 → 0 ≤ mode_from_kind_and_perm k perm < 2 ^ 16.
Proof.
  intros Hp. destruct (S_IF_bits k) as (t & Ht & Hk). unfold mode_from_kind_and_perm. rewrite Hk.
  apply lor_bounds; [done| |done]. rewrite Z.shiftl_mul_pow2 by done. lia.
Qed.

Lemma fuse_attr_fits a :
  FileAttr_fits a →
  ∃ x, fuse_attr_from_attr a = Ret x ∧ valid fuse_attr_layout x ∧ attr_ino x = attr_ino' a.
Proof.
  intros (? & ? & ? & Hat & Hmt & Hct & Hperm & ? & ? & ? & ? & ?). unfold fuse_attr_from_attr.
  pose proof (time_from_ok _ (proj1 Hat) (proj2 Hat)) as ([s1 n1] & -> & Hs1 & Hn1)%yields_Ret.
  pose proof (time_from_ok _ (proj1 Hmt) (proj2 Hmt)) as ([s2 n2] & -> & Hs2 & Hn2)%yields_Ret.
  pose proof (time_from_ok _ (proj1 Hct) (proj2 Hct)) as ([s3 n3] & -> & Hs3 & Hn3)%yields_Ret.
  cbn [mbind outcome_bind fst snd] in *. eexists. split; [done|]. split; [|done].
  pose proof (mode_bounds (attr_kind a) _ Hperm). unfold NANOS_PER_SEC in *.
  repeat split; simpl; lia.
Qed.

Definition entry_of (ino generation : Z) (ttl : Duration) (x : fuse_attr) : fuse_entry_out :=
  {| entry_out_nodeid := ino; entry_out_generation := generation;
     entry_out_entry_valid := as_secs ttl; entry_out_attr_valid := as_secs ttl;
     entry_out_entry_valid_nsec := subsec_nanos ttl;
     entry_out_attr_valid_nsec := subsec_nanos ttl; entry_out_attr := x |}.

(** What the kernel gets to know from the error and the payload of a reply. *)
Definition understood (a : Answer) (errno : Z) (payload : list Z) : Prop :=
  match a with
  | AEntry ttl attr generation =>
      errno = 0 ∧ ∃ x, fuse_attr_from_attr attr = Ret x ∧
        decode fuse_entry_out_layout payload = entry_of (attr_ino' attr) generation ttl x
  | AAttr ttl attr =>
      errno = 0 ∧ ∃ x, fuse_attr_from_attr attr = Ret x ∧
        decode fuse_attr_out_layout payload = Mk_fuse_attr_out (as_secs ttl) (subsec_nanos ttl) 0 x
  | ACreated ttl attr generation fh flags =>
      errno = 0 ∧ ∃ x, fuse_attr_from_attr attr = Ret x ∧
        decode fuse_create_out_layout payload = Mk_fuse_create_out
          (entry_of (attr_ino' attr) generation ttl x) (Mk_fuse_open_out fh flags 0)
  | AData data | AXattrData data => errno = 0 ∧ payload = data
  | AEmpty => errno = 0 ∧ payload = []
  | AOpened fh flags =>
      errno = 0 ∧ decode fuse_open_out_layout payload = Mk_fuse_open_out fh flags 0
  | AWritten n => errno = 0 ∧ decode fuse_write_out_layout payload = Mk_fuse_write_out n 0
  | AStatfs blocks bfree bavail files ffree bsize namelen frsize =>
      errno = 0 ∧ decode fuse_statfs_out_layout payload = Mk_fuse_statfs_out
        (Mk_fuse_kstatfs blocks bfree bavail files ffree bsize namelen frsize 0 (vreplicate 6 0))
  | ALocked start end' typ pid =>
      errno = 0 ∧
      decode fuse_lk_out_layout payload = Mk_fuse_lk_out (Mk_fuse_file_lock start end' typ pid)
  | ABmap block => errno = 0 ∧ decode fuse_bmap_out_layout payload = Mk_fuse_bmap_out block
  | AIoctl result data =>
      errno = 0 ∧ decode fuse_ioctl_out_layout (take 16 payload) = Mk_fuse_ioctl_out result 0 1 1 ∧
      drop 16 payload = data
  | ADirectory b | ADirectoryPlus b => errno = 0 ∧ payload = buf b
  | AXattrSize n => errno = 0 ∧ decode fuse_getxattr_out_layout payload = Mk_fuse_getxattr_out n 0
  | ALseek offset => errno = 0 ∧ decode fuse_lseek_out_layout payload = Mk_fuse_lseek_out offset
  | AError err => errno = - (if decide (err = 0) then EIO else err) ∧ payload = []
  end.

(** The values have the widths of their types, and the message is not longer than
    its header can say. *)
Definition answer_fits (a : Answer) : Prop :=
  match a with
  | AEntry ttl attr generation =>
      Duration_fits ttl ∧ FileAttr_fits attr ∧ 0 ≤ generation < 2 ^ 64
  | AAttr ttl attr => Duration_fits ttl ∧ FileAttr_fits attr
  | ACreated ttl attr generation fh flags =>
      Duration_fits ttl ∧ FileAttr_fits attr ∧ 0 ≤ generation < 2 ^ 64 ∧ 0 ≤ fh < 2 ^ 64 ∧
      0 ≤ flags < 2 ^ 32
  | AData data | AXattrData data => 16 + Z.of_nat (length data) < 2 ^ 32
  | AEmpty => True
  | AOpened fh flags => 0 ≤ fh < 2 ^ 64 ∧ 0 ≤ flags < 2 ^ 32
  | AWritten n | AXattrSize n => 0 ≤ n < 2 ^ 32
  | AStatfs blocks bfree bavail files ffree bsize namelen frsize =>
      0 ≤ blocks < 2 ^ 64 ∧ 0 ≤ bfree < 2 ^ 64 ∧ 0 ≤ bavail < 2 ^ 64 ∧ 0 ≤ files < 2 ^ 64 ∧
      0 ≤ ffree < 2 ^ 64 ∧ 0 ≤ bsize < 2 ^ 32 ∧ 0 ≤ namelen < 2 ^ 32 ∧ 0 ≤ frsize < 2 ^ 32
  | ALocked start end' typ pid =>
      0 ≤ start < 2 ^ 64 ∧ 0 ≤ end' < 2 ^ 64 ∧ - 2 ^ 31 ≤ typ < 2 ^ 31 ∧ 0 ≤ pid < 2 ^ 32
  | ABmap block => 0 ≤ block < 2 ^ 64
  | AIoctl result data => - 2 ^ 31 ≤ result < 2 ^ 31 ∧ 32 + Z.of_nat (length data) < 2 ^ 32
  | ADirectory b | ADirectoryPlus b =>
      Z.of_nat (length (buf b)) ≤ max_size b ∧ 16 + max_size b < 2 ^ 32
  | ALseek offset => - 2 ^ 63 ≤ offset < 2 ^ 63
  | AError err => - 2 ^ 31 < err < 2 ^ 31
  end.

(** Sending a struct. *)
Lemma sends_struct {A} (c : codec A) `{!CodecLaws c} (x : A) unique sent :
  0 ≤ unique < 2 ^ 64 → 16 + Z.of_nat (size_of c) < 2 ^ 32 → valid c x →
  ∃ iov payload, ReplyRaw_send_ll (ReplyRaw_new unique) (Response_from_struct c x) sent
      = Ret (tt, sent ++ [iov]) ∧
    kernel_reads (concat iov) = Some (unique, 0, payload) ∧ decode c payload = x.
Proof.
  intros Hu Hs Hx.
  destruct (send_ll_sends unique (Response_from_struct c x) sent) as (iov & Hi & Hk);
    [simpl; lia|done|simpl; by rewrite encode_length|].
  exists iov, (encode c x). split_and!; [done..|]. by apply decode_encode.
Qed.

(** One message is sent, which the kernel reads as [Q] asks. *)
Definition delivers (m : sentM bool) (unique : Z) (sent : list (list (list Z))) (panicked : bool)
    (Q : Z → list Z → Prop) : Prop :=
  ∃ iov errno payload, m sent = Ret (panicked, sent ++ [iov]) ∧
    kernel_reads (concat iov) = Some (unique, errno, payload) ∧ Q errno payload.

Lemma delivers_struct {A} (c : codec A) `{!CodecLaws c} (x : A) unique sent (Q : Z → list Z → Prop) :
  0 ≤ unique < 2 ^ 64 → 16 + Z.of_nat (size_of c) < 2 ^ 32 → valid c x →
  (∀ payload, decode c payload = x → Q 0 payload) →
  delivers (ReplyRaw_send_ll (ReplyRaw_new unique) (Response_from_struct c x);; mret false) unique sent false Q.
Proof.
  intros Hu Hs Hx HQ.
  destruct (sends_struct c x unique sent Hu Hs Hx) as (iov & payload & Hi & Hk & Hd).
  exists iov, 0, payload. rewrite (bindM_eq _ _ _ _ _ Hi). auto.
Qed.
Lemma delivers_data response unique sent (Q : Z → list Z → Prop) :
  0 ≤ unique < 2 ^ 64 → Response_errno response = 0 →
  16 + Z.of_nat (length (Response_payload response)) < 2 ^ 32 → Q 0 (Response_payload response) →
  delivers (ReplyRaw_send_ll (ReplyRaw_new unique) response;; mret false) unique sent false Q.
Proof.
  intros Hu He Hl HQ.
  destruct (send_ll_sends unique response sent) as (iov & Hi & Hk); [lia|done|done|].
  rewrite He in Hk. exists iov, 0, (Response_payload response). rewrite (bindM_eq _ _ _ _ _ Hi). auto.
Qed.
Lemma delivers_attr {A} attr (f : Attr → A) (send : A → sentM unit) x unique sent Q :
  fuse_attr_from_attr attr = Ret x →
  delivers (send (f (MkAttr x));; mret false) unique sent false Q →
  delivers ((a ← lift (Attr_from attr); send (f a));; mret false) unique sent false Q.
Proof.
  intros Hx. unfold delivers, lift, Attr_from. rewrite Hx. done.
Qed.

Lemma entry_valid ino generation ttl x :
  0 ≤ ino < 2 ^ 64 → 0 ≤ generation < 2 ^ 64 → Duration_fits ttl → valid fuse_attr_layout x →
  valid fuse_entry_out_layout (entry_of ino generation ttl x).
Proof.
  intros Hi Hg [Hs Hn] Hx. unfold NANOS_PER_SEC in *. repeat split; simpl; try lia; apply Hx.
Qed.

(** [error(0)] answers EIO and panics. *)
Definition answer_panics (a : Answer) : bool := match a with AError err => err =? 0 | _ => false end.

Lemma send_answer_delivers a unique sent :
  0 ≤ unique < 2 ^ 64 → answer_fits a →
  delivers (send_answer a (ReplyRaw_new unique)) unique sent (answer_panics a) (understood a).
Proof.
  intros Hu Ha. destruct a; cbn [answer_fits send_answer understood answer_panics] in *.
  - destruct Ha as (Ht & Hat & Hg). destruct (fuse_attr_fits attr Hat) as (x & Hx & Hv & _).
    apply (delivers_attr attr (λ a, Response_new_entry (attr_ino' attr) generation a ttl ttl) _ x); [done|].
    apply (delivers_struct fuse_entry_out_layout (entry_of (attr_ino' attr) generation ttl x)); [done|done| |by intros p Hp; split; [done|exists x]].
    apply entry_valid; try done. apply Hat.
  - destruct Ha as ([Hts Htn] & Hat). destruct (fuse_attr_fits attr Hat) as (x & Hx & Hv & _).
    apply (delivers_attr attr (Response_new_attr ttl) _ x); [done|].
    apply (delivers_struct fuse_attr_out_layout (Mk_fuse_attr_out (as_secs ttl) (subsec_nanos ttl) 0 x));
      [done|done| |by intros p Hp; split; [done|exists x]].
    unfold NANOS_PER_SEC in *. repeat split; simpl; try lia; apply Hv.
  - by apply delivers_data.
  - by apply delivers_data.
  - apply (delivers_struct fuse_open_out_layout); [done|done| |done]. repeat split; simpl; lia.
  - apply (delivers_struct fuse_write_out_layout); [done|done| |done]. repeat split; simpl; lia.
  - apply (delivers_struct fuse_statfs_out_layout); [done|done| |done].
    repeat split; simpl; try lia. by repeat constructor.
  - destruct Ha as (Ht & Hat & Hg & Hfh & Hfl). destruct (fuse_attr_fits attr Hat) as (x & Hx & Hv & Hi).
    apply (delivers_attr attr (λ a, Response_new_create ttl a generation fh flags) _ x); [done|].
    unfold Response_new_create. cbn [the_attr]. rewrite Hi.
    apply (delivers_struct fuse_create_out_layout (Mk_fuse_create_out
      (entry_of (attr_ino' attr) generation ttl x) (Mk_fuse_open_out fh flags 0))); [done|done| |by intros p Hp; split; [done|exists x]].
    split; [apply entry_valid; try done; apply Hat|]. repeat split; simpl; lia.
  - apply (delivers_struct fuse_lk_out_layout); [done|done| |done]. repeat split; simpl; lia.
  - apply (delivers_struct fuse_bmap_out_layout); [done|done| |done]. simpl. done.
  - destruct Ha as [Hr Hl]. set (r := Mk_fuse_ioctl_out result 0 1 1).
    pose proof (encode_length (c := fuse_ioctl_out_layout) r) as He.
    change (size_of fuse_ioctl_out_layout) with 16%nat in He.
    apply delivers_data; [done|done| |].
    + unfold Response_new_ioctl. cbn [Response_payload concat]. rewrite app_nil_r, decide_False by done.
      fold r. rewrite length_app, He. lia.
    + unfold Response_new_ioctl. cbn [Response_payload concat]. rewrite app_nil_r, decide_False by done.
      fold r. unfold understood. rewrite take_app_length', drop_app_length' by done. split_and!; [done| |done].
      apply decode_encode. repeat split; simpl; lia.
  - destruct Ha as [Hl Hm]. unfold ReplyDirectory_ok. cbn [dir_data dir_reply].
    unfold Response_from_DirEntList, Response_new_directory. rewrite (proj2 (Z.leb_le _ _) Hl).
    apply (delivers_data (Response_Data (buf data))); [done|done|simpl; lia|done].
  - destruct Ha as [Hl Hm]. unfold ReplyDirectoryPlus_ok. cbn [dirplus_buf dirplus_reply].
    unfold Response_from_DirEntPlusList, Response_new_directory. rewrite (proj2 (Z.leb_le _ _) Hl).
    apply (delivers_data (Response_Data (buf data))); [done|done|simpl; lia|done].
  - apply (delivers_struct fuse_getxattr_out_layout); [done|done| |done]. repeat split; simpl; lia.
  - by apply delivers_data.
  - apply (delivers_struct fuse_lseek_out_layout); [done|done| |done]. simpl. lia.
  - destruct (error_sends unique err sent Hu Ha) as (iov & Hi & Hk).
    exists iov, (- (if decide (err = 0) then EIO else err)), []. done.
Qed.

End decoding.

(** ** Witness *)

Definition example_attr : FileAttr :=
  MkFileAttr 2 5 1 (MkSystemTime 10 20) (MkSystemTime 30 40) (MkSystemTime 50 60) UNIX_EPOCH RegularFile
    420 1 1000 1000 0 512 0.

