(* ===== verification/Paths.v ===== *)
(** * Paths: byte strings, UTF-8 and [std::path]

    What the file systems use of the standard library's paths: the byte string of
    a [PathBuf] with [join] for [uring_fs], and, for the inode table of the
    multithreaded adapter, paths up to the equality of [Path], which compares
    components. *)

From S2P Require Import Prelude Operation.

Local Open Scope Z_scope.

(** ** UTF-8 *)

Definition in_range (lo hi b : Z) : bool := (lo <=? b) && (b <=? hi).
Definition continuation : Z → bool := in_range 128 191.

(** [String::from_utf8]: well-formed UTF-8, without overlong forms, surrogates and
    values above U+10FFFF. *)
Fixpoint is_utf8 (bs : list Z) : bool :=
  match bs with
  | [] => true
  | b0 :: r0 =>
      if b0 <? 128 then is_utf8 r0 else
      match r0 with
      | [] => false
      | b1 :: r1 =>
          if in_range 194 223 b0 then continuation b1 && is_utf8 r1 else
          match r1 with
          | [] => false
          | b2 :: r2 =>
              if in_range 224 239 b0 then
                in_range (if b0 =? 224 then 160 else 128) (if b0 =? 237 then 159 else 191) b1 &&
                continuation b2 && is_utf8 r2
              else
              match r2 with
              | [] => false
              | b3 :: r3 =>
                  in_range 240 244 b0 &&
                  in_range (if b0 =? 240 then 144 else 128) (if b0 =? 244 then 143 else 191) b1 &&
                  continuation b2 && continuation b3 && is_utf8 r3
              end
          end
      end
  end.

(** [String::from_utf8_lossy]: the parts that are not UTF-8 are replaced, each
    longest one that could begin a scalar value by one U+FFFD. *)
Definition replacement : list Z := [239; 191; 189].
Fixpoint from_utf8_lossy (bs : list Z) : list Z :=
  match bs with
  | [] => []
  | b0 :: r0 =>
      if b0 <? 128 then b0 :: from_utf8_lossy r0 else
      if in_range 194 223 b0 then
        match r0 with
        | b1 :: r1 => if continuation b1 then b0 :: b1 :: from_utf8_lossy r1 else replacement ++ from_utf8_lossy r0
        | [] => replacement
        end
      else if in_range 224 239 b0 then
        match r0 with
        | b1 :: r1 =>
            if in_range (if b0 =? 224 then 160 else 128) (if b0 =? 237 then 159 else 191) b1 then
              match r1 with
              | b2 :: r2 => if continuation b2 then b0 :: b1 :: b2 :: from_utf8_lossy r2 else replacement ++ from_utf8_lossy r1
              | [] => replacement
              end
            else replacement ++ from_utf8_lossy r0
        | [] => replacement
        end
      else if in_range 240 244 b0 then
        match r0 with
        | b1 :: r1 =>
            if in_range (if b0 =? 240 then 144 else 128) (if b0 =? 244 then 143 else 191) b1 then
              match r1 with
              | b2 :: r2 =>
                  if continuation b2 then
                    match r2 with
                    | b3 :: r3 => if continuation b3 then b0 :: b1 :: b2 :: b3 :: from_utf8_lossy r3
                                  else replacement ++ from_utf8_lossy r2
                    | [] => replacement
                    end
                  else replacement ++ from_utf8_lossy r1
              | [] => replacement
              end
            else replacement ++ from_utf8_lossy r0
        | [] => replacement
        end
      else replacement ++ from_utf8_lossy r0
  end.

(** [CString::new] refuses a string with a NUL. *)
Definition has_nul (bs : list Z) : bool := existsb (Z.eqb 0) bs.
Lemma has_nul_spec n : has_nul n = false ↔ 0 ∉ n.
Proof.
  unfold has_nul. rewrite <- not_true_iff_false. apply not_iff_compat. rewrite existsb_exists. split.
  - intros (x & Hx & <-%Z.eqb_eq). by apply list_elem_of_In.
  - intros Hin. exists 0. split; [by apply list_elem_of_In|done].
Qed.
Definition slash : Z := 47.
(** [PathBuf::from(base).join(name)]: an absolute name replaces the base. *)
Definition path_join (base name : list Z) : list Z :=
  match name with
  | c :: _ => if c =? slash then name else
      match last base with
      | Some d => if d =? slash then base ++ name else base ++ slash :: name
      | None => name
      end
  | [] =>
      match last base with
      | Some d => if d =? slash then base else base ++ [slash]
      | None => []
      end
  end.
(** [into_os_string().into_string()] of an [OsStr]. *)
Definition into_string (s : OsStr) : option (list Z) := if is_utf8 s then Some s else None.

(** ** Paths up to the equality of [Path]

    The components of an absolute path below its root: empty ones and [.] do not
    count, [..] is one like any other.  All paths are made from [/] by [join]. *)
Definition PathBuf : Type := list OsStr.

Fixpoint split_slash (bs : list Z) : list OsStr :=
  match bs with
  | [] => [[]]
  | b :: bs =>
      match split_slash bs with
      | c :: cs => if b =? slash then [] :: c :: cs else (b :: c) :: cs
      | [] => [[b]]
      end
  end.
Definition dot : OsStr := [46].
Definition dotdot : OsStr := [46; 46].
Definition components (n : OsStr) : list OsStr := filter (λ c, c ≠ [] ∧ c ≠ dot) (split_slash n).

Definition join (p : PathBuf) (n : OsStr) : PathBuf :=
  match n with
  | b :: _ => if b =? slash then components n else p ++ components n
  | [] => p
  end.
(** [Path::parent]. *)
Definition parent_of (p : PathBuf) : option PathBuf :=
  match p with [] => None | _ => Some (removelast p) end.

(** ** Lemmas *)

Lemma is_utf8_app_le n : ∀ a b,
  (length a ≤ n)%nat → is_utf8 a = true → is_utf8 (a ++ b) = is_utf8 b.
Proof.
  induction n as [|n IH]; intros a b Hl Ha; [by destruct a; [|simpl in Hl; lia]|].
  destruct a as [|b0 r0]; [done|].
  cbn [app is_utf8] in *. destruct (b0 <? 128); [apply IH; [simpl in Hl; lia|done]|].
  destruct r0 as [|b1 r1]; [done|]. cbn [app].
  destruct (in_range 194 223 b0).
  { apply andb_true_iff in Ha as [-> Ha]. apply IH; [simpl in Hl; lia|done]. }
  destruct r1 as [|b2 r2]; [done|]. cbn [app].
  destruct (in_range 224 239 b0).
  { apply andb_true_iff in Ha as [Hb Ha]. rewrite Hb. apply IH; [simpl in Hl; lia|done]. }
  destruct r2 as [|b3 r3]; [done|]. cbn [app].
  apply andb_true_iff in Ha as [Hb Ha]. rewrite Hb. apply IH; [simpl in Hl; lia|done].
Qed.
Lemma is_utf8_app a b : is_utf8 a = true → is_utf8 (a ++ b) = is_utf8 b.
Proof. by apply (is_utf8_app_le (length a)). Qed.


(** A name as the kernel passes it on adds itself. *)
Lemma split_slash_plain n : slash ∉ n → split_slash n = [n].
Proof.
  induction n as [|b n IH]; [done|]. intros Hn. cbn [split_slash]. rewrite IH by set_solver.
  rewrite (proj2 (Z.eqb_neq b slash)); [done|]. set_solver.
Qed.
Lemma join_name p n : n ≠ [] → slash ∉ n → n ≠ dot → join p n = p ++ [n].
Proof.
  intros Hne Hs Hd. unfold join, components. destruct n as [|b n]; [done|].
  rewrite (proj2 (Z.eqb_neq b slash)) by set_solver. rewrite split_slash_plain by done.
  by rewrite filter_cons_True.
Qed.
