(* ===== verification/Text.v ===== *)
(** * Text: strings as the code takes them apart and puts them together

    Strings are lists of bytes in UTF-8 ([OsStr]); the separators are ASCII, so that
    splitting by bytes is splitting by characters. *)

From Stdlib Require Import Ascii String.
From S2P Require Import Prelude Operation Paths.

Local Open Scope Z_scope.

(** ** Text *)

(** The bytes of a literal. *)
Fixpoint text (s : String.string) : OsStr :=
  match s with
  | String.EmptyString => []
  | String.String a s => Z.of_N (Ascii.N_of_ascii a) :: text s
  end.
Arguments text s%_string_scope.

Definition comma : Z := 44.
Fixpoint starts_with (p s : OsStr) : bool :=
  match p, s with
  | [], _ => true
  | c :: p, d :: s => (c =? d) && starts_with p s
  | _, _ => false
  end.
(** [str::split]: always at least one part. *)
Fixpoint split_at (sep : Z) (s : OsStr) : list OsStr :=
  match s with
  | [] => [[]]
  | c :: s =>
      if c =? sep then [] :: split_at sep s
      else match split_at sep s with w :: ws => (c :: w) :: ws | [] => [[c]] end
  end.
(** [slice::join]. *)
Fixpoint join_with (sep : Z) (ws : list OsStr) : OsStr :=
  match ws with
  | [] => []
  | [w] => w
  | w :: ws => w ++ sep :: join_with sep ws
  end.

(** ** Numbers in text *)

(** [format!("{}")] and [format!("{:o}")] of a number that is not negative. *)
Fixpoint digits_loop (fuel : nat) (base n : Z) (acc : OsStr) : OsStr :=
  match fuel with
  | O => acc
  | S fuel => let acc := (48 + n `mod` base) :: acc in
              if n `div` base =? 0 then acc else digits_loop fuel base (n `div` base) acc
  end.
Definition digits (base n : Z) : OsStr := digits_loop (S (Z.to_nat (Z.log2 n))) base n [].

(** ** Facts about text *)

Lemma starts_with_spec p s : starts_with p s = true ↔ ∃ r, s = p ++ r.
Proof.
  revert s. induction p as [|c p IH]; intros s; [split; [by exists s|done]|]. destruct s as [|d s]; cbn.
  - split; [done|]. by intros [r Hr].
  - rewrite andb_true_iff, Z.eqb_eq, IH. split; [intros [-> [r ->]]; by exists r|]. intros [r [= -> ->]]. split; [done|by exists r].
Qed.
Lemma starts_with_app p s : starts_with p (p ++ s) = true.
Proof. apply starts_with_spec. by exists s. Qed.

Lemma split_at_word sep w : sep ∉ w → split_at sep w = [w].
Proof.
  induction w as [|c w IH]; intros Hn; [done|]. apply not_elem_of_cons in Hn as [Hc Hw]. cbn.
  rewrite (proj2 (Z.eqb_neq c sep)) by congruence. by rewrite IH.
Qed.
Lemma split_at_app sep w s : sep ∉ w → split_at sep (w ++ sep :: s) = w :: split_at sep s.
Proof.
  induction w as [|c w IH]; intros Hn; cbn; [by rewrite Z.eqb_refl|]. apply not_elem_of_cons in Hn as [Hc Hw].
  rewrite (proj2 (Z.eqb_neq c sep)) by congruence. by rewrite IH.
Qed.
Lemma split_at_not_nil sep s : split_at sep s ≠ [].
Proof. destruct s as [|c s]; [done|]. cbn. destruct (c =? sep); [done|]. by destruct (split_at sep s). Qed.
Lemma split_at_concat sep a s : split_at sep (a ++ sep :: s) = split_at sep a ++ split_at sep s.
Proof.
  induction a as [|c a IH]; cbn; [by rewrite Z.eqb_refl|]. destruct (c =? sep) eqn:Hc; [by rewrite IH|].
  rewrite IH. pose proof (split_at_not_nil sep a). by destruct (split_at sep a).
Qed.
Lemma split_at_join_words sep ws : ws ≠ [] → split_at sep (join_with sep ws) = ws ≫= split_at sep.
Proof.
  induction ws as [|w ws IH]; intros Hne; [done|]. destruct ws as [|w' ws]; [by rewrite bind_cons, app_nil_r|].
  change (join_with sep (w :: w' :: ws)) with (w ++ sep :: join_with sep (w' :: ws)).
  by rewrite split_at_concat, IH.
Qed.
(** Splitting undoes joining. *)
Lemma split_join sep ws : ws ≠ [] → Forall (λ w, sep ∉ w) ws → split_at sep (join_with sep ws) = ws.
Proof.
  induction ws as [|w ws IH]; intros Hne Hws; [done|]. apply Forall_cons in Hws as [Hw Hws].
  destruct ws as [|w' ws]; [by apply split_at_word|]. cbn [join_with]. rewrite split_at_app by done. f_equal. by apply IH.
Qed.
Lemma is_utf8_join sep ws : 0 ≤ sep < 128 → Forall (λ w, is_utf8 w = true) ws → is_utf8 (join_with sep ws) = true.
Proof.
  intros Hsep Hws. induction Hws as [|w ws Hw Hws IH]; [done|]. destruct ws as [|w' ws]; [done|].
  cbn [join_with]. rewrite is_utf8_app by done. cbn [is_utf8]. by rewrite (proj2 (Z.ltb_lt sep 128)) by lia.
Qed.

(** ** Facts about numbers in text *)

Definition digits_value (base : Z) (ds : OsStr) : Z := foldl (λ v d, v * base + (d - 48)) 0 ds.

Lemma digits_value_snoc base ds d : digits_value base (ds ++ [d]) = digits_value base ds * base + (d - 48).
Proof. unfold digits_value. by rewrite foldl_snoc. Qed.
Lemma digits_loop_spec base fuel : ∀ n acc, 2 ≤ base → 0 ≤ n < 2 ^ Z.of_nat fuel → (0 < fuel)%nat →
  ∃ ds, digits_loop fuel base n acc = ds ++ acc ∧ digits_value base ds = n ∧ Forall (λ d, 48 ≤ d < 48 + base) ds.
Proof.
  induction fuel as [|fuel IH]; intros n acc Hb Hn Hf; [lia|]. cbn [digits_loop].
  pose proof (Z.mod_pos_bound n base ltac:(lia)). pose proof (Z.div_mod n base ltac:(lia)) as Hdm.
  destruct (Z.eqb_spec (n `div` base) 0) as [H0|H0].
  - exists [48 + n `mod` base]. split; [done|]. split; [unfold digits_value; cbn; lia|]. repeat constructor; lia.
  - assert (0 < n `div` base < 2 ^ Z.of_nat fuel) as Hd.
    { rewrite Nat2Z.inj_succ, Z.pow_succ_r in Hn by lia. pose proof (Z.div_pos n base ltac:(lia) ltac:(lia)).
      split; [lia|]. apply Z.div_lt_upper_bound; [lia|]. nia. }
    destruct (IH (n `div` base) ((48 + n `mod` base) :: acc) Hb ltac:(lia)) as (ds & -> & Hv & Hds).
    { destruct fuel; [cbn in Hd; lia|lia]. }
    exists (ds ++ [48 + n `mod` base]). split; [by rewrite <- app_assoc|]. split; [rewrite digits_value_snoc, Hv; lia|].
    apply Forall_app. split; [done|]. repeat constructor; lia.
Qed.
Lemma digits_spec base n : 2 ≤ base → 0 ≤ n →
  digits_value base (digits base n) = n ∧ Forall (λ d, 48 ≤ d < 48 + base) (digits base n).
Proof.
  intros Hb Hn. unfold digits. destruct (digits_loop_spec base (S (Z.to_nat (Z.log2 n))) n [] Hb) as (ds & -> & Hv & Hds); [|lia|].
  - rewrite Nat2Z.inj_succ, Z2Nat.id by apply Z.log2_nonneg. split; [done|].
    destruct (Z.eq_dec n 0) as [->|]; [done|]. apply Z.log2_spec. lia.
  - by rewrite app_nil_r.
Qed.
(** A text of digits has no byte below the digit 0. *)
Lemma digits_without base n c : 2 ≤ base → c < 48 → c ∉ digits base n.
Proof.
  intros Hb Hc. unfold digits. generalize (S (Z.to_nat (Z.log2 n))). intros fuel.
  assert (∀ n acc, c ∉ acc → c ∉ digits_loop fuel base n acc) as H; [|by apply H; intros []%not_elem_of_nil].
  clear n. induction fuel as [|fuel IH]; intros n acc Hacc; [done|]. cbn [digits_loop].
  assert (c ∉ (48 + n `mod` base) :: acc) as Hn.
  { intros [He|?]%elem_of_cons; [|done]. pose proof (Z.mod_pos_bound n base ltac:(lia)). lia. }
  destruct (_ =? _); [done|by apply IH].
Qed.
(** Different numbers have different texts. *)
Lemma digits_inj base m n : 2 ≤ base → 0 ≤ m → 0 ≤ n → digits base m = digits base n → m = n.
Proof.
  intros Hb Hm Hn E. destruct (digits_spec base m Hb Hm) as [<- _], (digits_spec base n Hb Hn) as [<- _]. by rewrite E.
Qed.

(** ** Paths as text *)

Lemma split_slash_at s : split_slash s = split_at slash s.
Proof.
  induction s as [|b s IH]; [done|]. cbn [split_slash split_at]. rewrite IH. pose proof (split_at_not_nil slash s).
  destruct (split_at slash s); [done|]. by destruct (b =? slash).
Qed.
Lemma components_app a b : components (a ++ slash :: b) = components a ++ components b.
Proof. unfold components. by rewrite !split_slash_at, split_at_concat, filter_app. Qed.
(** A name that is one component. *)
Definition plain_name (n : OsStr) : Prop := n ≠ [] ∧ n ≠ dot ∧ n ≠ dotdot ∧ slash ∉ n.
#[export] Instance plain_name_dec n : Decision (plain_name n) := _.
Lemma components_plain n : plain_name n → components n = [n].
Proof. intros (Hn & Hd & _ & Hs). unfold components. rewrite split_slash_plain by done. by rewrite filter_cons_True. Qed.

(** [Path::parent] on the text of a path: trailing separators and [.] do not count,
    but for a first component. *)
Fixpoint trim_back (segments : list OsStr) : list OsStr :=
  match segments with
  | [] => []
  | [c] => [c]
  | c :: cs => if decide (c = [] ∨ c = dot) then trim_back cs else segments
  end.
Definition path_of_segments (segments : list OsStr) : OsStr :=
  if decide (segments = [[]]) then [slash] else join_with slash (rev segments).
Definition Path_parent (p : OsStr) : option OsStr :=
  match trim_back (rev (split_slash p)) with
  | [] | [[]] => None
  | [_] => Some []
  | _ :: cs => Some (path_of_segments (trim_back cs))
  end.

Example Path_parent_examples :
  Path_parent (text "/a/b") = Some (text "/a") ∧ Path_parent (text "/a") = Some (text "/") ∧
  Path_parent (text "/") = None ∧ Path_parent (text "a") = Some [] ∧ Path_parent (text "a/./b/.") = Some (text "a") ∧
  Path_parent (text "r/5/") = Some (text "r") ∧ Path_parent (text "r/5/..") = Some (text "r/5").
Proof. by vm_compute. Qed.

Lemma join_split sep s : join_with sep (split_at sep s) = s.
Proof.
  induction s as [|c s IH]; [done|]. cbn [split_at]. pose proof (split_at_not_nil sep s) as Hn.
  destruct (Z.eqb_spec c sep) as [->|Hc].
  - destruct (split_at sep s); [done|]. cbn [join_with] in *. by rewrite IH.
  - destruct (split_at sep s) as [|w ws]; [done|]. destruct ws; cbn in *; by rewrite IH.
Qed.
(** The parent of an entry of a directory whose path ends in a plain name. *)
Lemma Path_parent_entry a d n : plain_name d → plain_name n →
  Path_parent (a ++ slash :: d ++ slash :: n) = Some (a ++ slash :: d).
Proof.
  intros (Hd1 & Hd2 & _ & Hds) (Hn1 & Hn2 & _ & Hns). unfold Path_parent.
  rewrite split_slash_at, split_at_concat, split_at_app, (split_at_word slash n) by done.
  pose proof (split_at_not_nil slash a) as Ha.
  rewrite rev_app_distr. cbn [rev app].
  destruct (rev (split_at slash a)) as [|s0 ss] eqn:Hrev.
  { by apply (f_equal (@rev _)) in Hrev; rewrite rev_involutive in Hrev. }
  cbn [trim_back]. rewrite decide_False by (by intros [?|?]). destruct n as [|b n]; [done|].
  cbn [trim_back]. rewrite decide_False by (by intros [?|?]). f_equal. unfold path_of_segments.
  rewrite decide_False by (by intros [=]).
  rewrite <- Hrev. cbn [rev]. rewrite rev_involutive.
  rewrite <- (split_at_word slash d) by done. rewrite <- split_at_concat. apply join_split.
Qed.

Abbreviation counts := (λ c : OsStr, c ≠ [] ∧ c ≠ dot).
Lemma split_at_words sep s : Forall (λ w, sep ∉ w) (split_at sep s).
Proof.
  induction s as [|c s IH]; [by repeat constructor; set_solver|]. cbn [split_at].
  destruct (Z.eqb_spec c sep) as [->|Hc]; [constructor; [set_solver|done]|].
  destruct (split_at sep s) as [|w ws]; [by repeat constructor; set_solver|].
  apply Forall_cons in IH as [? ?]. constructor; [set_solver|done].
Qed.
Lemma trim_back_cons c d l : trim_back (c :: d :: l) = if decide (c = [] ∨ c = dot) then trim_back (d :: l) else c :: d :: l.
Proof. done. Qed.
Lemma trim_back_nonempty c l : trim_back (c :: l) ≠ [].
Proof. revert c. induction l as [|d l IH]; intros c; [done|]. rewrite trim_back_cons. case_decide; [apply IH|done]. Qed.
Lemma trim_back_filter l : filter counts (rev (trim_back l)) = filter counts (rev l).
Proof.
  induction l as [|c [|d l] IH]; [done..|]. rewrite trim_back_cons. case_decide as Hc; [|done].
  rewrite IH. cbn [rev]. rewrite (filter_app _ _ [c]), (filter_cons_False _ c), filter_nil, app_nil_r; [done|naive_solver].
Qed.
Lemma trim_back_sub l : Forall (λ w, slash ∉ w) l → Forall (λ w, slash ∉ w) (trim_back l).
Proof.
  induction l as [|c [|d l] IH]; [done..|]. intros Hl. rewrite trim_back_cons. case_decide; [|done].
  apply IH. by apply Forall_cons in Hl as [_ Hl].
Qed.
Lemma trim_back_head c d l : ∀ m, trim_back m = c :: d :: l → counts c.
Proof.
  induction m as [|e [|f m] IH]; [done..|]. rewrite trim_back_cons. case_decide as He; [apply IH|]. intros [= <- _]. naive_solver.
Qed.
Lemma components_of_segments l : l ≠ [] → Forall (λ w, slash ∉ w) l → components (path_of_segments l) = filter counts (rev l).
Proof.
  intros Hne Hl. unfold path_of_segments. case_decide as Hc; [by subst|]. unfold components.
  rewrite split_slash_at, split_join; [done| |by apply Forall_reverse in Hl; rewrite rev_alt].
  intros E. apply (f_equal length) in E. rewrite length_rev in E. by destruct l.
Qed.
(** The parent loses the last component. *)
Lemma Path_parent_components p q : Path_parent p = Some q → components q = removelast (components p).
Proof.
  unfold Path_parent, components at 2. pose proof (trim_back_filter (rev (split_slash p))) as Hf. rewrite rev_involutive in Hf.
  rewrite <- Hf. pose proof (trim_back_sub (rev (split_slash p))) as Hs. rewrite split_slash_at in *.
  specialize (Hs ltac:(apply Forall_rev, split_at_words)).
  destruct (trim_back (rev _)) as [|c [|d l]] eqn:Ht; [done| |].
  - intros Hq. assert (q = []) as -> by (destruct c; [done|]; by injection Hq as <-). cbn [rev app].
    assert (components [] = []) as -> by done. destruct (decide (counts c)); [by rewrite filter_cons_True|by rewrite filter_cons_False].
  - intros Hq. assert (q = path_of_segments (trim_back (d :: l))) as -> by (destruct c; by injection Hq as <-). apply trim_back_head in Ht. apply Forall_cons in Hs as [_ Hs].
    rewrite components_of_segments, trim_back_filter; [|apply trim_back_nonempty|by apply trim_back_sub].
    cbn [rev]. rewrite (filter_app _ _ [c]), (filter_cons_True _ c), filter_nil by done. by rewrite removelast_last.
Qed.
