(* ===== verification/KvStore.v ===== *)
(** * KvStore: the worker's store of keys and values in files

    [LocalFileKVStore] ([common/src/kv_store/local_kv_store/local_file_kv_store.rs]),
    with the trait [Key] ([kv_store/mod.rs]): a value is the content of the file
    [root_path/bucket/key], the bucket a hash of the key.  [put] and [get] are
    programs of calls of monoio's [File] and of [std::fs].

    The disk is a parameter: [Disk] with what its documentation promises ([DiskLaws],
    for a disk whose calls may fail at any time, and [DiskWorks], for one that fails
    only for what is not there).  Paths are those below a root without links. *)

From Stdlib Require Import Ascii String.
From S2P Require Import Prelude Programs Operation Paths Text Response.

Local Open Scope Z_scope.

(** ** The calls *)

Inductive KvSys : Type → Type :=
  | Kv_create (path : OsStr) : KvSys Z                       (* File::create *)
  | Kv_create_dir_all (path : OsStr) : KvSys unit            (* std::fs::create_dir_all *)
  | Kv_open (path : OsStr) : KvSys Z                         (* File::open *)
  | Kv_metadata_len (path : OsStr) : KvSys Z                 (* std::fs::metadata, len *)
  | Kv_write_all_at (fd : Z) (data : list Z) (pos : Z) : KvSys unit
  | Kv_read_exact_at (fd len pos : Z) : KvSys (list Z)
  | Kv_close (fd : Z) : KvSys unit                           (* File::close *)
  | Kv_drop (fd : Z) : KvSys unit.                           (* the drop of a File *)

Abbreviation Prog := (Prog KvSys).

(** ** The store *)

(** [DefaultHasher::new()] fed with a string: some fixed function to 64 bits. *)
Class StringHasher := default_hash : list Z → Z.

Record LocalFileKVStoreOptions : Type := MkKvOptions { root_path : OsStr; num_bucket : Z; chuck_size : Z }.
Record LocalFileKVStore : Type := MkKvStore { options : LocalFileKVStoreOptions }.

Section store.
Context `{C : Libc, SH : StringHasher}.

(** [impl Key for String]. *)
Definition short_hash (id : OsStr) : Z := wrap 16 (default_hash id).
Definition filename (id : OsStr) : OsStr := id.

Definition LocalFileKVStore_new (options : LocalFileKVStoreOptions) : LocalFileKVStore := MkKvStore options.

(** The remainder panics for no buckets. *)
Definition data_path (self : LocalFileKVStore) (id : OsStr) : outcome OsStr :=
  if decide (num_bucket (options self) = 0) then Panic
  else Ret (root_path (options self) ++ slash :: digits 10 (short_hash id `mod` num_bucket (options self))
              ++ slash :: filename id).

Definition create_file (path : OsStr) : Prog (Z + Z) :=
  opened ← call (Kv_create path);
  match opened with
  | inr file => Done (inr file)
  | inl error =>
      if decide (error = ENOENT) then
        prefix ← pure (unwrap (Path_parent path));
        and_then (call (Kv_create_dir_all prefix)) (λ _, call (Kv_create path))
      else Done (inl error)
  end.

Definition kv_put (self : LocalFileKVStore) (id : OsStr) (buf : list Z) : Prog (Z + unit) :=
  path ← pure (data_path self id);
  and_then (create_file path) (λ file,
    res ← call (Kv_write_all_at file buf 0);
    match res with
    | inl e => _ ← call (Kv_drop file); Done (inl e)
    | inr _ => call (Kv_close file)
    end).

Definition kv_get (self : LocalFileKVStore) (id : OsStr) : Prog (Z + list Z) :=
  path ← pure (data_path self id);
  and_then (call (Kv_open path)) (λ f,
    metadata ← call (Kv_metadata_len path);
    match metadata with
    | inl e => _ ← call (Kv_drop f); Done (inl e)
    | inr file_size =>
        _ ← pure (assert_ (file_size <? 2 ^ 63));      (* capacity of vec![0; file_size] *)
        res ← call (Kv_read_exact_at f file_size 0);
        match res with
        | inl e => _ ← call (Kv_drop f); Done (inl e)
        | inr buf => and_then (call (Kv_close f)) (λ _, Done (inr buf))
        end
    end).
End store.

(** ** Disks *)

(** What a disk keeps: the contents of its files, its directories, and the files
    that are open. *)
Class Disk (H : Type) := {
  disk_system :: System KvSys H;
  files : H → gmap PathBuf (list Z);
  dirs : H → gset PathBuf;
  fds : H → gmap Z PathBuf }.

(** A path that stays below where it starts. *)
Definition proper (p : OsStr) : Prop := dotdot ∉ components p.
(** [pwrite] at the end or within a file, and a gap filled with zeros. *)
Definition overwrite (old : list Z) (pos : Z) (data : list Z) : list Z :=
  take (Z.to_nat pos) old ++ replicate (Z.to_nat pos - length old) 0 ++ data ++ drop (Z.to_nat pos + length data) old.

(** Every call may fail; a failed write leaves anything in its file. *)
Class DiskLaws {H} (D : Disk H) : Prop := {
  law_create p h r h' : proper p → sys (Kv_create p) h = (r, h') →
    dirs h' = dirs h ∧
    match r with
    | inr fd => fds h !! fd = None ∧ fds h' = <[fd := components p]> (fds h) ∧ files h' = <[components p := []]> (files h)
    | inl _ => fds h' = fds h ∧ files h' = files h
    end;
  law_create_dir_all p h r h' : proper p → sys (Kv_create_dir_all p) h = (r, h') →
    files h' = files h ∧ fds h' = fds h ∧
    (∀ q, q ∈ dirs h → q ∈ dirs h') ∧ (∀ q, q ∈ dirs h' → q ∈ dirs h ∨ q `prefix_of` components p) ∧
    (r = inr tt → ∀ q, q `prefix_of` components p → q ∈ dirs h');
  law_open p h r h' : proper p → sys (Kv_open p) h = (r, h') →
    files h' = files h ∧ dirs h' = dirs h ∧
    match r with
    | inr fd => fds h !! fd = None ∧ fds h' = <[fd := components p]> (fds h)
    | inl _ => fds h' = fds h
    end;
  law_metadata p h r h' : proper p → sys (Kv_metadata_len p) h = (r, h') →
    files h' = files h ∧ dirs h' = dirs h ∧ fds h' = fds h ∧
    (∀ n, r = inr n → 0 ≤ n < 2 ^ 63 ∧ ∀ c, files h !! components p = Some c → n = Z.of_nat (length c));
  law_write fd q c data pos h r h' : fds h !! fd = Some q → files h !! q = Some c →
    sys (Kv_write_all_at fd data pos) h = (r, h') →
    dirs h' = dirs h ∧ fds h' = fds h ∧
    ∃ c', files h' = <[q := c']> (files h) ∧ (r = inr tt → c' = overwrite c pos data);
  law_read fd len pos h r h' : sys (Kv_read_exact_at fd len pos) h = (r, h') →
    files h' = files h ∧ dirs h' = dirs h ∧ fds h' = fds h ∧
    (∀ q c data, r = inr data → fds h !! fd = Some q → files h !! q = Some c →
       data = take (Z.to_nat len) (drop (Z.to_nat pos) c));
  law_close fd h r h' : sys (Kv_close fd) h = (r, h') →
    files h' = files h ∧ dirs h' = dirs h ∧ fds h' = delete fd (fds h);
  law_drop fd h r h' : sys (Kv_drop fd) h = (r, h') →
    files h' = files h ∧ dirs h' = dirs h ∧ fds h' = delete fd (fds h) }.

(** No file is where the path needs a directory. *)
Definition clear `{Disk H} (p : OsStr) (h : H) : Prop := ∀ q, q `prefix_of` components p → files h !! q = None.
(** Nothing fails but for what is not there, or is a directory. *)
Class DiskWorks {H} `{LC : Libc} (D : Disk H) : Prop := {
  works_create p h : proper p → removelast (components p) ∈ dirs h → components p ∉ dirs h →
    ∃ fd, fst (sys (Kv_create p) h) = inr fd;
  works_create_missing p h : proper p → clear p h → removelast (components p) ∉ dirs h → fst (sys (Kv_create p) h) = inl ENOENT;
  works_create_dir_all p h : proper p → clear p h →
    fst (sys (Kv_create_dir_all p) h) = inr tt;
  works_open p h : proper p → is_Some (files h !! components p) → ∃ fd, fst (sys (Kv_open p) h) = inr fd;
  works_open_missing p h : proper p → clear p h → components p ∉ dirs h →
    fst (sys (Kv_open p) h) = inl ENOENT;
  works_metadata p h c : proper p → files h !! components p = Some c → Z.of_nat (length c) < 2 ^ 63 →
    ∃ n, fst (sys (Kv_metadata_len p) h) = inr n;
  works_write fd data pos h : is_Some (fds h !! fd) → fst (sys (Kv_write_all_at fd data pos) h) = inr tt;
  works_read fd len pos h q c : fds h !! fd = Some q → files h !! q = Some c → pos + len ≤ Z.of_nat (length c) →
    ∃ data, fst (sys (Kv_read_exact_at fd len pos) h) = inr data;
  works_close fd h : is_Some (fds h !! fd) → fst (sys (Kv_close fd) h) = inr tt }.

(** ** Paths of keys *)

(** A key that is the name of a file. *)
Definition good_key (id : OsStr) : Prop := plain_name id.

Section paths.
Context `{SH : StringHasher} (self : LocalFileKVStore).

Definition bucket (id : OsStr) : Z := short_hash id `mod` num_bucket (options self).
Definition bucket_path (id : OsStr) : OsStr := root_path (options self) ++ slash :: digits 10 (bucket id).
Definition key_path (id : OsStr) : PathBuf := components (root_path (options self)) ++ [digits 10 (bucket id); id].

(** The root has no [..], and there is a bucket. *)
Definition store_ok : Prop := proper (root_path (options self)) ∧ 0 < num_bucket (options self) < 2 ^ 16.

Lemma digits_plain n : 0 ≤ n → plain_name (digits 10 n).
Proof.
  intros Hn. assert (∀ c, c < 48 → c ∉ digits 10 n) as Hc by (intros c; by apply digits_without).
  assert (digits 10 n ≠ []) as Hne.
  { unfold digits. cbn [digits_loop]. destruct (_ =? _); [done|].
    generalize (Z.to_nat (Z.log2 n)) (n `div` 10) (48 + n `mod` 10). intros fuel. intros m d E.
    assert (∀ fuel m acc, acc ≠ [] → digits_loop fuel 10 m acc ≠ []) as H; [|by apply H in E].
    clear. induction fuel as [|fuel IH]; intros m acc Ha; [done|]. cbn [digits_loop]. destruct (_ =? _); [done|]. by apply IH. }
  split_and!; [done|intros E..|]; [| |by apply Hc].
  - apply (Hc 46); [lia|]. rewrite E. by constructor.
  - apply (Hc 46); [lia|]. rewrite E. by constructor.
Qed.

Context (Hok : store_ok).

Lemma bucket_bounds id : 0 ≤ bucket id < num_bucket (options self).
Proof. apply Z.mod_pos_bound. apply Hok. Qed.
Lemma data_path_eq id : data_path self id = Ret (bucket_path id ++ slash :: id).
Proof.
  unfold data_path, bucket_path. rewrite decide_False by (pose proof (proj2 Hok); lia). by rewrite <- app_assoc.
Qed.
Lemma bucket_components id : components (bucket_path id) = components (root_path (options self)) ++ [digits 10 (bucket id)].
Proof. unfold bucket_path. rewrite components_app, (components_plain (digits 10 _)); [done|]. apply digits_plain, bucket_bounds. Qed.
Lemma key_components id : good_key id → components (bucket_path id ++ slash :: id) = key_path id.
Proof. intros Hid. rewrite components_app, bucket_components, (components_plain id) by done. unfold key_path. by rewrite <- app_assoc. Qed.
Lemma bucket_proper id : proper (bucket_path id).
Proof.
  unfold proper. rewrite bucket_components. intros [Hin|Hin%list_elem_of_singleton]%elem_of_app; [by apply (proj1 Hok)|].
  destruct (digits_plain (bucket id)) as (_ & _ & Hd & _); [apply bucket_bounds|]. by apply Hd.
Qed.
Lemma key_proper id : good_key id → proper (bucket_path id ++ slash :: id).
Proof.
  intros Hid. unfold proper. rewrite components_app, (components_plain id) by done.
  intros [Hin|Hin%list_elem_of_singleton]%elem_of_app; [by apply (bucket_proper id)|]. by destruct Hid as (_ & _ & Hd & _).
Qed.
Lemma key_parent id : good_key id → Path_parent (bucket_path id ++ slash :: id) = Some (bucket_path id).
Proof.
  intros Hid. unfold bucket_path. rewrite <- app_assoc. apply Path_parent_entry; [|done]. apply digits_plain, bucket_bounds.
Qed.
Lemma key_path_inj id id' : key_path id = key_path id' → id = id'.
Proof. unfold key_path. intros E. apply app_inj_2 in E as [_ [=]]; done. Qed.
Lemma key_path_removelast id : removelast (key_path id) = components (bucket_path id).
Proof. rewrite bucket_components. unfold key_path. by rewrite removelast_app. Qed.
End paths.

(** ** A disk that may fail *)

Section laws.
Context `{C : Libc, SH : StringHasher} {H : Type} {D : Disk H} {DL : DiskLaws D}.
Context (self : LocalFileKVStore) (Hok : store_ok self).
Implicit Types (h : H) (id : OsStr).

(** The same files, directories and open files, but for those of [P], [fd]. *)
Definition same_but (q : PathBuf) (h h' : H) : Prop := ∀ q', q' ≠ q → files h' !! q' = files h !! q'.

Lemma create_file_safe id h : good_key id →
  ∃ r h', run (create_file (bucket_path self id ++ slash :: id)) h = Ret (r, h') ∧
    match r with
    | inr fd => fds h !! fd = None ∧ fds h' = <[fd := key_path self id]> (fds h) ∧ files h' = <[key_path self id := []]> (files h)
    | inl _ => fds h' = fds h ∧ files h' = files h
    end.
Proof.
  intros Hid. set (p := bucket_path self id ++ slash :: id).
  pose proof (key_proper self Hok id Hid) as Hp. fold p in Hp.
  pose proof (key_components self Hok id Hid) as Hc. fold p in Hc. rewrite <- Hc.
  unfold create_file. cbn. destruct (sys (Kv_create p) h) as [r h1] eqn:E1.
  apply law_create in E1 as [_ E1]; [|done]. destruct r as [e|fd]; cbn; [|eauto].
  destruct E1 as [F1 G1]. case_decide; [|by exists (inl e), h1].
  rewrite (key_parent self Hok id Hid : Path_parent p = _). cbn.
  destruct (sys (Kv_create_dir_all _) h1) as [r2 h2] eqn:E2.
  apply law_create_dir_all in E2 as (G2 & F2 & _); [|by apply bucket_proper].
  destruct r2 as [e2|[]]; cbn; [exists (inl e2), h2; by rewrite F2, G2|].
  destruct (sys (Kv_create p) h2) as [r3 h3] eqn:E3.
  apply law_create in E3 as [_ E3]; [|done]. exists r3, h3. split; [done|].
  rewrite F2, G2, F1, G1 in E3. exact E3.
Qed.

(** A put changes only the file of its key and closes the file it opens; if it
    answers without an error, the file holds the value. *)
Lemma kv_put_frames id buf h : good_key id →
  ∃ r h', run (kv_put self id buf) h = Ret (r, h') ∧ fds h' = fds h ∧ same_but (key_path self id) h h' ∧
    (r = inr tt → files h' !! key_path self id = Some buf).
Proof.
  intros Hid. unfold kv_put. rewrite data_path_eq, run_pure_Ret, run_then by done.
  destruct (create_file_safe id h Hid) as (r & h1 & -> & Hr). cbn [mbind outcome_bind]. destruct r as [e|fd].
  { destruct Hr as [F G]. exists (inl e), h1. split_and!; [done..| |done]. intros q _. by rewrite G. }
  destruct Hr as (Hfree & F1 & G1). cbn.
  destruct (sys (Kv_write_all_at fd buf 0) h1) as [r2 h2] eqn:E2.
  apply (law_write fd (key_path self id) []) in E2 as (_ & F2 & c' & G2 & Hc').
  2: { by rewrite F1, lookup_insert_eq. }
  2: { by rewrite G1, lookup_insert_eq. }
  assert (∀ h3, fds h3 = delete fd (fds h2) → files h3 = files h2 → fds h3 = fds h ∧ same_but (key_path self id) h h3 ∧ files h3 !! key_path self id = Some c') as Hend.
  { intros h3 F3 G3. rewrite F3, F2, F1, delete_insert_id by done. split; [done|].
    rewrite G3, G2, lookup_insert_eq. split; [|done]. intros q Hq. by rewrite G3, G2, lookup_insert_ne, G1, lookup_insert_ne. }
  destruct r2 as [e|[]]; cbn.
  - destruct (sys (Kv_drop fd) h2) as [r3 h3] eqn:E3. apply law_drop in E3 as (G3 & _ & F3).
    destruct (Hend _ F3 G3) as (? & ? & ?). exists (inl e), h3. by split_and!.
  - destruct (sys (Kv_close fd) h2) as [r3 h3] eqn:E3. apply law_close in E3 as (G3 & _ & F3).
    destruct (Hend _ F3 G3) as (? & ? & Hc). exists r3, h3. split_and!; [done..|]. intros _.
    rewrite Hc, Hc' by done. unfold overwrite. cbn. by rewrite drop_nil, app_nil_r.
Qed.

(** A get changes nothing; what it answers is the content of the key's file. *)
Lemma kv_get_frames id h : good_key id →
  ∃ r h', run (kv_get self id) h = Ret (r, h') ∧ fds h' = fds h ∧ files h' = files h ∧
    (∀ v c, r = inr v → files h !! key_path self id = Some c → v = c).
Proof.
  intros Hid. unfold kv_get. rewrite data_path_eq by done. cbn. set (p := bucket_path self id ++ slash :: id).
  pose proof (key_proper self Hok id Hid) as Hp. fold p in Hp.
  pose proof (key_components self Hok id Hid) as Hc. fold p in Hc. rewrite <- Hc.
  destruct (sys (Kv_open p) h) as [r h1] eqn:E1. apply law_open in E1 as (G1 & _ & F1); [|done].
  destruct r as [e|fd]; [exists (inl e), h1; by split_and!|]. destruct F1 as [Hfree F1]. cbn.
  destruct (sys (Kv_metadata_len p) h1) as [r2 h2] eqn:E2. apply law_metadata in E2 as (G2 & _ & F2 & Hn); [|done].
  assert (∀ h3, fds h3 = delete fd (fds h2) → files h3 = files h2 → fds h3 = fds h ∧ files h3 = files h) as Hend.
  { intros h3 F3 G3. by rewrite F3, F2, F1, delete_insert_id, G3, G2, G1. }
  destruct r2 as [e|n]; cbn.
  { destruct (sys (Kv_drop fd) h2) as [r3 h3] eqn:E3. apply law_drop in E3 as (G3 & _ & F3).
    destruct (Hend _ F3 G3) as [? ?]. exists (inl e), h3. by split_and!. }
  destruct (Hn n eq_refl) as [Hb Hlen]. rewrite (proj2 (Z.ltb_lt n (2 ^ 63))) by lia. cbn.
  destruct (sys (Kv_read_exact_at fd n 0) h2) as [r3 h3] eqn:E3. apply law_read in E3 as (G3 & _ & F3 & Hd).
  destruct r3 as [e|data]; cbn.
  { destruct (sys (Kv_drop fd) h3) as [r4 h4] eqn:E4. apply law_drop in E4 as (G4 & _ & F4).
    rewrite F3 in F4. rewrite G3 in G4. destruct (Hend _ F4 G4) as [? ?]. exists (inl e), h4. by split_and!. }
  destruct (sys (Kv_close fd) h3) as [r4 h4] eqn:E4. apply law_close in E4 as (G4 & _ & F4).
  rewrite F3 in F4. rewrite G3 in G4. destruct (Hend _ F4 G4) as [? ?].
  destruct r4 as [e|[]]; cbn; [exists (inl e), h4; by split_and!|]. exists (inr data), h4. split_and!; [done..|].
  intros v c [= <-] Hf. rewrite (Hd (components p) c data eq_refl).
  - rewrite G1 in Hlen. rewrite (Hlen c Hf), Nat2Z.id. cbn. by rewrite drop_0, firstn_all.
  - by rewrite F2, F1, lookup_insert_eq.
  - by rewrite G2, G1.
Qed.
End laws.

(** ** A disk that works *)

Section works.
Context `{C : Libc, SH : StringHasher} {H : Type} {D : Disk H} {DL : DiskLaws D} {DW : DiskWorks D}.
Context (self : LocalFileKVStore) (Hok : store_ok self).
Implicit Types (h : H) (id : OsStr).

(** Nothing is in the way of the store's files, and a file is in a directory. *)
Record tidy h : Prop := {
  tidy_clear id : clear (bucket_path self id) h;
  tidy_dirs id : good_key id → key_path self id ∉ dirs h;
  tidy_parent id : good_key id → is_Some (files h !! key_path self id) → components (bucket_path self id) ∈ dirs h }.

Lemma key_path_snoc id : key_path self id = components (bucket_path self id) ++ [id].
Proof. rewrite bucket_components by done. unfold key_path. by rewrite <- app_assoc. Qed.
Lemma key_path_long id id' : ¬ key_path self id `prefix_of` components (bucket_path self id').
Proof.
  rewrite bucket_components by done. unfold key_path. intros Hp%prefix_length. rewrite !length_app in Hp. simpl in Hp. lia.
Qed.
Lemma key_clear id h : good_key id → clear (bucket_path self id) h → files h !! key_path self id = None →
  clear (bucket_path self id ++ slash :: id) h.
Proof.
  intros Hid Hc Hf q Hq. rewrite key_components, key_path_snoc in Hq by done. destruct Hq as [k Hk].
  destruct k as [|x k _] using rev_ind; [rewrite app_nil_r in Hk; by rewrite <- Hk, <- key_path_snoc|].
  rewrite app_assoc in Hk. apply app_inj_tail in Hk as [Hk _]. apply Hc. by exists k.
Qed.
Lemma tidy_step id h h' : tidy h → same_but (key_path self id) h h' → dirs h' = dirs h →
  components (bucket_path self id) ∈ dirs h → tidy h'.
Proof.
  intros Ht Hs He Hin. split.
  - intros id' q Hq. rewrite Hs; [by apply (tidy_clear h Ht id')|]. intros ->. by apply (key_path_long id id').
  - rewrite He. apply Ht.
  - intros id' Hid'. rewrite He. destruct (decide (id' = id)) as [->|Hne]; [done|].
    rewrite Hs by (by intros ?%key_path_inj). by apply Ht.
Qed.

Lemma create_works id h : tidy h → good_key id → components (bucket_path self id) ∈ dirs h →
  ∃ fd h', sys (Kv_create (bucket_path self id ++ slash :: id)) h = (inr fd, h') ∧ tidy h' ∧ dirs h' = dirs h.
Proof.
  intros Ht Hid Hdir. set (p := bucket_path self id ++ slash :: id).
  pose proof (key_proper self Hok id Hid) as Hp. fold p in Hp.
  pose proof (key_components self Hok id Hid) as Hc. fold p in Hc.
  destruct (sys (Kv_create p) h) as [r h1] eqn:E1.
  destruct (works_create p h Hp) as [fd Hfd]; rewrite ?Hc, ?key_path_removelast by done; [done|by apply Ht|].
  rewrite E1 in Hfd. cbn in Hfd. subst r. exists fd, h1. split; [done|].
  apply law_create in E1 as (Hd & _ & _ & Hf); [|done]. rewrite Hc in Hf. split; [|done].
  apply (tidy_step id h); [done| |done..]. intros q Hq. by rewrite Hf, lookup_insert_ne.
Qed.
Lemma create_file_works id h : tidy h → good_key id →
  ∃ fd h', run (create_file (bucket_path self id ++ slash :: id)) h = Ret (inr fd, h') ∧ tidy h' ∧
    components (bucket_path self id) ∈ dirs h'.
Proof.
  intros Ht Hid. unfold create_file. rewrite run_call_bind.
  destruct (decide (components (bucket_path self id) ∈ dirs h)) as [Hdir|Hdir].
  { destruct (create_works id h Ht Hid Hdir) as (fd & h' & -> & Ht' & Hd). exists fd, h'. by rewrite Hd. }
  set (p := bucket_path self id ++ slash :: id).
  pose proof (key_proper self Hok id Hid) as Hp. fold p in Hp.
  pose proof (key_components self Hok id Hid) as Hc. fold p in Hc.
  destruct (sys (Kv_create p) h) as [r h1] eqn:E1.
  assert (clear p h) as Hcl.
  { apply key_clear; [done|by apply Ht|]. destruct (files h !! key_path self id) eqn:Hf; [|done].
    destruct Hdir. apply Ht; [done|]. by rewrite Hf. }
  pose proof (works_create_missing p h Hp Hcl) as Hr. rewrite Hc, key_path_removelast, E1 in Hr by done.
  rewrite (Hr Hdir : r = _) in E1. apply law_create in E1 as (Hd1 & F1 & G1); [|done].
  rewrite (Hr Hdir : r = _), decide_True, (key_parent self Hok id Hid : Path_parent p = _) by done. cbn [unwrap].
  rewrite run_pure_Ret, run_then, run_call. pose proof (bucket_proper self Hok id) as Hbp.
  destruct (sys (Kv_create_dir_all _) h1) as [r2 h2] eqn:E2.
  pose proof (works_create_dir_all _ h1 Hbp) as Hr2. rewrite E2 in Hr2. cbn in Hr2.
  rewrite Hr2 in E2 |- * by (intros q Hq; rewrite G1; by apply (tidy_clear h Ht id)).
  apply law_create_dir_all in E2 as (G2 & F2 & Hup & Hnew & Hall); [|done]. cbn [mbind outcome_bind].
  assert (components (bucket_path self id) ∈ dirs h2) as Hin by (by apply Hall).
  destruct (create_works id h2) as (fd & h3 & E3 & Ht3 & Hd3); [|done..|].
  { split.
    - intros id' q Hq. rewrite G2, G1. by apply (tidy_clear h Ht id').
    - intros id' Hid' [Hin'|Hpre]%Hnew; [rewrite Hd1 in Hin'; by apply (tidy_dirs h Ht id')|by apply (key_path_long id' id)].
    - intros id' Hid'. rewrite G2, G1. intros Hf. apply Hup. rewrite Hd1. by apply Ht. }
  fold p in E3. rewrite run_call, E3. exists fd, h3. by rewrite Hd3.
Qed.

Lemma kv_put_works id buf h : tidy h → good_key id →
  ∃ h', run (kv_put self id buf) h = Ret (inr tt, h') ∧ tidy h'.
Proof.
  intros Ht Hid. destruct (kv_put_frames self Hok id buf h Hid) as (r & h' & Hrun & _ & Hs & _).
  exists h'. unfold kv_put in *. rewrite data_path_eq, run_pure_Ret, run_then in * by done.
  destruct (create_file_works id h Ht Hid) as (fd & h1 & Hc & Ht1 & Hin).
  destruct (create_file_safe self Hok id h Hid) as (r1 & h1' & Hc' & Hsafe).
  rewrite Hc in Hc'. injection Hc' as <- <-. destruct Hsafe as (_ & F1 & G1).
  rewrite Hc in Hrun |- *. cbn [mbind outcome_bind] in *. rewrite run_call_bind in *.
  assert (fds h1 !! fd = Some (key_path self id)) as Hfd by by rewrite F1, lookup_insert_eq.
  destruct (sys (Kv_write_all_at fd buf 0) h1) as [r2 h2] eqn:E2.
  pose proof (works_write fd buf 0 h1 ltac:(by rewrite Hfd)) as Hr2. rewrite E2 in Hr2. cbn in Hr2. subst r2.
  apply (law_write fd (key_path self id) []) in E2 as (Hd2 & F2 & _); [|done|by rewrite G1, lookup_insert_eq].
  rewrite run_call in *. destruct (sys (Kv_close fd) h2) as [r3 h3] eqn:E3.
  pose proof (works_close fd h2 ltac:(by rewrite F2, Hfd)) as Hr3. rewrite E3 in Hr3. cbn in Hr3. subst r3.
  injection Hrun as _ ->. split; [done|]. apply law_close in E3 as (_ & Hd3 & _).
  assert (same_but (key_path self id) h1 h') as Hs1.
  { intros q Hq. rewrite Hs, G1, lookup_insert_ne by done. done. }
  apply (tidy_step id h1); [done..| |done]. by rewrite Hd3, Hd2.
Qed.

Lemma kv_get_works id h : tidy h → good_key id →
  (∀ c, files h !! key_path self id = Some c → Z.of_nat (length c) < 2 ^ 63) →
  ∃ h', run (kv_get self id) h =
      Ret (match files h !! key_path self id with Some v => inr v | None => inl ENOENT end, h') ∧
    tidy h' ∧ files h' = files h.
Proof.
  intros Ht Hid Hsize. destruct (kv_get_frames self Hok id h Hid) as (r & h' & Hrun & _ & G & Hv).
  assert (dirs h' = dirs h ∧ r = match files h !! key_path self id with Some v => inr v | None => inl ENOENT end) as [Hd ->].
  2: { exists h'. split; [done|]. split; [|done]. destruct Ht as [Hc Hn Hp]. split; unfold clear; by rewrite ?G, ?Hd. }
  clear G. revert Hrun. unfold kv_get. rewrite data_path_eq, run_pure_Ret, run_then, run_call by done.
  set (p := bucket_path self id ++ slash :: id).
  pose proof (key_proper self Hok id Hid) as Hp. fold p in Hp.
  pose proof (key_components self Hok id Hid) as Hc. fold p in Hc. rewrite <- Hc in *.
  destruct (sys (Kv_open p) h) as [r1 h1] eqn:E1.
  destruct (files h !! components p) as [c|] eqn:Hf.
  - destruct (works_open p h Hp ltac:(by rewrite Hf)) as [fd Hfd]. rewrite E1 in Hfd. cbn in Hfd. subst r1.
    apply law_open in E1 as (G1 & Hd1 & _ & F1); [|done]. cbn [mbind outcome_bind]. rewrite run_call_bind.
    destruct (sys (Kv_metadata_len p) h1) as [r2 h2] eqn:E2.
    destruct (works_metadata p h1 c Hp) as [n Hn]; [by rewrite G1|by apply Hsize|]. rewrite E2 in Hn. cbn in Hn. subst r2.
    apply law_metadata in E2 as (G2 & Hd2 & F2 & Hn); [|done]. destruct (Hn n eq_refl) as [Hb Hlen].
    rewrite G1 in Hlen. specialize (Hlen c Hf). rewrite (proj2 (Z.ltb_lt n (2 ^ 63))) by lia.
    cbn [assert_]. rewrite run_pure_Ret, run_call_bind.
    assert (fds h2 !! fd = Some (components p)) as Hfd by by rewrite F2, F1, lookup_insert_eq.
    destruct (sys (Kv_read_exact_at fd n 0) h2) as [r3 h3] eqn:E3.
    destruct (works_read fd n 0 h2 (components p) c Hfd) as [data Hdata]; [by rewrite G2, G1|lia|].
    rewrite E3 in Hdata. cbn in Hdata. subst r3. apply law_read in E3 as (G3 & Hd3 & F3 & _).
    rewrite run_then, run_call. destruct (sys (Kv_close fd) h3) as [r4 h4] eqn:E4.
    assert (is_Some (fds h3 !! fd)) as Hs3 by (rewrite F3; eauto).
    pose proof (works_close fd h3 Hs3) as Hr4. rewrite E4 in Hr4. cbn in Hr4. subst r4.
    apply law_close in E4 as (_ & Hd4 & _). cbn. intros [= <- <-]. split; [by rewrite Hd4, Hd3, Hd2, Hd1|].
    unfold PathBuf in *. rewrite Hf. f_equal. by apply Hv.
  - assert (clear p h) as Hcl by (apply key_clear; [done|by apply Ht|by rewrite <- Hc]).
    pose proof (works_open_missing p h Hp Hcl) as Hr. rewrite E1 in Hr. cbn in Hr. rewrite Hr in *
      by (rewrite Hc; by apply Ht).
    apply law_open in E1 as (_ & Hd1 & _); [|done]. cbn. unfold PathBuf in *. rewrite Hf. by intros [= <- <-].
Qed.

(** ** The store is a map *)

Inductive kv_op : Type := KvPut (id : OsStr) (buf : list Z) | KvGet (id : OsStr).
Definition run_op (op : kv_op) : Prog (Z + option (list Z)) :=
  match op with
  | KvPut id buf => and_then (kv_put self id buf) (λ _, Done (inr None))
  | KvGet id => and_then (kv_get self id) (λ v, Done (inr (Some v)))
  end.
Fixpoint run_ops (ops : list kv_op) : Prog (list (Z + option (list Z))) :=
  match ops with [] => Done [] | op :: ops => r ← run_op op; rs ← run_ops ops; Done (r :: rs) end.

(** What is promised: a put binds its key, a get finds what is bound. *)
Definition map_op (op : kv_op) (m : gmap OsStr (list Z)) : (Z + option (list Z)) * gmap OsStr (list Z) :=
  match op with
  | KvPut id buf => (inr None, <[id := buf]> m)
  | KvGet id => (match m !! id with Some v => inr (Some v) | None => inl ENOENT end, m)
  end.
Fixpoint map_ops (ops : list kv_op) (m : gmap OsStr (list Z)) : list (Z + option (list Z)) :=
  match ops with [] => [] | op :: ops => let '(r, m) := map_op op m in r :: map_ops ops m end.

Definition op_ok (op : kv_op) : Prop :=
  match op with KvPut id buf => good_key id ∧ Z.of_nat (length buf) < 2 ^ 63 | KvGet id => good_key id end.
#[export] Instance op_ok_dec op : Decision (op_ok op).
Proof. destruct op; cbn; unfold good_key; apply _. Defined.

(** The files of the store hold the map. *)
Record holds (m : gmap OsStr (list Z)) h : Prop := {
  holds_tidy : tidy h;
  holds_size : map_Forall (λ _ v, Z.of_nat (length v) < 2 ^ 63) m;
  holds_value id : good_key id → files h !! key_path self id = m !! id }.

Lemma run_op_holds op m h : op_ok op → holds m h →
  ∃ h', run (run_op op) h = Ret ((map_op op m).1, h') ∧ holds (map_op op m).2 h'.
Proof.
  intros Hop [Ht Hs Hv]. destruct op as [id buf|id]; cbn [run_op map_op fst snd]; rewrite run_then.
  - destruct Hop as [Hid Hbuf]. destruct (kv_put_works id buf h Ht Hid) as (h' & Hrun & Ht').
    destruct (kv_put_frames self Hok id buf h Hid) as (r & h'' & Hrun' & _ & Hframe & Hnew).
    rewrite Hrun in Hrun'. injection Hrun' as <- <-. rewrite Hrun. exists h'. split; [done|]. split; [done| |].
    + by apply map_Forall_insert_2.
    + intros id' Hid'. destruct (decide (id' = id)) as [->|Hne]; [rewrite lookup_insert_eq; by apply Hnew|].
      rewrite lookup_insert_ne, <- Hv by done. apply Hframe. by intros ?%key_path_inj.
  - destruct (kv_get_works id h Ht Hop) as (h' & Hrun & Ht' & G).
    { intros c Hc. rewrite Hv in Hc by done. by apply (Hs id). }
    rewrite Hrun, Hv by done. destruct (m !! id); exists h'; (split; [done|]); (split; [done..|]); intros id'; rewrite G; apply Hv.
Qed.

Lemma run_ops_holds ops : ∀ m h, Forall op_ok ops → holds m h →
  ∃ h', run (run_ops ops) h = Ret (map_ops ops m, h').
Proof.
  induction ops as [|op ops IH]; intros m h Hops Hh; [by exists h|]. apply Forall_cons in Hops as [Hop Hops].
  destruct (run_op_holds op m h Hop Hh) as (h1 & Hrun & Hh1). cbn [run_ops map_ops].
  destruct (map_op op m) as [r m1]. cbn [fst snd] in *. destruct (IH m1 h1 Hops Hh1) as (h2 & Hrun2).
  rewrite run_bind. unfold mbind at 1, stateM_bind. rewrite Hrun, run_bind. unfold mbind at 1, stateM_bind.
  rewrite Hrun2. by exists h2.
Qed.
End works.

(** ** Properties *)

Section properties.
Context `{C : Libc, SH : StringHasher} {H : Type} {D : Disk H}.

(** C14: On a disk that works, the store is a map: whatever is put and got, for keys
    that are the names of files, the answers are those of a map in which a put binds
    its key and a get finds what is bound, or the error of a missing file; keys of
    one bucket, or of two, never meet. *)
Theorem kv_refines_map `{!DiskLaws D, !DiskWorks D} self ops m h :
  store_ok self → holds self m h → Forall op_ok ops →
  ∃ h', run (run_ops self ops) h = Ret (map_ops ops m, h').
Proof. intros Hok Hh Hops. by apply run_ops_holds. Qed.

(** The key of an operation, and the value of a key. *)
Definition op_key (op : kv_op) : OsStr := match op with KvPut id _ | KvGet id => id end.
Definition value_of (self : LocalFileKVStore) (h : H) (id : OsStr) : option (list Z) := files h !! key_path self id.

(** Failures of the disk stay with their key.  Whatever call of an operation
    fails, the operation returns, every file it opened is closed, and no other key
    changes; a put that answers without an error has stored its value, and a get
    changes nothing and answers no other value than the key's.  (A put that fails may
    leave anything for its own key, see [kv_put_destroys].) *)
Theorem kv_failures_contained `{!DiskLaws D} self op h :
  store_ok self → good_key (op_key op) →
  ∃ r h', run (run_op self op) h = Ret (r, h') ∧ fds h' = fds h ∧
    (∀ id, good_key id → id ≠ op_key op → value_of self h' id = value_of self h id) ∧
    match op, r with
    | KvPut id buf, inr _ => value_of self h' id = Some buf
    | KvPut _ _, inl _ => True
    | KvGet id, inr v => files h' = files h ∧ ∀ c, value_of self h id = Some c → v = Some c
    | KvGet _, inl _ => files h' = files h
    end.
Proof.
  intros Hok Hid. destruct op as [id buf|id]; cbn [op_key run_op] in *; rewrite run_then.
  - destruct (kv_put_frames self Hok id buf h Hid) as (r & h' & -> & F & Hs & Hv).
    assert (∀ id', good_key id' → id' ≠ id → value_of self h' id' = value_of self h id') as Ho.
    { intros id' _ Hne. apply Hs. by intros ?%key_path_inj. }
    destruct r as [e|[]]; [by exists (inl e), h'|]. exists (inr None), h'. split_and!; [done..|]. by apply Hv.
  - destruct (kv_get_frames self Hok id h Hid) as (r & h' & -> & F & G & Hv).
    assert (∀ id', value_of self h' id' = value_of self h id') as Ho by (intros id'; unfold value_of; by rewrite G).
    destruct r as [e|v]; [by exists (inl e), h'|]. exists (inr (Some v)), h'. split_and!; [done..|].
    intros c Hc. f_equal. by apply Hv.
Qed.

(** Only paths of the key, or of its bucket, are touched, whatever the disk answers. *)
Definition kv_path {X} (s : KvSys X) : option OsStr :=
  match s with
  | Kv_create p | Kv_create_dir_all p | Kv_open p | Kv_metadata_len p => Some p
  | _ => None
  end.
Definition on_key (self : LocalFileKVStore) (id : OsStr) {X} (s : KvSys X) : Prop :=
  ∀ p, kv_path s = Some p →
    p = bucket_path self id ++ slash :: id ∨ Path_parent (bucket_path self id ++ slash :: id) = Some p.
Lemma kv_put_paths self id buf : store_ok self → all_calls (@on_key self id) (kv_put self id buf).
Proof.
  intros Hok. unfold kv_put, create_file. rewrite data_path_eq by done. cbn [pure].
  change (Done ?x ≫= ?f) with (f x). cbn beta. destruct (Path_parent _) as [q|] eqn:Hq; cbn [pure unwrap];
    [change (Done ?x ≫= ?f) with (f x)|change (Crash ?c ≫= ?f) with (@Crash KvSys (Z + Z) c)];
    walk_calls; intros p; cbn [kv_path]; try discriminate; intros [= <-]; auto.
Qed.
Lemma kv_get_paths self id : store_ok self → all_calls (@on_key self id) (kv_get self id).
Proof.
  intros Hok. unfold kv_get. rewrite data_path_eq by done. cbn [pure]. change (Done ?x ≫= ?f) with (f x). cbn beta.
  walk_calls; intros p; cbn [kv_path]; try discriminate; intros [= <-]; auto.
Qed.
Theorem kv_confined self op : store_ok self → good_key (op_key op) →
  all_calls (λ _ s, ∀ p, kv_path s = Some p →
    proper p ∧ (components p = key_path self (op_key op) ∨ components p = components (bucket_path self (op_key op))))
    (run_op self op).
Proof.
  intros Hok Hid. apply (all_calls_mono (@on_key self (op_key op))).
  - intros X s Hs p Hp. destruct (Hs p Hp) as [-> |Hq].
    + split; [by apply key_proper|]. left. by apply key_components.
    + rewrite key_parent in Hq by done. injection Hq as <-. split; [by apply bucket_proper|by right].
  - destruct op as [id buf|id]; (apply all_calls_then; [|done]); [by apply kv_put_paths|by apply kv_get_paths].
Qed.
End properties.

(** ** A disk *)

Record Mem : Type := MkMem { m_files : gmap PathBuf (list Z); m_dirs : gset PathBuf; m_fds : gmap Z PathBuf }.

Definition prefixes (l : PathBuf) : list PathBuf := (λ n, take n l) <$> seq 0 (S (length l)).
Definition mem_open (p : PathBuf) (h : Mem) : (Z + Z) * Mem :=
  let fd := fresh (dom (m_fds h)) in (inr fd, MkMem (m_files h) (m_dirs h) (<[fd := p]> (m_fds h))).
Definition mem_set_file (q : PathBuf) (c : list Z) (h : Mem) : Mem := MkMem (<[q := c]> (m_files h)) (m_dirs h) (m_fds h).
Definition mem_close (fd : Z) (h : Mem) : (Z + unit) * Mem := (inr tt, MkMem (m_files h) (m_dirs h) (delete fd (m_fds h))).

(** Files in memory; with [full], every write fails for lack of space. *)
Definition mem_sys (full : bool) {X} (s : KvSys X) (h : Mem) : (Z + X) * Mem :=
  match s in KvSys X return (Z + X) * Mem with
  | Kv_create p =>
      let c := components p in
      if decide (removelast c ∈ m_dirs h) then
        if decide (c ∈ m_dirs h) then (inl 21, h) else mem_open c (mem_set_file c [] h)
      else (inl 2, h)
  | Kv_create_dir_all p =>
      let l := prefixes (components p) in
      if decide (Forall (λ q, m_files h !! q = None) l)
      then (inr tt, MkMem (m_files h) (list_to_set l ∪ m_dirs h) (m_fds h)) else (inl 20, h)
  | Kv_open p =>
      let c := components p in
      if decide (is_Some (m_files h !! c) ∨ c ∈ m_dirs h) then mem_open c h else (inl 2, h)
  | Kv_metadata_len p =>
      match m_files h !! components p with
      | Some c => (if decide (Z.of_nat (length c) < 2 ^ 63) then inr (Z.of_nat (length c)) else inl 75, h)
      | None => if decide (components p ∈ m_dirs h) then (inr 4096, h) else (inl 2, h)
      end
  | Kv_write_all_at fd data pos =>
      if full then (inl 28, h) else
      match m_fds h !! fd with
      | Some q =>
          match m_files h !! q with
          | Some c => (inr tt, mem_set_file q (overwrite c pos data) h)
          | None => (inr tt, h)
          end
      | None => (inl 9, h)
      end
  | Kv_read_exact_at fd len pos =>
      match m_fds h !! fd with
      | Some q =>
          match m_files h !! q with
          | Some c => if decide (pos + len ≤ Z.of_nat (length c))
                      then (inr (take (Z.to_nat len) (drop (Z.to_nat pos) c)), h) else (inl 5, h)
          | None => (inl 21, h)
          end
      | None => (inl 9, h)
      end
  | Kv_close fd => mem_close fd h
  | Kv_drop fd => mem_close fd h
  end.

Definition mem_disk (full : bool) : Disk Mem := {|
  disk_system := @mem_sys full; files := m_files; dirs := m_dirs; fds := m_fds |}.

Lemma prefixes_spec l q : q ∈ prefixes l ↔ q `prefix_of` l.
Proof.
  unfold prefixes. rewrite list_elem_of_fmap. split.
  - intros (n & -> & _). exists (drop n l). by rewrite take_drop.
  - intros [k ->]. exists (length q). rewrite take_app_length, length_app. split; [done|]. apply elem_of_seq. lia.
Qed.
Lemma elem_of_new_dirs (l : PathBuf) (D : gset PathBuf) (q : PathBuf) : q ∈ (list_to_set (prefixes l) : gset PathBuf) ∪ D ↔ q `prefix_of` l ∨ q ∈ D.
Proof. by rewrite elem_of_union, elem_of_list_to_set, prefixes_spec. Qed.
Lemma mem_open_spec p h r h' : mem_open p h = (r, h') →
  m_files h' = m_files h ∧ m_dirs h' = m_dirs h ∧ ∃ fd, r = inr fd ∧ m_fds h !! fd = None ∧ m_fds h' = <[fd := p]> (m_fds h).
Proof.
  unfold mem_open. intros [= <- <-]. split_and!; [done..|]. eexists. split_and!; [done| |done].
  apply not_elem_of_dom, is_fresh.
Qed.
Lemma mem_disk_laws full : DiskLaws (mem_disk full).
Proof.
  split; cbn [disk_system mem_disk sys files dirs fds].
  - intros p h r h' _. unfold sys. cbn [mem_disk disk_system mem_sys]. case_decide; [|by intros [= <- <-]]. case_decide; [by intros [= <- <-]|].
    intros (G & E & fd & -> & Hf & F)%mem_open_spec. by split_and!.
  - intros p h r h' _. unfold sys. cbn [mem_disk disk_system mem_sys]. case_decide as Hcl; intros [= <- <-]; [|naive_solver]. cbn [m_files m_dirs m_fds]. split_and!; [done|done| | |].
    + intros q Hq. apply elem_of_new_dirs. by right.
    + intros q Hq%elem_of_new_dirs. naive_solver.
    + intros _ q Hq. apply elem_of_new_dirs. by left.
  - intros p h r h' _. unfold sys. cbn [mem_disk disk_system mem_sys]. case_decide; [|by intros [= <- <-]].
    intros (G & E & fd & -> & Hf & F)%mem_open_spec. by split_and!.
  - intros p h r h' _. unfold sys. cbn [mem_disk disk_system mem_sys]. destruct (m_files h !! components p) as [c|] eqn:Hc.
    + case_decide; intros [= <- <-]; split_and!; try done. intros n [= <-]. split; [lia|]. intros c' Hc'. congruence.
    + case_decide; intros [= <- <-]; split_and!; try done. intros n [= <-]. split; [lia|]. intros c' Hc'. congruence.
  - intros fd q c data pos h r h' Hfd Hc. unfold sys. cbn [mem_disk disk_system mem_sys]. destruct full.
    + intros [= <- <-]. split_and!; [done..|]. exists c. split; [|done]. by rewrite insert_id.
    + rewrite Hfd, Hc. intros [= <- <-]. split_and!; [done..|]. by eexists.
  - intros fd len pos h r h'. unfold sys. cbn [mem_disk disk_system mem_sys]. intros Hr.
    assert (h' = h) as -> by (repeat case_match; congruence). split_and!; [done..|].
    intros q c data -> Hfd Hc. rewrite Hfd, Hc in Hr. case_decide; congruence.
  - intros fd h r h'. unfold sys. cbn [mem_disk disk_system mem_sys]. by intros [= <- <-].
  - intros fd h r h'. unfold sys. cbn [mem_disk disk_system mem_sys]. by intros [= <- <-].
Qed.
#[export] Instance mem_disk_works : @DiskWorks Mem linux (mem_disk false).
Proof.
  split; cbn [disk_system mem_disk files dirs fds]; unfold sys; cbn [mem_disk disk_system mem_sys].
  - intros p h _ Hd Hn. rewrite decide_True, decide_False by done. by eexists.
  - intros p h _ _ Hd. by rewrite decide_False.
  - intros p h _ Hcl. rewrite decide_True; [done|]. apply Forall_forall. intros q Hq%prefixes_spec. by apply Hcl.
  - intros p h _ Hs. rewrite decide_True by auto. by eexists.
  - intros p h _ Hcl Hd. rewrite decide_False; [done|]. intros [[c Hc]|]; [|done]. by rewrite Hcl in Hc.
  - intros p h c _ Hc Hl. rewrite Hc, decide_True by done. by eexists.
  - intros fd data pos h [q ->]. by destruct (m_files h !! q).
  - intros fd len pos h q c -> -> Hl. rewrite decide_True by done. by eexists.
  - done.
Qed.

(** ** Witnesses *)

(** Two keys in one bucket: the hash is that of the first byte. *)
#[local] Instance demo_hash : StringHasher := λ id, default 0 (head id).
Definition demo_store : LocalFileKVStore := MkKvStore (MkKvOptions (text "/tmp/fairy_store") 4 131072).
Definition demo_ops : list kv_op :=
  [KvGet (text "a"); KvPut (text "a") [1; 2; 3]; KvPut (text "e") [4]; KvGet (text "a"); KvPut (text "a") [5];
   KvGet (text "a"); KvGet (text "e")].
Definition demo_empty : Mem := MkMem ∅ (list_to_set (prefixes (components (text "/tmp")))) ∅.

Lemma demo_store_ok : store_ok demo_store.
Proof. split; [unfold proper; apply (bool_decide_unpack _); vm_compute; exact I|done]. Qed.
Lemma demo_holds full : @holds demo_hash Mem (mem_disk full) demo_store ∅ demo_empty.
Proof.
  assert (∀ q, q ∈ dirs (Disk := mem_disk full) demo_empty → (length q ≤ 1)%nat) as Hl.
  { intros q Hq. change (q ∈ (list_to_set (prefixes (components (text "/tmp"))) : gset PathBuf)) in Hq.
    apply elem_of_list_to_set, prefixes_spec, prefix_length in Hq. vm_compute in Hq |- *. lia. }
  split; [split| |].
  - intros id q _. done.
  - intros id _ Hd%Hl. unfold key_path in Hd. rewrite length_app in Hd. simpl in Hd. lia.
  - intros id _ [c [=]].
  - apply map_Forall_empty.
  - done.
Qed.

Lemma kv_refines_map_witness :
  ∃ h', @run _ Mem _ (@disk_system _ (mem_disk false)) (@run_ops linux demo_hash demo_store demo_ops) demo_empty =
    Ret ([inl 2; inr None; inr None; inr (Some [1; 2; 3]); inr None; inr (Some [5]); inr (Some [4])], h').
Proof.
  apply (@kv_refines_map linux demo_hash Mem (mem_disk false) (mem_disk_laws false) mem_disk_works demo_store demo_ops ∅
    demo_empty demo_store_ok (demo_holds false)).
  apply (bool_decide_unpack _). vm_compute. exact I.
Defined.

(** On a full disk the put of a key leaves the others as they are. *)
Definition demo_filled : Mem :=
  match @run _ Mem _ (@disk_system _ (mem_disk false)) (@run_ops linux demo_hash demo_store demo_ops) demo_empty with
  | Ret (_, h) => h
  | _ => demo_empty
  end.
Lemma kv_failures_contained_witness :
  ∃ r h', @run _ Mem _ (@disk_system _ (mem_disk true)) (@run_op linux demo_hash demo_store (KvPut (text "a") [9])) demo_filled = Ret (r, h') ∧
    m_fds h' = ∅ ∧ @value_of demo_hash Mem (mem_disk true) demo_store h' (text "e") = Some [4].
Proof.
  destruct (@kv_failures_contained linux demo_hash Mem (mem_disk true) (mem_disk_laws true) demo_store
    (KvPut (text "a") [9]) demo_filled demo_store_ok) as (r & h' & Hrun & F & Hv & _).
  { apply (bool_decide_unpack _). vm_compute. exact I. }
  exists r, h'. split; [exact Hrun|]. split; [etrans; [exact F|]; vm_compute; reflexivity|].
  rewrite Hv; [vm_compute; reflexivity| |].
  - apply (bool_decide_unpack _). vm_compute. exact I.
  - apply (bool_decide_unpack _). vm_compute. exact I.
Defined.

(** A put truncates the file of its key before it writes: if the write fails, the old
    value is gone. *)
Theorem kv_put_destroys :
  @value_of demo_hash Mem (mem_disk true) demo_store demo_filled (text "a") = Some [5] ∧
  ∃ h', @run _ Mem _ (@disk_system _ (mem_disk true)) (@kv_put linux demo_hash demo_store (text "a") [9]) demo_filled = Ret (inl 28, h') ∧
    @value_of demo_hash Mem (mem_disk true) demo_store h' (text "a") = Some [].
Proof. split; [vm_compute; reflexivity|]. eexists. split; vm_compute; reflexivity. Qed.

(** A get while a put of the same key has the file open answers an empty value, which
    nobody ever put. *)
Theorem kv_get_during_put :
  @value_of demo_hash Mem (mem_disk false) demo_store demo_filled (text "a") = Some [5] ∧
  ∃ m h', @interleave _ Mem _ _ (@disk_system _ (mem_disk false)) [true; false; false; false; false]
      (@kv_put linux demo_hash demo_store (text "a") [9]) (@kv_get demo_hash demo_store (text "a")) demo_filled =
    (m, Done (inr []), h').
Proof. split; [vm_compute; reflexivity|]. eexists _, _. vm_compute. reflexivity. Qed.
