(* ===== verification/H2Service.v ===== *)
(** * H2Service: the cache over HTTP/2

    [H2Service] ([common/src/h2/h2_service.rs]) serves the store of KvStore.v:
    [/get/<key>] and [/put/<key>].  A request is handled by a program of calls: those
    of the store, and those of the crate h2 on the request's body and the response.
    The connection is a parameter ([Connection]).

    [worker/src/h2_service.rs] is the service it replaces, which sends a file of the
    working directory for any key: [Module Old]. *)

From Stdlib Require Import Ascii String.
From S2P Require Import Prelude Programs Operation Paths Text Response KvStore.

Local Open Scope Z_scope.

(** ** The calls *)

(** [data] is the next chunk of the body, or the end; a frame of data is sent with
    whether it is the last. *)
Inductive SvcSys : Type → Type :=
  | Svc_store {X} (s : KvSys X) : SvcSys X
  | Svc_data : SvcSys (option (list Z))                       (* RecvStream::data *)
  | Svc_send_response : SvcSys unit                           (* SendResponse::send_response *)
  | Svc_send_data (data : list Z) (end_of_stream : bool) : SvcSys unit.
Abbreviation Svc := (Programs.Prog SvcSys).

Section service.
Context `{C : Libc, SH : StringHasher}.

Definition stored {A} (m : Programs.Prog KvSys A) : Svc A := embed (@Svc_store) m.
(** [Result::expect] and [Result::unwrap]. *)
Definition expect {A} (m : Svc (Z + A)) : Svc A := r ← m; match r with inl _ => Crash Panics | inr a => Done a end.

Inductive route : Type := Get (id : OsStr) | Put (id : OsStr) | Other.
Definition parse_uri (path : OsStr) : route :=
  match split_at slash path with
  | [a; op; id] =>
      if decide (a = [] ∧ op = text "get") then Get id else if decide (a = [] ∧ op = text "put") then Put id else Other
  | _ => Other
  end.

Definition world : list Z := [119; 111; 114; 108; 100; 10].      (* "world\n" *)

Definition put_object (kv_store : LocalFileKVStore) (id : OsStr) : Svc (Z + unit) :=
  chunk ← call Svc_data;
  match chunk with
  | inl _ => Crash Panics                                          (* chunk.unwrap() *)
  | inr (Some chunk) => expect (stored (kv_put kv_store id chunk))
  | inr None => Done tt
  end;;
  and_then (call Svc_send_response) (λ _, call (Svc_send_data world true)).

Definition get_object (kv_store : LocalFileKVStore) (id : OsStr) : Svc (Z + unit) :=
  and_then (call Svc_send_response) (λ _,
    buf ← expect (stored (kv_get kv_store id));
    call (Svc_send_data buf true)).

Definition handle_request (kv_store : LocalFileKVStore) (path : OsStr) : Svc (Z + unit) :=
  match parse_uri path with
  | Get id => get_object kv_store id
  | Put id => put_object kv_store id
  | Other => Done (inr tt)
  end.
End service.

(** ** Connections *)

(** What the peer is sent. *)
Inductive frame : Type := Head | Data (bytes : list Z) (end_of_stream : bool).

(** The end of a stream the server has: chunks to come, frames sent. *)
Class Connection (N : Type) := {
  conn_data : N → (Z + option (list Z)) * N;
  conn_send_response : N → (Z + unit) * N;
  conn_send_data : list Z → bool → N → (Z + unit) * N;
  incoming : N → list (list Z);
  sent : N → list frame }.

(** A peer that stays. *)
Class ConnectionLaws {N} (K : Connection N) : Prop := {
  law_data n : ∃ n', conn_data n = (inr (head (incoming n)), n') ∧ incoming n' = tail (incoming n) ∧ sent n' = sent n;
  law_send_response n : ∃ n', conn_send_response n = (inr tt, n') ∧ incoming n' = incoming n ∧ sent n' = sent n ++ [Head];
  law_send_data data last n : ∃ n', conn_send_data data last n = (inr tt, n') ∧ incoming n' = incoming n ∧
    sent n' = sent n ++ [Data data last] }.

(** The disk with one connection. *)
#[export] Instance svc_system {H N} `{D : Disk H, K : Connection N} : System SvcSys (H * N) := λ X s '(h, n),
  match s in SvcSys X return (Z + X) * (H * N) with
  | Svc_store s => let '(r, h) := sys s h in (r, (h, n))
  | Svc_data => let '(r, n) := conn_data n in (r, (h, n))
  | Svc_send_response => let '(r, n) := conn_send_response n in (r, (h, n))
  | Svc_send_data data last => let '(r, n) := conn_send_data data last n in (r, (h, n))
  end.

Lemma sys_store {H N X} `{D : Disk H, K : Connection N} (s : KvSys X) (h : H) (n : N) :
  sys (Svc_store s) (h, n) = let '(r, h) := sys s h in (r, (h, n)).
Proof. done. Qed.

Lemma sys_send_response {H N} `{D : Disk H, K : Connection N} (h : H) (n : N) :
  sys Svc_send_response (h, n) = let '(r, n) := conn_send_response n in (r, (h, n)).
Proof. done. Qed.
Lemma sys_send_data {H N} `{D : Disk H, K : Connection N} data last (h : H) (n : N) :
  sys (Svc_send_data data last) (h, n) = let '(r, n) := conn_send_data data last n in (r, (h, n)).
Proof. done. Qed.

(** ** The cache that is meant *)

(** What a request does to the values of the keys, and what is sent for it.  A PUT
    takes the first chunk of its body; a GET of a key that is not there panics. *)
Definition cache (path : OsStr) (body : list (list Z)) (m : gmap OsStr (list Z)) : outcome (list frame * gmap OsStr (list Z)) :=
  match parse_uri path with
  | Get id => v ← unwrap (m !! id); Ret ([Head; Data v true], m)
  | Put id => Ret ([Head; Data world true], match body with [] => m | chunk :: _ => <[id := chunk]> m end)
  | Other => Ret ([], m)
  end.

(** A request with its body, as one of those served. *)
Definition request_ok (path : OsStr) (body : list (list Z)) : Prop :=
  match parse_uri path with
  | Get id => good_key id
  | Put id => good_key id ∧ Forall (λ chunk, Z.of_nat (length chunk) < 2 ^ 63) body
  | Other => True
  end.

Section refinement.
Context `{C : Libc, SH : StringHasher} {H N : Type} {D : Disk H} {DL : DiskLaws D} {DW : DiskWorks D}.
Context {K : Connection N} {KL : ConnectionLaws K}.
Context (self : LocalFileKVStore) (Hok : store_ok self).

Lemma run_stored {A} (m : Programs.Prog KvSys A) (h : H) (n : N) :
  run (stored m) (h, n) = '(a, h') ← run m h; Ret (a, (h', n)).
Proof.
  unfold stored. rewrite (run_embed _ fst (λ h w, (h, w.2)) m (h, n)); [done|..].
  - by intros X s [].
  - done.
  - done.
  - by intros [].
Qed.

Lemma run_expect {A X} (m : Programs.Prog KvSys (Z + A)) (f : A → Svc X) (h : H) (n : N) :
  run (expect (stored m) ≫= f) (h, n) =
    '(r, h') ← run m h; match r with inl _ => Panic | inr a => run (f a) (h', n) end.
Proof.
  unfold expect. rewrite run_bind. unfold mbind at 1, stateM_bind. rewrite run_bind. unfold mbind at 1, stateM_bind.
  rewrite run_stored. by destruct (run m h) as [[[e|a] h']| |].
Qed.
(** The end of both handlers. *)
Lemma run_answer data (h : H) (n : N) :
  ∃ n', run (call (Svc_send_data data true)) (h, n) = Ret (inr tt, (h, n')) ∧ sent n' = sent n ++ [Data data true].
Proof.
  rewrite run_call. unfold sys, svc_system. destruct (law_send_data data true n) as (n' & -> & _ & Hs). by exists n'.
Qed.
Lemma run_head {A} (f : unit → Svc (Z + A)) (h : H) (n : N) :
  ∃ n', run (and_then (call Svc_send_response) f) (h, n) = run (f tt) (h, n') ∧ incoming n' = incoming n ∧
    sent n' = sent n ++ [Head].
Proof.
  rewrite run_then, run_call. unfold sys, svc_system. destruct (law_send_response n) as (n' & -> & Hi & Hs). by exists n'.
Qed.

Lemma handle_request_cache path m h n : holds self m h → request_ok path (incoming n) →
  match cache path (incoming n) m with
  | Ret (frames, m') => ∃ h' n', run (handle_request self path) (h, n) = Ret (inr tt, (h', n')) ∧
      holds self m' h' ∧ sent n' = sent n ++ frames
  | _ => run (handle_request self path) (h, n) = Panic
  end.
Proof.
  intros Hh Hreq. unfold cache, handle_request, request_ok in *. destruct (parse_uri path) as [id|id|].
  - unfold get_object. destruct (run_head (λ _, buf ← expect (stored (kv_get self id)); call (Svc_send_data buf true)) h n)
      as (n1 & -> & _ & Hs1). rewrite run_expect.
    pose proof (run_op_holds self Hok (KvGet id) m h Hreq Hh) as (h' & Hrun & Hh'). cbn [run_op map_op fst snd] in *.
    rewrite run_then in Hrun. destruct (run (kv_get self id) h) as [[[e|v'] h1]| |];
      [|destruct (run_answer v' h1 n1) as (n2 & Ha & Hs2)|discriminate Hrun..];
      destruct (m !! id) as [v|]; try discriminate Hrun; [done|].
    injection Hrun as -> ->. cbn [unwrap mbind outcome_bind]. exists h', n2. split_and!; [done..|].
    by rewrite Hs2, Hs1, <- app_assoc.
  - destruct Hreq as [Hid Hbody]. unfold put_object. rewrite run_call_bind. unfold sys at 1, svc_system at 1.
    destruct (law_data n) as (n1 & -> & _ & Hs1).
    assert (∀ h', ∃ n', run (and_then (call Svc_send_response) (λ _, call (Svc_send_data world true))) (h', n1) =
      Ret (inr tt, (h', n')) ∧ sent n' = sent n ++ [Head; Data world true]) as Hend.
    { intros h'. destruct (run_head (λ _, call (Svc_send_data world true)) h' n1) as (n2 & -> & _ & Hs2).
      destruct (run_answer world h' n2) as (n3 & -> & Hs3). exists n3. by rewrite Hs3, Hs2, Hs1, <- app_assoc. }
    destruct (incoming n) as [|chunk body]; cbn [head].
    + destruct (Hend h) as (n' & Hrun & Hs). by exists h, n'.
    + apply Forall_cons in Hbody as [Hchunk _]. rewrite run_expect.
      pose proof (run_op_holds self Hok (KvPut id chunk) m h (conj Hid Hchunk) Hh) as (h' & Hrun & Hh').
      cbn [run_op map_op fst snd] in *. rewrite run_then in Hrun.
      destruct (run (kv_put self id chunk) h) as [[[e|[]] h1]| |]; try discriminate Hrun.
      injection Hrun as ->. destruct (Hend h') as (n' & Hrun & Hs). by exists h', n'.
  - exists h, n. split; [done|]. split; [done|]. by rewrite app_nil_r.
Qed.
End refinement.

(** ** Properties *)

Section properties.
Context `{C : Libc, SH : StringHasher} {H N : Type} {D : Disk H} {K : Connection N}.

(** Requests one after the other, each with its own connection. *)
Fixpoint serve (self : LocalFileKVStore) (requests : list (OsStr * N)) (h : H) : outcome (list (list frame) * H) :=
  match requests with
  | [] => Ret ([], h)
  | (path, n) :: requests =>
      '(_, (h, n)) ← run (handle_request self path) (h, n);
      '(frames, h) ← serve self requests h;
      Ret (sent n :: frames, h)
  end.
Fixpoint cache_all (requests : list (OsStr * N)) (m : gmap OsStr (list Z)) : outcome (list (list frame)) :=
  match requests with
  | [] => Ret []
  | (path, n) :: requests =>
      '(frames, m) ← cache path (incoming n) m;
      rest ← cache_all requests m;
      Ret ((sent n ++ frames) :: rest)
  end.

(** C15: The service is a cache: for requests with keys that are file names, on a disk
    that works, every peer is sent what the map of the values asks for.  A PUT binds
    its key to the first chunk of its body, whatever comes after, an empty PUT binds
    nothing and is answered the same, and a GET panics exactly for a key that is not
    there, after the head of its response. *)
Theorem h2_serves_cache `{!DiskLaws D, !DiskWorks D, !ConnectionLaws K} self requests m h :
  store_ok self → holds self m h → Forall (λ '(path, n), request_ok path (incoming n)) requests →
  fst <$> serve self requests h = cache_all requests m.
Proof.
  intros Hok. revert m h. induction requests as [|[path n] requests IH]; intros m h Hh Hreq; [done|].
  apply Forall_cons in Hreq as [Hr Hrs]. cbn [serve cache_all].
  pose proof (handle_request_cache self Hok path m h n Hh Hr) as Hstep.
  destruct (cache path (incoming n) m) as [[frames m']| |] eqn:Hc; [|by rewrite Hstep|].
  - destruct Hstep as (h' & n' & -> & Hh' & Hs). cbn [mbind outcome_bind]. rewrite <- (IH m' h') by done.
    destruct (serve self requests h') as [[]| |]; [|done..]. cbn. by rewrite Hs.
  - exfalso. unfold cache in Hc. destruct (parse_uri path) as [id| |]; [|done..]. by destruct (m !! id).
Qed.

(** Whatever the URI, the disk and the peer, a request touches no path but the root's,
    a bucket's, and those of one name in a bucket.  (That name may be [..].) *)
Definition svc_path {X} (s : SvcSys X) : option OsStr := match s with Svc_store s => kv_path s | _ => None end.
Definition in_store (self : LocalFileKVStore) (p : OsStr) : Prop :=
  ∃ names, components p = components (root_path (options self)) ++ names ∧
    (names = [] ∨ ∃ b, 0 ≤ b < num_bucket (options self) ∧
      (names = [digits 10 b] ∨ ∃ id, (slash ∉ id) ∧ names = [digits 10 b; id])).

Lemma parse_uri_plain path :
  match parse_uri path with Get id | Put id => (slash ∉ id) | Other => True end.
Proof.
  unfold parse_uri. pose proof (split_at_words slash path) as Hw.
  destruct (split_at slash path) as [|a [|op [|id []]]]; try done.
  rewrite !Forall_cons in Hw. repeat case_decide; naive_solver.
Qed.
Lemma key_in_store self op p : store_ok self → slash ∉ op_key op →
  p = bucket_path self (op_key op) ++ slash :: op_key op ∨
    Path_parent (bucket_path self (op_key op) ++ slash :: op_key op) = Some p → in_store self p.
Proof.
  intros Hok Hs. set (id := op_key op) in *. pose proof (bucket_bounds self Hok id) as Hb.
  assert (components (bucket_path self id ++ slash :: id) = components (root_path (options self)) ++ digits 10 (bucket self id) :: components id) as Hc.
  { rewrite components_app, bucket_components, <- app_assoc by done. done. }
  assert (components id = [] ∨ components id = [id]) as Hid.
  { unfold components. rewrite split_slash_plain by done. rewrite filter_cons, filter_nil. case_decide; auto. }
  intros [-> |Hp%Path_parent_components].
  - exists (digits 10 (bucket self id) :: components id). split; [done|]. right. exists (bucket self id).
    split; [done|]. destruct Hid as [-> | ->]; eauto.
  - unfold in_store. rewrite Hp, Hc. destruct Hid as [-> | ->].
    + exists []. rewrite removelast_last, app_nil_r. auto.
    + exists [digits 10 (bucket self id)]. rewrite removelast_app by done. split; [done|]. right. by exists (bucket self id); auto.
Qed.

Theorem h2_confined self path : store_ok self →
  all_calls (λ _ s, ∀ p, svc_path s = Some p → in_store self p) (handle_request self path).
Proof.
  intros Hok. set (P := λ X (s : SvcSys X), ∀ p, svc_path s = Some p → _). pose proof (parse_uri_plain path) as Hid.
  unfold handle_request. destruct (parse_uri path) as [id|id|]; [| |done].
  - unfold get_object, expect. walk_calls; try done.
    apply all_calls_embed. eapply all_calls_mono; [|apply (kv_get_paths self id Hok)].
    intros X s Hs p Hp. by apply (key_in_store self (KvGet id)), Hs.
  - unfold put_object, expect. walk_calls; try done.
    apply all_calls_embed. eapply all_calls_mono; [|apply (kv_put_paths self id _ Hok)].
    intros X s Hs p Hp. by apply (key_in_store self (KvPut id [])), Hs.
Qed.
End properties.

(** ** The service it replaces *)

Module Old.
Section old.
(** What a read of that many bytes leaves in a buffer of zeros when it fails. *)
Context (partial : Z → Z → list Z).

Definition chunk_size : Z := 128.
Definition README : OsStr := text "README.md".

(** The chunks of the body are printed and dropped. *)
Fixpoint drain (fuel : nat) : Svc unit :=
  match fuel with
  | O => Crash Exhausted
  | S fuel =>
      chunk ← call Svc_data;
      match chunk with inr None => Done tt | inr (Some _) => drain fuel | inl _ => Crash Panics end
  end.
Definition put_object (fuel : nat) : Svc (Z + unit) :=
  drain fuel;; and_then (call Svc_send_response) (λ _, call (Svc_send_data world true)).

Definition read_length (file_size pos : Z) : Z := if file_size - pos <? chunk_size then file_size - pos else chunk_size.
(** The loop: every chunk is read at 0. *)
Fixpoint get_loop (fuel : nat) (f file_size pos : Z) : Svc (Z + unit) :=
  if pos <? file_size then
    match fuel with
    | O => Crash Exhausted
    | S fuel =>
        let len := read_length file_size pos in
        r ← call (Svc_store (Kv_read_exact_at f len 0));
        let buffer := match r with inr data => data | inl e => partial e len end in
        let pos := pos + len in
        res ← call (Svc_send_data buffer (pos =? file_size));
        match res with
        | inl e => _ ← call (Svc_store (Kv_drop f)); Done (inl e)
        | inr _ => get_loop fuel f file_size pos
        end
    end
  else Done (inr tt).
Definition get_object (fuel : nat) : Svc (Z + unit) :=
  and_then (call Svc_send_response) (λ _,
    and_then (call (Svc_store (Kv_metadata_len README))) (λ file_size,
      and_then (call (Svc_store (Kv_open README))) (λ f,
        and_then (get_loop fuel f file_size 0) (λ _, call (Svc_store (Kv_close f)))))).

Definition handle_request (fuel : nat) (path : OsStr) : Svc (Z + unit) :=
  match parse_uri path with
  | Get _ => get_object fuel
  | Put _ => put_object fuel
  | Other => Done (inr tt)
  end.

(** What is sent of a content from a position on: prefixes of the content. *)
Fixpoint repeats (fuel : nat) (c : list Z) (pos : Z) : list frame :=
  match fuel with
  | O => []
  | S fuel =>
      let size := Z.of_nat (length c) in
      if pos <? size then
        let len := read_length size pos in
        Data (take (Z.to_nat len) c) (pos + len =? size) :: repeats fuel c (pos + len)
      else []
  end.

Section runs.
Context `{C : Libc} {H N : Type} {D : Disk H} {DL : DiskLaws D} {DW : DiskWorks D}.
Context {K : Connection N} {KL : ConnectionLaws K}.

Lemma get_loop_repeats fuel f q c : ∀ pos h n,
  fds h !! f = Some q → files h !! q = Some c → 0 ≤ pos → Z.of_nat (length c) - pos ≤ 128 * Z.of_nat fuel →
  ∃ h' n', run (get_loop fuel f (Z.of_nat (length c)) pos) (h, n) = Ret (inr tt, (h', n')) ∧
    fds h' = fds h ∧ files h' = files h ∧ sent n' = sent n ++ repeats fuel c pos.
Proof.
  induction fuel as [|fuel IH]; intros pos h n Hf Hq Hpos Hfuel.
  { cbn [get_loop repeats]. rewrite (proj2 (Z.ltb_ge pos _)) by lia. exists h, n. by rewrite app_nil_r. }
  cbn [get_loop repeats]. destruct (Z.ltb_spec pos (Z.of_nat (length c))) as [Hlt|Hge].
  2: { exists h, n. by rewrite app_nil_r. }
  assert (0 < read_length (Z.of_nat (length c)) pos ≤ Z.of_nat (length c) ∧
    (read_length (Z.of_nat (length c)) pos = 128 ∨ read_length (Z.of_nat (length c)) pos = Z.of_nat (length c) - pos)) as [Hlen Hcase].
  { unfold read_length, chunk_size. destruct (Z.ltb_spec (Z.of_nat (length c) - pos) 128); lia. }
  set (len := read_length _ _) in *. rewrite run_call_bind, sys_store.
  destruct (sys (Kv_read_exact_at f len 0) h) as [r h1] eqn:E1.
  destruct (works_read f len 0 h q c Hf Hq) as [data Hd]; [lia|]. rewrite E1 in Hd. cbn in Hd. subst r.
  apply law_read in E1 as (G1 & _ & F1 & Hdata). specialize (Hdata q c data eq_refl Hf Hq).
  rewrite drop_0 in Hdata. rewrite run_call_bind, sys_send_data.
  destruct (law_send_data data (pos + len =? Z.of_nat (length c)) n) as (n1 & -> & _ & Hs1).
  destruct (IH (pos + len) h1 n1) as (h' & n' & -> & F & G & Hs); [by rewrite F1|by rewrite G1|lia|lia|].
  exists h', n'. rewrite F, F1, G, G1, Hs, Hs1, <- app_assoc, Hdata. done.
Qed.

(** Where a file of more than a chunk should be sent, its first bytes are sent again
    and again; of an empty file the response is never ended. *)
Theorem old_get_repeats fuel c h n path id :
  parse_uri path = Get id → proper README → files h !! components README = Some c →
  Z.of_nat (length c) < 2 ^ 63 → Z.of_nat (length c) ≤ 128 * Z.of_nat fuel →
  ∃ h' n', run (handle_request fuel path) (h, n) = Ret (inr tt, (h', n')) ∧ fds h' = fds h ∧
    sent n' = sent n ++ Head :: repeats fuel c 0.
Proof.
  intros Hp Hr Hc Hsz Hfuel. unfold handle_request. rewrite Hp. unfold get_object.
  rewrite run_then, run_call, sys_send_response. destruct (law_send_response n) as (n1 & -> & _ & Hs1).
  cbn [mbind outcome_bind]. rewrite run_then, run_call, sys_store.
  destruct (sys (Kv_metadata_len README) h) as [r1 h1] eqn:E1.
  destruct (works_metadata README h c Hr Hc Hsz) as [m Hm]. rewrite E1 in Hm. cbn in Hm. subst r1.
  apply law_metadata in E1 as (G1 & _ & F1 & Hm); [|done]. destruct (Hm m eq_refl) as [_ Hlen].
  specialize (Hlen c Hc). subst m. cbn [mbind outcome_bind]. rewrite run_then, run_call, sys_store.
  destruct (sys (Kv_open README) h1) as [r2 h2] eqn:E2.
  destruct (works_open README h1 Hr) as [f Hf]; [rewrite G1; eauto|]. rewrite E2 in Hf. cbn in Hf. subst r2.
  apply law_open in E2 as (G2 & _ & Hfree & F2); [|done]. cbn [mbind outcome_bind]. rewrite run_then.
  destruct (get_loop_repeats fuel f (components README) c 0 h2 n1) as (h3 & n3 & -> & F3 & G3 & Hs3);
    [by rewrite F2, lookup_insert_eq|by rewrite G2, G1|lia|lia|].
  cbn [mbind outcome_bind]. rewrite run_call, sys_store. destruct (sys (Kv_close f) h3) as [r4 h4] eqn:E4.
  assert (is_Some (fds h3 !! f)) as Ho by (rewrite F3, F2, lookup_insert_eq; eauto).
  pose proof (works_close f h3 Ho) as Hr4. rewrite E4 in Hr4. cbn in Hr4. subst r4.
  apply law_close in E4 as (_ & _ & F4). exists h4, n3. split; [done|].
  rewrite F4, F3, F2, Hs3, Hs1, delete_insert_id, F1, <- app_assoc by done. done.
Qed.
End runs.
End old.
End Old.

(** ** Witnesses *)

Record Peer : Type := MkPeer { p_incoming : list (list Z); p_sent : list frame }.
Definition peer : Connection Peer := {|
  conn_data n := (inr (head (p_incoming n)), MkPeer (tail (p_incoming n)) (p_sent n));
  conn_send_response n := (inr tt, MkPeer (p_incoming n) (p_sent n ++ [Head]));
  conn_send_data data last n := (inr tt, MkPeer (p_incoming n) (p_sent n ++ [Data data last]));
  incoming := p_incoming; sent := p_sent |}.
Lemma peer_laws : ConnectionLaws peer.
Proof. split; intros; by eexists. Qed.

(** A value of two chunks is cut to the first. *)
Definition demo_requests : list (OsStr * Peer) :=
  [(text "/put/1111", MkPeer [[1; 2]; [3]] []); (text "/get/1111", MkPeer [] []); (text "/put/2", MkPeer [] []);
   (text "/get/1111/x", MkPeer [] [])].
Lemma h2_serves_cache_witness :
  fst <$> @serve linux demo_hash Mem Peer (mem_disk false) peer demo_store demo_requests demo_empty =
    Ret [[Head; Data world true]; [Head; Data [1; 2] true]; [Head; Data world true]; []].
Proof.
  rewrite (@h2_serves_cache linux demo_hash Mem Peer (mem_disk false) peer (mem_disk_laws false) mem_disk_works peer_laws
    demo_store demo_requests ∅ demo_empty demo_store_ok (demo_holds false)); [vm_compute; reflexivity|].
  repeat constructor; unfold request_ok; cbn; try (apply (bool_decide_unpack _); vm_compute; exact I); try lia.
Defined.

(** The store's paths for [..] as the key: its bucket's parent, no further. *)
Lemma h2_confined_witness :
  @all_calls SvcSys _ (λ _ s, ∀ p, svc_path s = Some p → in_store demo_store p)
    (@handle_request linux demo_hash demo_store (text "/put/..")).
Proof. apply (@h2_confined linux demo_hash), demo_store_ok. Defined.

(** A file of 300 bytes is sent as its first 128 bytes, twice, and its first 44. *)
Definition demo_readme : list Z := Z.of_nat <$> seq 0 300.
Definition demo_cwd : Mem := MkMem {[ components Old.README := demo_readme ]} ∅ ∅.
Lemma old_get_repeats_witness :
  ∃ h' n', @run _ (Mem * Peer) _ (@svc_system Mem Peer (mem_disk false) peer)
      (Old.handle_request (λ _ len, replicate (Z.to_nat len) 0) 3 (text "/get/1")) (demo_cwd, MkPeer [] []) = Ret (inr tt, (h', n')) ∧
    m_fds h' = ∅ ∧
    p_sent n' = [Head; Data (take 128 demo_readme) false; Data (take 128 demo_readme) false; Data (take 44 demo_readme) true].
Proof.
  destruct (@Old.old_get_repeats (λ _ len, replicate (Z.to_nat len) 0) linux Mem Peer (mem_disk false) (mem_disk_laws false)
    mem_disk_works peer peer_laws 3 demo_readme demo_cwd (MkPeer [] []) (text "/get/1") (text "1")) as (h' & n' & Hrun & F & Hs).
  - vm_compute. reflexivity.
  - unfold proper. apply (bool_decide_unpack _). vm_compute. exact I.
  - vm_compute. reflexivity.
  - unfold demo_readme. rewrite length_fmap, length_seq. lia.
  - unfold demo_readme. rewrite length_fmap, length_seq. lia.
  - exists h', n'. split; [exact Hrun|]. split; [exact F|]. etrans; [exact Hs|]. vm_compute. reflexivity.
Defined.
