(* ===== verification/Settings.v ===== *)
(** * Settings: the worker's configuration

    [Settings] and [FromConfig] ([common/src/settings.rs]), the options of the store
    ([settings/local_kv_options.rs]) and the store the worker builds from them
    ([worker/src/main.rs]).  The crate config is a parameter: what a built [Config]
    answers for a key, as a value of the type asked for. *)

From Stdlib Require Import Ascii String.
From S2P Require Import Prelude Programs Operation Paths Text Response KvStore.

Local Open Scope Z_scope.

Record Config : Type := MkConfig {
  get_bool : OsStr → option bool;
  get_string : OsStr → option OsStr;
  get_String : OsStr → option OsStr;             (* get::<String> *)
  get_u16 : OsStr → option Z;
  get_u32 : OsStr → option Z }.

(** What surrounds the process: an environment variable, the name and the address of
    the host, and the configuration built from a file and the environment. *)
Record Environment : Type := MkEnvironment {
  FAIRY_CONFIG : option OsStr;
  hostname_get : option OsStr;
  local_ip_get : option OsStr;
  build_config : OsStr → option Config }.

Record Settings : Type := MkSettings {
  debug : bool; log_level : OsStr; hostname : OsStr; local_ip : OsStr; http_port : Z; http2_port : Z; socket_port : Z;
  service_discovery_type : OsStr; etcd_uris : list OsStr; static_service_list : list OsStr; metrics_push_uri : option OsStr }.

Definition comma_list (s : OsStr) : list OsStr := split_at comma s.

(** [From<Config>]; the argument of [unwrap_or] is evaluated in any case. *)
Definition Settings_from (env : Environment) (config : Config) : outcome Settings :=
  let debug := default false (get_bool config (text "is_debug")) in
  let log_level := default (text "INFO") (get_String config (text "log_level")) in
  own_name ← unwrap (hostname_get env);
  own_name ← unwrap (into_string own_name);
  let hostname := default own_name (get_String config (text "fairy_hostname")) in
  own_ip ← unwrap (local_ip_get env);
  let local_ip := default own_ip (get_String config (text "local_ip")) in
  let http_port := default 8080 (get_u16 config (text "http_port")) in
  let http2_port := default 5928 (get_u16 config (text "http2_port")) in
  let socket_port := default 19090 (get_u16 config (text "socket_port")) in
  let service_discovery_type := default (text "static") (get_string config (text "service_discovery_type")) in
  let static_service_list :=
    if decide (service_discovery_type = text "static") then
      comma_list (default (text "localhost:" ++ digits 10 http_port) (get_string config (text "static_service_list")))
    else [] in
  let etcd_uris :=
    if decide (service_discovery_type = text "etcd") then
      comma_list (default (text "localhost:2379") (get_string config (text "etcd_uris")))
    else [] in
  let metrics_push_uri := get_string config (text "metrics_push_uri") in
  Ret (MkSettings debug log_level hostname local_ip http_port http2_port socket_port service_discovery_type etcd_uris
         static_service_list metrics_push_uri).

Definition config_filename (env : Environment) : OsStr := default (text "fairy_config") (FAIRY_CONFIG env).
(** [Settings::new()]: an error ([None]) if the configuration cannot be built. *)
Definition Settings_new (env : Environment) : outcome (option Settings) :=
  match build_config env (config_filename env) with
  | None => Ret None
  | Some config => settings ← Settings_from env config; Ret (Some settings)
  end.

(** The trait [FromConfig]. *)
Class FromConfig (T : Type) := from_with_prefix : OsStr → Config → T.
Definition from_config `{FromConfig T} (config : Config) : T := from_with_prefix [] config.

Definition get_config {T} (get : OsStr → option T) (prefix key : OsStr) (default_ : T) : T :=
  default default_ (get (prefix ++ text "." ++ key)).
#[export] Instance LocalFileKVStoreOptions_from : FromConfig LocalFileKVStoreOptions := λ prefix config,
  MkKvOptions
    (get_config (get_String config) prefix (text "local_kv_root_path") (text "/tmp/fairy_store"))
    (get_config (get_u16 config) prefix (text "local_kv_num_bucket") 1024)
    (get_config (get_u32 config) prefix (text "local_kv_chunk_size") (128 * 1024)).

Definition parse_with_prefix `{FromConfig T} (env : Environment) (prefix : OsStr) : outcome T :=
  config ← unwrap (build_config env (config_filename env));
  Ret (from_with_prefix prefix config).

(** [KV_STORE] and [H2_ADDR] of the worker. *)
Definition KV_STORE (env : Environment) : outcome LocalFileKVStore :=
  options ← parse_with_prefix env (text "worker");
  Ret (LocalFileKVStore_new options).
Definition H2_ADDR (settings : Settings) : OsStr := text "127.0.0.1:" ++ digits 10 (http2_port settings).

(** ** Properties *)

#[local] Arguments text : simpl never.

(** Numbers are of the type they are asked for. *)
Definition config_ok (config : Config) : Prop :=
  (∀ k v, get_u16 config k = Some v → 0 ≤ v < 2 ^ 16) ∧ (∀ k v, get_u32 config k = Some v → 0 ≤ v < 2 ^ 32).

(** A configuration is read without a panic exactly if the host's own name and
    address can be asked for and the name is UTF-8, even where both are configured.
    Then the ports are 16 bits, a list is the configured one with the parts between
    its commas, and one of the two lists is empty. *)
Theorem settings_read env config : config_ok config →
  (Settings_from env config = Panic ↔
    hostname_get env = None ∨ (∃ n, hostname_get env = Some n ∧ is_utf8 n = false) ∨ local_ip_get env = None) ∧
  ∀ s, Settings_from env config = Ret s →
    (0 ≤ http_port s < 2 ^ 16 ∧ 0 ≤ http2_port s < 2 ^ 16 ∧ 0 ≤ socket_port s < 2 ^ 16) ∧
    (etcd_uris s = [] ∨ static_service_list s = []) ∧
    (∀ ws, ws ≠ [] → Forall (λ w, comma ∉ w) ws → service_discovery_type s = text "static" →
       get_string config (text "static_service_list") = Some (join_with comma ws) → static_service_list s = ws) ∧
    (∀ ws, ws ≠ [] → Forall (λ w, comma ∉ w) ws → service_discovery_type s = text "etcd" →
       get_string config (text "etcd_uris") = Some (join_with comma ws) → etcd_uris s = ws).
Proof.
  intros [H16 _]. unfold Settings_from, into_string. split.
  - destruct (hostname_get env) as [n|]; cbn [unwrap mbind outcome_bind]; [|by split; [left|]].
    destruct (is_utf8 n) eqn:Hn; cbn [unwrap mbind outcome_bind]; [|by split; [right; left; exists n|]].
    destruct (local_ip_get env) as [ip|]; cbn [unwrap mbind outcome_bind]; [|by split; [right; right|]].
    split; [discriminate|]. intros [?|[(n' & ? & ?)|?]]; congruence.
  - intros s (n & _ & (n' & _ & (ip & _ & Hs)%bind_Ret)%bind_Ret)%bind_Ret. injection Hs as <-.
    cbn [http_port http2_port socket_port etcd_uris static_service_list service_discovery_type].
    assert (∀ k d, 0 ≤ d < 2 ^ 16 → 0 ≤ default d (get_u16 config k) < 2 ^ 16) as Hport.
    { intros k d Hd. destruct (get_u16 config k) as [v|] eqn:Hv; cbn; [by apply (H16 k)|done]. }
    split; [by split_and!; apply Hport|]. split; [|split; intros ws Hne Hws -> ->].
    + case_decide as Ht; [|by left]. right. rewrite decide_False; [done|]. rewrite Ht. vm_compute. discriminate.
    + rewrite decide_True by done. by apply split_join.
    + rewrite decide_True by done. by apply split_join.
Qed.

(** The worker's store takes its options from the keys with its prefix; it panics on
    every put and get exactly if it is configured with no buckets, and is well-formed
    otherwise, if its root is. *)
Theorem worker_store `{StringHasher} env config store : config_ok config →
  build_config env (config_filename env) = Some config → KV_STORE env = Ret store →
  (∀ id, data_path store id = Panic ↔ get_u16 config (text "worker.local_kv_num_bucket") = Some 0) ∧
  (get_u16 config (text "worker.local_kv_num_bucket") ≠ Some 0 →
   proper (default (text "/tmp/fairy_store") (get_String config (text "worker.local_kv_root_path"))) → store_ok store).
Proof.
  intros [H16 _] Hb. unfold KV_STORE, parse_with_prefix. rewrite Hb. cbn [unwrap mbind outcome_bind]. intros [= <-].
  unfold from_with_prefix, LocalFileKVStoreOptions_from, get_config.
  change (text "worker" ++ text "." ++ ?k) with (text "worker." ++ k).
  change (text "worker." ++ text "local_kv_num_bucket") with (text "worker.local_kv_num_bucket").
  change (text "worker." ++ text "local_kv_root_path") with (text "worker.local_kv_root_path").
  split.
  - intros id. unfold data_path. cbn [options LocalFileKVStore_new num_bucket].
    destruct (get_u16 config _) as [v|]; cbn; case_decide; naive_solver.
  - intros Hn Hp. split; [exact Hp|]. cbn [options LocalFileKVStore_new num_bucket].
    destruct (get_u16 config _) as [v|] eqn:Hv; cbn; [|lia]. pose proof (H16 _ _ Hv). assert (v ≠ 0) by congruence. lia.
Qed.

(** Without a prefix the keys that are asked for begin with a dot. *)
Theorem from_config_keys config config' :
  (∀ k, head k = Some 46 → get_String config k = get_String config' k ∧ get_u16 config k = get_u16 config' k ∧ get_u32 config k = get_u32 config' k) →
  from_config (T := LocalFileKVStoreOptions) config = from_config config'.
Proof.
  intros Hk. unfold from_config, from_with_prefix, LocalFileKVStoreOptions_from, get_config.
  assert (∀ key, head ([] ++ text "." ++ key) = Some 46) as Hd by done.
  destruct (Hk _ (Hd (text "local_kv_root_path"))) as (-> & _ & _), (Hk _ (Hd (text "local_kv_num_bucket"))) as (_ & -> & _),
    (Hk _ (Hd (text "local_kv_chunk_size"))) as (_ & _ & ->). done.
Qed.

(** ** Witnesses *)

Definition demo_config : Config := MkConfig (λ _, None)
  (λ k, if decide (k = text "service_discovery_type") then Some (text "etcd")
        else if decide (k = text "etcd_uris") then Some (text "a:1,b:2") else None)
  (λ k, if decide (k = text "fairy_hostname") then Some (text "w1") else None) (λ _, None) (λ _, None).
Definition demo_env (name : option OsStr) : Environment := MkEnvironment None name (Some (text "10.0.0.1")) (λ _, Some demo_config).
Lemma demo_config_ok : config_ok demo_config.
Proof. by split. Qed.

(** The configured name does not help. *)
Lemma settings_read_witness :
  Settings_from (demo_env None) demo_config = Panic ∧
  ∃ s, Settings_from (demo_env (Some (text "h"))) demo_config = Ret s ∧ hostname s = text "w1" ∧
    static_service_list s = [] ∧ etcd_uris s = [text "a:1"; text "b:2"].
Proof.
  split; [apply (settings_read (demo_env None) demo_config demo_config_ok); by left|].
  destruct (Settings_from (demo_env (Some (text "h"))) demo_config) as [s| |] eqn:Hs; [|discriminate Hs..].
  exists s. split; [done|]. destruct (proj2 (settings_read _ _ demo_config_ok) s Hs) as (_ & _ & _ & He).
  assert (etcd_uris s = [text "a:1"; text "b:2"]) as ->.
  { apply He; [done| | |].
    - apply (bool_decide_unpack _). vm_compute. exact I.
    - vm_compute in Hs. injection Hs as <-. reflexivity.
    - vm_compute. reflexivity. }
  vm_compute in Hs. injection Hs as <-. done.
Defined.
Lemma worker_store_witness :
  ∃ store, KV_STORE (demo_env None) = Ret store ∧ store_ok store ∧ ∃ p, @data_path (λ _, 7) store (text "k") = Ret p.
Proof.
  eexists. split; [reflexivity|].
  destruct (@worker_store (λ _, 7) (demo_env None) demo_config _ demo_config_ok eq_refl eq_refl) as [Hp Hok].
  split; [apply Hok; [discriminate|]; unfold proper; apply (bool_decide_unpack _); vm_compute; exact I|].
  specialize (Hp (text "k")). destruct (data_path _ _) as [p| |] eqn:Hd; [by exists p|discriminate (proj1 Hp eq_refl)|].
  unfold data_path in Hd. case_decide; discriminate.
Defined.
