(* ===== verification/Worker.v ===== *)
(** * Worker: the worker's other services

    The echo server on a socket ([worker/src/main.rs]), the pages of the HTTP server
    ([worker/src/hyper_service.rs]) and the registry of workers in etcd
    ([worker/src/service_registry/etcd.rs]), as programs of the calls they make of a
    stream and of an etcd client, which are parameters. *)

From Stdlib Require Import Ascii String.
From S2P Require Import Prelude Programs Operation Paths Text.

Local Open Scope Z_scope.

Inductive WorkSys : Type → Type :=
  | Tcp_read (capacity : Z) : WorkSys (list Z)
  | Tcp_write_all (data : list Z) : WorkSys unit
  | Etcd_get_prefix (prefix : OsStr) : WorkSys (list (list Z * list Z))
  | Etcd_lease_grant (ttl : Z) : WorkSys Z
  | Etcd_put (key value : OsStr) (lease : Z) : WorkSys unit
  | Etcd_lease_keep_alive (lease : Z) : WorkSys unit.
Abbreviation Prog := (Prog WorkSys).

(** ** Echo *)

(** Until the peer is done, what is read is written. *)
Fixpoint echo (fuel : nat) : Prog (Z + unit) :=
  match fuel with
  | O => Crash Exhausted
  | S fuel =>
      and_then (call (Tcp_read (8 * 1024))) (λ buf,
        if decide (buf = []) then Done (inr tt)
        else and_then (call (Tcp_write_all buf)) (λ _, echo fuel))
  end.

(** A stream: the chunks its reads will give, none of them empty, and what was
    written. *)
Class Stream (H : Type) `{!System WorkSys H} := { to_read : H → list (list Z); written : H → list Z }.
Class StreamLaws {H} `{ST : Stream H} : Prop := {
  law_tcp_read cap h : ∃ h', sys (Tcp_read cap) h = (inr (default [] (head (to_read h))), h') ∧
    to_read h' = tail (to_read h) ∧ written h' = written h;
  law_tcp_write data h : ∃ h', sys (Tcp_write_all data) h = (inr tt, h') ∧ to_read h' = to_read h ∧
    written h' = written h ++ data }.

(** The echo server writes all bytes the peer sends, in their order, and ends when the
    peer does. *)
Theorem echo_echoes {H} `{StreamLaws H} h : Forall (λ chunk, chunk ≠ []) (to_read h) →
  ∃ h', run (echo (S (length (to_read h)))) h = Ret (inr tt, h') ∧ written h' = written h ++ concat (to_read h).
Proof.
  remember (to_read h) as chunks eqn:Hc. revert h Hc.
  induction chunks as [|chunk chunks IH]; intros h Hc Hne; cbn [length echo]; rewrite run_then, run_call;
    destruct (law_tcp_read (8 * 1024) h) as (h1 & -> & Hr & Hw); rewrite <- Hc in *; cbn [head default mbind outcome_bind].
  - rewrite decide_True by done. exists h1. by rewrite Hw, app_nil_r.
  - apply Forall_cons in Hne as [Hne Hrest]. rewrite decide_False, run_then, run_call by done. unfold id.
    destruct (law_tcp_write chunk h1) as (h2 & -> & Hr2 & Hw2). cbn [mbind outcome_bind].
    destruct (IH h2) as (h' & Hrun & Hw'); [by rewrite Hr2, Hr|done|]. exists h'. split; [exact Hrun|].
    cbn [concat]. by rewrite Hw', Hw2, Hw, <- app_assoc.
Qed.

(** ** Pages *)

Inductive page : Type := Greeting | Metrics | NotFound.
Definition hyper_handler (method path : OsStr) : page :=
  if decide (method = text "GET" ∧ path = text "/") then Greeting
  else if decide (method = text "GET" ∧ path = text "/metrics") then Metrics
  else NotFound.

(** ** The registry *)

Definition services : OsStr := text "services/".
(** [str::strip_prefix]. *)
Definition strip_prefix (p s : OsStr) : option OsStr := if starts_with p s then Some (drop (length p) s) else None.

Definition service_name (host : OsStr) (port : Z) : OsStr := host ++ text ":" ++ digits 10 port.
Definition register_service (host : OsStr) (port : Z) : Prog (Z + Z) :=
  and_then (call (Etcd_lease_grant 40)) (λ lease,
    and_then (call (Etcd_put (services ++ service_name host port) (service_name host port) lease)) (λ _, Done (inr lease))).

(** The keys that are text, without the prefix. *)
Definition service_ids (kvs : list (list Z * list Z)) : list OsStr :=
  omap (λ kv, key ← into_string kv.1; strip_prefix services key) kvs.
Definition update_shared_data : Prog (Z + list OsStr) :=
  and_then (call (Etcd_get_prefix services)) (λ kvs, Done (inr (service_ids kvs))).
(** An error is only logged. *)
Definition keep_alive (lease : Z) : Prog unit := _ ← call (Etcd_lease_keep_alive lease); Done tt.

(** A round of the task: what the others see, [shared], is replaced if etcd answers. *)
Definition registry_round (lease : Z) (shared : list OsStr) : Prog (list OsStr) :=
  r ← update_shared_data;
  _ ← keep_alive lease;
  Done (match r with inr ids => ids | inl _ => shared end).
Definition registry_start (host : OsStr) (port : Z) : Prog Z :=
  r ← register_service host port;
  match r with inr lease => Done lease | inl _ => Crash Panics end.

(** An etcd that answers: the pairs it holds, in the order of their keys; a lease may
    end at any other call. *)
Class Etcd (H : Type) `{!System WorkSys H} := { pairs : H → gmap OsStr (list Z) }.
Class EtcdLaws {H} `{E : Etcd H} : Prop := {
  law_get prefix h r h' : sys (Etcd_get_prefix prefix) h = (r, h') → pairs h' = pairs h ∧
    ∀ kvs, r = inr kvs → ∀ k v, (k, v) ∈ kvs ↔ pairs h !! k = Some v ∧ starts_with prefix k = true;
  law_grant ttl h r h' : sys (Etcd_lease_grant ttl) h = (r, h') → pairs h' = pairs h;
  law_put key value lease h r h' : sys (Etcd_put key value lease) h = (r, h') →
    (r = inr tt → pairs h' = <[key := value]> (pairs h));
  law_keep_alive lease h r h' : sys (Etcd_lease_keep_alive lease) h = (r, h') → pairs h' = pairs h }.

Section registry.
Context {H : Type} `{EL : EtcdLaws H}.

Lemma strip_prefix_Some p s r : strip_prefix p s = Some r ↔ s = p ++ r.
Proof.
  unfold strip_prefix. destruct (starts_with p s) eqn:Hs.
  - apply starts_with_spec in Hs as [t ->]. rewrite drop_app_length. split; [by intros [= ->]|by intros ->%app_inv_head].
  - split; [done|]. intros ->. by rewrite starts_with_app in Hs.
Qed.
Lemma elem_of_service_ids kvs id :
  id ∈ service_ids kvs ↔ ∃ v, (services ++ id, v) ∈ kvs ∧ is_utf8 id = true.
Proof.
  assert (∀ s, is_utf8 (services ++ s) = is_utf8 s) as Hu by (intros s; by apply is_utf8_app; vm_compute).
  unfold service_ids. rewrite list_elem_of_omap. unfold into_string. split.
  - intros ([k v] & Hin & Hk). cbn [fst] in Hk. destruct (is_utf8 k) eqn:Hutf; [|done]. cbn [mbind option_bind] in Hk.
    apply strip_prefix_Some in Hk as ->. exists v. by rewrite Hu in Hutf.
  - intros (v & Hin & Hutf). exists (services ++ id, v). split; [done|]. cbn [fst]. rewrite Hu, Hutf. cbn [mbind option_bind].
    by apply strip_prefix_Some.
Qed.

(** A worker that has registered is found in the next round that etcd answers, and all
    that are found have a key under [services/]; if etcd does not answer, the round
    leaves what was known. *)
Theorem registry_finds host port h lease h1 shared : is_utf8 host = true → 0 ≤ port →
  run (registry_start host port) h = Ret (lease, h1) →
  ∃ ids h2, run (registry_round lease shared) h1 = Ret (ids, h2) ∧ pairs h2 = pairs h1 ∧
    (ids = shared ∨
     service_name host port ∈ ids ∧ ∀ id, id ∈ ids ↔ is_Some (pairs h1 !! (services ++ id)) ∧ is_utf8 id = true).
Proof.
  intros Hh Hp Hrun.
  assert (pairs h1 !! (services ++ service_name host port) = Some (service_name host port)) as Hreg.
  { revert Hrun. unfold registry_start, register_service. rewrite run_bind. unfold mbind at 1, stateM_bind.
    rewrite run_then, run_call. destruct (sys (Etcd_lease_grant 40) h) as [[e|l] h0]; cbn [mbind outcome_bind]; [done|].
    rewrite run_then, run_call. destruct (sys (Etcd_put _ _ l) h0) as [[e|[]] h0'] eqn:Eput; cbn [mbind outcome_bind]; [done|].
    intros [= <- <-]. rewrite (law_put _ _ _ _ _ _ Eput eq_refl). by rewrite lookup_insert_eq. }
  assert (is_utf8 (service_name host port) = true) as Hutf.
  { unfold service_name. rewrite !is_utf8_app by done.
    destruct (digits_spec 10 port ltac:(lia) Hp) as [_ Hd]. revert Hd. generalize (digits 10 port). intros ds Hd.
    induction Hd as [|d ds Hd Hds IH]; [done|]. cbn. by rewrite (proj2 (Z.ltb_lt d 128)) by lia. }
  unfold registry_round, update_shared_data. rewrite run_bind. unfold mbind at 1, stateM_bind. rewrite run_then, run_call.
  destruct (sys (Etcd_get_prefix services) h1) as [r h2] eqn:Eget. apply law_get in Eget as [Hpairs Hkvs].
  assert (∀ ids : list OsStr, ∃ h3, run (keep_alive lease ≫= λ _, Done ids) h2 = Ret (ids, h3) ∧ pairs h3 = pairs h1) as Hend.
  { intros ids. unfold keep_alive. rewrite run_bind. unfold mbind at 1, stateM_bind. rewrite run_call_bind.
    destruct (sys (Etcd_lease_keep_alive lease) h2) as [r' h3] eqn:Ek. apply law_keep_alive in Ek. exists h3. by rewrite Ek. }
  destruct r as [e|kvs]; cbn [mbind outcome_bind].
  - destruct (Hend shared) as (h3 & Hr & Hp3). exists shared, h3. split; [exact Hr|]. auto.
  - destruct (Hend (service_ids kvs)) as (h3 & Hr & Hp3). exists (service_ids kvs), h3. split; [exact Hr|]. split; [done|]. right.
    assert (∀ id, id ∈ service_ids kvs ↔ is_Some (pairs h1 !! (services ++ id)) ∧ is_utf8 id = true) as Hids.
    { intros id. rewrite elem_of_service_ids. split.
      - intros (v & Hin & ?). apply Hkvs in Hin as [Hin _]; [|done]. split; [by exists v|done].
      - intros [[v Hv] ?]. exists v. split; [|done]. apply (Hkvs kvs eq_refl). split; [done|apply starts_with_app]. }
    split; [|done]. apply Hids. by rewrite Hreg.
Qed.
End registry.

(** ** Witnesses *)

Record Net : Type := MkNet { net_in : list (list Z); net_out : list Z; net_pairs : gmap OsStr (list Z) }.
#[local] Instance net_sys : System WorkSys Net := λ X s h,
  match s in WorkSys X return (Z + X) * Net with
  | Tcp_read _ => (inr (default [] (head (net_in h))), MkNet (tail (net_in h)) (net_out h) (net_pairs h))
  | Tcp_write_all data => (inr tt, MkNet (net_in h) (net_out h ++ data) (net_pairs h))
  | Etcd_get_prefix prefix => (inr (filter (λ kv, starts_with prefix kv.1 = true) (map_to_list (net_pairs h))), h)
  | Etcd_lease_grant _ => (inr 7, h)
  | Etcd_put key value _ => (inr tt, MkNet (net_in h) (net_out h) (<[key := value]> (net_pairs h)))
  | Etcd_lease_keep_alive _ => (inr tt, h)
  end.
#[local] Instance net_stream : Stream Net := {| to_read := net_in; written := net_out |}.
#[local] Instance net_stream_laws : @StreamLaws Net _ net_stream.
Proof. split; intros; by eexists. Qed.
#[local] Instance net_etcd : Etcd Net := {| pairs := net_pairs |}.
#[local] Instance net_etcd_laws : @EtcdLaws Net _ net_etcd.
Proof.
  split; cbn [pairs net_etcd]; unfold sys; cbn [net_sys].
  - intros prefix h r h' [= <- <-]. split; [done|]. intros kvs [= <-] k v.
    rewrite list_elem_of_filter, elem_of_map_to_list. cbn. tauto.
  - by intros ttl h r h' [= <- <-].
  - by intros key value lease h r h' [= <- <-].
  - by intros lease h r h' [= <- <-].
Qed.

Lemma echo_echoes_witness :
  ∃ h', run (echo 3) (MkNet [[1; 2]; [3]] [] ∅) = Ret (inr tt, h') ∧ net_out h' = [1; 2; 3].
Proof.
  destruct (@echo_echoes Net net_sys net_stream net_stream_laws (MkNet [[1; 2]; [3]] [] ∅)) as (h' & Hrun & Hw);
    [by repeat constructor|]. exists h'. split; [exact Hrun|exact Hw].
Defined.

Definition demo_registry : Net := MkNet [] [] {[ text "services/b:2" := text "b:2"; text "other" := text "x" ]}.
Lemma registry_finds_witness :
  ∃ h1 ids h2, run (registry_start (text "10.0.0.1") 8080) demo_registry = Ret (7, h1) ∧
    run (registry_round 7 []) h1 = Ret (ids, h2) ∧ (ids = [] ∨ text "10.0.0.1:8080" ∈ ids).
Proof.
  eexists. destruct (@registry_finds Net net_sys net_etcd net_etcd_laws (text "10.0.0.1") 8080 demo_registry 7
    (MkNet [] [] (<[ services ++ service_name (text "10.0.0.1") 8080 := service_name (text "10.0.0.1") 8080 ]> (net_pairs demo_registry)))
    []) as (ids & h2 & Hrun & _ & Hids); [vm_compute; reflexivity|lia|reflexivity|].
  exists ids, h2. split; [reflexivity|]. split; [exact Hrun|]. destruct Hids as [->|[Hin _]]; [by left|right].
  exact Hin.
Defined.
