(* ===== verification/Session.v ===== *)
(** * Session: dispatching requests ([uring_fuse/request.rs], [session.rs])

    The protocol state of a mounted file system, the dispatch of one request to
    the methods of the [Filesystem] trait, and the loop that reads requests.  The
    file system is any implementation of the class [Filesystem]; reply objects are
    handed to it and answered at any later time (see [reply_exactly_once] in
    Response.v).  Log messages are not modelled. *)

From S2P Require Import Prelude Wire KernelInterface Time Argument Operation Request.
From S2P Require Import KernelConfig Response.

Local Open Scope Z_scope.

(** ** The trait [Filesystem] *)

(** The calls that answer a request, with their arguments but the request. *)
Inductive FsCall : Type :=
  | Fs_lookup (parent : Z) (name : OsStr)
  | Fs_forget (ino nlookup : Z)
  | Fs_getattr (ino : Z)
  | Fs_setattr (ino : Z) (mode uid gid size : option Z) (atime mtime : option TimeOrNow)
      (ctime : option SystemTime) (fh : option Z)
      (crtime chgtime bkuptime : option SystemTime) (flags : option Z)
  | Fs_readlink (ino : Z)
  | Fs_mknod (parent : Z) (name : OsStr) (mode umask rdev : Z)
  | Fs_mkdir (parent : Z) (name : OsStr) (mode umask : Z)
  | Fs_unlink (parent : Z) (name : OsStr)
  | Fs_rmdir (parent : Z) (name : OsStr)
  | Fs_symlink (parent : Z) (name : OsStr) (link : Path)
  | Fs_rename (parent : Z) (name : OsStr) (newparent : Z) (newname : OsStr) (flags : Z)
  | Fs_link (ino newparent : Z) (newname : OsStr)
  | Fs_open (ino flags : Z)
  | Fs_read (ino fh offset size flags : Z) (lock_owner : option Z)
  | Fs_write (ino fh offset : Z) (data : list Z) (write_flags flags : Z) (lock_owner : option Z)
  | Fs_flush (ino fh lock_owner : Z)
  | Fs_release (ino fh flags : Z) (lock_owner : option Z) (flush : bool)
  | Fs_fsync (ino fh : Z) (datasync : bool)
  | Fs_opendir (ino flags : Z)
  | Fs_readdir (ino fh offset : Z) (list : EntListBuf)
  | Fs_readdirplus (ino fh offset : Z) (list : EntListBuf)
  | Fs_releasedir (ino fh flags : Z)
  | Fs_fsyncdir (ino fh : Z) (datasync : bool)
  | Fs_statfs (ino : Z)
  | Fs_setxattr (ino : Z) (name : OsStr) (value : list Z) (flags position : Z)
  | Fs_getxattr (ino : Z) (name : OsStr) (size : Z)
  | Fs_listxattr (ino size : Z)
  | Fs_removexattr (ino : Z) (name : OsStr)
  | Fs_access (ino mask : Z)
  | Fs_create (parent : Z) (name : OsStr) (mode umask flags : Z)
  | Fs_getlk (ino fh lock_owner start end' typ pid : Z)
  | Fs_setlk (ino fh lock_owner start end' typ pid : Z) (sleep : bool)
  | Fs_bmap (ino blocksize idx : Z)
  | Fs_ioctl (ino fh flags cmd : Z) (in_data : list Z) (out_size : Z)
  | Fs_batch_forget (nodes : list fuse_forget_one)
  | Fs_fallocate (ino fh offset length mode : Z)
  | Fs_lseek (ino fh offset whence : Z)
  | Fs_copy_file_range (ino_in fh_in offset_in ino_out fh_out offset_out len flags : Z).

(** An implementation: [init] may change the configuration through its setters
    and answers an error or not; a call gets the reply object, if there is one. *)
Class Filesystem (FS : Type) := {
  fs_init : AnyRequest → KernelConfig → FS → (option Z * KernelConfig) * FS;
  fs_destroy : FS → FS;
  fs_call : AnyRequest → FsCall → option ReplyRaw → FS → FS }.

(** [init] answers a [c_int], other than the least. *)
Class FilesystemLaws {FS} (FSI : Filesystem FS) : Prop :=
  fs_init_errno r c fs e c' fs' :
    fs_init r c fs = ((Some e, c'), fs') → - 2 ^ 31 < e < 2 ^ 31.

(** ** The session *)

Inductive SessionACL : Type := All | RootAndOwner | Owner.
#[export] Instance SessionACL_eq_dec : EqDecision SessionACL.
Proof. solve_decision. Defined.

(** [MountOption], as far as [Session::new] tests for options. *)
Record Session (FS : Type) : Type := MkSession {
  filesystem : FS;
  allowed : SessionACL;
  session_owner : Z;
  proto_major : Z;
  proto_minor : Z;
  initialized : bool;
  destroyed : bool }.
Arguments MkSession {FS}.
Arguments filesystem {FS} _.
Arguments allowed {FS} _.
Arguments session_owner {FS} _.
Arguments proto_major {FS} _.
Arguments proto_minor {FS} _.
Arguments initialized {FS} _.
Arguments destroyed {FS} _.

(** The access mode [Session::new] derives from the mount options. *)
Definition acl_of_options (allow_root allow_other : bool) : SessionACL :=
  if allow_root then RootAndOwner else if allow_other then All else Owner.

(** [Session::new] after the mount succeeded; [euid] is [libc::geteuid()]. *)
Definition Session_new {FS} (filesystem : FS) (allow_root allow_other : bool) (euid : Z)
    : Session FS :=
  MkSession filesystem (acl_of_options allow_root allow_other) euid 0 0 false false.

Section dispatch.
Context `{L : Libs, C : Libc, B : Build} {FS : Type} `{FSI : Filesystem FS}.

Abbreviation seM := (stateM (Session FS)).

Definition with_filesystem (f : FS → FS) (se : Session FS) : Session FS :=
  MkSession (f (filesystem se)) (allowed se) (session_owner se) (proto_major se)
    (proto_minor se) (initialized se) (destroyed se).
Definition with_proto (major minor : Z) (se : Session FS) : Session FS :=
  MkSession (filesystem se) (allowed se) (session_owner se) major minor
    (initialized se) (destroyed se).
Definition with_initialized (se : Session FS) : Session FS :=
  MkSession (filesystem se) (allowed se) (session_owner se) (proto_major se)
    (proto_minor se) true (destroyed se).
Definition with_destroyed (se : Session FS) : Session FS :=
  MkSession (filesystem se) (allowed se) (session_owner se) (proto_major se)
    (proto_minor se) (initialized se) true.

(** [Result<Option<Response>, Errno>]. *)
Abbreviation dispatch_result := (Errno + option Response)%type.

(** The file system is called with a reply object, or (FORGET) without. *)
Definition invoke (r : AnyRequest) (c : FsCall) : seM dispatch_result :=
  modify (with_filesystem (fs_call r c (Some (ReplyRaw_new (request_unique r)))));;
  mret (inr None).
Definition invoke_no_reply (r : AnyRequest) (c : FsCall) : seM dispatch_result :=
  modify (with_filesystem (fs_call r c None));; mret (inr None).
Definition refuse (errno : Z) : seM dispatch_result := mret (inl errno).

(** [v < Version(7, 6)], the derived lexicographic order. *)
Definition Version_lt (v w : Version) : bool :=
  (version_major v <? version_major w) ||
  ((version_major v =? version_major w) && (version_minor v <? version_minor w)).

(** The requests the kernel may issue without the uid of a user. *)
Definition acl_exempt (op : Operation) : bool :=
  match op with
  | OpInit _ | OpDestroy _ | OpRead _ | OpReadDir _ | OpReadDirPlus _ | OpBatchForget _
  | OpForget _ | OpWrite _ | OpFSync _ | OpFSyncDir _ | OpRelease _ | OpReleaseDir _ => true
  | _ => false
  end.
Definition acl_denies (se : Session FS) (uid : Z) : bool :=
  (bool_decide (allowed se = RootAndOwner) && negb (uid =? session_owner se)
     && negb (uid =? 0)) ||
  (bool_decide (allowed se = Owner) && negb (uid =? session_owner se)).

Definition dispatch_init (r : AnyRequest) (x : Init) : seM dispatch_result :=
  let v := Init_version x in
  if Version_lt v (MkVersion 7 6) then refuse EPROTO
  else
    modify (with_proto (version_major v) (version_minor v));;
    let config := KernelConfig_new (Init_capabilities x) (Init_max_readahead x) in
    se ← gets id;
    let '((err, config), fs) := fs_init r config (filesystem se) in
    modify (with_filesystem (λ _, fs));;
    match err with
    | Some e => refuse (Errno_from_i32 e)
    | None =>
        modify with_initialized;;
        resp ← lift (Init_reply x config);
        mret (inr (Some resp))
    end.

(** The arms of the last match, after the checks of the session's state. *)
Definition dispatch_op (r : AnyRequest) (op : Operation) : seM dispatch_result :=
  let nodeid := request_nodeid r in
  let unique := request_unique r in
  match op with
  | OpInit x => dispatch_init r x
  | OpDestroy x =>
      modify (with_filesystem fs_destroy);; modify with_destroyed;;
      mret (inr (Some (Destroy_reply x)))
  | OpInterrupt _ => refuse ENOSYS
  | OpLookup x => invoke r (Fs_lookup nodeid (Lookup_name x))
  | OpForget x => invoke_no_reply r (Fs_forget nodeid (Forget_nlookup x))
  | OpGetAttr _ => invoke r (Fs_getattr nodeid)
  | OpSetAttr x =>
      atime ← lift (SetAttr_atime x);
      mtime ← lift (SetAttr_mtime x);
      ctime ← lift (SetAttr_ctime x);
      invoke r (Fs_setattr nodeid (SetAttr_mode x) (SetAttr_uid x) (SetAttr_gid x)
        (SetAttr_size x) atime mtime ctime (SetAttr_file_handle x) (SetAttr_crtime x)
        (SetAttr_chgtime x) (SetAttr_bkuptime x) (SetAttr_flags x))
  | OpReadLink _ => invoke r (Fs_readlink nodeid)
  | OpMkNod x =>
      invoke r (Fs_mknod nodeid (MkNod_name x) (MkNod_mode x) (MkNod_umask x) (MkNod_rdev x))
  | OpMkDir x => invoke r (Fs_mkdir nodeid (MkDir_name x) (MkDir_mode x) (MkDir_umask x))
  | OpUnlink x => invoke r (Fs_unlink nodeid (Unlink_name x))
  | OpRmDir x => invoke r (Fs_rmdir nodeid (RmDir_name x))
  | OpSymLink x => invoke r (Fs_symlink nodeid (SymLink_target x) (SymLink_link x))
  | OpRename x =>
      invoke r (Fs_rename nodeid (name (Rename_src x)) (dir (Rename_dest x))
        (name (Rename_dest x)) 0)
  | OpLink x => invoke r (Fs_link (Link_inode_no x) nodeid (name (Link_dest x)))
  | OpOpen x => invoke r (Fs_open nodeid (Open_flags x))
  | OpRead x =>
      invoke r (Fs_read nodeid (Read_file_handle x) (Read_offset x) (Read_size x)
        (Read_flags x) (lock_owner_0 <$> Read_lock_owner x))
  | OpWrite x =>
      invoke r (Fs_write nodeid (Write_file_handle x) (Write_offset x) (Write_data x)
        (Write_write_flags x) (Write_flags x) (lock_owner_0 <$> Write_lock_owner x))
  | OpFlush x =>
      invoke r (Fs_flush nodeid (Flush_file_handle x) (lock_owner_0 (Flush_lock_owner x)))
  | OpRelease x =>
      invoke r (Fs_release nodeid (Release_file_handle x) (Release_flags x)
        (lock_owner_0 <$> Release_lock_owner x) (Release_flush x))
  | OpFSync x => invoke r (Fs_fsync nodeid (FSync_file_handle x) (FSync_fdatasync x))
  | OpOpenDir x => invoke r (Fs_opendir nodeid (OpenDir_flags x))
  | OpReadDir x =>
      invoke r (Fs_readdir nodeid (ReadDir_file_handle x) (ReadDir_offset x)
        (DirEntList_new (ReadDir_size x)))
  | OpReleaseDir x =>
      invoke r (Fs_releasedir nodeid (ReleaseDir_file_handle x) (ReleaseDir_flags x))
  | OpFSyncDir x => invoke r (Fs_fsyncdir nodeid (FSyncDir_file_handle x) (FSyncDir_fdatasync x))
  | OpStatFs _ => invoke r (Fs_statfs nodeid)
  | OpSetXAttr x =>
      invoke r (Fs_setxattr nodeid (SetXAttr_name x) (SetXAttr_value x) (SetXAttr_flags x)
        (SetXAttr_position x))
  | OpGetXAttr x => invoke r (Fs_getxattr nodeid (GetXAttr_name x) (GetXAttr_size_u32 x))
  | OpListXAttr x => invoke r (Fs_listxattr nodeid (ListXAttr_size x))
  | OpRemoveXAttr x => invoke r (Fs_removexattr nodeid (RemoveXAttr_name x))
  | OpAccess x => invoke r (Fs_access nodeid (Access_mask x))
  | OpCreate x =>
      invoke r (Fs_create nodeid (Create_name x) (Create_mode x) (Create_umask x)
        (Create_flags x))
  | OpGetLk x =>
      invoke r (Fs_getlk nodeid (GetLk_file_handle x) (lock_owner_0 (GetLk_lock_owner x))
        (lock_range (GetLk_lock x)).1 (lock_range (GetLk_lock x)).2
        (lock_typ (GetLk_lock x)) (lock_pid (GetLk_lock x)))
  | OpSetLk x =>
      invoke r (Fs_setlk nodeid (SetLk_file_handle x) (lock_owner_0 (SetLk_lock_owner x))
        (lock_range (SetLk_lock x)).1 (lock_range (SetLk_lock x)).2
        (lock_typ (SetLk_lock x)) (lock_pid (SetLk_lock x)) false)
  | OpSetLkW x =>
      invoke r (Fs_setlk nodeid (SetLkW_file_handle x) (lock_owner_0 (SetLkW_lock_owner x))
        (lock_range (SetLkW_lock x)).1 (lock_range (SetLkW_lock x)).2
        (lock_typ (SetLkW_lock x)) (lock_pid (SetLkW_lock x)) true)
  | OpBMap x => invoke r (Fs_bmap nodeid (BMap_block_size x) (BMap_block x))
  | OpIoCtl x =>
      if IoCtl_unrestricted x then refuse ENOSYS
      else
        in_data ← lift (IoCtl_in_data x);
        invoke r (Fs_ioctl nodeid (IoCtl_file_handle x) (IoCtl_flags x) (IoCtl_command x)
          in_data (IoCtl_out_size x))
  | OpPoll _ => refuse ENOSYS
  | OpNotifyReply _ => refuse ENOSYS
  | OpBatchForget x => invoke_no_reply r (Fs_batch_forget (BatchForget_nodes x))
  | OpFAllocate x =>
      invoke r (Fs_fallocate nodeid (FAllocate_file_handle x) (FAllocate_offset x)
        (FAllocate_len x) (FAllocate_mode x))
  | OpReadDirPlus x =>
      invoke r (Fs_readdirplus nodeid (ReadDirPlus_file_handle x) (ReadDirPlus_offset x)
        (DirEntPlusList_new (ReadDirPlus_size x)))
  | OpRename2 x =>
      invoke r (Fs_rename (dir (Rename2_from x)) (name (Rename2_from x))
        (dir (Rename2_to x)) (name (Rename2_to x)) (Rename2_flags x))
  | OpLseek x =>
      invoke r (Fs_lseek nodeid (Lseek_file_handle x) (Lseek_offset x) (Lseek_whence x))
  | OpCopyFileRange x =>
      let i := CopyFileRange_src x in
      let o := CopyFileRange_dest x in
      flags ← lift (if decide (CopyFileRange_flags x < 2 ^ 32)
                    then Ret (CopyFileRange_flags x) else Panic);
      invoke r (Fs_copy_file_range (inode i) (file_handle i) (offset i)
        (inode o) (file_handle o) (offset o) (CopyFileRange_len x) flags)
  | OpCuseInit _ => refuse ENOSYS
  end.

(** [dispatch_req]. *)
Definition dispatch_req (r : AnyRequest) : seM dispatch_result :=
  op ← lift (AnyRequest_operation r);
  match op with
  | inl _ => refuse ENOSYS
  | inr op =>
      se ← gets id;
      if acl_denies se (request_uid r) && negb (acl_exempt op) then refuse EACCES
      else match op with
      | OpInit x => dispatch_init r x
      | _ =>
          if negb (initialized se) then refuse EIO
          else match op with
          | OpDestroy _ => dispatch_op r op
          | _ => if destroyed se then refuse EIO else dispatch_op r op
          end
      end
  end.

(** [Request::dispatch]: the message written to the channel, if one is. *)
Definition dispatch (r : AnyRequest) : seM (option (list (list Z))) :=
  res ← dispatch_req r;
  match res with
  | inr None => mret None
  | inr (Some resp) => iov ← lift (Response_with_iovec resp (request_unique r)); mret (Some iov)
  | inl errno =>
      iov ← lift (Response_with_iovec (Response_new_error errno) (request_unique r));
      mret (Some iov)
  end.

(** [Drop for Session]. *)
Definition Session_drop (se : Session FS) : Session FS :=
  if destroyed se then se else with_destroyed (with_filesystem fs_destroy se).

(** [aligned_sub_buf]: slicing past the end panics. *)
Definition aligned_sub_buf (buf : slice) (alignment : Z) : outcome slice :=
  let off := alignment - addr buf `mod` alignment in
  if decide (off = alignment) then Ret buf
  else if decide (off ≤ Z.of_nat (length (data buf))) then Ret (slice_drop (Z.to_nat off) buf)
  else Panic.

(** What one [read] of the device answers. *)
Inductive receive_result : Type :=
  | Received (bytes : list Z)
  | ReadError (errno : Z).
(** How the loop of [run] goes on. *)
Inductive run_result : Type := Waiting | Finished | Failed (errno : Z).

(** The loop of [Session::run] on the answers the device will give; the messages
    written are collected.  [a] is the address of the aligned buffer. *)
Fixpoint run_loop (a : Z) (answers : list receive_result)
    : seM (run_result * list (list (list Z))) :=
  match answers with
  | [] => mret (Waiting, [])
  | Received bytes :: answers =>
      req ← lift (AnyRequest_try_from (MkSlice a bytes));
      match req with
      | inl _ => mret (Finished, [])
      | inr r =>
          msg ← dispatch r;
          '(res, msgs) ← run_loop a answers;
          mret (res, option_list msg ++ msgs)
      end
  | ReadError errno :: answers =>
      if decide (errno = ENOENT ∨ errno = EINTR ∨ errno = EAGAIN) then run_loop a answers
      else if decide (errno = ENODEV) then mret (Finished, [])
      else mret (Failed errno, [])
  end.
End dispatch.

(** ** A file system that logs its calls *)

Inductive event : Type :=
  | EvInit (accepted : bool)
  | EvDestroy
  | EvCall (c : FsCall) (reply : option ReplyRaw).

(** Any file system, with the list of the calls made to it. *)
#[export] Instance logged {FS} (FSI : Filesystem FS) : Filesystem (FS * list event) := {
  fs_init r c '(fs, log) :=
    let '((err, c'), fs') := fs_init r c fs in
    ((err, c'), (fs', log ++ [EvInit (bool_decide (err = None))]));
  fs_destroy '(fs, log) := (fs_destroy fs, log ++ [EvDestroy]);
  fs_call r c reply '(fs, log) := (fs_call r c reply fs, log ++ [EvCall c reply]) }.

(** What a file system may rely on: it is called only after an [init] it
    accepted and before [destroy].  The state is (initialised, destroyed). *)
Definition protocol_step (st : option (bool * bool)) (e : event) : option (bool * bool) :=
  '(up, down) ← st;
  match e with
  | EvInit ok => Some (up || ok, down)
  | EvDestroy => if up then Some (up, true) else None
  | EvCall _ _ => if up && negb down then Some (up, down) else None
  end.
Definition protocol (st : bool * bool) (log : list event) : option (bool * bool) :=
  foldl protocol_step (Some st) log.

Lemma protocol_app st log1 log2 st' :
  protocol st log1 = Some st' → protocol st (log1 ++ log2) = protocol st' log2.
Proof. unfold protocol. rewrite foldl_app. by intros ->. Qed.

Definition is_forget (c : FsCall) : bool :=
  match c with Fs_forget _ _ | Fs_batch_forget _ => true | _ => false end.
Definition is_call (e : event) : bool := match e with EvCall _ _ => true | _ => false end.

Section properties.
Context `{L : Libs, !LibsLaws L, C : Libc, !LibcLaws C, B : Build}.
Context {FS : Type} (FSI : Filesystem FS) `{!FilesystemLaws FSI}.

Abbreviation session := (Session (FS * list event)).
Definition events (se : session) : list event := (filesystem se).2.

(** How the request was answered: directly, or by one call that got the reply
    object of this request, or, for the two requests without an answer, by one
    call without. *)
Definition answered (r : AnyRequest) (direct : bool) (evs : list event) : Prop :=
  if direct then Forall (λ e, is_call e = false) evs
  else ∃ c, evs = [EvCall c (if is_forget c then None else Some (ReplyRaw_new (request_unique r)))].

Definition effect (r : AnyRequest) (direct : bool) (se se' : session) : Prop :=
  ∃ evs, events se' = events se ++ evs ∧
    protocol (initialized se, destroyed se) evs = Some (initialized se', destroyed se') ∧
    answered r direct evs ∧ allowed se' = allowed se ∧ session_owner se' = session_owner se.

Definition is_direct (res : Errno + option Response) : bool :=
  match res with inr None => false | _ => true end.

(** The responses the session sends itself are small, and their error numbers
    are within 32 bits. *)
Definition small_response (resp : Response) : Prop :=
  - 2 ^ 31 < Response_errno resp < 2 ^ 31 ∧ (length (Response_payload resp) ≤ 64)%nat.
Definition result_ok (res : Errno + option Response) : Prop :=
  match res with
  | inl errno => - 2 ^ 31 < errno < 2 ^ 31
  | inr (Some resp) => small_response resp
  | inr None => True
  end.

Definition dispatched (r : AnyRequest) (se : session)
    (x : (Errno + option Response) * session) : Prop :=
  result_ok x.1 ∧ effect r (is_direct x.1) se x.2.

Lemma refuse_dispatched r errno se :
  - 2 ^ 31 < errno < 2 ^ 31 → permits (refuse errno se) (dispatched r se).
Proof.
  intros He. split; [done|]. exists []. rewrite app_nil_r. split_and!; done || constructor.
Qed.
Lemma invoke_dispatched r c se :
  initialized se = true → destroyed se = false → is_forget c = false →
  permits (invoke r c se) (dispatched r se).
Proof.
  intros Hi Hd Hf. destruct se as [[fs log] ? ? ? ? ? ?]; simpl in *; subst.
  split; [done|]. eexists [_]. split_and!; [done|done| |done|done].
  exists c. by rewrite Hf.
Qed.
Lemma invoke_no_reply_dispatched r c se :
  initialized se = true → destroyed se = false → is_forget c = true →
  permits (invoke_no_reply r c se) (dispatched r se).
Proof.
  intros Hi Hd Hf. destruct se as [[fs log] ? ? ? ? ? ?]; simpl in *; subst.
  split; [done|]. eexists [_]. split_and!; [done|done| |done|done].
  exists c. by rewrite Hf.
Qed.
Lemma lift_permits {A D} (m : outcome A) (k : A → stateM session D) P se :
  m ≠ UB → (∀ a, permits (k a se) P) → permits ((lift m ≫= k) se) P.
Proof.
  intros Hm Hk. unfold mbind, stateM_bind, lift. destruct m; [apply Hk|done|done].
Qed.

Lemma Init_reply_small x c :
  permits (Init_reply x c) small_response.
Proof.
  unfold Init_reply. destruct (KernelConfig_max_pages page_size c) as [pages| |] eqn:Hp;
    [|done|].
  - cbn [mbind outcome_bind permits]. split; [done|]. unfold Response_new_data.
    cbn [Response_payload].
    by rewrite (encode_length (c := fuse_init_out_layout)).
  - unfold KernelConfig_max_pages, usub, uadd, uarith in Hp.
    repeat (case_match; simplify_eq/=).
Qed.

Lemma dispatch_init_dispatched r x se : permits (dispatch_init r x se) (dispatched r se).
Proof.
  unfold dispatch_init. case_match; [apply refuse_dispatched; pose proof EPROTO_pos; lia|].
  destruct se as [[fs log] ow al mj mn ini des].
  unfold mbind, stateM_bind, modify, gets, mret, stateM_ret, refuse, lift. simpl.
  destruct (fs_init r (KernelConfig_new (Init_capabilities x) (Init_max_readahead x)) fs)
    as [[[e|] c'] fs'] eqn:Hinit; simpl.
  - split.
    + apply fs_init_errno in Hinit. unfold Errno_from_i32. pose proof EIO_pos.
      simpl. case_decide; lia.
    + exists [EvInit false]. split_and!; try done; [|by repeat constructor].
      unfold protocol; simpl. by rewrite orb_false_r.
  - pose proof (Init_reply_small x c') as Hr.
    destruct (Init_reply x c') as [resp| |]; [|done|done]. simpl. split; [done|].
    exists [EvInit true]. split_and!; try done; [|by repeat constructor].
    unfold protocol; simpl. by rewrite orb_true_r.
Qed.

Lemma system_time_from_time_not_UB secs nsecs : system_time_from_time secs nsecs ≠ UB.
Proof.
  unfold system_time_from_time, Duration_new, SystemTime_add, SystemTime_sub, i64_checked,
    i64_neg. repeat (case_decide; simpl); try done; destruct debug_assertions; simpl;
    repeat (case_decide; simpl); done.
Qed.

Lemma SetAttr_atime_not_UB x : SetAttr_atime x ≠ UB.
Proof.
  unfold SetAttr_atime. do 2 (case_match; [done|]).
  pose proof (system_time_from_time_not_UB (setattr_in_atime (setattr_arg x))
    (setattr_in_atimensec (setattr_arg x))). by destruct (system_time_from_time _ _).
Qed.
Lemma SetAttr_mtime_not_UB x : SetAttr_mtime x ≠ UB.
Proof.
  unfold SetAttr_mtime. do 2 (case_match; [done|]).
  pose proof (system_time_from_time_not_UB (setattr_in_mtime (setattr_arg x))
    (setattr_in_mtimensec (setattr_arg x))). by destruct (system_time_from_time _ _).
Qed.
Lemma SetAttr_ctime_not_UB x : SetAttr_ctime x ≠ UB.
Proof.
  unfold SetAttr_ctime. case_match; [done|].
  pose proof (system_time_from_time_not_UB (setattr_in_ctime (setattr_arg x))
    (setattr_in_ctimensec (setattr_arg x))). by destruct (system_time_from_time _ _).
Qed.
Lemma IoCtl_in_data_not_UB x : IoCtl_in_data x ≠ UB.
Proof. unfold IoCtl_in_data. by case_decide. Qed.
Lemma AnyRequest_operation_not_UB r : AnyRequest_operation r ≠ UB.
Proof.
  unfold AnyRequest_operation, parse, ArgumentIterator_new. case_match; [|done].
  match goal with |- context [parse_arm ?h ?o ?i] =>
    pose proof (parse_arm_not_UB h o i); by destruct (parse_arm h o i) as [[[] ?]| |] end.
Qed.
Lemma AnyRequest_try_from_not_UB s : AnyRequest_try_from s ≠ UB.
Proof.
  unfold AnyRequest_try_from, ArgumentIterator_new, ArgumentIterator_fetch.
  case_match; [|by case_match]. case_match. simpl. by repeat case_decide.
Qed.

Lemma with_iovec_not_UB r unique : Response_with_iovec r unique ≠ UB.
Proof.
  unfold Response_with_iovec, i32_neg. destruct r; simpl; repeat (case_decide; simpl); try done;
    destruct debug_assertions; simpl; by repeat case_decide.
Qed.

#[local] Hint Resolve SetAttr_atime_not_UB SetAttr_mtime_not_UB SetAttr_ctime_not_UB
  IoCtl_in_data_not_UB AnyRequest_operation_not_UB AnyRequest_try_from_not_UB : rust.

Ltac solve_dispatched :=
  first
    [ apply invoke_dispatched; done
    | apply invoke_no_reply_dispatched; done
    | apply refuse_dispatched; first [pose proof ENOSYS_pos | pose proof EIO_pos]; lia
    | apply lift_permits; [by auto with rust|intros ?; solve_dispatched] ].

Lemma dispatch_op_dispatched r op se :
  initialized se = true → destroyed se = false →
  permits (dispatch_op r op se) (dispatched r se).
Proof.
  intros Hi Hd. destruct op; cbn [dispatch_op]; try solve_dispatched.
  - apply dispatch_init_dispatched.
  - destruct se as [[fs log] ? ? ? ? ? ?]; simpl in *; subst.
    split; [by split; simpl; lia|]. exists [EvDestroy]. split_and!; [done..| |done|done]. by repeat constructor.
  - destruct (IoCtl_unrestricted x); solve_dispatched.
  - cbv zeta. apply lift_permits; [by case_decide|]. intros ?. solve_dispatched.
Qed.

(** A DESTROY is accepted again after a first one. *)
Lemma dispatch_destroy_dispatched r x se :
  initialized se = true → permits (dispatch_op r (OpDestroy x) se) (dispatched r se).
Proof.
  intros Hi. destruct se as [[fs log] ? ? ? ? ? ?]; simpl in *; subst.
  split; [by split; simpl; lia|]. exists [EvDestroy]. split_and!; [done..| |done|done]. by repeat constructor.
Qed.

Lemma dispatch_req_dispatched r se : permits (dispatch_req r se) (dispatched r se).
Proof.
  unfold dispatch_req. apply lift_permits; [by auto with rust|]. intros [e|op].
  { apply refuse_dispatched. pose proof ENOSYS_pos. lia. }
  unfold mbind at 1, stateM_bind, gets. simpl. case_match.
  { apply refuse_dispatched. pose proof EACCES_pos. lia. }
  destruct op;
    try (by apply dispatch_init_dispatched);
    (destruct (initialized se) eqn:Hi; cbn [negb];
      [|apply refuse_dispatched; pose proof EIO_pos; lia]);
    try (by apply dispatch_destroy_dispatched);
    (destruct (destroyed se) eqn:Hd; cbn [negb];
      [apply refuse_dispatched; pose proof EIO_pos; lia|by apply dispatch_op_dispatched]).
Qed.

Lemma unique_bounds r :
  valid fuse_in_header_layout (any_header r) → 0 ≤ request_unique r < 2 ^ 64.
Proof. intros [[[[[[[_ _] Hu] _] _] _] _] _]. exact Hu. Qed.

Lemma small_response_iovec resp unique :
  small_response resp → 0 ≤ unique < 2 ^ 64 →
  ∃ iov, Response_with_iovec resp unique = Ret iov ∧
    kernel_reads (concat iov) = Some (unique, - Response_errno resp, Response_payload resp).
Proof.
  intros [He Hl] Hu. destruct (with_iovec_round_trip resp unique He Hu) as [Hr _].
  apply Hr. lia.
Qed.

(** The outcome of [dispatch]: a message to the kernel exactly if the request
    was answered directly. *)
Definition dispatched_msg (r : AnyRequest) (se : session)
    (x : option (list (list Z)) * session) : Prop :=
  effect r (bool_decide (x.1 ≠ None)) se x.2 ∧
  ∀ iov, x.1 = Some iov → ∃ error payload,
    kernel_reads (concat iov) = Some (request_unique r, error, payload).


(** The calls of a dispatch, whatever its header. *)
Lemma dispatch_effect r se :
  permits (dispatch r se) (λ '(_, se'), ∃ evs, events se' = events se ++ evs ∧
    protocol (initialized se, destroyed se) evs = Some (initialized se', destroyed se')).
Proof.
  unfold dispatch. eapply permits_bindM; [apply dispatch_req_dispatched|].
  intros res se' [_ (evs & Hev & Hp & _)]; cbn [fst snd] in *.
  destruct res as [e|[resp|]]; [| |by exists evs];
    (apply lift_permits; [apply with_iovec_not_UB|]); intros iov; by exists evs.
Qed.

Lemma run_loop_protocol a answers se :
  protocol (false, false) (events se) = Some (initialized se, destroyed se) →
  permits (run_loop a answers se)
    (λ '(_, se), protocol (false, false) (events se) = Some (initialized se, destroyed se)).
Proof.
  revert se. induction answers as [|[bytes|errno] answers IH]; intros se Hinv; [done| |]; cbn [run_loop].
  - apply lift_permits; [by auto with rust|]. intros [e|r]; [done|].
    eapply permits_bindM; [apply dispatch_effect|]. intros msg se' (evs & Hev & Hp).
    assert (protocol (false, false) (events se') = Some (initialized se', destroyed se')) as Hinv'.
    { rewrite Hev. by rewrite (protocol_app _ _ _ _ Hinv). }
    eapply permits_bindM; [by apply IH|]. by intros [res' msgs] se3 ?.
  - case_decide; [by apply IH|]. by case_decide.
Qed.

(** C22: Over any run of the session loop, whatever the device delivers, the file
    system is called only between an [init] it accepted and the first [destroy],
    and the session's flags say whether it is in that interval.  A run executes no
    undefined behaviour. *)
Theorem calls_only_while_mounted a answers fs allow_root allow_other euid :
  permits (run_loop a answers (Session_new (fs, []) allow_root allow_other euid))
    (λ '(_, se), protocol (false, false) (events se) = Some (initialized se, destroyed se)).
Proof. by apply run_loop_protocol. Qed.

(** The access mode is enforced: a user other than the one who mounted the
    file system (and, with allow_root, other than root) reaches no method of the
    file system, except through the operations the kernel issues without a user;
    the answer is EACCES and the session is unchanged. *)
Theorem acl_enforced r op se :
  AnyRequest_operation r = Ret (inr op) →
  acl_exempt op = false →
  request_uid r ≠ session_owner se →
  allowed se = Owner ∨ allowed se = RootAndOwner ∧ request_uid r ≠ 0 →
  dispatch_req r se = Ret (inl EACCES, se).
Proof.
  intros Hop Hex Huid Hacl. unfold dispatch_req, lift. rewrite Hop.
  unfold mbind, stateM_bind. simpl.
  assert (acl_denies se (request_uid r) = true) as ->; [|by rewrite Hex].
  unfold acl_denies. rewrite (proj2 (Z.eqb_neq _ _) Huid). simpl.
  destruct Hacl as [->|[-> H0]]; [done|]. by rewrite (proj2 (Z.eqb_neq _ _) H0).
Qed.

(** The buffer requests are read into is aligned for the header, so that no
    request panics for its alignment: the sub-buffer starts at the next multiple of
    the alignment and is a suffix of the buffer. *)
Lemma aligned_sub_buf_aligned buf alignment :
  0 < alignment ≤ Z.of_nat (length (data buf)) →
  ∃ n, aligned_sub_buf buf alignment = Ret (slice_drop n buf) ∧
    (Z.of_nat n < alignment) ∧
    addr (slice_drop n buf) `mod` alignment = 0.
Proof.
  intros Ha. unfold aligned_sub_buf. cbv zeta.
  pose proof (Z.mod_pos_bound (addr buf) alignment ltac:(lia)) as Hm.
  case_decide as H0.
  - exists 0%nat. split; [|split; [lia|]]; destruct buf; unfold slice_drop; simpl in *;
      rewrite Z.add_0_r; [done|lia].
  - rewrite decide_True by lia. eexists; split; [done|]. split; [lia|].
    unfold slice_drop; simpl. rewrite Z2Nat.id by lia.
    replace (addr buf + (alignment - addr buf `mod` alignment))
      with ((addr buf - addr buf `mod` alignment) + 1 * alignment) by lia.
    rewrite Z.mod_add by lia. rewrite Zminus_mod, Zmod_mod, Z.sub_diag. apply Z.mod_0_l. lia.
Qed.
End properties.

(** ** Witnesses *)

(** A file system that accepts everything and does nothing. *)
Definition null_fs : Filesystem unit := {|
  fs_init _ c fs := ((None, c), fs);
  fs_destroy fs := fs;
  fs_call _ _ _ fs := fs |}.
Lemma null_fs_laws : FilesystemLaws null_fs.
Proof. intros ?????? [=]. Qed.

Definition init_message : list Z :=
  encode fuse_in_header_layout (Mk_fuse_in_header 56 26 1 0 0 0 0 0) ++
  encode fuse_init_in_layout (Mk_fuse_init_in 7 31 131072 4194305).
Definition lookup_header : fuse_in_header := Mk_fuse_in_header 43 1 7 1 1000 1000 42 0.
Definition lookup_message : list Z :=
  encode fuse_in_header_layout lookup_header ++ [97; 98; 0].
(** The request [try_from] makes of it. *)
Definition lookup_request : AnyRequest :=
  MkAnyRequest lookup_header (MkSlice 4136 [97; 98; 0]).
Definition example_session : Session (unit * list event) := Session_new (tt, []) true false 1000.


(** INIT, then LOOKUP of "ab": the file system sees both. *)
Lemma calls_only_while_mounted_witness :
  ∃ res se, run_loop (L := model_libs) (C := linux) (B := true) (FSI := logged null_fs)
      4096 [Received init_message; ReadError 4; Received lookup_message]
      (Session_new (tt, []) true false 1000) = Ret (res, se) ∧
    protocol (false, false) (events se) = Some (true, false) ∧
    length (events se) = 2%nat.
Proof.
  pose proof (@calls_only_while_mounted model_libs linux linux_laws true unit null_fs null_fs_laws
    4096 [Received init_message; ReadError 4; Received lookup_message] tt true false 1000) as H.
  revert H.
  destruct (run_loop _ _ _) as [[res se]| |] eqn:Hrun; [|by vm_compute in Hrun..].
  simpl. intros H. exists res, se. split; [done|].
  assert (initialized se = true ∧ destroyed se = false ∧ length (events se) = 2%nat)
    as (Hi & Hd & Hl); [|by rewrite Hi, Hd in H].
  vm_compute in Hrun. injection Hrun as _ <-. done.
Defined.

Lemma acl_enforced_witness :
  dispatch_req (L := model_libs) (C := linux) (B := true) (FSI := null_fs)
    lookup_request (Session_new tt false false 7) = Ret (inl 13, Session_new tt false false 7).
Proof.
  apply (@acl_enforced model_libs linux true unit null_fs lookup_request
    (OpLookup (MkLookup lookup_header [97; 98])) (Session_new tt false false 7));
    [by vm_compute|done|done|by left].
Defined.
