(* ===== verification/Defaults.v ===== *)
(** * Defaults: the methods the trait [Filesystem] provides

    [uring_fuse/filesystem.rs], and in the module [FuserDefaults] the copy's
    ([fuser/mod.rs]): a method that is not implemented is logged and answered.  What it
    answers through its reply object; for FORGET and BATCH_FORGET, which have none, what
    it does to the file system. *)

From S2P Require Import Prelude KernelInterface Time Operation Response Reply Session Paths.

Local Open Scope Z_scope.

Section defaults.
Context `{C : Libc, F : LibcFs}.

Definition default_lookup (parent : Z) (name : OsStr) : Answer := AError ENOSYS.
Definition default_forget {FS} (ino nlookup : Z) (fs : FS) : FS := fs.
Definition default_getattr (ino : Z) : Answer := AError ENOSYS.
Definition default_setattr (ino : Z) (mode uid gid size : option Z) (atime mtime : option TimeOrNow)
    (ctime : option SystemTime) (fh : option Z) (crtime chgtime bkuptime : option SystemTime) (flags : option Z)
    : Answer := AError ENOSYS.
Definition default_readlink (ino : Z) : Answer := AError ENOSYS.
Definition default_mknod (parent : Z) (name : OsStr) (mode umask rdev : Z) : Answer := AError ENOSYS.
Definition default_mkdir (parent : Z) (name : OsStr) (mode umask : Z) : Answer := AError ENOSYS.
Definition default_unlink (parent : Z) (name : OsStr) : Answer := AError ENOSYS.
Definition default_rmdir (parent : Z) (name : OsStr) : Answer := AError ENOSYS.
Definition default_symlink (parent : Z) (name : OsStr) (link : Path) : Answer := AError EPERM.
Definition default_rename (parent : Z) (name : OsStr) (newparent : Z) (newname : OsStr)
    (flags : Z) : Answer := AError ENOSYS.
Definition default_link (ino newparent : Z) (newname : OsStr) : Answer := AError EPERM.
Definition default_open (ino flags : Z) : Answer := AOpened 0 0.
Definition default_read (ino fh offset size flags : Z) (lock_owner : option Z) : Answer := AError ENOSYS.
Definition default_write (ino fh offset : Z) (data : list Z) (write_flags flags : Z)
    (lock_owner : option Z) : Answer := AError ENOSYS.
Definition default_flush (ino fh lock_owner : Z) : Answer := AError ENOSYS.
Definition default_release (ino fh flags : Z) (lock_owner : option Z) (flush : bool) : Answer := AEmpty.
Definition default_fsync (ino fh : Z) (datasync : bool) : Answer := AError ENOSYS.
Definition default_opendir (ino flags : Z) : Answer := AOpened 0 0.
Definition default_readdir (ino fh offset : Z) (list : EntListBuf) : Answer := AError ENOSYS.
Definition default_readdirplus (ino fh offset : Z) (list : EntListBuf) : Answer := AError ENOSYS.
Definition default_releasedir (ino fh flags : Z) : Answer := AEmpty.
Definition default_fsyncdir (ino fh : Z) (datasync : bool) : Answer := AError ENOSYS.
Definition default_statfs (ino : Z) : Answer := AStatfs 0 0 0 0 0 512 255 0.
Definition default_setxattr (ino : Z) (name : OsStr) (value : list Z) (flags position : Z) : Answer := AError ENOSYS.
Definition default_getxattr (ino : Z) (name : OsStr) (size : Z) : Answer := AError ENOSYS.
Definition default_listxattr (ino size : Z) : Answer := AError ENOSYS.
Definition default_removexattr (ino : Z) (name : OsStr) : Answer := AError ENOSYS.
Definition default_access (ino mask : Z) : Answer := AError ENOSYS.
Definition default_create (parent : Z) (name : OsStr) (mode umask flags : Z) : Answer := AError ENOSYS.
Definition default_getlk (ino fh lock_owner start end' typ pid : Z) : Answer := AError ENOSYS.
Definition default_setlk (ino fh lock_owner start end' typ pid : Z) (sleep : bool) : Answer := AError ENOSYS.
Definition default_bmap (ino blocksize idx : Z) : Answer := AError ENOSYS.
Definition default_ioctl (ino fh flags cmd : Z) (in_data : list Z) (out_size : Z) : Answer := AError ENOSYS.
Definition default_batch_forget {FS} (forget : Z → Z → FS → FS) (nodes : list fuse_forget_one) (fs : FS) : FS :=
  foldl (λ fs node, forget (forget_one_nodeid node) (forget_one_nlookup node) fs) fs nodes.
Definition default_fallocate (ino fh offset length mode : Z) : Answer := AError ENOSYS.
Definition default_lseek (ino fh offset whence : Z) : Answer := AError ENOSYS.
Definition default_copy_file_range
    (ino_in fh_in offset_in ino_out fh_out offset_out len flags : Z) : Answer := AError ENOSYS.

Definition default_answer (c : FsCall) : option Answer :=
  match c with
  | Fs_forget _ _ | Fs_batch_forget _ => None
  | Fs_lookup parent name => Some (default_lookup parent name)
  | Fs_getattr ino => Some (default_getattr ino)
  | Fs_setattr ino mode uid gid size atime mtime ctime fh crtime chgtime bkuptime flags => Some
    (default_setattr ino mode uid gid size atime mtime ctime fh crtime chgtime bkuptime flags)
  | Fs_readlink ino => Some (default_readlink ino)
  | Fs_mknod parent name mode umask rdev => Some (default_mknod parent name mode umask rdev)
  | Fs_mkdir parent name mode umask => Some (default_mkdir parent name mode umask)
  | Fs_unlink parent name => Some (default_unlink parent name)
  | Fs_rmdir parent name => Some (default_rmdir parent name)
  | Fs_symlink parent name link => Some (default_symlink parent name link)
  | Fs_rename parent name newparent newname flags => Some (default_rename parent name newparent newname flags)
  | Fs_link ino newparent newname => Some (default_link ino newparent newname)
  | Fs_open ino flags => Some (default_open ino flags)
  | Fs_read ino fh offset size flags lock_owner => Some (default_read ino fh offset size flags lock_owner)
  | Fs_write ino fh offset data write_flags flags lock_owner => Some (default_write ino fh offset data
    write_flags flags lock_owner)
  | Fs_flush ino fh lock_owner => Some (default_flush ino fh lock_owner)
  | Fs_release ino fh flags lock_owner flush => Some (default_release ino fh flags lock_owner flush)
  | Fs_fsync ino fh datasync => Some (default_fsync ino fh datasync)
  | Fs_opendir ino flags => Some (default_opendir ino flags)
  | Fs_readdir ino fh offset list => Some (default_readdir ino fh offset list)
  | Fs_readdirplus ino fh offset list => Some (default_readdirplus ino fh offset list)
  | Fs_releasedir ino fh flags => Some (default_releasedir ino fh flags)
  | Fs_fsyncdir ino fh datasync => Some (default_fsyncdir ino fh datasync)
  | Fs_statfs ino => Some (default_statfs ino)
  | Fs_setxattr ino name value flags position => Some (default_setxattr ino name value flags position)
  | Fs_getxattr ino name size => Some (default_getxattr ino name size)
  | Fs_listxattr ino size => Some (default_listxattr ino size)
  | Fs_removexattr ino name => Some (default_removexattr ino name)
  | Fs_access ino mask => Some (default_access ino mask)
  | Fs_create parent name mode umask flags => Some (default_create parent name mode umask flags)
  | Fs_getlk ino fh lock_owner start end' typ pid => Some (default_getlk ino fh lock_owner start end' typ pid)
  | Fs_setlk ino fh lock_owner start end' typ pid sleep => Some (default_setlk ino fh lock_owner start end'
    typ pid sleep)
  | Fs_bmap ino blocksize idx => Some (default_bmap ino blocksize idx)
  | Fs_ioctl ino fh flags cmd in_data out_size => Some (default_ioctl ino fh flags cmd in_data out_size)
  | Fs_fallocate ino fh offset length mode => Some (default_fallocate ino fh offset length mode)
  | Fs_lseek ino fh offset whence => Some (default_lseek ino fh offset whence)
  | Fs_copy_file_range ino_in fh_in offset_in ino_out fh_out offset_out len flags => Some
    (default_copy_file_range ino_in fh_in offset_in ino_out fh_out offset_out len flags)
  end.
End defaults.

(** ** The copy *)

Module FuserDefaults.
Section defaults.
Context `{C : Libc, F : LibcFs}.

Definition default_lookup (parent : Z) (name : OsStr) : Answer := AError ENOSYS.
Definition default_forget {FS} (ino nlookup : Z) (fs : FS) : FS := fs.
Definition default_getattr (ino : Z) : Answer := AError ENOSYS.
Definition default_setattr (ino : Z) (mode uid gid size : option Z) (atime mtime : option TimeOrNow)
    (ctime : option SystemTime) (fh : option Z) (crtime chgtime bkuptime : option SystemTime) (flags : option Z)
    : Answer := AError ENOSYS.
Definition default_readlink (ino : Z) : Answer := AError ENOSYS.
Definition default_mknod (parent : Z) (name : OsStr) (mode umask rdev : Z) : Answer := AError ENOSYS.
Definition default_mkdir (parent : Z) (name : OsStr) (mode umask : Z) : Answer := AError ENOSYS.
Definition default_unlink (parent : Z) (name : OsStr) : Answer := AError ENOSYS.
Definition default_rmdir (parent : Z) (name : OsStr) : Answer := AError ENOSYS.
Definition default_symlink (parent : Z) (name : OsStr) (link : Path) : Answer := AError EPERM.
Definition default_rename (parent : Z) (name : OsStr) (newparent : Z) (newname : OsStr)
    (flags : Z) : Answer := AError ENOSYS.
Definition default_link (ino newparent : Z) (newname : OsStr) : Answer := AError EPERM.
Definition default_open (ino flags : Z) : Answer := AOpened 0 0.
Definition default_read (ino fh offset size flags : Z) (lock_owner : option Z) : Answer := AError ENOSYS.
Definition default_write (ino fh offset : Z) (data : list Z) (write_flags flags : Z)
    (lock_owner : option Z) : Answer := AError ENOSYS.
Definition default_flush (ino fh lock_owner : Z) : Answer := AError ENOSYS.
Definition default_release (ino fh flags : Z) (lock_owner : option Z) (flush : bool) : Answer := AEmpty.
Definition default_fsync (ino fh : Z) (datasync : bool) : Answer := AError ENOSYS.
Definition default_opendir (ino flags : Z) : Answer := AOpened 0 0.
Definition default_readdir (ino fh offset : Z) (list : EntListBuf) : Answer := AError ENOSYS.
Definition default_readdirplus (ino fh offset : Z) (list : EntListBuf) : Answer := AError ENOSYS.
Definition default_releasedir (ino fh flags : Z) : Answer := AEmpty.
Definition default_fsyncdir (ino fh : Z) (datasync : bool) : Answer := AError ENOSYS.
Definition default_statfs (ino : Z) : Answer := AStatfs 0 0 0 0 0 512 255 0.
Definition default_setxattr (ino : Z) (name : OsStr) (value : list Z) (flags position : Z) : Answer := AError ENOSYS.
Definition default_getxattr (ino : Z) (name : OsStr) (size : Z) : Answer := AError ENOSYS.
Definition default_listxattr (ino size : Z) : Answer := AError ENOSYS.
Definition default_removexattr (ino : Z) (name : OsStr) : Answer := AError ENOSYS.
Definition default_access (ino mask : Z) : Answer := AError ENOSYS.
Definition default_create (parent : Z) (name : OsStr) (mode umask flags : Z) : Answer := AError ENOSYS.
Definition default_getlk (ino fh lock_owner start end' typ pid : Z) : Answer := AError ENOSYS.
Definition default_setlk (ino fh lock_owner start end' typ pid : Z) (sleep : bool) : Answer := AError ENOSYS.
Definition default_bmap (ino blocksize idx : Z) : Answer := AError ENOSYS.
Definition default_ioctl (ino fh flags cmd : Z) (in_data : list Z) (out_size : Z) : Answer := AError ENOSYS.
Definition default_batch_forget {FS} (forget : Z → Z → FS → FS) (nodes : list fuse_forget_one) (fs : FS) : FS :=
  foldl (λ fs node, forget (forget_one_nodeid node) (forget_one_nlookup node) fs) fs nodes.
Definition default_fallocate (ino fh offset length mode : Z) : Answer := AError ENOSYS.
Definition default_lseek (ino fh offset whence : Z) : Answer := AError ENOSYS.
Definition default_copy_file_range
    (ino_in fh_in offset_in ino_out fh_out offset_out len flags : Z) : Answer := AError ENOSYS.

Definition default_answer (c : FsCall) : option Answer :=
  match c with
  | Fs_forget _ _ | Fs_batch_forget _ => None
  | Fs_lookup parent name => Some (default_lookup parent name)
  | Fs_getattr ino => Some (default_getattr ino)
  | Fs_setattr ino mode uid gid size atime mtime ctime fh crtime chgtime bkuptime flags => Some
    (default_setattr ino mode uid gid size atime mtime ctime fh crtime chgtime bkuptime flags)
  | Fs_readlink ino => Some (default_readlink ino)
  | Fs_mknod parent name mode umask rdev => Some (default_mknod parent name mode umask rdev)
  | Fs_mkdir parent name mode umask => Some (default_mkdir parent name mode umask)
  | Fs_unlink parent name => Some (default_unlink parent name)
  | Fs_rmdir parent name => Some (default_rmdir parent name)
  | Fs_symlink parent name link => Some (default_symlink parent name link)
  | Fs_rename parent name newparent newname flags => Some (default_rename parent name newparent newname flags)
  | Fs_link ino newparent newname => Some (default_link ino newparent newname)
  | Fs_open ino flags => Some (default_open ino flags)
  | Fs_read ino fh offset size flags lock_owner => Some (default_read ino fh offset size flags lock_owner)
  | Fs_write ino fh offset data write_flags flags lock_owner => Some (default_write ino fh offset data
    write_flags flags lock_owner)
  | Fs_flush ino fh lock_owner => Some (default_flush ino fh lock_owner)
  | Fs_release ino fh flags lock_owner flush => Some (default_release ino fh flags lock_owner flush)
  | Fs_fsync ino fh datasync => Some (default_fsync ino fh datasync)
  | Fs_opendir ino flags => Some (default_opendir ino flags)
  | Fs_readdir ino fh offset list => Some (default_readdir ino fh offset list)
  | Fs_readdirplus ino fh offset list => Some (default_readdirplus ino fh offset list)
  | Fs_releasedir ino fh flags => Some (default_releasedir ino fh flags)
  | Fs_fsyncdir ino fh datasync => Some (default_fsyncdir ino fh datasync)
  | Fs_statfs ino => Some (default_statfs ino)
  | Fs_setxattr ino name value flags position => Some (default_setxattr ino name value flags position)
  | Fs_getxattr ino name size => Some (default_getxattr ino name size)
  | Fs_listxattr ino size => Some (default_listxattr ino size)
  | Fs_removexattr ino name => Some (default_removexattr ino name)
  | Fs_access ino mask => Some (default_access ino mask)
  | Fs_create parent name mode umask flags => Some (default_create parent name mode umask flags)
  | Fs_getlk ino fh lock_owner start end' typ pid => Some (default_getlk ino fh lock_owner start end' typ pid)
  | Fs_setlk ino fh lock_owner start end' typ pid sleep => Some (default_setlk ino fh lock_owner start end'
    typ pid sleep)
  | Fs_bmap ino blocksize idx => Some (default_bmap ino blocksize idx)
  | Fs_ioctl ino fh flags cmd in_data out_size => Some (default_ioctl ino fh flags cmd in_data out_size)
  | Fs_fallocate ino fh offset length mode => Some (default_fallocate ino fh offset length mode)
  | Fs_lseek ino fh offset whence => Some (default_lseek ino fh offset whence)
  | Fs_copy_file_range ino_in fh_in offset_in ino_out fh_out offset_out len flags => Some
    (default_copy_file_range ino_in fh_in offset_in ino_out fh_out offset_out len flags)
  end.
End defaults.
End FuserDefaults.

Lemma default_batch_forget_keeps {FS} nodes (fs : FS) : default_batch_forget default_forget nodes fs = fs.
Proof. unfold default_batch_forget. by induction nodes. Qed.

(** The two traits have the same defaults. *)
Lemma copy_defaults `{C : Libc, F : LibcFs} c : FuserDefaults.default_answer c = default_answer c.
Proof. by destruct c. Qed.
