(* ===== verification/UringFs.v ===== *)
(** * UringFs: the ring-driven file system (src/fuse/src/uring_fuse/uring_fs/)

    An in-memory name space of one directory level per inode: the inode manager
    ([inode.rs]), the cache of listings ([list_cache.rs]) and the implementation of
    the trait [Filesystem] over them ([mod.rs]).  Strings are their UTF-8 bytes;
    the locks are taken for single statements by the one thread that owns the file
    system. *)

From S2P Require Import Prelude Wire KernelInterface Time Operation Response Reply Session Defaults Paths.

Local Open Scope Z_scope.

(** ** The inode manager *)

Record Inode : Type := MkInodeOf {
  ino : Z; parent : Z; name : list Z; full_path : list Z; inode_kind : FileType }.
#[export] Instance Inode_eq_dec : EqDecision Inode.
Proof. solve_decision. Defined.

Inductive InodeError : Type := InodeDoesNotExist (i : Z) | InodeInsertFailure (i : Z).

Record InodeManager : Type := MkInodeManager {
  bucket : list Z;
  inodes : gmap Z Inode;
  path_index : gmap (list Z) Z;
  next_ino : Z }.

Definition root_path : list Z := [slash].
Definition InodeManager_new (bucket : list Z) : InodeManager :=
  let root := MkInodeOf FUSE_ROOT_ID FUSE_ROOT_ID [] root_path Directory in
  MkInodeManager bucket {[FUSE_ROOT_ID := root]} {[root_path := FUSE_ROOT_ID]} 2.

Definition InodeManager_get (m : InodeManager) (i : Z) : InodeError + Inode :=
  match inodes m !! i with Some n => inr n | None => inl (InodeDoesNotExist i) end.

Definition InodeManager_lookup (m : InodeManager) (parent_ino : Z) (name : list Z)
    : outcome (InodeError + Inode) :=
  match inodes m !! parent_ino with
  | None => Ret (inl (InodeDoesNotExist parent_ino))
  | Some parent_inode =>
      full_path ← unwrap (into_string (path_join (full_path parent_inode) name));
      match path_index m !! full_path with
      | None => Ret (inl (InodeDoesNotExist parent_ino))
      | Some i =>
          match inodes m !! i with
          | Some n => Ret (inr n)
          | None => Ret (inl (InodeDoesNotExist i))
          end
      end
  end.

(** It always answers [Ok]. *)
Definition InodeManager_create (m : InodeManager) (parent : Z) (name full_path : list Z)
    (kind : FileType) : Inode * InodeManager :=
  let inode_id_new := next_ino m in
  let inode_new := MkInodeOf inode_id_new parent name full_path kind in
  (inode_new, MkInodeManager (bucket m) (<[inode_id_new := inode_new]> (inodes m))
                (<[full_path := inode_id_new]> (path_index m)) (wrap 64 (next_ino m + 1))).

(** [impl From<Inode> for FileAttr]. *)
Definition FileAttr_from_inode (value : Inode) : FileAttr :=
  {| attr_ino' := ino value; attr_size' := 0; attr_blocks' := 0;
     attr_atime' := UNIX_EPOCH; attr_mtime' := UNIX_EPOCH; attr_ctime' := UNIX_EPOCH;
     attr_crtime' := UNIX_EPOCH; attr_kind := inode_kind value; attr_perm := 365;
     attr_nlink' := 2; attr_uid' := 0; attr_gid' := 0; attr_rdev' := 0; attr_blksize' := 0;
     attr_flags' := 0 |}.

(** ** The cache of listings *)

Record ListStatusCache : Type := MkListStatusCache { cache : gmap (list Z) (list (list Z)) }.
Definition ListStatusCache_new : ListStatusCache := MkListStatusCache ∅.
Definition ListStatusCache_get (c : ListStatusCache) (path : list Z) : option (list (list Z)) :=
  cache c !! path.
Definition ListStatusCache_append (path new_file : list Z) (c : ListStatusCache) : ListStatusCache :=
  MkListStatusCache
    match cache c !! path with
    | Some l => <[path := l ++ [new_file]]> (cache c)
    | None => <[path := [new_file]]> (cache c)
    end.

(** ** The file system *)

Record UringFilesystem : Type := MkUringFilesystem {
  inode_manager : InodeManager; ls_cache : ListStatusCache; next_fh : Z }.
Definition UringFilesystem_new (m : InodeManager) (c : ListStatusCache) : UringFilesystem :=
  MkUringFilesystem m c 1.

Definition from_millis (ms : Z) : Duration := MkDuration (ms / 1000) (ms `mod` 1000 * 1000000).

Section uring_fs.
Context `{B : Build, C : Libc, F : LibcFs}.

Definition Uring_lookup (st : UringFilesystem) (parent : Z) (name : OsStr) : outcome Answer :=
  match into_string name with
  | Some name_str =>
      found ← InodeManager_lookup (inode_manager st) parent name_str;
      match found with
      | inr n => Ret (AEntry (from_millis 100000) (FileAttr_from_inode n) 0)
      | inl _ => Ret (AError ENOENT)
      end
  | None => Ret (AError ENOENT)
  end.

Definition Uring_getattr (st : UringFilesystem) (i : Z) : Answer :=
  match InodeManager_get (inode_manager st) i with
  | inr n => AAttr (from_millis 100000) (FileAttr_from_inode n)
  | inl _ => AError ENOENT
  end.

(** [get(ino).unwrap()]; nothing is set. *)
Definition Uring_setattr (st : UringFilesystem) (i : Z) : outcome Answer :=
  match InodeManager_get (inode_manager st) i with
  | inr n => Ret (AAttr (from_millis 1000000) (FileAttr_from_inode n))
  | inl _ => Panic
  end.

Definition Uring_write : Answer := AError ENOSYS.

(** The loop over the entries with their positions; a full buffer is ignored. *)
Fixpoint Uring_readdir_loop (m : InodeManager) (i offset : Z) (entries : list (Z * list Z))
    (entry_count : nat) (reply : EntListBuf) : outcome (nat * EntListBuf) :=
  match entries with
  | [] => Ret (entry_count, reply)
  | (k, entry) :: entries =>
      found ← InodeManager_lookup m i entry;
      match found with
      | inr n =>
          pos ← i64_add k offset;
          pos ← i64_add pos 2;
          '(_, reply) ← DirEntList_push (MkDirEntry (ino n) pos (inode_kind n) (name n)) reply;
          Uring_readdir_loop m i offset entries (S entry_count) reply
      | inl _ => Uring_readdir_loop m i offset entries entry_count reply
      end
  end.

Definition enumerate {A} (l : list A) : list (Z * A) := imap (λ k x, (Z.of_nat k, x)) l.

Definition Uring_readdir (st : UringFilesystem) (i offset : Z) (reply : EntListBuf)
    : outcome Answer :=
  match InodeManager_get (inode_manager st) i with
  | inl _ => Ret (AError ENOENT)
  | inr dir_inode =>
      '(entry_count, reply) ←
        (if offset =? 0 then
           '(_, reply) ← DirEntList_push (MkDirEntry i 1 Directory [46]) reply; Ret (1%nat, reply)
         else Ret (0%nat, reply));
      '(entry_count, reply) ←
        match ListStatusCache_get (ls_cache st) (full_path dir_inode) with
        | Some entries =>
            Uring_readdir_loop (inode_manager st) i offset
              (drop (Z.to_nat (wrap 64 offset)) (enumerate entries)) entry_count reply
        | None => Ret (entry_count, reply)
        end;
      Ret (if decide (0 < entry_count)%nat then ADirectory reply else AError ENOENT)
  end.

Definition Uring_create (st : UringFilesystem) (parent : Z) (name : OsStr)
    : outcome (Answer * UringFilesystem) :=
  match InodeManager_get (inode_manager st) parent with
  | inl _ => Ret (AError ENOENT, st)
  | inr parent_node =>
      path ← unwrap (into_string (path_join (full_path parent_node) name));
      name' ← unwrap (into_string name);
      let '(n, m) := InodeManager_create (inode_manager st) parent name' path RegularFile in
      name'' ← unwrap (into_string name);
      Ret (ACreated (from_millis 1000000) (FileAttr_from_inode n) (ino n) (next_fh st) 0,
           MkUringFilesystem m (ListStatusCache_append (full_path parent_node) name'' (ls_cache st))
             (wrap 64 (next_fh st + 1)))
  end.

(** [impl Filesystem for UringFilesystem]. *)
Definition Uring_call (c : FsCall) (st : UringFilesystem) : outcome (option Answer * UringFilesystem) :=
  match c with
  | Fs_lookup parent name => a ← Uring_lookup st parent name; Ret (Some a, st)
  | Fs_getattr i => Ret (Some (Uring_getattr st i), st)
  | Fs_setattr i _ _ _ _ _ _ _ _ _ _ _ _ => a ← Uring_setattr st i; Ret (Some a, st)
  | Fs_write _ _ _ _ _ _ _ => Ret (Some Uring_write, st)
  | Fs_readdir i _ offset list => a ← Uring_readdir st i offset list; Ret (Some a, st)
  | Fs_create parent name _ _ _ => '(a, st) ← Uring_create st parent name; Ret (Some a, st)
  | Fs_forget i n => Ret (None, default_forget i n st)
  | Fs_batch_forget nodes => Ret (None, default_batch_forget default_forget nodes st)
  | _ => Ret (default_answer c, st)
  end.
End uring_fs.

(** ** The name space as a tree

    What the file system promises: the nodes ever made, by the names that lead to
    them from the root, in the order of their making; node number i is the i-th. *)

Definition Tree : Type := list (list OsStr).

(** A name as the kernel passes it on. *)
Definition plain (n : OsStr) : Prop := n ≠ [] ∧ slash ∉ n.
#[export] Instance plain_dec n : Decision (plain n) := _.
Definition good_name (n : OsStr) : Prop := plain n ∧ is_utf8 n = true.

Definition render (cs : list OsStr) : list Z :=
  match cs with [] => root_path | _ => concat (cons slash <$> cs) end.

Definition tree_node (T : Tree) (i : Z) : option (list OsStr) :=
  if decide (1 ≤ i) then T !! Z.to_nat (i - 1) else None.
(** The newest node with these names: an older one of the same names is hidden. *)
Definition numbered (T : Tree) : list (Z * list OsStr) := imap (λ k cs, (Z.of_nat k + 1, cs)) T.
Definition newest (T : Tree) (cs : list OsStr) : option Z :=
  fst <$> last (filter (λ x, x.2 = cs) (numbered T)).
(** The name under which a node is a child of [cs]. *)
Definition child_name (cs c : list OsStr) : option OsStr :=
  n ← last c; if decide (c = cs ++ [n]) then Some n else None.
Definition listing (T : Tree) (cs : list OsStr) : list OsStr := omap (child_name cs) T.

Definition kind_at (i : Z) : FileType := if i =? FUSE_ROOT_ID then Directory else RegularFile.
Definition attr_at (i : Z) : FileAttr :=
  FileAttr_from_inode (MkInodeOf i 0 [] [] (kind_at i)).

Section tree.
Context `{B : Build, C : Libc, F : LibcFs}.

Definition tree_entry (T : Tree) (cs : list OsStr) (off : Z) (k : nat) (n : OsStr) : DirEntry :=
  let i := default 0 (newest T (cs ++ [n])) in MkDirEntry i (Z.of_nat k + off + 2) (kind_at i) n.
Definition tree_page (T : Tree) (i off : Z) (cs : list OsStr) : list DirEntry :=
  (if off =? 0 then [MkDirEntry i 1 Directory [46]] else []) ++
  drop (Z.to_nat (wrap 64 off)) (imap (tree_entry T cs off) (listing T cs)).

Definition tree_call (c : FsCall) (T : Tree) : outcome (option Answer * Tree) :=
  match c with
  | Fs_lookup p n =>
      let found := cs ← tree_node T p; if is_utf8 n then newest T (cs ++ [n]) else None in
      Ret (Some match found with
                | Some i => AEntry (MkDuration 100 0) (attr_at i) 0
                | None => AError ENOENT
                end, T)
  | Fs_getattr i =>
      Ret (Some match tree_node T i with
                | Some _ => AAttr (MkDuration 100 0) (attr_at i)
                | None => AError ENOENT
                end, T)
  | Fs_setattr i _ _ _ _ _ _ _ _ _ _ _ _ =>
      match tree_node T i with
      | Some _ => Ret (Some (AAttr (MkDuration 1000 0) (attr_at i)), T)
      | None => Panic
      end
  | Fs_write _ _ _ _ _ _ _ => Ret (Some (AError ENOSYS), T)
  | Fs_create p n _ _ _ =>
      match tree_node T p with
      | None => Ret (Some (AError ENOENT), T)
      | Some cs =>
          let i := Z.of_nat (length T) + 1 in
          if is_utf8 n then
            Ret (Some (ACreated (MkDuration 1000 0) (attr_at i) i (i - 1) 0), T ++ [cs ++ [n]])
          else Panic
      end
  | Fs_readdir i _ off list =>
      match tree_node T i with
      | None => Ret (Some (AError ENOENT), T)
      | Some cs =>
          match tree_page T i off cs with
          | [] => Ret (Some (AError ENOENT), T)
          | es => '(_, b) ← push_all es list; Ret (Some (ADirectory b), T)
          end
      end
  | _ => Ret (default_answer c, T)
  end.

(** A sequence of calls and their answers. *)
Fixpoint run_calls {S} (step : FsCall → S → outcome (option Answer * S)) (calls : list FsCall) (s : S)
    : outcome (list (option Answer) * S) :=
  match calls with
  | [] => Ret ([], s)
  | c :: calls =>
      '(a, s) ← step c s; '(answers, s) ← run_calls step calls s; Ret (a :: answers, s)
  end.
End tree.

(** ** Strings and paths: lemmas *)

Lemma render_snoc cs n : cs ≠ [] → render (cs ++ [n]) = render cs ++ slash :: n.
Proof.
  intros Hcs. destruct cs as [|c cs]; [done|]. unfold render. cbn [app].
  rewrite app_comm_cons, fmap_app, concat_app. cbn [fmap list_fmap concat]. by rewrite app_nil_r.
Qed.
Lemma good_snoc cs n : Forall good_name cs → good_name n → Forall good_name (cs ++ [n]).
Proof. intros. apply Forall_app. auto. Qed.
Lemma render_utf8 cs : Forall good_name cs → is_utf8 (render cs) = true.
Proof.
  intros Hcs. destruct cs as [|c cs] using rev_ind; [done|].
  apply Forall_app in Hcs as [Hcs [[_ Hc] _]%Forall_cons].
  destruct (decide (cs = [])) as [-> |Hne].
  - simpl. by rewrite app_nil_r.
  - rewrite render_snoc by done. rewrite is_utf8_app by auto. done.
Qed.
Lemma last_cons_plain (c : OsStr) : plain c → ∃ d, last (slash :: c) = Some d ∧ d ≠ slash.
Proof.
  intros [Hne Hs]. destruct c as [|x c _] using rev_ind; [done|]. exists x.
  rewrite app_comm_cons, last_snoc. split; [done|]. intros ->. apply Hs. set_solver.
Qed.

(** [PathBuf::join] adds a name. *)
Lemma path_join_render cs n :
  Forall good_name cs → plain n → path_join (render cs) n = render (cs ++ [n]).
Proof.
  intros Hcs [Hne Hs]. unfold path_join. destruct n as [|x n]; [done|].
  rewrite (proj2 (Z.eqb_neq x slash)) by (intros ->; set_solver).
  destruct cs as [|c cs _] using rev_ind; [simpl; by rewrite app_nil_r|].
  apply Forall_app in Hcs as [_ [[Hc _] _]%Forall_cons].
  destruct (last_cons_plain c Hc) as (d & Hd & Hds).
  rewrite (render_snoc (cs ++ [c]) (x :: n)) by by destruct cs.
  assert (last (render (cs ++ [c])) = Some d) as Hlast.
  { destruct (decide (cs = [])) as [-> |Hcs]; [simpl; by rewrite app_nil_r|].
    rewrite render_snoc by done. by rewrite last_app, Hd. }
  rewrite Hlast. by rewrite (proj2 (Z.eqb_neq d slash)).
Qed.

Lemma slash_split (c d r r' : list Z) :
  slash ∉ c → slash ∉ d → c ++ slash :: r = d ++ slash :: r' → c = d ∧ r = r'.
Proof.
  revert d. induction c as [|x c IH]; intros [|y d] Hc Hd Heq; simplify_eq/=.
  - done.
  - set_solver.
  - set_solver.
  - destruct (IH d) as [-> ->]; [set_solver..|done|done].
Qed.
Lemma concat_slash_inj (cs ds : list OsStr) :
  Forall plain cs → Forall plain ds →
  concat (cons slash <$> cs) ++ [slash] = concat (cons slash <$> ds) ++ [slash] → cs = ds.
Proof.
  revert ds. induction cs as [|c cs IH]; intros [|d ds] Hcs Hds Heq; [done| | |].
  - cbn in Heq. injection Heq as Heq. symmetry in Heq. by apply app_nil in Heq as [_ [=]].
  - cbn in Heq. injection Heq as Heq. by apply app_nil in Heq as [_ [=]].
  - apply Forall_cons in Hcs as [[_ Hc] Hcs], Hds as [[_ Hd] Hds].
    cbn in Heq. injection Heq as Heq. rewrite <- !app_assoc in Heq.
    assert (∀ l : list OsStr, ∃ r, concat (cons slash <$> l) ++ [slash] = slash :: r) as Hr.
    { intros [|? ?]; eexists; by cbn. }
    destruct (Hr cs) as [r Hrc], (Hr ds) as [r' Hrd]. rewrite Hrc, Hrd in Heq.
    apply slash_split in Heq as [-> ->]; [|done..].
    f_equal. apply IH; [done..|congruence].
Qed.
(** Different names have different paths. *)
Lemma render_inj cs ds :
  Forall good_name cs → Forall good_name ds → render cs = render ds → cs = ds.
Proof.
  intros Hcs Hds Heq.
  assert (∀ es, Forall good_name es → Forall plain es) as Hplain
    by (intros es H; eapply Forall_impl; [exact H|by intros ? [? _]]).
  assert (∀ c es, Forall good_name (c :: es) → render (c :: es) ≠ root_path) as Hroot.
  { intros c es [[[Hne _] _] _]%Forall_cons E. unfold root_path in E. cbn in E.
    injection E as E. by apply app_nil in E as [-> _]. }
  destruct cs as [|c cs], ds as [|d ds]; [done|by apply symmetry, Hroot in Heq|by apply Hroot in Heq|].
  apply concat_slash_inj; [by apply Hplain..|]. unfold render in Heq. by rewrite Heq.
Qed.

(** ** The tree: lemmas *)

Lemma numbered_snoc T c : numbered (T ++ [c]) = numbered T ++ [(Z.of_nat (length T) + 1, c)].
Proof. unfold numbered. rewrite imap_app. simpl. by rewrite Nat.add_0_r. Qed.
Lemma newest_snoc T c cs :
  newest (T ++ [c]) cs = if decide (c = cs) then Some (Z.of_nat (length T) + 1) else newest T cs.
Proof.
  unfold newest. rewrite numbered_snoc, filter_app, filter_cons, filter_nil. simpl.
  case_decide; [by rewrite last_snoc|by rewrite app_nil_r].
Qed.
Lemma tree_node_snoc T c i :
  tree_node (T ++ [c]) i = if decide (i = Z.of_nat (length T) + 1) then Some c else tree_node T i.
Proof.
  unfold tree_node. destruct (decide (i = Z.of_nat (length T) + 1)) as [Hk|Hk].
  - rewrite decide_True by lia. apply list_lookup_middle. lia.
  - case_decide; [|done]. destruct (decide (Z.to_nat (i - 1) < length T)%nat).
    + by apply lookup_app_l.
    + trans (@None (list OsStr)); [|symmetry]; apply lookup_ge_None_2; [rewrite length_app; simpl|]; lia.
Qed.
Lemma tree_node_bounds T i cs : tree_node T i = Some cs → 1 ≤ i ≤ Z.of_nat (length T).
Proof.
  unfold tree_node. case_decide; [|done]. intros Hl%lookup_lt_Some. lia.
Qed.
Lemma newest_node T cs i : newest T cs = Some i → tree_node T i = Some cs.
Proof.
  induction T as [|c T IH] using rev_ind; [done|]. rewrite newest_snoc, tree_node_snoc.
  case_decide as Hc; [intros [= <-]; rewrite decide_True by done; by subst|].
  intros Hn%IH. pose proof (tree_node_bounds _ _ _ Hn). by rewrite decide_False by lia.
Qed.
Lemma newest_Some T cs : cs ∈ T → is_Some (newest T cs).
Proof.
  induction T as [|c T IH] using rev_ind; [set_solver|]. rewrite newest_snoc.
  case_decide; [eauto|]. intros Hin. apply IH. set_solver.
Qed.

Lemma child_name_snoc cs ds n : child_name cs (ds ++ [n]) = if decide (ds = cs) then Some n else None.
Proof.
  unfold child_name. rewrite last_snoc. simpl. case_decide as Hc; case_decide; try done.
  - by apply app_inj_tail in Hc as [-> _].
  - by subst.
Qed.
Lemma child_name_Some cs c n : child_name cs c = Some n → c = cs ++ [n].
Proof.
  unfold child_name. destruct (last c) as [m|]; [|done]. simpl. case_decide; [|done]. by intros [= <-].
Qed.
Lemma listing_snoc T c cs : listing (T ++ [c]) cs = listing T cs ++ option_list (child_name cs c).
Proof. unfold listing. rewrite omap_app. simpl. by destruct (child_name cs c). Qed.
Lemma listing_length T cs : (length (listing T cs) ≤ length T)%nat.
Proof.
  induction T as [|c T IH] using rev_ind; [done|]. rewrite listing_snoc, !length_app. simpl.
  destruct (child_name cs c); simpl; lia.
Qed.
Lemma listing_in T cs n : n ∈ listing T cs → cs ++ [n] ∈ T.
Proof. intros (c & Hc & <-%child_name_Some)%list_elem_of_omap. done. Qed.

(** ** The file system is that tree *)

(** The inode kept for the node [cs] of number [i]. *)
Definition inode_at (i : Z) (cs : list OsStr) (n : Inode) : Prop :=
  ino n = i ∧ name n = default [] (last cs) ∧ full_path n = render cs ∧ inode_kind n = kind_at i.

Record models (st : UringFilesystem) (T : Tree) : Prop := {
  models_root : tree_node T 1 = Some [];
  models_good : Forall (Forall good_name) T;
  models_inodes i : option_Forall2 (inode_at i) (tree_node T i) (inodes (inode_manager st) !! i);
  models_paths cs : Forall good_name cs → path_index (inode_manager st) !! render cs = newest T cs;
  models_listings cs : Forall good_name cs →
    default [] (cache (ls_cache st) !! render cs) = listing T cs;
  models_next_ino : next_ino (inode_manager st) = Z.of_nat (length T) + 1;
  models_next_fh : next_fh st = Z.of_nat (length T) }.

Lemma models_new bucket : models (UringFilesystem_new (InodeManager_new bucket) ListStatusCache_new) [[]].
Proof.
  split; cbn [UringFilesystem_new inode_manager InodeManager_new inodes path_index ls_cache next_ino next_fh].
  - done.
  - by repeat constructor.
  - intros i. unfold tree_node, FUSE_ROOT_ID. destruct (decide (i = 1)) as [-> |Hi].
    + rewrite lookup_singleton_eq. constructor. by split_and!.
    + rewrite lookup_singleton_ne by done. case_decide; [|constructor].
      assert (([[]] : Tree) !! Z.to_nat (i - 1) = None) as ->; [|constructor].
      apply lookup_ge_None_2. simpl. lia.
  - intros cs Hcs. destruct cs as [|c cs]; [by rewrite (lookup_singleton_eq (M := gmap (list Z)))|].
    rewrite lookup_singleton_ne; [done|]. change root_path with (render []). intros E.
    by apply (render_inj [] (c :: cs)) in E; [|constructor|].
  - intros cs _. cbn [cache ListStatusCache_new]. rewrite lookup_empty. by destruct cs as [|? []].
  - done.
  - done.
Qed.

Section simulation.
Context `{B : Build, C : Libc, F : LibcFs}.
Context {st : UringFilesystem} {T : Tree} (M : models st T).

Lemma InodeManager_get_node i :
  match tree_node T i with
  | Some cs => ∃ n, InodeManager_get (inode_manager st) i = inr n ∧ inode_at i cs n
  | None => ∃ e, InodeManager_get (inode_manager st) i = inl e
  end.
Proof.
  unfold InodeManager_get.
  destruct (models_inodes _ _ M i) as [cs n Hn|]; eauto.
Qed.
Lemma node_inode i cs :
  tree_node T i = Some cs → ∃ n, inodes (inode_manager st) !! i = Some n ∧ inode_at i cs n.
Proof. intros Hi. destruct (models_inodes _ _ M i) as [cs' n Hn|]; simplify_eq. eauto. Qed.
Lemma inode_at_attr i cs n : inode_at i cs n → FileAttr_from_inode n = attr_at i.
Proof. intros (Hi & _ & _ & Hk). unfold FileAttr_from_inode, attr_at. simpl. by rewrite Hi, Hk. Qed.
Lemma node_good i cs : tree_node T i = Some cs → Forall good_name cs.
Proof.
  unfold tree_node. case_decide; [|done]. intros Hl%list_elem_of_lookup_2.
  revert Hl. by apply Forall_forall, (models_good _ _ M).
Qed.

Lemma lookup_node p cs n :
  tree_node T p = Some cs → good_name n →
  match newest T (cs ++ [n]) with
  | Some i => ∃ m, InodeManager_lookup (inode_manager st) p n = Ret (inr m) ∧ inode_at i (cs ++ [n]) m
  | None => ∃ e, InodeManager_lookup (inode_manager st) p n = Ret (inl e)
  end.
Proof.
  intros Hp [Hn Hu]. pose proof (node_good _ _ Hp) as Hcs. unfold InodeManager_lookup.
  destruct (node_inode _ _ Hp) as (q & -> & _ & _ & Hq & _). rewrite Hq, path_join_render by done.
  pose proof (good_snoc _ _ Hcs (conj Hn Hu)) as Hcsn.
  unfold into_string. rewrite render_utf8 by done. cbn [unwrap mbind outcome_bind].
  rewrite (models_paths _ _ M) by done.
  destruct (newest T (cs ++ [n])) as [i|] eqn:Hi; [|by eauto].
  apply newest_node in Hi. destruct (node_inode _ _ Hi) as (m & -> & Hm). eauto.
Qed.

Lemma render_snoc_utf8 cs n : Forall good_name cs → is_utf8 (render (cs ++ [n])) = is_utf8 n.
Proof.
  intros Hcs. destruct (decide (cs = [])) as [-> |Hne]; [simpl; by rewrite app_nil_r|].
  rewrite render_snoc, is_utf8_app by auto using render_utf8. done.
Qed.

(** Every entry of a listing is found. *)
Lemma readdir_loop_spec i off cs : tree_node T i = Some cs → ∀ names k cnt b,
  Forall (λ n, good_name n ∧ cs ++ [n] ∈ T) names →
  0 ≤ off → Z.of_nat k + Z.of_nat (length names) + off + 2 < 2 ^ 63 →
  Uring_readdir_loop (inode_manager st) i off
    (imap (λ j n, (Z.of_nat (k + j), n)) names) cnt b
  = '(_, b) ← push_all (imap (λ j n, tree_entry T cs off (k + j) n) names) b;
    Ret ((cnt + length names)%nat, b).
Proof.
  intros Hi names. induction names as [|n names IH]; intros k cnt b Hns Hoff Hk.
  { simpl. by rewrite Nat.add_0_r. }
  apply Forall_cons in Hns as [[Hn HT] Hns]. rewrite !imap_cons.
  cbn [Uring_readdir_loop push_all length] in *.
  pose proof (lookup_node _ _ _ Hi Hn) as Hl. destruct (newest_Some _ _ HT) as [j Hj]. rewrite Hj in Hl.
  destruct Hl as (m & Hl & Hm & Hname & _ & Hkind). rewrite Hl. cbn [mbind outcome_bind].
  rewrite !Nat.add_0_r, i64_add_small by lia. cbn [mbind outcome_bind].
  rewrite i64_add_small by lia. cbn [mbind outcome_bind].
  rewrite last_snoc in Hname. simpl in Hname.
  assert (tree_entry T cs off k n = MkDirEntry j (Z.of_nat k + off + 2) (kind_at j) n) as ->
    by (unfold tree_entry; by rewrite Hj).
  rewrite Hm, Hkind, Hname.
  destruct (DirEntList_push _ b) as [[full b']| |]; [|done..]. cbn [mbind outcome_bind].
  replace (imap ((λ j n, (Z.of_nat (k + j), n)) ∘ S) names)
    with (imap (λ j n, (Z.of_nat (S k + j), n)) names) by (apply imap_ext; intros; simpl; do 2 f_equal; lia).
  rewrite IH by (done || lia).
  replace (imap ((λ j n, tree_entry T cs off (k + j) n) ∘ S) names)
    with (imap (λ j n, tree_entry T cs off (S k + j) n) names)
    by (apply imap_ext; intros; simpl; f_equal; lia).
  destruct (push_all _ b') as [[fulls b'']| |]; [|done..]. cbn [mbind outcome_bind].
  do 2 f_equal. lia.
Qed.

Lemma drop_imap {X Y} (f : nat → X → Y) m l : drop m (imap f l) = imap (λ j, f (m + j)%nat) (drop m l).
Proof.
  revert f l. induction m as [|m IH]; intros f [|x l]; [done|done|done|].
  rewrite imap_cons. cbn [drop]. rewrite IH. by apply imap_ext.
Qed.
Lemma readdir_node i off b cs :
  tree_node T i = Some cs → - 2 ^ 63 ≤ off < 2 ^ 63 → Z.of_nat (length T) < 2 ^ 62 →
  Uring_readdir st i off b =
    match tree_page T i off cs with
    | [] => Ret (AError ENOENT)
    | es => '(_, b) ← push_all es b; Ret (ADirectory b)
    end.
Proof.
  intros Hi Hoff HT. unfold Uring_readdir, tree_page.
  pose proof (InodeManager_get_node i) as Hg. rewrite Hi in Hg.
  destruct Hg as (n & -> & _ & _ & Hpath & _). unfold ListStatusCache_get. rewrite Hpath.
  pose proof (node_good _ _ Hi) as Hcs. pose proof (models_listings _ _ M _ Hcs) as Hls.
  pose proof (listing_length T cs) as Hlen.
  set (m := Z.to_nat (wrap 64 off)). rewrite drop_imap.
  set (es := imap _ (drop m (listing T cs))).
  assert (∀ cnt b, match cache (ls_cache st) !! render cs with
     | Some entries => Uring_readdir_loop (inode_manager st) i off (drop m (enumerate entries)) cnt b
     | None => Ret (cnt, b)
     end = '(_, b) ← push_all es b; Ret ((cnt + length es)%nat, b)) as Hloop.
  { intros cnt b0. unfold es. rewrite length_imap.
    destruct (cache (ls_cache st) !! render cs) as [l|]; cbn in Hls; rewrite <- Hls;
      [|rewrite drop_nil; simpl; by rewrite Nat.add_0_r].
    unfold enumerate. rewrite drop_imap, Hls.
    destruct (decide (Z.of_nat (length (listing T cs)) ≤ wrap 64 off)) as [Hbig|Hsmall].
    { rewrite drop_ge by (unfold m; lia). simpl. by rewrite Nat.add_0_r. }
    assert (0 ≤ off) as Hpos.
    { destruct (decide (0 ≤ off)); [done|]. unfold wrap in Hsmall.
      rewrite <- (Z.mod_add off 1 (2 ^ 64)), Z.mod_small in Hsmall by lia. lia. }
    rewrite wrap_small in Hsmall by lia. apply readdir_loop_spec; [done| |done|].
    - apply Forall_drop, Forall_forall. intros x Hx%listing_in. split; [|done].
      pose proof (models_good _ _ M) as Hg. rewrite Forall_forall in Hg.
      by apply Hg, Forall_app in Hx as [_ [? _]%Forall_cons].
    - unfold m. rewrite length_drop, wrap_small by lia. lia. }
  clearbody es. destruct (off =? 0).
  - cbn [app push_all]. destruct (DirEntList_push _ b) as [[full b']| |]; [|done..].
    cbn [mbind outcome_bind]. rewrite Hloop.
    by destruct (push_all es b') as [[fulls b'']| |].
  - cbn [app mbind outcome_bind]. rewrite Hloop. destruct es as [|e es]; [done|].
    by destruct (push_all (e :: es) b) as [[fulls b'']| |].
Qed.
End simulation.

(** ** A new node *)

Lemma models_create st T p cs n par :
  models st T → Z.of_nat (length T) < 2 ^ 62 → tree_node T p = Some cs → good_name n →
  let m := InodeManager_create (inode_manager st) par n (render (cs ++ [n])) RegularFile in
  models (MkUringFilesystem m.2 (ListStatusCache_append (render cs) n (ls_cache st))
            (wrap 64 (next_fh st + 1))) (T ++ [cs ++ [n]]).
Proof.
  intros M HT Hp Hn. pose proof (node_good M _ _ Hp) as Hcs. pose proof (good_snoc _ _ Hcs Hn) as Hcsn.
  assert (1 ≤ Z.of_nat (length T)) as HT1 by (pose proof (tree_node_bounds _ _ _ (models_root _ _ M)); lia).
  cbn [InodeManager_create snd]. rewrite (models_next_ino _ _ M), (models_next_fh _ _ M).
  split; cbn [inode_manager inodes path_index next_ino ls_cache next_fh].
  - rewrite tree_node_snoc, decide_False by lia. apply (models_root _ _ M).
  - apply Forall_app. split; [apply (models_good _ _ M)|by constructor].
  - intros i. rewrite tree_node_snoc. case_decide as Hi.
    + rewrite <- Hi, lookup_insert_eq. constructor. unfold inode_at, kind_at.
      rewrite last_snoc. split_and!; try done. simpl. unfold FUSE_ROOT_ID.
      by rewrite (proj2 (Z.eqb_neq i 1)) by lia.
    + rewrite lookup_insert_ne by done. apply (models_inodes _ _ M).
  - intros ds Hds. rewrite newest_snoc. case_decide as Hd.
    + rewrite Hd, lookup_insert_eq. done.
    + rewrite lookup_insert_ne; [by apply (models_paths _ _ M)|]. by intros ?%render_inj.
  - intros ds Hds. rewrite listing_snoc, child_name_snoc. cbn [cache ListStatusCache_append].
    pose proof (models_listings _ _ M ds Hds) as Hl. case_decide as Hd.
    + subst ds. destruct (cache (ls_cache st) !! render cs) as [l|]; cbn in Hl;
        rewrite lookup_insert_eq, <- Hl; done.
    + assert (render cs ≠ render ds) as Hne by by intros ?%render_inj.
      simpl. rewrite app_nil_r, <- Hl.
      destruct (cache (ls_cache st) !! render cs); by rewrite lookup_insert_ne.
  - rewrite wrap_small by lia. rewrite length_app. simpl. lia.
  - rewrite wrap_small by lia. rewrite length_app. simpl. lia.
Qed.

(** Names without a slash, offsets that are [i64]. *)
Definition call_wf (c : FsCall) : Prop :=
  match c with
  | Fs_lookup _ n | Fs_create _ n _ _ _ => plain n
  | Fs_readdir _ _ off _ => - 2 ^ 63 ≤ off < 2 ^ 63
  | _ => True
  end.
#[export] Instance call_wf_dec c : Decision (call_wf c).
Proof. destruct c; apply _. Defined.

(** Two outcomes with the same answer and related states. *)
Definition similar {S S' A} (rel : S → S' → Prop) (m : outcome (A * S)) (m' : outcome (A * S')) : Prop :=
  match m, m' with
  | Ret (a, s), Ret (a', s') => a = a' ∧ rel s s'
  | Panic, Panic => True
  | _, _ => False
  end.

Section refinement.
Context `{B : Build, C : Libc, F : LibcFs}.

Lemma push_all_not_UB es b : push_all es b ≠ UB.
Proof.
  revert b. induction es as [|e es IH]; intros b; [done|]. cbn [push_all].
  assert (DirEntList_push e b ≠ UB) as Hp.
  { unfold DirEntList_push, name_len, EntListBuf_push. case_decide; [|done].
    cbn [mbind outcome_bind]. case_decide; [done|]. by case_decide. }
  destruct (DirEntList_push e b) as [[full b']| |]; [|done..]. cbn [mbind outcome_bind].
  specialize (IH b'). by destruct (push_all es b') as [[]| |].
Qed.

Lemma Uring_lookup_similar st T p n :
  models st T → plain n →
  similar models (a ← Uring_lookup st p n; Ret (Some a, st)) (tree_call (Fs_lookup p n) T).
Proof.
  intros M Hn. unfold Uring_lookup, into_string. cbn [tree_call].
  destruct (is_utf8 n) eqn:Hu; cbn [mbind outcome_bind option_bind].
  - destruct (tree_node T p) as [cs|] eqn:Hp; cbn [mbind option_bind].
    + pose proof (lookup_node M _ _ _ Hp (conj Hn Hu)) as Hl.
      destruct (newest T (cs ++ [n])) as [i|]; [destruct Hl as (m & -> & Hm)|by destruct Hl as [e ->]].
      split; [|done]. by rewrite (inode_at_attr _ _ _ Hm).
    + assert (inodes (inode_manager st) !! p = None) as Hnone.
      { pose proof (models_inodes _ _ M p) as Hi. rewrite Hp in Hi. by inversion Hi. }
      unfold InodeManager_lookup. rewrite Hnone. by split.
  - by destruct (tree_node T p).
Qed.

Lemma Uring_create_similar st T p n mode umask flags :
  models st T → Z.of_nat (length T) < 2 ^ 62 → plain n →
  similar models ('(a, st') ← Uring_create st p n; Ret (Some a, st'))
    (tree_call (Fs_create p n mode umask flags) T).
Proof.
  intros M HT Hn. unfold Uring_create, into_string. cbn [tree_call].
  pose proof (InodeManager_get_node M p) as Hg.
  destruct (tree_node T p) as [cs|] eqn:Hp; [|destruct Hg as [e ->]; by split].
  destruct Hg as (q & -> & _ & _ & Hpath & _). pose proof (node_good M _ _ Hp) as Hcs.
  rewrite Hpath, path_join_render, render_snoc_utf8 by done.
  destruct (is_utf8 n) eqn:Hu; [|done]. cbn [unwrap mbind outcome_bind InodeManager_create].
  split; [|by apply (models_create st T p cs n p)].
  rewrite (models_next_ino _ _ M), (models_next_fh _ _ M).
  pose proof (tree_node_bounds _ _ _ Hp).
  unfold FileAttr_from_inode, attr_at, kind_at, FUSE_ROOT_ID. simpl.
  rewrite (proj2 (Z.eqb_neq _ 1)) by lia. do 2 f_equal. lia.
Qed.

Lemma Uring_call_similar c st T :
  models st T → Z.of_nat (length T) < 2 ^ 62 → call_wf c →
  similar models (Uring_call c st) (tree_call c T).
Proof.
  intros M HT Hc. pose proof (InodeManager_get_node M) as Hg.
  destruct c; cbn [call_wf] in Hc; try by split.
  - by apply Uring_lookup_similar.
  - cbn [Uring_call tree_call]. unfold Uring_getattr. specialize (Hg ino0).
    destruct (tree_node T ino0); [destruct Hg as (m & -> & Hm)|by destruct Hg as [e ->]].
    split; [|done]. by rewrite (inode_at_attr _ _ _ Hm).
  - cbn [Uring_call tree_call]. unfold Uring_setattr. specialize (Hg ino0).
    destruct (tree_node T ino0); [destruct Hg as (m & -> & Hm)|by destruct Hg as [e ->]].
    split; [|done]. by rewrite (inode_at_attr _ _ _ Hm).
  - cbn [Uring_call tree_call]. destruct (tree_node T ino0) as [cs|] eqn:Hi.
    + rewrite (readdir_node M _ _ _ _ Hi) by done.
      destruct (tree_page T ino0 offset cs) as [|e es]; [done|].
      pose proof (push_all_not_UB (e :: es) list) as Hub.
      by destruct (push_all (e :: es) list) as [[fulls b]| |].
    + unfold Uring_readdir. specialize (Hg ino0). rewrite Hi in Hg. destruct Hg as [e ->]. by split.
  - by apply Uring_create_similar.
  - cbn [Uring_call tree_call]. by rewrite default_batch_forget_keeps.
Qed.

(** Only CREATE makes a node, and one. *)
Lemma tree_call_length c T a T' :
  tree_call c T = Ret (a, T') → (length T' ≤ S (length T))%nat.
Proof.
  destruct c; cbn [tree_call]; intros H; repeat case_match; simplify_eq; try lia;
    try (destruct (push_all _ _) as [[]| |]; simplify_eq/=; lia).
  rewrite length_app. simpl. lia.
Qed.

Lemma run_calls_similar calls : ∀ st T,
  models st T → Forall call_wf calls → Z.of_nat (length calls + length T) < 2 ^ 62 →
  similar models (run_calls Uring_call calls st) (run_calls tree_call calls T).
Proof.
  induction calls as [|c calls IH]; intros st T M Hc HT; [by split|].
  apply Forall_cons in Hc as [Hc Hcs]. cbn [run_calls length] in *.
  pose proof (Uring_call_similar c st T M ltac:(lia) Hc) as Hsim.
  destruct (tree_call c T) as [[a T']| |] eqn:Ht, (Uring_call c st) as [[a' st']| |]; try done.
  destruct Hsim as [-> M']. cbn [mbind outcome_bind]. apply tree_call_length in Ht.
  specialize (IH st' T' M' Hcs ltac:(lia)).
  destruct (run_calls tree_call calls T') as [[l T'']| |],
    (run_calls Uring_call calls st') as [[l' st'']| |]; try done.
  destruct IH as [-> ?]. by split.
Qed.

Definition uring_start (bucket : list Z) : UringFilesystem :=
  UringFilesystem_new (InodeManager_new bucket) ListStatusCache_new.

Lemma run_tree_length calls : ∀ T answers T',
  run_calls tree_call calls T = Ret (answers, T') → (length T' ≤ length calls + length T)%nat.
Proof.
  induction calls as [|c calls IH]; intros T answers T'; cbn [run_calls]; [intros [= _ <-]; simpl; lia|].
  intros ([a T1] & H1 & ([l T2] & H2 & [= _ <-])%bind_Ret)%bind_Ret.
  apply tree_call_length in H1. apply IH in H2. simpl. lia.
Qed.
(** A reachable state is that of a tree. *)
Lemma uring_reached bucket calls answers st :
  Forall call_wf calls → Z.of_nat (length calls) < 2 ^ 62 - 1 →
  run_calls Uring_call calls (uring_start bucket) = Ret (answers, st) →
  ∃ T, run_calls tree_call calls [[]] = Ret (answers, T) ∧ models st T ∧ Z.of_nat (length T) < 2 ^ 62.
Proof.
  intros Hc Hl Hrun.
  pose proof (run_calls_similar calls _ [[]] (models_new bucket) Hc ltac:(simpl; lia)) as Hs.
  unfold uring_start in Hrun. rewrite Hrun in Hs.
  destruct (run_calls tree_call calls [[]]) as [[l T]| |] eqn:HT; [|done..]. destruct Hs as [<- M].
  exists T. split_and!; [done..|]. apply run_tree_length in HT. simpl in HT. lia.
Qed.

(** C13: The ring-driven file system is a tree of names.  Over any sequence of
    calls its answers are those of the tree that keeps every node ever made by the
    names from the root to it: a lookup finds the newest node of a name, a create
    makes one with the next inode number and file handle, a listing has the names
    in the order they were made, and it panics exactly where the tree does, on a
    setattr of an unknown inode and a create with a name that is not UTF-8. *)
Theorem uring_refines_tree bucket calls :
  Forall call_wf calls → Z.of_nat (length calls) < 2 ^ 62 - 1 →
  fst <$> run_calls Uring_call calls (uring_start bucket) = fst <$> run_calls tree_call calls [[]].
Proof.
  intros Hc Hl.
  pose proof (run_calls_similar calls _ [[]] (models_new bucket) Hc ltac:(simpl; lia)) as Hs.
  unfold uring_start.
  destruct (run_calls tree_call calls [[]]) as [[l T]| |], (run_calls Uring_call calls _) as [[l' st]| |];
    try done. by destruct Hs as [-> _].
Qed.

(** A listing cannot be continued.  The entry at position k carries the offset
    k + 2, but the next call skips k + 2 entries: the entry after it is never
    shown, and the end of the directory is the error ENOENT, not an empty page. *)
Theorem uring_readdir_continuation bucket calls answers st T i cs k n fh b :
  Forall call_wf calls → Z.of_nat (length calls) < 2 ^ 62 - 1 →
  run_calls Uring_call calls (uring_start bucket) = Ret (answers, st) →
  run_calls tree_call calls [[]] = Ret (answers, T) →
  tree_node T i = Some cs → listing T cs !! k = Some n →
  let off := Z.of_nat k + 2 in
  tree_page T i 0 cs !! S k = Some (tree_entry T cs 0 k n) ∧
  dirent_entry_offset (tree_entry T cs 0 k n) = off ∧
  ∃ es, dirent_entry_name <$> es = drop (k + 2) (listing T cs) ∧
    Uring_call (Fs_readdir i fh off b) st =
      if decide (length (listing T cs) ≤ k + 2)%nat then Ret (Some (AError ENOENT), st)
      else '(_, b) ← push_all es b; Ret (Some (ADirectory b), st).
Proof.
  intros Hc Hl Hrun HT Hi Hk off.
  destruct (uring_reached _ _ _ _ Hc Hl Hrun) as (T' & HT' & M & HTl).
  rewrite HT in HT'. injection HT' as <-.
  pose proof (lookup_lt_Some _ _ _ Hk) as Hlt. pose proof (listing_length T cs) as Hll.
  split_and!.
  - unfold tree_page. simpl. rewrite drop_0, list_lookup_imap, Hk. done.
  - unfold tree_entry. simpl. lia.
  - exists (drop (k + 2) (imap (tree_entry T cs off) (listing T cs))). split.
    + rewrite fmap_drop, fmap_imap. f_equal. rewrite <- (list_fmap_id (listing T cs)) at 2.
      rewrite <- (imap_const id). done.
    + cbn [Uring_call]. rewrite (readdir_node M _ _ _ _ Hi) by lia.
      unfold tree_page. rewrite (proj2 (Z.eqb_neq off 0)) by lia.
      rewrite wrap_small by lia. replace (Z.to_nat off) with (k + 2)%nat by lia. cbn [app].
      case_decide as Hend; [rewrite drop_ge by (rewrite length_imap; lia); done|].
      destruct (drop (k + 2) _) as [|e es] eqn:He;
        [apply (f_equal length) in He; rewrite length_drop, length_imap in He; simpl in He; lia|].
      by destruct (push_all (e :: es) b) as [[]| |].
Qed.
End refinement.

(** ** What the kernel gets *)

Section delivery.
Context `{B : Build, C : Libc, CL : !LibcLaws C, F : LibcFs}.
(** Error numbers are positive, as errno(3) documents. *)
Context (EPERM_pos : 0 < EPERM < 2 ^ 31) (ENOENT_pos : 0 < ENOENT < 2 ^ 31).

Definition buffer_ok (b : EntListBuf) : Prop :=
  Z.of_nat (length (buf b)) ≤ max_size b ∧ 16 + max_size b < 2 ^ 32.
Lemma DirEntList_push_ok e b full b' :
  DirEntList_push e b = Ret (full, b') → buffer_ok b → buffer_ok b'.
Proof.
  unfold DirEntList_push. rewrite bind_Ret. intros (len & _ & H) [Hl Hm].
  rewrite EntListBuf_push_spec in H. unfold mret, outcome_ret in H.
  case_decide; injection H as _ <-; by split.
Qed.
Lemma push_all_ok es : ∀ b fulls b', push_all es b = Ret (fulls, b') → buffer_ok b → buffer_ok b'.
Proof.
  induction es as [|e es IH]; intros b fulls b'; cbn [push_all]; [by intros [= _ <-]|].
  intros ([full b1] & H1 & ([fs b2] & H2 & [= _ <-])%bind_Ret)%bind_Ret Hb.
  eapply IH; [exact H2|]. by eapply DirEntList_push_ok.
Qed.

(** The buffer of a READDIR is new, made for a size the kernel asks for. *)
Definition call_fresh (c : FsCall) : Prop :=
  match c with
  | Fs_readdir _ _ _ b => ∃ size, b = DirEntList_new size ∧ 0 ≤ size < 2 ^ 32 - 16
  | _ => True
  end.

Lemma attr_at_fits i : 0 ≤ i < 2 ^ 64 → FileAttr_fits (attr_at i).
Proof. intros Hi. unfold FileAttr_fits, SystemTime_fits, NANOS_PER_SEC. simpl. lia. Qed.

Lemma default_answer_fits c a : default_answer c = Some a → answer_fits a ∧ answer_panics a = false.
Proof.
  pose proof ENOSYS_pos.
  destruct c; intros [= <-]; simpl; rewrite ?Z.eqb_neq; lia.
Qed.
Lemma tree_call_fits c T a T' :
  Z.of_nat (length T) < 2 ^ 62 → call_fresh c → tree_call c T = Ret (Some a, T') →
  answer_fits a ∧ answer_panics a = false.
Proof.
  intros HT Hc Hcall. pose proof ENOSYS_pos.
  assert (answer_fits (AError ENOENT) ∧ answer_panics (AError ENOENT) = false) as Henoent.
  { cbn [answer_fits answer_panics]. rewrite Z.eqb_neq. lia. }
  assert (∀ i, 0 ≤ i ≤ Z.of_nat (length T) + 1 → FileAttr_fits (attr_at i)) as Hat.
  { intros i Hi. apply attr_at_fits. lia. }
  destruct c; cbn [tree_call call_fresh] in *;
    try match type of Hcall with Ret (default_answer ?c, _) = _ =>
      apply (default_answer_fits c); congruence end.
  - injection Hcall as <- _.
    destruct (cs ← tree_node T parent0; _) as [i|] eqn:Hi; [|exact Henoent].
    assert (tree_node T i ≠ None) as Hn.
    { destruct (tree_node T parent0) as [cs|]; [|done]. cbn [mbind option_bind] in Hi.
      destruct (is_utf8 name0); [|done]. by apply newest_node in Hi as ->. }
    destruct (tree_node T i) as [ds|] eqn:Hds; [|done]. apply tree_node_bounds in Hds.
    split; [|done]. split_and!; [by split|apply Hat; lia|lia|lia].
  - injection Hcall as <- _. destruct (tree_node T ino0) as [cs|] eqn:Hi; [|exact Henoent].
    apply tree_node_bounds in Hi. split; [|done]. split; [by split|apply Hat; lia].
  - destruct (tree_node T ino0) as [cs|] eqn:Hi; [|done]. injection Hcall as <- _.
    apply tree_node_bounds in Hi. split; [|done]. split; [by split|apply Hat; lia].
  - injection Hcall as <- _. cbn [answer_fits answer_panics]. rewrite Z.eqb_neq. lia.
  - destruct (tree_node T ino0) as [cs|]; [|injection Hcall as <- _; exact Henoent].
    destruct (tree_page T ino0 offset cs) as [|e es]; [injection Hcall as <- _; exact Henoent|].
    apply bind_Ret in Hcall as ([fulls b] & Hp & [= <- _]). split; [|done].
    destruct Hc as (size & -> & Hs). apply (push_all_ok _ _ _ _ Hp). split; simpl; lia.
  - destruct (tree_node T parent0) as [cs|]; [|injection Hcall as <- _; exact Henoent].
    destruct (is_utf8 name0); [|done]. injection Hcall as <- _. split; [|done].
    split_and!; [by split|apply Hat; lia|lia..].
Qed.

(** Whatever is asked of the ring-driven file system, its answer reaches the
    kernel as one message for the request, from which the kernel decodes the values
    of the answer; the reply object does not panic. *)
Theorem uring_answers_reach_kernel bucket calls answers st c a st' unique sent :
  Forall call_wf calls → Z.of_nat (length calls) < 2 ^ 62 - 1 →
  run_calls Uring_call calls (uring_start bucket) = Ret (answers, st) →
  call_wf c → call_fresh c → Uring_call c st = Ret (Some a, st') →
  0 ≤ unique < 2 ^ 64 →
  delivers (send_answer a (ReplyRaw_new unique)) unique sent false (understood a).
Proof.
  intros Hcs Hl Hrun Hc Hf Hcall Hu.
  destruct (uring_reached _ _ _ _ Hcs Hl Hrun) as (T & _ & M & HT).
  pose proof (Uring_call_similar c st T M ltac:(lia) Hc) as Hsim. rewrite Hcall in Hsim.
  destruct (tree_call c T) as [[a' T']| |] eqn:Ht; [|done..]. destruct Hsim as [<- _].
  apply tree_call_fits in Ht as [Ha <-]; [|lia|done]. by apply send_answer_delivers.
Qed.
End delivery.

(** ** Witnesses *)

(** Files a, b and c in the root, and one of the name a in a directory of its own. *)
Definition example_calls : list FsCall :=
  [Fs_create 1 [97] 420 0 0; Fs_create 1 [98] 420 0 0; Fs_create 1 [99] 420 0 0;
   Fs_lookup 1 [98]; Fs_create 2 [97] 420 0 0; Fs_lookup 2 [97]; Fs_lookup 9 [97]].

Lemma uring_refines_tree_witness :
  fst <$> @run_calls _ (@Uring_call true linux linux_fs) example_calls (uring_start [])
  = Ret [Some (ACreated (MkDuration 1000 0) (attr_at 2) 2 1 0);
         Some (ACreated (MkDuration 1000 0) (attr_at 3) 3 2 0);
         Some (ACreated (MkDuration 1000 0) (attr_at 4) 4 3 0);
         Some (AEntry (MkDuration 100 0) (attr_at 3) 0);
         Some (ACreated (MkDuration 1000 0) (attr_at 5) 5 4 0);
         Some (AEntry (MkDuration 100 0) (attr_at 5) 0);
         Some (AError 2)].
Proof.
  assert (Forall call_wf example_calls) as Hc by (apply (bool_decide_unpack _); vm_compute; exact I).
  rewrite (@uring_refines_tree true linux linux_fs [] example_calls Hc eq_refl).
  vm_compute. reflexivity.
Defined.

Definition example_run :=
  @run_calls _ (@Uring_call true linux linux_fs) example_calls (uring_start []).

(** The listing of the root from the offset of its first entry lacks b. *)
Lemma uring_readdir_continuation_witness :
  ∃ answers st es, example_run = Ret (answers, st) ∧ dirent_entry_name <$> es = [[99]] ∧
    @Uring_call true linux linux_fs (Fs_readdir 1 0 2 (DirEntList_new 512)) st =
      ('(_, b) ← @push_all linux es (DirEntList_new 512); Ret (Some (ADirectory b), st)).
Proof.
  destruct example_run as [[answers st]| |] eqn:Hrun; [|discriminate Hrun..].
  assert (Forall call_wf example_calls) as Hc by (apply (bool_decide_unpack _); vm_compute; exact I).
  destruct (@run_calls _ (@tree_call linux linux_fs) example_calls [[]]) as [[ans T]| |] eqn:HT;
    [|discriminate HT..].
  assert (ans = answers) as ->.
  { pose proof Hrun as Hr. vm_compute in Hr. injection Hr as <- _. vm_compute in HT. by injection HT as <- _. }
  assert (T = [[]; [[97]]; [[98]]; [[99]]; [[97]; [97]]]) as E.
  { vm_compute in HT. by injection HT as _ <-. }
  destruct (@uring_readdir_continuation true linux linux_fs [] example_calls answers st T 1 [] 0 [97] 0
    (DirEntList_new 512) Hc eq_refl Hrun HT) as (_ & _ & es & Hes & Hcall);
    [by rewrite E|by rewrite E|].
  exists answers, st, es. rewrite E in Hes, Hcall. split; [done|]. split; [exact Hes|exact Hcall].
Defined.

(** The kernel reads the inode number of the file made last. *)
Lemma uring_answers_reach_kernel_witness :
  ∃ answers st, example_run = Ret (answers, st) ∧
    delivers (@send_answer linux true (AEntry (MkDuration 100 0) (attr_at 3) 0) (ReplyRaw_new 7)) 7 [] false
      (@understood linux true (AEntry (MkDuration 100 0) (attr_at 3) 0)).
Proof.
  destruct example_run as [[answers st]| |] eqn:Hrun; [|discriminate Hrun..].
  assert (Forall call_wf example_calls) as Hc by (apply (bool_decide_unpack _); vm_compute; exact I).
  exists answers, st. split; [done|].
  apply (@uring_answers_reach_kernel true linux linux_laws linux_fs ltac:(done) ltac:(done) [] example_calls
    answers st (Fs_lookup 1 [98]) _ st 7 [] Hc eq_refl Hrun); [|done| |done].
  - apply (bool_decide_unpack _). vm_compute. exact I.
  - vm_compute in Hrun. injection Hrun as _ <-. vm_compute. reflexivity.
Defined.
