(* ===== verification/FuserRequest.v ===== *)
(** * FuserRequest: the requests of the copy of the crate fuser ([fuser/ll/request.rs])

    The adapter FuseMT and the example file system are mounted through [src/fuse/src/fuser],
    a copy of the crate fuser from which [uring_fuse] was made.  Its parser of requests
    wraps inode numbers, file handles and the ids of requests in types of their own.
    Everything is in the module [Ll], under the names of the source.  The structs of
    the kernel ([fuse_abi.rs]) and the argument iterator ([argument.rs]) are the same
    text in both and are those of KernelInterface.v and Argument.v.

    [erase] forgets the wrappers.  [fuser_decodes_same]: the copy and uring_fuse decode any
    bytes to the same request, and [Link_dest_differs] is the one accessor in which they
    differ. *)

From S2P Require Import Prelude Wire KernelInterface Time Argument Operation Request.

Local Open Scope Z_scope.

Module Ll.

Record RequestId : Type := MkRequestId { request_id_0 : Z }.
Record INodeNo : Type := MkINodeNo { inode_no_0 : Z }.
Record FileHandle : Type := MkFileHandle { file_handle_0 : Z }.
Record LockOwner : Type := MkLockOwner { lock_owner_0 : Z }.

Record Lock : Type := MkLock { lock_range : Z * Z; lock_typ : Z; lock_pid : Z }.
Definition Lock_from_abi (x : fuse_file_lock) : Lock :=
  MkLock (file_lock_start x, file_lock_end x) (file_lock_typ x) (file_lock_pid x).

Record Version : Type := MkVersion { version_0 : Z; version_1 : Z }.
Definition Version_major (v : Version) : Z := version_0 v.
Definition Version_minor (v : Version) : Z := version_1 v.

(** A filename in a directory. *)
Record FilenameInDir : Type := MkFilenameInDir { dir : INodeNo; name : Path }.

Inductive RequestError : Type :=
  | ShortReadHeader (len : Z)
  | UnknownOperation (opcode : Z)
  | ShortRead (len total : Z)
  | InsufficientData.

(** ** The trait [Request]

    [impl_request!] implements it for a struct by its field [header]. *)
Class Request (T : Type) := request_header : T → fuse_in_header.

Section request.
Context `{Request T}.
Definition request_unique (r : T) : RequestId := MkRequestId (in_header_unique (request_header r)).
Definition request_nodeid (r : T) : INodeNo := MkINodeNo (in_header_nodeid (request_header r)).
Definition request_uid (r : T) : Z := in_header_uid (request_header r).
Definition request_gid (r : T) : Z := in_header_gid (request_header r).
Definition request_pid (r : T) : Z := in_header_pid (request_header r).
End request.

(** ** Requests *)

Record Lookup : Type := MkLookup {
  lookup_header : fuse_in_header;
  lookup_name : OsStr }.
#[global] Instance Lookup_request : Request Lookup := lookup_header.
Definition Lookup_name (x : Lookup) : OsStr := lookup_name x.

Record Forget : Type := MkForget {
  forget_header : fuse_in_header;
  forget_arg : fuse_forget_in }.
#[global] Instance Forget_request : Request Forget := forget_header.
Definition Forget_nlookup (x : Forget) : Z := forget_in_nlookup (forget_arg x).

Record GetAttr : Type := MkGetAttr {
  getattr_header : fuse_in_header }.
#[global] Instance GetAttr_request : Request GetAttr := getattr_header.

Record SetAttr : Type := MkSetAttr {
  setattr_header : fuse_in_header;
  setattr_arg : fuse_setattr_in }.
#[global] Instance SetAttr_request : Request SetAttr := setattr_header.
Definition SetAttr_mode (x : SetAttr) : option Z :=
  if Z.land (setattr_in_valid (setattr_arg x)) FATTR_MODE =? 0 then None
  else Some (setattr_in_mode (setattr_arg x)).
Definition SetAttr_uid (x : SetAttr) : option Z :=
  if Z.land (setattr_in_valid (setattr_arg x)) FATTR_UID =? 0 then None
  else Some (setattr_in_uid (setattr_arg x)).
Definition SetAttr_gid (x : SetAttr) : option Z :=
  if Z.land (setattr_in_valid (setattr_arg x)) FATTR_GID =? 0 then None
  else Some (setattr_in_gid (setattr_arg x)).
Definition SetAttr_size (x : SetAttr) : option Z :=
  if Z.land (setattr_in_valid (setattr_arg x)) FATTR_SIZE =? 0 then None
  else Some (setattr_in_size (setattr_arg x)).
Definition SetAttr_atime `{B : Build} (x : SetAttr) : outcome (option TimeOrNow) :=
  if Z.land (setattr_in_valid (setattr_arg x)) FATTR_ATIME =? 0 then Ret None
  else if atime_now (setattr_arg x) then Ret (Some Now)
  else t ← system_time_from_time (setattr_in_atime (setattr_arg x))
             (setattr_in_atimensec (setattr_arg x));
       Ret (Some (SpecificTime t)).
Definition SetAttr_mtime `{B : Build} (x : SetAttr) : outcome (option TimeOrNow) :=
  if Z.land (setattr_in_valid (setattr_arg x)) FATTR_MTIME =? 0 then Ret None
  else if mtime_now (setattr_arg x) then Ret (Some Now)
  else t ← system_time_from_time (setattr_in_mtime (setattr_arg x))
             (setattr_in_mtimensec (setattr_arg x));
       Ret (Some (SpecificTime t)).
Definition SetAttr_ctime `{B : Build} (x : SetAttr) : outcome (option SystemTime) :=
  if Z.land (setattr_in_valid (setattr_arg x)) FATTR_CTIME =? 0 then Ret None
  else t ← system_time_from_time (setattr_in_ctime (setattr_arg x))
             (setattr_in_ctimensec (setattr_arg x));
       Ret (Some t).
Definition SetAttr_file_handle (x : SetAttr) : option FileHandle :=
  if Z.land (setattr_in_valid (setattr_arg x)) FATTR_FH =? 0 then None
  else Some (MkFileHandle (setattr_in_fh (setattr_arg x))).
Definition SetAttr_crtime (x : SetAttr) : option SystemTime :=
  None.
Definition SetAttr_chgtime (x : SetAttr) : option SystemTime :=
  None.
Definition SetAttr_bkuptime (x : SetAttr) : option SystemTime :=
  None.
Definition SetAttr_flags (x : SetAttr) : option Z :=
  None.

Record ReadLink : Type := MkReadLink {
  readlink_header : fuse_in_header }.
#[global] Instance ReadLink_request : Request ReadLink := readlink_header.

Record SymLink : Type := MkSymLink {
  symlink_header : fuse_in_header;
  symlink_target : Path;
  symlink_link : Path }.
#[global] Instance SymLink_request : Request SymLink := symlink_header.
Definition SymLink_target (x : SymLink) : Path := symlink_target x.
Definition SymLink_link (x : SymLink) : Path := symlink_link x.

Record MkNod : Type := MkMkNod {
  mknod_header : fuse_in_header;
  mknod_arg : fuse_mknod_in;
  mknod_name : Path }.
#[global] Instance MkNod_request : Request MkNod := mknod_header.
Definition MkNod_name (x : MkNod) : Path := mknod_name x.
Definition MkNod_mode (x : MkNod) : Z := mknod_in_mode (mknod_arg x).
Definition MkNod_umask (x : MkNod) : Z := mknod_in_umask (mknod_arg x).
Definition MkNod_rdev (x : MkNod) : Z := mknod_in_rdev (mknod_arg x).

Record MkDir : Type := MkMkDir {
  mkdir_header : fuse_in_header;
  mkdir_arg : fuse_mkdir_in;
  mkdir_name : Path }.
#[global] Instance MkDir_request : Request MkDir := mkdir_header.
Definition MkDir_name (x : MkDir) : Path := mkdir_name x.
Definition MkDir_mode (x : MkDir) : Z := mkdir_in_mode (mkdir_arg x).
Definition MkDir_umask (x : MkDir) : Z := mkdir_in_umask (mkdir_arg x).

Record Unlink : Type := MkUnlink {
  unlink_header : fuse_in_header;
  unlink_name : Path }.
#[global] Instance Unlink_request : Request Unlink := unlink_header.
Definition Unlink_name (x : Unlink) : Path := unlink_name x.

Record RmDir : Type := MkRmDir {
  rmdir_header : fuse_in_header;
  rmdir_name : Path }.
#[global] Instance RmDir_request : Request RmDir := rmdir_header.
Definition RmDir_name (x : RmDir) : Path := rmdir_name x.

Record Rename : Type := MkRename {
  rename_header : fuse_in_header;
  rename_arg : fuse_rename_in;
  rename_name : Path;
  rename_newname : Path }.
#[global] Instance Rename_request : Request Rename := rename_header.
Definition Rename_src (x : Rename) : FilenameInDir :=
  MkFilenameInDir (request_nodeid x) (rename_name x).
Definition Rename_dest (x : Rename) : FilenameInDir :=
  MkFilenameInDir (MkINodeNo (rename_in_newdir (rename_arg x))) (rename_newname x).

Record Link : Type := MkLink {
  link_header : fuse_in_header;
  link_arg : fuse_link_in;
  link_name : Path }.
#[global] Instance Link_request : Request Link := link_header.
Definition Link_inode_no (x : Link) : INodeNo := MkINodeNo (link_in_oldnodeid (link_arg x)).
Definition Link_dest (x : Link) : FilenameInDir :=
  MkFilenameInDir (request_nodeid x) (link_name x).

Record Open : Type := MkOpen {
  open_header : fuse_in_header;
  open_arg : fuse_open_in }.
#[global] Instance Open_request : Request Open := open_header.
Definition Open_flags (x : Open) : Z := open_in_flags (open_arg x).

Record Read : Type := MkRead {
  read_header : fuse_in_header;
  read_arg : fuse_read_in }.
#[global] Instance Read_request : Request Read := read_header.
Definition Read_file_handle (x : Read) : FileHandle := MkFileHandle (read_in_fh (read_arg x)).
Definition Read_offset (x : Read) : Z := read_in_offset (read_arg x).
Definition Read_size (x : Read) : Z := read_in_size (read_arg x).
Definition Read_lock_owner (x : Read) : option LockOwner :=
  if negb (Z.land (read_in_read_flags (read_arg x)) FUSE_READ_LOCKOWNER =? 0)
  then Some (MkLockOwner (read_in_lock_owner (read_arg x))) else None.
Definition Read_flags (x : Read) : Z := read_in_flags (read_arg x).

Record Write : Type := MkWrite {
  write_header : fuse_in_header;
  write_arg : fuse_write_in;
  write_data : list Z }.
#[global] Instance Write_request : Request Write := write_header.
Definition Write_file_handle (x : Write) : FileHandle := MkFileHandle (write_in_fh (write_arg x)).
Definition Write_offset (x : Write) : Z := write_in_offset (write_arg x).
Definition Write_data (x : Write) : list Z := write_data x.
Definition Write_write_flags (x : Write) : Z := write_in_write_flags (write_arg x).
Definition Write_lock_owner (x : Write) : option LockOwner :=
  if negb (Z.land (write_in_write_flags (write_arg x)) FUSE_WRITE_LOCKOWNER =? 0)
  then Some (MkLockOwner (write_in_lock_owner (write_arg x))) else None.
Definition Write_flags (x : Write) : Z := write_in_flags (write_arg x).

Record StatFs : Type := MkStatFs {
  statfs_header : fuse_in_header }.
#[global] Instance StatFs_request : Request StatFs := statfs_header.

Record Release : Type := MkRelease {
  release_header : fuse_in_header;
  release_arg : fuse_release_in }.
#[global] Instance Release_request : Request Release := release_header.
Definition Release_flush (x : Release) : bool :=
  negb (Z.land (release_in_release_flags (release_arg x)) FUSE_RELEASE_FLUSH =? 0).
Definition Release_file_handle (x : Release) : FileHandle := MkFileHandle (release_in_fh (release_arg x)).
Definition Release_flags (x : Release) : Z := release_in_flags (release_arg x).
Definition Release_lock_owner (x : Release) : option LockOwner :=
  if negb (Z.land (release_in_release_flags (release_arg x)) FUSE_RELEASE_FLOCK_UNLOCK =? 0)
  then Some (MkLockOwner (release_in_lock_owner (release_arg x))) else None.

Record FSync : Type := MkFSync {
  fsync_header : fuse_in_header;
  fsync_arg : fuse_fsync_in }.
#[global] Instance FSync_request : Request FSync := fsync_header.
Definition FSync_file_handle (x : FSync) : FileHandle := MkFileHandle (fsync_in_fh (fsync_arg x)).
Definition FSync_fdatasync (x : FSync) : bool :=
  negb (Z.land (fsync_in_fsync_flags (fsync_arg x)) FUSE_FSYNC_FDATASYNC =? 0).

Record SetXAttr : Type := MkSetXAttr {
  setxattr_header : fuse_in_header;
  setxattr_arg : fuse_setxattr_in;
  setxattr_name : OsStr;
  setxattr_value : list Z }.
#[global] Instance SetXAttr_request : Request SetXAttr := setxattr_header.
Definition SetXAttr_name (x : SetXAttr) : OsStr := setxattr_name x.
Definition SetXAttr_value (x : SetXAttr) : list Z := setxattr_value x.
Definition SetXAttr_flags (x : SetXAttr) : Z := setxattr_in_flags (setxattr_arg x).
Definition SetXAttr_position (x : SetXAttr) : Z :=
  0.

(** [GetXAttrSizeEnum]: the payload of [Size] is non-zero. *)
Inductive GetXAttrSizeEnum : Type := GetSize | Size (size : Z).

Record GetXAttr : Type := MkGetXAttr {
  getxattr_header : fuse_in_header;
  getxattr_arg : fuse_getxattr_in;
  getxattr_name : OsStr }.
#[global] Instance GetXAttr_request : Request GetXAttr := getxattr_header.
Definition GetXAttr_name (x : GetXAttr) : OsStr := getxattr_name x.
Definition GetXAttr_size (x : GetXAttr) : GetXAttrSizeEnum :=
  if getxattr_in_size (getxattr_arg x) =? 0 then GetSize
  else Size (getxattr_in_size (getxattr_arg x)).
Definition GetXAttr_size_u32 (x : GetXAttr) : Z := getxattr_in_size (getxattr_arg x).

Record ListXAttr : Type := MkListXAttr {
  listxattr_header : fuse_in_header;
  listxattr_arg : fuse_getxattr_in }.
#[global] Instance ListXAttr_request : Request ListXAttr := listxattr_header.
Definition ListXAttr_size (x : ListXAttr) : Z := getxattr_in_size (listxattr_arg x).

Record RemoveXAttr : Type := MkRemoveXAttr {
  removexattr_header : fuse_in_header;
  removexattr_name : OsStr }.
#[global] Instance RemoveXAttr_request : Request RemoveXAttr := removexattr_header.
Definition RemoveXAttr_name (x : RemoveXAttr) : OsStr := removexattr_name x.

Record Flush : Type := MkFlush {
  flush_header : fuse_in_header;
  flush_arg : fuse_flush_in }.
#[global] Instance Flush_request : Request Flush := flush_header.
Definition Flush_file_handle (x : Flush) : FileHandle := MkFileHandle (flush_in_fh (flush_arg x)).
Definition Flush_lock_owner (x : Flush) : LockOwner :=
  MkLockOwner (flush_in_lock_owner (flush_arg x)).

Record Init : Type := MkInit {
  init_header : fuse_in_header;
  init_arg : fuse_init_in }.
#[global] Instance Init_request : Request Init := init_header.
Definition Init_capabilities (x : Init) : Z := init_in_flags (init_arg x).
Definition Init_max_readahead (x : Init) : Z := init_in_max_readahead (init_arg x).
Definition Init_version (x : Init) : Version :=
  MkVersion (init_in_major (init_arg x)) (init_in_minor (init_arg x)).

Record OpenDir : Type := MkOpenDir {
  opendir_header : fuse_in_header;
  opendir_arg : fuse_open_in }.
#[global] Instance OpenDir_request : Request OpenDir := opendir_header.
Definition OpenDir_flags (x : OpenDir) : Z := open_in_flags (opendir_arg x).

Record ReadDir : Type := MkReadDir {
  readdir_header : fuse_in_header;
  readdir_arg : fuse_read_in }.
#[global] Instance ReadDir_request : Request ReadDir := readdir_header.
Definition ReadDir_file_handle (x : ReadDir) : FileHandle := MkFileHandle (read_in_fh (readdir_arg x)).
Definition ReadDir_offset (x : ReadDir) : Z := read_in_offset (readdir_arg x).
Definition ReadDir_size (x : ReadDir) : Z := read_in_size (readdir_arg x).

Record ReleaseDir : Type := MkReleaseDir {
  releasedir_header : fuse_in_header;
  releasedir_arg : fuse_release_in }.
#[global] Instance ReleaseDir_request : Request ReleaseDir := releasedir_header.
Definition ReleaseDir_file_handle (x : ReleaseDir) : FileHandle :=
  MkFileHandle (release_in_fh (releasedir_arg x)).
Definition ReleaseDir_flush (x : ReleaseDir) : bool :=
  negb (Z.land (release_in_release_flags (releasedir_arg x)) FUSE_RELEASE_FLUSH =? 0).
Definition ReleaseDir_lock_owner (x : ReleaseDir) : option LockOwner :=
  if negb (Z.land (release_in_release_flags (releasedir_arg x)) FUSE_RELEASE_FLOCK_UNLOCK =? 0)
  then Some (MkLockOwner (release_in_lock_owner (releasedir_arg x))) else None.
Definition ReleaseDir_flags (x : ReleaseDir) : Z := release_in_flags (releasedir_arg x).

Record FSyncDir : Type := MkFSyncDir {
  fsyncdir_header : fuse_in_header;
  fsyncdir_arg : fuse_fsync_in }.
#[global] Instance FSyncDir_request : Request FSyncDir := fsyncdir_header.
Definition FSyncDir_file_handle (x : FSyncDir) : FileHandle := MkFileHandle (fsync_in_fh (fsyncdir_arg x)).
Definition FSyncDir_fdatasync (x : FSyncDir) : bool :=
  negb (Z.land (fsync_in_fsync_flags (fsyncdir_arg x)) FUSE_FSYNC_FDATASYNC =? 0).

Record GetLk : Type := MkGetLk {
  getlk_header : fuse_in_header;
  getlk_arg : fuse_lk_in }.
#[global] Instance GetLk_request : Request GetLk := getlk_header.
Definition GetLk_file_handle (x : GetLk) : FileHandle := MkFileHandle (lk_in_fh (getlk_arg x)).
Definition GetLk_lock (x : GetLk) : Lock := Lock_from_abi (lk_in_lk (getlk_arg x)).
Definition GetLk_lock_owner (x : GetLk) : LockOwner :=
  MkLockOwner (lk_in_owner (getlk_arg x)).

Record SetLk : Type := MkSetLk {
  setlk_header : fuse_in_header;
  setlk_arg : fuse_lk_in }.
#[global] Instance SetLk_request : Request SetLk := setlk_header.
Definition SetLk_file_handle (x : SetLk) : FileHandle := MkFileHandle (lk_in_fh (setlk_arg x)).
Definition SetLk_lock (x : SetLk) : Lock := Lock_from_abi (lk_in_lk (setlk_arg x)).
Definition SetLk_lock_owner (x : SetLk) : LockOwner :=
  MkLockOwner (lk_in_owner (setlk_arg x)).

Record SetLkW : Type := MkSetLkW {
  setlkw_header : fuse_in_header;
  setlkw_arg : fuse_lk_in }.
#[global] Instance SetLkW_request : Request SetLkW := setlkw_header.
Definition SetLkW_file_handle (x : SetLkW) : FileHandle := MkFileHandle (lk_in_fh (setlkw_arg x)).
Definition SetLkW_lock (x : SetLkW) : Lock := Lock_from_abi (lk_in_lk (setlkw_arg x)).
Definition SetLkW_lock_owner (x : SetLkW) : LockOwner :=
  MkLockOwner (lk_in_owner (setlkw_arg x)).

Record Access : Type := MkAccess {
  access_header : fuse_in_header;
  access_arg : fuse_access_in }.
#[global] Instance Access_request : Request Access := access_header.
Definition Access_mask (x : Access) : Z := access_in_mask (access_arg x).

Record Create : Type := MkCreate {
  create_header : fuse_in_header;
  create_arg : fuse_create_in;
  create_name : Path }.
#[global] Instance Create_request : Request Create := create_header.
Definition Create_name (x : Create) : Path := create_name x.
Definition Create_mode (x : Create) : Z := create_in_mode (create_arg x).
Definition Create_flags (x : Create) : Z := create_in_flags (create_arg x).
Definition Create_umask (x : Create) : Z := create_in_umask (create_arg x).

Record Interrupt : Type := MkInterrupt {
  interrupt_header : fuse_in_header;
  interrupt_arg : fuse_interrupt_in }.
#[global] Instance Interrupt_request : Request Interrupt := interrupt_header.
Definition Interrupt_unique (x : Interrupt) : RequestId :=
  MkRequestId (interrupt_in_unique (interrupt_arg x)).

Record BMap : Type := MkBMap {
  bmap_header : fuse_in_header;
  bmap_arg : fuse_bmap_in }.
#[global] Instance BMap_request : Request BMap := bmap_header.
Definition BMap_block_size (x : BMap) : Z := bmap_in_blocksize (bmap_arg x).
Definition BMap_block (x : BMap) : Z := bmap_in_block (bmap_arg x).

Record Destroy : Type := MkDestroy {
  destroy_header : fuse_in_header }.
#[global] Instance Destroy_request : Request Destroy := destroy_header.

Record IoCtl : Type := MkIoCtl {
  ioctl_header : fuse_in_header;
  ioctl_arg : fuse_ioctl_in;
  ioctl_data : list Z }.
#[global] Instance IoCtl_request : Request IoCtl := ioctl_header.
Definition IoCtl_in_data (x : IoCtl) : outcome (list Z) :=
  let n := Z.to_nat (ioctl_in_in_size (ioctl_arg x)) in
  if decide (n ≤ length (ioctl_data x))%nat then Ret (take n (ioctl_data x)) else Panic.
Definition IoCtl_unrestricted (x : IoCtl) : bool :=
  negb (Z.land (ioctl_in_flags (ioctl_arg x)) FUSE_IOCTL_UNRESTRICTED =? 0).
Definition IoCtl_file_handle (x : IoCtl) : FileHandle := MkFileHandle (ioctl_in_fh (ioctl_arg x)).
Definition IoCtl_flags (x : IoCtl) : Z := ioctl_in_flags (ioctl_arg x).
Definition IoCtl_command (x : IoCtl) : Z := ioctl_in_cmd (ioctl_arg x).
Definition IoCtl_out_size (x : IoCtl) : Z := ioctl_in_out_size (ioctl_arg x).

Record Poll : Type := MkPoll {
  poll_header : fuse_in_header;
  poll_arg : fuse_poll_in }.
#[global] Instance Poll_request : Request Poll := poll_header.
Definition Poll_file_handle (x : Poll) : FileHandle := MkFileHandle (poll_in_fh (poll_arg x)).

Record NotifyReply : Type := MkNotifyReply {
  notifyreply_header : fuse_in_header;
  notifyreply_arg : list Z }.
#[global] Instance NotifyReply_request : Request NotifyReply := notifyreply_header.

Record BatchForget : Type := MkBatchForget {
  batchforget_header : fuse_in_header;
  batchforget_arg : fuse_batch_forget_in;
  batchforget_nodes : list fuse_forget_one }.
#[global] Instance BatchForget_request : Request BatchForget := batchforget_header.
Definition BatchForget_nodes (x : BatchForget) : list fuse_forget_one :=
  batchforget_nodes x.

Record FAllocate : Type := MkFAllocate {
  fallocate_header : fuse_in_header;
  fallocate_arg : fuse_fallocate_in }.
#[global] Instance FAllocate_request : Request FAllocate := fallocate_header.
Definition FAllocate_file_handle (x : FAllocate) : FileHandle :=
  MkFileHandle (fallocate_in_fh (fallocate_arg x)).
Definition FAllocate_offset (x : FAllocate) : Z :=
  fallocate_in_offset (fallocate_arg x).
Definition FAllocate_len (x : FAllocate) : Z := fallocate_in_length (fallocate_arg x).
Definition FAllocate_mode (x : FAllocate) : Z := fallocate_in_mode (fallocate_arg x).

Record ReadDirPlus : Type := MkReadDirPlus {
  readdirplus_header : fuse_in_header;
  readdirplus_arg : fuse_read_in }.
#[global] Instance ReadDirPlus_request : Request ReadDirPlus := readdirplus_header.
Definition ReadDirPlus_file_handle (x : ReadDirPlus) : FileHandle :=
  MkFileHandle (read_in_fh (readdirplus_arg x)).
Definition ReadDirPlus_offset (x : ReadDirPlus) : Z :=
  read_in_offset (readdirplus_arg x).
Definition ReadDirPlus_size (x : ReadDirPlus) : Z := read_in_size (readdirplus_arg x).

Record Rename2 : Type := MkRename2 {
  rename2_header : fuse_in_header;
  rename2_arg : fuse_rename2_in;
  rename2_name : Path;
  rename2_newname : Path;
  rename2_old_parent : INodeNo }.
#[global] Instance Rename2_request : Request Rename2 := rename2_header.
Definition Rename2_from (x : Rename2) : FilenameInDir :=
  MkFilenameInDir (rename2_old_parent x) (rename2_name x).
Definition Rename2_to (x : Rename2) : FilenameInDir :=
  MkFilenameInDir (MkINodeNo (rename2_in_newdir (rename2_arg x))) (rename2_newname x).
Definition Rename2_flags (x : Rename2) : Z := rename2_in_flags (rename2_arg x).

Record Lseek : Type := MkLseek {
  lseek_header : fuse_in_header;
  lseek_arg : fuse_lseek_in }.
#[global] Instance Lseek_request : Request Lseek := lseek_header.
Definition Lseek_file_handle (x : Lseek) : FileHandle := MkFileHandle (lseek_in_fh (lseek_arg x)).
Definition Lseek_offset (x : Lseek) : Z := lseek_in_offset (lseek_arg x).
Definition Lseek_whence (x : Lseek) : Z := lseek_in_whence (lseek_arg x).

Record CopyFileRangeFile : Type := MkCopyFileRangeFile {
  inode : INodeNo; file_handle : FileHandle; offset : Z }.

Record CopyFileRange : Type := MkCopyFileRange {
  copyfilerange_header : fuse_in_header;
  copyfilerange_arg : fuse_copy_file_range_in }.
#[global] Instance CopyFileRange_request : Request CopyFileRange := copyfilerange_header.
Definition CopyFileRange_src (x : CopyFileRange) : CopyFileRangeFile :=
  MkCopyFileRangeFile (request_nodeid x)
    (MkFileHandle (copy_file_range_in_fh_in (copyfilerange_arg x)))
    (copy_file_range_in_off_in (copyfilerange_arg x)).
Definition CopyFileRange_dest (x : CopyFileRange) : CopyFileRangeFile :=
  MkCopyFileRangeFile (MkINodeNo (copy_file_range_in_nodeid_out (copyfilerange_arg x)))
    (MkFileHandle (copy_file_range_in_fh_out (copyfilerange_arg x)))
    (copy_file_range_in_off_out (copyfilerange_arg x)).
Definition CopyFileRange_len (x : CopyFileRange) : Z :=
  copy_file_range_in_len (copyfilerange_arg x).
Definition CopyFileRange_flags (x : CopyFileRange) : Z :=
  copy_file_range_in_flags (copyfilerange_arg x).

Record CuseInit : Type := MkCuseInit {
  cuseinit_header : fuse_in_header;
  cuseinit_arg : fuse_init_in }.
#[global] Instance CuseInit_request : Request CuseInit := cuseinit_header.

(** ** [Operation] *)

Inductive Operation : Type :=
  | OpLookup (x : Lookup)
  | OpForget (x : Forget)
  | OpGetAttr (x : GetAttr)
  | OpSetAttr (x : SetAttr)
  | OpReadLink (x : ReadLink)
  | OpSymLink (x : SymLink)
  | OpMkNod (x : MkNod)
  | OpMkDir (x : MkDir)
  | OpUnlink (x : Unlink)
  | OpRmDir (x : RmDir)
  | OpRename (x : Rename)
  | OpLink (x : Link)
  | OpOpen (x : Open)
  | OpRead (x : Read)
  | OpWrite (x : Write)
  | OpStatFs (x : StatFs)
  | OpRelease (x : Release)
  | OpFSync (x : FSync)
  | OpSetXAttr (x : SetXAttr)
  | OpGetXAttr (x : GetXAttr)
  | OpListXAttr (x : ListXAttr)
  | OpRemoveXAttr (x : RemoveXAttr)
  | OpFlush (x : Flush)
  | OpInit (x : Init)
  | OpOpenDir (x : OpenDir)
  | OpReadDir (x : ReadDir)
  | OpReleaseDir (x : ReleaseDir)
  | OpFSyncDir (x : FSyncDir)
  | OpGetLk (x : GetLk)
  | OpSetLk (x : SetLk)
  | OpSetLkW (x : SetLkW)
  | OpAccess (x : Access)
  | OpCreate (x : Create)
  | OpInterrupt (x : Interrupt)
  | OpBMap (x : BMap)
  | OpDestroy (x : Destroy)
  | OpIoCtl (x : IoCtl)
  | OpPoll (x : Poll)
  | OpNotifyReply (x : NotifyReply)
  | OpBatchForget (x : BatchForget)
  | OpFAllocate (x : FAllocate)
  | OpReadDirPlus (x : ReadDirPlus)
  | OpRename2 (x : Rename2)
  | OpLseek (x : Lseek)
  | OpCopyFileRange (x : CopyFileRange)
  | OpCuseInit (x : CuseInit).

(** ** The parser *)

Record AnyRequest : Type := MkAnyRequest {
  any_header : fuse_in_header;
  any_data : slice }.
#[global] Instance AnyRequest_request : Request AnyRequest := any_header.

Section parser.
Context `{L : Libs}.

Definition ok (op : Operation) : argM (option Operation) := mret (Some op).

(** One arm of [parse]: the fields of the request in the order of the literal. *)
Definition parse_arm (header : fuse_in_header) (opcode : fuse_opcode)
    : argM (option Operation) :=
  match opcode with
  | FUSE_LOOKUP =>
      name ←? ArgumentIterator_fetch_str;
      ok (OpLookup (MkLookup header name))
  | FUSE_FORGET =>
      arg ←? ArgumentIterator_fetch fuse_forget_in_layout;
      ok (OpForget (MkForget header arg))
  | FUSE_GETATTR => ok (OpGetAttr (MkGetAttr header))
  | FUSE_SETATTR =>
      arg ←? ArgumentIterator_fetch fuse_setattr_in_layout;
      ok (OpSetAttr (MkSetAttr header arg))
  | FUSE_READLINK => ok (OpReadLink (MkReadLink header))
  | FUSE_SYMLINK =>
      target ←? ArgumentIterator_fetch_str;
      link ←? ArgumentIterator_fetch_str;
      ok (OpSymLink (MkSymLink header target link))
  | FUSE_MKNOD =>
      arg ←? ArgumentIterator_fetch fuse_mknod_in_layout;
      name ←? ArgumentIterator_fetch_str;
      ok (OpMkNod (MkMkNod header arg name))
  | FUSE_MKDIR =>
      arg ←? ArgumentIterator_fetch fuse_mkdir_in_layout;
      name ←? ArgumentIterator_fetch_str;
      ok (OpMkDir (MkMkDir header arg name))
  | FUSE_UNLINK =>
      name ←? ArgumentIterator_fetch_str;
      ok (OpUnlink (MkUnlink header name))
  | FUSE_RMDIR =>
      name ←? ArgumentIterator_fetch_str;
      ok (OpRmDir (MkRmDir header name))
  | FUSE_RENAME =>
      arg ←? ArgumentIterator_fetch fuse_rename_in_layout;
      name ←? ArgumentIterator_fetch_str;
      newname ←? ArgumentIterator_fetch_str;
      ok (OpRename (MkRename header arg name newname))
  | FUSE_LINK =>
      arg ←? ArgumentIterator_fetch fuse_link_in_layout;
      name ←? ArgumentIterator_fetch_str;
      ok (OpLink (MkLink header arg name))
  | FUSE_OPEN =>
      arg ←? ArgumentIterator_fetch fuse_open_in_layout;
      ok (OpOpen (MkOpen header arg))
  | FUSE_READ =>
      arg ←? ArgumentIterator_fetch fuse_read_in_layout;
      ok (OpRead (MkRead header arg))
  | FUSE_WRITE =>
      arg ←? ArgumentIterator_fetch fuse_write_in_layout;
      data ← ArgumentIterator_fetch_all;
      lift (assert_ (Z.of_nat (length data) =? write_in_size arg));;
      ok (OpWrite (MkWrite header arg data))
  | FUSE_STATFS => ok (OpStatFs (MkStatFs header))
  | FUSE_RELEASE =>
      arg ←? ArgumentIterator_fetch fuse_release_in_layout;
      ok (OpRelease (MkRelease header arg))
  | FUSE_FSYNC =>
      arg ←? ArgumentIterator_fetch fuse_fsync_in_layout;
      ok (OpFSync (MkFSync header arg))
  | FUSE_SETXATTR =>
      arg ←? ArgumentIterator_fetch fuse_setxattr_in_layout;
      name ←? ArgumentIterator_fetch_str;
      value ← ArgumentIterator_fetch_all;
      lift (assert_ (Z.of_nat (length value) =? setxattr_in_size arg));;
      ok (OpSetXAttr (MkSetXAttr header arg name value))
  | FUSE_GETXATTR =>
      arg ←? ArgumentIterator_fetch fuse_getxattr_in_layout;
      name ←? ArgumentIterator_fetch_str;
      ok (OpGetXAttr (MkGetXAttr header arg name))
  | FUSE_LISTXATTR =>
      arg ←? ArgumentIterator_fetch fuse_getxattr_in_layout;
      ok (OpListXAttr (MkListXAttr header arg))
  | FUSE_REMOVEXATTR =>
      name ←? ArgumentIterator_fetch_str;
      ok (OpRemoveXAttr (MkRemoveXAttr header name))
  | FUSE_FLUSH =>
      arg ←? ArgumentIterator_fetch fuse_flush_in_layout;
      ok (OpFlush (MkFlush header arg))
  | FUSE_INIT =>
      arg ←? ArgumentIterator_fetch fuse_init_in_layout;
      ok (OpInit (MkInit header arg))
  | FUSE_OPENDIR =>
      arg ←? ArgumentIterator_fetch fuse_open_in_layout;
      ok (OpOpenDir (MkOpenDir header arg))
  | FUSE_READDIR =>
      arg ←? ArgumentIterator_fetch fuse_read_in_layout;
      ok (OpReadDir (MkReadDir header arg))
  | FUSE_RELEASEDIR =>
      arg ←? ArgumentIterator_fetch fuse_release_in_layout;
      ok (OpReleaseDir (MkReleaseDir header arg))
  | FUSE_FSYNCDIR =>
      arg ←? ArgumentIterator_fetch fuse_fsync_in_layout;
      ok (OpFSyncDir (MkFSyncDir header arg))
  | FUSE_GETLK =>
      arg ←? ArgumentIterator_fetch fuse_lk_in_layout;
      ok (OpGetLk (MkGetLk header arg))
  | FUSE_SETLK =>
      arg ←? ArgumentIterator_fetch fuse_lk_in_layout;
      ok (OpSetLk (MkSetLk header arg))
  | FUSE_SETLKW =>
      arg ←? ArgumentIterator_fetch fuse_lk_in_layout;
      ok (OpSetLkW (MkSetLkW header arg))
  | FUSE_ACCESS =>
      arg ←? ArgumentIterator_fetch fuse_access_in_layout;
      ok (OpAccess (MkAccess header arg))
  | FUSE_CREATE =>
      arg ←? ArgumentIterator_fetch fuse_create_in_layout;
      name ←? ArgumentIterator_fetch_str;
      ok (OpCreate (MkCreate header arg name))
  | FUSE_INTERRUPT =>
      arg ←? ArgumentIterator_fetch fuse_interrupt_in_layout;
      ok (OpInterrupt (MkInterrupt header arg))
  | FUSE_BMAP =>
      arg ←? ArgumentIterator_fetch fuse_bmap_in_layout;
      ok (OpBMap (MkBMap header arg))
  | FUSE_DESTROY => ok (OpDestroy (MkDestroy header))
  | FUSE_IOCTL =>
      arg ←? ArgumentIterator_fetch fuse_ioctl_in_layout;
      data ← ArgumentIterator_fetch_all;
      ok (OpIoCtl (MkIoCtl header arg data))
  | FUSE_POLL =>
      arg ←? ArgumentIterator_fetch fuse_poll_in_layout;
      ok (OpPoll (MkPoll header arg))
  | FUSE_NOTIFY_REPLY =>
      arg ← ArgumentIterator_fetch_all;
      ok (OpNotifyReply (MkNotifyReply header arg))
  | FUSE_BATCH_FORGET =>
      arg ←? ArgumentIterator_fetch fuse_batch_forget_in_layout;
      nodes ←? ArgumentIterator_fetch_slice fuse_forget_one_layout
        (batch_forget_in_count arg);
      ok (OpBatchForget (MkBatchForget header arg nodes))
  | FUSE_FALLOCATE =>
      arg ←? ArgumentIterator_fetch fuse_fallocate_in_layout;
      ok (OpFAllocate (MkFAllocate header arg))
  | FUSE_READDIRPLUS =>
      arg ←? ArgumentIterator_fetch fuse_read_in_layout;
      ok (OpReadDirPlus (MkReadDirPlus header arg))
  | FUSE_RENAME2 =>
      arg ←? ArgumentIterator_fetch fuse_rename2_in_layout;
      name ←? ArgumentIterator_fetch_str;
      newname ←? ArgumentIterator_fetch_str;
      ok (OpRename2 (MkRename2 header arg name newname (MkINodeNo (in_header_nodeid header))))
  | FUSE_LSEEK =>
      arg ←? ArgumentIterator_fetch fuse_lseek_in_layout;
      ok (OpLseek (MkLseek header arg))
  | FUSE_COPY_FILE_RANGE =>
      arg ←? ArgumentIterator_fetch fuse_copy_file_range_in_layout;
      ok (OpCopyFileRange (MkCopyFileRange header arg))
  | CUSE_INIT =>
      arg ←? ArgumentIterator_fetch fuse_init_in_layout;
      ok (OpCuseInit (MkCuseInit header arg))
  end.

Definition parse (header : fuse_in_header) (opcode : fuse_opcode) (data : slice)
    : outcome (option Operation) :=
  fst <$> parse_arm header opcode (ArgumentIterator_new data).

Definition AnyRequest_operation (r : AnyRequest) : outcome (RequestError + Operation) :=
  let n := in_header_opcode (any_header r) in
  match fuse_opcode_try_from n with
  | None => Ret (inl (UnknownOperation n))
  | Some opcode =>
      o ← parse (any_header r) opcode (any_data r);
      Ret (match o with Some op => inr op | None => inl InsufficientData end)
  end.

(** Slicing [data[40..header.len]] panics when the range is not inside. *)
Definition AnyRequest_try_from (data : slice) : outcome (RequestError + AnyRequest) :=
  let data_len := Z.of_nat (length (Argument.data data)) in
  '(o, arg_iter) ← ArgumentIterator_fetch fuse_in_header_layout (ArgumentIterator_new data);
  match o with
  | None => Ret (inl (ShortReadHeader (ArgumentIterator_len arg_iter)))
  | Some header =>
      let len := in_header_len header in
      if decide (data_len < len) then Ret (inl (ShortRead data_len len))
      else
        let start := size_of fuse_in_header_layout in
        if decide (Z.of_nat start ≤ len ≤ data_len) then
          Ret (inr (MkAnyRequest header
            (MkSlice (addr data + Z.of_nat start)
               (take (Z.to_nat len - start) (drop start (Argument.data data))))))
        else Panic
  end.
End parser.
End Ll.

(** ** Forgetting the wrappers *)

Definition erase_error (e : Ll.RequestError) : RequestError :=
  match e with
  | Ll.ShortReadHeader len => ShortReadHeader len
  | Ll.UnknownOperation opcode => UnknownOperation opcode
  | Ll.ShortRead len total => ShortRead len total
  | Ll.InsufficientData => InsufficientData
  end.
Definition erase_any (r : Ll.AnyRequest) : AnyRequest := MkAnyRequest (Ll.any_header r) (Ll.any_data r).
Definition wrap_any (r : AnyRequest) : Ll.AnyRequest := Ll.MkAnyRequest (any_header r) (any_data r).

Definition erase (op : Ll.Operation) : Operation :=
  match op with
  | Ll.OpLookup x => OpLookup (MkLookup (Ll.lookup_header x) (Ll.lookup_name x))
  | Ll.OpForget x => OpForget (MkForget (Ll.forget_header x) (Ll.forget_arg x))
  | Ll.OpGetAttr x => OpGetAttr (MkGetAttr (Ll.getattr_header x))
  | Ll.OpSetAttr x => OpSetAttr (MkSetAttr (Ll.setattr_header x) (Ll.setattr_arg x))
  | Ll.OpReadLink x => OpReadLink (MkReadLink (Ll.readlink_header x))
  | Ll.OpSymLink x => OpSymLink (MkSymLink (Ll.symlink_header x) (Ll.symlink_target x) (Ll.symlink_link x))
  | Ll.OpMkNod x => OpMkNod (MkMkNod (Ll.mknod_header x) (Ll.mknod_arg x) (Ll.mknod_name x))
  | Ll.OpMkDir x => OpMkDir (MkMkDir (Ll.mkdir_header x) (Ll.mkdir_arg x) (Ll.mkdir_name x))
  | Ll.OpUnlink x => OpUnlink (MkUnlink (Ll.unlink_header x) (Ll.unlink_name x))
  | Ll.OpRmDir x => OpRmDir (MkRmDir (Ll.rmdir_header x) (Ll.rmdir_name x))
  | Ll.OpRename x => OpRename (MkRename (Ll.rename_header x) (Ll.rename_arg x) (Ll.rename_name x) (Ll.rename_newname x))
  | Ll.OpLink x => OpLink (MkLink (Ll.link_header x) (Ll.link_arg x) (Ll.link_name x))
  | Ll.OpOpen x => OpOpen (MkOpen (Ll.open_header x) (Ll.open_arg x))
  | Ll.OpRead x => OpRead (MkRead (Ll.read_header x) (Ll.read_arg x))
  | Ll.OpWrite x => OpWrite (MkWrite (Ll.write_header x) (Ll.write_arg x) (Ll.write_data x))
  | Ll.OpStatFs x => OpStatFs (MkStatFs (Ll.statfs_header x))
  | Ll.OpRelease x => OpRelease (MkRelease (Ll.release_header x) (Ll.release_arg x))
  | Ll.OpFSync x => OpFSync (MkFSync (Ll.fsync_header x) (Ll.fsync_arg x))
  | Ll.OpSetXAttr x => OpSetXAttr (MkSetXAttr (Ll.setxattr_header x) (Ll.setxattr_arg x) (Ll.setxattr_name x) (Ll.setxattr_value x))
  | Ll.OpGetXAttr x => OpGetXAttr (MkGetXAttr (Ll.getxattr_header x) (Ll.getxattr_arg x) (Ll.getxattr_name x))
  | Ll.OpListXAttr x => OpListXAttr (MkListXAttr (Ll.listxattr_header x) (Ll.listxattr_arg x))
  | Ll.OpRemoveXAttr x => OpRemoveXAttr (MkRemoveXAttr (Ll.removexattr_header x) (Ll.removexattr_name x))
  | Ll.OpFlush x => OpFlush (MkFlush (Ll.flush_header x) (Ll.flush_arg x))
  | Ll.OpInit x => OpInit (MkInit (Ll.init_header x) (Ll.init_arg x))
  | Ll.OpOpenDir x => OpOpenDir (MkOpenDir (Ll.opendir_header x) (Ll.opendir_arg x))
  | Ll.OpReadDir x => OpReadDir (MkReadDir (Ll.readdir_header x) (Ll.readdir_arg x))
  | Ll.OpReleaseDir x => OpReleaseDir (MkReleaseDir (Ll.releasedir_header x) (Ll.releasedir_arg x))
  | Ll.OpFSyncDir x => OpFSyncDir (MkFSyncDir (Ll.fsyncdir_header x) (Ll.fsyncdir_arg x))
  | Ll.OpGetLk x => OpGetLk (MkGetLk (Ll.getlk_header x) (Ll.getlk_arg x))
  | Ll.OpSetLk x => OpSetLk (MkSetLk (Ll.setlk_header x) (Ll.setlk_arg x))
  | Ll.OpSetLkW x => OpSetLkW (MkSetLkW (Ll.setlkw_header x) (Ll.setlkw_arg x))
  | Ll.OpAccess x => OpAccess (MkAccess (Ll.access_header x) (Ll.access_arg x))
  | Ll.OpCreate x => OpCreate (MkCreate (Ll.create_header x) (Ll.create_arg x) (Ll.create_name x))
  | Ll.OpInterrupt x => OpInterrupt (MkInterrupt (Ll.interrupt_header x) (Ll.interrupt_arg x))
  | Ll.OpBMap x => OpBMap (MkBMap (Ll.bmap_header x) (Ll.bmap_arg x))
  | Ll.OpDestroy x => OpDestroy (MkDestroy (Ll.destroy_header x))
  | Ll.OpIoCtl x => OpIoCtl (MkIoCtl (Ll.ioctl_header x) (Ll.ioctl_arg x) (Ll.ioctl_data x))
  | Ll.OpPoll x => OpPoll (MkPoll (Ll.poll_header x) (Ll.poll_arg x))
  | Ll.OpNotifyReply x => OpNotifyReply (MkNotifyReply (Ll.notifyreply_header x) (Ll.notifyreply_arg x))
  | Ll.OpBatchForget x => OpBatchForget (MkBatchForget (Ll.batchforget_header x) (Ll.batchforget_arg x) (Ll.batchforget_nodes x))
  | Ll.OpFAllocate x => OpFAllocate (MkFAllocate (Ll.fallocate_header x) (Ll.fallocate_arg x))
  | Ll.OpReadDirPlus x => OpReadDirPlus (MkReadDirPlus (Ll.readdirplus_header x) (Ll.readdirplus_arg x))
  | Ll.OpRename2 x => OpRename2 (MkRename2 (Ll.rename2_header x) (Ll.rename2_arg x) (Ll.rename2_name x) (Ll.rename2_newname x) (Ll.inode_no_0 (Ll.rename2_old_parent x)))
  | Ll.OpLseek x => OpLseek (MkLseek (Ll.lseek_header x) (Ll.lseek_arg x))
  | Ll.OpCopyFileRange x => OpCopyFileRange (MkCopyFileRange (Ll.copyfilerange_header x) (Ll.copyfilerange_arg x))
  | Ll.OpCuseInit x => OpCuseInit (MkCuseInit (Ll.cuseinit_header x) (Ll.cuseinit_arg x))
  end.
(** The wrappers put back. *)
Definition wrap_op (op : Operation) : Ll.Operation :=
  match op with
  | OpLookup x => Ll.OpLookup (Ll.MkLookup (lookup_header x) (lookup_name x))
  | OpForget x => Ll.OpForget (Ll.MkForget (forget_header x) (forget_arg x))
  | OpGetAttr x => Ll.OpGetAttr (Ll.MkGetAttr (getattr_header x))
  | OpSetAttr x => Ll.OpSetAttr (Ll.MkSetAttr (setattr_header x) (setattr_arg x))
  | OpReadLink x => Ll.OpReadLink (Ll.MkReadLink (readlink_header x))
  | OpSymLink x => Ll.OpSymLink (Ll.MkSymLink (symlink_header x) (symlink_target x) (symlink_link x))
  | OpMkNod x => Ll.OpMkNod (Ll.MkMkNod (mknod_header x) (mknod_arg x) (mknod_name x))
  | OpMkDir x => Ll.OpMkDir (Ll.MkMkDir (mkdir_header x) (mkdir_arg x) (mkdir_name x))
  | OpUnlink x => Ll.OpUnlink (Ll.MkUnlink (unlink_header x) (unlink_name x))
  | OpRmDir x => Ll.OpRmDir (Ll.MkRmDir (rmdir_header x) (rmdir_name x))
  | OpRename x => Ll.OpRename (Ll.MkRename (rename_header x) (rename_arg x) (rename_name x) (rename_newname x))
  | OpLink x => Ll.OpLink (Ll.MkLink (link_header x) (link_arg x) (link_name x))
  | OpOpen x => Ll.OpOpen (Ll.MkOpen (open_header x) (open_arg x))
  | OpRead x => Ll.OpRead (Ll.MkRead (read_header x) (read_arg x))
  | OpWrite x => Ll.OpWrite (Ll.MkWrite (write_header x) (write_arg x) (write_data x))
  | OpStatFs x => Ll.OpStatFs (Ll.MkStatFs (statfs_header x))
  | OpRelease x => Ll.OpRelease (Ll.MkRelease (release_header x) (release_arg x))
  | OpFSync x => Ll.OpFSync (Ll.MkFSync (fsync_header x) (fsync_arg x))
  | OpSetXAttr x => Ll.OpSetXAttr (Ll.MkSetXAttr (setxattr_header x) (setxattr_arg x) (setxattr_name x) (setxattr_value x))
  | OpGetXAttr x => Ll.OpGetXAttr (Ll.MkGetXAttr (getxattr_header x) (getxattr_arg x) (getxattr_name x))
  | OpListXAttr x => Ll.OpListXAttr (Ll.MkListXAttr (listxattr_header x) (listxattr_arg x))
  | OpRemoveXAttr x => Ll.OpRemoveXAttr (Ll.MkRemoveXAttr (removexattr_header x) (removexattr_name x))
  | OpFlush x => Ll.OpFlush (Ll.MkFlush (flush_header x) (flush_arg x))
  | OpInit x => Ll.OpInit (Ll.MkInit (init_header x) (init_arg x))
  | OpOpenDir x => Ll.OpOpenDir (Ll.MkOpenDir (opendir_header x) (opendir_arg x))
  | OpReadDir x => Ll.OpReadDir (Ll.MkReadDir (readdir_header x) (readdir_arg x))
  | OpReleaseDir x => Ll.OpReleaseDir (Ll.MkReleaseDir (releasedir_header x) (releasedir_arg x))
  | OpFSyncDir x => Ll.OpFSyncDir (Ll.MkFSyncDir (fsyncdir_header x) (fsyncdir_arg x))
  | OpGetLk x => Ll.OpGetLk (Ll.MkGetLk (getlk_header x) (getlk_arg x))
  | OpSetLk x => Ll.OpSetLk (Ll.MkSetLk (setlk_header x) (setlk_arg x))
  | OpSetLkW x => Ll.OpSetLkW (Ll.MkSetLkW (setlkw_header x) (setlkw_arg x))
  | OpAccess x => Ll.OpAccess (Ll.MkAccess (access_header x) (access_arg x))
  | OpCreate x => Ll.OpCreate (Ll.MkCreate (create_header x) (create_arg x) (create_name x))
  | OpInterrupt x => Ll.OpInterrupt (Ll.MkInterrupt (interrupt_header x) (interrupt_arg x))
  | OpBMap x => Ll.OpBMap (Ll.MkBMap (bmap_header x) (bmap_arg x))
  | OpDestroy x => Ll.OpDestroy (Ll.MkDestroy (destroy_header x))
  | OpIoCtl x => Ll.OpIoCtl (Ll.MkIoCtl (ioctl_header x) (ioctl_arg x) (ioctl_data x))
  | OpPoll x => Ll.OpPoll (Ll.MkPoll (poll_header x) (poll_arg x))
  | OpNotifyReply x => Ll.OpNotifyReply (Ll.MkNotifyReply (notifyreply_header x) (notifyreply_arg x))
  | OpBatchForget x => Ll.OpBatchForget (Ll.MkBatchForget (batchforget_header x) (batchforget_arg x) (batchforget_nodes x))
  | OpFAllocate x => Ll.OpFAllocate (Ll.MkFAllocate (fallocate_header x) (fallocate_arg x))
  | OpReadDirPlus x => Ll.OpReadDirPlus (Ll.MkReadDirPlus (readdirplus_header x) (readdirplus_arg x))
  | OpRename2 x => Ll.OpRename2 (Ll.MkRename2 (rename2_header x) (rename2_arg x) (rename2_name x) (rename2_newname x) (Ll.MkINodeNo (rename2_old_parent x)))
  | OpLseek x => Ll.OpLseek (Ll.MkLseek (lseek_header x) (lseek_arg x))
  | OpCopyFileRange x => Ll.OpCopyFileRange (Ll.MkCopyFileRange (copyfilerange_header x) (copyfilerange_arg x))
  | OpCuseInit x => Ll.OpCuseInit (Ll.MkCuseInit (cuseinit_header x) (cuseinit_arg x))
  end.
Lemma wrap_erase op : wrap_op (erase op) = op.
Proof. destruct op as [[]|[]|[]|[]|[]|[]|[]|[]|[]|[]|[]|[]|[]|[]|[]|[]|[]|[]|[]|[]|[]|[]|[]|[]|[]|[]|[]|[]|[]|[]|[]|[]|[]|[]|[]|[]|[]|[]|[]|[]|[]|[]|[???? []]|[]|[]|[]]; done. Qed.
#[export] Instance erase_inj : Inj (=) (=) erase.
Proof. intros x y Hxy. by rewrite <-(wrap_erase x), <-(wrap_erase y), Hxy. Qed.

Definition both {E E' A A'} (f : E → E') (g : A → A') (r : E + A) : E' + A' :=
  match r with inl e => inl (f e) | inr a => inr (g a) end.

Lemma parse_arm_erase `{L : Libs} h o it :
  fmap (M := outcome) (prod_map (option_map erase) id) (Ll.parse_arm h o it) = parse_arm h o it.
Proof.
  unfold Ll.parse_arm, parse_arm, Ll.ok, ok, question, mbind, stateM_bind, mret, stateM_ret, lift.
  destruct o; repeat first
    [ reflexivity
    | match goal with
      | |- context [match ArgumentIterator_fetch ?l ?i with _ => _ end] =>
          destruct (ArgumentIterator_fetch l i) as [[[]]| |]
      | |- context [match ArgumentIterator_fetch_str ?i with _ => _ end] =>
          destruct (ArgumentIterator_fetch_str i) as [[[]]| |]
      | |- context [match ArgumentIterator_fetch_all ?i with _ => _ end] =>
          destruct (ArgumentIterator_fetch_all i) as [[]| |]
      | |- context [match ArgumentIterator_fetch_slice ?l ?n ?i with _ => _ end] =>
          destruct (ArgumentIterator_fetch_slice l n i) as [[[]]| |]
      | |- context [assert_ ?b] => destruct (assert_ b)
      | _ => progress cbn
      end ].
Qed.

Lemma operation_erase `{L : Libs} r :
  fmap (M := outcome) (both erase_error erase) (Ll.AnyRequest_operation r) = AnyRequest_operation (erase_any r).
Proof.
  unfold Ll.AnyRequest_operation, AnyRequest_operation, Ll.parse, parse. destruct r as [h d]; cbn.
  destruct (fuse_opcode_try_from _) as [o|]; [|done]. rewrite <-parse_arm_erase.
  by destruct (Ll.parse_arm h o d) as [[[op|] it]| |].
Qed.

Lemma try_from_erase `{L : Libs} s :
  fmap (M := outcome) (both erase_error erase_any) (Ll.AnyRequest_try_from s) = AnyRequest_try_from s.
Proof.
  unfold Ll.AnyRequest_try_from, AnyRequest_try_from.
  destruct (ArgumentIterator_fetch _ _) as [[[h|] it]| |]; [|done..]. cbn.
  by repeat case_decide.
Qed.

(** The copy of fuser and uring_fuse read any bytes of the device the same way: the
    same error, the same panic, or the same request. *)
Theorem fuser_decodes_same `{L : Libs} s :
  (r ← Ll.AnyRequest_try_from s;
   match r with
   | inl e => Ret (inl (erase_error e))
   | inr r => op ← Ll.AnyRequest_operation r; Ret (inr (erase_any r, both erase_error erase op))
   end)
  = (r ← AnyRequest_try_from s;
     match r with
     | inl e => Ret (inl e)
     | inr r => op ← AnyRequest_operation r; Ret (inr (r, op))
     end).
Proof.
  rewrite <-try_from_erase. destruct (Ll.AnyRequest_try_from s) as [[e|r]| |]; [done| |done..]. cbn.
  rewrite <-operation_erase. by destruct (Ll.AnyRequest_operation r) as [op| |].
Qed.

(** The one accessor in which they differ: where a hard link goes.  The copy answers
    the directory of the request's header, uring_fuse the file linked to. *)
Theorem Link_dest_differs x :
  Ll.inode_no_0 (Ll.dir (Ll.Link_dest x)) = in_header_nodeid (Ll.link_header x) ∧
  dir (Link_dest (MkLink (Ll.link_header x) (Ll.link_arg x) (Ll.link_name x)))
    = link_in_oldnodeid (Ll.link_arg x) ∧
  name (Link_dest (MkLink (Ll.link_header x) (Ll.link_arg x) (Ll.link_name x))) = Ll.name (Ll.Link_dest x).
Proof. done. Qed.
