(* ===== verification/FuserReply.v ===== *)
(** * FuserReply: the replies of the copy of fuser ([fuser/ll/reply.rs], [fuser/reply.rs])

    The responses and the typed reply objects of the copy, with its wrapped ids, in the
    module [LlReply].  The data types without wrapped ids ([FileAttr], [Attr],
    [EntListBuf], [Response]) have the same declarations in both and are those of
    Response.v; the functions are those of the copy.

    [fuser_replies_same]: whatever a file system answers, the copy puts the same message
    on the channel as uring_fuse, so the kernel understands it ([fuser_reply_understood]). *)

From S2P Require Import Prelude Wire KernelInterface Time KernelConfig Operation Response Reply FuserRequest.
From stdpp Require Import vector.

Local Open Scope Z_scope.

Module LlReply.

(** [ll/mod.rs]. *)
Record Generation : Type := MkGeneration { generation_0 : Z }.

Record ReplyRaw : Type := MkReplyRaw { reply_unique : Ll.RequestId; sender : bool }.

Definition ReplyRaw_new (unique : Z) : ReplyRaw := MkReplyRaw (Ll.MkRequestId unique) true.

(** The types that hold nothing but a [ReplyRaw]; [Reply::new] makes it. *)
Definition ReplyEntry : Type := ReplyRaw.
Definition ReplyAttr : Type := ReplyRaw.
Definition ReplyData : Type := ReplyRaw.
Definition ReplyEmpty : Type := ReplyRaw.
Definition ReplyOpen : Type := ReplyRaw.
Definition ReplyWrite : Type := ReplyRaw.
Definition ReplyStatfs : Type := ReplyRaw.
Definition ReplyCreate : Type := ReplyRaw.
Definition ReplyLock : Type := ReplyRaw.
Definition ReplyBmap : Type := ReplyRaw.
Definition ReplyIoctl : Type := ReplyRaw.
Definition ReplyXattr : Type := ReplyRaw.
Definition ReplyLseek : Type := ReplyRaw.

Record ReplyDirectory : Type := MkReplyDirectory { dir_reply : ReplyRaw; dir_data : EntListBuf }.
Record ReplyDirectoryPlus : Type :=
  MkReplyDirectoryPlus { dirplus_reply : ReplyRaw; dirplus_buf : EntListBuf }.

Section replies.
Context `{C : Libc, B : Build}.

Definition time_from_system_time (system_time : SystemTime) : outcome (Z * Z) :=
  match duration_since system_time UNIX_EPOCH with
  | inl duration => Ret (to_signed 64 (as_secs duration), subsec_nanos duration)
  | inr before_epoch_error =>
      secs ← i64_neg (to_signed 64 (as_secs before_epoch_error));
      Ret (secs, subsec_nanos before_epoch_error)
  end.

Definition mode_from_kind_and_perm (kind : FileType) (perm : Z) : Z :=
  Z.lor (S_IF kind) perm.

Definition fuse_attr_from_attr (attr : FileAttr) : outcome fuse_attr :=
  '(atime_secs, atime_nanos) ← time_from_system_time (attr_atime' attr);
  '(mtime_secs, mtime_nanos) ← time_from_system_time (attr_mtime' attr);
  '(ctime_secs, ctime_nanos) ← time_from_system_time (attr_ctime' attr);
  Ret {|
    attr_ino := attr_ino' attr;
    attr_size := attr_size' attr;
    attr_blocks := attr_blocks' attr;
    attr_atime := atime_secs;
    attr_mtime := mtime_secs;
    attr_ctime := ctime_secs;
    attr_atimensec := atime_nanos;
    attr_mtimensec := mtime_nanos;
    attr_ctimensec := ctime_nanos;
    attr_mode := mode_from_kind_and_perm (attr_kind attr) (attr_perm attr);
    attr_nlink := attr_nlink' attr;
    attr_uid := attr_uid' attr;
    attr_gid := attr_gid' attr;
    attr_rdev := attr_rdev' attr;
    attr_blksize := attr_blksize' attr;
    attr_padding := 0 |}.

(** [impl From<&FileAttr> for Attr]. *)
Definition Attr_from (attr : FileAttr) : outcome Attr :=
  MkAttr <$> fuse_attr_from_attr attr.

Definition EntListBuf_new (max_size : Z) : EntListBuf := MkEntListBuf max_size [].

(** Lengths are [usize]; those of two slices and 7 do not overflow it. *)
Definition EntListBuf_push (ent0 ent1 : list Z) (b : EntListBuf) : outcome (bool * EntListBuf) :=
  let entlen := Z.of_nat (length ent0) + Z.of_nat (length ent1) in
  let entsize := Z.ldiff (entlen + 8 - 1) (8 - 1) in
  if decide (Z.of_nat (length (buf b)) + entsize > max_size b) then Ret (true, b)
  else
    let padlen := entsize - entlen in
    if decide (padlen ≤ 8) then
      Ret (false, MkEntListBuf (max_size b)
        (buf b ++ ent0 ++ ent1 ++ replicate (Z.to_nat padlen) 0))
    else Panic.

Record DirEntOffset : Type := MkDirEntOffset { dirent_offset_0 : Z }.
Record DirEntry : Type := MkDirEntry {
  dirent_entry_ino : Ll.INodeNo; dirent_entry_offset : DirEntOffset; dirent_entry_kind : FileType;
  dirent_entry_name : Path }.

(** [try_into().expect("Name too long")]. *)
Definition name_len (name : Path) : outcome Z :=
  if decide (Z.of_nat (length name) < 2 ^ 32) then Ret (Z.of_nat (length name)) else Panic.

Definition DirEntList_new (max_size : Z) : EntListBuf := EntListBuf_new max_size.

Definition DirEntList_push (ent : DirEntry) (l : EntListBuf)
    : outcome (bool * EntListBuf) :=
  let name := dirent_entry_name ent in
  namelen ← name_len name;
  let header := {|
    dirent_ino := Ll.inode_no_0 (dirent_entry_ino ent);
    dirent_off := dirent_offset_0 (dirent_entry_offset ent);
    dirent_namelen := namelen;
    dirent_typ := Z.shiftr (mode_from_kind_and_perm (dirent_entry_kind ent) 0) 12 |} in
  EntListBuf_push (encode fuse_dirent_layout header) name l.

Record DirEntryPlus : Type := MkDirEntryPlus {
  plus_ino : Ll.INodeNo; plus_generation : Generation; plus_offset : DirEntOffset; plus_name : Path;
  plus_entry_valid : Duration; plus_attr : Attr; plus_attr_valid : Duration }.

Definition DirEntPlusList_new (max_size : Z) : EntListBuf := EntListBuf_new max_size.

Definition DirEntPlusList_push (x : DirEntryPlus) (l : EntListBuf)
    : outcome (bool * EntListBuf) :=
  let name := plus_name x in
  let attr := the_attr (plus_attr x) in
  namelen ← name_len name;
  let header := {|
    direntplus_entry_out := {|
      entry_out_nodeid := attr_ino attr;
      entry_out_generation := generation_0 (plus_generation x);
      entry_out_entry_valid := as_secs (plus_entry_valid x);
      entry_out_attr_valid := as_secs (plus_attr_valid x);
      entry_out_entry_valid_nsec := subsec_nanos (plus_entry_valid x);
      entry_out_attr_valid_nsec := subsec_nanos (plus_attr_valid x);
      entry_out_attr := attr |};
    direntplus_dirent := {|
      dirent_ino := attr_ino attr;
      dirent_off := dirent_offset_0 (plus_offset x);
      dirent_namelen := namelen;
      dirent_typ := Z.shiftr (attr_mode attr) 12 |} |} in
  EntListBuf_push (encode fuse_direntplus_layout header) name l.

Definition Errno_from_i32 (err : Z) : Errno := if decide (err = 0) then EIO else err.

Definition i32_neg (z : Z) : outcome Z :=
  if decide (z = - 2 ^ 31) then if debug_assertions then Panic else Ret z else Ret (- z).

Definition Response_datalen (r : Response) : Z :=
  match r with
  | Response_Error _ => 0
  | Response_Data v => Z.of_nat (length v)
  | Response_Slice d => Z.of_nat (length d)
  end.

(** The io vector handed to the callback. *)
Definition Response_with_iovec (r : Response) (unique : Ll.RequestId) : outcome (list (list Z)) :=
  error ← match r with Response_Error errno => i32_neg errno | _ => Ret 0 end;
  let len := Z.of_nat (size_of fuse_out_header_layout) + Response_datalen r in
  len ← (if decide (len < 2 ^ 32) then Ret len else Panic);
  let header := Mk_fuse_out_header len error (Ll.request_id_0 unique) in
  Ret (encode fuse_out_header_layout header ::
       match r with
       | Response_Error _ => []
       | Response_Data d => [d]
       | Response_Slice d => [d]
       end).

Definition Response_new_empty : Response := Response_Error 0.
Definition Response_new_error (error : Errno) : Response := Response_Error error.
Definition Response_new_data (data : list Z) : Response := Response_Data data.
Definition Response_new_slice (data : list Z) : Response := Response_Slice data.
Definition Response_from_struct {A} (c : codec A) (data : A) : Response :=
  Response_Data (encode c data).

Definition Response_new_entry (ino : Ll.INodeNo) (generation : Generation) (attr : Attr)
    (attr_ttl entry_ttl : Duration) : Response :=
  Response_from_struct fuse_entry_out_layout {|
    entry_out_nodeid := Ll.inode_no_0 ino;
    entry_out_generation := generation_0 generation;
    entry_out_entry_valid := as_secs entry_ttl;
    entry_out_attr_valid := as_secs attr_ttl;
    entry_out_entry_valid_nsec := subsec_nanos entry_ttl;
    entry_out_attr_valid_nsec := subsec_nanos attr_ttl;
    entry_out_attr := the_attr attr |}.
Definition Response_new_attr (ttl : Duration) (attr : Attr) : Response :=
  Response_from_struct fuse_attr_out_layout {|
    attr_out_attr_valid := as_secs ttl;
    attr_out_attr_valid_nsec := subsec_nanos ttl;
    attr_out_dummy := 0;
    attr_out_attr := the_attr attr |}.
Definition Response_new_open (fh : Ll.FileHandle) (flags : Z) : Response :=
  Response_from_struct fuse_open_out_layout (Mk_fuse_open_out (Ll.file_handle_0 fh) flags 0).
Definition Response_new_lock (lock : Ll.Lock) : Response :=
  Response_from_struct fuse_lk_out_layout (Mk_fuse_lk_out
    (Mk_fuse_file_lock (Ll.lock_range lock).1 (Ll.lock_range lock).2 (Ll.lock_typ lock) (Ll.lock_pid lock))).
Definition Response_new_bmap (block : Z) : Response :=
  Response_from_struct fuse_bmap_out_layout (Mk_fuse_bmap_out block).
Definition Response_new_write (written : Z) : Response :=
  Response_from_struct fuse_write_out_layout (Mk_fuse_write_out written 0).
Definition Response_new_statfs (blocks bfree bavail files ffree bsize namelen frsize : Z)
    : Response :=
  Response_from_struct fuse_statfs_out_layout (Mk_fuse_statfs_out
    (Mk_fuse_kstatfs blocks bfree bavail files ffree bsize namelen frsize 0
       (vreplicate 6 0))).
Definition Response_new_create (ttl : Duration) (attr : Attr)
    (generation : Generation) (fh : Ll.FileHandle) (flags : Z) : Response :=
  Response_from_struct fuse_create_out_layout (Mk_fuse_create_out
    {| entry_out_nodeid := attr_ino (the_attr attr);
       entry_out_generation := generation_0 generation;
       entry_out_entry_valid := as_secs ttl;
       entry_out_attr_valid := as_secs ttl;
       entry_out_entry_valid_nsec := subsec_nanos ttl;
       entry_out_attr_valid_nsec := subsec_nanos ttl;
       entry_out_attr := the_attr attr |}
    (Mk_fuse_open_out (Ll.file_handle_0 fh) flags 0)).
Definition Response_new_ioctl (result : Z) (data : list (list Z)) : Response :=
  let r := Mk_fuse_ioctl_out result 0 1 (if decide (data = []) then 0 else 1) in
  Response_Data (encode fuse_ioctl_out_layout r ++ concat data).
Definition Response_new_directory (list : EntListBuf) : outcome Response :=
  assert_ (Z.of_nat (length (buf list)) <=? max_size list);;
  Ret (Response_Data (buf list)).
Definition Response_new_xattr_size (size : Z) : Response :=
  Response_from_struct fuse_getxattr_out_layout (Mk_fuse_getxattr_out size 0).
Definition Response_new_lseek (offset : Z) : Response :=
  Response_from_struct fuse_lseek_out_layout (Mk_fuse_lseek_out offset).

(** [From<DirEntList> for Response], [From<DirEntPlusList> for Response]. *)
Definition Response_from_DirEntList (l : EntListBuf) : outcome Response :=
  assert_ (Z.of_nat (length (buf l)) <=? max_size l);; Response_new_directory l.
Definition Response_from_DirEntPlusList (l : EntListBuf) : outcome Response :=
  assert_ (Z.of_nat (length (buf l)) <=? max_size l);; Response_new_directory l.

(** [Init::reply], [Destroy::reply] of ll/request.rs. *)
Definition Init_reply (x : Ll.Init) (config : KernelConfig) : outcome Response :=
  pages ← KernelConfig_max_pages page_size config;
  let init := {|
    init_out_major := FUSE_KERNEL_VERSION;
    init_out_minor := FUSE_KERNEL_MINOR_VERSION;
    init_out_max_readahead := max_readahead config;
    init_out_flags := Z.land (Ll.Init_capabilities x) (requested config);
    init_out_max_background := max_background config;
    init_out_congestion_threshold := KernelConfig_congestion_threshold config;
    init_out_max_write := max_write config;
    init_out_time_gran := wrap 32 (Duration_as_nanos (time_gran config));
    init_out_max_pages := pages;
    init_out_unused2 := 0;
    init_out_reserved := vreplicate 8 0 |} in
  Ret (Response_new_data (encode fuse_init_out_layout init)).
Definition Destroy_reply (x : Ll.Destroy) : Response := Response_new_empty.

(** ** Reply objects *)

(** The reply with its sender taken; a failure of the channel is only logged. *)
Definition ReplyRaw_send_ll_mut (r : ReplyRaw) (response : Response) : sentM ReplyRaw :=
  lift (assert_ (sender r));;
  iov ← lift (Response_with_iovec response (reply_unique r));
  modify (λ sent, sent ++ [iov]);;
  mret (MkReplyRaw (reply_unique r) false).

Definition ReplyRaw_drop (r : ReplyRaw) : sentM unit :=
  if sender r then ReplyRaw_send_ll_mut r (Response_new_error EIO);; mret tt else mret tt.

(** [send_ll] and [error] consume the reply, which is dropped when they
    return. *)
Definition ReplyRaw_send_ll (r : ReplyRaw) (response : Response) : sentM unit :=
  r ← ReplyRaw_send_ll_mut r response; ReplyRaw_drop r.

(** [assert_ne!] unwinds through [self], whose drop runs before the panic goes
    on: [true] is a panic. *)
Definition ReplyRaw_error (r : ReplyRaw) (err : Z) : sentM bool :=
  if decide (err = 0) then ReplyRaw_drop r;; mret true
  else ReplyRaw_send_ll r (Response_new_error (Errno_from_i32 err));; mret false.

(** A panic while the response is built ends the model; in the program it also
    drops the reply. *)
Definition ReplyEntry_entry (self : ReplyEntry) (ttl : Duration) (attr : FileAttr) (generation : Z)
    : sentM unit :=
  a ← lift (Attr_from attr);
  ReplyRaw_send_ll self (Response_new_entry (Ll.MkINodeNo (attr_ino' attr)) (MkGeneration generation) a ttl ttl).
Definition ReplyAttr_attr (self : ReplyAttr) (ttl : Duration) (attr : FileAttr) : sentM unit :=
  a ← lift (Attr_from attr); ReplyRaw_send_ll self (Response_new_attr ttl a).
Definition ReplyData_data (self : ReplyData) (data : list Z) : sentM unit :=
  ReplyRaw_send_ll self (Response_new_slice data).
Definition ReplyEmpty_ok (self : ReplyEmpty) : sentM unit :=
  ReplyRaw_send_ll self Response_new_empty.
Definition ReplyOpen_opened (self : ReplyOpen) (fh flags : Z) : sentM unit :=
  ReplyRaw_send_ll self (Response_new_open (Ll.MkFileHandle fh) flags).
Definition ReplyWrite_written (self : ReplyWrite) (size : Z) : sentM unit :=
  ReplyRaw_send_ll self (Response_new_write size).
Definition ReplyStatfs_statfs (self : ReplyStatfs)
    (blocks bfree bavail files ffree bsize namelen frsize : Z) : sentM unit :=
  ReplyRaw_send_ll self
    (Response_new_statfs blocks bfree bavail files ffree bsize namelen frsize).
Definition ReplyCreate_created (self : ReplyCreate) (ttl : Duration) (attr : FileAttr)
    (generation fh flags : Z) : sentM unit :=
  a ← lift (Attr_from attr);
  ReplyRaw_send_ll self (Response_new_create ttl a (MkGeneration generation) (Ll.MkFileHandle fh) flags).
Definition ReplyLock_locked (self : ReplyLock) (start end' typ pid : Z) : sentM unit :=
  ReplyRaw_send_ll self (Response_new_lock (Ll.MkLock (start, end') typ pid)).
Definition ReplyBmap_bmap (self : ReplyBmap) (block : Z) : sentM unit :=
  ReplyRaw_send_ll self (Response_new_bmap block).
Definition ReplyIoctl_ioctl (self : ReplyIoctl) (result : Z) (data : list Z) : sentM unit :=
  ReplyRaw_send_ll self (Response_new_ioctl result [data]).
Definition ReplyXattr_size (self : ReplyXattr) (size : Z) : sentM unit :=
  ReplyRaw_send_ll self (Response_new_xattr_size size).
Definition ReplyXattr_data (self : ReplyXattr) (data : list Z) : sentM unit :=
  ReplyRaw_send_ll self (Response_new_data data).
Definition ReplyLseek_offset (self : ReplyLseek) (offset : Z) : sentM unit :=
  ReplyRaw_send_ll self (Response_new_lseek offset).
(** [error] of every type. *)
Definition Reply_error (self : ReplyRaw) (err : Z) : sentM bool := ReplyRaw_error self err.

Definition ReplyDirectory_new (unique size : Z) : ReplyDirectory :=
  MkReplyDirectory (ReplyRaw_new unique) (DirEntList_new size).
Definition ReplyDirectory_add (self : ReplyDirectory) (ino offset : Z) (kind : FileType) (name : OsStr)
    : outcome (bool * ReplyDirectory) :=
  '(full, data) ← DirEntList_push (MkDirEntry (Ll.MkINodeNo ino) (MkDirEntOffset offset) kind name) (dir_data self);
  Ret (full, MkReplyDirectory (dir_reply self) data).
Definition ReplyDirectory_ok (self : ReplyDirectory) : sentM unit :=
  response ← lift (Response_from_DirEntList (dir_data self));
  ReplyRaw_send_ll (dir_reply self) response.

Definition ReplyDirectoryPlus_new (unique size : Z) : ReplyDirectoryPlus :=
  MkReplyDirectoryPlus (ReplyRaw_new unique) (DirEntPlusList_new size).
Definition ReplyDirectoryPlus_add (self : ReplyDirectoryPlus) (ino offset : Z) (name : OsStr)
    (ttl : Duration) (attr : FileAttr) (generation : Z) : outcome (bool * ReplyDirectoryPlus) :=
  a ← Attr_from attr;
  '(full, b) ← DirEntPlusList_push (MkDirEntryPlus (Ll.MkINodeNo ino) (MkGeneration generation) (MkDirEntOffset offset) name ttl a ttl)
                 (dirplus_buf self);
  Ret (full, MkReplyDirectoryPlus (dirplus_reply self) b).
Definition ReplyDirectoryPlus_ok (self : ReplyDirectoryPlus) : sentM unit :=
  response ← lift (Response_from_DirEntPlusList (dirplus_buf self));
  ReplyRaw_send_ll (dirplus_reply self) response.

(** The method of the reply object that gives the answer; [true] is a panic. *)
Definition send_answer (a : Answer) (r : ReplyRaw) : sentM bool :=
  match a with
  | AEntry ttl attr generation => ReplyEntry_entry r ttl attr generation;; mret false
  | AAttr ttl attr => ReplyAttr_attr r ttl attr;; mret false
  | AData data => ReplyData_data r data;; mret false
  | AEmpty => ReplyEmpty_ok r;; mret false
  | AOpened fh flags => ReplyOpen_opened r fh flags;; mret false
  | AWritten n => ReplyWrite_written r n;; mret false
  | AStatfs a b c d e f g h => ReplyStatfs_statfs r a b c d e f g h;; mret false
  | ACreated ttl attr generation fh flags =>
      ReplyCreate_created r ttl attr generation fh flags;; mret false
  | ALocked start end' typ pid => ReplyLock_locked r start end' typ pid;; mret false
  | ABmap block => ReplyBmap_bmap r block;; mret false
  | AIoctl result data => ReplyIoctl_ioctl r result data;; mret false
  | ADirectory data => ReplyDirectory_ok (MkReplyDirectory r data);; mret false
  | ADirectoryPlus data => ReplyDirectoryPlus_ok (MkReplyDirectoryPlus r data);; mret false
  | AXattrSize n => ReplyXattr_size r n;; mret false
  | AXattrData data => ReplyXattr_data r data;; mret false
  | ALseek offset => ReplyLseek_offset r offset;; mret false
  | AError err => Reply_error r err
  end.
End replies.
End LlReply.

(** ** The same messages *)

Section same.
Context `{C : Libc, CL : !LibcLaws C, B : Build}.

Lemma send_ll_same unique response sent :
  LlReply.ReplyRaw_send_ll (LlReply.ReplyRaw_new unique) response sent
  = ReplyRaw_send_ll (ReplyRaw_new unique) response sent.
Proof.
  unfold LlReply.ReplyRaw_send_ll, ReplyRaw_send_ll, LlReply.ReplyRaw_send_ll_mut, ReplyRaw_send_ll_mut,
    mbind, stateM_bind, lift.
  cbn [sender LlReply.sender LlReply.ReplyRaw_new ReplyRaw_new reply_unique LlReply.reply_unique assert_].
  change (LlReply.Response_with_iovec response (Ll.MkRequestId unique))
    with (Response_with_iovec response unique).
  by destruct (Response_with_iovec response unique).
Qed.
Lemma drop_same unique sent :
  LlReply.ReplyRaw_drop (LlReply.ReplyRaw_new unique) sent = ReplyRaw_drop (ReplyRaw_new unique) sent.
Proof.
  unfold LlReply.ReplyRaw_drop, ReplyRaw_drop,
    LlReply.ReplyRaw_send_ll_mut, ReplyRaw_send_ll_mut, mbind, stateM_bind, lift.
  cbn [sender LlReply.sender LlReply.ReplyRaw_new ReplyRaw_new reply_unique LlReply.reply_unique assert_].
  change (LlReply.Response_with_iovec (LlReply.Response_new_error EIO) (Ll.MkRequestId unique))
    with (Response_with_iovec (Response_new_error EIO) unique).
  by destruct (Response_with_iovec (Response_new_error EIO) unique).
Qed.
Lemma error_same unique err sent :
  LlReply.ReplyRaw_error (LlReply.ReplyRaw_new unique) err sent = ReplyRaw_error (ReplyRaw_new unique) err sent.
Proof.
  unfold LlReply.ReplyRaw_error, ReplyRaw_error, mbind, stateM_bind. case_decide.
  - by rewrite drop_same.
  - by rewrite send_ll_same.
Qed.

(** Whatever a file system answers through a reply object, the message on the channel
    is the one uring_fuse puts there. *)
Theorem fuser_replies_same a unique sent :
  LlReply.send_answer a (LlReply.ReplyRaw_new unique) sent = send_answer a (ReplyRaw_new unique) sent.
Proof.
  destruct a; cbn [send_answer LlReply.send_answer]; [..|apply error_same];
    unfold mbind, stateM_bind, lift,
      LlReply.ReplyEntry_entry, ReplyEntry_entry, LlReply.ReplyAttr_attr, ReplyAttr_attr,
      LlReply.ReplyData_data, ReplyData_data, LlReply.ReplyEmpty_ok, ReplyEmpty_ok,
      LlReply.ReplyOpen_opened, ReplyOpen_opened, LlReply.ReplyWrite_written, ReplyWrite_written,
      LlReply.ReplyStatfs_statfs, ReplyStatfs_statfs, LlReply.ReplyCreate_created, ReplyCreate_created,
      LlReply.ReplyLock_locked, ReplyLock_locked, LlReply.ReplyBmap_bmap, ReplyBmap_bmap,
      LlReply.ReplyIoctl_ioctl, ReplyIoctl_ioctl, LlReply.ReplyXattr_size, ReplyXattr_size,
      LlReply.ReplyXattr_data, ReplyXattr_data, LlReply.ReplyLseek_offset, ReplyLseek_offset,
      LlReply.ReplyDirectory_ok, ReplyDirectory_ok, LlReply.ReplyDirectoryPlus_ok, ReplyDirectoryPlus_ok,
      lift, mbind, stateM_bind;
    cbn [dir_data dir_reply dirplus_buf dirplus_reply LlReply.dir_data LlReply.dir_reply
      LlReply.dirplus_buf LlReply.dirplus_reply];
    repeat match goal with
    | |- context [LlReply.Attr_from ?a] => change (LlReply.Attr_from a) with (Attr_from a)
    | |- context [LlReply.Response_from_DirEntList ?l] =>
        change (LlReply.Response_from_DirEntList l) with (Response_from_DirEntList l)
    | |- context [LlReply.Response_from_DirEntPlusList ?l] =>
        change (LlReply.Response_from_DirEntPlusList l) with (Response_from_DirEntPlusList l)
    | |- context [Attr_from ?a] => destruct (Attr_from a) as [?| |]
    | |- context [Response_from_DirEntList ?l] => destruct (Response_from_DirEntList l) as [?| |]
    | |- context [Response_from_DirEntPlusList ?l] => destruct (Response_from_DirEntPlusList l) as [?| |]
    end; cbn [mbind outcome_bind]; rewrite ?send_ll_same; done.
Qed.

(** A page of a directory is filled the same way. *)
Theorem fuser_pages_same ino offset kind name ttl attr generation unique b :
  fmap (M := outcome) (prod_map id LlReply.dir_data)
    (LlReply.ReplyDirectory_add (LlReply.MkReplyDirectory (LlReply.ReplyRaw_new unique) b) ino offset kind name)
  = fmap (M := outcome) (prod_map id dir_data)
      (ReplyDirectory_add (MkReplyDirectory (ReplyRaw_new unique) b) ino offset kind name) ∧
  fmap (M := outcome) (prod_map id LlReply.dirplus_buf)
    (LlReply.ReplyDirectoryPlus_add (LlReply.MkReplyDirectoryPlus (LlReply.ReplyRaw_new unique) b)
       ino offset name ttl attr generation)
  = fmap (M := outcome) (prod_map id dirplus_buf)
      (ReplyDirectoryPlus_add (MkReplyDirectoryPlus (ReplyRaw_new unique) b) ino offset name ttl attr generation).
Proof.
  unfold LlReply.ReplyDirectory_add, ReplyDirectory_add, LlReply.ReplyDirectoryPlus_add, ReplyDirectoryPlus_add.
  cbn [dir_data LlReply.dir_data dirplus_buf LlReply.dirplus_buf]. split.
  - change (LlReply.DirEntList_push _ b) with (DirEntList_push (MkDirEntry ino offset kind name) b).
    by destruct (DirEntList_push _ b) as [[]| |].
  - change (LlReply.Attr_from attr) with (Attr_from attr). destruct (Attr_from attr) as [x| |]; [|done..].
    cbn [mbind outcome_bind].
    change (LlReply.DirEntPlusList_push _ b)
      with (DirEntPlusList_push (MkDirEntryPlus ino generation offset name ttl x ttl) b).
    by destruct (DirEntPlusList_push _ b) as [[]| |].
Qed.

(** So the kernel understands the copy: one message for the request, from which it
    decodes what the file system answered. *)
Theorem fuser_reply_understood a unique sent :
  0 ≤ unique < 2 ^ 64 → answer_fits a →
  delivers (LlReply.send_answer a (LlReply.ReplyRaw_new unique)) unique sent (answer_panics a) (understood a).
Proof.
  intros Hu Ha. destruct (send_answer_delivers a unique sent Hu Ha) as (iov & errno & payload & Hs & Hk).
  exists iov, errno, payload. by rewrite fuser_replies_same.
Qed.
End same.

Lemma fuser_reply_understood_witness :
  ∃ iov, @LlReply.send_answer linux true (AWritten 12) (LlReply.ReplyRaw_new 7) [] = Ret (false, [iov]) ∧
    ∃ payload, kernel_reads (concat iov) = Some (7, 0, payload) ∧
      decode fuse_write_out_layout payload = Mk_fuse_write_out 12 0.
Proof.
  destruct (@fuser_reply_understood linux linux_laws true (AWritten 12) 7 []) as (iov & errno & payload & Hs & Hk & He & Hd);
    [done|done|]. subst. by exists iov; split; [|exists payload].
Defined.
