(* ===== verification/FuserSession.v ===== *)
(** * FuserSession: sessions of the copy of fuser ([fuser/request.rs], [fuser/session.rs])

    The stack the adapter FuseMT and the example file system run on: the configuration
    of [fuser/mod.rs], the dispatch of requests and the loop of a session, in the module
    [Fuser].  The record of a session, the calls of the trait [Filesystem] and the
    setters of the configuration have the same text in both copies and are those of
    Session.v and KernelConfig.v.

    [fuser_refines_uring]: a session of the copy is a session of uring_fuse over the
    same file system, offered the features without the splices that only uring_fuse asks
    for by default; so what holds of every uring_fuse session holds of the copy
    ([fuser_protocol]). *)

From S2P Require Import Prelude Wire KernelInterface Time Argument Operation Request.
From S2P Require Import KernelConfig Response Reply Session FuserRequest FuserReply.

Local Open Scope Z_scope.

Module Fuser.

(** ** [fuser/mod.rs] *)

Definition INIT_FLAGS : Z := Z.lor FUSE_ASYNC_READ FUSE_BIG_WRITES.

Definition default_init_flags (capabilities : Z) : Z :=
  let flags := INIT_FLAGS in
  if negb (Z.land capabilities FUSE_MAX_PAGES =? 0) then Z.lor flags FUSE_MAX_PAGES
  else flags.

Definition KernelConfig_new (capabilities max_readahead : Z) : KernelConfig := {|
  capabilities := capabilities;
  requested := default_init_flags capabilities;
  max_readahead := max_readahead;
  max_max_readahead := max_readahead;
  max_background := 16;
  congestion_threshold := None;
  max_write := MAX_WRITE_SIZE;
  time_gran := MkDuration 0 1 |}.

Class Filesystem (FS : Type) := {
  fs_init : Ll.AnyRequest → KernelConfig → FS → (option Z * KernelConfig) * FS;
  fs_destroy : FS → FS;
  fs_call : Ll.AnyRequest → FsCall → option LlReply.ReplyRaw → FS → FS }.

(** ** [fuser/session.rs], [fuser/request.rs] *)

Definition Session_new {FS} (filesystem : FS) (allow_root allow_other : bool) (euid : Z) : Session FS :=
  MkSession filesystem (if allow_root then RootAndOwner else if allow_other then All else Owner)
    euid 0 0 false false.

Section dispatch.
Context `{L : Libs, C : Libc, B : Build} {FS : Type} `{FSI : Filesystem FS}.

Abbreviation seM := (stateM (Session FS)).
(** [Result<Option<Response>, Errno>]. *)
Abbreviation dispatch_result := (Errno + option Response)%type.

(** The file system is called with a reply object, or (FORGET) without. *)
Definition invoke (r : Ll.AnyRequest) (c : FsCall) : seM dispatch_result :=
  modify (with_filesystem (fs_call r c (Some (LlReply.ReplyRaw_new (Ll.request_id_0 (Ll.request_unique r))))));;
  mret (inr None).
Definition invoke_no_reply (r : Ll.AnyRequest) (c : FsCall) : seM dispatch_result :=
  modify (with_filesystem (fs_call r c None));; mret (inr None).
Definition refuse (errno : Z) : seM dispatch_result := mret (inl errno).

(** [v < Version(7, 6)], the derived lexicographic order. *)
Definition Version_lt (v w : Ll.Version) : bool :=
  (Ll.version_0 v <? Ll.version_0 w) ||
  ((Ll.version_0 v =? Ll.version_0 w) && (Ll.version_1 v <? Ll.version_1 w)).

(** The requests the kernel may issue without the uid of a user. *)
Definition acl_exempt (op : Ll.Operation) : bool :=
  match op with
  | Ll.OpInit _ | Ll.OpDestroy _ | Ll.OpRead _ | Ll.OpReadDir _ | Ll.OpReadDirPlus _ | Ll.OpBatchForget _
  | Ll.OpForget _ | Ll.OpWrite _ | Ll.OpFSync _ | Ll.OpFSyncDir _ | Ll.OpRelease _ | Ll.OpReleaseDir _ => true
  | _ => false
  end.
Definition acl_denies (se : Session FS) (uid : Z) : bool :=
  (bool_decide (allowed se = RootAndOwner) && negb (uid =? session_owner se)
     && negb (uid =? 0)) ||
  (bool_decide (allowed se = Owner) && negb (uid =? session_owner se)).

Definition dispatch_init (r : Ll.AnyRequest) (x : Ll.Init) : seM dispatch_result :=
  let v := Ll.Init_version x in
  if Version_lt v (Ll.MkVersion 7 6) then refuse EPROTO
  else
    modify (with_proto (Ll.Version_major v) (Ll.Version_minor v));;
    let config := KernelConfig_new (Ll.Init_capabilities x) (Ll.Init_max_readahead x) in
    se ← gets id;
    let '((err, config), fs) := fs_init r config (filesystem se) in
    modify (with_filesystem (λ _, fs));;
    match err with
    | Some e => refuse (LlReply.Errno_from_i32 e)
    | None =>
        modify with_initialized;;
        resp ← lift (LlReply.Init_reply x config);
        mret (inr (Some resp))
    end.

(** The arms of the last match, after the checks of the session's state. *)
Definition dispatch_op (r : Ll.AnyRequest) (op : Ll.Operation) : seM dispatch_result :=
  let nodeid := Ll.inode_no_0 (Ll.request_nodeid r) in
  match op with
  | Ll.OpInit x => dispatch_init r x
  | Ll.OpDestroy x =>
      modify (with_filesystem fs_destroy);; modify with_destroyed;;
      mret (inr (Some (LlReply.Destroy_reply x)))
  | Ll.OpInterrupt _ => refuse ENOSYS
  | Ll.OpLookup x => invoke r (Fs_lookup nodeid (Ll.Lookup_name x))
  | Ll.OpForget x => invoke_no_reply r (Fs_forget nodeid (Ll.Forget_nlookup x))
  | Ll.OpGetAttr _ => invoke r (Fs_getattr nodeid)
  | Ll.OpSetAttr x =>
      atime ← lift (Ll.SetAttr_atime x);
      mtime ← lift (Ll.SetAttr_mtime x);
      ctime ← lift (Ll.SetAttr_ctime x);
      invoke r (Fs_setattr nodeid (Ll.SetAttr_mode x) (Ll.SetAttr_uid x) (Ll.SetAttr_gid x)
        (Ll.SetAttr_size x) atime mtime ctime (Ll.file_handle_0 <$> Ll.SetAttr_file_handle x) (Ll.SetAttr_crtime x)
        (Ll.SetAttr_chgtime x) (Ll.SetAttr_bkuptime x) (Ll.SetAttr_flags x))
  | Ll.OpReadLink _ => invoke r (Fs_readlink nodeid)
  | Ll.OpMkNod x =>
      invoke r (Fs_mknod nodeid (Ll.MkNod_name x) (Ll.MkNod_mode x) (Ll.MkNod_umask x) (Ll.MkNod_rdev x))
  | Ll.OpMkDir x => invoke r (Fs_mkdir nodeid (Ll.MkDir_name x) (Ll.MkDir_mode x) (Ll.MkDir_umask x))
  | Ll.OpUnlink x => invoke r (Fs_unlink nodeid (Ll.Unlink_name x))
  | Ll.OpRmDir x => invoke r (Fs_rmdir nodeid (Ll.RmDir_name x))
  | Ll.OpSymLink x => invoke r (Fs_symlink nodeid (Ll.SymLink_target x) (Ll.SymLink_link x))
  | Ll.OpRename x =>
      invoke r (Fs_rename nodeid (Ll.name (Ll.Rename_src x)) (Ll.inode_no_0 (Ll.dir (Ll.Rename_dest x)))
        (Ll.name (Ll.Rename_dest x)) 0)
  | Ll.OpLink x => invoke r (Fs_link (Ll.inode_no_0 (Ll.Link_inode_no x)) nodeid (Ll.name (Ll.Link_dest x)))
  | Ll.OpOpen x => invoke r (Fs_open nodeid (Ll.Open_flags x))
  | Ll.OpRead x =>
      invoke r (Fs_read nodeid (Ll.file_handle_0 (Ll.Read_file_handle x)) (Ll.Read_offset x) (Ll.Read_size x)
        (Ll.Read_flags x) (Ll.lock_owner_0 <$> Ll.Read_lock_owner x))
  | Ll.OpWrite x =>
      invoke r (Fs_write nodeid (Ll.file_handle_0 (Ll.Write_file_handle x)) (Ll.Write_offset x) (Ll.Write_data x)
        (Ll.Write_write_flags x) (Ll.Write_flags x) (Ll.lock_owner_0 <$> Ll.Write_lock_owner x))
  | Ll.OpFlush x =>
      invoke r (Fs_flush nodeid (Ll.file_handle_0 (Ll.Flush_file_handle x)) (Ll.lock_owner_0 (Ll.Flush_lock_owner x)))
  | Ll.OpRelease x =>
      invoke r (Fs_release nodeid (Ll.file_handle_0 (Ll.Release_file_handle x)) (Ll.Release_flags x)
        (Ll.lock_owner_0 <$> Ll.Release_lock_owner x) (Ll.Release_flush x))
  | Ll.OpFSync x => invoke r (Fs_fsync nodeid (Ll.file_handle_0 (Ll.FSync_file_handle x)) (Ll.FSync_fdatasync x))
  | Ll.OpOpenDir x => invoke r (Fs_opendir nodeid (Ll.OpenDir_flags x))
  | Ll.OpReadDir x =>
      invoke r (Fs_readdir nodeid (Ll.file_handle_0 (Ll.ReadDir_file_handle x)) (Ll.ReadDir_offset x)
        (LlReply.DirEntList_new (Ll.ReadDir_size x)))
  | Ll.OpReleaseDir x =>
      invoke r (Fs_releasedir nodeid (Ll.file_handle_0 (Ll.ReleaseDir_file_handle x)) (Ll.ReleaseDir_flags x))
  | Ll.OpFSyncDir x => invoke r (Fs_fsyncdir nodeid (Ll.file_handle_0 (Ll.FSyncDir_file_handle x)) (Ll.FSyncDir_fdatasync x))
  | Ll.OpStatFs _ => invoke r (Fs_statfs nodeid)
  | Ll.OpSetXAttr x =>
      invoke r (Fs_setxattr nodeid (Ll.SetXAttr_name x) (Ll.SetXAttr_value x) (Ll.SetXAttr_flags x)
        (Ll.SetXAttr_position x))
  | Ll.OpGetXAttr x => invoke r (Fs_getxattr nodeid (Ll.GetXAttr_name x) (Ll.GetXAttr_size_u32 x))
  | Ll.OpListXAttr x => invoke r (Fs_listxattr nodeid (Ll.ListXAttr_size x))
  | Ll.OpRemoveXAttr x => invoke r (Fs_removexattr nodeid (Ll.RemoveXAttr_name x))
  | Ll.OpAccess x => invoke r (Fs_access nodeid (Ll.Access_mask x))
  | Ll.OpCreate x =>
      invoke r (Fs_create nodeid (Ll.Create_name x) (Ll.Create_mode x) (Ll.Create_umask x)
        (Ll.Create_flags x))
  | Ll.OpGetLk x =>
      invoke r (Fs_getlk nodeid (Ll.file_handle_0 (Ll.GetLk_file_handle x)) (Ll.lock_owner_0 (Ll.GetLk_lock_owner x))
        (Ll.lock_range (Ll.GetLk_lock x)).1 (Ll.lock_range (Ll.GetLk_lock x)).2
        (Ll.lock_typ (Ll.GetLk_lock x)) (Ll.lock_pid (Ll.GetLk_lock x)))
  | Ll.OpSetLk x =>
      invoke r (Fs_setlk nodeid (Ll.file_handle_0 (Ll.SetLk_file_handle x)) (Ll.lock_owner_0 (Ll.SetLk_lock_owner x))
        (Ll.lock_range (Ll.SetLk_lock x)).1 (Ll.lock_range (Ll.SetLk_lock x)).2
        (Ll.lock_typ (Ll.SetLk_lock x)) (Ll.lock_pid (Ll.SetLk_lock x)) false)
  | Ll.OpSetLkW x =>
      invoke r (Fs_setlk nodeid (Ll.file_handle_0 (Ll.SetLkW_file_handle x)) (Ll.lock_owner_0 (Ll.SetLkW_lock_owner x))
        (Ll.lock_range (Ll.SetLkW_lock x)).1 (Ll.lock_range (Ll.SetLkW_lock x)).2
        (Ll.lock_typ (Ll.SetLkW_lock x)) (Ll.lock_pid (Ll.SetLkW_lock x)) true)
  | Ll.OpBMap x => invoke r (Fs_bmap nodeid (Ll.BMap_block_size x) (Ll.BMap_block x))
  | Ll.OpIoCtl x =>
      if Ll.IoCtl_unrestricted x then refuse ENOSYS
      else
        in_data ← lift (Ll.IoCtl_in_data x);
        invoke r (Fs_ioctl nodeid (Ll.file_handle_0 (Ll.IoCtl_file_handle x)) (Ll.IoCtl_flags x) (Ll.IoCtl_command x)
          in_data (Ll.IoCtl_out_size x))
  | Ll.OpPoll _ => refuse ENOSYS
  | Ll.OpNotifyReply _ => refuse ENOSYS
  | Ll.OpBatchForget x => invoke_no_reply r (Fs_batch_forget (Ll.BatchForget_nodes x))
  | Ll.OpFAllocate x =>
      invoke r (Fs_fallocate nodeid (Ll.file_handle_0 (Ll.FAllocate_file_handle x)) (Ll.FAllocate_offset x)
        (Ll.FAllocate_len x) (Ll.FAllocate_mode x))
  | Ll.OpReadDirPlus x =>
      invoke r (Fs_readdirplus nodeid (Ll.file_handle_0 (Ll.ReadDirPlus_file_handle x)) (Ll.ReadDirPlus_offset x)
        (LlReply.DirEntPlusList_new (Ll.ReadDirPlus_size x)))
  | Ll.OpRename2 x =>
      invoke r (Fs_rename (Ll.inode_no_0 (Ll.dir (Ll.Rename2_from x))) (Ll.name (Ll.Rename2_from x))
        (Ll.inode_no_0 (Ll.dir (Ll.Rename2_to x))) (Ll.name (Ll.Rename2_to x)) (Ll.Rename2_flags x))
  | Ll.OpLseek x =>
      invoke r (Fs_lseek nodeid (Ll.file_handle_0 (Ll.Lseek_file_handle x)) (Ll.Lseek_offset x) (Ll.Lseek_whence x))
  | Ll.OpCopyFileRange x =>
      let i := Ll.CopyFileRange_src x in
      let o := Ll.CopyFileRange_dest x in
      flags ← lift (if decide (Ll.CopyFileRange_flags x < 2 ^ 32)
                    then Ret (Ll.CopyFileRange_flags x) else Panic);
      invoke r (Fs_copy_file_range (Ll.inode_no_0 (Ll.inode i)) (Ll.file_handle_0 (Ll.file_handle i)) (Ll.offset i)
        (Ll.inode_no_0 (Ll.inode o)) (Ll.file_handle_0 (Ll.file_handle o)) (Ll.offset o) (Ll.CopyFileRange_len x) flags)
  | Ll.OpCuseInit _ => refuse ENOSYS
  end.

(** [dispatch_req]. *)
Definition dispatch_req (r : Ll.AnyRequest) : seM dispatch_result :=
  op ← lift (Ll.AnyRequest_operation r);
  match op with
  | inl _ => refuse ENOSYS
  | inr op =>
      se ← gets id;
      if acl_denies se (Ll.request_uid r) && negb (acl_exempt op) then refuse EACCES
      else match op with
      | Ll.OpInit x => dispatch_init r x
      | _ =>
          if negb (initialized se) then refuse EIO
          else match op with
          | Ll.OpDestroy _ => dispatch_op r op
          | _ => if destroyed se then refuse EIO else dispatch_op r op
          end
      end
  end.

(** [Request::dispatch]: the message written to the channel, if one is. *)
Definition dispatch (r : Ll.AnyRequest) : seM (option (list (list Z))) :=
  res ← dispatch_req r;
  match res with
  | inr None => mret None
  | inr (Some resp) => iov ← lift (LlReply.Response_with_iovec resp (Ll.request_unique r)); mret (Some iov)
  | inl errno =>
      iov ← lift (LlReply.Response_with_iovec (LlReply.Response_new_error errno) (Ll.request_unique r));
      mret (Some iov)
  end.

(** [Drop for Session]. *)
Definition Session_drop (se : Session FS) : Session FS :=
  if destroyed se then se else with_destroyed (with_filesystem fs_destroy se).

(** [aligned_sub_buf]: slicing past the end panics. *)
Definition aligned_sub_buf (buf : slice) (alignment : Z) : outcome slice :=
  let off := alignment - addr buf `mod` alignment in
  if decide (off = alignment) then Ret buf
  else if decide (off ≤ Z.of_nat (length (data buf))) then Ret (slice_drop (Z.to_nat off) buf)
  else Panic.

(** The loop of [Session::run], as in Session.v. *)
Fixpoint run_loop (a : Z) (answers : list receive_result)
    : seM (run_result * list (list (list Z))) :=
  match answers with
  | [] => mret (Waiting, [])
  | Received bytes :: answers =>
      req ← lift (Ll.AnyRequest_try_from (MkSlice a bytes));
      match req with
      | inl _ => mret (Finished, [])
      | inr r =>
          msg ← dispatch r;
          '(res, msgs) ← run_loop a answers;
          mret (res, option_list msg ++ msgs)
      end
  | ReadError errno :: answers =>
      if decide (errno = ENOENT ∨ errno = EINTR ∨ errno = EAGAIN) then run_loop a answers
      else if decide (errno = ENODEV) then mret (Finished, [])
      else mret (Failed errno, [])
  end.
End dispatch.
End Fuser.

(** ** A session of the copy is one of uring_fuse *)

Definition unwrap_reply (r : LlReply.ReplyRaw) : ReplyRaw :=
  MkReplyRaw (Ll.request_id_0 (LlReply.reply_unique r)) (LlReply.sender r).

(** A file system mounted through the copy: it gets requests and reply objects out of
    their wrappers. *)
Definition unwrapped {FS} (FSI : Filesystem FS) : Fuser.Filesystem FS := {|
  Fuser.fs_init r c fs := fs_init (erase_any r) c fs;
  Fuser.fs_destroy := fs_destroy;
  Fuser.fs_call r call reply fs := fs_call (erase_any r) call (unwrap_reply <$> reply) fs |}.

(** The features the copy asks for by default among those on offer, and a file system
    that starts from them. *)
Definition without_splice (c : KernelConfig) : KernelConfig :=
  with_requested (Fuser.default_init_flags (capabilities c)) c.
Definition offered {FS} (FSI : Filesystem FS) : Filesystem FS := {|
  fs_init r c fs := fs_init r (without_splice c) fs;
  fs_destroy := fs_destroy;
  fs_call := fs_call |}.

Section refines.
Context `{L : Libs, C : Libc, B : Build} {FS : Type} {FSI : Filesystem FS}.

Lemma SetAttr_file_handle_same h arg :
  Ll.file_handle_0 <$> Ll.SetAttr_file_handle (Ll.MkSetAttr h arg) = SetAttr_file_handle (MkSetAttr h arg).
Proof. unfold Ll.SetAttr_file_handle, SetAttr_file_handle; cbn. by destruct (_ =? _). Qed.
Lemma Read_lock_owner_same h arg :
  Ll.lock_owner_0 <$> Ll.Read_lock_owner (Ll.MkRead h arg) = lock_owner_0 <$> Read_lock_owner (MkRead h arg).
Proof. unfold Ll.Read_lock_owner, Read_lock_owner; cbn. by destruct (negb _). Qed.
Lemma Write_lock_owner_same h arg data :
  Ll.lock_owner_0 <$> Ll.Write_lock_owner (Ll.MkWrite h arg data)
  = lock_owner_0 <$> Write_lock_owner (MkWrite h arg data).
Proof. unfold Ll.Write_lock_owner, Write_lock_owner; cbn. by destruct (negb _). Qed.
Lemma Release_lock_owner_same h arg :
  Ll.lock_owner_0 <$> Ll.Release_lock_owner (Ll.MkRelease h arg)
  = lock_owner_0 <$> Release_lock_owner (MkRelease h arg).
Proof. unfold Ll.Release_lock_owner, Release_lock_owner; cbn. by destruct (negb _). Qed.

Lemma dispatch_op_same r op se :
  Fuser.dispatch_op (FSI := unwrapped FSI) r op se = dispatch_op (FSI := offered FSI) (erase_any r) (erase op) se.
Proof.
  destruct r as [h d], op as [| | |[]| | | | | | | | | |[]|[]| |[]| | | | | | | | | | | | | | | | | | | | | | | | | | | | |];
    try reflexivity; cbn [Fuser.dispatch_op dispatch_op erase Ll.setattr_header Ll.setattr_arg Ll.read_header
      Ll.read_arg Ll.write_header Ll.write_arg Ll.write_data Ll.release_header Ll.release_arg];
    rewrite ?SetAttr_file_handle_same, ?Read_lock_owner_same, ?Write_lock_owner_same, ?Release_lock_owner_same;
    reflexivity.
Qed.

Lemma dispatch_req_same r se :
  Fuser.dispatch_req (FSI := unwrapped FSI) r se = dispatch_req (FSI := offered FSI) (erase_any r) se.
Proof.
  unfold Fuser.dispatch_req, dispatch_req, lift, mbind, stateM_bind. rewrite <-operation_erase.
  destruct (Ll.AnyRequest_operation r) as [[e|op]| |]; [done| |done..]. cbn [mbind outcome_bind both fmap outcome_fmap].
  assert (Fuser.acl_exempt op = acl_exempt (erase op)) as -> by (by destruct op).
  change (Ll.request_uid r) with (request_uid (erase_any r)). unfold gets.
  change (Fuser.acl_denies (id se)) with (acl_denies (id se)).
  destruct (acl_denies _ _ && negb (acl_exempt _)); [done|].
  pose proof (dispatch_op_same r op se) as Hop.
  destruct op; cbn [erase] in *; try exact Hop;
    destruct (negb _); try done; try exact Hop; (destruct (destroyed _); [done|exact Hop]).
Qed.

Lemma dispatch_same r se :
  Fuser.dispatch (FSI := unwrapped FSI) r se = dispatch (FSI := offered FSI) (erase_any r) se.
Proof.
  unfold Fuser.dispatch, dispatch, mbind, stateM_bind. rewrite dispatch_req_same.
  by destruct (dispatch_req (erase_any r) se) as [[[errno|[resp|]] se']| |].
Qed.

Lemma run_loop_same a answers se :
  Fuser.run_loop (FSI := unwrapped FSI) a answers se = run_loop (FSI := offered FSI) a answers se.
Proof.
  revert se. induction answers as [|[bytes|errno] answers IH]; intros se; [done| |]; cbn [Fuser.run_loop run_loop].
  - unfold mbind, stateM_bind, lift. rewrite <-try_from_erase.
    destruct (Ll.AnyRequest_try_from (MkSlice a bytes)) as [[e|r]| |]; [done| |done..].
    cbn [mbind outcome_bind both fmap outcome_fmap]. rewrite dispatch_same.
    destruct (dispatch (erase_any r) se) as [[msg se']| |]; [|done..]. by rewrite IH.
  - by repeat case_decide.
Qed.



(** C23: a session of the copy, whatever the device delivers, answers and calls its file
    system as a session of uring_fuse does over the same file system, if that asks by
    default for the features the copy asks for. *)
Theorem fuser_refines_uring a answers se :
  Fuser.run_loop (FSI := unwrapped FSI) a answers se = run_loop (FSI := offered FSI) a answers se.
Proof. apply run_loop_same. Qed.

End refines.

(** So the file systems mounted through the copy are called only between an accepted
    [init] and the first [destroy], and a session runs without undefined behaviour. *)
Theorem fuser_protocol `{L : Libs, C : Libc, !LibcLaws C, B : Build} {FS : Type} (FSI : Filesystem FS)
    `{!FilesystemLaws FSI} a answers fs allow_root allow_other euid :
  permits (Fuser.run_loop (FSI := unwrapped (logged FSI)) a answers
             (Fuser.Session_new (fs, []) allow_root allow_other euid))
    (λ '(_, se), protocol (false, false) (events se) = Some (initialized se, destroyed se)).
Proof.
  assert (FilesystemLaws (offered FSI)) as Hlaws.
  { intros r c fs0 e c' fs'. apply (fs_init_errno (FSI := FSI)). }
  rewrite (run_loop_same (FSI := logged FSI)). change (offered (logged FSI)) with (logged (offered FSI)).
  by apply (run_loop_protocol (offered FSI)).
Qed.

(** INIT, then LOOKUP of "ab", through the copy. *)
Lemma fuser_protocol_witness :
  ∃ res se, Fuser.run_loop (L := model_libs) (C := linux) (B := true) (FSI := unwrapped (logged null_fs))
      4096 [Received init_message; ReadError 4; Received lookup_message]
      (Fuser.Session_new (tt, []) true false 1000) = Ret (res, se) ∧
    protocol (false, false) (events se) = Some (true, false) ∧
    length (events se) = 2%nat.
Proof.
  pose proof (@fuser_protocol model_libs linux linux_laws true unit null_fs null_fs_laws
    4096 [Received init_message; ReadError 4; Received lookup_message] tt true false 1000) as H.
  revert H.
  destruct (Fuser.run_loop _ _ _) as [[res se]| |] eqn:Hrun; [|by vm_compute in Hrun..].
  simpl. intros H. exists res, se. split; [done|].
  assert (initialized se = true ∧ destroyed se = false ∧ length (events se) = 2%nat)
    as (Hi & Hd & Hl); [|by rewrite Hi, Hd in H].
  vm_compute in Hrun. injection Hrun as _ <-. done.
Defined.
