(* ===== verification/Mounted.v ===== *)
(** * Mounted: a file system behind the device

    A file system given by what its methods do and answer, [step], mounted: the session
    decodes the requests and calls the methods, each sends its answer through the reply
    object.  [UringMounted] is the file system under the session of uring_fuse,
    [CopyMounted] under the copy's.  [uring_requests] and [copy_requests] carry a
    sequence of requests from the bytes the kernel writes to the bytes it reads; the
    files of the mounted file systems instantiate them. *)

From S2P Require Import Prelude Wire KernelInterface Time Argument Operation Request KernelConfig Response.
From S2P Require Import Reply Session FuserRequest FuserReply FuserSession.

Local Open Scope Z_scope.

(** The state of a file system and the messages on the channel; or how a method crashed,
    after which nothing is answered. *)
Definition Mounted (FS : Type) : Type := outcome (FS * list (list (list Z))).

(** The bytes of a request, in a buffer that may be longer. *)
Definition request_bytes (op : Operation) (rest : list Z) : list Z :=
  encode fuse_in_header_layout (Operation_header op) ++ Operation_args op ++ rest.
Definition request_wf (op : Operation) : Prop :=
  Operation_wf op ∧ valid fuse_in_header_layout (Operation_header op) ∧
  in_header_len (Operation_header op) = 40 + Z.of_nat (length (Operation_args op)) ∧
  in_header_opcode (Operation_header op) = fuse_opcode_code (Operation_opcode op).

Section mounted.
Context `{L : Libs, B : Build, C : Libc} {FS : Type}.
(** A message the kernel reads as this answer to the request. *)
Definition answered (h : fuse_in_header) (ans : option Answer) (iov : list (list Z)) : Prop :=
  ∃ a errno payload, ans = Some a ∧ kernel_reads (concat iov) = Some (in_header_unique h, errno, payload) ∧
    understood a errno payload.

Context (fs_init_config : KernelConfig → FS → outcome ((option Z * KernelConfig) * FS)).
(** With the header of the request, which says who asks ([Request::uid], [gid], [pid]). *)
Context (step : fuse_in_header → FsCall → FS → outcome (option Answer * FS)).

Definition mounted_init (config : KernelConfig) (m : Mounted FS) : (option Z * KernelConfig) * Mounted FS :=
  match m with
  | Ret (st, sent) =>
      match fs_init_config config st with
      | Ret (r, st) => (r, Ret (st, sent))
      | Panic => ((None, config), Panic)
      | UB => ((None, config), UB)
      end
  | _ => ((None, config), m)
  end.

(** A method, and the answer through its reply object, whose encoding may panic. *)
Definition mounted_call {R} (send : Answer → R → sentM bool) (h : fuse_in_header) (c : FsCall) (reply : option R)
    (m : Mounted FS) : Mounted FS :=
  '(st, sent) ← m;
  '(ans, st) ← step h c st;
  match ans, reply with
  | Some ans, Some reply =>
      '(panicked, sent) ← send ans reply sent;
      if panicked : bool then Panic else Ret (st, sent)
  | _, _ => Ret (st, sent)
  end.

#[local] Instance UringMounted : Session.Filesystem (Mounted FS) := {|
  Session.fs_init r config m := mounted_init config m;
  Session.fs_destroy m := m;
  Session.fs_call r c reply m := mounted_call send_answer (any_header r) c reply m |}.
#[local] Instance CopyMounted : Fuser.Filesystem (Mounted FS) := {|
  Fuser.fs_init r config m := mounted_init config m;
  Fuser.fs_destroy m := m;
  Fuser.fs_call r c reply m := mounted_call LlReply.send_answer (Ll.any_header r) c reply m |}.

(** Dispatching [op] is one call of the method [c], with a reply object. *)
Definition asks (op : Operation) (c : FsCall) : Prop :=
  ∀ r (se : Session (Mounted FS)), any_header r = Operation_header op →
    Session.dispatch_op r op se = Session.invoke r c se.
Definition copy_asks (op : Ll.Operation) (c : FsCall) : Prop :=
  ∀ r (se : Session (Mounted FS)), Ll.any_header r = Operation_header (erase op) →
    Fuser.dispatch_op r op se = Fuser.invoke r c se.

(** The session while the file system is mounted, with [st] and the messages [sent]. *)
Definition serving (se : Session (Mounted FS)) (st : FS) (sent : list (list (list Z))) : Prop :=
  filesystem se = Ret (st, sent) ∧ initialized se = true ∧ destroyed se = false.
Definition served (se : Session (Mounted FS)) (st : FS) (sent : list (list (list Z))) : Session (Mounted FS) :=
  with_filesystem (λ _, Ret (st, sent)) se.

Context `{LL : !LibsLaws L, CL : !LibcLaws C}.

(** One message with the answer, whichever way it is sent. *)
Lemma mounted_call_answers {R} (send : Answer → R → sentM bool) reply h c st ans st' sent :
  (∀ a sent, send a reply sent = send_answer a (ReplyRaw_new (in_header_unique h)) sent) →
  step h c st = Ret (Some ans, st') → valid fuse_in_header_layout h →
  answer_fits ans → answer_panics ans = false →
  ∃ iov, mounted_call send h c (Some reply) (Ret (st, sent)) = Ret (st', sent ++ [iov]) ∧ answered h (Some ans) iov.
Proof.
  intros Hsend Hstep Hv Hfit Hp.
  assert (0 ≤ in_header_unique h < 2 ^ 64) as Hu by (by apply (unique_bounds (MkAnyRequest h (MkSlice 0 [])))).
  destruct (send_answer_delivers ans (in_header_unique h) sent Hu Hfit) as (iov & errno & payload & Hs & Hk & Hun).
  rewrite Hp in Hs. exists iov. split; [|by exists ans, errno, payload].
  unfold mounted_call. cbn [mbind outcome_bind]. rewrite Hstep. cbn [mbind outcome_bind]. by rewrite Hsend, Hs.
Qed.

(** ** Sequences of requests *)

(** The calls, each with the header of its request. *)
Fixpoint run_steps (calls : list (fuse_in_header * FsCall)) (st : FS) : outcome (list (option Answer) * FS) :=
  match calls with
  | [] => Ret ([], st)
  | (h, c) :: calls => '(ans, st) ← step h c st; '(answers, st) ← run_steps calls st; Ret (ans :: answers, st)
  end.

(** An answer that reaches the kernel. *)
Definition sendable (ans : option Answer) : Prop :=
  ∃ a, ans = Some a ∧ answer_fits a ∧ answer_panics a = false.

(** A loop that takes one request after the other. *)
Lemma requests_run {X} (loop : list receive_result → stateM (Session (Mounted FS)) (run_result * list (list (list Z))))
    (bytes : X → list Z) (header : X → fuse_in_header) (ok : X → FsCall → Session (Mounted FS) → Prop) :
  (∀ se, loop [] se = Ret ((Waiting, []), se)) →
  (∀ x c se st sent, ok x c se → ok x c (served se st sent)) →
  (∀ x c rs se st sent ans st', ok x c se → serving se st sent → step (header x) c st = Ret (Some ans, st') →
     answer_fits ans → answer_panics ans = false →
     ∃ iov, loop (Received (bytes x) :: rs) se = loop rs (served se st' (sent ++ [iov])) ∧
       answered (header x) (Some ans) iov) →
  ∀ reqs se st sent answers st',
    Forall (λ '(x, c), ok x c se) reqs → serving se st sent →
    run_steps (prod_map header id <$> reqs) st = Ret (answers, st') → Forall sendable answers →
    ∃ iovs, loop (Received ∘ bytes ∘ fst <$> reqs) se = Ret ((Waiting, []), served se st' (sent ++ iovs)) ∧
      length iovs = length reqs ∧
      Forall2 (λ '(x, _) '(ans, iov), answered (header x) ans iov) reqs (zip answers iovs).
Proof.
  intros Hnil Hok Hone reqs. induction reqs as [|[x c] reqs IH]; intros se st sent answers st' Hreqs Hse; cbn [fmap list_fmap run_steps].
  - intros [= <- <-] _. exists []. destruct Hse as (Hfs & _ & _). rewrite Hnil. split; [|by split].
    rewrite app_nil_r. unfold served, with_filesystem. rewrite <- Hfs. by destruct se.
  - cbn [prod_map fst snd id].
    intros ([ans st1] & Hstep & ([rest st2] & Hrest & [= <- <-])%bind_Ret)%bind_Ret [(a & -> & Hfit & Hp) Hsend]%Forall_cons.
    apply Forall_cons in Hreqs as [Hx Hreqs].
    destruct (Hone x c (Received ∘ bytes ∘ fst <$> reqs) se st sent a st1) as (iov & Hl & Hans); [done..|].
    destruct (IH (served se st1 (sent ++ [iov])) st1 (sent ++ [iov]) rest st2) as (iovs & Hrun & Hlen & Hall);
      [|by destruct Hse as (_ & ? & ?)|done|done|].
    { eapply Forall_impl; [exact Hreqs|]. intros [y d]. apply Hok. }
    exists (iov :: iovs). cbn [compose fst] in *. rewrite Hl, Hrun. split; [|split; [simpl; congruence|by constructor]].
    by rewrite <- app_assoc.
Qed.

(** ** uring_fuse *)

Lemma dispatch_req_mounted r op (se : Session (Mounted FS)) :
  AnyRequest_operation r = Ret (inr op) → initialized se = true → destroyed se = false →
  Session.acl_denies se (request_uid r) = false →
  Session.dispatch_req r se = Session.dispatch_op r op se.
Proof.
  intros Hop Hi Hd Hacl. unfold Session.dispatch_req, lift, gets, mbind, stateM_bind. rewrite Hop.
  cbn [mbind outcome_bind id]. rewrite Hacl, Hi, Hd. by destruct op.
Qed.

Lemma uring_request a op rest c answers se st sent ans st' :
  request_wf op → a `mod` 8 = 0 → asks op c → serving se st sent →
  Session.acl_denies se (in_header_uid (Operation_header op)) = false →
  step (Operation_header op) c st = Ret (Some ans, st') → answer_fits ans → answer_panics ans = false →
  ∃ iov, Session.run_loop a (Received (request_bytes op rest) :: answers) se
      = Session.run_loop a answers (served se st' (sent ++ [iov])) ∧
    answered (Operation_header op) (Some ans) iov.
Proof.
  intros (Hwf & Hv & Hlen & Hcode) Ha Hasks (Hfs & Hi & Hd) Hacl Hstep Hfit Hp.
  destruct (request_decodes op a rest Hwf Hv Hlen Hcode Ha) as ([h d] & Htry & Hh & Hop).
  cbn [any_header] in Hh. subst h.
  destruct (mounted_call_answers send_answer (ReplyRaw_new (in_header_unique (Operation_header op)))
    (Operation_header op) c st ans st' sent) as (iov & Hm & Hans); [done..|].
  exists iov. split; [|done]. cbn [Session.run_loop]. unfold request_bytes.
  unfold mbind at 1, stateM_bind at 1, lift. rewrite Htry. cbn [mbind outcome_bind].
  unfold Session.dispatch, mbind, stateM_bind.
  rewrite (dispatch_req_mounted _ op se Hop Hi Hd Hacl), (Hasks (MkAnyRequest (Operation_header op) d) se eq_refl).
  unfold Session.invoke, modify, with_filesystem, mbind, stateM_bind, mret, stateM_ret.
  cbn [Session.fs_call UringMounted any_header]. rewrite Hfs.
  change (request_unique (MkAnyRequest (Operation_header op) d)) with (in_header_unique (Operation_header op)).
  rewrite Hm. cbn [outcome_bind].
  change (MkSession (Ret (st', sent ++ [iov])) (allowed se) (session_owner se) (proto_major se) (proto_minor se)
    (initialized se) (destroyed se)) with (served se st' (sent ++ [iov])).
  by destruct (Session.run_loop a answers _) as [[[? ?] ?]| |].
Qed.

(** The requests [reqs], each with what follows it in the buffer, and the calls they ask
    for: the messages the kernel gets are the answers, one for each, in their order. *)
Definition uring_ok (x : Operation * list Z) (c : FsCall) (se : Session (Mounted FS)) : Prop :=
  request_wf x.1 ∧ asks x.1 c ∧ Session.acl_denies se (in_header_uid (Operation_header x.1)) = false.
Lemma uring_requests a reqs se st sent answers st' :
  a `mod` 8 = 0 → Forall (λ '(x, c), uring_ok x c se) reqs → serving se st sent →
  run_steps (prod_map (λ x, Operation_header x.1) id <$> reqs) st = Ret (answers, st') → Forall sendable answers →
  ∃ iovs, Session.run_loop a ((λ '((op, rest), _), Received (request_bytes op rest)) <$> reqs) se
      = Ret ((Waiting, []), served se st' (sent ++ iovs)) ∧
    length iovs = length reqs ∧
    Forall2 (λ '((op, _), _) '(ans, iov), answered (Operation_header op) ans iov) reqs (zip answers iovs).
Proof.
  intros Ha Hreqs Hse Hrun Hsend.
  destruct (requests_run (Session.run_loop a) (λ x, request_bytes x.1 x.2) (λ x, Operation_header x.1) uring_ok ltac:(done) ltac:(done)
    ltac:(intros [op rest] c * (? & ? & ?) ? ? ? ?; by eapply (uring_request a op rest c))
    reqs se st sent answers st' Hreqs Hse Hrun Hsend) as (iovs & Hl & Hlen & Hall).
  exists iovs. split_and!; [|done|].
  - rewrite <- Hl. f_equal. apply list_fmap_ext. by intros ? [[op rest] c].
  - eapply Forall2_impl; [exact Hall|]. by intros [[op rest] c] [ans iov].
Qed.

(** ** The copy *)

Lemma copy_decodes op a rest :
  request_wf (erase op) → a `mod` 8 = 0 →
  ∃ d, Ll.AnyRequest_try_from (MkSlice a (request_bytes (erase op) rest))
      = Ret (inr (Ll.MkAnyRequest (Operation_header (erase op)) d)) ∧
    Ll.AnyRequest_operation (Ll.MkAnyRequest (Operation_header (erase op)) d) = Ret (inr op).
Proof.
  intros (Hwf & Hv & Hlen & Hcode) Ha.
  destruct (request_decodes (erase op) a rest Hwf Hv Hlen Hcode Ha) as (r0 & Htry & Hh & Hop).
  rewrite <-try_from_erase in Htry. unfold request_bytes.
  destruct (Ll.AnyRequest_try_from _) as [[e|[h' d]]| |]; [done| |done..].
  cbn [fmap outcome_fmap both] in Htry. injection Htry as <-. cbn in Hh. subst h'.
  exists d. split; [done|]. rewrite <-operation_erase in Hop.
  destruct (Ll.AnyRequest_operation _) as [[e|op']| |]; [done| |done..].
  cbn [fmap outcome_fmap both] in Hop. injection Hop as Hop. by apply (inj erase) in Hop as ->.
Qed.
Lemma copy_dispatch_req_mounted r op (se : Session (Mounted FS)) :
  Ll.AnyRequest_operation r = Ret (inr op) → initialized se = true → destroyed se = false →
  Fuser.acl_denies se (Ll.request_uid r) = false →
  Fuser.dispatch_req r se = Fuser.dispatch_op r op se.
Proof.
  intros Hop Hi Hd Hacl. unfold Fuser.dispatch_req, lift, gets, mbind, stateM_bind. rewrite Hop.
  cbn [mbind outcome_bind id]. rewrite Hacl, Hi, Hd. by destruct op.
Qed.

Lemma copy_request a op rest c answers se st sent ans st' :
  request_wf (erase op) → a `mod` 8 = 0 → copy_asks op c → serving se st sent →
  Fuser.acl_denies se (in_header_uid (Operation_header (erase op))) = false →
  step (Operation_header (erase op)) c st = Ret (Some ans, st') → answer_fits ans → answer_panics ans = false →
  ∃ iov, Fuser.run_loop a (Received (request_bytes (erase op) rest) :: answers) se
      = Fuser.run_loop a answers (served se st' (sent ++ [iov])) ∧
    answered (Operation_header (erase op)) (Some ans) iov.
Proof.
  intros Hwf Ha Hasks (Hfs & Hi & Hd) Hacl Hstep Hfit Hp.
  destruct (copy_decodes op a rest Hwf Ha) as (d & Htry & Hop). set (h := Operation_header (erase op)) in *.
  destruct (mounted_call_answers LlReply.send_answer (LlReply.ReplyRaw_new (in_header_unique h)) h c st ans st' sent)
    as (iov & Hm & Hans); [by intros; rewrite fuser_replies_same|done|apply Hwf|done..|].
  exists iov. split; [|done]. cbn [Fuser.run_loop].
  unfold mbind at 1, stateM_bind at 1, lift. rewrite Htry. cbn [mbind outcome_bind].
  unfold Fuser.dispatch, mbind, stateM_bind.
  rewrite (copy_dispatch_req_mounted _ op se Hop Hi Hd Hacl), (Hasks (Ll.MkAnyRequest h d) se eq_refl).
  unfold Fuser.invoke, modify, with_filesystem, mbind, stateM_bind, mret, stateM_ret.
  cbn [Fuser.fs_call CopyMounted Ll.any_header]. rewrite Hfs.
  change (Ll.request_id_0 (Ll.request_unique (Ll.MkAnyRequest h d))) with (in_header_unique h).
  rewrite Hm. cbn [outcome_bind].
  change (MkSession (Ret (st', sent ++ [iov])) (allowed se) (session_owner se) (proto_major se) (proto_minor se)
    (initialized se) (destroyed se)) with (served se st' (sent ++ [iov])).
  by destruct (Fuser.run_loop a answers _) as [[[? ?] ?]| |].
Qed.

Definition copy_ok (x : Ll.Operation * list Z) (c : FsCall) (se : Session (Mounted FS)) : Prop :=
  request_wf (erase x.1) ∧ copy_asks x.1 c ∧ Fuser.acl_denies se (in_header_uid (Operation_header (erase x.1))) = false.
Lemma copy_requests a reqs se st sent answers st' :
  a `mod` 8 = 0 → Forall (λ '(x, c), copy_ok x c se) reqs → serving se st sent →
  run_steps (prod_map (λ x, Operation_header (erase x.1)) id <$> reqs) st = Ret (answers, st') → Forall sendable answers →
  ∃ iovs, Fuser.run_loop a ((λ '((op, rest), _), Received (request_bytes (erase op) rest)) <$> reqs) se
      = Ret ((Waiting, []), served se st' (sent ++ iovs)) ∧
    length iovs = length reqs ∧
    Forall2 (λ '((op, _), _) '(ans, iov), answered (Operation_header (erase op)) ans iov) reqs (zip answers iovs).
Proof.
  intros Ha Hreqs Hse Hrun Hsend.
  destruct (requests_run (Fuser.run_loop a) (λ x, request_bytes (erase x.1) x.2) (λ x, Operation_header (erase x.1)) copy_ok ltac:(done) ltac:(done)
    ltac:(intros [op rest] c * (? & ? & ?) ? ? ? ?; by eapply (copy_request a op rest c))
    reqs se st sent answers st' Hreqs Hse Hrun Hsend) as (iovs & Hl & Hlen & Hall).
  exists iovs. split_and!; [|done|].
  - rewrite <- Hl. f_equal. apply list_fmap_ext. by intros ? [[op rest] c].
  - eapply Forall2_impl; [exact Hall|]. by intros [[op rest] c] [ans iov].
Qed.
End mounted.
