(* ===== verification/FairyFS.v ===== *)
(** * FairyFS: the file system of [fuse_lib.rs] that implements no method

    [impl fuser::Filesystem for FairyFS {}], which [mount] mounts through the copy: every
    method is the trait's (Defaults.v).  [fairy_session]: whatever is asked, the kernel
    reads the defaults of the trait, one message for each request. *)

From S2P Require Import Prelude Wire KernelInterface Time Argument Operation Request KernelConfig Response.
From S2P Require Import Paths Reply Session Defaults UringFs FuserRequest FuserReply FuserSession Mounted.

Local Open Scope Z_scope.

Section mounted.
Context `{L : Libs, B : Build, C : Libc, F : LibcFs}.

Definition FairyFS : Type := unit.
Definition FairyFS_init (config : KernelConfig) (fs : FairyFS) : outcome ((option Z * KernelConfig) * FairyFS) :=
  Ret ((None, config), fs).
Definition FairyFS_step (h : fuse_in_header) (c : FsCall) (fs : FairyFS) : outcome (option Answer * FairyFS) :=
  Ret (FuserDefaults.default_answer c,
       match c with
       | Fs_forget ino nlookup => FuserDefaults.default_forget ino nlookup fs
       | Fs_batch_forget nodes => FuserDefaults.default_batch_forget FuserDefaults.default_forget nodes fs
       | _ => fs
       end).
#[export] Instance FairyFS_mounted : Fuser.Filesystem (Mounted FairyFS) := CopyMounted FairyFS_init FairyFS_step.

Context `{LL : !LibsLaws L, CL : !LibcLaws C} (EPERM_pos : 0 < EPERM < 2 ^ 31).

Lemma fairy_answers (calls : list (fuse_in_header * FsCall)) :
  run_steps FairyFS_step calls tt = Ret ((λ x, FuserDefaults.default_answer x.2) <$> calls, tt).
Proof.
  induction calls as [|[h c] calls IH]; [done|]. cbn [run_steps].
  assert (FairyFS_step h c () = Ret (FuserDefaults.default_answer c, ())) as ->.
  { unfold FairyFS_step. f_equal. f_equal. by destruct (match c with Fs_forget _ _ => _ | _ => _ end). }
  cbn [mbind outcome_bind]. by rewrite IH.
Qed.
Lemma copy_default_sendable c :
  match c with Fs_forget _ _ | Fs_batch_forget _ => False | _ => True end → sendable (FuserDefaults.default_answer c).
Proof.
  intros Hc. rewrite copy_defaults. destruct (default_answer c) as [a|] eqn:Ha; [|by destruct c].
  exists a. split; [done|]. by apply (default_answer_fits EPERM_pos c).
Qed.

(** Any sequence of requests of users that are let in, each well formed and asking for a
    method with a reply: nothing happens but that each gets the trait's default answer. *)
Theorem fairy_session a reqs (se : Session (Mounted FairyFS)) sent :
  a `mod` 8 = 0 →
  Forall (λ '(x, c), copy_ok FairyFS_init FairyFS_step x c se ∧
    match c with Fs_forget _ _ | Fs_batch_forget _ => False | _ => True end) reqs →
  serving se tt sent →
  ∃ iovs, Fuser.run_loop a ((λ '((op, rest), _), Received (request_bytes (erase op) rest)) <$> reqs) se
      = Ret ((Waiting, []), served se tt (sent ++ iovs)) ∧
    length iovs = length reqs ∧
    Forall2 (λ '((op, _), c) iov, answered (Operation_header (erase op)) (default_answer c) iov) reqs iovs.
Proof.
  intros Ha Hreqs Hse.
  destruct (copy_requests FairyFS_init FairyFS_step a reqs se tt sent ((λ x, FuserDefaults.default_answer x.2) <$> reqs) tt)
    as (iovs & Hl & Hlen & Hall); [done| |done| | |].
  - eapply Forall_impl; [exact Hreqs|]. by intros [x c] [? _].
  - by rewrite fairy_answers, <- list_fmap_compose.
  - apply Forall_fmap. eapply Forall_impl; [exact Hreqs|]. intros [x c] [_ Hc]. by apply copy_default_sendable.
  - exists iovs. split; [exact Hl|]. split; [exact Hlen|]. clear -Hlen Hall. revert iovs Hlen Hall.
    induction reqs as [|[[op rest] c] reqs IH]; intros [|iov iovs] Hlen Hall; try done.
    apply Forall2_cons in Hall as [H1 Hall]. constructor; [by rewrite <- copy_defaults|]. apply IH; [by injection Hlen|exact Hall].
Qed.
End mounted.
