(* ===== verification/FuseMT.v ===== *)
(** * FuseMT: the multithreaded adapter (src/fuse/src/async_fuse/)

    [FuseMT] implements [Filesystem] over a file system that is given paths
    ([FilesystemMT] of [types.rs]): it keeps the inode table and the directory cache
    of InodeTable.v, and hands reads, writes, flushes and syncs to a pool of
    threads.  The reply objects of the copy of fuser it answers through have the
    methods of Reply.v; a request with no answer yet has a job in the pool.  A
    method of the target takes effect at once: concurrent jobs are run in any
    order. *)

From stdpp Require Import gmap list.
From S2P Require Import Prelude KernelInterface Time Operation Response Listing Reply Paths Session InodeTable.

Local Open Scope Z_scope.

(** ** The trait [FilesystemMT] *)

Record RequestInfo : Type := MkRequestInfo {
  info_unique : Z; info_uid : Z; info_gid : Z; info_pid : Z }.
Record DirectoryEntry : Type := MkDirectoryEntry { entry_name : OsStr; entry_kind : FileType }.
Record Statfs : Type := MkStatfs {
  st_blocks : Z; st_bfree : Z; st_bavail : Z; st_files : Z; st_ffree : Z; st_bsize : Z;
  st_namelen : Z; st_frsize : Z }.
(** [FileAttr] of types.rs: without inode number and block size. *)
Record FileAttrMT : Type := MkFileAttrMT {
  mt_size : Z; mt_blocks : Z; mt_atime : SystemTime; mt_mtime : SystemTime; mt_ctime : SystemTime;
  mt_crtime : SystemTime; mt_kind : FileType; mt_perm : Z; mt_nlink : Z; mt_uid : Z; mt_gid : Z;
  mt_rdev : Z; mt_flags : Z }.
Record CreatedEntry : Type := MkCreatedEntry {
  created_ttl : Duration; created_attr : FileAttrMT; created_fh : Z; created_flags : Z }.
Inductive Xattr : Type := XattrSize (size : Z) | XattrData (data : list Z).

(** [Result<_, libc::c_int>]. *)
Definition ResultOf (A : Type) : Type := (Z + A)%type.
Definition ResultEmpty : Type := ResultOf unit.
Definition ResultEntry : Type := ResultOf (Duration * FileAttrMT).
Definition ResultOpen : Type := ResultOf (Z * Z).
Definition ResultReaddir : Type := ResultOf (list DirectoryEntry).
Definition ResultData : Type := ResultOf (list Z).
Definition ResultWrite : Type := ResultOf Z.
Definition ResultStatfs : Type := ResultOf Statfs.
Definition ResultCreate : Type := ResultOf CreatedEntry.
Definition ResultXattr : Type := ResultOf Xattr.

(** The methods, but [init] and [destroy], with their arguments but the request, by
    the type of their result.  The callback of [read] is called once, with the
    result. *)
Inductive MtCall : Type → Type :=
  | Mt_getattr (path : PathBuf) (fh : option Z) : MtCall ResultEntry
  | Mt_chmod (path : PathBuf) (fh : option Z) (mode : Z) : MtCall ResultEmpty
  | Mt_chown (path : PathBuf) (fh uid gid : option Z) : MtCall ResultEmpty
  | Mt_truncate (path : PathBuf) (fh : option Z) (size : Z) : MtCall ResultEmpty
  | Mt_utimens (path : PathBuf) (fh : option Z) (atime mtime : option SystemTime) : MtCall ResultEmpty
  | Mt_utimens_macos (path : PathBuf) (fh : option Z) (crtime chgtime bkuptime : option SystemTime)
      (flags : option Z) : MtCall ResultEmpty
  | Mt_readlink (path : PathBuf) : MtCall ResultData
  | Mt_mknod (parent : PathBuf) (name : OsStr) (mode rdev : Z) : MtCall ResultEntry
  | Mt_mkdir (parent : PathBuf) (name : OsStr) (mode : Z) : MtCall ResultEntry
  | Mt_unlink (parent : PathBuf) (name : OsStr) : MtCall ResultEmpty
  | Mt_rmdir (parent : PathBuf) (name : OsStr) : MtCall ResultEmpty
  | Mt_symlink (parent : PathBuf) (name : OsStr) (link : Path) : MtCall ResultEntry
  | Mt_rename (parent : PathBuf) (name : OsStr) (newparent : PathBuf) (newname : OsStr) : MtCall ResultEmpty
  | Mt_link (path newparent : PathBuf) (newname : OsStr) : MtCall ResultEntry
  | Mt_open (path : PathBuf) (flags : Z) : MtCall ResultOpen
  | Mt_read (path : PathBuf) (fh offset size : Z) : MtCall ResultData
  | Mt_write (path : PathBuf) (fh offset : Z) (data : list Z) (flags : Z) : MtCall ResultWrite
  | Mt_flush (path : PathBuf) (fh lock_owner : Z) : MtCall ResultEmpty
  | Mt_release (path : PathBuf) (fh flags lock_owner : Z) (flush : bool) : MtCall ResultEmpty
  | Mt_fsync (path : PathBuf) (fh : Z) (datasync : bool) : MtCall ResultEmpty
  | Mt_opendir (path : PathBuf) (flags : Z) : MtCall ResultOpen
  | Mt_readdir (path : PathBuf) (fh : Z) : MtCall ResultReaddir
  | Mt_releasedir (path : PathBuf) (fh flags : Z) : MtCall ResultEmpty
  | Mt_fsyncdir (path : PathBuf) (fh : Z) (datasync : bool) : MtCall ResultEmpty
  | Mt_statfs (path : PathBuf) : MtCall ResultStatfs
  | Mt_setxattr (path : PathBuf) (name : OsStr) (value : list Z) (flags position : Z) : MtCall ResultEmpty
  | Mt_getxattr (path : PathBuf) (name : OsStr) (size : Z) : MtCall ResultXattr
  | Mt_listxattr (path : PathBuf) (size : Z) : MtCall ResultXattr
  | Mt_removexattr (path : PathBuf) (name : OsStr) : MtCall ResultEmpty
  | Mt_access (path : PathBuf) (mask : Z) : MtCall ResultEmpty
  | Mt_create (parent : PathBuf) (name : OsStr) (mode flags : Z) : MtCall ResultCreate.

(** An implementation, whose methods may panic, with the clock that
    [SystemTime::now] reads. *)
Class FilesystemMT (T : Type) := {
  mt_init : RequestInfo → stateM T ResultEmpty;
  mt_destroy : stateM T unit;
  mt_call : ∀ {A : Type}, RequestInfo → MtCall A → stateM T A;
  mt_now : T → SystemTime * T }.

(** ** The adapter *)

Definition fuse_fileattr (attr : FileAttrMT) (ino : Z) : FileAttr :=
  {| attr_ino' := ino; attr_size' := mt_size attr; attr_blocks' := mt_blocks attr;
     attr_atime' := mt_atime attr; attr_mtime' := mt_mtime attr; attr_ctime' := mt_ctime attr;
     attr_crtime' := mt_crtime attr; attr_kind := mt_kind attr; attr_perm := mt_perm attr;
     attr_nlink' := mt_nlink attr; attr_uid' := mt_uid attr; attr_gid' := mt_gid attr;
     attr_rdev' := mt_rdev attr; attr_blksize' := 4096; attr_flags' := mt_flags attr |}.

Abbreviation inode_table := (InodeTable (P := PathBuf)).
Abbreviation directory_cache := (DirectoryCache (DirectoryEntry := DirectoryEntry)).

(** A closure given to the pool, with what it has captured. *)
Inductive Job : Type :=
  | JobRead (info : RequestInfo) (path : PathBuf) (fh offset size : Z)
  | JobWrite (info : RequestInfo) (path : PathBuf) (fh offset : Z) (data : list Z) (flags : Z)
  | JobFlush (info : RequestInfo) (path : PathBuf) (fh lock_owner : Z)
  | JobFsync (info : RequestInfo) (path : PathBuf) (fh : Z) (datasync : bool).
Definition job_info (j : Job) : RequestInfo :=
  match j with
  | JobRead info _ _ _ _ | JobWrite info _ _ _ _ _ | JobFlush info _ _ _ | JobFsync info _ _ _ => info
  end.

(** The pool is the list of the jobs it was given and has not run. *)
Record FuseMT (T : Type) : Type := MkFuseMT {
  mt_target : T;
  mt_inodes : inode_table;
  mt_threads : option (list Job);
  mt_num_threads : Z;
  mt_directory_cache : directory_cache }.
Arguments MkFuseMT {T}.
Arguments mt_target {T} _.
Arguments mt_inodes {T} _.
Arguments mt_threads {T} _.
Arguments mt_num_threads {T} _.
Arguments mt_directory_cache {T} _.

Definition root_path : PathBuf := [].
Definition FuseMT_new {T} (target_fs : T) (num_threads : Z) : FuseMT T :=
  MkFuseMT target_fs (InodeTable_new root_path) None num_threads DirectoryCache_new.

Section adapter.
Context `{B : Build, C : Libc, F : LibcFs} {T : Type} `{MT : FilesystemMT T}.

Abbreviation M := (stateM (FuseMT T)).

Definition with_target (t : T) (st : FuseMT T) : FuseMT T :=
  MkFuseMT t (mt_inodes st) (mt_threads st) (mt_num_threads st) (mt_directory_cache st).
Definition with_inodes (i : inode_table) (st : FuseMT T) : FuseMT T :=
  MkFuseMT (mt_target st) i (mt_threads st) (mt_num_threads st) (mt_directory_cache st).
Definition with_threads (j : option (list Job)) (st : FuseMT T) : FuseMT T :=
  MkFuseMT (mt_target st) (mt_inodes st) j (mt_num_threads st) (mt_directory_cache st).
Definition with_directory_cache (c : directory_cache) (st : FuseMT T) : FuseMT T :=
  MkFuseMT (mt_target st) (mt_inodes st) (mt_threads st) (mt_num_threads st) c.

(** A call of the target, and operations on the two tables. *)
Definition call_target {A} (info : RequestInfo) (c : MtCall A) : M A := λ st,
  '(a, t) ← mt_call info c (mt_target st); Ret (a, with_target t st).
Definition on_inodes {A} (f : inode_table → outcome (A * inode_table)) : M A := λ st,
  '(a, i) ← f (mt_inodes st); Ret (a, with_inodes i st).
Definition SystemTime_now : M SystemTime := λ st,
  let '(a, t) := mt_now (mt_target st) in Ret (a, with_target t st).

(** The macro [get_path]. *)
Definition get_path (ino : Z) (k : PathBuf → M (option Answer)) : M (option Answer) :=
  path ← on_inodes (λ i, p ← InodeTable_get_path i ino; Ret (p, i));
  match path with Some path => k path | None => mret (Some (AError EINVAL)) end.

(** [Err(e) => reply.error(e)]. *)
Definition or_error {A} (r : ResultOf A) (k : A → M (option Answer)) : M (option Answer) :=
  match r with inr a => k a | inl e => mret (Some (AError e)) end.
Definition answer (a : Answer) : M (option Answer) := mret (Some a).
(** A result that is answered by a value. *)
Definition answer_with {A} (r : ResultOf A) (f : A → Answer) : Answer :=
  match r with inr a => f a | inl e => AError e end.

(** A target method that is asked for an empty result. *)
Definition call_empty (info : RequestInfo) (c : MtCall ResultEmpty) : M (option Answer) :=
  r ← call_target info c; answer (answer_with r (λ _, AEmpty)).

(** What the closures do when they run. *)
Definition run_job (j : Job) : M Answer :=
  match j with
  | JobRead info path fh offset size =>
      r ← call_target info (Mt_read path fh offset size); mret (answer_with r AData)
  | JobWrite info path fh offset data flags =>
      r ← call_target info (Mt_write path fh offset data flags); mret (answer_with r AWritten)
  | JobFlush info path fh lock_owner =>
      r ← call_target info (Mt_flush path fh lock_owner); mret (answer_with r (λ _, AEmpty))
  | JobFsync info path fh datasync =>
      r ← call_target info (Mt_fsync path fh datasync); mret (answer_with r (λ _, AEmpty))
  end.

Definition threadpool_run (j : Job) : M (option Answer) :=
  st ← gets id;
  if mt_num_threads st =? 0 then a ← run_job j; answer a
  else
    modify (with_threads (Some (default [] (mt_threads st) ++ [j])));;
    mret None.

(** A new path is answered with its inode. *)
Definition add_entry (ttl : Duration) (attr : FileAttrMT) (path : PathBuf) : M (option Answer) :=
  '(ino, generation) ← on_inodes (λ i, InodeTable_add i path);
  answer (AEntry ttl (fuse_fileattr attr ino) generation).

Definition FuseMT_init (info : RequestInfo) : M ResultEmpty := λ st,
  '(r, t) ← mt_init info (mt_target st); Ret (r, with_target t st).
Definition FuseMT_destroy : M unit := λ st,
  '(_, t) ← mt_destroy (mt_target st); Ret (tt, with_target t st).

Definition FuseMT_lookup (info : RequestInfo) (parent : Z) (name : OsStr) : M (option Answer) :=
  get_path parent (λ parent_path,
    let path := join parent_path name in
    r ← call_target info (Mt_getattr path None);
    or_error r (λ '(ttl, attr),
      '(ino, generation) ← on_inodes (λ i, InodeTable_add_or_get i path);
      on_inodes (λ i, i ← InodeTable_lookup i ino; Ret (tt, i));;
      answer (AEntry ttl (fuse_fileattr attr ino) generation))).

(** The path is looked up for the log message. *)
Definition FuseMT_forget (ino nlookup : Z) : M unit :=
  on_inodes (λ i, p ← InodeTable_get_path i ino; Ret (p, i));;
  on_inodes (λ i, InodeTable_forget i ino nlookup);;
  mret tt.
(** The default method. *)
Fixpoint batch_forget (nodes : list (Z * Z)) : M unit :=
  match nodes with
  | [] => mret tt
  | (nodeid, nlookup) :: nodes => FuseMT_forget nodeid nlookup;; batch_forget nodes
  end.

Definition FuseMT_getattr (info : RequestInfo) (ino : Z) : M (option Answer) :=
  get_path ino (λ path,
    r ← call_target info (Mt_getattr path None);
    answer (answer_with r (λ '(ttl, attr), AAttr ttl (fuse_fileattr attr ino)))).

(** [TimeOrNow::time]. *)
Definition TimeOrNow_time (t : TimeOrNow) : M SystemTime :=
  match t with SpecificTime t => mret t | Now => SystemTime_now end.
Definition map_time (t : option TimeOrNow) : M (option SystemTime) :=
  match t with Some t => t ← TimeOrNow_time t; mret (Some t) | None => mret None end.

(** One of the calls [setattr] is split into: made if it is wanted, and ending the
    request if it fails. *)
Definition setattr_part (info : RequestInfo) (wanted : bool) (c : M (MtCall ResultEmpty))
    (k : M (option Answer)) : M (option Answer) :=
  if wanted then c ← c; r ← call_target info c; or_error r (λ _, k) else k.
Definition is_some {A} (o : option A) : bool := match o with Some _ => true | None => false end.

Definition FuseMT_setattr (info : RequestInfo) (ino : Z) (mode uid gid size : option Z)
    (atime mtime : option TimeOrNow) (fh : option Z) (crtime chgtime bkuptime : option SystemTime)
    (flags : option Z) : M (option Answer) :=
  get_path ino (λ path,
    setattr_part info (is_some mode) (mret (Mt_chmod path fh (default 0 mode)))
    (setattr_part info (is_some uid || is_some gid) (mret (Mt_chown path fh uid gid))
    (setattr_part info (is_some size) (mret (Mt_truncate path fh (default 0 size)))
    (setattr_part info (is_some atime || is_some mtime)
      (atime ← map_time atime; mtime ← map_time mtime; mret (Mt_utimens path fh atime mtime))
    (setattr_part info (is_some crtime || is_some chgtime || is_some bkuptime || is_some flags)
      (mret (Mt_utimens_macos path fh crtime chgtime bkuptime flags))
    (r ← call_target info (Mt_getattr path fh);
     answer (answer_with r (λ '(ttl, attr), AAttr ttl (fuse_fileattr attr ino))))))))).

Definition FuseMT_readlink (info : RequestInfo) (ino : Z) : M (option Answer) :=
  get_path ino (λ path, r ← call_target info (Mt_readlink path); answer (answer_with r AData)).

Definition FuseMT_mknod (info : RequestInfo) (parent : Z) (name : OsStr) (mode rdev : Z)
    : M (option Answer) :=
  get_path parent (λ parent_path,
    r ← call_target info (Mt_mknod parent_path name mode rdev);
    or_error r (λ '(ttl, attr), add_entry ttl attr (join parent_path name))).
Definition FuseMT_mkdir (info : RequestInfo) (parent : Z) (name : OsStr) (mode : Z) : M (option Answer) :=
  get_path parent (λ parent_path,
    r ← call_target info (Mt_mkdir parent_path name mode);
    or_error r (λ '(ttl, attr), add_entry ttl attr (join parent_path name))).
Definition FuseMT_unlink (info : RequestInfo) (parent : Z) (name : OsStr) : M (option Answer) :=
  get_path parent (λ parent_path,
    r ← call_target info (Mt_unlink parent_path name);
    or_error r (λ _,
      on_inodes (λ i, Ret (tt, InodeTable_unlink i (join parent_path name)));; answer AEmpty)).
Definition FuseMT_rmdir (info : RequestInfo) (parent : Z) (name : OsStr) : M (option Answer) :=
  get_path parent (λ parent_path, call_empty info (Mt_rmdir parent_path name)).
Definition FuseMT_symlink (info : RequestInfo) (parent : Z) (name : OsStr) (link : Path)
    : M (option Answer) :=
  get_path parent (λ parent_path,
    r ← call_target info (Mt_symlink parent_path name link);
    or_error r (λ '(ttl, attr), add_entry ttl attr (join parent_path name))).
Definition FuseMT_rename (info : RequestInfo) (parent : Z) (name : OsStr) (newparent : Z)
    (newname : OsStr) : M (option Answer) :=
  get_path parent (λ parent_path,
    get_path newparent (λ newparent_path,
      r ← call_target info (Mt_rename parent_path name newparent_path newname);
      or_error r (λ _,
        on_inodes (λ i,
          i ← InodeTable_rename i (join parent_path name) (join newparent_path newname); Ret (tt, i));;
        answer AEmpty))).
Definition FuseMT_link (info : RequestInfo) (ino newparent : Z) (newname : OsStr) : M (option Answer) :=
  get_path ino (λ path,
    get_path newparent (λ newparent_path,
      r ← call_target info (Mt_link path newparent_path newname);
      or_error r (λ '(ttl, attr), add_entry ttl attr (join newparent_path newname)))).

Definition FuseMT_open (info : RequestInfo) (ino flags : Z) : M (option Answer) :=
  get_path ino (λ path,
    r ← call_target info (Mt_open path (wrap 32 flags));
    answer (answer_with r (λ '(fh, flags), AOpened fh flags))).
Definition FuseMT_read (info : RequestInfo) (ino fh offset size : Z) : M (option Answer) :=
  get_path ino (λ path,
    if offset <? 0 then answer (AError EINVAL)
    else threadpool_run (JobRead info path fh offset size)).
Definition FuseMT_write (info : RequestInfo) (ino fh offset : Z) (data : list Z) (flags : Z)
    : M (option Answer) :=
  get_path ino (λ path,
    if offset <? 0 then answer (AError EINVAL)
    else threadpool_run (JobWrite info path fh offset data (wrap 32 flags))).
Definition FuseMT_flush (info : RequestInfo) (ino fh lock_owner : Z) : M (option Answer) :=
  get_path ino (λ path, threadpool_run (JobFlush info path fh lock_owner)).
Definition FuseMT_release (info : RequestInfo) (ino fh flags : Z) (lock_owner : option Z)
    (flush : bool) : M (option Answer) :=
  get_path ino (λ path,
    call_empty info (Mt_release path fh (wrap 32 flags) (default 0 lock_owner) flush)).
Definition FuseMT_fsync (info : RequestInfo) (ino fh : Z) (datasync : bool) : M (option Answer) :=
  get_path ino (λ path, threadpool_run (JobFsync info path fh datasync)).

Definition FuseMT_opendir (info : RequestInfo) (ino flags : Z) : M (option Answer) :=
  get_path ino (λ path,
    r ← call_target info (Mt_opendir path (wrap 32 flags));
    or_error r (λ '(fh, flags),
      st ← gets id;
      let '(dcache_key, c) := DirectoryCache_new_entry (mt_directory_cache st) fh in
      modify (with_directory_cache c);; answer (AOpened dcache_key flags))).

(** The entries of an open directory, fetched at the first READDIR. *)
Definition fetch_entries (info : RequestInfo) (path : PathBuf) (key : Z) : M ResultReaddir :=
  st ← gets id;
  dcache_entry ← lift (unwrap (cache_entries (mt_directory_cache st) !! key));
  match entries dcache_entry with
  | Some es => mret (inr es)
  | None =>
      r ← call_target info (Mt_readdir path (fh dcache_entry));
      match r with
      | inr es =>
          st ← gets id;
          c ← lift (DirectoryCache_get_mut (mt_directory_cache st) key (λ e, mkDirEntry (fh e) (Some es)));
          modify (with_directory_cache c);; mret (inr es)
      | inl e => mret (inl e)
      end
  end.

(** [entry.name == Path::new(".")] and with [..], which compare components. *)
Definition is_dot (name : OsStr) : bool :=
  bool_decide (head (split_slash name) = Some dot ∧ components name = []).
Definition is_dotdot (name : OsStr) : bool :=
  bool_decide (head (split_slash name) = Some dotdot ∧ components name = [dotdot]).

(** [!1], for entries whose inode is not looked up. *)
Definition unknown_inode : Z := 2 ^ 64 - 2.
Definition entry_inode (ino parent_inode : Z) (name : OsStr) : Z :=
  if is_dot name then ino else if is_dotdot name then parent_inode else unknown_inode.

Fixpoint mt_readdir_loop (ino parent_inode offset : Z) (es : list DirectoryEntry) (index : Z)
    (reply : EntListBuf) : outcome EntListBuf :=
  match es with
  | [] => Ret reply
  | entry :: es =>
      pos ← i64_add offset index;
      pos ← i64_add pos 1;
      '(buffer_full, reply) ←
        DirEntList_push (MkDirEntry (entry_inode ino parent_inode (entry_name entry)) pos
          (entry_kind entry) (entry_name entry)) reply;
      if (buffer_full : bool) then Ret reply
      else mt_readdir_loop ino parent_inode offset es (index + 1) reply
  end.

Definition FuseMT_readdir (info : RequestInfo) (ino fh offset : Z) (reply : EntListBuf)
    : M (option Answer) :=
  get_path ino (λ path,
    if offset <? 0 then answer (AError EINVAL) else
    r ← fetch_entries info path fh;
    or_error r (λ es,
      parent_inode ←
        (if ino =? 1 then mret (Some ino)
         else
           parent_path ← lift (unwrap (parent_of path));
           gets (λ st, InodeTable_get_inode (mt_inodes st) parent_path));
      match parent_inode with
      | None => answer (AError EIO)
      | Some parent_inode =>
          reply ← lift (mt_readdir_loop ino parent_inode offset (drop (Z.to_nat offset) es) 0 reply);
          answer (ADirectory reply)
      end)).

(** A directory handle is the key of the cache. *)
Definition real_fh (key : Z) : M Z :=
  st ← gets id; lift (DirectoryCache_real_fh (mt_directory_cache st) key).
Definition FuseMT_releasedir (info : RequestInfo) (ino fh flags : Z) : M (option Answer) :=
  get_path ino (λ path,
    f ← real_fh fh;
    a ← call_empty info (Mt_releasedir path f (wrap 32 flags));
    modify (λ st, with_directory_cache (DirectoryCache_delete (mt_directory_cache st) fh) st);;
    mret a).
Definition FuseMT_fsyncdir (info : RequestInfo) (ino fh : Z) (datasync : bool) : M (option Answer) :=
  get_path ino (λ path, f ← real_fh fh; call_empty info (Mt_fsyncdir path f datasync)).

Definition FuseMT_statfs (info : RequestInfo) (ino : Z) : M (option Answer) :=
  let reply path :=
    r ← call_target info (Mt_statfs path);
    answer (answer_with r (λ s, AStatfs (st_blocks s) (st_bfree s) (st_bavail s) (st_files s)
      (st_ffree s) (st_bsize s) (st_namelen s) (st_frsize s))) in
  if ino =? 1 then reply root_path else get_path ino reply.

Definition FuseMT_setxattr (info : RequestInfo) (ino : Z) (name : OsStr) (value : list Z)
    (flags position : Z) : M (option Answer) :=
  get_path ino (λ path, call_empty info (Mt_setxattr path name value (wrap 32 flags) position)).
Definition xattr_answer (x : Xattr) : Answer :=
  match x with XattrSize size => AXattrSize size | XattrData vec => AXattrData vec end.
Definition FuseMT_getxattr (info : RequestInfo) (ino : Z) (name : OsStr) (size : Z)
    : M (option Answer) :=
  get_path ino (λ path,
    r ← call_target info (Mt_getxattr path name size); answer (answer_with r xattr_answer)).
Definition FuseMT_listxattr (info : RequestInfo) (ino size : Z) : M (option Answer) :=
  get_path ino (λ path,
    r ← call_target info (Mt_listxattr path size); answer (answer_with r xattr_answer)).
Definition FuseMT_removexattr (info : RequestInfo) (ino : Z) (name : OsStr) : M (option Answer) :=
  get_path ino (λ path, call_empty info (Mt_removexattr path name)).
Definition FuseMT_access (info : RequestInfo) (ino mask : Z) : M (option Answer) :=
  get_path ino (λ path, call_empty info (Mt_access path (wrap 32 mask))).
Definition FuseMT_create (info : RequestInfo) (parent : Z) (name : OsStr) (mode flags : Z)
    : M (option Answer) :=
  get_path parent (λ parent_path,
    r ← call_target info (Mt_create parent_path name mode (wrap 32 flags));
    or_error r (λ create,
      '(ino, generation) ← on_inodes (λ i, InodeTable_add i (join parent_path name));
      answer (ACreated (created_ttl create) (fuse_fileattr (created_attr create) ino) generation
        (created_fh create) (created_flags create)))).

(** [impl Filesystem for FuseMT]; the methods it does not define answer ENOSYS. *)
Definition FuseMT_call (info : RequestInfo) (c : FsCall) : M (option Answer) :=
  match c with
  | Fs_lookup parent name => FuseMT_lookup info parent name
  | Fs_forget ino nlookup => FuseMT_forget ino nlookup;; mret None
  | Fs_batch_forget nodes =>
      batch_forget ((λ n, (forget_one_nodeid n, forget_one_nlookup n)) <$> nodes);; mret None
  | Fs_getattr ino => FuseMT_getattr info ino
  | Fs_setattr ino mode uid gid size atime mtime _ fh crtime chgtime bkuptime flags =>
      FuseMT_setattr info ino mode uid gid size atime mtime fh crtime chgtime bkuptime flags
  | Fs_readlink ino => FuseMT_readlink info ino
  | Fs_mknod parent name mode _ rdev => FuseMT_mknod info parent name mode rdev
  | Fs_mkdir parent name mode _ => FuseMT_mkdir info parent name mode
  | Fs_unlink parent name => FuseMT_unlink info parent name
  | Fs_rmdir parent name => FuseMT_rmdir info parent name
  | Fs_symlink parent name link => FuseMT_symlink info parent name link
  | Fs_rename parent name newparent newname _ => FuseMT_rename info parent name newparent newname
  | Fs_link ino newparent newname => FuseMT_link info ino newparent newname
  | Fs_open ino flags => FuseMT_open info ino flags
  | Fs_read ino fh offset size _ _ => FuseMT_read info ino fh offset size
  | Fs_write ino fh offset data _ flags _ => FuseMT_write info ino fh offset data flags
  | Fs_flush ino fh lock_owner => FuseMT_flush info ino fh lock_owner
  | Fs_release ino fh flags lock_owner flush => FuseMT_release info ino fh flags lock_owner flush
  | Fs_fsync ino fh datasync => FuseMT_fsync info ino fh datasync
  | Fs_opendir ino flags => FuseMT_opendir info ino flags
  | Fs_readdir ino fh offset list => FuseMT_readdir info ino fh offset list
  | Fs_releasedir ino fh flags => FuseMT_releasedir info ino fh flags
  | Fs_fsyncdir ino fh datasync => FuseMT_fsyncdir info ino fh datasync
  | Fs_statfs ino => FuseMT_statfs info ino
  | Fs_setxattr ino name value flags position => FuseMT_setxattr info ino name value flags position
  | Fs_getxattr ino name size => FuseMT_getxattr info ino name size
  | Fs_listxattr ino size => FuseMT_listxattr info ino size
  | Fs_removexattr ino name => FuseMT_removexattr info ino name
  | Fs_access ino mask => FuseMT_access info ino mask
  | Fs_create parent name mode _ flags => FuseMT_create info parent name mode flags
  | Fs_readdirplus _ _ _ _ | Fs_getlk _ _ _ _ _ _ _ | Fs_setlk _ _ _ _ _ _ _ _ | Fs_bmap _ _ _
  | Fs_ioctl _ _ _ _ _ _ | Fs_fallocate _ _ _ _ _ | Fs_lseek _ _ _ _
  | Fs_copy_file_range _ _ _ _ _ _ _ _ => answer (AError ENOSYS)
  end.

(** ** Runs

    A step is a request, or a thread of the pool that takes a job; it gives the
    answers that are sent, by the request they answer. *)
Inductive mt_step : Type :=
  | MtRequest (info : RequestInfo) (c : FsCall)
  | MtJob (k : nat).

Definition mt_do (s : mt_step) : M (list (Z * Answer)) :=
  match s with
  | MtRequest info c =>
      a ← FuseMT_call info c;
      mret match a with Some a => [(info_unique info, a)] | None => [] end
  | MtJob k =>
      st ← gets id;
      let jobs := default [] (mt_threads st) in
      match jobs !! k with
      | None => mret []
      | Some j =>
          modify (with_threads (Some (delete k jobs)));;
          a ← run_job j; mret [(info_unique (job_info j), a)]
      end
  end.
Fixpoint mt_run (steps : list mt_step) : M (list (list (Z * Answer))) :=
  match steps with
  | [] => mret []
  | s :: steps => a ← mt_do s; l ← mt_run steps; mret (a :: l)
  end.
End adapter.
