(* ===== verification/MtDefaults.v ===== *)
(** * MtDefaults: the methods the trait [FilesystemMT] provides (async_fuse/types.rs)

    [init] succeeds, [destroy] does nothing, and any other method is refused with
    ENOSYS; [read] gives its callback that error. *)

From S2P Require Import Prelude KernelInterface Time Operation Response Listing Reply Paths Session FuseMT.

Local Open Scope Z_scope.

Section mt_defaults.
Context `{C : Libc}.

Definition mt_default_init (req : RequestInfo) : ResultEmpty := inr tt.
Definition mt_default_destroy {T} (fs : T) : T := fs.
Definition mt_default_getattr (path : PathBuf) (fh : option Z) : ResultEntry := inl ENOSYS.
Definition mt_default_chmod (path : PathBuf) (fh : option Z) (mode : Z) : ResultEmpty := inl ENOSYS.
Definition mt_default_chown (path : PathBuf) (fh uid gid : option Z) : ResultEmpty := inl ENOSYS.
Definition mt_default_truncate (path : PathBuf) (fh : option Z) (size : Z) : ResultEmpty := inl ENOSYS.
Definition mt_default_utimens (path : PathBuf) (fh : option Z)
    (atime mtime : option SystemTime) : ResultEmpty := inl ENOSYS.
Definition mt_default_utimens_macos (path : PathBuf) (fh : option Z)
    (crtime chgtime bkuptime : option SystemTime) (flags : option Z) : ResultEmpty := inl ENOSYS.
Definition mt_default_readlink (path : PathBuf) : ResultData := inl ENOSYS.
Definition mt_default_mknod (parent : PathBuf) (name : OsStr) (mode rdev : Z) : ResultEntry := inl ENOSYS.
Definition mt_default_mkdir (parent : PathBuf) (name : OsStr) (mode : Z) : ResultEntry := inl ENOSYS.
Definition mt_default_unlink (parent : PathBuf) (name : OsStr) : ResultEmpty := inl ENOSYS.
Definition mt_default_rmdir (parent : PathBuf) (name : OsStr) : ResultEmpty := inl ENOSYS.
Definition mt_default_symlink (parent : PathBuf) (name : OsStr) (link : Path) : ResultEntry := inl ENOSYS.
Definition mt_default_rename (parent : PathBuf) (name : OsStr) (newparent : PathBuf)
    (newname : OsStr) : ResultEmpty := inl ENOSYS.
Definition mt_default_link (path newparent : PathBuf) (newname : OsStr) : ResultEntry := inl ENOSYS.
Definition mt_default_open (path : PathBuf) (flags : Z) : ResultOpen := inl ENOSYS.
Definition mt_default_read (path : PathBuf) (fh offset size : Z) : ResultData := inl ENOSYS.
Definition mt_default_write (path : PathBuf) (fh offset : Z) (data : list Z) (flags : Z) : ResultWrite := inl ENOSYS.
Definition mt_default_flush (path : PathBuf) (fh lock_owner : Z) : ResultEmpty := inl ENOSYS.
Definition mt_default_release (path : PathBuf) (fh flags lock_owner : Z) (flush : bool) : ResultEmpty := inl ENOSYS.
Definition mt_default_fsync (path : PathBuf) (fh : Z) (datasync : bool) : ResultEmpty := inl ENOSYS.
Definition mt_default_opendir (path : PathBuf) (flags : Z) : ResultOpen := inl ENOSYS.
Definition mt_default_readdir (path : PathBuf) (fh : Z) : ResultReaddir := inl ENOSYS.
Definition mt_default_releasedir (path : PathBuf) (fh flags : Z) : ResultEmpty := inl ENOSYS.
Definition mt_default_fsyncdir (path : PathBuf) (fh : Z) (datasync : bool) : ResultEmpty := inl ENOSYS.
Definition mt_default_statfs (path : PathBuf) : ResultStatfs := inl ENOSYS.
Definition mt_default_setxattr (path : PathBuf) (name : OsStr) (value : list Z)
    (flags position : Z) : ResultEmpty := inl ENOSYS.
Definition mt_default_getxattr (path : PathBuf) (name : OsStr) (size : Z) : ResultXattr := inl ENOSYS.
Definition mt_default_listxattr (path : PathBuf) (size : Z) : ResultXattr := inl ENOSYS.
Definition mt_default_removexattr (path : PathBuf) (name : OsStr) : ResultEmpty := inl ENOSYS.
Definition mt_default_access (path : PathBuf) (mask : Z) : ResultEmpty := inl ENOSYS.
Definition mt_default_create (parent : PathBuf) (name : OsStr) (mode flags : Z) : ResultCreate := inl ENOSYS.

(** A file system that implements no method. *)
Definition mt_default {A} (c : MtCall A) : A :=
  match c in MtCall A return A with
  | Mt_getattr path fh => mt_default_getattr path fh
  | Mt_chmod path fh mode => mt_default_chmod path fh mode
  | Mt_chown path fh uid gid => mt_default_chown path fh uid gid
  | Mt_truncate path fh size => mt_default_truncate path fh size
  | Mt_utimens path fh atime mtime => mt_default_utimens path fh atime mtime
  | Mt_utimens_macos path fh crtime chgtime bkuptime flags => mt_default_utimens_macos path fh crtime chgtime
    bkuptime flags
  | Mt_readlink path => mt_default_readlink path
  | Mt_mknod parent name mode rdev => mt_default_mknod parent name mode rdev
  | Mt_mkdir parent name mode => mt_default_mkdir parent name mode
  | Mt_unlink parent name => mt_default_unlink parent name
  | Mt_rmdir parent name => mt_default_rmdir parent name
  | Mt_symlink parent name link => mt_default_symlink parent name link
  | Mt_rename parent name newparent newname => mt_default_rename parent name newparent newname
  | Mt_link path newparent newname => mt_default_link path newparent newname
  | Mt_open path flags => mt_default_open path flags
  | Mt_read path fh offset size => mt_default_read path fh offset size
  | Mt_write path fh offset data flags => mt_default_write path fh offset data flags
  | Mt_flush path fh lock_owner => mt_default_flush path fh lock_owner
  | Mt_release path fh flags lock_owner flush => mt_default_release path fh flags lock_owner flush
  | Mt_fsync path fh datasync => mt_default_fsync path fh datasync
  | Mt_opendir path flags => mt_default_opendir path flags
  | Mt_readdir path fh => mt_default_readdir path fh
  | Mt_releasedir path fh flags => mt_default_releasedir path fh flags
  | Mt_fsyncdir path fh datasync => mt_default_fsyncdir path fh datasync
  | Mt_statfs path => mt_default_statfs path
  | Mt_setxattr path name value flags position => mt_default_setxattr path name value flags position
  | Mt_getxattr path name size => mt_default_getxattr path name size
  | Mt_listxattr path size => mt_default_listxattr path size
  | Mt_removexattr path name => mt_default_removexattr path name
  | Mt_access path mask => mt_default_access path mask
  | Mt_create parent name mode flags => mt_default_create parent name mode flags
  end.

#[export] Instance no_methods (now : SystemTime) : FilesystemMT unit := {|
  mt_init req fs := Ret (mt_default_init req, fs);
  mt_destroy fs := Ret (tt, mt_default_destroy fs);
  mt_call _ _ c fs := Ret (mt_default c, fs);
  mt_now fs := (now, fs) |}.
End mt_defaults.
