(* ===== verification/FuseMTRuns.v ===== *)
(** * FuseMTRuns: runs of the multithreaded adapter

    What holds over every sequence of requests and jobs: the lookup counts are the
    kernel's, so that what the kernel holds keeps its path, and every request is
    answered once, however the threads are scheduled.  A listing is the snapshot
    taken by its first page.  And two sequences of legal requests that panic. *)

From stdpp Require Import gmap list.
From S2P Require Import Prelude Wire KernelInterface Time Operation Response Listing Reply Paths Session.
From S2P Require Import InodeTable FuseMT.

Local Open Scope Z_scope.

(** ** Lookup counts *)

Section counts.
Context `{B : Build}.
Implicit Types (t : inode_table) (e : InodeTableEntry (P := PathBuf)).

Definition count t (i : Z) : Z :=
  match table t !! Z.to_nat (i - 1) with Some e => lookups e | None => 0 end.
(** The entries without a path are those without a lookup. *)
Definition paired t : Prop := ∀ idx e, idx ≠ 0%nat → table t !! idx = Some e →
  path e = None ↔ lookups e = 0.
Definition sound t : Prop := table_wf t ∧ paired t.

(** From [t] to [t'] the counts change by [d], and there is at most one entry more. *)
Definition moves t t' (d : Z → Z) : Prop :=
  sound t' ∧ (length (table t') ≤ S (length (table t)))%nat ∧
  ∀ i, 1 < i → count t' i = count t i + d i.
Definition one (j i : Z) : Z := if i =? j then 1 else 0.
Definition none (i : Z) : Z := 0.

Lemma moves_refl t : sound t → moves t t none.
Proof. intros Hs. split; [done|split; [lia|]]. intros i _. unfold none. lia. Qed.

Lemma one_entry_more {A} (l l' : list A) idx :
  (∀ j, j ≠ idx → l' !! j = l !! j) → (length l' ≤ S (length l))%nat.
Proof.
  intros Hl. destruct (decide (length l' ≤ S (length l))%nat) as [|Hlt]; [done|].
  assert (∀ j, (length l ≤ j < length l')%nat → j = idx) as Hj.
  { intros j Hj. destruct (decide (j = idx)) as [|Hne]; [done|]. apply Hl in Hne.
    rewrite (lookup_ge_None_2 l) in Hne by lia. apply lookup_ge_None in Hne. lia. }
  pose proof (Hj (length l) ltac:(lia)). pose proof (Hj (S (length l)) ltac:(lia)). lia.
Qed.

Lemma count_insert t l idx e l' i :
  table t !! idx = Some e → 1 < i →
  count (mkTable (<[idx := l]> (table t)) l' (by_path t)) i =
    if decide (i = inode_of idx) then lookups l else count t i.
Proof.
  intros He Hi. unfold count, inode_of. cbn [table]. rewrite (insert_at _ _ e) by done.
  case_decide; case_decide; try lia; done.
Qed.

(** A free entry comes without lookups. *)
Lemma get_inode_entry_lookups t idx e t' :
  sound t → get_inode_entry t = Ret (idx, e, t') → lookups e = 0.
Proof.
  intros [Hwf Hp]. unfold get_inode_entry. destruct (free_list t) as [|j free] eqn:Hf.
  - by intros [= _ <- _].
  - assert (j ∈ free_list t) as Hj by (rewrite Hf; left).
    apply (wf_free _ Hwf) in Hj as (e0 & He0 & Hp0). rewrite He0. simpl.
    destruct (uadd 64 _ 1); [|done|done]. intros [= <- <- _]. simpl.
    apply (Hp j); [|done..]. intros ->. destruct (wf_root _ Hwf) as (e1 & p & He1 & ?). congruence.
Qed.

(** The entry of a new path, with [n] lookups. *)
Lemma fresh_count t idx e t1 t' p n l :
  sound t → fresh_entry t idx e t1 → table_wf t' → 0 ≤ l →
  (∀ j, table t' !! j = if decide (j = idx) then Some (mkEntry (Some p) l n) else table t !! j) →
  (∀ i, 1 < i → count t' i = if decide (i = inode_of idx) then l else count t i) ∧
  (∀ i, 1 < i → i = inode_of idx → count t i = 0).
Proof.
  intros [Hwf Hp] Hfe Hwf' Hl Hlk. unfold count, inode_of. split.
  - intros i Hi. rewrite Hlk. case_decide; case_decide; try lia; done.
  - intros i Hi ->. replace (Z.to_nat _) with idx by lia.
    pose proof (fe_old _ _ _ _ Hfe) as Ho. destruct (table t !! idx) as [e0|] eqn:He0; [|done].
    destruct Ho as [Ho _]. by apply (Hp idx _ (fe_idx _ _ _ _ Hfe) He0).
Qed.

Lemma add_moves t p h t' :
  sound t → InodeTable_add t p = Ret (h, t') → moves t t' (one h.1).
Proof.
  intros Hs Hadd. pose proof (permits_eq _ _ _ (add_spec t p (proj1 Hs)) Hadd) as Hspec.
  destruct Hspec as (Hwf' & idx & e & t1 & Hfe & -> & Hlk & _ & _).
  destruct (fresh_count t idx e t1 t' p (generation e) 1 Hs Hfe Hwf' ltac:(lia) Hlk) as [Hc H0].
  split; [split; [done|]|split].
  - intros j e' Hj. rewrite Hlk. case_decide; [intros [= <-]; simpl; by split; [|lia]|]. by apply Hs.
  - apply (one_entry_more _ _ idx). intros j Hj. by rewrite Hlk, decide_False.
  - intros i Hi. rewrite Hc by done. unfold one. cbn [fst].
    case_decide as Heq; [rewrite (proj2 (Z.eqb_eq _ _) Heq), (H0 _ Hi Heq); lia|].
    rewrite (proj2 (Z.eqb_neq _ _) Heq). lia.
Qed.

(** [lookup] counts one more for the inode it is given. *)
Lemma lookup_one t i t' idx :
  table_wf t → (∀ j e, j ≠ 0%nat → j ≠ idx → table t !! j = Some e → path e = None ↔ lookups e = 0) →
  i = inode_of idx → Z.of_nat (length (table t)) < 2 ^ 63 →
  (∃ e, table t !! idx = Some e ∧ path e ≠ None ∧ 0 ≤ lookups e ∧ (idx ≠ 0%nat → lookups e + 1 < 2 ^ 64)) →
  InodeTable_lookup t i = Ret t' → moves t t' (one i).
Proof.
  intros Hwf Hp Hi Hlen (e & He & Hpe & Hl0 & Hl) Hlook.
  pose proof (permits_eq _ _ _ (lookup_spec t i Hwf) Hlook) as (Hwf' & _ & Hcase).
  pose proof (lookup_lt_Some _ _ _ He) as Hidx.
  case_bool_decide as H1.
  - subst t'. assert (idx = 0%nat) as -> by (unfold inode_of in Hi; lia). split; [split; [done|]|split; [lia|]].
    + intros j e' Hj. by apply Hp.
    + intros k Hk. unfold one. rewrite (proj2 (Z.eqb_neq k i)) by lia. lia.
  - destruct Hcase as (idx' & e' & n & He' & Hii & Hn & Ht).
    assert (idx' = idx) as -> by (unfold inode_of in *; lia).
    assert (e' = e) as -> by congruence. assert (idx ≠ 0%nat) as H0 by (intros ->; by apply H1).
    specialize (Hl H0). rewrite uadd_small in Hn by lia. injection Hn as <-.
    assert (∀ j, table t' !! j = if decide (j = idx)
      then Some (mkEntry (path e) (lookups e + 1) (generation e)) else table t !! j) as Hlk.
    { intros j. rewrite Ht. exact (insert_at _ _ _ _ j He). }
    split; [split; [done|]|split].
    + intros j e1 Hj. rewrite Hlk. case_decide; [intros [= <-]; cbn; split; [done|lia]|]. by apply Hp.
    + rewrite Ht, length_insert. lia.
    + intros k Hk. unfold count, one. rewrite Hlk. unfold inode_of in *. case_decide as Hd.
      * rewrite (proj2 (Z.eqb_eq k i)) by lia. rewrite Hd, He. done.
      * rewrite (proj2 (Z.eqb_neq k i)) by lia. lia.
Qed.

Lemma lookup_new_moves t p h t1 t2 :
  sound t → Z.of_nat (length (table t)) + 1 < 2 ^ 63 → (∀ i, 1 < i → count t i + 1 < 2 ^ 64) →
  InodeTable_add_or_get t p = Ret (h, t1) → InodeTable_lookup t1 h.1 = Ret t2 → moves t t2 (one h.1).
Proof.
  intros Hs Hlen Hlt Hadd Hlook.
  pose proof (permits_eq _ _ _ (add_or_get_spec t p (proj1 Hs)) Hadd) as [Hwf1 Hcase].
  destruct (by_path t !! p) as [idx|] eqn:Hp.
  - destruct Hcase as (-> & e & He & ->). apply (lookup_one t _ t2 idx); [done| |done|lia| |done].
    + intros j e' Hj _. by apply Hs.
    + exists e. split; [done|]. destruct (wf_by_path _ Hwf1 _ _ Hp) as (e' & He' & Hpe).
      split; [congruence|]. split; [apply (wf_counts _ Hwf1 _ _ He)|]. intros H0.
      specialize (Hlt (inode_of idx)). unfold count, inode_of in Hlt.
      replace (Z.to_nat _) with idx in Hlt by lia. rewrite He in Hlt. apply Hlt. lia.
  - destruct Hcase as (idx & e & t0 & Hfe & -> & Hlk & _). cbn [fst] in *.
    assert (lookups e = 0) as He0.
    { unfold InodeTable_add_or_get in Hadd. rewrite Hp in Hadd.
      apply bind_Ret in Hadd as ([[idx' e'] t'] & Hg & [= Hi Hgen <-]).
      pose proof (get_inode_entry_lookups t _ _ _ Hs Hg) as Hl0.
      specialize (Hlk idx). cbn [table] in Hlk. rewrite decide_True in Hlk by done.
      assert (idx' = idx) as -> by (unfold inode_of in Hi; lia).
      apply list_lookup_insert_Some in Hlk as [(_ & [= E _] & _)|[? _]]; [by rewrite <- E|done]. }
    pose proof (one_entry_more (table t) (table t1) idx ltac:(intros j Hj; by rewrite Hlk, decide_False)) as Hlen1.
    rewrite He0 in Hlk.
    destruct (fresh_count t idx e t0 t1 p (generation e) 0 Hs Hfe Hwf1 ltac:(lia) Hlk) as [Hc H0].
    destruct (lookup_one t1 (inode_of idx) t2 idx) as (Hs2 & Hlen2 & Hc2); [done| |done|lia| |done|].
    + intros j e' Hj Hne. rewrite Hlk, decide_False by done. by apply Hs.
    + eexists. rewrite Hlk, decide_True by done. split; [done|]. cbn. split_and!; [done|lia..].
    + split; [apply Hs2|split].
      * assert (length (table t2) = length (table t1)) as ->; [|done].
        clear -Hlook. unfold InodeTable_lookup in Hlook. case_bool_decide; [by simplify_eq|].
        apply bind_Ret in Hlook as ([j e1] & _ & (n & _ & [= <-])%bind_Ret). apply length_insert.
      * intros i Hi. rewrite Hc2, Hc by done. unfold one. case_decide as Hd.
        -- rewrite (proj2 (Z.eqb_eq _ _) Hd), (H0 _ Hi Hd). lia.
        -- rewrite (proj2 (Z.eqb_neq _ _) Hd). lia.
Qed.

Definition minus (j n i : Z) : Z := if i =? j then - n else 0.
Lemma forget_moves t i n l t' :
  sound t → 0 < i < 2 ^ 64 → 0 ≤ n < 2 ^ 64 → InodeTable_forget t i n = Ret (l, t') →
  moves t t' (minus i n).
Proof.
  intros Hs Hi Hn Hf.
  pose proof (permits_eq _ _ _ (forget_spec t i n (proj1 Hs) Hn Hi) Hf) as [Hwf' Hcase].
  case_bool_decide as H1.
  - destruct Hcase as [_ ->]. split; [done|split; [lia|]]. intros j Hj. unfold minus.
    rewrite (proj2 (Z.eqb_neq j i)) by lia. lia.
  - destruct Hcase as (idx & e & -> & He & Hle & -> & Hlk & Hz). split; [split; [done|]|split].
    + intros j e' Hj. rewrite Hlk. destruct (decide (j = idx)) as [-> |]; [|by apply Hs].
      intros [= <-]. cbn. case_decide as Hd; [done|]. split; [|done].
      intros Hp. apply (proj2 Hs idx e) in Hp; [|done..]. lia.
    + apply (one_entry_more _ _ idx). intros j Hj. by rewrite Hlk, decide_False.
    + intros j Hj. unfold count, minus. rewrite Hlk. unfold inode_of in *.
      destruct (decide (Z.to_nat (j - 1) = idx)) as [Hd|Hd]; [rewrite (proj2 (Z.eqb_eq j _)) by lia|rewrite (proj2 (Z.eqb_neq j _)) by lia; lia].
      rewrite Hd, He. cbn. lia.
Qed.
Lemma rename_moves t o n t' : sound t → InodeTable_rename t o n = Ret t' → moves t t' none.
Proof.
  intros Hs Hr. pose proof (permits_eq _ _ _ (rename_spec t o n (proj1 Hs)) Hr) as (Hwf' & idx & e & Ho & He & Ht & _).
  destruct (wf_by_path _ (proj1 Hs) _ _ Ho) as (e0 & He0 & Hp). rewrite He in He0. injection He0 as <-.
  split; [split; [done|]|split].
  - intros j e' Hj. rewrite Ht, (insert_at _ _ _ _ _ He). case_decide; [|by apply Hs].
    intros [= <-]. subst. cbn. rewrite <- (proj2 Hs idx e Hj He). by rewrite Hp.
  - rewrite Ht, length_insert. lia.
  - intros i Hi. unfold count, none. rewrite Ht, (insert_at _ _ _ _ _ He). case_decide as Hd; [|lia].
    rewrite Hd, He. cbn. lia.
Qed.
Lemma unlink_moves t p : sound t → moves t (InodeTable_unlink t p) none.
Proof.
  intros [Hwf Hp]. split; [split; [by apply unlink_wf|exact Hp]|split; [simpl; lia|]].
  intros i Hi. unfold none, count. simpl. lia.
Qed.

(** What has a count is there. *)
Lemma count_entry t i :
  sound t → 1 < i < 2 ^ 64 → 0 < count t i →
  ∃ idx e p, entry_at t i = Ret (idx, e) ∧ path e = Some p ∧ lookups e = count t i.
Proof.
  intros Hs Hi. unfold count, entry_at. rewrite usub_small by lia. cbn [mbind outcome_bind].
  destruct (table t !! Z.to_nat (i - 1)) as [e|] eqn:He; [|lia]. intros Hc.
  destruct (path e) as [p|] eqn:Hp; [by exists (Z.to_nat (i - 1)), e, p|].
  apply (proj2 Hs (Z.to_nat (i - 1)) _ ltac:(lia) He) in Hp. lia.
Qed.
Lemma forget_yields t i n :
  sound t → 1 < i < 2 ^ 64 → 0 < n ≤ count t i → yields (InodeTable_forget t i n) (λ _, True).
Proof.
  intros Hs Hi Hn. destruct (count_entry t i Hs Hi ltac:(lia)) as (idx & e & p & He & Hp & Hl).
  unfold InodeTable_forget. rewrite bool_decide_eq_false_2 by lia. rewrite He. cbn [mbind outcome_bind].
  rewrite (bool_decide_eq_true_2 (n ≤ lookups e)) by lia. simpl. case_bool_decide; [by rewrite Hp|done].
Qed.
(** A path is known exactly for what has a count. *)
Lemma count_path t i :
  sound t → 1 < i < 2 ^ 64 → 0 < count t i ↔ ∃ p, InodeTable_get_path t i = Ret (Some p).
Proof.
  intros Hs Hi. unfold InodeTable_get_path. split.
  - intros Hc. destruct (count_entry t i Hs Hi Hc) as (idx & e & p & -> & Hp & _).
    exists p. simpl. by rewrite Hp.
  - intros (p & ([idx e] & He & [= Hp])%bind_Ret). unfold entry_at in He.
    rewrite usub_small in He by lia. cbn [mbind outcome_bind] in He. unfold count.
    destruct (table t !! Z.to_nat (i - 1)) as [e'|] eqn:He'; [|done]. injection He as _ <-.
    pose proof (wf_counts _ (proj1 Hs) _ _ He') as [Hb _].
    assert (lookups e' ≠ 0) as Hne; [|lia]. intros Hz.
    apply (proj2 Hs (Z.to_nat (i - 1)) _ ltac:(lia) He') in Hz. congruence.
Qed.
End counts.

(** ** What a handler does to the table and the pool *)

(** The inode an answer makes the kernel hold once more. *)
Definition given (o : option Answer) : Z → Z :=
  match o with
  | Some (AEntry _ attr _) | Some (ACreated _ attr _ _ _) => one (attr_ino' attr)
  | _ => none
  end.

Section handlers.
Context `{B : Build, C : Libc, F : LibcFs} {T : Type} `{MT : FilesystemMT T}.
Abbreviation M := (stateM (FuseMT T)).
Implicit Types (st : FuseMT T).

(** The requests that wait for a job. *)
Definition waiting st : list Z := (λ j, info_unique (job_info j)) <$> default [] (mt_threads st).

(** The counts are far from their ends. *)
Definition ready (t : inode_table) : Prop :=
  sound t ∧ Z.of_nat (length (table t)) + 1 < 2 ^ 63 ∧ ∀ i, 1 < i → count t i + 1 < 2 ^ 64.

Definition ensures {A} (m : M A) (Q : FuseMT T → A → FuseMT T → Prop) : Prop :=
  ∀ st a st', m st = Ret (a, st') → Q st a st'.
Definition keeps {A} (m : M A) : Prop :=
  ensures m (λ st _ st', mt_inodes st' = mt_inodes st ∧ waiting st' = waiting st).
(** It answers the request or leaves it to the pool, and counts what it gives. *)
Definition handles (info : RequestInfo) (m : M (option Answer)) : Prop :=
  ensures m (λ st o st',
    (ready (mt_inodes st) → moves (mt_inodes st) (mt_inodes st') (given o)) ∧
    waiting st' = waiting st ++ match o with Some _ => [] | None => [info_unique info] end).

Lemma mt_keeps_bind {A D} (m : M A) (k : A → M D) : keeps m → (∀ a, keeps (k a)) → keeps (m ≫= k).
Proof.
  intros Hm Hk st d st'. unfold mbind, stateM_bind. destruct (m st) as [[a st1]| |] eqn:E; [|done..].
  intros Hd. destruct (Hm _ _ _ E) as [H1 H2], (Hk _ _ _ _ Hd) as [H3 H4]. split; congruence.
Qed.
Lemma handles_bind {A} info (m : M A) (k : A → M (option Answer)) :
  keeps m → (∀ a, handles info (k a)) → handles info (m ≫= k).
Proof.
  intros Hm Hk st d st'. unfold mbind, stateM_bind. destruct (m st) as [[a st1]| |] eqn:E; [|done..].
  intros Hd. destruct (Hm _ _ _ E) as [H1 H2], (Hk _ _ _ _ Hd) as [H3 H4].
  rewrite H1 in H3. rewrite H2 in H4. done.
Qed.

Lemma mt_keeps_ret {A} (a : A) : keeps (mret a).
Proof. by intros st b st' [= _ <-]. Qed.
Lemma keeps_call {A} info (c : MtCall A) : keeps (call_target info c).
Proof. intros st a st' ([b t] & _ & [= _ <-])%bind_Ret. done. Qed.
Lemma keeps_now : keeps SystemTime_now.
Proof. intros st a st'. unfold SystemTime_now. destruct (mt_now _). by intros [= _ <-]. Qed.
Lemma keeps_gets {A} (f : FuseMT T → A) : keeps (gets f).
Proof. by intros st a st' [= _ <-]. Qed.
Lemma mt_keeps_lift {A} (m : outcome A) : keeps (lift m).
Proof. intros st a st' (b & _ & [= _ <-])%bind_Ret. done. Qed.
Lemma keeps_cache (f : FuseMT T → directory_cache) : keeps (modify (λ st, with_directory_cache (f st) st)).
Proof. by intros st a st' [= _ <-]. Qed.
Lemma mt_keeps_read {A} (f : inode_table → outcome A) : keeps (on_inodes (λ i, p ← f i; Ret (p, i))).
Proof.
  intros st a st' ([b i] & (p & _ & [= _ <-])%bind_Ret & [= _ <-])%bind_Ret. by destruct st.
Qed.
Lemma keeps_map_time t : keeps (map_time t).
Proof.
  destruct t as [t|]; [|apply mt_keeps_ret]. apply (mt_keeps_bind (TimeOrNow_time t)); [|intros; apply mt_keeps_ret].
  destruct t; [apply mt_keeps_ret|apply keeps_now].
Qed.
Lemma keeps_run_job j : keeps (run_job j).
Proof. destruct j; apply mt_keeps_bind; (apply keeps_call || (intros; apply mt_keeps_ret)). Qed.
Lemma answer_with_given {A} (r : ResultOf A) f :
  (∀ a, given (Some (f a)) = none) → given (Some (answer_with r f)) = none.
Proof. destruct r; [done|]. intros H. apply H. Qed.
Lemma run_job_given j : ensures (run_job j) (λ _ a _, given (Some a) = none).
Proof.
  intros st a st'. destruct j; unfold run_job, mbind, stateM_bind;
    destruct (call_target _ _ st) as [[r st1]| |]; try done;
    intros [= <- _]; by apply answer_with_given.
Qed.

Lemma handles_answer info a : given (Some a) = none → handles info (answer a).
Proof.
  intros Ha st o st' [= <- <-]. rewrite Ha, app_nil_r. split; [|done]. intros (? & _). by apply moves_refl.
Qed.
Lemma handles_pool info j : job_info j = info → handles info (threadpool_run j).
Proof.
  intros Hj st o st'. unfold threadpool_run, mbind, stateM_bind, gets. cbn [id].
  destruct (mt_num_threads st =? 0).
  - destruct (run_job j st) as [[a st1]| |] eqn:Hr; [|done..]. intros [= <- <-].
    rewrite (run_job_given j _ _ _ Hr). destruct (keeps_run_job j _ _ _ Hr) as [-> ->].
    rewrite app_nil_r. split; [|done]. intros [Hs _]. by apply moves_refl.
  - intros [= <- <-]. split; [intros [Hs _]; by apply moves_refl|].
    unfold waiting. cbn. by rewrite fmap_app, <- Hj.
Qed.
Lemma handles_get_path info i k : (∀ p, handles info (k p)) → handles info (get_path i k).
Proof.
  intros Hk. apply handles_bind; [apply mt_keeps_read|]. intros [p|]; [apply Hk|by apply handles_answer].
Qed.
Lemma handles_or_error {A} info (r : ResultOf A) k :
  (∀ a, handles info (k a)) → handles info (or_error r k).
Proof. intros Hk. destruct r; [by apply handles_answer|apply Hk]. Qed.

(** A new inode is counted once. *)
Lemma handles_add info path (f : Z → Z → Answer) :
  (∀ ino g, given (Some (f ino g)) = one ino) →
  handles info ('(ino, g) ← on_inodes (λ i, InodeTable_add i path); answer (f ino g)).
Proof.
  intros Hf st o st' H. unfold mbind, stateM_bind, on_inodes in H.
  destruct (InodeTable_add (mt_inodes st) path) as [[[ino g] t]| |] eqn:Ha; [|done..].
  injection H as <- <-. rewrite Hf, app_nil_r. split; [|done]. intros [Hs _].
  by apply (add_moves _ _ _ _ Hs Ha).
Qed.
Lemma handles_unlink info path :
  handles info (on_inodes (λ i, Ret (tt, InodeTable_unlink i path));; answer AEmpty).
Proof.
  intros st o st' [= <- <-]. rewrite app_nil_r. split; [|done]. intros [Hs _]. by apply unlink_moves.
Qed.
Lemma handles_rename info old new :
  handles info (on_inodes (λ i, i ← InodeTable_rename i old new; Ret (tt, i));; answer AEmpty).
Proof.
  intros st o st' H. unfold mbind at 1, stateM_bind, on_inodes in H.
  destruct (InodeTable_rename (mt_inodes st) old new) as [t| |] eqn:Hr; [|done..].
  injection H as <- <-. rewrite app_nil_r. split; [|done]. intros [Hs _]. by apply (rename_moves _ _ _ _ Hs Hr).
Qed.
Lemma handles_lookup_entry info path ttl attr :
  handles info ('(ino, generation) ← on_inodes (λ i, InodeTable_add_or_get i path);
    on_inodes (λ i, i ← InodeTable_lookup i ino; Ret (tt, i));;
    answer (AEntry ttl (fuse_fileattr attr ino) generation)).
Proof.
  intros st o st' H. unfold on_inodes, mbind, stateM_bind, outcome_bind in H.
  destruct (InodeTable_add_or_get (mt_inodes st) path) as [[[ino g] t1]| |] eqn:Ha; [|done..].
  cbn in H.
  destruct (InodeTable_lookup t1 ino) as [t2| |] eqn:Hl; [|done..].
  injection H as <- <-. rewrite app_nil_r. split; [|done]. intros (Hs & Hlen & Hc).
  by apply (lookup_new_moves _ path (ino, g) t1 t2).
Qed.

Ltac walk := repeat first
  [ done
  | apply handles_get_path; intros ?
  | apply handles_or_error; intros ?
  | apply handles_lookup_entry | apply handles_unlink | apply handles_rename
  | apply handles_add
  | apply handles_pool
  | apply handles_answer; try (apply answer_with_given; intros ?)
  | match goal with |- given (Some (xattr_answer ?x)) = none => by destruct x end
  | match goal with x : _ * _ |- _ => destruct x end
  | match goal with |- handles _ (if ?b then _ else _) => destruct b end
  | match goal with |- handles _ (match ?o with Some _ => _ | None => _ end) => destruct o end
  | apply handles_bind; [first [apply keeps_call | apply keeps_gets | apply mt_keeps_lift | apply keeps_cache]|intros ?] ].

Lemma handles_setattr_part info wanted c k :
  keeps c → handles info k → handles info (setattr_part info wanted c k).
Proof. intros Hc Hk. unfold setattr_part. destruct wanted; [|done]. apply handles_bind; [done|]. intros. walk. Qed.
Lemma handles_setattr info ino mode uid gid size atime mtime fh crtime chgtime bkuptime flags :
  handles info (FuseMT_setattr info ino mode uid gid size atime mtime fh crtime chgtime bkuptime flags).
Proof.
  apply handles_get_path. intros p. repeat (apply handles_setattr_part; [apply mt_keeps_ret|]).
  apply handles_setattr_part.
  { apply mt_keeps_bind; [apply keeps_map_time|intros]. apply mt_keeps_bind; [apply keeps_map_time|intros].
    apply mt_keeps_ret. }
  apply handles_setattr_part; [apply mt_keeps_ret|]. walk.
Qed.
Lemma keeps_fetch info p key : keeps (fetch_entries info p key).
Proof.
  apply mt_keeps_bind; [apply keeps_gets|]. intros st. apply mt_keeps_bind; [apply mt_keeps_lift|]. intros e.
  destruct (entries e); [apply mt_keeps_ret|]. apply mt_keeps_bind; [apply keeps_call|]. intros [?|es]; [apply mt_keeps_ret|].
  apply mt_keeps_bind; [apply keeps_gets|]. intros st'. apply mt_keeps_bind; [apply mt_keeps_lift|]. intros c.
  apply mt_keeps_bind; [apply (keeps_cache (λ _, c))|intros; apply mt_keeps_ret].
Qed.
Lemma handles_readdir info ino fh offset b : handles info (FuseMT_readdir info ino fh offset b).
Proof.
  apply handles_get_path. intros p. case_match; [by apply handles_answer|].
  apply handles_bind; [apply keeps_fetch|]. intros r. apply handles_or_error. intros es.
  apply handles_bind; [|intros; walk].
  case_match; [apply mt_keeps_ret|]. apply mt_keeps_bind; [apply mt_keeps_lift|intros; apply keeps_gets].
Qed.
Lemma handles_then_cache info m (f : FuseMT T → directory_cache) :
  handles info m → handles info (a ← m; modify (λ st, with_directory_cache (f st) st);; mret a).
Proof.
  intros Hm st o st'. unfold mbind, stateM_bind. destruct (m st) as [[a st1]| |] eqn:E; [|done..].
  intros [= <- <-]. exact (Hm _ _ _ E).
Qed.
Lemma keeps_real_fh key : keeps (real_fh key).
Proof. apply mt_keeps_bind; [apply keeps_gets|intros; apply mt_keeps_lift]. Qed.

(** Every handler but those of the two requests without an answer. *)
Lemma handles_call info c : is_forget c = false → handles info (FuseMT_call info c).
Proof.
  intros Hc. destruct c; try discriminate Hc; cbn [FuseMT_call];
    try (by apply handles_setattr); try (by apply handles_readdir);
    try (apply handles_get_path; intros p; apply handles_bind; [apply keeps_real_fh|intros f]);
    try (apply handles_then_cache);
    unfold FuseMT_lookup, FuseMT_getattr, FuseMT_readlink, FuseMT_mknod, FuseMT_mkdir, FuseMT_unlink,
      FuseMT_rmdir, FuseMT_symlink, FuseMT_rename, FuseMT_link, FuseMT_open, FuseMT_read, FuseMT_write,
      FuseMT_flush, FuseMT_release, FuseMT_fsync, FuseMT_opendir, FuseMT_statfs,
      FuseMT_setxattr, FuseMT_getxattr, FuseMT_listxattr, FuseMT_removexattr, FuseMT_access,
      FuseMT_create, call_empty, add_entry; walk.
Qed.

(** ** The kernel's counts *)

(** What answers give the kernel, and what it gives back. *)
Definition received (l : list (Z * Answer)) (i : Z) : Z := foldr (λ x n, given (Some x.2) i + n) 0 l.
Definition forgotten (nodes : list (Z * Z)) (i : Z) : Z := foldr (λ x n, minus x.1 x.2 i + n) 0 nodes.
Definition forgets (s : mt_step) : list (Z * Z) :=
  match s with
  | MtRequest _ (Fs_forget ino n) => [(ino, n)]
  | MtRequest _ (Fs_batch_forget nodes) => (λ n, (forget_one_nodeid n, forget_one_nlookup n)) <$> nodes
  | _ => []
  end.
(** The kernel gives back, in order, what it holds; the root is always there. *)
Fixpoint may_forget (K : Z → Z) (nodes : list (Z * Z)) : Prop :=
  match nodes with
  | [] => True
  | (i, n) :: nodes =>
      0 < i < 2 ^ 64 ∧ 0 < n < 2 ^ 64 ∧ (i ≠ 1 → n ≤ K i) ∧ may_forget (λ j, K j + minus i n j) nodes
  end.

(** The states after [k] steps in which the kernel holds [K] of each inode. *)
Inductive reached : nat → (Z → Z) → FuseMT T → Prop :=
  | reached_new target_fs num_threads : reached 0 none (FuseMT_new target_fs num_threads)
  | reached_step k K st s l st' :
      reached k K st → may_forget K (forgets s) → mt_do s st = Ret (l, st') →
      reached (S k) (λ i, K i + received l i + forgotten (forgets s) i) st'.

Lemma count_nonneg (t : inode_table) i : sound t → 0 ≤ count t i.
Proof.
  intros [Hwf _]. unfold count. destruct (table t !! _) as [e|] eqn:He; [|done].
  apply (wf_counts _ Hwf _ _ He).
Qed.
Lemma forget_length (t : inode_table) i n l t' :
  InodeTable_forget t i n = Ret (l, t') → length (table t') = length (table t).
Proof.
  unfold InodeTable_forget. case_bool_decide; [by intros [= _ <-]|].
  intros ([idx e] & _ & (? & _ & Hf)%bind_Ret)%bind_Ret. case_bool_decide.
  - apply bind_Ret in Hf as (p & _ & [= _ <-]). apply length_insert.
  - injection Hf as _ <-. apply length_insert.
Qed.

Definition holds (k : nat) (K : Z → Z) (t : inode_table) : Prop :=
  sound t ∧ (length (table t) ≤ S k)%nat ∧ ∀ i, 1 < i → count t i = K i ∧ K i ≤ Z.of_nat k.

Lemma holds_ready k K t : holds k K t → Z.of_nat k < 2 ^ 62 → ready t.
Proof.
  intros (Hs & Hl & HK) Hk. split; [done|]. split; [lia|]. intros i Hi. destruct (HK i Hi). lia.
Qed.

Lemma forget_waiting ino n : ensures (FuseMT_forget ino n) (λ st _ st', waiting st' = waiting st ∧
  ∃ l, InodeTable_forget (mt_inodes st) ino n = Ret (l, mt_inodes st')).
Proof.
  intros st u st'. unfold FuseMT_forget, on_inodes, mbind, stateM_bind, outcome_bind.
  destruct (InodeTable_get_path (mt_inodes st) ino); [|done..]. cbn.
  destruct (InodeTable_forget (mt_inodes st) ino n) as [[l t]| |]; [|done..].
  intros [= _ <-]. split; [done|]. by exists l.
Qed.
Lemma batch_forget_holds k nodes : ∀ K st u st',
  batch_forget nodes st = Ret (u, st') → holds k K (mt_inodes st) → may_forget K nodes →
  waiting st' = waiting st ∧ holds k (λ i, K i + forgotten nodes i) (mt_inodes st').
Proof.
  induction nodes as [|[i n] nodes IH]; intros K st u st' H (Hs & Hl & HK) Hm.
  { injection H as _ <-. split; [done|]. split; [done|split; [done|]]. intros j Hj. simpl.
    rewrite Z.add_0_r. by apply HK. }
  cbn [batch_forget may_forget] in *. destruct Hm as (Hi & Hn & Hni & Hm).
  unfold mbind, stateM_bind in H. destruct (FuseMT_forget i n st) as [[u1 st1]| |] eqn:Hf; [|done..].
  destruct (forget_waiting i n _ _ _ Hf) as [Hw (l & Hft)].
  destruct (forget_moves _ i n _ _ Hs Hi ltac:(lia) Hft) as (Hs1 & _ & Hc1).
  apply forget_length in Hft.
  destruct (IH (λ j, K j + minus i n j) st1 u st' H) as [Hw' (Hs2 & Hl2 & Hc2)]; [|done|].
  - split; [done|]. split; [lia|]. intros j Hj. rewrite Hc1 by done. destruct (HK j Hj) as [-> ?].
    split; [done|]. unfold minus. destruct (j =? i); lia.
  - split; [congruence|]. split; [done|split; [done|]]. intros j Hj. destruct (Hc2 j Hj) as [-> ?].
    simpl. lia.
Qed.

Lemma forget_call info c st o st' :
  is_forget c = true → FuseMT_call info c st = Ret (o, st') →
  o = None ∧ ∃ u, batch_forget (forgets (MtRequest info c)) st = Ret (u, st').
Proof.
  intros Hc. destruct c; try discriminate Hc; cbn [FuseMT_call forgets batch_forget];
    unfold mbind, stateM_bind.
  - destruct (FuseMT_forget _ _ st) as [[[] st1]| |]; [|done..]. intros [= <- <-]. split; [done|]. by exists tt.
  - destruct (batch_forget _ st) as [[[] st1]| |]; [|done..]. intros [= <- <-]. split; [done|]. by exists tt.
Qed.
Lemma not_forget_forgets info c : is_forget c = false → forgets (MtRequest info c) = [].
Proof. by destruct c. Qed.

Lemma moves_holds k K t t' o :
  holds k K t → Z.of_nat k < 2 ^ 62 → (ready t → moves t t' (given o)) →
  holds (S k) (λ i, K i + given o i) t'.
Proof.
  intros HK Hk Hm. destruct (Hm (holds_ready _ _ _ HK Hk)) as (Hs & Hl & Hc).
  destruct HK as (_ & Hl0 & HK). split; [done|split; [lia|]]. intros i Hi. rewrite Hc by done.
  destruct (HK i Hi) as [-> ?]. split; [done|].
  assert (given o i ≤ 1); [|lia]. destruct o as [[]|]; cbn; unfold none, one; try case_match; lia.
Qed.
Lemma holds_ext k K K' t : (∀ i, 1 < i → K i = K' i) → holds k K t → holds k K' t.
Proof.
  intros HKK (Hs & Hl & HK). split; [done|split; [done|]]. intros i Hi. rewrite <- HKK by done. by apply HK.
Qed.
Lemma holds_S k K t : holds k K t → holds (S k) K t.
Proof.
  intros (Hs & Hl & HK). split; [done|split; [lia|]]. intros i Hi. destruct (HK i Hi). split; [done|lia].
Qed.

Lemma mt_do_holds k K st s l st' :
  holds k K (mt_inodes st) → Z.of_nat k < 2 ^ 62 → may_forget K (forgets s) → mt_do s st = Ret (l, st') →
  holds (S k) (λ i, K i + received l i + forgotten (forgets s) i) (mt_inodes st').
Proof.
  intros HK Hk Hf. destruct s as [info c|j]; unfold mt_do, mbind, stateM_bind.
  - destruct (FuseMT_call info c st) as [[o st1]| |] eqn:Hc; [|done..]. intros [= <- <-].
    destruct (is_forget c) eqn:Hfc.
    + destruct (forget_call _ _ _ _ _ Hfc Hc) as [-> [u Hb]].
      destruct (batch_forget_holds k _ K st u st1 Hb HK Hf) as [_ HK']. apply holds_S.
      eapply holds_ext; [|exact HK']. intros i _. cbn. lia.
    + rewrite not_forget_forgets by done. destruct (handles_call info c Hfc _ _ _ Hc) as [Hm _].
      eapply holds_ext; [|by apply (moves_holds k K (mt_inodes st) _ o)].
      intros i _. destruct o; cbn; unfold none; lia.
  - unfold gets. cbn [id]. destruct (_ !! j) as [job|].
    + cbn [modify]. destruct (run_job job _) as [[a st1]| |] eqn:Hr; [|done..]. intros [= <- <-].
      destruct (keeps_run_job job _ _ _ Hr) as [-> _]. pose proof (run_job_given job _ _ _ Hr) as Hg.
      apply holds_S. eapply holds_ext; [|exact HK]. intros i _. cbn [received foldr snd forgets forgotten]. rewrite Hg. unfold none. lia.
    + intros [= <- <-]. apply holds_S. eapply holds_ext; [|exact HK]. intros i _. cbn. lia.
Qed.
Lemma reached_holds k K st : reached k K st → Z.of_nat k < 2 ^ 62 → holds k K (mt_inodes st).
Proof.
  induction 1 as [t n|k K st s l st' _ IH Hf Hdo]; intros Hk.
  - split; [split|split].
    + apply InodeTable_new_wf.
    + intros [|[|]] e H0; done.
    + done.
    + intros i Hi. unfold count, none. cbn. destruct (Z.to_nat (i - 1)) as [|[|]] eqn:E; [lia|done|done].
  - apply (mt_do_holds k K st s l st'); [apply IH; lia|lia|done|done].
Qed.

(** C16: The adapter's lookup counts are the kernel's: after any requests in which
    the kernel gives back no more than it was given, every inode the kernel holds
    has a path, so no request about it is refused or panics for want of one, an
    inode it does not hold has none, and its number may be used again; and giving
    one back never panics. *)
Theorem mt_inodes_held k K st i :
  reached k K st → Z.of_nat k < 2 ^ 62 → 1 < i < 2 ^ 64 →
  0 ≤ K i ∧ (0 < K i ↔ ∃ p, InodeTable_get_path (mt_inodes st) i = Ret (Some p)) ∧
  ∀ info n, 0 < n ≤ K i → yields (mt_do (MtRequest info (Fs_forget i n)) st) (λ '(l, _), l = []).
Proof.
  intros HK Hk Hi. destruct (reached_holds _ _ _ HK Hk) as (Hs & Hl & Hcount). clear HK.
  destruct (Hcount i ltac:(lia)) as [Hc _]. rewrite <- Hc.
  split; [by apply count_nonneg|]. split; [by apply count_path|].
  intros info n Hn.
  destruct (proj1 (count_path (mt_inodes st) i Hs Hi) ltac:(lia)) as [p Hp].
  pose proof (forget_yields (mt_inodes st) i n Hs Hi Hn) as ([l t'] & Hf & _)%yields_Ret.
  unfold mt_do, FuseMT_call, FuseMT_forget, on_inodes, mbind, stateM_bind. rewrite Hp.
  cbn -[InodeTable_forget]. rewrite Hf. done.
Qed.

(** ** Answers *)

Definition asked (s : mt_step) : list Z :=
  match s with
  | MtRequest info c => if is_forget c then [] else [info_unique info]
  | MtJob _ => []
  end.

Lemma batch_forget_waiting nodes : ensures (batch_forget nodes) (λ st _ st', waiting st' = waiting st).
Proof.
  induction nodes as [|[i n] nodes IH]; intros st u st'; cbn [batch_forget]; [by intros [= _ <-]|].
  unfold mbind, stateM_bind. destruct (FuseMT_forget i n st) as [[u1 st1]| |] eqn:Hf; [|done..].
  intros H2%IH. destruct (forget_waiting i n _ _ _ Hf) as [? _]. congruence.
Qed.
Lemma mt_do_answers s st l st' :
  mt_do s st = Ret (l, st') → waiting st ++ asked s ≡ₚ l.*1 ++ waiting st'.
Proof.
  destruct s as [info c|j]; unfold mt_do, mbind, stateM_bind.
  - destruct (FuseMT_call info c st) as [[o st1]| |] eqn:Hc; [|done..]. intros [= <- <-]. cbn [asked].
    destruct (is_forget c) eqn:Hfc.
    + destruct (forget_call _ _ _ _ _ Hfc Hc) as [-> [u Hb]].
      by rewrite (batch_forget_waiting _ _ _ _ Hb), app_nil_r.
    + destruct (handles_call info c Hfc _ _ _ Hc) as [_ ->].
      destruct o; simpl; [|done]. by rewrite app_nil_r, Permutation_app_comm.
  - unfold gets. cbn [id]. destruct (_ !! j) as [job|] eqn:Hj.
    + cbn [modify]. destruct (run_job job _) as [[a st1]| |] eqn:Hr; [|done..]. intros [= <- <-].
      destruct (keeps_run_job job _ _ _ Hr) as [_ ->]. rewrite app_nil_r. unfold waiting. cbn.
      by rewrite (delete_Permutation _ j job Hj) at 1.
    + intros [= <- <-]. by rewrite app_nil_r.
Qed.
Lemma mt_run_answers steps : ∀ st l st',
  mt_run steps st = Ret (l, st') → waiting st ++ concat (asked <$> steps) ≡ₚ (concat l).*1 ++ waiting st'.
Proof.
  induction steps as [|s steps IH]; intros st l st'; cbn [mt_run]; [by intros [= <- <-]; rewrite app_nil_r|].
  unfold mbind, stateM_bind. destruct (mt_do s st) as [[a st1]| |] eqn:Hs; [|done..].
  destruct (mt_run steps st1) as [[l1 st2]| |] eqn:Hr; [|done..]. intros [= <- <-].
  apply mt_do_answers in Hs. apply IH in Hr. cbn. rewrite fmap_app, app_assoc, Hs, <- !app_assoc. by rewrite Hr.
Qed.

(** The pool can always go on, with a target that does not panic. *)
Definition mt_returns : Prop := ∀ A info (c : MtCall A) t, yields (mt_call info c t) (λ _, True).
Lemma run_job_returns j st : mt_returns → ∃ a st', run_job j st = Ret (a, st').
Proof.
  intros Hr. assert (∀ A info (c : MtCall A) st, ∃ a st', call_target info c st = Ret (a, st')) as Hc.
  { intros A info c st0. unfold call_target.
    pose proof (Hr A info c (mt_target st0)) as ([a t] & -> & _)%yields_Ret. cbn. eauto. }
  destruct j; unfold run_job, mbind at 1, stateM_bind;
    match goal with |- context [call_target ?i ?c ?s] => destruct (Hc _ i c s) as (a & st' & ->) end; eexists _, _; done.
Qed.
Lemma drain n : mt_returns → ∀ st, length (waiting st) = n →
  ∃ l st', mt_run (replicate n (MtJob 0)) st = Ret (l, st') ∧ waiting st' = [].
Proof.
  intros Hret. induction n as [|n IH]; intros st Hn; [by exists [], st; apply length_zero_iff_nil in Hn|].
  unfold waiting in Hn. rewrite length_fmap in Hn. cbn [replicate mt_run].
  unfold mbind, stateM_bind, mt_do, gets. cbn [id].
  destruct (default [] (mt_threads st)) as [|j jobs] eqn:Hj; [done|]. cbn -[run_job mt_run].
  unfold mbind, stateM_bind, modify. rewrite !Hj. cbn -[run_job mt_run].
  destruct (run_job_returns j (with_threads (Some jobs) st) Hret) as (a & st1 & Hr). rewrite Hr.
  destruct (keeps_run_job j _ _ _ Hr) as [_ Hw].
  destruct (IH st1) as (l & st2 & Hl & Hw2); [rewrite Hw; unfold waiting; rewrite length_fmap; by injection Hn|].
  cbn -[mt_run]. rewrite Hl. by exists ([(info_unique (job_info j), a)] :: l), st2.
Qed.

End handlers.

(** ** Listings *)

Section listings.
Context `{B : Build, C : Libc, CL : !LibcLaws C, F : LibcFs} {T : Type} `{MT : FilesystemMT T}.
Abbreviation M := (stateM (FuseMT T)).

Definition listed (ino parent : Z) (es : list DirectoryEntry) : list (OsStr * (Z * FileType)) :=
  (λ e, (entry_name e, (entry_inode ino parent (entry_name e), entry_kind e))) <$> es.

(** A READDIR of an open directory into a buffer of [max] bytes, before which
    anything may happen to the target. *)
Definition mt_read_page (info : RequestInfo) (ino key max : Z) (env : T → T) (offset : Z)
    : M (option EntListBuf) :=
  modify (λ st, with_target (env (mt_target st)) st);;
  r ← FuseMT_readdir info ino key offset (DirEntList_new max);
  mret match r with Some (ADirectory b) => Some b | _ => None end.

Lemma mt_readdir_loop_page ino parent off es : ∀ index b,
  0 ≤ off → 0 ≤ index → off + index + Z.of_nat (length es) < 2 ^ 63 →
  mt_readdir_loop ino parent off es index b = push_page (dirents (off + index) (listed ino parent es)) b.
Proof.
  induction es as [|[n k] es IH]; intros index b Hoff Hi Hlen; [done|].
  cbn [mt_readdir_loop length listed fmap list_fmap dirents push_page entry_name entry_kind] in *.
  rewrite i64_add_small by lia. cbn [mbind outcome_bind]. rewrite i64_add_small by lia.
  cbn [mbind outcome_bind].
  destruct (DirEntList_push _ b) as [[[] b']| |]; [done| |done..]. cbn [mbind outcome_bind].
  rewrite IH by lia. by rewrite Z.add_assoc.
Qed.

(** The inode and the one of its parent, as [readdir] finds them. *)
Definition located (t : inode_table) (ino parent : Z) (path : PathBuf) : Prop :=
  InodeTable_get_path t ino = Ret (Some path) ∧
  if ino =? 1 then parent = ino
  else ∃ p, parent_of path = Some p ∧ InodeTable_get_inode t p = Some parent.

(** What one READDIR answers, once it has the entries. *)
Lemma readdir_with_entries info ino parent path key off b st st1 es :
  located (mt_inodes st) ino parent path → 0 ≤ off →
  fetch_entries info path key st = Ret (inr es, st1) →
  FuseMT_readdir info ino key off b st =
    (b ← mt_readdir_loop ino parent off (drop (Z.to_nat off) es) 0 b; Ret (Some (ADirectory b), st1)).
Proof.
  intros [Hp Hpar] Hoff Hf. destruct (keeps_fetch _ _ _ _ _ _ Hf) as [Ht _].
  unfold FuseMT_readdir, get_path, on_inodes. unfold mbind at 1, stateM_bind. rewrite Hp. cbn -[fetch_entries].
  rewrite (proj2 (Z.ltb_ge off 0)) by done.
  unfold mbind at 1, stateM_bind. replace (with_inodes (mt_inodes st) st) with st by by destruct st.
  rewrite Hf. cbn [or_error]. destruct (ino =? 1).
  - subst parent. unfold mbind, stateM_bind, lift. cbn. by destruct (mt_readdir_loop _ _ _ _ _ _).
  - destruct Hpar as (p & Hpp & Hpi). unfold mbind, stateM_bind, lift, gets. rewrite Hpp. cbn. rewrite Ht, Hpi. by destruct (mt_readdir_loop _ _ _ _ _ _).
Qed.

(** A listing in pages is the listing of what the target gave at the first one. *)
Lemma pages_of_snapshot info ino parent path key f env max fuel st es :
  located (mt_inodes st) ino parent path →
  cache_entries (mt_directory_cache st) !! key = Some (mkDirEntry f None) →
  yields (mt_call info (Mt_readdir path f) (env (mt_target st))) (λ '(r, _), r = inr es) →
  Z.of_nat (length es) < 2 ^ 62 → dirents_ok (listed ino parent es) →
  Forall (λ e, Z.of_nat (length (entry_name e)) + 31 ≤ max) es → (length es < fuel)%nat →
  yields (list_pages (mt_read_page info ino key max env) fuel 0 st)
    (λ '(l, _), l = seen <$> dirents 0 (listed ino parent es)).
Proof.
  intros Hloc Hkey Hcall Hlen Hok Hroom Hfuel.
  set (I := λ st', mt_inodes st' = mt_inodes st ∧
    (cache_entries (mt_directory_cache st') !! key = Some (mkDirEntry f (Some es)) ∨
     cache_entries (mt_directory_cache st') !! key = Some (mkDirEntry f None) ∧
     yields (mt_call info (Mt_readdir path f) (env (mt_target st'))) (λ '(r, _), r = inr es))).
  assert (length (listed ino parent es) = length es) as Hl by apply length_fmap.
  eapply yields_mono;
    [apply (list_pages_complete I _ (listed ino parent es) max)|by intros [l st'] [_ ->]].
  - lia.
  - done.
  - unfold listed. by apply Forall_fmap.
  - intros p st' [Ht Hc] Hp. unfold mt_read_page.
    set (st0 := with_target (env (mt_target st')) st').
    assert (∃ st1, fetch_entries info path key st0 = Ret (inr es, st1) ∧ I st1) as (st1 & Hf & HI).
    { unfold fetch_entries, gets, lift, mbind, stateM_bind. cbn [id].
      change (mt_directory_cache st0) with (mt_directory_cache st').
      destruct Hc as [Hc|[Hc Hes]]; rewrite Hc; cbn -[DirectoryCache_get_mut call_target].
      - exists st0. split; [done|]. split; [done|]. by left.
      - unfold call_target. change (mt_target st0) with (env (mt_target st')).
        apply yields_Ret in Hes as ([r t'] & -> & ->). cbn -[DirectoryCache_get_mut].
        unfold DirectoryCache_get_mut. change (mt_directory_cache _) with (mt_directory_cache st').
        rewrite Hc. cbn. eexists. split; [done|]. split; [done|]. left. cbn.
        by rewrite lookup_insert_eq. }
    unfold mbind at 1, stateM_bind, modify. fold st0. unfold mbind, stateM_bind.
    assert (located (mt_inodes st0) ino parent path) as Hloc0 by (unfold st0; cbn; by rewrite Ht).
    rewrite (readdir_with_entries info ino parent path key p _ st0 st1 es Hloc0) by (lia || done).
    destruct (page_spec (listed ino parent es) p max) as (k & b & Hb & _);
      [lia|lia|done|unfold listed; by apply Forall_fmap|].
    assert (mt_readdir_loop ino parent p (drop (Z.to_nat p) es) 0 (DirEntList_new max) = Ret b) as ->.
    { destruct (decide (Z.to_nat p < length es)%nat) as [Hlt|Hge].
      - rewrite mt_readdir_loop_page by (rewrite ?length_drop; lia). rewrite Z.add_0_r.
        unfold listed in *. by rewrite fmap_drop.
      - rewrite drop_ge by lia. rewrite drop_ge in Hb by lia. done. }
    cbn. split; [done|]. exists b. done.
  - split; [done|]. by right.
  - lia.
  - change (Z.to_nat 0) with 0%nat. rewrite drop_0. lia.
Qed.

(** Listing an open directory page by page shows the entries the target gave
    at the first page, each once and in their order, with the offsets to continue
    from, whatever the size of the pages and whatever happens to the target's
    directory between them. *)
Theorem mt_readdir_snapshot info ino parent path key f env max fuel st es :
  located (mt_inodes st) ino parent path →
  cache_entries (mt_directory_cache st) !! key = Some (mkDirEntry f None) →
  yields (mt_call info (Mt_readdir path f) (env (mt_target st))) (λ '(r, _), r = inr es) →
  Z.of_nat (length es) < 2 ^ 62 → dirents_ok (listed ino parent es) →
  Forall (λ e, Z.of_nat (length (entry_name e)) + 31 ≤ max) es → (length es < fuel)%nat →
  yields (list_pages (mt_read_page info ino key max env) fuel 0 st)
    (λ '(l, _), l = seen <$> dirents 0 (listed ino parent es)).
Proof. by apply pages_of_snapshot. Qed.
End listings.

(** ** Paths that go stale *)

Section stale.
Context `{B : Build, C : Libc, F : LibcFs} {T : Type} `{MT : FilesystemMT T}.
Implicit Types (t : inode_table) (st : FuseMT T).

(** A path that is mapped cannot be added. *)
Lemma add_mapped t p i : InodeTable_get_inode t p = Some i → InodeTable_add t p = Panic.
Proof.
  unfold InodeTable_get_inode, InodeTable_add, get_inode_entry. intros (idx & Hp & _)%fmap_Some.
  destruct (free_list t) as [|j free].
  - cbn. by rewrite Hp.
  - destruct (table t !! j) as [e|]; [|done]. cbn. unfold uadd, uarith.
    case_decide; [|destruct debug_assertions; [done|]]; cbn; by rewrite Hp.
Qed.

Lemma request_answers info c st o st' :
  FuseMT_call info c st = Ret (o, st') →
  mt_do (MtRequest info c) st = Ret (match o with Some a => [(info_unique info, a)] | None => [] end, st').
Proof. intros Hc. unfold mt_do, mbind, stateM_bind. by rewrite Hc. Qed.
Lemma request_panics info c st : FuseMT_call info c st = Panic → mt_do (MtRequest info c) st = Panic.
Proof. intros Hc. unfold mt_do, mbind, stateM_bind. by rewrite Hc. Qed.
Lemma get_path_found i p st k :
  InodeTable_get_path (mt_inodes st) i = Ret (Some p) → get_path i k st = k p st.
Proof.
  intros Hp. unfold get_path, on_inodes, mbind at 1, stateM_bind. rewrite Hp. cbn.
  by replace (with_inodes (mt_inodes st) st) with st by by destruct st.
Qed.

Lemma get_path_entry t i idx e :
  i = inode_of idx → Z.of_nat (length (table t)) < 2 ^ 63 → table t !! idx = Some e →
  InodeTable_get_path t i = Ret (path e).
Proof.
  intros -> Hl He. pose proof (lookup_lt_Some _ _ _ He). unfold InodeTable_get_path, entry_at, inode_of.
  rewrite usub_small by lia. cbn [mbind outcome_bind].
  replace (Z.to_nat (Z.of_nat idx + 1 - 1)) with idx by lia. by rewrite He.
Qed.

(** RMDIR leaves the directory in the inode table under its name, while the
    kernel holds it (as it does for a process that has it as its working
    directory): making a directory of the same name again panics. *)
Theorem mt_mkdir_after_rmdir_panics info info' parent pp name mode umask i r st l st' tgt :
  sound (mt_inodes st) → Z.of_nat (length (table (mt_inodes st))) < 2 ^ 63 →
  InodeTable_get_path (mt_inodes st) parent = Ret (Some pp) →
  InodeTable_get_inode (mt_inodes st) (join pp name) = Some i →
  mt_do (MtRequest info (Fs_rmdir parent name)) st = Ret (l, st') →
  InodeTable_get_path (mt_inodes st') i = Ret (Some (join pp name)) ∧
  (mt_call info' (Mt_mkdir pp name mode) (mt_target st') = Ret (inr r, tgt) →
   mt_do (MtRequest info' (Fs_mkdir parent name mode umask)) st' = Panic).
Proof.
  intros Hs Hlen Hp Hi Hr.
  assert (mt_inodes st' = mt_inodes st) as Ht.
  { unfold mt_do, mbind, stateM_bind in Hr. cbn [FuseMT_call] in Hr. unfold FuseMT_rmdir in Hr.
    rewrite (get_path_found _ pp) in Hr by done. unfold call_empty, call_target, mbind, stateM_bind in Hr.
    destruct (mt_call _ _ _) as [[]| |]; [|done..]. by injection Hr as _ <-. }
  split; [|intros Hgrant].
  { unfold InodeTable_get_inode in Hi. apply fmap_Some in Hi as (idx & Hidx & ->).
    destruct (wf_by_path _ (proj1 Hs) _ _ Hidx) as (e & He & Hpe).
    rewrite Ht, (get_path_entry _ _ idx e) by done. by rewrite Hpe. }
  apply request_panics. cbn [FuseMT_call]. unfold FuseMT_mkdir. rewrite (get_path_found _ pp) by by rewrite Ht.
  unfold call_target, mbind, stateM_bind. rewrite Hgrant.
  destruct r as [ttl attr]. cbn -[InodeTable_add]. unfold add_entry, on_inodes, mbind, stateM_bind.
  cbn -[InodeTable_add]. rewrite Ht, (add_mapped _ _ i Hi). done.
Qed.

(** Renaming a directory leaves the paths of what is below it as they were: the
    target is asked for the old path of a file the kernel holds there, and
    renaming the file panics. *)
Theorem mt_rename_child_panics info info' p pp n p' pp' n' flags di ci c m flags' st l st' tgt :
  let np := join pp' n' in
  sound (mt_inodes st) → Z.of_nat (length (table (mt_inodes st))) < 2 ^ 63 → 0 < ci < 2 ^ 64 →
  InodeTable_get_path (mt_inodes st) p = Ret (Some pp) →
  InodeTable_get_path (mt_inodes st) p' = Ret (Some pp') →
  InodeTable_get_inode (mt_inodes st) (join pp n) = Some di →
  InodeTable_get_path (mt_inodes st) ci = Ret (Some (join (join pp n) c)) → ci ≠ di →
  InodeTable_get_inode (mt_inodes st) (join np c) = None → join np c ≠ np →
  mt_do (MtRequest info (Fs_rename p n p' n' flags)) st = Ret ([(l, AEmpty)], st') →
  InodeTable_get_path (mt_inodes st') ci = Ret (Some (join (join pp n) c)) ∧
  (mt_call info' (Mt_rename np c np m) (mt_target st') = Ret (inr tt, tgt) →
   mt_do (MtRequest info' (Fs_rename di c di m flags')) st' = Panic).
Proof.
  intros np Hs Hlen Hci Hp Hp' Hdi Hcp Hne Hnone Hnp Hr.
  unfold mt_do, mbind, stateM_bind in Hr. cbn [FuseMT_call] in Hr. unfold FuseMT_rename in Hr.
  rewrite (get_path_found _ pp), (get_path_found _ pp') in Hr by done.
  unfold call_target, mbind, stateM_bind in Hr. destruct (mt_call _ _ _) as [[[e|u] t1]| |]; [done| |done..].
  cbn -[InodeTable_rename] in Hr. unfold on_inodes, mbind, outcome_bind, stateM_bind in Hr.
  cbn -[InodeTable_rename] in Hr.
  destruct (InodeTable_rename (mt_inodes st) (join pp n) (join pp' n')) as [t| |] eqn:Hren; [|done..].
  injection Hr as _ <-. cbn [mt_inodes with_inodes mt_target with_target].
  pose proof (permits_eq _ _ _ (rename_spec _ _ _ (proj1 Hs)) Hren) as (_ & idx & e & Ho & He & Ht & _ & Hbp).
  unfold InodeTable_get_inode in Hdi. rewrite Ho in Hdi. injection Hdi as Hdi.
  assert (Z.of_nat (length (table t)) < 2 ^ 63) as Hlen' by by rewrite Ht, length_insert.
  split.
  - unfold InodeTable_get_path, entry_at in *. rewrite usub_small in * by lia. cbn [mbind outcome_bind] in *.
    rewrite Ht, (insert_at _ _ _ _ _ He), decide_False; [done|]. unfold inode_of in Hdi. lia.
  - intros Hgrant. apply request_panics. cbn [FuseMT_call]. unfold FuseMT_rename.
    assert (InodeTable_get_path t di = Ret (Some np)) as Hd.
    { rewrite (get_path_entry t di idx (mkEntry (Some np) (lookups e) (generation e))); [done..|].
      rewrite Ht, (insert_at _ _ _ _ _ He). by rewrite decide_True. }
    rewrite (get_path_found _ np), (get_path_found _ np) by done.
    unfold call_target, mbind, stateM_bind. cbn [mt_target with_inodes with_target] in *.
    rewrite Hgrant.
    cbn -[InodeTable_rename]. unfold on_inodes, mbind, outcome_bind, stateM_bind. cbn -[InodeTable_rename].
    unfold InodeTable_rename. rewrite Hbp, lookup_insert_ne by done.
    unfold InodeTable_get_inode in Hnone. apply fmap_None in Hnone.
    assert (delete (join pp n) (by_path (mt_inodes st)) !! join np c = None) as ->; [|done].
    apply lookup_delete_None. by right.
Qed.
End stale.

(** ** Witnesses *)

(** A target that grants everything; a directory lists [.], [..] and [f]. *)
Definition demo_attr_mt : FileAttrMT :=
  MkFileAttrMT 5 1 UNIX_EPOCH UNIX_EPOCH UNIX_EPOCH UNIX_EPOCH RegularFile 420 1 0 0 0 0.
Definition demo_ttl : Duration := MkDuration 1 0.
Definition demo_entries : list DirectoryEntry :=
  [MkDirectoryEntry dot Directory; MkDirectoryEntry dotdot Directory; MkDirectoryEntry [102] RegularFile].
Definition demo_result {A} (c : MtCall A) : A :=
  match c with
  | Mt_getattr _ _ | Mt_mknod _ _ _ _ | Mt_mkdir _ _ _ | Mt_symlink _ _ _ | Mt_link _ _ _ =>
      inr (demo_ttl, demo_attr_mt)
  | Mt_readlink _ | Mt_read _ _ _ _ => inr [104; 105]
  | Mt_open _ _ | Mt_opendir _ _ => inr (70, 0)
  | Mt_write _ _ _ data _ => inr (Z.of_nat (length data))
  | Mt_readdir _ _ => inr demo_entries
  | Mt_statfs _ => inr (MkStatfs 0 0 0 0 0 512 255 0)
  | Mt_getxattr _ _ _ | Mt_listxattr _ _ => inr (XattrSize 0)
  | Mt_create _ _ _ _ => inr (MkCreatedEntry demo_ttl demo_attr_mt 70 0)
  | Mt_chmod _ _ _ | Mt_chown _ _ _ _ | Mt_truncate _ _ _ | Mt_utimens _ _ _ _
  | Mt_utimens_macos _ _ _ _ _ _ | Mt_unlink _ _ | Mt_rmdir _ _ | Mt_rename _ _ _ _ | Mt_flush _ _ _
  | Mt_release _ _ _ _ _ | Mt_fsync _ _ _ | Mt_releasedir _ _ _ | Mt_fsyncdir _ _ _
  | Mt_setxattr _ _ _ _ _ | Mt_removexattr _ _ | Mt_access _ _ => inr tt
  end.
Definition demo_target : FilesystemMT unit := {|
  mt_init _ t := Ret (inr tt, t); mt_destroy t := Ret (tt, t); mt_call A _ c t := Ret (demo_result c, t);
  mt_now t := (UNIX_EPOCH, t) |}.
Definition demo_info (unique : Z) : RequestInfo := MkRequestInfo unique 0 0 1.

Definition demo_do (s : mt_step) (st : FuseMT unit) : FuseMT unit :=
  match @mt_do true linux linux_fs unit demo_target s st with Ret (_, st') => st' | _ => st end.
(** The directory d and the file d/f are looked up. *)
Definition demo_lookup_d : mt_step := MtRequest (demo_info 10) (Fs_lookup 1 [100]).
Definition demo_lookup_f : mt_step := MtRequest (demo_info 11) (Fs_lookup 2 [102]).
Definition demo_mt : FuseMT unit := demo_do demo_lookup_f (demo_do demo_lookup_d (FuseMT_new tt 2)).

Lemma demo_mt_reached :
  ∃ K, @reached true linux linux_fs unit demo_target 2 K demo_mt ∧ K 2 = 1 ∧ K 3 = 1.
Proof.
  eexists. split.
  - eapply (@reached_step _ _ _ _ _ 1 _ (demo_do demo_lookup_d (FuseMT_new tt 2)) demo_lookup_f
      [(11, AEntry demo_ttl (fuse_fileattr demo_attr_mt 3) 0)]); [|exact I|vm_compute; reflexivity].
    apply (@reached_step _ _ _ _ _ 0 none (FuseMT_new tt 2) demo_lookup_d
      [(10, AEntry demo_ttl (fuse_fileattr demo_attr_mt 2) 0)]); [|exact I|vm_compute; reflexivity].
    constructor.
  - split; reflexivity.
Defined.

Lemma mt_inodes_held_witness :
  ∃ p, InodeTable_get_path (B := true) (mt_inodes demo_mt) 3 = Ret (Some p).
Proof.
  destruct demo_mt_reached as (K & HK & _ & H3).
  destruct (@mt_inodes_held true linux linux_fs unit demo_target 2 K demo_mt 3 HK) as (_ & Hp & _); [done..|].
  apply Hp. rewrite H3. done.
Defined.

(** A read and a write wait for a thread, and the write is done first. *)
Definition demo_steps : list mt_step :=
  [demo_lookup_d; MtRequest (demo_info 12) (Fs_read 2 70 0 10 0 None);
   MtRequest (demo_info 13) (Fs_write 2 70 0 [97] 0 0 None); MtJob 1; MtRequest (demo_info 14) (Fs_forget 2 1)].

(** The root is opened under the key 1, and listed in pages of 40 bytes. *)
Definition demo_opened : FuseMT unit :=
  demo_do (MtRequest (demo_info 15) (Fs_opendir 1 0)) (FuseMT_new tt 2).
Lemma mt_readdir_snapshot_witness :
  yields (list_pages (@mt_read_page true linux linux_fs unit demo_target (demo_info 16) 1 1 40 id) 4 0 demo_opened)
    (λ '(l, _), snd <$> l = [dot; dotdot; [102]]).
Proof.
  pose proof (@mt_readdir_snapshot true linux linux_laws linux_fs unit demo_target (demo_info 16) 1 1 [] 1 70 id 40
    4 demo_opened demo_entries) as Hy.
  eapply yields_mono; [apply Hy|].
  - split; reflexivity.
  - reflexivity.
  - reflexivity.
  - done.
  - by repeat constructor.
  - by repeat constructor.
  - simpl. lia.
  - intros [l st] ->. reflexivity.
Defined.

Lemma mt_mkdir_after_rmdir_panics_witness :
  let st' := demo_do (MtRequest (demo_info 17) (Fs_rmdir 1 [100])) demo_mt in
  InodeTable_get_path (B := true) (mt_inodes st') 2 = Ret (Some [[100]]) ∧
  @mt_do true linux linux_fs unit demo_target (MtRequest (demo_info 18) (Fs_mkdir 1 [100] 493 0)) st' = Panic.
Proof.
  destruct demo_mt_reached as (K & HK & _).
  destruct (@reached_holds true linux linux_fs unit demo_target 2 K demo_mt HK) as [Hs _]; [done|].
  intros st'.
  destruct (@mt_mkdir_after_rmdir_panics true linux linux_fs unit demo_target (demo_info 17) (demo_info 18) 1 [] [100]
    493 0 2 (demo_ttl, demo_attr_mt) demo_mt [(17, AEmpty)] st' tt) as [Hp Hr];
    [exact Hs|done|vm_compute; reflexivity..|].
  split; [exact Hp|]. apply Hr. vm_compute. reflexivity.
Defined.

(** d becomes e, and then e/f is to become e/g. *)
Lemma mt_rename_child_panics_witness :
  let st' := demo_do (MtRequest (demo_info 17) (Fs_rename 1 [100] 1 [101] 0)) demo_mt in
  InodeTable_get_path (B := true) (mt_inodes st') 3 = Ret (Some [[100]; [102]]) ∧
  @mt_do true linux linux_fs unit demo_target (MtRequest (demo_info 18) (Fs_rename 2 [102] 2 [103] 0)) st' = Panic.
Proof.
  destruct demo_mt_reached as (K & HK & _).
  destruct (@reached_holds true linux linux_fs unit demo_target 2 K demo_mt HK) as [Hs _]; [done|].
  intros st'.
  destruct (@mt_rename_child_panics true linux linux_fs unit demo_target (demo_info 17) (demo_info 18) 1 [] [100]
    1 [] [101] 0 2 3 [102] [103] 0 demo_mt 17 st' tt) as [Hp Hr];
    [exact Hs|done|done|done|done|done|done|done|done|done|vm_compute; reflexivity|].
  split; [exact Hp|]. by apply Hr.
Defined.
