(* ===== verification/MountOptions.v ===== *)
(** * MountOptions: the options of a mount

    [MountOption] ([fuse/src/uring_fuse/mount/mount_options.rs]): its texts, the
    arguments of a mount command, conflicts. *)

From Stdlib Require Import Ascii String.
From S2P Require Import Prelude Operation Paths Text.

Local Open Scope Z_scope.

(** ** Options *)

Inductive MountOption : Type :=
  | FSName (name : OsStr) | Subtype (subtype : OsStr) | CUSTOM (value : OsStr)
  | AllowOther | AllowRoot | AutoUnmount | DefaultPermissions
  | Dev | NoDev | Suid | NoSuid | RO | RW | Exec | NoExec | Atime | NoAtime | DirSync | Sync | Async.
#[export] Instance MountOption_eq_dec : EqDecision MountOption.
Proof. solve_decision. Defined.

(** The arms of [from_str] for the options without a parameter. *)
Definition literals : list (OsStr * MountOption) :=
  [(text "auto_unmount", AutoUnmount); (text "allow_other", AllowOther); (text "allow_root", AllowRoot);
   (text "default_permissions", DefaultPermissions); (text "dev", Dev); (text "nodev", NoDev);
   (text "suid", Suid); (text "nosuid", NoSuid); (text "ro", RO); (text "rw", RW); (text "exec", Exec);
   (text "noexec", NoExec); (text "atime", Atime); (text "noatime", NoAtime); (text "dirsync", DirSync);
   (text "sync", Sync); (text "async", Async)].
(** A [match] on strings: the first arm with the text. *)
Definition literal (s : OsStr) : option MountOption :=
  snd <$> List.find (λ a, bool_decide (a.1 = s)) literals.

Definition from_str (s : OsStr) : MountOption :=
  match literal s with
  | Some o => o
  | None =>
      if starts_with (text "fsname=") s then FSName (drop 7 s) else
      if starts_with (text "subtype=") s then Subtype (drop 8 s) else CUSTOM s
  end.

Definition option_to_string (o : MountOption) : OsStr :=
  match o with
  | FSName name => text "fsname=" ++ name
  | Subtype subtype => text "subtype=" ++ subtype
  | CUSTOM value => value
  | AutoUnmount => text "auto_unmount"
  | AllowOther => text "allow_other"
  | AllowRoot => text "allow_other"
  | DefaultPermissions => text "default_permissions"
  | Dev => text "dev" | NoDev => text "nodev"
  | Suid => text "suid" | NoSuid => text "nosuid"
  | RO => text "ro" | RW => text "rw"
  | Exec => text "exec" | NoExec => text "noexec"
  | Atime => text "atime" | NoAtime => text "noatime"
  | DirSync => text "dirsync" | Sync => text "sync" | Async => text "async"
  end.

Definition conflicts_with (o : MountOption) : list MountOption :=
  match o with
  | FSName _ | Subtype _ | CUSTOM _ => []
  | AllowOther => [AllowRoot] | AllowRoot => [AllowOther]
  | AutoUnmount | DefaultPermissions => []
  | Dev => [NoDev] | NoDev => [Dev]
  | Suid => [NoSuid] | NoSuid => [Suid]
  | RO => [RW] | RW => [RO]
  | Exec => [NoExec] | NoExec => [Exec]
  | Atime => [NoAtime] | NoAtime => [Atime]
  | DirSync => []
  | Sync => [Async] | Async => [Sync]
  end.

(** An error of the kind [InvalidInput], of whatever message. *)
Inductive invalid_input : Type := Invalid.

(** The sets are used as sets: by membership. *)
Definition check_option_conflicts (options : list MountOption) : invalid_input + unit :=
  let conflicting := options ≫= conflicts_with in
  let intersection := filter (λ o, o ∈ options) conflicting in
  match intersection with [] => inr tt | _ => inl Invalid end.

(** ** The arguments of a mount command *)

Definition dash_o : OsStr := text "-o".
(** The loop over the arguments, with [out] so far. *)
Fixpoint parse_args_loop (it : list OsStr) (out : list MountOption) : invalid_input + list MountOption :=
  let push opt out := out ++ (from_str <$> split_at comma opt) in
  match it with
  | [] => inr out
  | x :: it =>
      if bool_decide (x = dash_o) then
        match it with
        | [] => inl Invalid
        | opt :: it => parse_args_loop it (push opt out)
        end
      else if starts_with dash_o x then parse_args_loop it (push (drop 2 x) out)
      else inl Invalid
  end.
Definition parse_options_from_args (args : list OsStr) : invalid_input + list MountOption :=
  if forallb is_utf8 args then parse_args_loop args [] else inl Invalid.

(** ** Texts of options *)

Lemma literal_Some s o : literal s = Some o → (s, o) ∈ literals.
Proof.
  unfold literal. destruct (List.find _ _) as [a|] eqn:Ha; [|done]. intros [= <-]. apply find_some in Ha as [Hin Ha].
  apply bool_decide_eq_true in Ha. rewrite <- Ha. by apply list_elem_of_In; destruct a.
Qed.

(** The options [from_str] makes: no [CUSTOM] with the text of another one. *)
Definition canonical (o : MountOption) : bool :=
  match o with
  | AllowRoot => false
  | CUSTOM v => bool_decide (literal v = None) && negb (starts_with (text "fsname=") v) && negb (starts_with (text "subtype=") v)
  | _ => true
  end.

(** ** Properties *)

Lemma option_text_canonical o : from_str (option_to_string o) = o ↔ canonical o = true.
Proof.
  destruct o as [name|sub|v| | | | | | | | | | | | | | | | | ]; cbn [option_to_string canonical];
    try (split; [done|intros _; vm_compute; reflexivity]); try (split; vm_compute; discriminate).
  unfold from_str. rewrite !andb_true_iff, bool_decide_eq_true, !negb_true_iff.
  destruct (literal v) as [o|] eqn:Hl.
  - split; [|naive_solver]. intros ->. apply literal_Some in Hl. unfold literals in Hl. set_solver.
  - destruct (starts_with (text "fsname=") v) eqn:H1; [split; [discriminate|naive_solver]|].
    destruct (starts_with (text "subtype=") v) eqn:H2; [split; [discriminate|naive_solver]|done].
Qed.

(** Reading the text of an option gives the option back, exactly for those
    [from_str] makes: not for [AllowRoot], whose text is that of [AllowOther], nor
    for a custom option with the text of another one. *)
Theorem option_text_round_trip o : from_str (option_to_string o) = o ↔ canonical o = true.
Proof. apply option_text_canonical. Qed.

(** Printing what was read gives the text, but for [allow_root]. *)
Theorem option_to_string_from_str s :
  option_to_string (from_str s) = if decide (s = text "allow_root") then text "allow_other" else s.
Proof.
  unfold from_str. destruct (literal s) as [o|] eqn:Hl.
  - apply literal_Some in Hl.
    assert (Forall (λ a, option_to_string a.2 = if decide (a.1 = text "allow_root") then text "allow_other" else a.1) literals) as Hall
      by (apply (bool_decide_unpack _); vm_compute; exact I).
    rewrite Forall_forall in Hall. apply (Hall _ Hl).
  - destruct (decide (s = text "allow_root")) as [->|_]; [vm_compute in Hl; discriminate|].
    destruct (starts_with (text "fsname=") s) eqn:H1.
    { apply starts_with_spec in H1 as [r ->]. done. }
    destruct (starts_with (text "subtype=") s) eqn:H2; [|done].
    apply starts_with_spec in H2 as [r ->]. done.
Qed.

(** The arguments of a mount command and the option lists they hold: [-o] and the
    list in the next argument, or both in one. *)
Inductive MountArgs : list OsStr → list OsStr → Prop :=
  | args_end : MountArgs [] []
  | args_next opt args opts : MountArgs args opts → MountArgs (dash_o :: opt :: args) (opt :: opts)
  | args_joined opt args opts : opt ≠ [] → MountArgs args opts → MountArgs ((dash_o ++ opt) :: args) (opt :: opts).
Definition options_of (opts : list OsStr) : list MountOption := opts ≫= λ opt, from_str <$> split_at comma opt.

Lemma dash_o_joined opt : opt ≠ [] → bool_decide (dash_o ++ opt = dash_o) = false.
Proof. intros Hne. apply bool_decide_eq_false. intros He. apply Hne. rewrite <- (app_nil_r dash_o) in He at 2. by apply app_inv_head in He. Qed.
Lemma parse_args_loop_complete args opts out :
  MountArgs args opts → parse_args_loop args out = inr (out ++ options_of opts).
Proof.
  intros Ha. revert out. induction Ha as [|opt args opts _ IH|opt args opts Hne _ IH]; intros out; [by rewrite app_nil_r|..];
    cbn [parse_args_loop].
  - rewrite bool_decide_eq_true_2, IH, <- app_assoc by done. done.
  - rewrite dash_o_joined, starts_with_app, IH, <- app_assoc by done. done.
Qed.
Lemma parse_args_loop_sound args out res :
  parse_args_loop args out = inr res → ∃ opts, MountArgs args opts.
Proof.
  remember (length args) as n eqn:Hn. revert args Hn out. induction (lt_wf n) as [n _ IH]. intros [|x args] -> out Hr.
  { exists []. constructor. }
  cbn [parse_args_loop] in Hr. case_bool_decide as Hx.
  - subst x. destruct args as [|opt args]; [done|]. destruct (IH (length args) ltac:(cbn; lia) args eq_refl _ Hr) as [opts Ho].
    exists (opt :: opts). by constructor.
  - destruct (starts_with dash_o x) eqn:Hs; [|done]. apply starts_with_spec in Hs as [opt ->].
    destruct (IH (length args) ltac:(cbn; lia) args eq_refl _ Hr) as [opts Ho].
    exists (opt :: opts). constructor; [|done]. intros ->. by rewrite app_nil_r in Hx.
Qed.

(** Parsing succeeds exactly on UTF-8 arguments of that form, with the options
    of their lists in order; on everything else it is an error. *)
Theorem parse_options_spec args res :
  parse_options_from_args args = res ↔
  (∃ opts, Forall (λ a, is_utf8 a = true) args ∧ MountArgs args opts ∧ res = inr (options_of opts)) ∨
  (¬ (∃ opts, Forall (λ a, is_utf8 a = true) args ∧ MountArgs args opts) ∧ res = inl Invalid).
Proof.
  unfold parse_options_from_args. destruct (forallb is_utf8 args) eqn:Hu.
  - assert (Forall (λ a, is_utf8 a = true) args) as Hf by (by rewrite Forall_forall; setoid_rewrite list_elem_of_In; apply forallb_forall).
    destruct (parse_args_loop args []) as [[]|out] eqn:Hr.
    + assert (∀ opts, ¬ MountArgs args opts) as Hno by (intros opts Ha; by rewrite (parse_args_loop_complete _ _ _ Ha) in Hr).
      split; [intros <-; right; split; [|done]; by intros (opts & _ & ?%Hno)|].
      by intros [(opts & _ & ?%Hno & _)|[_ ->]].
    + destruct (parse_args_loop_sound _ _ _ Hr) as [opts Ha]. pose proof (parse_args_loop_complete _ _ [] Ha) as Hr'.
      rewrite Hr in Hr'. injection Hr' as ->. split; [intros <-; left; by exists opts|].
      intros [(opts' & _ & Ha' & ->)|[Hn _]]; [|by destruct Hn; exists opts].
      rewrite (parse_args_loop_complete _ _ _ Ha') in Hr. by injection Hr as ->.
  - assert (¬ Forall (λ a, is_utf8 a = true) args) as Hf.
    { rewrite Forall_forall. setoid_rewrite list_elem_of_In. intros Hf. apply forallb_forall in Hf. by rewrite Hf in Hu. }
    split; [intros <-; right; split; [|done]; by intros (opts & ? & _)|].
    by intros [(opts & ? & _)|[_ ->]].
Qed.

(** Options given in one list, in an argument of its own or behind the [-o]. *)
Definition print_args (g : bool * list MountOption) : list OsStr :=
  let s := join_with comma (option_to_string <$> g.2) in if g.1 then [dash_o ++ s] else [dash_o; s].
(** What can be given so: UTF-8 without a comma, and behind the [-o] something. *)
Definition printable (g : bool * list MountOption) : Prop :=
  g.2 ≠ [] ∧ (g.1 = true → g.2 ≠ [CUSTOM []]) ∧
  Forall (λ o, canonical o = true ∧ (comma ∉ option_to_string o) ∧ is_utf8 (option_to_string o) = true) g.2.

Lemma print_args_joined os : os ≠ [] → os ≠ [CUSTOM []] → join_with comma (option_to_string <$> os) ≠ [].
Proof.
  destruct os as [|o [|o' os]]; [done|..]; intros _ Hne; cbn.
  - destruct o; cbn; try discriminate. intros ->. by apply Hne.
  - by intros [_ Hs]%app_eq_nil.
Qed.
Lemma options_of_printed os : os ≠ [] → Forall (λ o, canonical o = true ∧ (comma ∉ option_to_string o) ∧ is_utf8 (option_to_string o) = true) os →
  from_str <$> split_at comma (join_with comma (option_to_string <$> os)) = os.
Proof.
  intros Hne Hos. rewrite split_join; [|by destruct os|by apply Forall_fmap; eapply Forall_impl; [exact Hos|naive_solver]].
  rewrite <- list_fmap_compose. rewrite <- (list_fmap_id os) at 2. apply list_fmap_ext. intros i o Ho. cbn.
  apply option_text_canonical. by apply (Forall_lookup_1 _ _ _ _ Hos) in Ho as [? _].
Qed.

(** Arguments made from options, in any grouping, are parsed to these options. *)
Theorem mount_args_round_trip gs :
  Forall printable gs → parse_options_from_args (gs ≫= print_args) = inr (gs ≫= snd).
Proof.
  intros Hgs. unfold parse_options_from_args.
  assert (∃ opts, MountArgs (gs ≫= print_args) opts ∧ options_of opts = gs ≫= snd) as (opts & Ha & Ho).
  { induction Hgs as [|[j os] gs (Hne & Hj & Hos) _ (opts & Ha & Ho)]; [exists []; split; [constructor|done]|].
    exists (join_with comma (option_to_string <$> os) :: opts). split.
    - unfold print_args. cbn. destruct j; cbn [app]; constructor; [|done|done]. by apply print_args_joined; [|apply Hj].
    - change (options_of (?s :: opts)) with ((from_str <$> split_at comma s) ++ options_of opts).
      by rewrite Ho, options_of_printed. }
  rewrite (parse_args_loop_complete _ _ _ Ha), Ho. replace (forallb _ _) with true; [done|]. symmetry.
  apply forallb_forall. intros a Hin%list_elem_of_In. apply list_elem_of_bind in Hin as ([j os] & Hin & Hg).
  rewrite Forall_forall in Hgs. destruct (Hgs _ Hg) as (_ & _ & Hos).
  assert (is_utf8 (join_with comma (option_to_string <$> os)) = true) as Hu.
  { apply is_utf8_join; [done|]. apply Forall_fmap. eapply Forall_impl; [exact Hos|]. by intros o (_ & _ & ?). }
  unfold print_args in Hin. cbn [fst snd] in Hin. destruct j.
  - apply list_elem_of_singleton in Hin as ->. by rewrite is_utf8_app.
  - apply elem_of_cons in Hin as [->|Hin]; [done|]. by apply list_elem_of_singleton in Hin as ->.
Qed.

Lemma conflicts_mutual a b : b ∈ conflicts_with a → a ∈ conflicts_with b ∧ a ≠ b.
Proof. destruct a; cbn; try (by intros ?%elem_of_nil); intros ->%list_elem_of_singleton; split; (by apply list_elem_of_singleton) || done. Qed.

(** The options are refused exactly when they hold two that exclude each
    other. *)
Theorem check_option_conflicts_spec options :
  (check_option_conflicts options = inl Invalid ↔ ∃ a b, a ∈ options ∧ b ∈ options ∧ a ≠ b ∧
    b ∈ conflicts_with a ∧ a ∈ conflicts_with b) ∧
  (check_option_conflicts options = inr tt ↔ ∀ a b, a ∈ options → b ∈ options → b ∉ conflicts_with a).
Proof.
  unfold check_option_conflicts. assert (∀ b, b ∈ filter (λ o, o ∈ options) (options ≫= conflicts_with) ↔
    b ∈ options ∧ ∃ a, b ∈ conflicts_with a ∧ a ∈ options) as Hin by (intros b; by rewrite list_elem_of_filter, list_elem_of_bind).
  destruct (filter _ _) as [|b bs].
  - assert (∀ a b, a ∈ options → b ∈ options → b ∉ conflicts_with a) as Hno.
    { intros a b Ha Hb Hab. apply (not_elem_of_nil b), Hin. split; [done|by exists a]. }
    split; [|by split]. split; [done|]. intros (a & b & Ha & Hb & _ & Hab & _). by destruct (Hno a b Ha Hb).
  - destruct (proj1 (Hin b)) as (Hb & a & Hab & Ha); [by left|]. destruct (conflicts_mutual a b Hab) as [Hba Hne]. split.
    + split; [|done]. intros _. by exists a, b.
    + split; [done|]. intros Hno. by destruct (Hno a b Ha Hb).
Qed.

(** ** Witnesses *)

(** "-o suid -o ro,nodev,noexec -osync", as in the comment of the source. *)
Lemma mount_args_round_trip_witness :
  parse_options_from_args [text "-o"; text "suid"; text "-o"; text "ro,nodev,noexec"; text "-osync"] =
  inr [Suid; RO; NoDev; NoExec; Sync].
Proof.
  assert (Forall printable [(false, [Suid]); (false, [RO; NoDev; NoExec]); (true, [Sync])]) as Hp.
  { repeat apply List.Forall_cons; [..|apply List.Forall_nil]; (split; [done|split; [done|]]);
      apply (bool_decide_unpack _); vm_compute; exact I. }
  exact (mount_args_round_trip _ Hp).
Defined.
