(* ===== verification/Mount.v ===== *)
(** * Mount: mounting and unmounting

    [Mount] and its functions ([fuse/src/uring_fuse/mount/fuse_pure.rs],
    [mount/mod.rs]), on Linux, with what [Session::new] ([session.rs]) does with the
    options.  System calls and the helper process [fusermount] are a parameter
    (Programs.v); the descriptors that Rust closes when their owners are dropped are
    closed explicitly.  Log messages and the texts of errors are left out. *)

From Stdlib Require Import Ascii String.
From S2P Require Import Prelude Programs Time Operation Response Reply Paths Text Session MountOptions.

Local Open Scope Z_scope.

(** ** System calls *)

(** A child process is a number; [Sys_command] runs one to its end. *)
Inductive MountSys : Type → Type :=
  | Sys_canonicalize (path : OsStr) : MountSys OsStr
  | Sys_open_file (path : OsStr) (write : bool) : MountSys Z
  | Sys_file_mode (fd : Z) : MountSys Z
  | Sys_close_fd (fd : Z) : MountSys unit
  | Sys_mount (source mountpoint fstype : OsStr) (flags : Z) (options : OsStr) : MountSys unit
  | Sys_umount (mountpoint : OsStr) : MountSys unit
  | Sys_umount_detach (mountpoint : OsStr) : MountSys unit                 (* umount2, MNT_DETACH *)
  | Sys_poll (fd : Z) : MountSys (Z * Z)                                   (* no events, no waiting: result and revents *)
  | Sys_socketpair : MountSys (Z * Z)
  | Sys_set_fd_flags (fd flags : Z) : MountSys unit                        (* fcntl, F_SETFD *)
  | Sys_command (program : OsStr) (args : list OsStr) : MountSys unit
  | Sys_spawn (program : OsStr) (args : list OsStr) (comm_fd : Z) : MountSys Z
  | Sys_wait_with_output (child : Z) : MountSys OsStr                      (* what it wrote to stderr *)
  | Sys_read_pipes (child : Z) : MountSys unit                             (* without waiting *)
  | Sys_recvmsg (fd : Z) : MountSys (Z * option (Z * Z)).                  (* length; type and descriptor of the control message *)

(** [io::Error]: from the system or with a kind of its own. *)
Inductive ErrorKind : Type := PermissionDenied | Interrupted | UnexpectedEof | InvalidData | InvalidInput | Other | OfErrno (errno : Z).
#[export] Instance ErrorKind_eq_dec : EqDecision ErrorKind.
Proof. solve_decision. Defined.
Inductive io_error : Type := OsError (errno : Z) | KindError (kind : ErrorKind).

Class LibcMount := {
  MS_RDONLY : Z; MS_NOSUID : Z; MS_NODEV : Z; MS_NOEXEC : Z; MS_SYNCHRONOUS : Z; MS_DIRSYNC : Z; MS_NOATIME : Z;
  POLLERR : Z; SCM_RIGHTS : Z; FD_CLOEXEC : Z }.
Definition linux_mount : LibcMount := {|
  MS_RDONLY := 1; MS_NOSUID := 2; MS_NODEV := 4; MS_NOEXEC := 8; MS_SYNCHRONOUS := 16; MS_DIRSYNC := 128;
  MS_NOATIME := 1024; POLLERR := 8; SCM_RIGHTS := 1; FD_CLOEXEC := 1 |}.
(** A flag is a single bit. *)
Class LibcMountLaws `{LibcMount} : Prop := {
  ms_flag_bit f : f ∈ [MS_RDONLY; MS_NOSUID; MS_NODEV; MS_NOEXEC; MS_SYNCHRONOUS; MS_DIRSYNC; MS_NOATIME] →
    ∃ b, 0 ≤ b ∧ f = 2 ^ b;
  POLLERR_nonzero : POLLERR ≠ 0 }.
#[export] Instance linux_mount_laws : LibcMountLaws (H := linux_mount).
Proof.
  split; [|done]. intros f Hf. assert (f ∈ Z.pow 2 <$> [0; 1; 2; 3; 4; 7; 10]) as (b & -> & Hb)%list_elem_of_fmap by exact Hf.
  exists b. split; [|done]. assert (Forall (λ b, 0 ≤ b) [0; 1; 2; 3; 4; 7; 10]) as Hall by (repeat constructor; lia).
  rewrite Forall_forall in Hall. by apply Hall.
Qed.

Section mount.
Context `{C : Libc, F : LibcFs, LM : LibcMount}.

Abbreviation Prog := (Prog MountSys).
Abbreviation io_result A := (io_error + A)%type.

(** [io::Error::kind]: the kinds the code tests for; the others are not told apart
    further than by the number. *)
Definition error_kind (e : io_error) : ErrorKind :=
  match e with
  | OsError e => if bool_decide (e = EPERM ∨ e = EACCES) then PermissionDenied
                 else if bool_decide (e = EINTR) then Interrupted else OfErrno e
  | KindError k => k
  end.

Definition io {X} (s : MountSys X) : Prog (io_result X) :=
  r ← call s; Done (match r with inl e => inl (OsError e) | inr x => inr x end).
(** A call whose result is ignored. *)
Definition ignore {X} (s : MountSys X) : Prog unit := _ ← call s; Done tt.
(** The drop of a [File] or [UnixStream]. *)
Definition drop_fd (fd : Z) : Prog unit := ignore (Sys_close_fd fd).
Definition drop_fds (fds : list Z) : Prog unit := foldr (λ fd m, drop_fd fd ≫= λ _, m) (Done tt) fds.

(** ** What the kernel is told *)

Inductive MountOptionGroup : Type := KernelOption | KernelFlag | Fusermount.
#[export] Instance MountOptionGroup_eq_dec : EqDecision MountOptionGroup.
Proof. solve_decision. Defined.

Definition option_group (o : MountOption) : MountOptionGroup :=
  match o with
  | FSName _ | Subtype _ => Fusermount
  | CUSTOM _ => KernelOption
  | AutoUnmount => Fusermount
  | AllowOther => KernelOption
  | Dev | NoDev | Suid | NoSuid | RO | RW | Exec | NoExec | Atime | NoAtime | DirSync | Sync | Async => KernelFlag
  | AllowRoot | DefaultPermissions => KernelOption
  end.
Definition option_to_flag (o : MountOption) : outcome Z :=
  match o with
  | Dev => Ret 0 | NoDev => Ret MS_NODEV
  | Suid => Ret 0 | NoSuid => Ret MS_NOSUID
  | RW => Ret 0 | RO => Ret MS_RDONLY
  | Exec => Ret 0 | NoExec => Ret MS_NOEXEC
  | Atime => Ret 0 | NoAtime => Ret MS_NOATIME
  | Async => Ret 0 | Sync => Ret MS_SYNCHRONOUS
  | DirSync => Ret MS_DIRSYNC
  | _ => Panic
  end.

(** The flags: no devices and no set-user-id unless asked for. *)
Fixpoint flags_loop (flags : Z) (options : list MountOption) : outcome Z :=
  match options with
  | [] => Ret flags
  | o :: options => f ← option_to_flag o; flags_loop (Z.lor flags f) options
  end.
Definition mount_flags (options : list MountOption) : outcome Z :=
  let flags := 0 in
  let flags := if bool_decide (Dev ∈ options) then flags else Z.lor flags MS_NODEV in
  let flags := if bool_decide (Suid ∈ options) then flags else Z.lor flags MS_NOSUID in
  flags_loop flags (filter (λ o, option_group o = KernelFlag) options).

(** The options: the four the kernel needs, then those of the caller. *)
Definition mount_text (fd mode uid gid : Z) (options : list MountOption) : OsStr :=
  let s := text "fd=" ++ digits 10 fd ++ text ",rootmode=" ++ digits 8 mode ++
           text ",user_id=" ++ digits 10 uid ++ text ",group_id=" ++ digits 10 gid in
  foldl (λ s o, (s ++ [comma]) ++ option_to_string o) s (filter (λ o, option_group o = KernelOption) options).

Definition fuse_device_name : OsStr := text "/dev/fuse".
Definition mount_source (options : list MountOption) : OsStr :=
  let source := fuse_device_name in
  let source := match List.find (λ o, match o with Subtype _ => true | _ => false end) options with
                | Some (Subtype subtype) => subtype | _ => source end in
  match List.find (λ o, match o with FSName _ => true | _ => false end) options with
  | Some (FSName name) => name | _ => source end.

(** ** Mounting *)

(** The real user and group of the process. *)
Variable (uid gid : Z).

(** [None]: the helper is to be tried. *)
Definition fuse_mount_sys (mountpoint : OsStr) (options : list MountOption) : Prog (io_result (option Z)) :=
  and_then (io (Sys_open_file mountpoint false)) (λ dir,
    r ← io (Sys_file_mode dir);
    _ ← drop_fd dir;
    match r with
    | inl e => Done (inl e)
    | inr mountpoint_mode =>
        if bool_decide (AutoUnmount ∈ options) then Crash Panics else
        and_then (io (Sys_open_file fuse_device_name true)) (λ file,
          if negb (2 <? file) then Crash Panics else
          let mount_options := mount_text file mountpoint_mode uid gid options in
          flags ← pure (mount_flags options);
          let source := mount_source options in
          if has_nul source || has_nul mountpoint || has_nul mount_options then Crash Panics else
          r ← io (Sys_mount source mountpoint (text "fuse") flags mount_options);
          match r with
          | inl e =>
              _ ← drop_fd file;
              if bool_decide (error_kind e = PermissionDenied) then Done (inr None)
              else Done (inl (KindError (error_kind e)))
          | inr _ => Done (inr (Some file))
          end)
    end).

Definition FUSERMOUNT_BIN : OsStr := text "fusermount".
Definition FUSERMOUNT3_BIN : OsStr := text "fusermount3".
Fixpoint detect_loop (names : list OsStr) : Prog OsStr :=
  match names with
  | [] => Done FUSERMOUNT3_BIN
  | name :: names =>
      r ← call (Sys_command name [text "-h"]);
      match r with inr _ => Done name | inl _ => detect_loop names end
  end.
Definition detect_fusermount_bin : Prog OsStr :=
  detect_loop [FUSERMOUNT3_BIN; FUSERMOUNT_BIN; text "/bin/" ++ FUSERMOUNT3_BIN; text "/bin/" ++ FUSERMOUNT_BIN].

(** The loop ends when the call is not interrupted; a message without a control
    message makes [CMSG_FIRSTHDR] null. *)
Fixpoint receive_fusermount_message (fuel : nat) (socket : Z) : Prog (io_result Z) :=
  match fuel with
  | O => Crash Exhausted
  | S fuel =>
      r ← io (Sys_recvmsg socket);
      match r with
      | inl err => if bool_decide (error_kind err = Interrupted) then receive_fusermount_message fuel socket else Done (inl err)
      | inr (result, control_msg) =>
          if result =? 0 then Done (inl (KindError UnexpectedEof)) else
          match control_msg with
          | None => Crash Undefined
          | Some (cmsg_type, fd) =>
              if negb (cmsg_type =? SCM_RIGHTS) then Done (inl (KindError InvalidData)) else
              if fd <? 0 then Done (inl (KindError InvalidData)) else Done (inr fd)
          end
      end
  end.

(** [str::contains]. *)
Fixpoint contains (needle s : OsStr) : bool :=
  starts_with needle s || match s with [] => false | _ :: s => contains needle s end.
Definition user_allow_other : OsStr := text "only allowed if 'user_allow_other' is set".

(** The descriptor of the mounted device and, to unmount automatically, the socket. *)
Definition fuse_mount_fusermount (fuel : nat) (mountpoint : OsStr) (options : list MountOption) : Prog (io_result (Z * option Z)) :=
  and_then (io Sys_socketpair) (λ '(child_socket, receive_socket),
    _ ← ignore (Sys_set_fd_flags child_socket 0);
    bin ← detect_fusermount_bin;
    let args := (match options with [] => [] | _ => [dash_o; join_with comma (option_to_string <$> options)] end)
                ++ [text "--"; mountpoint] in
    r ← io (Sys_spawn bin args child_socket);
    match r with
    | inl e => _ ← drop_fds [receive_socket; child_socket]; Done (inl e)
    | inr fusermount_child =>
        _ ← drop_fd child_socket;
        r ← receive_fusermount_message fuel receive_socket;
        match r with
        | inl _ =>
            _ ← drop_fd receive_socket;
            r ← call (Sys_wait_with_output fusermount_child);
            match r with
            | inl _ => Crash Panics
            | inr stderr => Done (inl (KindError (if contains user_allow_other stderr then PermissionDenied else Other)))
            end
        | inr file =>
            if negb (bool_decide (AutoUnmount ∈ options)) then
              _ ← drop_fd receive_socket;
              r ← io (Sys_wait_with_output fusermount_child);
              match r with
              | inl e => _ ← drop_fd file; Done (inl e)
              | inr _ => _ ← ignore (Sys_set_fd_flags file FD_CLOEXEC); Done (inr (file, None))
              end
            else
              _ ← ignore (Sys_read_pipes fusermount_child);
              _ ← ignore (Sys_set_fd_flags file FD_CLOEXEC);
              Done (inr (file, Some receive_socket))
        end
    end).

Definition fuse_mount_pure (fuel : nat) (mountpoint : OsStr) (options : list MountOption) : Prog (io_result (Z * option Z)) :=
  if bool_decide (AutoUnmount ∈ options) then fuse_mount_fusermount fuel mountpoint options
  else and_then (fuse_mount_sys mountpoint options) (λ res,
    match res with
    | Some file => Done (inr (file, None))
    | None => fuse_mount_fusermount fuel mountpoint options
    end).

Record Mount : Type := MkMount { mountpoint_ : OsStr; auto_unmount_socket : option Z; fuse_device : Z }.

(** [Mount::new]: the device is shared with the caller's channel. *)
Definition Mount_new (fuel : nat) (mountpoint : OsStr) (options : list MountOption) : Prog (io_result Mount) :=
  and_then (io (Sys_canonicalize mountpoint)) (λ mountpoint,
    and_then (fuse_mount_pure fuel mountpoint options) (λ '(file, sock),
      if has_nul mountpoint then _ ← drop_fds (option_list sock ++ [file]); Done (inl (KindError InvalidInput))
      else Done (inr (MkMount mountpoint sock file)))).

(** ** Unmounting *)

Fixpoint is_mounted (fuel : nat) (fuse_device : Z) : Prog bool :=
  match fuel with
  | O => Crash Exhausted
  | S fuel =>
      r ← call (Sys_poll fuse_device);
      match r with
      | inr (res, revents) =>
          if res =? 0 then Done true
          else if res =? 1 then Done (negb (Z.land revents POLLERR =? 0))
          else Crash Panics
      | inl err => if bool_decide (err = EINTR) then is_mounted fuel fuse_device else Crash Panics
      end
  end.

Definition fuse_unmount_pure (mountpoint : OsStr) : Prog unit :=
  r ← call (Sys_umount_detach mountpoint);
  match r with
  | inr _ => Done tt
  | inl _ =>
      bin ← detect_fusermount_bin;
      ignore (Sys_command bin [text "-u"; text "-q"; text "-z"; text "--"; from_utf8_lossy mountpoint])
  end.

(** [Drop for Mount], and the socket if it is still there; the device is closed
    when its other owners are gone, too. *)
Definition Mount_drop (fuel : nat) (m : Mount) : Prog unit :=
  mounted ← is_mounted fuel (fuse_device m);
  if negb mounted then drop_fds (option_list (auto_unmount_socket m))
  else match auto_unmount_socket m with
       | Some sock => drop_fd sock
       | None =>
           r ← io (Sys_umount (mountpoint_ m));
           match r with
           | inl err => if bool_decide (error_kind err = PermissionDenied) then fuse_unmount_pure (mountpoint_ m) else Done tt
           | inr _ => Done tt
           end
       end.

(** ** [Session::new] *)

Definition session_options (options : list MountOption) : list MountOption :=
  if bool_decide (AutoUnmount ∈ options) && negb (bool_decide (AllowRoot ∈ options) || bool_decide (AllowOther ∈ options))
  then options ++ [AllowOther] else options.
(** The session, its mount; [euid] is the effective user. *)
Definition Session_open {FS} (fuel : nat) (filesystem : FS) (mountpoint : OsStr) (options : list MountOption) (euid : Z)
    : Prog (io_result (Session FS * Mount)) :=
  and_then (Mount_new fuel mountpoint (session_options options)) (λ mount,
    Done (inr (Session_new filesystem (bool_decide (AllowRoot ∈ options)) (bool_decide (AllowOther ∈ options)) euid, mount))).
End mount.

(** ** The text of the options *)

Lemma digits_no_comma base n : 2 ≤ base → comma ∉ digits base n.
Proof. intros Hb. apply digits_without; [done|]. unfold comma. lia. Qed.

(** The words of the text: what the kernel reads. *)
Definition mount_words (fd mode uid gid : Z) (options : list MountOption) : list OsStr :=
  [text "fd=" ++ digits 10 fd; text "rootmode=" ++ digits 8 mode; text "user_id=" ++ digits 10 uid;
   text "group_id=" ++ digits 10 gid]
  ++ (filter (λ o, option_group o = KernelOption) options ≫= λ o, split_at comma (option_to_string o)).

Lemma foldl_options s os :
  split_at comma (foldl (λ s o, (s ++ [comma]) ++ option_to_string o) s os) =
  split_at comma s ++ (os ≫= λ o, split_at comma (option_to_string o)).
Proof.
  revert s. induction os as [|o os IH]; intros s; [by rewrite app_nil_r|]. cbn [foldl].
  rewrite IH, bind_cons. replace ((s ++ [comma]) ++ option_to_string o) with (s ++ comma :: option_to_string o) by (by rewrite <- app_assoc).
  by rewrite split_at_concat, <- app_assoc.
Qed.

Lemma mount_text_words fd mode uid gid options :
  split_at comma (mount_text fd mode uid gid options) = mount_words fd mode uid gid options.
Proof.
  unfold mount_text, mount_words. rewrite foldl_options. f_equal.
  assert (∀ (name : String.string) base n, comma ∉ text name → 2 ≤ base → comma ∉ text name ++ digits base n) as Hc.
  { intros name base n Hn Hb [Hin|Hin]%elem_of_app; [done|]. by apply (digits_no_comma base n). }
  trans (split_at comma ((text "fd=" ++ digits 10 fd) ++ comma :: (text "rootmode=" ++ digits 8 mode) ++ comma ::
    (text "user_id=" ++ digits 10 uid) ++ comma :: text "group_id=" ++ digits 10 gid)); [by rewrite <- !app_assoc|].
  rewrite !split_at_concat.
  rewrite !split_at_word by (apply Hc; [apply (bool_decide_unpack _); vm_compute; exact I|lia]). done.
Qed.

(** The kernel reads from the text of the options exactly the device's
    descriptor, the mode, the user and the group, as numbers, and then the texts of
    the options that are meant for it. *)
Theorem mount_text_understood fd mode uid gid options :
  0 ≤ fd → 0 ≤ mode → 0 ≤ uid → 0 ≤ gid →
  split_at comma (mount_text fd mode uid gid options) = mount_words fd mode uid gid options ∧
  digits_value 10 (digits 10 fd) = fd ∧ digits_value 8 (digits 8 mode) = mode ∧
  digits_value 10 (digits 10 uid) = uid ∧ digits_value 10 (digits 10 gid) = gid.
Proof. intros Hfd Hm Hu Hg. split; [apply mount_text_words|]. by split_and!; apply digits_spec. Qed.

(** ** The flags *)

Section flags.
Context `{LM : LibcMount, LL : !LibcMountLaws}.

(** The flags a list of options asks for. *)
Definition wanted (options : list MountOption) (flag : Z) : Prop :=
  (flag = MS_RDONLY ∧ RO ∈ options) ∨ (flag = MS_NOSUID ∧ (NoSuid ∈ options ∨ Suid ∉ options)) ∨
  (flag = MS_NODEV ∧ (NoDev ∈ options ∨ Dev ∉ options)) ∨ (flag = MS_NOEXEC ∧ NoExec ∈ options) ∨
  (flag = MS_SYNCHRONOUS ∧ Sync ∈ options) ∨ (flag = MS_DIRSYNC ∧ DirSync ∈ options) ∨
  (flag = MS_NOATIME ∧ NoAtime ∈ options).

Lemma flags_loop_spec flags os :
  Forall (λ o, option_group o = KernelFlag) os →
  ∃ r, flags_loop flags os = Ret r ∧
    ∀ b, Z.testbit r b = true ↔ Z.testbit flags b = true ∨ ∃ o g, o ∈ os ∧ option_to_flag o = Ret g ∧ Z.testbit g b = true.
Proof.
  intros Hos. revert flags. induction Hos as [|o os Ho _ IH]; intros flags.
  { exists flags. split; [done|]. intros b. split; [by left|]. intros [?|(o & g & []%not_elem_of_nil & _)]; done. }
  assert (∃ g, option_to_flag o = Ret g) as [g Hg] by (destruct o; try discriminate Ho; by eexists).
  destruct (IH (Z.lor flags g)) as (r & Hr & Hb). exists r. split; [cbn [flags_loop]; by rewrite Hg|].
  intros b. rewrite Hb, Z.lor_spec, orb_true_iff. split.
  - intros [[?|?]|(o' & g' & ? & ?)]; [by left|right; exists o, g; split; [left|done]|right; exists o', g'; split; [by right|done]].
  - intros [?|(o' & g' & [->|?]%elem_of_cons & Hg' & ?)]; [by left; left|left; right; congruence|right; by exists o', g'].
Qed.
Definition flag_options : list (MountOption * Z) :=
  [(NoDev, MS_NODEV); (NoSuid, MS_NOSUID); (RO, MS_RDONLY); (NoExec, MS_NOEXEC); (NoAtime, MS_NOATIME);
   (Sync, MS_SYNCHRONOUS); (DirSync, MS_DIRSYNC)].
Lemma flag_options_spec o g : (o, g) ∈ flag_options → option_to_flag o = Ret g ∧
  g ∈ [MS_RDONLY; MS_NOSUID; MS_NODEV; MS_NOEXEC; MS_SYNCHRONOUS; MS_DIRSYNC; MS_NOATIME].
Proof.
  unfold flag_options. intros Hin. repeat (apply elem_of_cons in Hin as [[= -> ->]|Hin]; [split; [done|set_solver]|]).
  by apply elem_of_nil in Hin.
Qed.
Lemma option_flag_bits o g : option_to_flag o = Ret g → option_group o = KernelFlag ∧
  (g = 0 ∨ (o, g) ∈ flag_options).
Proof. destruct o; intros [= <-]; (split; [done|]); try (by left); right; unfold flag_options; set_solver. Qed.

(** The flags exist for any options and are exactly those asked for; without a
    word about them, devices and set-user-id are off. *)
Theorem mount_flags_spec options :
  ∃ flags, mount_flags options = Ret flags ∧
    ∀ b, 0 ≤ b → Z.testbit flags b = true ↔ wanted options (2 ^ b).
Proof.
  unfold mount_flags. set (f := if bool_decide (Suid ∈ options) then _ else _).
  destruct (flags_loop_spec f (filter (λ o, option_group o = KernelFlag) options)) as (r & Hr & Hb).
  { apply Forall_forall. by intros o [? _]%list_elem_of_filter. }
  exists r. split; [done|]. intros b H0. rewrite Hb. clear Hr Hb r.
  assert (∀ g, g ∈ [MS_RDONLY; MS_NOSUID; MS_NODEV; MS_NOEXEC; MS_SYNCHRONOUS; MS_DIRSYNC; MS_NOATIME] →
    Z.testbit g b = true ↔ 2 ^ b = g) as Hbit.
  { intros g (k & Hk & ->)%ms_flag_bit. rewrite Z.pow2_bits_eqb, Z.eqb_eq by done. split; [by intros ->|].
    intros Hp%Z.pow_inj_r; lia. }
  assert (Z.testbit f b = true ↔ (2 ^ b = MS_NODEV ∧ Dev ∉ options) ∨ (2 ^ b = MS_NOSUID ∧ Suid ∉ options)) as ->.
  { subst f. rewrite <- !Hbit by set_solver. repeat case_bool_decide; rewrite ?Z.lor_spec, ?orb_true_iff, ?Z.bits_0; intuition discriminate. }
  split.
  - intros [[[? ?]|[? ?]]|(o & g & [Ho Hin]%list_elem_of_filter & Hg & Ht)]; [unfold wanted; tauto..|].
    destruct (option_flag_bits o g Hg) as [_ [->|Hog]]; [by rewrite Z.bits_0 in Ht|].
    apply Hbit in Ht; [|by apply (flag_options_spec o)]. unfold wanted, flag_options in *. set_solver.
  - intros Hw. assert (∀ o g, (o, g) ∈ flag_options → o ∈ options → 2 ^ b = g →
      ∃ o g, o ∈ filter (λ o, option_group o = KernelFlag) options ∧ option_to_flag o = Ret g ∧ Z.testbit g b = true) as Hset.
    { intros o g [Hf Hg]%flag_options_spec Ho Hgb. exists o, g.
      split; [apply list_elem_of_filter; split; [by apply (option_flag_bits o g)|done]|]. split; [done|]. by apply Hbit. }
    unfold wanted in Hw. destruct Hw as [[? ?]|[[? [?|?]]|[[? [?|?]]|[[? ?]|[[? ?]|[[? ?]|[? ?]]]]]]];
      first [by left; left | by left; right | right; eapply Hset; [|eassumption|eassumption]; unfold flag_options; set_solver].
Qed.
End flags.

(** ** Who has access *)

Section access.
Context `{C : Libc, F : LibcFs, LM : LibcMount}.

(** The option texts a call hands to the kernel or to the helper. *)
Definition told {X} (s : MountSys X) : option (list OsStr) :=
  match s with
  | Sys_mount _ _ _ _ options => Some (split_at comma options)
  | Sys_spawn _ args _ =>
      match args with
      | a :: options :: _ => Some (if bool_decide (a = dash_o) then split_at comma options else [])
      | _ => None
      end
  | _ => None
  end.
(** No text the caller put in says [allow_other]. *)
Definition plain (options : list MountOption) : Prop :=
  ∀ o, o ∈ options → text "allow_other" ∈ split_at comma (option_to_string o) → o = AllowOther ∨ o = AllowRoot.

Lemma allow_other_words os : plain os →
  (text "allow_other" ∈ (os ≫= λ o, split_at comma (option_to_string o)) ↔ AllowOther ∈ os ∨ AllowRoot ∈ os).
Proof.
  intros Hp. rewrite list_elem_of_bind. split.
  - intros (o & Hin & Ho). destruct (Hp o Ho Hin) as [->| ->]; tauto.
  - intros [Ho|Ho]; [exists AllowOther|exists AllowRoot]; (split; [|done]); apply (bool_decide_unpack _); vm_compute; exact I.
Qed.
Lemma mount_words_allow_other fd mode uid gid os : plain os →
  (text "allow_other" ∈ mount_words fd mode uid gid os ↔ AllowOther ∈ os ∨ AllowRoot ∈ os).
Proof.
  intros Hp. unfold mount_words. rewrite elem_of_app, allow_other_words.
  - rewrite !list_elem_of_filter, !elem_of_cons, elem_of_nil. split; [|tauto].
    intros [[?|[?|[?|[?|[]]]]]|?]; [discriminate..|tauto].
  - intros o [_ Ho]%list_elem_of_filter. by apply Hp.
Qed.
Lemma session_options_spec options :
  (AllowOther ∈ session_options options ∨ AllowRoot ∈ session_options options ↔
    AllowOther ∈ options ∨ AllowRoot ∈ options ∨ AutoUnmount ∈ options) ∧
  (plain options → plain (session_options options)).
Proof.
  unfold session_options. repeat case_bool_decide; cbn [andb orb negb]; split; try tauto; rewrite ?elem_of_app, ?elem_of_cons; [tauto|].
  intros Hp o [Ho|Ho]%elem_of_app; [by apply Hp|]. apply list_elem_of_singleton in Ho as ->. by left.
Qed.

Section calls.
Context (P : ∀ X, MountSys X → Prop) (Hquiet : ∀ X (s : MountSys X), told s = None → P X s).

Ltac walk := repeat (walk_calls; repeat case_match; try (by apply Hquiet)).

Lemma drop_fds_calls fds : all_calls P (drop_fds fds).
Proof. induction fds as [|fd fds IH]; [done|]. unfold drop_fds, drop_fd, ignore. cbn [foldr]. walk. apply IH. Qed.
Lemma detect_calls : all_calls P detect_fusermount_bin.
Proof.
  unfold detect_fusermount_bin. generalize [FUSERMOUNT3_BIN; FUSERMOUNT_BIN; text "/bin/" ++ FUSERMOUNT3_BIN; text "/bin/" ++ FUSERMOUNT_BIN].
  intros names. induction names as [|n names IH]; [done|]. cbn [detect_loop]. walk. apply IH.
Qed.
Lemma receive_calls fuel socket : all_calls P (receive_fusermount_message fuel socket).
Proof. induction fuel as [|fuel IH]; [done|]. cbn [receive_fusermount_message]. unfold io. walk. apply IH. Qed.
Lemma fusermount_calls fuel mountpoint options :
  (∀ bin fd, P _ (Sys_spawn bin ((match options with [] => [] | _ => [dash_o; join_with comma (option_to_string <$> options)] end)
                ++ [text "--"; mountpoint]) fd)) →
  all_calls P (fuse_mount_fusermount fuel mountpoint options).
Proof.
  intros Hspawn. unfold fuse_mount_fusermount, io, ignore, drop_fd, ignore. set (args := _ ++ [text "--"; mountpoint]) in *.
  walk; first [apply Hspawn|apply drop_fds_calls|apply detect_calls|apply receive_calls].
Qed.
Lemma mount_calls uid gid fuel mountpoint options :
  (∀ mp bin fd, P _ (Sys_spawn bin ((match options with [] => [] | _ => [dash_o; join_with comma (option_to_string <$> options)] end)
                ++ [text "--"; mp]) fd)) →
  (∀ source mp fstype flags fd mode, P _ (Sys_mount source mp fstype flags (mount_text fd mode uid gid options))) →
  all_calls P (Mount_new uid gid fuel mountpoint options).
Proof.
  intros Hspawn Hmount. unfold Mount_new, fuse_mount_pure, fuse_mount_sys, io, ignore, drop_fd, ignore.
  walk; first [by apply fusermount_calls|apply drop_fds_calls|apply Hmount].
Qed.
End calls.

(** Who is meant to use the file system. *)
Definition asked (options : list MountOption) (owner user : Z) : Prop :=
  user = owner ∨ (AllowRoot ∈ options ∧ user = 0) ∨ (AllowOther ∈ options ∧ AllowRoot ∉ options).

Lemma acl_as_asked {FS} (filesystem : FS) options owner user (words : list OsStr) :
  let se := Session_new filesystem (bool_decide (AllowRoot ∈ options)) (bool_decide (AllowOther ∈ options)) owner in
  (AllowOther ∈ options ∨ AllowRoot ∈ options → text "allow_other" ∈ words) →
  ((text "allow_other" ∈ words ∨ user = owner) ∧ acl_denies se user = false ↔ asked options owner user).
Proof.
  intros se Hw. unfold acl_denies, asked. subst se. unfold Session_new, acl_of_options. cbn [allowed session_owner].
  assert ((user =? owner) = bool_decide (user = owner)) as -> by (destruct (Z.eqb_spec user owner); by case_bool_decide).
  assert ((user =? 0) = bool_decide (user = 0)) as -> by (destruct (Z.eqb_spec user 0); by case_bool_decide).
  revert Hw. generalize (text "allow_other"). intros w Hw. assert (true ≠ false) by done.
  repeat case_bool_decide; try discriminate; cbn; tauto.
Qed.

End access.

(** ** Descriptors *)

Section descriptors.
Context `{C : Libc, F : LibcFs, LM : LibcMount}.
Implicit Types (fd : Z) (held : list Z).

(** The descriptors an answered call opens and closes. *)
Definition fds_of (X : Type) (s : MountSys X) : Z + X → list Z * list Z :=
  match s in MountSys X return Z + X → list Z * list Z with
  | Sys_open_file _ _ => λ r, match r with inr fd => ([fd], []) | inl _ => ([], []) end
  | Sys_close_fd fd => λ _, ([], [fd])
  | Sys_socketpair => λ r, match r with inr (a, b) => ([a; b], []) | inl _ => ([], []) end
  | Sys_recvmsg _ => λ r,
      match r with
      | inr (n, Some (cmsg_type, fd)) =>
          (if negb (n =? 0) && (cmsg_type =? SCM_RIGHTS) && (0 <=? fd) then [fd] else [], [])
      | _ => ([], [])
      end
  | _ => λ _, ([], [])
  end.
Abbreviation keeps := (balanced fds_of).

Lemma keeps_quiet {X A} (s : MountSys X) (k : Z + X → Prog MountSys A) P held :
  (∀ r, fds_of X s r = ([], [])) → (∀ r, keeps P held (k r)) → keeps P held (Call s k).
Proof. intros Hq Hk r. exists held. by rewrite Hq. Qed.
Lemma keeps_close {A} fd (k : Z + unit → Prog MountSys A) P held rest :
  held ≡ₚ fd :: rest → (∀ r, keeps P rest (k r)) → keeps P held (Call (Sys_close_fd fd) k).
Proof. intros Hp Hk r. by exists rest. Qed.
Lemma keeps_done {A} (a : A) P held : held ≡ₚ P a → keeps P held (Done a).
Proof. done. Qed.

Lemma keeps_drop_fds {A} fds (m : Prog MountSys A) P held rest :
  held ≡ₚ fds ++ rest → keeps P rest m → keeps P held (drop_fds fds ≫= λ _, m).
Proof.
  revert held. induction fds as [|fd fds IH]; intros held Hp Hm; [by eapply balanced_perm|].
  apply (keeps_close _ _ _ _ (fds ++ rest)); [done|]. intros r. by apply IH.
Qed.
Lemma keeps_detect {A} (k : OsStr → Prog MountSys A) P held :
  (∀ bin, keeps P held (k bin)) → keeps P held (detect_fusermount_bin ≫= k).
Proof.
  intros Hk. unfold detect_fusermount_bin. generalize [FUSERMOUNT3_BIN; FUSERMOUNT_BIN; text "/bin/" ++ FUSERMOUNT3_BIN; text "/bin/" ++ FUSERMOUNT_BIN].
  intros names. induction names as [|n names IH]; [apply Hk|]. apply keeps_quiet; [done|]. intros [e|x]; [apply IH|apply Hk].
Qed.
(** What is received is a new descriptor. *)
Lemma keeps_receive {A} fuel socket (k : io_error + Z → Prog MountSys A) P held :
  (∀ e, keeps P held (k (inl e))) → (∀ fd, keeps P (fd :: held) (k (inr fd))) →
  keeps P held (receive_fusermount_message fuel socket ≫= k).
Proof.
  intros He Hk. induction fuel as [|fuel IH]; [done|]. intros [e|[n c]]; exists held.
  - split; [done|]. cbn. case_bool_decide; [apply IH|apply He].
  - assert ((fds_of _ (Sys_recvmsg socket) (inr (n, c))).2 = []) as -> by (by destruct c as [[]|]). split; [done|].
    cbn -[Z.ltb Z.leb]. destruct (n =? 0); [destruct c as [[]|]; apply He|]. destruct c as [[t fd]|]; [|done].
    destruct (t =? SCM_RIGHTS); [|apply He]. cbn -[Z.ltb Z.leb].
    destruct (Z.ltb_spec fd 0) as [H|H]; [rewrite (proj2 (Z.leb_gt 0 fd)) by done; apply He|].
    rewrite (proj2 (Z.leb_le 0 fd)) by done. apply Hk.
Qed.

(** What a mount leaves open. *)
Definition mount_fds (r : io_error + (Z * option Z)) : list Z :=
  match r with inl _ => [] | inr (file, sock) => file :: option_list sock end.

Ltac keeps_end := refine (keeps_done _ _ _ _); done.
Lemma fusermount_keeps fuel mountpoint options : keeps mount_fds [] (fuse_mount_fusermount fuel mountpoint options).
Proof.
  unfold fuse_mount_fusermount. intros [e|[child receive]]; exists []; (split; [done|]); [keeps_end|].
  apply keeps_quiet; [done|]. intros _. apply keeps_detect. intros bin. apply keeps_quiet; [by intros [|]|]. intros [e|process].
  { apply (keeps_drop_fds [receive; child] _ _ _ []); [apply Permutation_swap|keeps_end]. }
  apply (keeps_close _ _ _ _ [receive]); [done|]. intros _. apply keeps_receive.
  - intros e. apply (keeps_close _ _ _ _ []); [done|]. intros _. apply keeps_quiet; [by intros [|]|]. intros [|]; [done|keeps_end].
  - intros file. case_bool_decide as Ha; cbn [negb].
    + do 2 (apply keeps_quiet; [by intros [|]|intros _]). keeps_end.
    + apply (keeps_close _ _ _ _ [file]); [apply Permutation_swap|]. intros _. apply keeps_quiet; [by intros [|]|]. intros [e|x].
      * apply (keeps_close _ _ _ _ []); [done|]. intros _. keeps_end.
      * apply keeps_quiet; [by intros [|]|intros _]. keeps_end.
Qed.

Lemma mount_sys_keeps uid gid mountpoint options :
  keeps (λ r, match r with inr (Some fd) => [fd] | _ => [] end) [] (fuse_mount_sys uid gid mountpoint options).
Proof.
  unfold fuse_mount_sys. intros [e|dir]; exists []; (split; [done|]); [keeps_end|].
  apply keeps_quiet; [by intros [|]|]. intros r. apply (keeps_close _ _ _ _ []); [done|]. intros _.
  destruct r as [e|mode]; [keeps_end|]. cbn. case_bool_decide; [done|]. intros [e|file]; exists []; (split; [done|]); [keeps_end|].
  cbn -[mount_text Z.ltb]. destruct (2 <? file); [|done]. cbn -[mount_text]. destruct (mount_flags options) as [flags| |]; [|done..].
  cbn -[mount_text]. destruct (_ || _); [done|]. apply keeps_quiet; [by intros [|]|]. intros [e|[]]; [|keeps_end].
  apply (keeps_close _ _ _ _ []); [done|]. intros _. cbn. case_bool_decide; keeps_end.
Qed.
Lemma mount_pure_keeps uid gid fuel mountpoint options : keeps mount_fds [] (fuse_mount_pure uid gid fuel mountpoint options).
Proof.
  unfold fuse_mount_pure. case_bool_decide; [apply fusermount_keeps|].
  apply (balanced_bind fds_of _ _ [] _ _ [] (mount_sys_keeps uid gid mountpoint options)).
  intros [e|[file|]]; [keeps_end..|apply fusermount_keeps].
Qed.
Lemma is_mounted_keeps {A} fuel dev (k : bool → Prog MountSys A) P held :
  (∀ b, keeps P held (k b)) → keeps P held (is_mounted fuel dev ≫= k).
Proof.
  intros Hk. induction fuel as [|fuel IH]; [done|]. apply keeps_quiet; [by intros [|]|]. intros [e|[res revents]]; cbn -[Z.eqb].
  - case_bool_decide; [apply IH|done].
  - destruct (res =? 0); [apply Hk|]. destruct (res =? 1); [apply Hk|done].
Qed.

(** Whatever the system answers, mounting leaves no descriptor open when it
    fails, the device and the helper's socket, if it serves to unmount, when it
    succeeds, and closes none it does not own; and dropping the mount closes that
    socket in any case. *)
Theorem mount_descriptors uid gid fuel mountpoint options m :
  keeps (λ r, match r with inl _ => [] | inr m => fuse_device m :: option_list (auto_unmount_socket m) end) []
    (Mount_new uid gid fuel mountpoint options) ∧
  keeps (λ _, []) (option_list (auto_unmount_socket m)) (Mount_drop fuel m).
Proof.
  split.
  - unfold Mount_new. apply keeps_quiet; [by intros [|]|]. intros [e|mp]; [keeps_end|].
    apply (balanced_bind fds_of mount_fds _ [] _ _ [] (mount_pure_keeps uid gid fuel mp options)).
    intros [e|[file sock]]; [keeps_end|]. cbn. rewrite app_nil_r. destruct (has_nul mp); [|keeps_end].
    apply (keeps_drop_fds _ _ _ _ []); [|keeps_end]. rewrite app_nil_r. apply Permutation_cons_append.
  - apply is_mounted_keeps. intros []; cbn [negb].
    + destruct (auto_unmount_socket m) as [sock|]; [apply (keeps_close _ _ _ _ []); [done|intros _; keeps_end]|].
      apply keeps_quiet; [by intros [|]|]. intros [e|[]]; [|keeps_end]. cbn -[fuse_unmount_pure]. case_bool_decide; [|keeps_end].
      apply keeps_quiet; [by intros [|]|]. intros [e'|[]]; [|keeps_end]. apply keeps_detect. intros bin.
      apply keeps_quiet; [by intros [|]|]. intros r. keeps_end.
    + destruct (auto_unmount_socket m) as [sock|]; [apply (keeps_close _ _ _ _ []); [done|intros _; keeps_end]|keeps_end].
Qed.
End descriptors.

(** ** The loops end *)

Section loops.
Context `{C : Libc, F : LibcFs, LM : LibcMount} {H : Type} `{!System MountSys H}.

(** The call is interrupted [k] times, and then not. *)
Inductive interrupted {X} (s : MountSys X) (again : Z → bool) : nat → H → Prop :=
  | interrupted_0 r h h' : sys s h = (r, h') → (∀ e, r = inl e → again e = false) → interrupted s again 0 h
  | interrupted_S k e h h' : sys s h = (inl e, h') → again e = true → interrupted s again k h' → interrupted s again (S k) h.

(** With more fuel than interruptions the loops over [recvmsg] and [poll] do not
    run out of it: what they do does not depend on it any more. *)
Theorem interrupted_loops_end fuel k k' socket dev (h h' : H) :
  interrupted (Sys_recvmsg socket) (λ e, bool_decide (error_kind (OsError e) = Interrupted)) k h →
  interrupted (Sys_poll dev) (λ e, bool_decide (e = EINTR)) k' h' → (k < fuel)%nat → (k' < fuel)%nat →
  run (receive_fusermount_message fuel socket) h = run (receive_fusermount_message (S k) socket) h ∧
  run (is_mounted fuel dev) h' = run (is_mounted (S k') dev) h'.
Proof.
  intros Hr Hp Hf Hf'. split.
  - clear Hf' Hp h'. revert fuel Hf. induction Hr as [r h h1 Hs Hn|k e h h1 Hs He _ IH]; intros [|fuel] Hf; try lia.
    + cbn -[error_kind]. rewrite Hs. destruct r as [e|[n c]]; cbn -[error_kind]; [by rewrite (Hn e)|].
      repeat case_match; done.
    + specialize (IH fuel ltac:(lia)). cbn -[error_kind] in IH |- *. rewrite Hs. cbn -[error_kind]. by rewrite He.
  - clear Hf Hr h k. revert fuel Hf'. induction Hp as [r h h1 Hs Hn|k e h h1 Hs He _ IH]; intros [|fuel] Hf; try lia.
    + cbn -[Z.eqb]. rewrite Hs. destruct r as [e|[n c]]; cbn -[Z.eqb]; [by rewrite (Hn e)|]. repeat case_match; done.
    + specialize (IH fuel ltac:(lia)). cbn -[Z.eqb] in IH |- *. rewrite Hs. cbn -[Z.eqb]. by rewrite He.
Qed.
End loops.

(** ** Dropping a mount that is gone *)

(** The kernel: the devices mounted at a path, the uppermost first. [poll], asked
    for no events, reports an error for a device whose file system is unmounted and
    nothing otherwise; the process may unmount. *)
Class FuseKernel (H : Type) `{!System MountSys H} `{LM : LibcMount} := {
  mounts : H → OsStr → list Z;
  connected : H → Z → bool;
  kernel_poll fd h : sys (Sys_poll fd) h = (inr (if connected h fd then (0, 0) else (1, POLLERR)), h);
  kernel_umount p d ds h : mounts h p = d :: ds → ∃ h', sys (Sys_umount p) h = (inr tt, h') ∧ mounts h' p = ds;
}.

Section drop.
Context `{C : Libc, F : LibcFs, LM : LibcMount, LL : !LibcMountLaws}.

(** [is_mounted] answers yes for a device whose file system is unmounted, too;
    so dropping the mount of a file system that was unmounted meanwhile unmounts the
    other one that is mounted there by then. *)
Theorem drop_unmounts_other {H} `{!System MountSys H, K : !FuseKernel H} fuel m (h : H) other rest :
  connected h (fuse_device m) = false → auto_unmount_socket m = None → mounts h (mountpoint_ m) = other :: rest →
  (∀ fd, run (is_mounted (S fuel) fd) h = Ret (true, h)) ∧
  ∃ h', run (Mount_drop (S fuel) m) h = Ret (tt, h') ∧ mounts h' (mountpoint_ m) = rest.
Proof.
  intros Hc Hs Hm. assert (∀ fd, run (is_mounted (S fuel) fd) h = Ret (true, h)) as Hmounted.
  { intros fd. cbn -[Z.land Z.eqb]. rewrite kernel_poll. destruct (connected h fd); [done|]. cbn -[Z.land Z.eqb].
    rewrite Z.land_diag. by rewrite (proj2 (Z.eqb_neq _ _) POLLERR_nonzero). }
  split; [done|]. unfold Mount_drop. rewrite run_bind. unfold mbind, stateM_bind. rewrite Hmounted. cbn. rewrite Hs.
  destruct (kernel_umount _ _ _ _ Hm) as (h' & Hu & Hr). exists h'. split; [|done].
  cbn. by rewrite Hu.
Qed.
End drop.

(** ** Witnesses *)

(** A read-only mount with devices. *)
Lemma mount_flags_spec_witness :
  mount_flags (LM := linux_mount) [RO; Dev; AllowRoot] = Ret 3 ∧
  wanted (LM := linux_mount) [RO; Dev; AllowRoot] 1 ∧ wanted (LM := linux_mount) [RO; Dev; AllowRoot] 2 ∧
  ¬ wanted (LM := linux_mount) [RO; Dev; AllowRoot] 4.
Proof.
  destruct (mount_flags_spec (LM := linux_mount) (LL := linux_mount_laws) [RO; Dev; AllowRoot]) as (flags & Hf & Hb).
  assert (flags = 3) as -> by (assert (mount_flags (LM := linux_mount) [RO; Dev; AllowRoot] = Ret 3) as H3
    by (vm_compute; reflexivity); rewrite H3 in Hf; by injection Hf).
  split; [done|]. split; [|split].
  - apply (Hb 0); [lia|reflexivity].
  - apply (Hb 1); [lia|reflexivity].
  - intros Hw. apply (Hb 2) in Hw; [discriminate|lia].
Defined.

(** Descriptor 5, a directory with mode 0755, user 1000. *)
Lemma mount_text_understood_witness :
  mount_text 5 16877 1000 100 [AllowOther; RO; CUSTOM (text "max_read=4096")] =
    text "fd=5,rootmode=40755,user_id=1000,group_id=100,allow_other,max_read=4096" ∧
  split_at comma (text "fd=5,rootmode=40755,user_id=1000,group_id=100,allow_other,max_read=4096") =
    mount_words 5 16877 1000 100 [AllowOther; RO; CUSTOM (text "max_read=4096")].
Proof.
  assert (mount_text 5 16877 1000 100 [AllowOther; RO; CUSTOM (text "max_read=4096")] =
    text "fd=5,rootmode=40755,user_id=1000,group_id=100,allow_other,max_read=4096") as Ht by (vm_compute; reflexivity).
  split; [done|]. rewrite <- Ht. apply (mount_text_understood 5 16877 1000 100 [AllowOther; RO; CUSTOM (text "max_read=4096")]); lia.
Defined.

Definition demo_admits (words : list OsStr) (owner user : Z) : Prop := text "allow_other" ∈ words ∨ user = owner.

(** One path; the file systems mounted there by their devices. *)
Definition demo_mnt : OsStr := text "/mnt".
Definition demo_mount_sys (X : Type) (s : MountSys X) (h : list Z) : (Z + X) * list Z :=
  match s in MountSys X return (Z + X) * list Z with
  | Sys_poll fd => (inr (if bool_decide (fd ∈ h) then (0, 0) else (1, 8)), h)
  | Sys_umount p =>
      if bool_decide (p = demo_mnt) then match h with _ :: h => (inr tt, h) | [] => (inl 22, h) end else (inl 22, h)
  | _ => (inl 38, h)
  end.
#[export] Instance demo_mount_system : System MountSys (list Z) := demo_mount_sys.
#[export] Program Instance demo_kernel : FuseKernel (LM := linux_mount) (list Z) := {|
  mounts h p := if bool_decide (p = demo_mnt) then h else [];
  connected h fd := bool_decide (fd ∈ h) |}.
Next Obligation. done. Qed.
Next Obligation.
  intros p d ds h. cbv beta. unfold sys, demo_mount_system, demo_mount_sys.
  destruct (bool_decide (p = demo_mnt)); [intros ->; by exists ds|done].
Qed.

(** The file system of device 3 was unmounted, and 7 mounted in its place. *)
Lemma drop_unmounts_other_witness :
  run (Mount_drop (C := linux) (F := linux_fs) (LM := linux_mount) 1 (MkMount demo_mnt None 3)) [7] = Ret (tt, []).
Proof.
  destruct (drop_unmounts_other (C := linux) (F := linux_fs) (LM := linux_mount) (K := demo_kernel) 0 (MkMount demo_mnt None 3) [7] 7 []
    eq_refl eq_refl eq_refl) as [_ (h' & Hr & Hm)].
  rewrite Hr. assert (h' = []) as -> by exact Hm. reflexivity.
Defined.

(** A poll that is not interrupted. *)
Lemma interrupted_loops_end_witness :
  run (is_mounted (C := linux) (LM := linux_mount) 5 3) [3] = run (is_mounted (C := linux) (LM := linux_mount) 1 3) [3].
Proof.
  apply (interrupted_loops_end (C := linux) (F := linux_fs) (LM := linux_mount) 5 0 0 0 3 [3] [3]); [..|lia|lia].
  - eapply interrupted_0; [reflexivity|]. by intros e [= <-].
  - eapply interrupted_0; [reflexivity|]. by intros e [=].
Defined.
