(* ===== verification/Unmount.v ===== *)
(** * Unmount: who unmounts a session's file system

    The owners of a [Mount] in [fuse/src/uring_fuse/session.rs]: the cell
    [Arc<Mutex<Option<Mount>>>] that a [Session] shares with its
    [SessionUnmounter]s, and the [BackgroundSession] a mount moves to.  What a drop
    of the mount does is in Mount.v, here it is an entry of the log; the thread of a
    background session runs the session (Session.v) and drops it when it ends. *)

From Stdlib Require Import Ascii String.
From S2P Require Import Prelude Operation Text Response Session MountOptions Mount.

Local Open Scope Z_scope.

(** Where the session is: with its owner, in the thread of a background session, or
    dropped. *)
Inductive place : Type := Owned | InThread | Gone.
#[export] Instance place_eq_dec : EqDecision place.
Proof. solve_decision. Defined.

(** The effects of drops: of a mount, and [destroy] of the file system. *)
Inductive drop_event : Type := Unmounted (m : Mount) | DestroyCalled.

Record Sessions : Type := MkSessions {
  mount_cell : option Mount;
  unmounters : nat;                 (* SessionUnmounters that hold the cell *)
  session_at : place;
  session_destroyed : bool;         (* the field destroyed of the session *)
  background : option Mount;        (* the field _mount of the BackgroundSession *)
  drop_log : list drop_event }.

Section sessions.
Context `{C : Libc}.

Definition log (e : drop_event) (s : Sessions) : Sessions :=
  MkSessions (mount_cell s) (unmounters s) (session_at s) (session_destroyed s) (background s) (drop_log s ++ [e]).

(** [drop(std::mem::take(&mut *self.mount.lock().unwrap()))]. *)
Definition take_mount (s : Sessions) : Sessions :=
  match mount_cell s with
  | Some m => log (Unmounted m) (MkSessions None (unmounters s) (session_at s) (session_destroyed s) (background s) (drop_log s))
  | None => s
  end.
(** The last owner of the cell drops what is in it. *)
Definition release_cell (s : Sessions) : Sessions :=
  if bool_decide (session_at s = Gone) && (unmounters s =? 0)%nat then take_mount s else s.

(** After the mount succeeded. *)
Definition Session_mounted (m : Mount) : Sessions := MkSessions (Some m) 0 Owned false None [].

Definition Session_unmount (s : Sessions) : Sessions := take_mount s.
Definition Session_unmount_callable (s : Sessions) : Sessions :=
  MkSessions (mount_cell s) (S (unmounters s)) (session_at s) (session_destroyed s) (background s) (drop_log s).
Definition SessionUnmounter_unmount (s : Sessions) : (Z + unit) * Sessions := (inr tt, take_mount s).
Definition SessionUnmounter_drop (s : Sessions) : Sessions :=
  release_cell (MkSessions (mount_cell s) (pred (unmounters s)) (session_at s) (session_destroyed s) (background s) (drop_log s)).

(** [Drop for Session] and its fields. *)
Definition session_dropped (s : Sessions) : Sessions :=
  let s := if session_destroyed s then s
           else log DestroyCalled (MkSessions (mount_cell s) (unmounters s) (session_at s) true (background s) (drop_log s)) in
  release_cell (MkSessions (mount_cell s) (unmounters s) Gone (session_destroyed s) (background s) (drop_log s)).
(** [destroy] of the kernel's request, while the session runs. *)
Definition Session_destroy_request (s : Sessions) : Sessions :=
  if session_destroyed s then s
  else log DestroyCalled (MkSessions (mount_cell s) (unmounters s) (session_at s) true (background s) (drop_log s)).

Definition BackgroundSession_new (s : Sessions) : (Z + unit) * Sessions :=
  match mount_cell s with
  | None => (inl ENODEV, session_dropped s)
  | Some m => (inr tt, MkSessions None (unmounters s) InThread (session_destroyed s) (Some m) (drop_log s))
  end.
(** The drop of a background session, and [join] before it waits for the thread. *)
Definition BackgroundSession_drop (s : Sessions) : Sessions :=
  match background s with
  | Some m => log (Unmounted m) (MkSessions (mount_cell s) (unmounters s) (session_at s) (session_destroyed s) None (drop_log s))
  | None => s
  end.

(** What can happen, by who is there to do it. *)
Inductive session_step (s : Sessions) : Sessions → Prop :=
  | step_unmount : session_at s = Owned → session_step s (Session_unmount s)
  | step_callable : session_at s = Owned → session_step s (Session_unmount_callable s)
  | step_unmounter : (0 < unmounters s)%nat → session_step s (SessionUnmounter_unmount s).2
  | step_unmounter_drop : (0 < unmounters s)%nat → session_step s (SessionUnmounter_drop s)
  | step_destroy : session_at s ≠ Gone → session_step s (Session_destroy_request s)
  | step_spawn : session_at s = Owned → session_step s (BackgroundSession_new s).2
  | step_background_drop : session_step s (BackgroundSession_drop s)
  | step_session_drop : session_at s ≠ Gone → session_step s (session_dropped s).

(** ** One mount, dropped once *)

Definition unmounts (l : list drop_event) : list Mount := omap (λ e, match e with Unmounted m => Some m | _ => None end) l.
Definition destroys (l : list drop_event) : list unit := omap (λ e, match e with DestroyCalled => Some tt | _ => None end) l.

#[local] Arguments unmounts _ : simpl never.
#[local] Arguments destroys _ : simpl never.

(** The mount is in exactly one place; the file system is destroyed when the flag
    says so; a cell without owners is empty. *)
Record Sessions_inv (m : Mount) (s : Sessions) : Prop := {
  inv_mount : option_list (mount_cell s) ++ option_list (background s) ++ unmounts (drop_log s) = [m];
  inv_destroy : destroys (drop_log s) = (if session_destroyed s then [tt] else []);
  inv_gone : session_at s = Gone → session_destroyed s = true;
  inv_cell : session_at s = Gone → unmounters s = O → mount_cell s = None }.

Lemma unmounts_app l l' : unmounts (l ++ l') = unmounts l ++ unmounts l'.
Proof. apply omap_app. Qed.
Lemma destroys_app l l' : destroys (l ++ l') = destroys l ++ destroys l'.
Proof. apply omap_app. Qed.

(** All but that the owners of an empty cell are gone. *)
Record Sessions_inv' (m : Mount) (s : Sessions) : Prop := {
  inv'_mount : option_list (mount_cell s) ++ option_list (background s) ++ unmounts (drop_log s) = [m];
  inv'_destroy : destroys (drop_log s) = (if session_destroyed s then [tt] else []);
  inv'_gone : session_at s = Gone → session_destroyed s = true }.

Lemma take_mount_inv m s : Sessions_inv' m s → Sessions_inv m (take_mount s).
Proof.
  intros [Hm Hd Hg]. unfold take_mount. destruct (mount_cell s) as [m'|] eqn:Hc; [|split; try done; by rewrite Hc].
  split; cbn in *; try done.
  - rewrite unmounts_app. destruct (background s); cbn in *; [by destruct m'|]. by destruct (unmounts _).
  - by rewrite destroys_app, Hd, app_nil_r.
Qed.
Lemma release_cell_inv m s : Sessions_inv' m s → Sessions_inv m (release_cell s).
Proof.
  intros Hi. unfold release_cell. case_bool_decide as Hg; cbn [andb]; [|by destruct Hi; split].
  destruct (Nat.eqb_spec (unmounters s) 0); [by apply take_mount_inv|]. by destruct Hi; split.
Qed.
Lemma session_inv_weaken m s : Sessions_inv m s → Sessions_inv' m s.
Proof. by intros []. Qed.

Lemma session_dropped_inv m s : Sessions_inv' m s → Sessions_inv m (session_dropped s).
Proof.
  intros [Hm Hd Hg]. unfold session_dropped. apply release_cell_inv. revert Hd. destruct (session_destroyed s) eqn:Hs; intros Hd; split; cbn.
  - done.
  - by rewrite Hs.
  - done.
  - by rewrite unmounts_app, app_nil_r.
  - by rewrite destroys_app, Hd.
  - done.
Qed.
Lemma session_step_inv m s s' : Sessions_inv m s → session_step s s' → Sessions_inv m s'.
Proof.
  intros Hi Hstep. pose proof (session_inv_weaken m s Hi) as Hw. destruct Hstep as [Ho|Ho|Hu|Hu|Hg|Ho| |Hg].
  - by apply take_mount_inv.
  - destruct Hi as [Hm Hd Hg Hc]. by split; cbn; rewrite ?Ho.
  - by apply take_mount_inv.
  - apply release_cell_inv. by destruct Hw.
  - unfold Session_destroy_request. destruct (session_destroyed s) eqn:Hs; [done|]. destruct Hi as [Hm Hd Hg' Hc].
    rewrite Hs in Hd. split; cbn; [by rewrite unmounts_app, app_nil_r|by rewrite destroys_app, Hd|done|done].
  - unfold BackgroundSession_new. destruct (mount_cell s) as [m'|] eqn:Hc; [|by apply session_dropped_inv].
    destruct Hi as [Hm Hd Hg' Hc']. rewrite Hc in Hm. split; cbn in *; try done.
    destruct (background s); cbn in Hm; [done|]. injection Hm as -> Hu. by rewrite Hu.
  - unfold BackgroundSession_drop. destruct (background s) as [m'|] eqn:Hb; [|done]. destruct Hi as [Hm Hd Hg' Hc'].
    rewrite Hb in Hm. split; cbn in *; try done; [|by rewrite destroys_app, Hd, app_nil_r].
    destruct (mount_cell s); cbn in *; [done|]. injection Hm as -> Hu. by rewrite unmounts_app, Hu.
  - by apply session_dropped_inv.
Qed.

Lemma session_reachable_inv m s : rtc session_step (Session_mounted m) s → Sessions_inv m s.
Proof. apply (rtc_ind_r (λ s, Sessions_inv m s)); [by split|]. intros s1 s2 _ Hstep Hi. by eapply session_step_inv. Qed.

(** Whatever the owner, the unmounters and the background session do and in
    whatever order, the mount is dropped at most once and the file system destroyed
    at most once; and once all of them are gone, both have happened. *)
Theorem session_unmounts_once m s :
  rtc session_step (Session_mounted m) s →
  (length (unmounts (drop_log s)) ≤ 1)%nat ∧ (length (destroys (drop_log s)) ≤ 1)%nat ∧
  (session_at s = Gone → unmounters s = O → background s = None →
    unmounts (drop_log s) = [m] ∧ destroys (drop_log s) = [tt]).
Proof.
  intros [Hm Hd Hg Hc]%session_reachable_inv.
  split; [|split].
  - apply (f_equal length) in Hm. rewrite !length_app in Hm. cbn [length] in Hm. lia.
  - rewrite Hd. by destruct (session_destroyed s); cbn; lia.
  - intros H1 H2 H3. rewrite Hc, H3 in Hm by done. by rewrite Hd, (Hg H1).
Qed.

(** An unmounter made before the session went to the background unmounts
    nothing, although it answers success: the mount has left the cell. *)
Theorem unmounter_void m s s' :
  rtc session_step (Session_mounted m) s → BackgroundSession_new (Session_unmount_callable s) = (inr tt, s') →
  SessionUnmounter_unmount s' = (inr tt, s') ∧ background s' = Some m ∧ unmounts (drop_log s') = [].
Proof.
  intros [Hm Hd Hg Hc]%session_reachable_inv Hb.
  unfold BackgroundSession_new in Hb. cbn in Hb. destruct (mount_cell s) as [m'|]; [|done]. injection Hb as <-.
  cbn in Hm. injection Hm as -> Hu. apply app_eq_nil in Hu as [_ Hu]. by split; [|split].
Qed.
End sessions.

(** ** Witnesses *)

Definition demo_mount : Mount := MkMount (text "/mnt") None 3.

(** Into the background, joined, and the thread ends. *)
Definition demo_sessions : Sessions :=
  session_dropped (BackgroundSession_drop (BackgroundSession_new (C := linux) (Session_mounted demo_mount)).2).
Lemma session_unmounts_once_witness : drop_log demo_sessions = [Unmounted demo_mount; DestroyCalled] ∧
  unmounts (drop_log demo_sessions) = [demo_mount].
Proof.
  split; [reflexivity|]. apply (session_unmounts_once (C := linux) demo_mount demo_sessions).
  - eapply rtc_l; [by apply step_spawn|]. eapply rtc_l; [apply step_background_drop|].
    eapply rtc_l; [by apply step_session_drop|]. apply rtc_refl.
  - reflexivity.
  - reflexivity.
  - reflexivity.
Defined.

Lemma unmounter_void_witness :
  ∃ s, BackgroundSession_new (C := linux) (Session_unmount_callable (Session_mounted demo_mount)) = (inr tt, s) ∧
    SessionUnmounter_unmount s = (inr tt, s) ∧ background s = Some demo_mount.
Proof.
  eexists. split; [reflexivity|]. edestruct (unmounter_void (C := linux) demo_mount (Session_mounted demo_mount)) as (H1 & H2 & _);
    [apply rtc_refl|reflexivity|]. split; [exact H1|exact H2].
Defined.
