(* ===== verification/Passthrough.v ===== *)
(** * Passthrough: the file system of [fuse/src/passthrough]

    [PassthroughFS] ([passthrough_fs.rs]) implements [FilesystemMT] by calls of the
    operating system on a directory, its target, through the wrappers of
    [libc_wrappers.rs] and the constants of [libc_extras.rs] (on Linux).

    A method is a program of system calls (Programs.v). The operating system is a
    parameter: [Host] answers the calls, one after the other ([run]) or those of
    several methods in turns ([interleave]). *)

From S2P Require Import Prelude Programs KernelInterface Time Operation Response Listing Reply Paths Session InodeTable FuseMT MtDefaults.

Local Open Scope Z_scope.

(** ** System calls *)

Record stat64 : Type := MkStat {
  st_mode : Z; st_nlink : Z; st_size : Z; st_blocks64 : Z; st_uid : Z; st_gid : Z; st_rdev : Z;
  st_atime : Z; st_atime_nsec : Z; st_mtime : Z; st_mtime_nsec : Z; st_ctime : Z; st_ctime_nsec : Z }.
Record statfs : Type := MkStatfsC {
  f_blocks : Z; f_bfree : Z; f_bavail : Z; f_files : Z; f_ffree : Z; f_bsize : Z; f_namelen : Z; f_frsize : Z }.
Record dirent : Type := MkDirent { d_name : OsStr; d_type : Z }.
Record timespec : Type := MkTimespec { ts_sec : Z; ts_nsec : Z }.

(** A call is answered by an error number or by a value; paths are C strings. *)
Inductive Sys : Type → Type :=
  | Sys_lstat (path : OsStr) : Sys stat64
  | Sys_fstat (fd : Z) : Sys stat64
  | Sys_opendir (path : OsStr) : Sys Z
  | Sys_readdir (dir : Z) : Sys (option dirent)
  | Sys_closedir (dir : Z) : Sys unit
  | Sys_open (path : OsStr) (flags : Z) (mode : option Z) : Sys Z
  | Sys_close (fd : Z) : Sys unit
  | Sys_lseek (fd offset : Z) : Sys Z
  | Sys_read (fd count : Z) : Sys (list Z)
  | Sys_write (fd : Z) (data : list Z) : Sys Z
  | Sys_fsync (fd : Z) : Sys unit
  | Sys_fdatasync (fd : Z) : Sys unit
  | Sys_chmod (path : OsStr) (mode : Z) : Sys unit
  | Sys_fchmod (fd mode : Z) : Sys unit
  | Sys_chown (path : OsStr) (uid gid : Z) : Sys unit
  | Sys_fchown (fd uid gid : Z) : Sys unit
  | Sys_truncate (path : OsStr) (size : Z) : Sys unit
  | Sys_ftruncate (fd size : Z) : Sys unit
  | Sys_utimensat (path : OsStr) (atime mtime : timespec) (flags : Z) : Sys unit
  | Sys_futimens (fd : Z) (atime mtime : timespec) : Sys unit
  | Sys_readlink (path : OsStr) : Sys (list Z)
  | Sys_statfs (path : OsStr) : Sys statfs
  | Sys_mknod (path : OsStr) (mode rdev : Z) : Sys unit
  | Sys_mkdir (path : OsStr) (mode : Z) : Sys unit
  | Sys_unlink (path : OsStr) : Sys unit
  | Sys_rmdir (path : OsStr) : Sys unit
  | Sys_symlink (target linkpath : OsStr) : Sys unit
  | Sys_rename (old new : OsStr) : Sys unit
  | Sys_link (old new : OsStr) : Sys unit
  | Sys_llistxattr (path : OsStr) (size : Z) : Sys (list Z)             (* into a buffer *)
  | Sys_llistxattr_size (path : OsStr) : Sys Z                          (* with a size of 0 *)
  | Sys_lgetxattr (path name : OsStr) (size : Z) : Sys (list Z)
  | Sys_lgetxattr_size (path name : OsStr) : Sys Z
  | Sys_lsetxattr (path name : OsStr) (value : list Z) (flags : Z) : Sys unit
  | Sys_lremovexattr (path name : OsStr) : Sys unit.

(** The paths a call is about. *)
Definition sys_paths {X} (s : Sys X) : list OsStr :=
  match s with
  | Sys_lstat p | Sys_opendir p | Sys_open p _ _ | Sys_chmod p _ | Sys_chown p _ _ | Sys_truncate p _
  | Sys_utimensat p _ _ _ | Sys_readlink p | Sys_statfs p | Sys_mknod p _ _ | Sys_mkdir p _ | Sys_unlink p
  | Sys_rmdir p | Sys_symlink _ p | Sys_llistxattr p _ | Sys_llistxattr_size p | Sys_lgetxattr p _ _
  | Sys_lgetxattr_size p _ | Sys_lsetxattr p _ _ _ | Sys_lremovexattr p _ => [p]
  | Sys_rename p q | Sys_link p q => [p; q]
  | _ => []
  end.

Abbreviation Prog := (Prog Sys).

Class Host (H : Type) := {
  host_sys :: System Sys H;
  host_now : H → SystemTime * H;
}.

(** ** libc *)

Class LibcSys := {
  O_CREAT : Z; O_EXCL : Z; AT_SYMLINK_NOFOLLOW : Z;
  DT_FIFO : Z; DT_CHR : Z; DT_DIR : Z; DT_BLK : Z; DT_REG : Z; DT_LNK : Z; DT_SOCK : Z }.
(** Linux on x86-64. *)
Definition linux_sys : LibcSys := {|
  O_CREAT := 64; O_EXCL := 128; AT_SYMLINK_NOFOLLOW := 256;
  DT_FIFO := 1; DT_CHR := 2; DT_DIR := 4; DT_BLK := 6; DT_REG := 8; DT_LNK := 10; DT_SOCK := 12 |}.

(** The constant of libc_extras.rs. *)
Definition UTIME_OMIT : Z := Z.shiftl 11 30 - 21.

(** [as c_int], [as i64]. *)
Definition c_int (z : Z) : Z := to_signed 32 z.
Definition as_i64 (z : Z) : Z := to_signed 64 z.

(** [CString::from_vec_unchecked]: what is behind the first NUL is not seen. *)
Fixpoint c_string (bs : OsStr) : OsStr :=
  match bs with [] => [] | b :: bs => if b =? 0 then [] else b :: c_string bs end.

Section passthrough.
Context `{B : Build, C : Libc, F : LibcFs, LS : LibcSys}.

(** The macro [into_cstring]. *)
Definition into_cstring {A} (path : OsStr) (k : OsStr → Prog (Z + A)) : Prog (Z + A) :=
  if has_nul path then Done (inl EINVAL) else k path.
(** The functions of [std::fs] refuse a NUL with an error without a number, which
    the code unwraps. *)
Definition std_path {A} (path : OsStr) (k : OsStr → Prog A) : Prog A :=
  if has_nul path then Crash Panics else k path.

(** ** The wrappers *)

Definition wrap_opendir (path : OsStr) : Prog (Z + Z) :=
  into_cstring path (λ p, and_then (call (Sys_opendir p)) (λ dir, Done (inr (wrap 64 dir)))).
Definition wrap_readdir (fh : Z) : Prog (Z + option dirent) := call (Sys_readdir fh).
Definition wrap_closedir (fh : Z) : Prog (Z + unit) := call (Sys_closedir fh).
Definition wrap_open (path : OsStr) (flags : Z) : Prog (Z + Z) :=
  into_cstring path (λ p, and_then (call (Sys_open p flags None)) (λ fd, Done (inr (wrap 64 fd)))).
Definition wrap_close (fh : Z) : Prog (Z + unit) := call (Sys_close (c_int fh)).
Definition wrap_lstat (path : OsStr) : Prog (Z + stat64) := into_cstring path (λ p, call (Sys_lstat p)).
Definition wrap_fstat (fd : Z) : Prog (Z + stat64) := call (Sys_fstat (c_int fd)).
(** With an empty buffer the answer is the size, otherwise what was put into it. *)
Definition wrap_llistxattr (path : OsStr) (size : Z) : Prog (Z + (Z + list Z)) :=
  into_cstring path (λ p,
    if 0 <? size then and_then (call (Sys_llistxattr p size)) (λ data, Done (inr (inr data)))
    else and_then (call (Sys_llistxattr_size p)) (λ n, Done (inr (inl n)))).
Definition wrap_lgetxattr (path name : OsStr) (size : Z) : Prog (Z + (Z + list Z)) :=
  into_cstring path (λ p, into_cstring name (λ n,
    if 0 <? size then and_then (call (Sys_lgetxattr p n size)) (λ data, Done (inr (inr data)))
    else and_then (call (Sys_lgetxattr_size p n)) (λ n, Done (inr (inl n))))).
Definition wrap_lsetxattr (path name : OsStr) (value : list Z) (flags position : Z) : Prog (Z + unit) :=
  into_cstring path (λ p, into_cstring name (λ n,
    if negb (position =? 0) then Done (inl EINVAL) else call (Sys_lsetxattr p n value (c_int flags)))).
Definition wrap_lremovexattr (path name : OsStr) : Prog (Z + unit) :=
  into_cstring path (λ p, into_cstring name (λ n, call (Sys_lremovexattr p n))).

(** ** Conversions *)

Definition mode_to_filetype (mode : Z) : outcome FileType :=
  let t := Z.land mode S_IFMT in
  if t =? S_IFDIR then Ret Directory else
  if t =? S_IFREG then Ret RegularFile else
  if t =? S_IFLNK then Ret Symlink else
  if t =? S_IFBLK then Ret BlockDevice else
  if t =? S_IFCHR then Ret CharDevice else
  if t =? S_IFIFO then Ret NamedPipe else
  if t =? S_IFSOCK then Ret Socket else Panic.

(** The closure [time]. *)
Definition stat_time (secs nanos : Z) : outcome SystemTime :=
  d ← Duration_new (wrap 64 secs) (wrap 32 nanos); SystemTime_add UNIX_EPOCH d.

Definition stat_to_fuse (stat : stat64) : outcome FileAttrMT :=
  kind ← mode_to_filetype (st_mode stat);
  atime ← stat_time (st_atime stat) (st_atime_nsec stat);
  mtime ← stat_time (st_mtime stat) (st_mtime_nsec stat);
  ctime ← stat_time (st_ctime stat) (st_ctime_nsec stat);
  Ret {| mt_size := wrap 64 (st_size stat); mt_blocks := wrap 64 (st_blocks64 stat);
         mt_atime := atime; mt_mtime := mtime; mt_ctime := ctime; mt_crtime := UNIX_EPOCH;
         mt_kind := kind; mt_perm := Z.land (st_mode stat) 4095; mt_nlink := wrap 32 (st_nlink stat);
         mt_uid := st_uid stat; mt_gid := st_gid stat; mt_rdev := wrap 32 (st_rdev stat); mt_flags := 0 |}.

Definition statfs_to_fuse (s : statfs) : Statfs :=
  MkStatfs (wrap 64 (f_blocks s)) (wrap 64 (f_bfree s)) (wrap 64 (f_bavail s)) (wrap 64 (f_files s))
    (wrap 64 (f_ffree s)) (wrap 32 (f_bsize s)) (wrap 32 (f_namelen s)) (wrap 32 (f_frsize s)).

Definition systemtime_to_libc (time : option SystemTime) : outcome timespec :=
  match time with
  | Some time =>
      match duration_since time UNIX_EPOCH with
      | inl d => Ret (MkTimespec (as_i64 (as_secs d)) (subsec_nanos d))
      | inr d => secs ← i64_neg (as_i64 (as_secs d)); Ret (MkTimespec secs (subsec_nanos d))
      end
  | None => Ret (MkTimespec 0 UTIME_OMIT)
  end.

(** ** The file system *)

Record PassthroughFS : Type := MkPassthroughFS { target : OsStr }.

(** The bytes of a path below the root. *)
Fixpoint path_bytes (p : PathBuf) : OsStr :=
  match p with
  | [] => []
  | [c] => c
  | c :: p => c ++ slash :: path_bytes p
  end.
Definition real_path (fs : PassthroughFS) (partial : PathBuf) : OsStr := path_join (target fs) (path_bytes partial).
(** [PathBuf::from(self.real_path(parent)).join(name)]. *)
Definition real_entry (fs : PassthroughFS) (parent : PathBuf) (name : OsStr) : OsStr := path_join (real_path fs parent) name.

Definition TTL : Duration := MkDuration 1 0.

Definition stat_entry (m : Prog (Z + stat64)) : Prog ResultEntry :=
  and_then m (λ stat, attr ← pure (stat_to_fuse stat); Done (inr (TTL, attr))).

(** [UnmanagedFile::new]: a descriptor is not -1. *)
Definition UnmanagedFile_new (fh : Z) : Prog Z := if c_int fh =? -1 then Crash Panics else Done (c_int fh).

Variable fs : PassthroughFS.

Definition Passthrough_getattr (path : PathBuf) (fh : option Z) : Prog ResultEntry :=
  match fh with
  | Some fh => stat_entry (wrap_fstat fh)
  | None => stat_entry (wrap_lstat (real_path fs path))
  end.
Definition Passthrough_opendir (path : PathBuf) (flags : Z) : Prog ResultOpen :=
  and_then (wrap_opendir (real_path fs path)) (λ fh, Done (inr (fh, 0))).
Definition Passthrough_releasedir (path : PathBuf) (fh flags : Z) : Prog ResultEmpty := wrap_closedir fh.

(** The type of an entry; without one in the entry, of the file. *)
Definition entry_filetype (path : PathBuf) (entry : dirent) : Prog FileType :=
  let t := d_type entry in
  if t =? DT_DIR then Done Directory else
  if t =? DT_REG then Done RegularFile else
  if t =? DT_LNK then Done Symlink else
  if t =? DT_BLK then Done BlockDevice else
  if t =? DT_CHR then Done CharDevice else
  if t =? DT_FIFO then Done NamedPipe else
  if t =? DT_SOCK then Done NamedPipe else
  r ← wrap_lstat (real_path fs (join path (d_name entry)));
  match r with
  | inr stat => pure (mode_to_filetype (st_mode stat))
  | inl _ => Crash Panics
  end.
(** The loop of [readdir]; [None]: it has not ended after [fuel] rounds. *)
Fixpoint passthrough_readdir_loop (fuel : nat) (path : PathBuf) (fh : Z) (entries : list DirectoryEntry)
    : Prog (option ResultReaddir) :=
  match fuel with
  | O => Done None
  | S fuel =>
      r ← wrap_readdir fh;
      match r with
      | inr (Some entry) =>
          kind ← entry_filetype path entry;
          passthrough_readdir_loop fuel path fh (entries ++ [MkDirectoryEntry (d_name entry) kind])
      | inr None => Done (Some (inr entries))
      | inl e => Done (Some (inl e))
      end
  end.
Definition Passthrough_readdir (fuel : nat) (path : PathBuf) (fh : Z) : Prog (option ResultReaddir) :=
  if fh =? 0 then Done (Some (inl EINVAL)) else passthrough_readdir_loop fuel path fh [].

Definition Passthrough_open (path : PathBuf) (flags : Z) : Prog ResultOpen :=
  and_then (wrap_open (real_path fs path) (c_int flags)) (λ fh, Done (inr (fh, flags))).
Definition Passthrough_release (path : PathBuf) (fh flags lock_owner : Z) (flush : bool) : Prog ResultEmpty :=
  wrap_close fh.

Definition Passthrough_read (path : PathBuf) (fh offset size : Z) : Prog ResultData :=
  fd ← UnmanagedFile_new fh;
  and_then (call (Sys_lseek fd (as_i64 offset))) (λ _, call (Sys_read fd size)).
Definition Passthrough_write (path : PathBuf) (fh offset : Z) (data : list Z) (flags : Z) : Prog ResultWrite :=
  fd ← UnmanagedFile_new fh;
  and_then (call (Sys_lseek fd (as_i64 offset))) (λ _,
    and_then (call (Sys_write fd data)) (λ n, Done (inr (wrap 32 n)))).
(** [flush] of a [File] does nothing. *)
Definition Passthrough_flush (path : PathBuf) (fh lock_owner : Z) : Prog ResultEmpty :=
  fd ← UnmanagedFile_new fh; Done (inr tt).
Definition Passthrough_fsync (path : PathBuf) (fh : Z) (datasync : bool) : Prog ResultEmpty :=
  fd ← UnmanagedFile_new fh;
  if datasync then call (Sys_fdatasync fd) else call (Sys_fsync fd).

Definition Passthrough_chmod (path : PathBuf) (fh : option Z) (mode : Z) : Prog ResultEmpty :=
  match fh with
  | Some fh => call (Sys_fchmod (c_int fh) mode)
  | None => call (Sys_chmod (c_string (real_path fs path)) mode)
  end.
Definition Passthrough_chown (path : PathBuf) (fh uid gid : option Z) : Prog ResultEmpty :=
  let uid := default (2 ^ 32 - 1) uid in
  let gid := default (2 ^ 32 - 1) gid in
  match fh with
  | Some fd => call (Sys_fchown (c_int fd) uid gid)
  | None => call (Sys_chown (c_string (real_path fs path)) uid gid)
  end.
Definition Passthrough_truncate (path : PathBuf) (fh : option Z) (size : Z) : Prog ResultEmpty :=
  match fh with
  | Some fd => call (Sys_ftruncate (c_int fd) (as_i64 size))
  | None => call (Sys_truncate (c_string (real_path fs path)) (as_i64 size))
  end.
Definition Passthrough_utimens (path : PathBuf) (fh : option Z) (atime mtime : option SystemTime) : Prog ResultEmpty :=
  a ← pure (systemtime_to_libc atime);
  m ← pure (systemtime_to_libc mtime);
  match fh with
  | Some fd => call (Sys_futimens (c_int fd) a m)
  | None => call (Sys_utimensat (c_string (real_path fs path)) a m AT_SYMLINK_NOFOLLOW)
  end.
Definition Passthrough_readlink (path : PathBuf) : Prog ResultData :=
  std_path (real_path fs path) (λ p, call (Sys_readlink p)).
Definition Passthrough_statfs (path : PathBuf) : Prog ResultStatfs :=
  and_then (call (Sys_statfs (c_string (real_path fs path)))) (λ s, Done (inr (statfs_to_fuse s))).
Definition Passthrough_fsyncdir (path : PathBuf) (fh : Z) (datasync : bool) : Prog ResultEmpty :=
  call (Sys_fsync (c_int fh)).

Definition Passthrough_mknod (parent_path : PathBuf) (name : OsStr) (mode rdev : Z) : Prog ResultEntry :=
  let real := real_entry fs parent_path name in
  and_then (call (Sys_mknod (c_string real) mode rdev)) (λ _, stat_entry (wrap_lstat real)).
Definition Passthrough_mkdir (parent_path : PathBuf) (name : OsStr) (mode : Z) : Prog ResultEntry :=
  let real := real_entry fs parent_path name in
  and_then (call (Sys_mkdir (c_string real) mode)) (λ _, stat_entry (wrap_lstat real)).
Definition Passthrough_unlink (parent_path : PathBuf) (name : OsStr) : Prog ResultEmpty :=
  std_path (real_entry fs parent_path name) (λ p, call (Sys_unlink p)).
Definition Passthrough_rmdir (parent_path : PathBuf) (name : OsStr) : Prog ResultEmpty :=
  std_path (real_entry fs parent_path name) (λ p, call (Sys_rmdir p)).
Definition Passthrough_symlink (parent_path : PathBuf) (name link : OsStr) : Prog ResultEntry :=
  let real := real_entry fs parent_path name in
  std_path link (λ l, std_path real (λ p,
    and_then (call (Sys_symlink l p)) (λ _, stat_entry (wrap_lstat real)))).
Definition Passthrough_rename (parent_path : PathBuf) (name : OsStr) (newparent_path : PathBuf) (newname : OsStr)
    : Prog ResultEmpty :=
  std_path (real_entry fs parent_path name) (λ p,
    std_path (real_entry fs newparent_path newname) (λ q, call (Sys_rename p q))).
Definition Passthrough_link (path newparent : PathBuf) (newname : OsStr) : Prog ResultEntry :=
  let real := real_path fs path in
  std_path real (λ p, std_path (real_entry fs newparent newname) (λ q,
    and_then (call (Sys_link p q)) (λ _, stat_entry (wrap_lstat real)))).
Definition Passthrough_create (parent : PathBuf) (name : OsStr) (mode flags : Z) : Prog ResultCreate :=
  let real := real_entry fs parent name in
  and_then (call (Sys_open (c_string real) (Z.lor (Z.lor (c_int flags) O_CREAT) O_EXCL) (Some mode))) (λ fd,
    and_then (wrap_lstat real) (λ stat,
      attr ← pure (stat_to_fuse stat);
      Done (inr (MkCreatedEntry TTL attr (wrap 64 fd) flags)))).

Definition xattr_result (m : Prog (Z + (Z + list Z))) : Prog ResultXattr :=
  and_then m (λ r, Done (inr (match r with inr data => XattrData data | inl n => XattrSize (wrap 32 n) end))).
Definition Passthrough_listxattr (path : PathBuf) (size : Z) : Prog ResultXattr :=
  xattr_result (wrap_llistxattr (real_path fs path) size).
Definition Passthrough_getxattr (path : PathBuf) (name : OsStr) (size : Z) : Prog ResultXattr :=
  xattr_result (wrap_lgetxattr (real_path fs path) name size).
Definition Passthrough_setxattr (path : PathBuf) (name : OsStr) (value : list Z) (flags position : Z) : Prog ResultEmpty :=
  wrap_lsetxattr (real_path fs path) name value flags position.
Definition Passthrough_removexattr (path : PathBuf) (name : OsStr) : Prog ResultEmpty :=
  wrap_lremovexattr (real_path fs path) name.

(** The methods, with the defaults of the trait for those left out. *)
Definition Passthrough_call (fuel : nat) {A} (c : MtCall A) : Prog (option A) :=
  match c in MtCall A return Prog (option A) with
  | Mt_getattr path fh => Some <$> Passthrough_getattr path fh
  | Mt_chmod path fh mode => Some <$> Passthrough_chmod path fh mode
  | Mt_chown path fh uid gid => Some <$> Passthrough_chown path fh uid gid
  | Mt_truncate path fh size => Some <$> Passthrough_truncate path fh size
  | Mt_utimens path fh atime mtime => Some <$> Passthrough_utimens path fh atime mtime
  | Mt_utimens_macos path fh crtime chgtime bkuptime flags =>
      Done (Some (mt_default_utimens_macos path fh crtime chgtime bkuptime flags))
  | Mt_readlink path => Some <$> Passthrough_readlink path
  | Mt_mknod parent name mode rdev => Some <$> Passthrough_mknod parent name mode rdev
  | Mt_mkdir parent name mode => Some <$> Passthrough_mkdir parent name mode
  | Mt_unlink parent name => Some <$> Passthrough_unlink parent name
  | Mt_rmdir parent name => Some <$> Passthrough_rmdir parent name
  | Mt_symlink parent name link => Some <$> Passthrough_symlink parent name link
  | Mt_rename parent name newparent newname => Some <$> Passthrough_rename parent name newparent newname
  | Mt_link path newparent newname => Some <$> Passthrough_link path newparent newname
  | Mt_open path flags => Some <$> Passthrough_open path flags
  | Mt_read path fh offset size => Some <$> Passthrough_read path fh offset size
  | Mt_write path fh offset data flags => Some <$> Passthrough_write path fh offset data flags
  | Mt_flush path fh lock_owner => Some <$> Passthrough_flush path fh lock_owner
  | Mt_release path fh flags lock_owner flush => Some <$> Passthrough_release path fh flags lock_owner flush
  | Mt_fsync path fh datasync => Some <$> Passthrough_fsync path fh datasync
  | Mt_opendir path flags => Some <$> Passthrough_opendir path flags
  | Mt_readdir path fh => Passthrough_readdir fuel path fh
  | Mt_releasedir path fh flags => Some <$> Passthrough_releasedir path fh flags
  | Mt_fsyncdir path fh datasync => Some <$> Passthrough_fsyncdir path fh datasync
  | Mt_statfs path => Some <$> Passthrough_statfs path
  | Mt_setxattr path name value flags position => Some <$> Passthrough_setxattr path name value flags position
  | Mt_getxattr path name size => Some <$> Passthrough_getxattr path name size
  | Mt_listxattr path size => Some <$> Passthrough_listxattr path size
  | Mt_removexattr path name => Some <$> Passthrough_removexattr path name
  | Mt_access path mask => Done (Some (mt_default_access path mask))
  | Mt_create parent name mode flags => Some <$> Passthrough_create parent name mode flags
  end.

(** [impl FilesystemMT for PassthroughFS]; [readdir_ends] shows that the last case
    is not met when [fuel] exceeds what the directories hold. *)
Definition PassthroughFS_mt (fuel : nat) {H : Type} `{!Host H} : FilesystemMT H := {|
  mt_init _ h := Ret (inr tt, h);
  mt_destroy h := Ret (tt, h);
  mt_call A _ c h := '(r, h) ← run (Passthrough_call fuel c) h;
                     match r with Some a => Ret (a, h) | None => UB end;
  mt_now := host_now;
|}.
End passthrough.

(** ** Paths *)

(** A name as the kernel passes it on. *)
Definition clean (n : OsStr) : Prop := n ≠ [] ∧ n ≠ dot ∧ n ≠ dotdot ∧ (slash ∉ n) ∧ (0 ∉ n).
#[export] Instance clean_dec n : Decision (clean n).
Proof. apply _. Defined.

Lemma c_string_id n : 0 ∉ n → c_string n = n.
Proof.
  induction n as [|b n IH]; [done|]. intros [Hb Hn]%not_elem_of_cons. cbn.
  rewrite (proj2 (Z.eqb_neq b 0)) by done. by rewrite IH.
Qed.

Lemma path_bytes_clean p : Forall clean p → (0 ∉ path_bytes p) ∧ head (path_bytes p) ≠ Some slash ∧
  last (path_bytes p) ≠ Some slash ∧ (path_bytes p = [] ↔ p = []).
Proof.
  induction p as [|c p IH]; [intros _; split; [apply not_elem_of_nil|]; done|].
  intros [(Hne & Hd & Hdd & Hs & H0) Hp]%Forall_cons. specialize (IH Hp) as (IH0 & IHh & IHl & IHe).
  assert (∀ x, head c = Some x → x ≠ slash) as Hh.
  { intros x Hx ->. destruct c; [done|]. injection Hx as ->. apply Hs. by left. }
  assert (∀ x, last c = Some x → x ≠ slash) as Hl by (intros x Hx ->; by apply Hs, last_Some_elem_of).
  destruct p as [|c' p].
  - cbn [path_bytes]. split; [done|]. split; [intros Hx; by apply (Hh slash)|]. split; [intros Hx; by apply (Hl slash)|]. by split.
  - change (path_bytes (c :: c' :: p)) with (c ++ slash :: path_bytes (c' :: p)).
    assert (path_bytes (c' :: p) ≠ []) as Hnn by (intros He; by apply IHe in He).
    split. { intros [?|[?|?]%elem_of_cons]%elem_of_app; done. }
    split. { destruct c as [|b c]; [done|]. cbn. intros [= ->]. by apply (Hh slash). }
    split; [|split; [by destruct c|done]].
    intros Hx. rewrite last_app in Hx. destruct (path_bytes (c' :: p)) as [|b r]; [done|].
    change (last (slash :: b :: r)) with (last (b :: r)) in Hx. apply IHl. revert Hx.
    by destruct (last (b :: r)) eqn:Hx; [|apply last_None in Hx].
Qed.
Lemma path_bytes_snoc p n : p ≠ [] → path_bytes (p ++ [n]) = path_bytes p ++ slash :: n.
Proof.
  induction p as [|c p IH]; [done|]. intros _. destruct p as [|c' p]; [done|].
  change (path_bytes ((c :: c' :: p) ++ [n])) with (c ++ slash :: path_bytes ((c' :: p) ++ [n])).
  rewrite IH by done. cbn [path_bytes]. by rewrite <- app_assoc.
Qed.

Section confinement.
Context `{B : Build, C : Libc, F : LibcFs, LS : LibcSys}.
Variable fs : PassthroughFS.

(** The entry of a directory is the path of the name below it. *)
Lemma real_entry_join p n : Forall clean p → clean n → real_entry fs p n = real_path fs (join p n).
Proof.
  intros Hp Hn. pose proof Hn as (Hne & Hd & Hdd & Hs & H0). rewrite join_name by done.
  unfold real_entry, real_path.
  assert (∀ base, path_join base n = match last base with
    | Some d => if d =? slash then base ++ n else base ++ slash :: n | None => n end) as Hj.
  { intros base. destruct n as [|b n]; [done|]. cbn. rewrite (proj2 (Z.eqb_neq b slash)); [done|]. set_solver. }
  destruct (decide (p = [])) as [->|Hpn].
  - cbn [app path_bytes]. rewrite !Hj. cbn [path_join]. destruct (last (target fs)) as [d|] eqn:Hl.
    + destruct (d =? slash) eqn:Hd'; [by rewrite Hl, Hd'|]. rewrite last_snoc. cbn. by rewrite <- app_assoc.
    + by destruct (target fs); [|apply last_None in Hl].
  - rewrite path_bytes_snoc by done. destruct (path_bytes_clean p Hp) as (_ & Hh & Hl & He).
    assert (path_bytes p ≠ []) as Hbn by tauto.
    assert (∀ r, path_join (target fs) (path_bytes p ++ r) = path_join (target fs) (path_bytes p) ++ r) as Hpre.
    { intros r. destruct (path_bytes p) as [|b bs]; [done|]. cbn. destruct (b =? slash); [done|].
      destruct (last (target fs)) as [d|]; [|done]. destruct (d =? slash); by rewrite <- app_assoc. }
    rewrite Hpre, Hj. destruct (path_bytes p) as [|b bs] eqn:Hb; [done|].
    assert (last (path_join (target fs) (b :: bs)) = last (b :: bs)) as ->.
    { cbn [path_join]. destruct (b =? slash); [done|].
      assert (∀ a l, last (a ++ b :: l) = last (b :: l)) as Hla.
      { intros a l. rewrite last_app. by destruct (last (b :: l)) eqn:Hx; [|apply last_None in Hx]. }
      destruct (last (target fs)) as [d|]; [|done]. destruct (d =? slash); [by rewrite Hla|].
      rewrite cons_middle, app_assoc. by rewrite Hla. }
    destruct (last (b :: bs)) as [d|] eqn:Hlast; [|by apply last_None in Hlast].
    rewrite (proj2 (Z.eqb_neq d slash)); [done|]. intros ->. by apply Hl.
Qed.

(** The path of names below the target. *)
Definition below (p : OsStr) : Prop := ∃ names, p = real_path fs names ∧ Forall clean names.

Lemma below_no_nul p : 0 ∉ target fs → below p → 0 ∉ p.
Proof.
  intros Ht (names & -> & Hn). destruct (path_bytes_clean names Hn) as (H0 & Hh & _). unfold real_path.
  assert (∀ r, 0 ∉ r → 0 ∉ slash :: r) as Hs by (intros r Hr [?|?]%elem_of_cons; done).
  assert (0 ∉ [slash]) by (apply Hs, not_elem_of_nil).
  assert (∀ a b : OsStr, 0 ∉ a → 0 ∉ b → 0 ∉ a ++ b) as Happ by (intros a b ?? [?|?]%elem_of_app; done).
  destruct (path_bytes names) as [|b bs]; cbn [path_join].
  - destruct (last (target fs)) as [d|]; [|apply not_elem_of_nil]. destruct (d =? slash); [done|by apply Happ].
  - destruct (b =? slash); [done|]. destruct (last (target fs)) as [d|]; [|done].
    destruct (d =? slash); apply Happ; auto.
Qed.
Lemma below_path p : Forall clean p → below (real_path fs p).
Proof. intros Hp. by exists p. Qed.
Lemma below_entry p n : Forall clean p → clean n → below (real_entry fs p n).
Proof.
  intros Hp Hn. rewrite real_entry_join by done. apply below_path. destruct Hn as (? & ? & ? & ? & ?).
  rewrite join_name by done. apply Forall_app. split; [done|]. by repeat constructor.
Qed.

(** The paths and names of a call are as the kernel passes them on, and other
    strings have no NUL. *)
Definition call_clean {A} (c : MtCall A) : Prop :=
  match c with
  | Mt_getattr p _ | Mt_chmod p _ _ | Mt_chown p _ _ _ | Mt_truncate p _ _ | Mt_utimens p _ _ _
  | Mt_utimens_macos p _ _ _ _ _ | Mt_readlink p | Mt_open p _ | Mt_read p _ _ _ | Mt_write p _ _ _ _
  | Mt_flush p _ _ | Mt_release p _ _ _ _ | Mt_fsync p _ _ | Mt_opendir p _ | Mt_readdir p _
  | Mt_releasedir p _ _ | Mt_fsyncdir p _ _ | Mt_statfs p | Mt_listxattr p _ | Mt_access p _ => Forall clean p
  | Mt_mknod p n _ _ | Mt_mkdir p n _ | Mt_unlink p n | Mt_rmdir p n | Mt_create p n _ _ => Forall clean p ∧ clean n
  | Mt_setxattr p n _ _ _ | Mt_getxattr p n _ | Mt_removexattr p n => Forall clean p ∧ 0 ∉ n
  | Mt_symlink p n l => Forall clean p ∧ clean n ∧ 0 ∉ l
  | Mt_rename p n p' n' => (Forall clean p ∧ clean n) ∧ Forall clean p' ∧ clean n'
  | Mt_link p p' n' => Forall clean p ∧ Forall clean p' ∧ clean n'
  end.

Definition confined (X : Type) (s : Sys X) : Prop := Forall below (sys_paths s).

Lemma into_cstring_eq {A} p (k : OsStr → Prog (Z + A)) : 0 ∉ p → into_cstring p k = k p.
Proof. intros Hp. unfold into_cstring. by rewrite (proj2 (has_nul_spec p)). Qed.
Lemma std_path_eq {A} p (k : OsStr → Prog A) : 0 ∉ p → std_path p k = k p.
Proof. intros Hp. unfold std_path. by rewrite (proj2 (has_nul_spec p)). Qed.

Definition is_readdir {A} (c : MtCall A) : bool := match c with Mt_readdir _ _ => true | _ => false end.

Context (Htarget : 0 ∉ target fs).

Lemma wrap_lstat_eq p : below p → wrap_lstat p = call (Sys_lstat p).
Proof. intros Hp. unfold wrap_lstat. by rewrite into_cstring_eq by by apply below_no_nul. Qed.

(** The definitions of the methods. *)
Ltac unfold_methods :=
  unfold Passthrough_getattr, Passthrough_chmod, Passthrough_chown, Passthrough_truncate, Passthrough_utimens,
    Passthrough_readlink, Passthrough_mknod, Passthrough_mkdir, Passthrough_unlink, Passthrough_rmdir,
    Passthrough_symlink, Passthrough_rename, Passthrough_link, Passthrough_open, Passthrough_read,
    Passthrough_write, Passthrough_flush, Passthrough_release, Passthrough_fsync, Passthrough_opendir,
    Passthrough_releasedir, Passthrough_fsyncdir, Passthrough_statfs, Passthrough_setxattr, Passthrough_getxattr,
    Passthrough_listxattr, Passthrough_removexattr, Passthrough_create, xattr_result,
    wrap_opendir, wrap_closedir, wrap_open, wrap_close, wrap_llistxattr, wrap_lgetxattr, wrap_lsetxattr, wrap_lremovexattr;
  repeat match goal with |- context [match ?o with Some _ => _ | None => _ end] => destruct o end.
(** The paths of the goal are C strings. *)
Ltac no_nul := repeat match goal with
  | |- context [wrap_lstat _] => rewrite wrap_lstat_eq by (by first [apply below_path|apply below_entry])
  | H : Forall clean ?p |- context [into_cstring (real_path fs ?p)] => rewrite into_cstring_eq by (by apply below_no_nul, below_path)
  | H : 0 ∉ ?n |- context [into_cstring ?n] => rewrite into_cstring_eq by done
  | H : Forall clean ?p |- context [std_path (real_path fs ?p)] => rewrite std_path_eq by (by apply below_no_nul, below_path)
  | H : Forall clean ?p, H' : clean ?n |- context [std_path (real_entry fs ?p ?n)] =>
      rewrite std_path_eq by (by apply below_no_nul, below_entry)
  | H : 0 ∉ ?n |- context [std_path ?n] => rewrite std_path_eq by done
  | H : Forall clean ?p |- context [c_string (real_path fs ?p)] => rewrite c_string_id by (by apply below_no_nul, below_path)
  | H : Forall clean ?p, H' : clean ?n |- context [c_string (real_entry fs ?p ?n)] =>
      rewrite c_string_id by (by apply below_no_nul, below_entry)
  end.

(** A computation without undefined behaviour, by its branches. *)
Ltac no_ub := repeat first [discriminate | case_match | progress cbn].

(** The calls of a method, one after the other. *)
Ltac each_call := repeat match goal with
  | |- all_calls _ (_ <$> _) => apply all_calls_fmap
  | |- all_calls _ (stat_entry _) => unfold stat_entry, wrap_fstat
  | |- all_calls _ (and_then _ _) => apply all_calls_then; [|intros ?]
  | |- all_calls _ (pure _ ≫= _) => apply all_calls_pure; intros ?
  | |- all_calls _ (UnmanagedFile_new ?fh ≫= _) => unfold UnmanagedFile_new; destruct (c_int fh =? -1); [exact I|]
  | |- all_calls ?P (Done ?x ≫= ?f) => change (all_calls P (f x)); cbv beta
  | |- all_calls _ (call _) => apply all_calls_call; repeat constructor
  | |- all_calls _ (Done _) => exact I
  | |- all_calls _ (if ?b then _ else _) => destruct b
  | |- below (real_path fs _) => by apply below_path
  | |- below (real_entry fs _ _) => by apply below_entry
  | |- True => exact I
  | |- _ => progress no_nul
  end.
Lemma stat_to_fuse_no_ub s : stat_to_fuse s ≠ UB.
Proof. unfold stat_to_fuse, mode_to_filetype, stat_time, Duration_new, SystemTime_add, i64_checked. no_ub. Qed.
Lemma systemtime_to_libc_no_ub t : systemtime_to_libc t ≠ UB.
Proof. unfold systemtime_to_libc, i64_neg. no_ub. Qed.

(** The result of a method, after its last call. *)
Ltac last_call := repeat match goal with
  | |- ends_with _ _ (_ <$> _) => apply (ends_with_fmap result_error); [done|]
  | |- ends_with _ _ (stat_entry _) => unfold stat_entry, wrap_fstat
  | |- ends_with _ _ (and_then _ _) => apply ends_with_then; [|intros ?]
  | |- ends_with _ _ (pure _ ≫= _) => apply ends_with_pure; [apply stat_to_fuse_no_ub || apply systemtime_to_libc_no_ub|intros ?]
  | |- ends_with _ _ (UnmanagedFile_new ?fh ≫= _) => unfold UnmanagedFile_new; destruct (c_int fh =? -1); [exact eq_refl|]
  | |- ends_with ?e ?l (Done ?x ≫= ?f) => change (ends_with e l (f x)); cbv beta
  | |- ends_with _ _ (call _) => apply ends_with_call
  | |- ends_with _ _ (Done _) => exact eq_refl
  | |- ends_with _ _ (if ?b then _ else _) => destruct b
  | |- _ => progress no_nul
  end.


(** The error of a method's result. *)
Definition call_error {A} (c : MtCall A) : A → option Z :=
  match c in MtCall A return A → option Z with
  | Mt_getattr _ _ | Mt_mknod _ _ _ _ | Mt_mkdir _ _ _ | Mt_symlink _ _ _ | Mt_link _ _ _ => result_error
  | Mt_chmod _ _ _ | Mt_chown _ _ _ _ | Mt_truncate _ _ _ | Mt_utimens _ _ _ _ | Mt_utimens_macos _ _ _ _ _ _
  | Mt_unlink _ _ | Mt_rmdir _ _ | Mt_rename _ _ _ _ | Mt_flush _ _ _ | Mt_release _ _ _ _ _ | Mt_fsync _ _ _
  | Mt_releasedir _ _ _ | Mt_fsyncdir _ _ _ | Mt_setxattr _ _ _ _ _ | Mt_removexattr _ _ | Mt_access _ _ => result_error
  | Mt_open _ _ | Mt_opendir _ _ => result_error
  | Mt_readlink _ | Mt_read _ _ _ _ => result_error
  | Mt_write _ _ _ _ _ => result_error
  | Mt_readdir _ _ => result_error
  | Mt_statfs _ => result_error
  | Mt_getxattr _ _ _ | Mt_listxattr _ _ => result_error
  | Mt_create _ _ _ _ => result_error
  end.
(** The methods that are implemented, and [setxattr] without a position (macOS). *)
Definition passed_on {A} (c : MtCall A) : bool :=
  match c with
  | Mt_readdir _ _ | Mt_access _ _ | Mt_utimens_macos _ _ _ _ _ _ => false
  | Mt_setxattr _ _ _ _ position => position =? 0
  | _ => true
  end.

End confinement.

(** ** Witnesses *)

Definition demo_pt : PassthroughFS := MkPassthroughFS [47; 116].        (* /t *)
Definition demo_rename : MtCall ResultEmpty := Mt_rename [[97]; [98]] [99] [] [100].
Lemma demo_rename_clean : call_clean demo_rename.
Proof. split; (split; [apply (bool_decide_unpack _); vm_compute; exact I|apply (bool_decide_unpack _); vm_compute; exact I]). Defined.


