(* ===== verification/PassthroughRuns.v ===== *)
(** * PassthroughRuns: what the methods of the passthrough file system answer

    The methods of Passthrough.v on a host that behaves as its manual pages say:
    the attributes they report, the timestamps they set, listings, reads, and reads
    of two threads of the pool in turns; and requests that reach them through the
    adapter of FuseMT.v. *)

From stdpp Require Import gmap list.
From S2P Require Import Prelude Programs KernelInterface Time Operation Response Listing Reply Paths Session InodeTable FuseMT FuseMTRuns Passthrough.

Local Open Scope Z_scope.

Section answers.
Context `{B : Build, C : Libc, CL : !LibcLaws C, F : LibcFs, LS : LibcSys}.
Implicit Types (fs : PassthroughFS).

(** ** Attributes *)

Lemma mode_to_filetype_spec mode k : Z.land mode S_IFMT = S_IF k → mode_to_filetype mode = Ret k.
Proof.
  intros Hm. unfold mode_to_filetype. rewrite Hm.
  change S_IFDIR with (S_IF Directory). change S_IFREG with (S_IF RegularFile). change S_IFLNK with (S_IF Symlink).
  change S_IFBLK with (S_IF BlockDevice). change S_IFCHR with (S_IF CharDevice). change S_IFIFO with (S_IF NamedPipe).
  change S_IFSOCK with (S_IF Socket). pose proof S_IF_inj as Hinj.
  assert (∀ k', (S_IF k =? S_IF k') = bool_decide (k = k')) as Heq.
  { intros k'. case_bool_decide as Hk; [by subst; apply Z.eqb_refl|]. apply Z.eqb_neq. intros He%Hinj. done. }
  rewrite !Heq. by destruct k.
Qed.
Lemma mode_to_filetype_unknown mode : (∀ k, Z.land mode S_IFMT ≠ S_IF k) → mode_to_filetype mode = Panic.
Proof.
  intros Hm. unfold mode_to_filetype.
  rewrite (proj2 (Z.eqb_neq _ S_IFDIR)) by apply (Hm Directory). rewrite (proj2 (Z.eqb_neq _ S_IFREG)) by apply (Hm RegularFile).
  rewrite (proj2 (Z.eqb_neq _ S_IFLNK)) by apply (Hm Symlink). rewrite (proj2 (Z.eqb_neq _ S_IFBLK)) by apply (Hm BlockDevice).
  rewrite (proj2 (Z.eqb_neq _ S_IFCHR)) by apply (Hm CharDevice). rewrite (proj2 (Z.eqb_neq _ S_IFIFO)) by apply (Hm NamedPipe).
  by rewrite (proj2 (Z.eqb_neq _ S_IFSOCK)) by apply (Hm Socket).
Qed.
Lemma stat_time_spec secs nanos : - 2 ^ 63 ≤ secs < 2 ^ 63 → 0 ≤ nanos < NANOS_PER_SEC →
  stat_time secs nanos = if bool_decide (0 ≤ secs) then Ret (MkSystemTime secs nanos) else Panic.
Proof.
  intros Hs Hn. assert (NANOS_PER_SEC < 2 ^ 32) as HN by done. unfold stat_time.
  rewrite (wrap_small 32) by lia. pose proof (wrap_bounds 64 secs ltac:(lia)).
  rewrite Duration_new_small by lia. cbn [mbind outcome_bind]. unfold SystemTime_add, UNIX_EPOCH. cbn [tv_sec tv_nsec as_secs subsec_nanos].
  case_bool_decide.
  - rewrite wrap_small, i64_checked_ok by lia. cbn [mbind outcome_bind]. rewrite decide_True by lia. done.
  - unfold i64_checked. rewrite decide_False; [done|].
    assert (wrap 64 secs = secs + 2 ^ 64) as ->; [|lia]. unfold wrap. rewrite <- (Z.mod_add secs 1) by lia. apply Z.mod_small. lia.
Qed.

(** The values of the C types, and normalised timestamps. *)
Record stat_wf (s : stat64) : Prop := {
  wf_size : 0 ≤ st_size s < 2 ^ 63; wf_blocks : 0 ≤ st_blocks64 s < 2 ^ 63;
  wf_secs : Forall (λ t, - 2 ^ 63 ≤ t < 2 ^ 63) [st_atime s; st_mtime s; st_ctime s];
  wf_nanos : Forall (λ n, 0 ≤ n < NANOS_PER_SEC) [st_atime_nsec s; st_mtime_nsec s; st_ctime_nsec s];
}.

(** The attributes of a file are reported as the system gives them, if its type
    is a known one and none of its timestamps is before 1970; otherwise the
    conversion panics. *)
Theorem stat_to_fuse_spec s :
  stat_wf s →
  (∀ k, Z.land (st_mode s) S_IFMT = S_IF k → Forall (λ t, 0 ≤ t) [st_atime s; st_mtime s; st_ctime s] →
    stat_to_fuse s = Ret {| mt_size := st_size s; mt_blocks := st_blocks64 s;
      mt_atime := MkSystemTime (st_atime s) (st_atime_nsec s);
      mt_mtime := MkSystemTime (st_mtime s) (st_mtime_nsec s);
      mt_ctime := MkSystemTime (st_ctime s) (st_ctime_nsec s); mt_crtime := UNIX_EPOCH;
      mt_kind := k; mt_perm := Z.land (st_mode s) (Z.ones 12); mt_nlink := st_nlink s `mod` 2 ^ 32;
      mt_uid := st_uid s; mt_gid := st_gid s; mt_rdev := st_rdev s `mod` 2 ^ 32; mt_flags := 0 |}) ∧
  ((∀ k, Z.land (st_mode s) S_IFMT ≠ S_IF k) ∨ Exists (λ t, t < 0) [st_atime s; st_mtime s; st_ctime s] →
    stat_to_fuse s = Panic).
Proof.
  intros [Hsize Hblocks Hsecs Hnanos]. apply Forall_cons in Hsecs as [Ha [Hm [Hc _]%Forall_cons]%Forall_cons].
  apply Forall_cons in Hnanos as [Han [Hmn [Hcn _]%Forall_cons]%Forall_cons]. unfold stat_to_fuse.
  rewrite !stat_time_spec by done. split.
  - intros k Hk [Ha0 [Hm0 [Hc0 _]%Forall_cons]%Forall_cons]%Forall_cons. rewrite (mode_to_filetype_spec _ _ Hk).
    rewrite !bool_decide_eq_true_2 by done. cbn [mbind outcome_bind]. rewrite !(wrap_small 64) by lia. done.
  - intros [Hk|Hneg]; [by rewrite mode_to_filetype_unknown|].
    destruct (mode_to_filetype (st_mode s)) as [k| |] eqn:Hk; [| |exfalso; revert Hk; unfold mode_to_filetype; repeat case_match; done].
    2: done. cbn [mbind outcome_bind].
    destruct (bool_decide (0 ≤ st_atime s)) eqn:H1; [|done]. cbn [mbind outcome_bind].
    destruct (bool_decide (0 ≤ st_mtime s)) eqn:H2; [|done]. cbn [mbind outcome_bind].
    destruct (bool_decide (0 ≤ st_ctime s)) eqn:H3; [|done]. exfalso.
    apply bool_decide_eq_true in H1, H2, H3. rewrite !Exists_cons, Exists_nil in Hneg. lia.
Qed.

(** ** Timestamps *)

(** The two timestamps of a SETATTR request, converted to instants and back,
    are those the system is asked to set, before 1970 too. *)
Theorem utimens_round_trip fs path fh s1 n1 s2 n2 t1 t2 :
  - 2 ^ 63 < s1 < 2 ^ 63 → 0 ≤ n1 < NANOS_PER_SEC → - 2 ^ 63 < s2 < 2 ^ 63 → 0 ≤ n2 < NANOS_PER_SEC →
  system_time_from_time s1 n1 = Ret t1 → system_time_from_time s2 n2 = Ret t2 →
  Passthrough_utimens fs path fh (Some t1) (Some t2) =
    match fh with
    | Some fd => call (Sys_futimens (c_int fd) (MkTimespec s1 n1) (MkTimespec s2 n2))
    | None => call (Sys_utimensat (c_string (real_path fs path)) (MkTimespec s1 n1) (MkTimespec s2 n2) AT_SYMLINK_NOFOLLOW)
    end.
Proof.
  assert (∀ s n t, - 2 ^ 63 < s < 2 ^ 63 → 0 ≤ n < NANOS_PER_SEC → system_time_from_time s n = Ret t →
    systemtime_to_libc (Some t) = Ret (MkTimespec s n)) as Hback.
  { intros s n t Hs Hn Ht. pose proof (yields_eq _ _ _ (system_time_from_time_spec s n Hs Hn) Ht) as [_ Hnanos].
    pose proof (time_from_system_time_spec t s n Hs Hn Hnanos) as Hf. unfold time_from_system_time in Hf.
    unfold systemtime_to_libc, as_i64. destruct (duration_since t UNIX_EPOCH) as [d|d].
    - by injection Hf as <- <-.
    - apply bind_Ret in Hf as (secs & -> & [= <- <-]). done. }
  intros Hs1 Hn1 Hs2 Hn2 H1 H2. unfold Passthrough_utimens.
  by rewrite (Hback _ _ _ Hs1 Hn1 H1), (Hback _ _ _ Hs2 Hn2 H2).
Qed.

(** utimensat(2): the nanoseconds are below a second or one of two constants, and
    otherwise the call fails. *)
Definition nsec_valid (n : Z) : bool :=
  bool_decide (0 ≤ n < NANOS_PER_SEC) || (n =? 2 ^ 30 - 1) || (n =? 2 ^ 30 - 2).
Class HostTimes (H : Type) `{!Host H} : Prop := {
  utimensat_range (p : OsStr) (a m : timespec) (fl : Z) (h : H) : nsec_valid (ts_nsec a) && nsec_valid (ts_nsec m) = false →
    (sys (Sys_utimensat p a m fl) h).1 = inl EINVAL;
  futimens_range (fd : Z) (a m : timespec) (h : H) : nsec_valid (ts_nsec a) && nsec_valid (ts_nsec m) = false →
    (sys (Sys_futimens fd a m) h).1 = inl EINVAL;
}.

Lemma utimens_omit fs path fh atime mtime {H} `{!Host H, !HostTimes H} (h : H) :
  atime = None ∨ mtime = None → yields (systemtime_to_libc atime) (λ _, True) → yields (systemtime_to_libc mtime) (λ _, True) →
  ∃ h', run (Passthrough_utimens fs path fh atime mtime) h = Ret (inl EINVAL, h').
Proof.
  intros Hnone (a & Ha & _)%yields_Ret (m & Hm & _)%yields_Ret. unfold Passthrough_utimens. rewrite Ha, Hm.
  assert (nsec_valid (ts_nsec a) && nsec_valid (ts_nsec m) = false) as Hbad.
  { destruct Hnone as [->| ->]; [injection Ha as <-|injection Hm as <-; rewrite andb_comm]; done. }
  destruct fh as [fd|]; cbn.
  - pose proof (futimens_range (c_int fd) a m h Hbad) as He. destruct (sys _ h) as [r h']. cbn in He. subst r. by exists h'.
  - pose proof (utimensat_range (c_string (real_path fs path)) a m AT_SYMLINK_NOFOLLOW h Hbad) as He.
    destruct (sys _ h) as [r h']. cbn in He. subst r. by exists h'.
Qed.

Lemma systemtime_to_libc_yields t : SystemTime_wf t → - 2 ^ 63 < tv_sec t → yields (systemtime_to_libc (Some t)) (λ _, True).
Proof.
  intros [Hs Hn] Hmin. unfold systemtime_to_libc, duration_since. change (SystemTime_nanos UNIX_EPOCH) with 0. rewrite Z.sub_0_r.
  case_decide as Hd; [done|]. unfold as_i64. cbn [nanos_to_duration as_secs].
  assert (0 ≤ - SystemTime_nanos t / NANOS_PER_SEC < 2 ^ 63) as Hb.
  { unfold SystemTime_nanos, NANOS_PER_SEC in *. split; [apply Z.div_pos; lia|apply Z.div_lt_upper_bound; lia]. }
  rewrite to_signed_id, i64_neg_ok by lia. done.
Qed.

(** A request that sets one of the two timestamps of a file the kernel holds
    is refused with EINVAL, through the adapter: the value for the other one is not
    the system's constant for leaving it out. *)
Theorem setattr_one_time_refused fs fuel {H} `{!Host H, !HostTimes H} info ino path t atime mtime ctime fh st :
  InodeTable_get_path (mt_inodes st) ino = Ret (Some path) →
  SystemTime_wf t → - 2 ^ 63 < tv_sec t →
  (atime, mtime) = (Some (SpecificTime t), None) ∨ (atime, mtime) = (None, Some (SpecificTime t)) →
  ∃ st', mt_do (MT := PassthroughFS_mt fs fuel)
    (MtRequest info (Fs_setattr ino None None None None atime mtime ctime fh None None None None)) st =
    Ret ([(info_unique info, AError EINVAL)], st').
Proof.
  intros Hp Ht Hmin Htimes. set (MT := PassthroughFS_mt fs fuel : FilesystemMT H).
  pose proof (systemtime_to_libc_yields t Ht Hmin) as Hy.
  assert (∀ a m, (a, m) = (Some t, None) ∨ (a, m) = (None, Some t) → ∃ h',
    mt_call info (Mt_utimens path fh a m) (mt_target st) = Ret (inl EINVAL, h')) as Hcall.
  { intros a m Ham. destruct (utimens_omit fs path fh a m (mt_target st)) as [h' Hr].
    - by destruct Ham as [[= -> ->]|[= -> ->]]; [right|left].
    - by destruct Ham as [[= -> ->]|[= -> ->]].
    - by destruct Ham as [[= -> ->]|[= -> ->]].
    - exists h'. cbn [mt_call PassthroughFS_mt MT Passthrough_call].
      change (Some <$> ?m) with (m ≫= λ a, Done (Some a)). rewrite run_bind. unfold mbind at 2, stateM_bind. by rewrite Hr. }
  assert (∀ a m, (a, m) = (Some t, None) ∨ (a, m) = (None, Some t) → ∃ st', call_target info (Mt_utimens path fh a m) st = Ret (inl EINVAL, st')) as Htarget.
  { intros a m Ham. destruct (Hcall a m Ham) as [h' Hc]. unfold call_target. rewrite Hc. by eexists. }
  enough (∃ st', FuseMT_setattr info ino None None None None atime mtime fh None None None None st = Ret (Some (AError EINVAL), st')) as [st' Hr].
  { exists st'. by apply (request_answers info _ st (Some (AError EINVAL)) st'). }
  unfold FuseMT_setattr. rewrite (get_path_found _ path) by done. unfold setattr_part. cbn [is_some orb].
  assert (∀ a m at_ mt, (a, m) = (Some t, None) ∨ (a, m) = (None, Some t) →
    (atime ← map_time at_; mtime ← map_time mt; mret (Mt_utimens path fh atime mtime)) st = Ret (Mt_utimens path fh a m, st) →
    ∃ st', (c ← (atime ← map_time at_; mtime ← map_time mt; mret (Mt_utimens path fh atime mtime));
            r ← call_target info c; or_error r (λ _, r ← call_target info (Mt_getattr path fh);
              answer (answer_with r (λ '(ttl, attr), AAttr ttl (fuse_fileattr attr ino))))) st = Ret (Some (AError EINVAL), st')) as Hset.
  { intros a m at_ mt Ham Hm. destruct (Htarget a m Ham) as [st' Hc]. exists st'.
    rewrite (bindM_eq _ _ _ _ _ Hm), (bindM_eq _ _ _ _ _ Hc). done. }
  destruct Htimes as [[= -> ->]|[= -> ->]]; cbn [is_some orb].
  - apply (Hset (Some t) None); [by left|done].
  - apply (Hset None (Some t)); [by right|done].
Qed.

(** ** Reads *)

(** lseek(2) and read(2) on a regular file, open under [fd]. *)
Class FileHost (H : Type) `{!Host H} (fd : Z) := {
  f_pos : H → Z;
  f_content : H → list Z;
  file_lseek (o : Z) (h : H) : 0 ≤ o < 2 ^ 63 → ∃ h', sys (Sys_lseek fd o) h = (inr o, h') ∧ f_pos h' = o ∧ f_content h' = f_content h;
  file_read (n : Z) (h : H) : ∃ h', sys (Sys_read fd n) h = (inr (take (Z.to_nat n) (drop (Z.to_nat (f_pos h)) (f_content h))), h') ∧
    f_content h' = f_content h;
}.
Definition part (content : list Z) (offset size : Z) : list Z := take (Z.to_nat size) (drop (Z.to_nat offset) content).

(** A read alone gives the bytes of the file at its offset; but it seeks and
    then reads, on a descriptor that all requests on the open file share: with
    another read in between, by a second thread of the pool, it gives the bytes at
    the other one's offset. *)
Theorem reads_race path fh off1 size1 off2 size2 {H} `{!Host H, FH : !FileHost H (c_int fh)} (h : H) :
  c_int fh ≠ -1 → 0 ≤ off1 < 2 ^ 63 → 0 ≤ off2 < 2 ^ 63 →
  (∃ h', run (Passthrough_read path fh off1 size1) h = Ret (inr (part (f_content h) off1 size1), h')) ∧
  (∃ m h', interleave [true; false; true] (Passthrough_read path fh off1 size1) (Passthrough_read path fh off2 size2) h =
    (Done (inr (part (f_content h) off2 size1)), m, h')).
Proof.
  intros Hfd H1 H2. assert (∀ off size, 0 ≤ off < 2 ^ 63 → Passthrough_read path fh off size =
    Call (Sys_lseek (c_int fh) off) (λ r, match r with inl e => Done (inl e) | inr _ => call (Sys_read (c_int fh) size) end)) as Hm.
  { intros off size Ho. unfold Passthrough_read, UnmanagedFile_new, as_i64. rewrite (proj2 (Z.eqb_neq _ _)) by done.
    by rewrite to_signed_id by lia. }
  rewrite (Hm off1 size1), (Hm off2 size2) by done. split.
  - cbn. destruct (file_lseek off1 h H1) as (ha & -> & Hpa & Hca). cbn.
    destruct (file_read size1 ha) as (hb & -> & _). exists hb. by rewrite Hpa, Hca.
  - cbn. destruct (file_lseek off1 h H1) as (ha & -> & _ & Hca). cbn.
    destruct (file_lseek off2 ha H2) as (hb & -> & Hpb & Hcb). cbn.
    destruct (file_read size1 hb) as (hc & -> & _). eexists _, hc. by rewrite Hpb, Hcb, Hca.
Qed.

(** ** Listings *)

(** readdir(3) on the stream [dir], and lstat(2) of what has no type in it. *)
Class DirHost (H : Type) `{!Host H} (dir : Z) := {
  d_stream : H → list dirent;
  d_kind : OsStr → FileType;
  dir_end h : d_stream h = [] → ∃ h', sys (Sys_readdir dir) h = (inr None, h');
  dir_next h e es : d_stream h = e :: es → ∃ h', sys (Sys_readdir dir) h = (inr (Some e), h') ∧ d_stream h' = es;
  dir_lstat p h : ∃ s h', sys (Sys_lstat p) h = (inr s, h') ∧ d_stream h' = d_stream h ∧ Z.land (st_mode s) S_IFMT = S_IF (d_kind p);
}.
(** How an entry is listed. *)
Definition listed_kind fs path (kind : OsStr → FileType) (e : dirent) : FileType :=
  let t := d_type e in
  if t =? DT_DIR then Directory else if t =? DT_REG then RegularFile else if t =? DT_LNK then Symlink else
  if t =? DT_BLK then BlockDevice else if t =? DT_CHR then CharDevice else if t =? DT_FIFO then NamedPipe else
  if t =? DT_SOCK then NamedPipe else kind (real_path fs (join path (d_name e))).
Definition listing fs path (kind : OsStr → FileType) (es : list dirent) : list DirectoryEntry :=
  (λ e, MkDirectoryEntry (d_name e) (listed_kind fs path kind e)) <$> es.

Section directory.
Context {H : Type} `{!Host H} (fh : Z) `{!DirHost H fh}.

Lemma entry_filetype_runs fs path e (h : H) : 0 ∉ real_path fs (join path (d_name e)) →
  ∃ h', run (entry_filetype fs path e) h = Ret (listed_kind fs path d_kind e, h') ∧ d_stream h' = d_stream h.
Proof.
  intros H0. unfold entry_filetype, listed_kind. do 7 (case_match; [by exists h|]).
  unfold wrap_lstat. rewrite into_cstring_eq by done. cbn.
  destruct (dir_lstat (real_path fs (join path (d_name e))) h) as (s & h' & -> & Hs & Hk). cbn.
  rewrite (mode_to_filetype_spec _ _ Hk). by exists h'.
Qed.

(** The loop of [readdir] ends with the directory. *)
Lemma readdir_ends fs path fuel : ∀ (h : H) acc,
  (length (d_stream h) < fuel)%nat →
  Forall (λ e, 0 ∉ real_path fs (join path (d_name e))) (d_stream h) →
  ∃ h', run (passthrough_readdir_loop fs fuel path fh acc) h =
    Ret (Some (inr (acc ++ listing fs path d_kind (d_stream h))), h').
Proof.
  induction fuel as [|fuel IH]; intros h acc Hf Hn; [lia|]. cbn [passthrough_readdir_loop].
  rewrite run_bind. unfold mbind, stateM_bind, wrap_readdir. cbn.
  destruct (d_stream h) as [|e es] eqn:Hs.
  - destruct (dir_end h Hs) as [h' ->]. exists h'. cbn. by rewrite app_nil_r.
  - destruct (dir_next h e es Hs) as (h1 & -> & Hs1). cbn. apply Forall_cons in Hn as [He Hes].
    destruct (entry_filetype_runs fs path e h1 He) as (h2 & Hr & Hs2).
    rewrite run_Prog_bind. unfold mbind, stateM_bind. rewrite Hr.
    destruct (IH h2 (acc ++ [MkDirectoryEntry (d_name e) (listed_kind fs path d_kind e)])) as [h3 Hl];
      [rewrite Hs2, Hs1; cbn in Hf; lia|by rewrite Hs2, Hs1|].
    exists h3. rewrite Hl, Hs2, Hs1, <- app_assoc. done.
Qed.

End directory.
End answers.

(** ** Witnesses *)

(** A host with one file, one directory stream and the check of utimensat(2). *)
Record demo_host : Type := MkDemoHost { demo_pos : Z; demo_content : list Z; demo_stream : list dirent }.
Definition demo_stat (mode mtime : Z) : stat64 := MkStat mode 1 10 8 0 0 0 5 7 mtime 8 6 9.
Definition demo_sys {X} (s : Sys X) (h : demo_host) : (Z + X) * demo_host :=
  match s in Sys X return (Z + X) * demo_host with
  | Sys_lstat _ => (inr (demo_stat 33188 5), h)
  | Sys_lseek _ o => (inr o, MkDemoHost o (demo_content h) (demo_stream h))
  | Sys_read _ n => (inr (part (demo_content h) (demo_pos h) n), h)
  | Sys_readdir _ =>
      match demo_stream h with
      | [] => (inr None, h)
      | e :: es => (inr (Some e), MkDemoHost (demo_pos h) (demo_content h) es)
      end
  | Sys_utimensat _ a m _ => (if nsec_valid (ts_nsec a) && nsec_valid (ts_nsec m) then inr tt else inl 22, h)
  | Sys_futimens _ a m => (if nsec_valid (ts_nsec a) && nsec_valid (ts_nsec m) then inr tt else inl 22, h)
  | _ => (inl 38, h)
  end.
#[export] Instance demo_Host : Host demo_host := {| host_sys X := demo_sys; host_now h := (UNIX_EPOCH, h) |}.
#[export] Instance demo_HostTimes : HostTimes (F := linux_fs) demo_host.
Proof. split; intros * Hb; cbn; by rewrite Hb. Qed.
#[export] Program Instance demo_FileHost : FileHost demo_host 5 := {| f_pos := demo_pos; f_content := demo_content |}.
Next Obligation. intros o h Ho. by eexists. Qed.
Next Obligation. intros n h. by eexists. Qed.
#[export] Program Instance demo_DirHost : DirHost (C := linux) (F := linux_fs) demo_host 9 :=
  {| d_stream := demo_stream; d_kind _ := RegularFile |}.
Next Obligation. intros [p c es] Hs. cbn in *. subst es. by eexists. Qed.
Next Obligation. intros [p c es] e es' Hs. cbn in *. subst es. by eexists. Qed.
Next Obligation. intros p h. by exists (demo_stat 33188 5), h. Qed.

Lemma stat_to_fuse_spec_witness :
  stat_to_fuse (C := linux) (F := linux_fs) (demo_stat 33188 (-1)) = Panic ∧
  ∃ a, stat_to_fuse (C := linux) (F := linux_fs) (demo_stat 33188 5) = Ret a ∧ mt_perm a = 420 ∧ mt_kind a = RegularFile.
Proof.
  assert (∀ m, -1 ≤ m < 10 → stat_wf (demo_stat 33188 m)) as Hwf.
  { intros m Hm. split; cbn; [lia|lia|repeat constructor; lia|repeat constructor; done]. }
  split.
  - apply (stat_to_fuse_spec (CL := linux_laws) (F := linux_fs) (demo_stat 33188 (-1))); [apply Hwf; lia|].
    right. apply Exists_cons. right. apply Exists_cons. left. cbn. lia.
  - destruct (stat_to_fuse_spec (CL := linux_laws) (F := linux_fs) (demo_stat 33188 5)) as [Hs _]; [apply Hwf; lia|].
    eexists. split; [apply (Hs RegularFile); [reflexivity|repeat constructor; cbn; lia]|]. split; reflexivity.
Defined.

(** Half a second before the epoch is -1 s and 500000000 ns. *)
Lemma utimens_round_trip_witness :
  Passthrough_utimens (B := true) (LS := linux_sys) demo_pt [[97]] None
    (Some (MkSystemTime (-2) 500000000)) (Some (MkSystemTime 3 4)) =
  call (Sys_utimensat [47; 116; 47; 97] (MkTimespec (-1) 500000000) (MkTimespec 3 4) 256).
Proof.
  apply (utimens_round_trip (B := true) (LS := linux_sys) demo_pt [[97]] None (-1) 500000000 3 4); (lia || done || reflexivity).
Defined.

Definition demo_host0 : demo_host :=
  MkDemoHost 0 [10; 11; 12; 13; 14; 15] [MkDirent [46] 4; MkDirent [46; 46] 4; MkDirent [97] 0; MkDirent [115] 12].
Definition demo_pass : FuseMT demo_host := FuseMT_new demo_host0 1.
Definition demo_pass_mt : FilesystemMT demo_host :=
  PassthroughFS_mt (B := true) (C := linux) (F := linux_fs) (LS := linux_sys) demo_pt 10.

Lemma setattr_one_time_refused_witness :
  ∃ st', mt_do (B := true) (C := linux) (F := linux_fs) (MT := demo_pass_mt)
    (MtRequest (demo_info 20) (Fs_setattr 1 None None None None None (Some (SpecificTime (MkSystemTime 7 0))) None None None None None None))
    demo_pass = Ret ([(20, AError 22)], st').
Proof.
  apply (setattr_one_time_refused (B := true) (C := linux) (F := linux_fs) (LS := linux_sys) demo_pt 10 (demo_info 20) 1 []
    (MkSystemTime 7 0)); [vm_compute; reflexivity|split; cbn; unfold NANOS_PER_SEC; lia|cbn; lia|by right].
Defined.

Lemma reads_race_witness :
  (∃ h', run (Passthrough_read [] 5 0 2) demo_host0 = Ret (inr [10; 11], h')) ∧
  ∃ m h', interleave [true; false; true] (Passthrough_read [] 5 0 2) (Passthrough_read [] 5 3 2) demo_host0 =
    (Done (inr [13; 14]), m, h').
Proof.
  exact (reads_race (FH := demo_FileHost) [] 5 0 2 3 2 demo_host0 ltac:(done) ltac:(lia) ltac:(lia)).
Defined.

