(* ===== verification/File.v ===== *)
(** * File: opening files on the ring, and the end of the driver

    [File::create] and [File::open] ([runtime/src/driver/file.rs]) with the
    operation they submit ([driver/op/open.rs]), as a future over the driver of
    Driver.v; and what happens to operations in flight when the driver is dropped
    ([driver/uring/mod.rs]).  Reads, writes and [close] of an open file are in
    Buffers.v and SharedFd.v. *)

From stdpp Require Import gmap.
From S2P Require Import Prelude Store Driver Operation Paths Response Passthrough.

Local Open Scope Z_scope.

Section file.
Context `{B : Build, F : LibcFs, LS : LibcSys} {W D : Type} (will_wake : W → W → bool).
Context {S R U : Type} `{!Store S R (Lifecycle (W:=W) (D:=D))} `{!Uring U}.
(** [Open { path, flags, mode }] among the data of the operations. *)
Context (open_data : OsStr → Z → Z → D).

Abbreviation inner_t := (UringInner (W:=W) (S:=S) (U:=U)).
Abbreviation op_t := (Op (D:=D)).

(** [CString::new] refuses a NUL: [InvalidInput]. *)
Definition cstr (p : OsStr) : io_error + OsStr := if has_nul p then inl (mkIoError OtherKind None) else inr p.

(** [Op::<Open>::open]; [None]: a submission that is still retrying. *)
Definition Op_open (fuel : nat) (path : OsStr) (flags mode : Z) (inner : inner_t)
    : outcome (option (io_error + op_t) * inner_t) :=
  match cstr path with
  | inl e => Ret (Some (inl e), inner)
  | inr path => UringInner_submit_with_data fuel inner (open_data path flags mode)
  end.

(** The future of [open_internal]: before its first poll, or at its [await]. *)
Inductive open_future : Type := OpenStart (path : OsStr) (flags : Z) | OpenAwait (op : op_t) | OpenDone.
Definition File_create (path : OsStr) : open_future := OpenStart path (Z.lor O_WRONLY O_CREAT).
Definition File_open (path : OsStr) : open_future := OpenStart path O_RDONLY.

(** The descriptor of the file, or the error. *)
Definition open_result (r : io_result Z) : io_error + Z := match r with Ok_ fd => inr (to_signed 32 fd) | Err_ e => inl e end.
Definition open_await (op : op_t) (cx : W) (inner : inner_t)
    : outcome (Driver.Poll (io_error + Z)%type * open_future * inner_t) :=
  '(p, inner, op) ← Op_poll will_wake inner op cx;
  match p with
  | Pending => Ret (Pending, OpenAwait op, inner)
  | Ready completion => Ret (Ready (open_result (meta_result (meta completion))), OpenDone, inner)
  end.
Definition open_poll (fuel : nat) (f : open_future) (cx : W) (inner : inner_t)
    : outcome (option (Driver.Poll (io_error + Z)%type) * open_future * inner_t) :=
  match f with
  | OpenStart path flags =>
      '(r, inner) ← Op_open fuel path flags 438 inner;
      match r with
      | None => Ret (None, f, inner)
      | Some (inl e) => Ret (Some (Ready (inl e)), OpenDone, inner)
      | Some (inr op) => '(p, f, inner) ← open_await op cx inner; Ret (Some p, f, inner)
      end
  | OpenAwait op => '(p, f, inner) ← open_await op cx inner; Ret (Some p, f, inner)
  | OpenDone => Panic                                   (* resumed after completion *)
  end.
Definition open_drop (f : open_future) (inner : inner_t) : outcome inner_t :=
  match f with OpenAwait op => Op_drop inner op | _ => Ret inner end.

(** ** The drop of the driver *)

(** When the runtime and the last operation are gone, the ring is closed and the slab
    dropped with what is in it. *)
Definition lifecycle_data (lc : Lifecycle (W:=W) (D:=D)) : option D := match lc with Ignored d => d | _ => None end.
Context `{!StoreLaws S R (Lifecycle (W:=W) (D:=D))} `{!UringLaws U}.
Definition UringInner_drop (inner : inner_t) : gmap Z D := omap lifecycle_data (st_content (ops inner)).

(** Dropping the driver frees exactly the data of the operations the kernel has not
    completed: buffers it may still write to.  Nothing waits for them: what the
    comment at [Ops] says of an empty slab is ensured nowhere. *)
Theorem driver_drop_frees ETIME fuel es (w : World (W:=W) (D:=D) (S:=S) (U:=U)) :
  world_run (R:=R) will_wake ETIME fuel world_init es = Ret w → w_futs w = ∅ →
  ∀ k d, UringInner_drop (w_inner w) !! k = Some d ↔
    k ∈ normal (pending (uring (w_inner w))) ∧ w_sqe w !! k = Some d.
Proof.
  intros Hrun Hf k d.
  pose proof (permits_eq _ _ _ (world_run_spec will_wake ETIME fuel es _ world_init_inv) Hrun) as [HI _].
  assert (∀ lc, st_content (ops (w_inner w)) !! k = Some lc → ∃ d', lc = Ignored (Some d') ∧ w_sqe w !! k = Some d') as Hall.
  { intros lc Hlc. destruct lc as [|wk|x|r fl]; [..|].
    1,2,4: destruct (inv_owned _ _ _ _ HI _ _ Hlc) as (o & op & Hop & _); [done|]; by rewrite Hf in Hop.
    destruct (inv_ignored _ _ _ _ HI _ _ Hlc) as (d' & -> & ?). eauto. }
  unfold UringInner_drop. rewrite lookup_omap, (inv_pending _ _ _ _ HI). split.
  - destruct (st_content _ !! k) as [lc|] eqn:Hlc; [|done]. destruct (Hall lc eq_refl) as (d' & -> & Hs).
    cbn. intros [= ->]. split; [by eexists|done].
  - intros [(lc & Hlc & _) Hs]. destruct (Hall lc Hlc) as (d' & -> & Hs'). rewrite Hlc. cbn. congruence.
Qed.

(** ** Opening *)

(** The poll after the completion gives the descriptor the kernel opened, or its
    error. *)
Lemma open_await_completed op d cx (inner : inner_t) r flags :
  st_wf (ops inner) → op_data op = Some d → st_content (ops inner) !! op_index op = Some (Completed r flags) →
  ∃ inner', open_await op cx inner = Ret (Ready (open_result r), OpenDone, inner') ∧
    st_content (ops inner') = delete (op_index op) (st_content (ops inner)).
Proof.
  intros Hwf Hd Hc. unfold open_await.
  destruct (Op_poll_completed will_wake inner op d cx r flags Hwf Hd Hc) as (inner' & -> & Hc'). by exists inner'.
Qed.

(** An opened descriptor is lost: if the future is dropped while the kernel opens the
    file, the completion is thrown away with the descriptor in it.  Whatever number
    the kernel gives the file, the driver is the same, and nobody can close it. *)
Theorem open_dropped_leaks (s : S) k d fd1 fd2 flags :
  st_wf s → st_content s !! k = Some (Ignored d) →
  ∃ s', (∀ fd, fd = fd1 ∨ fd = fd2 → Ops_complete s k (Ok_ fd) flags = Ret (s', [])) ∧
    st_content s' = delete k (st_content s).
Proof.
  intros Hwf Hk. destruct (st_get_Some s k _ Hwf Hk) as (r & Hget & Hread & _ & (s' & Hrem & _ & Hc)).
  exists s'. split; [|done]. intros fd _. unfold Ops_complete. rewrite Hget. cbn. unfold Lifecycle_complete. rewrite Hread. cbn.
  by rewrite Hrem.
Qed.

(** The whole life of an open: submitted, polled, completed with [fd], polled again
    ([completion_delivered] is what lies between); a path with a NUL is refused and
    nothing is submitted. *)
Theorem open_runs fuel path flags cx (inner : inner_t) :
  (has_nul path = true →
     open_poll fuel (OpenStart path flags) cx inner = Ret (Some (Ready (inl (mkIoError OtherKind None))), OpenDone, inner)) ∧
  (∀ f inner', open_poll fuel (OpenStart path flags) cx inner = Ret (Some Pending, f, inner') →
     has_nul path = false ∧ ∃ op inner0, f = OpenAwait op ∧
       UringInner_submit_with_data fuel inner (open_data path flags 438) = Ret (Some (inr op), inner0) ∧
       Op_poll will_wake inner0 op cx = Ret (Pending, inner', op)).
Proof.
  unfold open_poll, Op_open, cstr. destruct (has_nul path) eqn:Hn; (split; [|intros f inner']).
  - done.
  - by intros [=].
  - done.
  - intros H. split; [done|]. destruct (UringInner_submit_with_data _ _ _) as [[[[e|op]|] inner0]| |] eqn:Hs; try discriminate H.
    cbn in H. unfold open_await in H. destruct (Op_poll will_wake inner0 op cx) as [[[[c|] inner1] op1]| |] eqn:Hp; try discriminate H.
    cbn in H. injection H as <- <-. exists op1, inner0. split; [done|].
    assert (op1 = op) as ->; [|done].
    unfold Op_poll in Hp. destruct (op_data op); [|done]. cbn in Hp.
    destruct (UringInner_poll_op _ _ _ _) as [[[m|] i]| |]; try discriminate Hp; cbn in Hp; congruence.
Qed.
End file.

(** ** Witnesses *)

#[local] Existing Instance Slab.slab_store.
#[local] Existing Instance Slab.slab_store_laws.
#[local] Existing Instance SimRing.sim_uring.
#[local] Existing Instance SimRing.sim_uring_laws.
#[local] Existing Instance debug_build.

(** An operation is polled and dropped; the driver goes while the kernel still has it. *)
Definition demo_in_flight : list (event (W:=nat) (D:=nat)) := [EvSubmitOp 10%nat; EvPoll 0 5%nat; EvDrop 0].
Lemma driver_drop_frees_witness :
  UringInner_drop (R:=Slab.Ref) (w_inner (demo_result demo_in_flight)) !! 0 = Some 10%nat ∧
  0 ∈ normal (pending (uring (w_inner (demo_result demo_in_flight)))).
Proof.
  assert (0 ∈ normal (pending (uring (w_inner (demo_result demo_in_flight))))) as Hk.
  { apply (list_elem_of_lookup_2 _ 0%nat). vm_compute. reflexivity. }
  split; [|exact Hk].
  apply (driver_drop_frees (R:=Slab.Ref) Nat.eqb 62 10 demo_in_flight); [by apply demo_run_ok|vm_compute; reflexivity|].
  split; [exact Hk|]. vm_compute. reflexivity.
Defined.
Lemma open_dropped_leaks_witness :
  ∃ s', (∀ fd, fd = 7 ∨ fd = 8 →
    Ops_complete (R:=Slab.Ref) (W:=nat) (D:=nat) (ops (w_inner (demo_result demo_in_flight))) 0 (Ok_ fd) 0 = Ret (s', [])).
Proof.
  destruct (open_dropped_leaks (R:=Slab.Ref) (W:=nat) (ops (w_inner (demo_result demo_in_flight))) 0 (Some 10%nat) 7 8 0) as (s' & Hs & _).
  - pose proof (driver_never_ub (R:=Slab.Ref) Nat.eqb 62 10 demo_in_flight) as Hp.
    change (permits (demo_run demo_in_flight) (world_inv (R:=Slab.Ref))) in Hp. rewrite demo_run_ok in Hp by done. apply Hp.
  - assert (0 ∈ normal (pending (uring (w_inner (demo_result demo_in_flight))))) as Hk
      by (apply (list_elem_of_lookup_2 _ 0%nat); vm_compute; reflexivity).
    destruct (kernel_buffer_retained (R:=Slab.Ref) Nat.eqb 62 10 demo_in_flight (demo_result demo_in_flight) 0) as (d & Hd & [Ho|Hc]);
      [by apply demo_run_ok|exact Hk| |].
    + exfalso. destruct Ho as (o & op & Ho & _). revert Ho. vm_compute. discriminate.
    + rewrite Hc. f_equal. f_equal. revert Hd. vm_compute. congruence.
  - exists s'. exact Hs.
Defined.
