(* ===== verification/SimpleAttr.v ===== *)
(** * SimpleAttr: attributes and permissions of [SimpleFS] (src/fuse/src/filesystem.rs)

    The metadata record of an inode, the permission test [check_access], the
    set-id rules and the namespaces of extended attributes: the parts of the
    example file system that do not touch its storage. *)

From S2P Require Import Prelude Time Response.

Local Open Scope Z_scope.

(** ** Data *)

Inductive FileKind : Type := KFile | KDirectory | KSymlink.
#[export] Instance FileKind_eq_dec : EqDecision FileKind.
Proof. solve_decision. Defined.

(** [impl From<FileKind> for fuser::FileType]. *)
Definition FileType_from (kind : FileKind) : FileType :=
  match kind with KFile => RegularFile | KDirectory => Directory | KSymlink => Symlink end.

(** A timestamp is a pair of seconds ([i64]) and nanoseconds ([u32]). *)
Record InodeAttributes : Type := MkInode {
  inode : Z;
  open_file_handles : Z;
  size : Z;
  last_accessed : Z * Z;
  last_modified : Z * Z;
  last_metadata_changed : Z * Z;
  kind : FileKind;
  mode : Z;
  hardlinks : Z;
  uid : Z;
  gid : Z;
  xattrs : gmap (list Z) (list Z) }.

(** The assignments [attrs.field = value]. *)
Definition with_size v a := MkInode (inode a) (open_file_handles a) v (last_accessed a)
  (last_modified a) (last_metadata_changed a) (kind a) (mode a) (hardlinks a) (uid a) (gid a)
  (xattrs a).
Definition with_open_file_handles v a := MkInode (inode a) v (size a) (last_accessed a)
  (last_modified a) (last_metadata_changed a) (kind a) (mode a) (hardlinks a) (uid a) (gid a)
  (xattrs a).
Definition with_accessed v a := MkInode (inode a) (open_file_handles a) (size a) v
  (last_modified a) (last_metadata_changed a) (kind a) (mode a) (hardlinks a) (uid a) (gid a)
  (xattrs a).
Definition with_modified v a := MkInode (inode a) (open_file_handles a) (size a)
  (last_accessed a) v (last_metadata_changed a) (kind a) (mode a) (hardlinks a) (uid a) (gid a)
  (xattrs a).
Definition with_changed v a := MkInode (inode a) (open_file_handles a) (size a)
  (last_accessed a) (last_modified a) v (kind a) (mode a) (hardlinks a) (uid a) (gid a)
  (xattrs a).
Definition with_mode v a := MkInode (inode a) (open_file_handles a) (size a)
  (last_accessed a) (last_modified a) (last_metadata_changed a) (kind a) v (hardlinks a)
  (uid a) (gid a) (xattrs a).
Definition with_hardlinks v a := MkInode (inode a) (open_file_handles a) (size a)
  (last_accessed a) (last_modified a) (last_metadata_changed a) (kind a) (mode a) v
  (uid a) (gid a) (xattrs a).
Definition with_uid v a := MkInode (inode a) (open_file_handles a) (size a)
  (last_accessed a) (last_modified a) (last_metadata_changed a) (kind a) (mode a) (hardlinks a)
  v (gid a) (xattrs a).
Definition with_gid v a := MkInode (inode a) (open_file_handles a) (size a)
  (last_accessed a) (last_modified a) (last_metadata_changed a) (kind a) (mode a) (hardlinks a)
  (uid a) v (xattrs a).
Definition with_xattrs v a := MkInode (inode a) (open_file_handles a) (size a)
  (last_accessed a) (last_modified a) (last_metadata_changed a) (kind a) (mode a) (hardlinks a)
  (uid a) (gid a) v.

(** What a method reads of its [Request]. *)
Record Requester : Type := MkRequester { req_uid : Z; req_gid : Z; req_pid : Z }.

Definition BLOCK_SIZE : Z := 512.

Section attributes.
Context `{B : Build, C : Libc, F : LibcFs}.

(** [impl From<InodeAttributes> for fuser::FileAttr]. *)
Definition FileAttr_from (attrs : InodeAttributes) : outcome FileAttr :=
  total ← uadd 64 (size attrs) BLOCK_SIZE;
  total ← usub 64 total 1;
  atime ← system_time_from_time (last_accessed attrs).1 (last_accessed attrs).2;
  mtime ← system_time_from_time (last_modified attrs).1 (last_modified attrs).2;
  ctime ← system_time_from_time (last_metadata_changed attrs).1 (last_metadata_changed attrs).2;
  Ret {|
    attr_ino' := inode attrs;
    attr_size' := size attrs;
    attr_blocks' := total / BLOCK_SIZE;
    attr_atime' := atime;
    attr_mtime' := mtime;
    attr_ctime' := ctime;
    attr_crtime' := UNIX_EPOCH;
    attr_kind := FileType_from (kind attrs);
    attr_perm := mode attrs;
    attr_nlink' := hardlinks attrs;
    attr_uid' := uid attrs;
    attr_gid' := gid attrs;
    attr_rdev' := 0;
    attr_blksize' := BLOCK_SIZE;
    attr_flags' := 0 |}.

(** ** Permissions *)

Definition check_access (file_uid file_gid file_mode uid gid access_mask : Z) : bool :=
  if access_mask =? F_OK then true
  else if uid =? 0 then
    let access_mask := Z.land access_mask X_OK in
    let access_mask := access_mask - Z.land access_mask (Z.shiftr file_mode 6) in
    let access_mask := access_mask - Z.land access_mask (Z.shiftr file_mode 3) in
    let access_mask := access_mask - Z.land access_mask file_mode in
    access_mask =? 0
  else
    let access_mask :=
      if uid =? file_uid then access_mask - Z.land access_mask (Z.shiftr file_mode 6)
      else if gid =? file_gid then access_mask - Z.land access_mask (Z.shiftr file_mode 3)
      else access_mask - Z.land access_mask file_mode in
    access_mask =? 0.

(** The calls of [check_access] with the attributes of an inode and a request. *)
Definition access_to (attrs : InodeAttributes) (req : Requester) (mask : Z) : bool :=
  check_access (uid attrs) (gid attrs) (mode attrs) (req_uid req) (req_gid req) mask.

Definition clear_suid_sgid (attr : InodeAttributes) : InodeAttributes :=
  let attr := with_mode (Z.land (mode attr) (wrap 16 (Z.lnot S_ISUID))) attr in
  if negb (Z.land (mode attr) (wrap 16 S_IXGRP) =? 0)
  then with_mode (Z.land (mode attr) (wrap 16 (Z.lnot S_ISGID))) attr
  else attr.

Definition creation_gid (parent : InodeAttributes) (new_gid : Z) : Z :=
  if negb (Z.land (mode parent) (wrap 16 S_ISGID) =? 0) then gid parent else new_gid.

(** The sticky bit: only root, the owner of the directory and the owner of the
    file may remove or rename it. *)
Definition sticky_denies (parent attrs : InodeAttributes) (req : Requester) : bool :=
  negb (Z.land (mode parent) (wrap 16 S_ISVTX) =? 0) && negb (req_uid req =? 0) &&
  negb (req_uid req =? uid parent) && negb (req_uid req =? uid attrs).

(** ** Extended attributes *)

Inductive XattrNamespace : Type := Security | System | Trusted | User.

(** The byte strings of the source: user., system., trusted., security and
    system.posix_acl_access. *)
Definition user_prefix : list Z := [117; 115; 101; 114; 46].
Definition system_prefix : list Z := [115; 121; 115; 116; 101; 109; 46].
Definition trusted_prefix : list Z := [116; 114; 117; 115; 116; 101; 100; 46].
Definition security_prefix : list Z := [115; 101; 99; 117; 114; 105; 116; 121].
Definition posix_acl_access : list Z :=
  system_prefix ++ [112; 111; 115; 105; 120; 95; 97; 99; 108; 95; 97; 99; 99; 101; 115; 115].

(** [inl] is the error number. *)
Definition parse_xattr_namespace (key : list Z) : Z + XattrNamespace :=
  if decide (length key < length user_prefix)%nat then inl ENOTSUP
  else if decide (take (length user_prefix) key = user_prefix) then inr User
  else if decide (length key < length system_prefix)%nat then inl ENOTSUP
  else if decide (take (length system_prefix) key = system_prefix) then inr System
  else if decide (length key < length trusted_prefix)%nat then inl ENOTSUP
  else if decide (take (length trusted_prefix) key = trusted_prefix) then inr Trusted
  else if decide (length key < length security_prefix)%nat then inl ENOTSUP
  else if decide (take (length security_prefix) key = security_prefix) then inr Security
  else inl ENOTSUP.

(** [None] is [Ok(())]. *)
Definition xattr_access_check (key : list Z) (access_mask : Z) (attrs : InodeAttributes)
    (request : Requester) : option Z :=
  match parse_xattr_namespace key with
  | inl error => Some error
  | inr Security =>
      if negb (access_mask =? R_OK) && negb (req_uid request =? 0) then Some EPERM else None
  | inr Trusted => if negb (req_uid request =? 0) then Some EPERM else None
  | inr System =>
      if decide (key = posix_acl_access) then
        if negb (access_to attrs request access_mask) then Some EPERM else None
      else if negb (req_uid request =? 0) then Some EPERM else None
  | inr User => if negb (access_to attrs request access_mask) then Some EPERM else None
  end.

(** [as_file_kind]: [unimplemented!] panics. *)
Definition as_file_kind (mode : Z) : outcome FileKind :=
  let mode := Z.land mode S_IFMT in
  if mode =? S_IFREG then Ret KFile
  else if mode =? S_IFLNK then Ret KSymlink
  else if mode =? S_IFDIR then Ret KDirectory
  else Panic.
End attributes.

(** ** The permission test against POSIX *)

Inductive perm : Type := Execute | Write | Read.
#[export] Instance XattrNamespace_eq_dec : EqDecision XattrNamespace.
Proof. solve_decision. Defined.
#[export] Instance perm_eq_dec : EqDecision perm.
Proof. solve_decision. Defined.
Definition perm_bit (p : perm) : Z := match p with Execute => 0 | Write => 1 | Read => 2 end.

(** The class of a user: the position of its three permission bits. *)
Definition user_class (file_uid file_gid uid gid : Z) : Z :=
  if uid =? file_uid then 6 else if gid =? file_gid then 3 else 0.

(** POSIX file access permission: root reads and writes everything and executes
    what anyone may execute; another user has the bits of its class only. *)
Definition posix_permits (file_uid file_gid file_mode uid gid : Z) (p : perm) : bool :=
  if uid =? 0 then
    match p with
    | Execute => Z.testbit file_mode 6 || Z.testbit file_mode 3 || Z.testbit file_mode 0
    | _ => true
    end
  else Z.testbit file_mode (user_class file_uid file_gid uid gid + perm_bit p).

Definition asks (mask : Z) (p : perm) : bool := Z.testbit mask (perm_bit p).

Lemma sub_land_ldiff m x : m - Z.land m x = Z.ldiff m x.
Proof.
  rewrite Z.sub_nocarry_ldiff.
  - apply Z.bits_inj'. intros n Hn. rewrite !Z.ldiff_spec, Z.land_spec.
    by destruct (Z.testbit m n), (Z.testbit x n).
  - apply Z.bits_inj'. intros n Hn. rewrite Z.ldiff_spec, Z.land_spec, Z.bits_0.
    by destruct (Z.testbit m n), (Z.testbit x n).
Qed.

(** A mask of three bits is covered when each of its bits is. *)
Lemma ldiff_mask_0 m x :
  0 ≤ m < 8 →
  (Z.ldiff m x =? 0) = true ↔ ∀ p, asks m p = true → Z.testbit x (perm_bit p) = true.
Proof.
  intros Hm. rewrite Z.eqb_eq. split.
  - intros H p Hp. assert (Z.testbit (Z.ldiff m x) (perm_bit p) = false) as E
      by (rewrite H; apply Z.bits_0).
    rewrite Z.ldiff_spec in E. unfold asks in Hp. rewrite Hp in E.
    by destruct (Z.testbit x (perm_bit p)).
  - intros H. apply Z.bits_inj'. intros n Hn. rewrite Z.ldiff_spec, Z.bits_0.
    destruct (Z.testbit m n) eqn:E; [|done]. simpl.
    assert (n < 3) as Hn3.
    { destruct (decide (n < 3)); [done|]. exfalso.
      destruct (decide (m = 0)) as [-> |]; [by rewrite Z.bits_0 in E|].
      rewrite Z.bits_above_log2 in E; [done|lia|].
      assert (Z.log2 m < 3); [|lia]. apply Z.log2_lt_pow2; lia. }
    assert (n = 0 ∨ n = 1 ∨ n = 2) as [-> | [-> | ->]] by lia.
    + by apply negb_false_iff, (H Execute).
    + by apply negb_false_iff, (H Write).
    + by apply negb_false_iff, (H Read).
Qed.

Section access.
Context `{FL : LibcFsLaws}.

End access.

(** ** Extended attributes *)

Definition namespace_prefix (ns : XattrNamespace) : list Z :=
  match ns with
  | User => user_prefix
  | System => system_prefix
  | Trusted => trusted_prefix
  | Security => security_prefix
  end.

Lemma take_prefix (p key : list Z) :
  take (length p) key = p ↔ p `prefix_of` key.
Proof.
  split.
  - intros <-. apply prefix_take.
  - intros [k ->]. by rewrite take_app_length.
Qed.
Lemma prefix_of_head (x y : Z) p q key :
  x :: p `prefix_of` key → y :: q `prefix_of` key → x = y.
Proof. intros [k ->] [k' [=]]. done. Qed.

(** The first bytes of the prefixes differ, but for those of system. and
    security, which differ in the second. *)
Lemma namespace_prefix_inj key ns ns' :
  namespace_prefix ns `prefix_of` key → namespace_prefix ns' `prefix_of` key → ns = ns'.
Proof.
  intros [k ->] [k' E]. destruct ns, ns'; try done; simpl in E; discriminate E.
Qed.

Section xattr.
Context `{FL : LibcFsLaws}.

(** The length tests of the parser lose nothing: a key too short for one prefix
    is too short for the later ones. *)
Lemma parse_xattr_namespace_spec key ns :
  parse_xattr_namespace key = inr ns ↔ namespace_prefix ns `prefix_of` key.
Proof.
  assert (∀ n, take (length (namespace_prefix n)) key = namespace_prefix n →
            inr n = inr ns :> Z + _ ↔ namespace_prefix ns `prefix_of` key) as Hhit.
  { intros n Hn%take_prefix. split; [by intros [= ->]|]. intros Hn'. f_equal.
    by eapply namespace_prefix_inj. }
  assert (∀ n, take (length (namespace_prefix n)) key ≠ namespace_prefix n →
            ns = n → ¬ namespace_prefix ns `prefix_of` key) as Hmiss.
  { intros n Hn -> Hp%take_prefix. done. }
  assert (∀ n, length key < n → n ≤ length (namespace_prefix ns) →
            inl ENOTSUP = inr ns ↔ namespace_prefix ns `prefix_of` key)%nat as Hshort.
  { intros n Hk Hn. split; [done|]. intros Hp%prefix_length. lia. }
  unfold parse_xattr_namespace.
  case_decide as H1; [apply (Hshort _ H1); destruct ns; apply Nat.leb_le; reflexivity|].
  case_decide as H2; [by apply (Hhit User)|].
  case_decide as H3.
  { destruct (decide (ns = User)) as [-> |]; [split; [done|by intros ?%(Hmiss User)]|].
    apply (Hshort _ H3). destruct ns; [..|done]; apply Nat.leb_le; reflexivity. }
  case_decide as H4; [by apply (Hhit System)|].
  case_decide as H5.
  { destruct ns; [apply (Hshort _ H5), Nat.leb_le; reflexivity
      |split; [done|by intros ?%(Hmiss System)]
      |apply (Hshort _ H5), Nat.leb_le; reflexivity
      |split; [done|by intros ?%(Hmiss User)]]. }
  case_decide as H6; [by apply (Hhit Trusted)|].
  rewrite decide_False by (by apply H5).
  case_decide as H8; [by apply (Hhit Security)|].
  split; [done|]. destruct ns; [by intros ?%(Hmiss Security)|by intros ?%(Hmiss System)
    |by intros ?%(Hmiss Trusted)|by intros ?%(Hmiss User)].
Qed.

(** Reference: what a user other than root may do with an attribute. *)
Lemma xattr_access_check_user key mask a r :
  req_uid r ≠ 0 →
  xattr_access_check key mask a r = None ↔
  (security_prefix `prefix_of` key ∧ mask = R_OK) ∨
  ((user_prefix `prefix_of` key ∨ key = posix_acl_access) ∧ access_to a r mask = true).
Proof.
  intros Hu. unfold xattr_access_check.
  assert ((req_uid r =? 0) = false) as -> by by apply Z.eqb_neq.
  assert (posix_acl_access = posix_acl_access ∧ system_prefix `prefix_of` posix_acl_access)
    as [_ Hacl] by (split; [done|by eexists]).
  pose proof (parse_xattr_namespace_spec key) as Hp.
  pose proof (namespace_prefix_inj key) as Hinj.
  destruct (parse_xattr_namespace key) as [e|ns].
  - split; [done|]. intros [[H _]|[[H| ->] _]].
    + by apply (Hp Security) in H.
    + by apply (Hp User) in H.
    + by apply (Hp System) in Hacl.
  - assert (namespace_prefix ns `prefix_of` key) as Hns by by apply Hp.
    assert (∀ n, namespace_prefix n `prefix_of` key → ns = n) as Hn by eauto.
    destruct ns; simpl.
    + destruct (Z.eqb_spec mask R_OK); simpl; (split; [|]); try done; eauto.
      intros [[_ ?]|[[H| ->] _]]; [done|by apply (Hn User) in H|by apply (Hn System) in Hacl].
    + case_decide as Hk.
      * destruct (access_to a r mask); simpl; (split; [|]); try done; eauto.
        intros [[H _]|[_ ?]]; [by apply (Hn Security) in H|done].
      * split; [done|]. intros [[H _]|[[H|H] _]];
          [by apply (Hn Security) in H|by apply (Hn User) in H|done].
    + split; [done|]. intros [[H _]|[[H| ->] _]];
        [by apply (Hn Security) in H|by apply (Hn User) in H|by apply (Hn System) in Hacl].
    + destruct (access_to a r mask); simpl; (split; [|]); try done; eauto.
      intros [[H _]|[_ ?]]; [by apply (Hn Security) in H|done].
Qed.
End xattr.

