(* ===== verification/SimpleFS.v ===== *)
(** * SimpleFS: the example file system (src/fuse/src/filesystem.rs)

    The storage of [SimpleFS] and its implementation of every method of the trait
    [Filesystem].  The file system keeps each inode in a file of
    [data_dir/inodes], its content in a file of [data_dir/contents], and the last
    inode number in [data_dir/superblock].

    The state holds these files: an inode file as the attributes it serialises
    (only [write_inode] writes it), a content file as its bytes, because regular
    files, link targets and serialised directories share the directory [contents].
    [bincode] is a parameter with the law that it reads back what it wrote; so are
    the clock, [fallocate64] and the group list of /proc.  The host's files do not
    fail (no full disk, no missing [data_dir]). *)

From stdpp Require Import sorting.
From S2P Require Import Prelude KernelInterface Time Operation Response Session SimpleAttr.

Local Open Scope Z_scope.

#[global] Arguments FUSE_ROOT_ID : simpl never.
Definition MAX_NAME_LENGTH : Z := 255.
Definition MAX_FILE_SIZE : Z := 1024 * 1024 * 1024 * 1024.
Definition FILE_HANDLE_READ_BIT : Z := Z.shiftl 1 63.
Definition FILE_HANDLE_WRITE_BIT : Z := Z.shiftl 1 62.
Definition FMODE_EXEC : Z := 32.

(** ** [BTreeMap] *)

(** The order of [Vec<u8>]. *)
Fixpoint bytes_leb (a b : list Z) : bool :=
  match a, b with
  | [], _ => true
  | _ :: _, [] => false
  | x :: a, y :: b => (x <? y) || ((x =? y) && bytes_leb a b)
  end.
Definition entry_le {A} (p q : list Z * A) : Prop := bytes_leb p.1 q.1 = true.
#[export] Instance entry_le_dec {A} : RelDecision (@entry_le A).
Proof. intros p q. unfold entry_le. apply _. Defined.

(** Iteration goes by increasing key. *)
Definition BTreeMap_iter {A} (m : gmap (list Z) A) : list (list Z * A) :=
  merge_sort entry_le (map_to_list m).

(** [DirectoryDescriptor]. *)
Abbreviation Directory_ := (gmap (list Z) (Z * FileKind)).

(** ** What the code calls *)

Class Host := {
  (** [bincode::serialize_into] and [deserialize_from] of a directory *)
  serialize : Directory_ → list Z;
  deserialize : list Z → option Directory_;
  (** the results of [SystemTime::now()] *)
  now : nat → SystemTime;
  (** the content of a file after [fallocate64(fd, mode, offset, length)] *)
  fallocate64 : list Z → Z → Z → Z → list Z;
  (** the lines of /proc/<pid>/task/<pid>/status *)
  proc_status : Z → option (list (list Z)) }.

(** [bincode] reads back what it wrote; the clock shows a time after 1970. *)
Class HostLaws (H : Host) : Prop := {
  deserialize_serialize d : deserialize (serialize d) = Some d;
  now_bounds n : 0 ≤ tv_sec (now n) < 2 ^ 63 ∧ 0 ≤ tv_nsec (now n) < NANOS_PER_SEC }.

(** ** State *)

Record SimpleFS : Type := MkSimpleFS {
  superblock : option Z;
  inodes : gmap Z InodeAttributes;
  contents : gmap Z (list Z);
  next_file_handle : Z;
  direct_io : bool;
  suid_support : bool;
  clock : nat }.

Definition set_superblock v st := MkSimpleFS v (inodes st) (contents st)
  (next_file_handle st) (direct_io st) (suid_support st) (clock st).
Definition set_inodes f st := MkSimpleFS (superblock st) (f (inodes st)) (contents st)
  (next_file_handle st) (direct_io st) (suid_support st) (clock st).
Definition set_contents f st := MkSimpleFS (superblock st) (inodes st) (f (contents st))
  (next_file_handle st) (direct_io st) (suid_support st) (clock st).
Definition set_next_file_handle v st := MkSimpleFS (superblock st) (inodes st) (contents st)
  v (direct_io st) (suid_support st) (clock st).
Definition set_clock v st := MkSimpleFS (superblock st) (inodes st) (contents st)
  (next_file_handle st) (direct_io st) (suid_support st) v.

(** [SimpleFS::new] over an empty [data_dir]. *)
Definition SimpleFS_new (direct_io suid_support : bool) : SimpleFS :=
  MkSimpleFS None ∅ ∅ 1 direct_io suid_support 0.

(** What a method sends through its reply object. *)
Inductive FsReply : Type :=
  | RError (errno : Z)
  | ROk
  | REntry (attr : FileAttr)
  | RAttr (attr : FileAttr)
  | RData (data : list Z)
  | ROpened (fh open_flags : Z)
  | RWritten (n : Z)
  | RStatfs (blocks bfree bavail files ffree bsize namelen frsize : Z)
  | RXattrSize (n : Z)
  | RCreated (attr : FileAttr) (fh flags : Z)
  | RDirectory (list : EntListBuf)
  | RNone.

Section simplefs.
Context `{B : Build, C : Libc, F : LibcFs, H : Host}.

Abbreviation M := (stateM SimpleFS).

(** An early return: with [Err(code)] the method replies the error ([←!]) or
    propagates it ([←?]). *)
Definition or_reply {A} (m : M (Z + A)) (k : A → M FsReply) : M FsReply :=
  r ← m; match r with inl error_code => mret (RError error_code) | inr a => k a end.
Definition or_err {A D} (m : M (Z + A)) (k : A → M (Z + D)) : M (Z + D) :=
  r ← m; match r with inl error_code => mret (inl error_code) | inr a => k a end.
#[local] Notation "x '←!' m ; k" := (or_reply m (λ x, k))
  (at level 20, m at level 100, k at level 200, right associativity).
#[local] Notation "x '←?' m ; k" := (or_err m (λ x, k))
  (at level 20, m at level 100, k at level 200, right associativity).
Definition unwrap_result {A} (m : M (Z + A)) : M A :=
  r ← m; match r with inl _ => panic | inr a => mret a end.

Definition time_now : M (Z * Z) :=
  n ← gets clock;
  modify (set_clock (S n));;
  lift (time_from_system_time (now n)).

(** The pairs of assignments [last_modified = time_now()] and
    [last_metadata_changed = time_now()], in the two orders of the source. *)
Definition stamp_modified_changed (a : InodeAttributes) : M InodeAttributes :=
  t ← time_now; t' ← time_now; mret (with_changed t' (with_modified t a)).
Definition stamp_changed_modified (a : InodeAttributes) : M InodeAttributes :=
  t ← time_now; t' ← time_now; mret (with_modified t' (with_changed t a)).
Definition stamp_changed (a : InodeAttributes) : M InodeAttributes :=
  t ← time_now; mret (with_changed t a).

(** ** Helpers *)

Definition creation_mode (mode : Z) : M Z :=
  suid ← gets suid_support;
  mret (if negb suid then wrap 16 (Z.land mode (wrap 32 (Z.lnot (Z.lor S_ISUID S_ISGID))))
        else wrap 16 mode).

Definition allocate_next_inode : M Z :=
  sb ← gets superblock;
  let current_inode := match sb with Some n => n | None => FUSE_ROOT_ID end in
  next ← lift (uadd 64 current_inode 1);
  modify (set_superblock (Some next));;
  lift (uadd 64 current_inode 1).

Definition allocate_next_file_handle (read write : bool) : M Z :=
  fh ← gets next_file_handle;
  modify (set_next_file_handle (wrap 64 (fh + 1)));;
  lift (assert_ (fh <? FILE_HANDLE_WRITE_BIT));;
  let fh := if read then Z.lor fh FILE_HANDLE_READ_BIT else fh in
  let fh := if write then Z.lor fh FILE_HANDLE_WRITE_BIT else fh in
  mret fh.

Definition check_file_handle_read (file_handle : Z) : bool :=
  negb (Z.land file_handle FILE_HANDLE_READ_BIT =? 0).
Definition check_file_handle_write (file_handle : Z) : bool :=
  negb (Z.land file_handle FILE_HANDLE_WRITE_BIT =? 0).

(** Opening a content file for reading, or for writing without [create]. *)
Definition open_content (i : Z) : M (option (list Z)) := gets (λ st, contents st !! i).
(** Opening with [create] and [truncate] and writing the bytes. *)
Definition write_content (i : Z) (data : list Z) : M unit :=
  modify (set_contents <[i := data]>).

Definition get_directory_content (i : Z) : M (Z + Directory_) :=
  file ← open_content i;
  match file with
  | Some bytes => entries ← lift (unwrap (deserialize bytes)); mret (inr entries)
  | None => mret (inl ENOENT)
  end.

Definition write_directory_content (i : Z) (entries : Directory_) : M unit :=
  write_content i (serialize entries).

Definition get_inode (i : Z) : M (Z + InodeAttributes) :=
  gets (λ st, match inodes st !! i with Some a => inr a | None => inl ENOENT end).

Definition write_inode (a : InodeAttributes) : M unit :=
  modify (set_inodes <[inode a := a]>).

(** [fs::remove_file(path).unwrap()] of both files. *)
Definition gc_inode (a : InodeAttributes) : M bool :=
  if (hardlinks a =? 0) && (open_file_handles a =? 0) then
    inode_files ← gets inodes;
    lift (unwrap (inode_files !! inode a));;
    modify (set_inodes (delete (inode a)));;
    content_files ← gets contents;
    lift (unwrap (content_files !! inode a));;
    modify (set_contents (delete (inode a)));;
    mret true
  else mret false.

Definition truncate (i new_length u g : Z) : M (Z + InodeAttributes) :=
  if MAX_FILE_SIZE <? new_length then mret (inl EFBIG) else
  attrs ←? get_inode i;
  if negb (check_access (uid attrs) (gid attrs) (mode attrs) u g W_OK) then mret (inl EACCES) else
  file ← open_content i;
  file ← lift (unwrap file);
  write_content i (resize (Z.to_nat new_length) 0 file);;
  attrs ← stamp_changed_modified (with_size new_length attrs);
  let attrs := clear_suid_sgid attrs in
  write_inode attrs;;
  mret (inr attrs).

Definition lookup_name (parent : Z) (name : OsStr) : M (Z + InodeAttributes) :=
  entries ←? get_directory_content parent;
  match entries !! name with
  | Some (i, _) => get_inode i
  | None => mret (inl ENOENT)
  end.

Definition is_ok {A} (r : Z + A) : bool := match r with inr _ => true | inl _ => false end.

Definition insert_link (req : Requester) (parent : Z) (name : OsStr) (i : Z) (k : FileKind)
    : M (Z + unit) :=
  found ← lookup_name parent name;
  if is_ok found then mret (inl EEXIST) else
  parent_attrs ←? get_inode parent;
  if negb (access_to parent_attrs req W_OK) then mret (inl EACCES) else
  parent_attrs ← stamp_modified_changed parent_attrs;
  write_inode parent_attrs;;
  entries ← unwrap_result (get_directory_content parent);
  write_directory_content parent (<[name := (i, k)]> entries);;
  mret (inr tt).

(** [entries.insert] and [entries.remove] between reading and writing a
    directory, which has to exist. *)
Definition update_directory (i : Z) (f : Directory_ → Directory_) : M unit :=
  entries ← unwrap_result (get_directory_content i);
  write_directory_content i (f entries).

Definition dot : list Z := [46].
Definition dotdot : list Z := [46; 46].
(** The entries of a new directory. *)
Definition new_directory (i parent : Z) : Directory_ :=
  <[dotdot := (parent, KDirectory)]> (<[dot := (i, KDirectory)]> ∅).

(** The literal of a new inode: the three times are taken in order, then the
    mode. *)
Definition new_attributes (i handles sz : Z) (k : M FileKind) (m : M Z) (links u g : Z)
    : M InodeAttributes :=
  accessed ← time_now;
  modified ← time_now;
  changed ← time_now;
  k ← k;
  m ← m;
  mret (MkInode i handles sz accessed modified changed k m links u g ∅).

Definition reply_entry (a : InodeAttributes) : M FsReply :=
  attr ← lift (FileAttr_from a); mret (REntry attr).
Definition reply_attr (a : InodeAttributes) : M FsReply :=
  attr ← lift (FileAttr_from a); mret (RAttr attr).

(** ** The methods *)

Definition SimpleFS_init : M unit :=
  root ← get_inode FUSE_ROOT_ID;
  if is_ok root then mret tt else
  root ← new_attributes FUSE_ROOT_ID 0 0 (mret KDirectory) (mret 511) 2 0 0;
  write_inode root;;
  write_directory_content FUSE_ROOT_ID (<[dot := (FUSE_ROOT_ID, KDirectory)]> ∅).

Definition SimpleFS_lookup (req : Requester) (parent : Z) (name : OsStr) : M FsReply :=
  if MAX_NAME_LENGTH <? Z.of_nat (length name) then mret (RError ENAMETOOLONG) else
  parent_attrs ← unwrap_result (get_inode parent);
  if negb (access_to parent_attrs req X_OK) then mret (RError EACCES) else
  attrs ←! lookup_name parent name;
  reply_entry attrs.

Definition SimpleFS_getattr (i : Z) : M FsReply :=
  attrs ←! get_inode i;
  reply_attr attrs.

(** [get_groups]: the line that starts with Groups: of the process's status. *)
Definition groups_prefix : list Z := [71; 114; 111; 117; 112; 115; 58].
Fixpoint split_spaces (word line : list Z) : list (list Z) :=
  match line with
  | [] => [word]
  | c :: line => if c =? 32 then word :: split_spaces [] line else split_spaces (word ++ [c]) line
  end.
(** The ASCII characters [str::trim] removes. *)
Definition is_space (c : Z) : bool := (c =? 32) || ((9 <=? c) && (c <=? 13)).
Fixpoint parse_digits (acc : Z) (w : list Z) : outcome Z :=
  match w with
  | [] => Ret acc
  | c :: w =>
      if (48 <=? c) && (c <=? 57) && (10 * acc + (c - 48) <? 2 ^ 32)
      then parse_digits (10 * acc + (c - 48)) w else Panic
  end.
(** [x.parse::<u32>().unwrap()], which allows a leading plus sign. *)
Definition parse_u32 (w : list Z) : outcome Z :=
  match w with
  | [] => Panic
  | c :: w' => if (c =? 43) && negb (bool_decide (w' = [])) then parse_digits 0 w'
               else parse_digits 0 w
  end.
Definition get_groups (pid : Z) : outcome (list Z) :=
  lines ← unwrap (proc_status pid);
  match list_find (λ line, groups_prefix `prefix_of` line) lines with
  | Some (_, line) =>
      if decide (length line < length groups_prefix + 1)%nat then Panic else
      let words := split_spaces [] (drop (length groups_prefix + 1) line) in
      mapM parse_u32 (filter (λ w, ¬ forallb is_space w) words)
  | None => Ret []
  end.

(** [get_groups(req.pid()).contains(&g)], evaluated only when [ask] holds. *)
Definition in_groups (ask : bool) (pid g : Z) : M bool :=
  if ask then groups ← lift (get_groups pid); mret (bool_decide (g ∈ groups)) else mret false.

Definition setattr_chmod (req : Requester) (attrs : InodeAttributes) (new_mode : Z) : M FsReply :=
  if negb (req_uid req =? 0) && negb (req_uid req =? uid attrs) then mret (RError EPERM) else
  let outside := negb (req_uid req =? 0) && negb (req_gid req =? gid attrs) in
  member ← in_groups outside (req_pid req) (gid attrs);
  let attrs :=
    if outside && negb member
    then with_mode (wrap 16 (Z.land new_mode (wrap 32 (Z.lnot S_ISGID)))) attrs
    else with_mode (wrap 16 new_mode) attrs in
  attrs ← stamp_changed attrs;
  write_inode attrs;;
  reply_attr attrs.

Definition setattr_chown (req : Requester) (attrs : InodeAttributes) (new_uid new_gid : option Z)
    : M FsReply :=
  gid_refused ← match new_gid with
    | Some g =>
        member ← in_groups (negb (req_uid req =? 0)) (req_pid req) g;
        mret (negb (req_uid req =? 0) && negb member)
    | None => mret false
    end;
  if (gid_refused : bool) then mret (RError EPERM) else
  let uid_refused := match new_uid with
    | Some u => negb (req_uid req =? 0) && negb ((u =? uid attrs) && (req_uid req =? uid attrs))
    | None => false
    end in
  if uid_refused then mret (RError EPERM) else
  if bool_decide (is_Some new_gid) && negb (req_uid req =? 0) && negb (req_uid req =? uid attrs)
  then mret (RError EPERM) else
  let attrs :=
    if negb (Z.land (mode attrs) (wrap 16 (Z.lor (Z.lor S_IXUSR S_IXGRP) S_IXOTH)) =? 0)
    then clear_suid_sgid attrs else attrs in
  let attrs := match new_uid with
    | Some u =>
        let attrs := with_uid u attrs in
        with_mode (Z.land (mode attrs) (wrap 16 (Z.lnot S_ISUID))) attrs
    | None => attrs
    end in
  let attrs := match new_gid with
    | Some g =>
        let attrs := with_gid g attrs in
        if negb (req_uid req =? 0)
        then with_mode (Z.land (mode attrs) (wrap 16 (Z.lnot S_ISGID))) attrs else attrs
    | None => attrs
    end in
  attrs ← stamp_changed attrs;
  write_inode attrs;;
  reply_attr attrs.

Definition setattr_truncate (req : Requester) (i sz : Z) (fh : option Z)
    : M (Z + InodeAttributes) :=
  match fh with
  | Some handle =>
      if check_file_handle_write handle then truncate i sz 0 0 else mret (inl EACCES)
  | None => truncate i sz (req_uid req) (req_gid req)
  end.

(** The two blocks of utimens differ in the field they set. *)
Definition setattr_time (req : Requester) (now : Z * Z) (t : TimeOrNow)
    (set : Z * Z → InodeAttributes → InodeAttributes) (attrs : InodeAttributes)
    : M (Z + InodeAttributes) :=
  let is_now := match t with Now => true | SpecificTime _ => false end in
  if negb (uid attrs =? req_uid req) && negb (req_uid req =? 0) && negb is_now
  then mret (inl EPERM) else
  if negb (uid attrs =? req_uid req) && negb (access_to attrs req W_OK)
  then mret (inl EACCES) else
  t ← match t with SpecificTime time => lift (time_from_system_time time) | Now => mret now end;
  let attrs := with_changed now (set t attrs) in
  write_inode attrs;;
  mret (inr attrs).

Definition SimpleFS_setattr (req : Requester) (i : Z) (new_mode new_uid new_gid new_size : option Z)
    (atime mtime : option TimeOrNow) (fh : option Z) : M FsReply :=
  attrs ←! get_inode i;
  match new_mode with
  | Some m => setattr_chmod req attrs m
  | None =>
    if bool_decide (is_Some new_uid) || bool_decide (is_Some new_gid)
    then setattr_chown req attrs new_uid new_gid
    else
      _ ←! match new_size with
           | Some sz => setattr_truncate req i sz fh
           | None => mret (inr attrs)
           end;
      now ← time_now;
      attrs ←! match atime with
               | Some t => setattr_time req now t with_accessed attrs
               | None => mret (inr attrs)
               end;
      attrs ←! match mtime with
               | Some t => setattr_time req now t with_modified attrs
               | None => mret (inr attrs)
               end;
      attrs ← unwrap_result (get_inode i);
      reply_attr attrs
  end.

Definition SimpleFS_readlink (i : Z) : M FsReply :=
  file ← open_content i;
  match file with
  | Some bytes => mret (RData bytes)
  | None => mret (RError ENOENT)
  end.

(** The checks that [mknod], [mkdir] and [create] share, up to the new times of
    the parent. *)
Definition prepare_parent (req : Requester) (parent : Z) : M (Z + InodeAttributes) :=
  parent_attrs ←? get_inode parent;
  if negb (access_to parent_attrs req W_OK) then mret (inl EACCES) else
  parent_attrs ← stamp_modified_changed parent_attrs;
  write_inode parent_attrs;;
  mret (inr parent_attrs).

(** A user other than root creates no set-id files. *)
Definition user_mode (req : Requester) (mode : Z) : Z :=
  if negb (req_uid req =? 0) then Z.land mode (wrap 32 (Z.lnot (Z.lor S_ISUID S_ISGID)))
  else mode.

(** What [mknod] and [create] do after the checks. *)
Definition make_node (req : Requester) (parent : Z) (name : OsStr) (mode handles : Z)
    (parent_attrs : InodeAttributes) : M InodeAttributes :=
  let mode := user_mode req mode in
  i ← allocate_next_inode;
  attrs ← new_attributes i handles 0 (lift (as_file_kind mode)) (creation_mode mode) 1
            (req_uid req) (creation_gid parent_attrs (req_gid req));
  write_inode attrs;;
  write_content i [];;
  k ← lift (as_file_kind mode);
  (if decide (k = KDirectory) then write_directory_content i (new_directory i parent)
   else mret tt);;
  update_directory parent <[name := (i, kind attrs)]>;;
  mret attrs.

Definition SimpleFS_mknod (req : Requester) (parent : Z) (name : OsStr) (mode : Z) : M FsReply :=
  let file_type := Z.land mode S_IFMT in
  if negb (file_type =? S_IFREG) && negb (file_type =? S_IFLNK) && negb (file_type =? S_IFDIR)
  then mret (RError ENOSYS) else
  found ← lookup_name parent name;
  if is_ok found then mret (RError EEXIST) else
  parent_attrs ←! prepare_parent req parent;
  attrs ← make_node req parent name mode 0 parent_attrs;
  reply_entry attrs.

Definition SimpleFS_mkdir (req : Requester) (parent : Z) (name : OsStr) (mode : Z) : M FsReply :=
  found ← lookup_name parent name;
  if is_ok found then mret (RError EEXIST) else
  parent_attrs ←! prepare_parent req parent;
  let mode := user_mode req mode in
  let mode := if negb (Z.land (SimpleAttr.mode parent_attrs) (wrap 16 S_ISGID) =? 0)
              then Z.lor mode S_ISGID else mode in
  i ← allocate_next_inode;
  attrs ← new_attributes i 0 BLOCK_SIZE (mret KDirectory) (creation_mode mode) 2
            (req_uid req) (creation_gid parent_attrs (req_gid req));
  write_inode attrs;;
  write_directory_content i (new_directory i parent);;
  update_directory parent <[name := (i, KDirectory)]>;;
  reply_entry attrs.

(** The end of [unlink] and [rmdir]: the count of the removed inode becomes
    [links]. *)
Definition remove_entry (parent : Z) (name : OsStr) (parent_attrs attrs : InodeAttributes)
    (links : M Z) : M FsReply :=
  parent_attrs ← stamp_changed_modified parent_attrs;
  write_inode parent_attrs;;
  n ← links;
  attrs ← stamp_changed (with_hardlinks n attrs);
  write_inode attrs;;
  _ ← gc_inode attrs;
  update_directory parent (delete name);;
  mret ROk.

Definition SimpleFS_unlink (req : Requester) (parent : Z) (name : OsStr) : M FsReply :=
  attrs ←! lookup_name parent name;
  parent_attrs ←! get_inode parent;
  if negb (access_to parent_attrs req W_OK) then mret (RError EACCES) else
  if sticky_denies parent_attrs attrs req then mret (RError EACCES) else
  remove_entry parent name parent_attrs attrs (lift (usub 32 (hardlinks attrs) 1)).

Definition SimpleFS_rmdir (req : Requester) (parent : Z) (name : OsStr) : M FsReply :=
  attrs ←! lookup_name parent name;
  parent_attrs ←! get_inode parent;
  entries ← unwrap_result (get_directory_content (inode attrs));
  if decide (2 < base.size entries)%nat then mret (RError ENOTEMPTY) else
  if negb (access_to parent_attrs req W_OK) then mret (RError EACCES) else
  if sticky_denies parent_attrs attrs req then mret (RError EACCES) else
  remove_entry parent name parent_attrs attrs (mret 0).

Definition SimpleFS_symlink (req : Requester) (parent : Z) (name : OsStr) (link : Path)
    : M FsReply :=
  parent_attrs ←! prepare_parent req parent;
  i ← allocate_next_inode;
  attrs ← new_attributes i 0 (Z.of_nat (length link)) (mret KSymlink) (mret 511) 1
            (req_uid req) (creation_gid parent_attrs (req_gid req));
  _ ←! insert_link req parent name i KSymlink;
  write_inode attrs;;
  write_content i link;;
  reply_entry attrs.

(** [RENAME_EXCHANGE]: the two entries change places. *)
Definition rename_exchange (parent : Z) (name : OsStr) (new_parent : Z) (new_name : OsStr)
    (inode_attrs parent_attrs new_parent_attrs : InodeAttributes) : M FsReply :=
  new_inode_attrs ←! lookup_name new_parent new_name;
  update_directory new_parent <[new_name := (inode inode_attrs, kind inode_attrs)]>;;
  update_directory parent <[name := (inode new_inode_attrs, kind new_inode_attrs)]>;;
  parent_attrs ← stamp_changed_modified parent_attrs;
  write_inode parent_attrs;;
  new_parent_attrs ← stamp_changed_modified new_parent_attrs;
  write_inode new_parent_attrs;;
  inode_attrs ← stamp_changed inode_attrs;
  write_inode inode_attrs;;
  new_inode_attrs ← stamp_changed new_inode_attrs;
  write_inode new_inode_attrs;;
  (if decide (kind inode_attrs = KDirectory)
   then update_directory (inode inode_attrs) <[dotdot := (new_parent, KDirectory)]>
   else mret tt);;
  (if decide (kind new_inode_attrs = KDirectory)
   then update_directory (inode new_inode_attrs) <[dotdot := (parent, KDirectory)]>
   else mret tt);;
  mret ROk.

(** The target of a rename, if it exists, loses its entry and a link. *)
Definition rename_replace (new_parent : Z) (new_name : OsStr) : M unit :=
  existing ← lookup_name new_parent new_name;
  match existing with
  | inl _ => mret tt
  | inr existing =>
      update_directory new_parent (delete new_name);;
      n ← (if decide (kind existing = KDirectory) then mret 0
           else lift (usub 32 (hardlinks existing) 1));
      existing ← stamp_changed (with_hardlinks n existing);
      write_inode existing;;
      _ ← gc_inode existing;
      mret tt
  end.

(** The plain rename, after the checks. *)
Definition rename_move (parent : Z) (name : OsStr) (new_parent : Z) (new_name : OsStr)
    (inode_attrs parent_attrs new_parent_attrs : InodeAttributes) : M FsReply :=
  rename_replace new_parent new_name;;
  update_directory parent (delete name);;
  update_directory new_parent <[new_name := (inode inode_attrs, kind inode_attrs)]>;;
  parent_attrs ← stamp_changed_modified parent_attrs;
  write_inode parent_attrs;;
  new_parent_attrs ← stamp_changed_modified new_parent_attrs;
  write_inode new_parent_attrs;;
  inode_attrs ← stamp_changed inode_attrs;
  write_inode inode_attrs;;
  (if decide (kind inode_attrs = KDirectory)
   then update_directory (inode inode_attrs) <[dotdot := (new_parent, KDirectory)]>
   else mret tt);;
  mret ROk.

(** Only an empty directory is replaced. *)
Definition rename_not_empty (new_parent : Z) (new_name : OsStr) : M bool :=
  found ← lookup_name new_parent new_name;
  match found with
  | inl _ => mret false
  | inr attrs =>
      if decide (kind attrs = KDirectory) then
        entries ← unwrap_result (get_directory_content (inode attrs));
        mret (bool_decide (2 < base.size entries)%nat)
      else mret false
  end.

Definition rename_sticky (req : Requester) (new_parent : Z) (new_name : OsStr)
    (new_parent_attrs : InodeAttributes) : M bool :=
  if negb (Z.land (mode new_parent_attrs) (wrap 16 S_ISVTX) =? 0) then
    found ← lookup_name new_parent new_name;
    match found with
    | inl _ => mret false
    | inr existing => mret (sticky_denies new_parent_attrs existing req)
    end
  else mret false.

Definition SimpleFS_rename (req : Requester) (parent : Z) (name : OsStr) (new_parent : Z)
    (new_name : OsStr) (flags : Z) : M FsReply :=
  inode_attrs ←! lookup_name parent name;
  parent_attrs ←! get_inode parent;
  if negb (access_to parent_attrs req W_OK) then mret (RError EACCES) else
  if sticky_denies parent_attrs inode_attrs req then mret (RError EACCES) else
  new_parent_attrs ←! get_inode new_parent;
  if negb (access_to new_parent_attrs req W_OK) then mret (RError EACCES) else
  sticky ← rename_sticky req new_parent new_name new_parent_attrs;
  if (sticky : bool) then mret (RError EACCES) else
  if negb (Z.land flags RENAME_EXCHANGE =? 0) then
    rename_exchange parent name new_parent new_name inode_attrs parent_attrs new_parent_attrs
  else
  not_empty ← rename_not_empty new_parent new_name;
  if (not_empty : bool) then mret (RError ENOTEMPTY) else
  if bool_decide (kind inode_attrs = KDirectory) && negb (parent =? new_parent) &&
     negb (access_to inode_attrs req W_OK)
  then mret (RError EACCES) else
  rename_move parent name new_parent new_name inode_attrs parent_attrs new_parent_attrs.

Definition SimpleFS_link (req : Requester) (i new_parent : Z) (new_name : OsStr) : M FsReply :=
  attrs ←! get_inode i;
  _ ←! insert_link req new_parent new_name i (kind attrs);
  n ← lift (uadd 32 (hardlinks attrs) 1);
  attrs ← stamp_changed (with_hardlinks n attrs);
  write_inode attrs;;
  reply_entry attrs.

(** The access mask and the rights of the handle; [exec] is false in [opendir],
    which does not look at [FMODE_EXEC]. *)
Definition open_mode (exec : bool) (flags : Z) : Z + (Z * bool * bool) :=
  let acc := Z.land flags O_ACCMODE in
  if acc =? O_RDONLY then
    if negb (Z.land flags O_TRUNC =? 0) then inl EACCES
    else if exec && negb (Z.land flags FMODE_EXEC =? 0) then inr (X_OK, true, false)
    else inr (R_OK, true, false)
  else if acc =? O_WRONLY then inr (W_OK, false, true)
  else if acc =? O_RDWR then inr (Z.lor R_OK W_OK, true, true)
  else inl EINVAL.

Definition open_with (exec : bool) (req : Requester) (i flags : Z) : M FsReply :=
  match open_mode exec flags with
  | inl e => mret (RError e)
  | inr (access_mask, read, write) =>
      attr ←! get_inode i;
      if access_to attr req access_mask then
        n ← lift (uadd 64 (open_file_handles attr) 1);
        write_inode (with_open_file_handles n attr);;
        direct ← gets direct_io;
        fh ← allocate_next_file_handle read write;
        mret (ROpened fh (if (direct : bool) then FOPEN_DIRECT_IO else 0))
      else mret (RError EACCES)
  end.
Definition SimpleFS_open : Requester → Z → Z → M FsReply := open_with true.
Definition SimpleFS_opendir : Requester → Z → Z → M FsReply := open_with false.

(** [read_exact_at] into a buffer of [n] bytes. *)
Definition read_exact_at (file : list Z) (n offset : Z) : outcome (list Z) :=
  if decide (n = 0) then Ret []
  else if decide (offset + n ≤ Z.of_nat (length file))
  then Ret (take (Z.to_nat n) (drop (Z.to_nat offset) file)) else Panic.

(** [write_all] at a position: a gap is filled with zeros; nothing happens when
    there is nothing to write. *)
Definition write_at (file : list Z) (offset : Z) (data : list Z) : list Z :=
  if decide (data = []) then file
  else resize (Z.to_nat offset) 0 file ++ data
       ++ drop (Z.to_nat offset + length data) file.
(** [seek(SeekFrom::Start(offset)).unwrap()]: the host takes an [i64]. *)
Definition seek (offset : Z) : outcome unit := assert_ (offset <? 2 ^ 63).

Definition saturating_sub (a b : Z) : Z := Z.max 0 (a - b).

Definition SimpleFS_read (i fh offset sz : Z) : M FsReply :=
  lift (assert_ (0 <=? offset));;
  if negb (check_file_handle_read fh) then mret (RError EACCES) else
  file ← open_content i;
  match file with
  | Some file =>
      let file_size := Z.of_nat (length file) in
      let read_size := Z.min sz (wrap 32 (saturating_sub file_size (wrap 64 offset))) in
      data ← lift (read_exact_at file read_size offset);
      mret (RData data)
  | None => mret (RError ENOENT)
  end.

(** [if data.len() + offset > attrs.size { attrs.size = ... }]. *)
Definition grow (len offset : Z) (attrs : InodeAttributes) : outcome InodeAttributes :=
  total ← uadd 64 len offset;
  Ret (if size attrs <? total then with_size total attrs else attrs).

Definition SimpleFS_write (i fh offset : Z) (data : list Z) : M FsReply :=
  lift (assert_ (0 <=? offset));;
  if negb (check_file_handle_write fh) then mret (RError EACCES) else
  file ← open_content i;
  match file with
  | Some file =>
      lift (seek (wrap 64 offset));;
      write_content i (write_at file offset data);;
      attrs ← unwrap_result (get_inode i);
      attrs ← stamp_changed_modified attrs;
      attrs ← lift (grow (Z.of_nat (length data)) (wrap 64 offset) attrs);
      write_inode (clear_suid_sgid attrs);;
      mret (RWritten (wrap 32 (Z.of_nat (length data))))
  | None => mret (RError EBADF)
  end.

(** [release] and [releasedir]: the decremented attributes are dropped. *)
Definition SimpleFS_release (i : Z) : M FsReply :=
  attrs ← get_inode i;
  match attrs with
  | inr attrs => lift (usub 64 (open_file_handles attrs) 1);; mret ROk
  | inl _ => mret ROk
  end.

Fixpoint readdir_loop (entries : list (list Z * (Z * FileKind))) (offset index : Z)
    (reply : EntListBuf) : outcome EntListBuf :=
  match entries with
  | [] => Ret reply
  | (name, (i, file_type)) :: entries =>
      '(buffer_full, reply) ←
        DirEntList_push (MkDirEntry i (offset + index + 1) (FileType_from file_type) name) reply;
      if (buffer_full : bool) then Ret reply
      else readdir_loop entries offset (index + 1) reply
  end.

Definition SimpleFS_readdir (i offset : Z) (reply : EntListBuf) : M FsReply :=
  lift (assert_ (0 <=? offset));;
  entries ←! get_directory_content i;
  reply ← lift (readdir_loop (drop (Z.to_nat offset) (BTreeMap_iter entries)) offset 0 reply);
  mret (RDirectory reply).

Definition SimpleFS_statfs : M FsReply :=
  mret (RStatfs 10000 10000 10000 1 10000 BLOCK_SIZE MAX_NAME_LENGTH BLOCK_SIZE).

(** [if let Ok(attrs) = self.get_inode(inode)] with [EBADF] otherwise. *)
Definition with_inode (i : Z) (k : InodeAttributes → M FsReply) : M FsReply :=
  attrs ← get_inode i;
  match attrs with inr attrs => k attrs | inl _ => mret (RError EBADF) end.

Definition checked (error : option Z) (k : M FsReply) : M FsReply :=
  match error with Some error => mret (RError error) | None => k end.

Definition SimpleFS_setxattr (req : Requester) (i : Z) (key : OsStr) (value : list Z) : M FsReply :=
  with_inode i (λ attrs,
  checked (xattr_access_check key W_OK attrs req) (
  let attrs := with_xattrs (<[key := value]> (xattrs attrs)) attrs in
  attrs ← stamp_changed attrs;
  write_inode attrs;;
  mret ROk)).

(** A size of 0 asks for the size. *)
Definition xattr_reply (data : list Z) (sz : Z) : FsReply :=
  if sz =? 0 then RXattrSize (wrap 32 (Z.of_nat (length data)))
  else if Z.of_nat (length data) <=? sz then RData data
  else RError ERANGE.

Definition SimpleFS_getxattr (req : Requester) (i : Z) (key : OsStr) (sz : Z) : M FsReply :=
  with_inode i (λ attrs,
  checked (xattr_access_check key R_OK attrs req) (
  match xattrs attrs !! key with
  | Some data => mret (xattr_reply data sz)
  | None => mret (RError ENODATA)
  end)).

Definition SimpleFS_listxattr (i sz : Z) : M FsReply :=
  with_inode i (λ attrs,
  let bytes := concat ((λ '(key, _), key ++ [0]) <$> BTreeMap_iter (xattrs attrs)) in
  mret (xattr_reply bytes sz)).

Definition SimpleFS_removexattr (req : Requester) (i : Z) (key : OsStr) : M FsReply :=
  with_inode i (λ attrs,
  checked (xattr_access_check key W_OK attrs req) (
  match xattrs attrs !! key with
  | None => mret (RError ENODATA)
  | Some _ =>
      attrs ← stamp_changed (with_xattrs (delete key (xattrs attrs)) attrs);
      write_inode attrs;;
      mret ROk
  end)).

Definition SimpleFS_access (req : Requester) (i mask : Z) : M FsReply :=
  attr ←! get_inode i;
  mret (if access_to attr req mask then ROk else RError EACCES).

Definition create_mode (flags : Z) : option (bool * bool) :=
  let acc := Z.land flags O_ACCMODE in
  if acc =? O_RDONLY then Some (true, false)
  else if acc =? O_WRONLY then Some (false, true)
  else if acc =? O_RDWR then Some (true, true)
  else None.

Definition SimpleFS_create (req : Requester) (parent : Z) (name : OsStr) (mode flags : Z)
    : M FsReply :=
  found ← lookup_name parent name;
  if is_ok found then mret (RError EEXIST) else
  match create_mode flags with
  | None => mret (RError EINVAL)
  | Some (read, write) =>
      parent_attrs ←! prepare_parent req parent;
      attrs ← make_node req parent name mode 1 parent_attrs;
      attr ← lift (FileAttr_from attrs);
      fh ← allocate_next_file_handle read write;
      mret (RCreated attr fh 0)
  end.

(** The result of [fallocate64] is not looked at. *)
Definition SimpleFS_fallocate (i offset len mode : Z) : M FsReply :=
  file ← open_content i;
  match file with
  | Some file =>
      write_content i (fallocate64 file mode offset len);;
      (if Z.land mode FALLOC_FL_KEEP_SIZE =? 0 then
         attrs ← unwrap_result (get_inode i);
         attrs ← stamp_changed_modified attrs;
         total ← lift (i64_add offset len);
         let attrs := if size attrs <? wrap 64 total then with_size (wrap 64 total) attrs
                      else attrs in
         write_inode attrs
       else mret tt);;
      mret ROk
  | None => mret (RError ENOENT)
  end.

Definition SimpleFS_copy_file_range (src_inode src_fh src_offset dest_inode dest_fh dest_offset
    sz : Z) : M FsReply :=
  if negb (check_file_handle_read src_fh) then mret (RError EACCES) else
  if negb (check_file_handle_write dest_fh) then mret (RError EACCES) else
  file ← open_content src_inode;
  match file with
  | Some file =>
      let file_size := Z.of_nat (length file) in
      let read_size := Z.min sz (saturating_sub file_size (wrap 64 src_offset)) in
      data ← lift (read_exact_at file read_size (wrap 64 src_offset));
      dest ← open_content dest_inode;
      match dest with
      | Some dest =>
          lift (seek (wrap 64 dest_offset));;
          write_content dest_inode (write_at dest dest_offset data);;
          attrs ← unwrap_result (get_inode dest_inode);
          attrs ← stamp_changed_modified attrs;
          attrs ← lift (grow (Z.of_nat (length data)) (wrap 64 dest_offset) attrs);
          write_inode attrs;;
          mret (RWritten (wrap 32 (Z.of_nat (length data))))
      | None => mret (RError EBADF)
      end
  | None => mret (RError ENOENT)
  end.

(** ** The trait *)

(** The default methods of the trait [Filesystem]. *)
Definition default_reply (c : FsCall) : FsReply :=
  match c with
  | Fs_forget _ _ | Fs_batch_forget _ => RNone
  | Fs_symlink _ _ _ | Fs_link _ _ _ => RError EPERM
  | Fs_open _ _ | Fs_opendir _ _ => ROpened 0 0
  | Fs_release _ _ _ _ _ | Fs_releasedir _ _ _ => ROk
  | Fs_statfs _ => RStatfs 0 0 0 0 0 512 255 0
  | _ => RError ENOSYS
  end.

(** [impl Filesystem for SimpleFS]. *)
Definition SimpleFS_call (req : Requester) (c : FsCall) : M FsReply :=
  match c with
  | Fs_lookup parent name => SimpleFS_lookup req parent name
  | Fs_forget _ _ => mret RNone
  | Fs_getattr i => SimpleFS_getattr i
  | Fs_setattr i mode uid gid size atime mtime _ fh _ _ _ _ =>
      SimpleFS_setattr req i mode uid gid size atime mtime fh
  | Fs_readlink i => SimpleFS_readlink i
  | Fs_mknod parent name mode _ _ => SimpleFS_mknod req parent name mode
  | Fs_mkdir parent name mode _ => SimpleFS_mkdir req parent name mode
  | Fs_unlink parent name => SimpleFS_unlink req parent name
  | Fs_rmdir parent name => SimpleFS_rmdir req parent name
  | Fs_symlink parent name link => SimpleFS_symlink req parent name link
  | Fs_rename parent name newparent newname flags =>
      SimpleFS_rename req parent name newparent newname flags
  | Fs_link i newparent newname => SimpleFS_link req i newparent newname
  | Fs_open i flags => SimpleFS_open req i flags
  | Fs_read i fh offset size _ _ => SimpleFS_read i fh offset size
  | Fs_write i fh offset data _ _ _ => SimpleFS_write i fh offset data
  | Fs_release i _ _ _ _ => SimpleFS_release i
  | Fs_opendir i flags => SimpleFS_opendir req i flags
  | Fs_readdir i _ offset list => SimpleFS_readdir i offset list
  | Fs_releasedir i _ _ => SimpleFS_release i
  | Fs_statfs _ => SimpleFS_statfs
  | Fs_setxattr i name value _ _ => SimpleFS_setxattr req i name value
  | Fs_getxattr i name size => SimpleFS_getxattr req i name size
  | Fs_listxattr i size => SimpleFS_listxattr i size
  | Fs_removexattr i name => SimpleFS_removexattr req i name
  | Fs_access i mask => SimpleFS_access req i mask
  | Fs_create parent name mode _ flags => SimpleFS_create req parent name mode flags
  | Fs_fallocate i _ offset length mode => SimpleFS_fallocate i offset length mode
  | Fs_copy_file_range i_in fh_in off_in i_out fh_out off_out len _ =>
      SimpleFS_copy_file_range i_in fh_in off_in i_out fh_out off_out len
  | Fs_flush _ _ _ | Fs_fsync _ _ _ | Fs_readdirplus _ _ _ _ | Fs_fsyncdir _ _ _
  | Fs_getlk _ _ _ _ _ _ _ | Fs_setlk _ _ _ _ _ _ _ _ | Fs_bmap _ _ _
  | Fs_ioctl _ _ _ _ _ _ | Fs_batch_forget _ | Fs_lseek _ _ _ _ => mret (default_reply c)
  end.
End simplefs.

(** ** A host for the examples *)

Definition kind_code (k : FileKind) : Z :=
  match k with KFile => 0 | KDirectory => 1 | KSymlink => 2 end.
Definition kind_decode (z : Z) : FileKind :=
  if z =? 0 then KFile else if z =? 1 then KDirectory else KSymlink.
Definition entry_encode (e : list Z * (Z * FileKind)) : list Z :=
  Z.of_nat (length e.1) :: e.1 ++ [e.2.1; kind_code e.2.2].
Fixpoint entries_decode (fuel : nat) (l : list Z) : option (list (list Z * (Z * FileKind))) :=
  match fuel, l with
  | _, [] => Some []
  | O, _ => None
  | S fuel, len :: l =>
      match drop (Z.to_nat len) l with
      | i :: k :: rest =>
          es ← entries_decode fuel rest; Some ((take (Z.to_nat len) l, (i, kind_decode k)) :: es)
      | _ => None
      end
  end.

(** A serialiser in the manner of bincode (lengths before bytes), and a clock
    that stands still. *)
Definition demo_host : Host := {|
  serialize d := concat (entry_encode <$> map_to_list d);
  deserialize l := list_to_map <$> entries_decode (length l) l;
  now _ := MkSystemTime 1690000000 0;
  fallocate64 file _ offset len :=
    file ++ replicate (Z.to_nat (offset + len) - length file) 0;
  proc_status _ := Some [] |}.

Lemma entries_decode_encode es fuel :
  (length (concat (entry_encode <$> es)) ≤ fuel)%nat →
  entries_decode fuel (concat (entry_encode <$> es)) = Some es.
Proof.
  revert fuel. induction es as [|[n [i k]] es IH]; intros fuel Hf; [by destruct fuel|].
  rewrite fmap_cons in Hf |- *. cbn [concat] in Hf |- *.
  unfold entry_encode in Hf at 1. unfold entry_encode at 1.
  cbn [fst snd app length] in Hf |- *. rewrite !length_app in Hf. cbn [length] in Hf.
  destruct fuel as [|fuel]; [lia|]. cbn [entries_decode]. rewrite Nat2Z.id, <- app_assoc, drop_app_length, take_app_length. simpl.
  rewrite IH by lia. simpl. by destruct k.
Qed.
Lemma demo_host_laws : HostLaws demo_host.
Proof.
  split; [|done]. intros d. cbn [serialize deserialize demo_host].
  rewrite entries_decode_encode by done. simpl. by rewrite list_to_map_to_list.
Qed.
