(* ===== verification/SimpleTree.v ===== *)
(** * SimpleTree: the directory tree as an abstract object

    The specification of what [SimpleFS] keeps: the inodes with their kind, link
    count and open handles, and the directory entries as edges
    (directory, name) -> inode.  [tree_ok] is the well-formedness of a tree, and
    each operation on trees is shown to keep it; SimpleRep.v shows that the
    methods of SimpleFS.v carry out these operations. *)

From S2P Require Import Prelude KernelInterface SimpleAttr SimpleFS.

Local Open Scope Z_scope.

(** ** Trees *)

Record node : Type := Node { n_kind : FileKind; n_links : Z; n_handles : Z }.

Record tree : Type := Tree {
  nodes : gmap Z node;
  edges : gmap (Z * list Z) (Z * FileKind);
  stored : gset Z;
  last_inode : Z;
  last_handle : Z }.

Definition put_node i nd T := Tree (<[i := nd]> (nodes T)) (edges T) (stored T)
  (last_inode T) (last_handle T).
Definition put_edge e v T := Tree (nodes T) (<[e := v]> (edges T)) (stored T)
  (last_inode T) (last_handle T).
Definition del_edge e T := Tree (nodes T) (delete e (edges T)) (stored T)
  (last_inode T) (last_handle T).
Definition store i T := Tree (nodes T) (edges T) ({[i]} ∪ stored T)
  (last_inode T) (last_handle T).
Definition set_last i T := Tree (nodes T) (edges T) (stored T) i (last_handle T).
Definition set_handle h T := Tree (nodes T) (edges T) (stored T) (last_inode T) h.

(** The entries of a directory go with it. *)
Definition drop_row (i : Z) (E : gmap (Z * list Z) (Z * FileKind)) :=
  filter (λ x, x.1.1 ≠ i) E.
Definition gc (i : Z) (nd : node) (T : tree) : tree :=
  if decide (n_links nd = 0 ∧ n_handles nd = 0)
  then Tree (delete i (nodes T)) (drop_row i (edges T)) (stored T ∖ {[i]})
         (last_inode T) (last_handle T)
  else T.

Definition ordinary (n : list Z) : Prop := n ≠ dot ∧ n ≠ dotdot.
#[export] Instance ordinary_dec n : Decision (ordinary n).
Proof. unfold ordinary. apply _. Defined.

Definition is_dir (T : tree) (d : Z) : Prop :=
  ∃ nd, nodes T !! d = Some nd ∧ n_kind nd = KDirectory.

(** The number of entries, other than . and .., that lead to an inode. *)
Definition nlinks (E : gmap (Z * list Z) (Z * FileKind)) (i : Z) : nat :=
  base.size (filter (λ x, x.2.1 = i ∧ ordinary x.1.2) E).

(** What an entry contributes to the count of an inode. *)
Definition contrib (e : Z * list Z) (v : option (Z * FileKind)) (i : Z) : nat :=
  match v with
  | Some (j, _) => if decide (j = i ∧ ordinary e.2) then 1 else 0
  | None => 0
  end.

(** ** Well-formed trees *)

Record tree_ok (T : tree) : Prop := {
  (** every inode has a content file and no other file is left over *)
  ok_stored : stored T = dom (nodes T);
  (** inode numbers are below the allocator's *)
  ok_range i : is_Some (nodes T !! i) → 1 ≤ i ≤ last_inode T;
  (** only directories have entries *)
  ok_row d n v : edges T !! (d, n) = Some v → is_dir T d;
  (** no entry but .. dangles, and it shows the kind of its inode *)
  ok_target d n i k : edges T !! (d, n) = Some (i, k) → n ≠ dotdot →
    ∃ nd, nodes T !! i = Some nd ∧ n_kind nd = k;
  ok_dot d : is_dir T d → edges T !! (d, dot) = Some (d, KDirectory);
  (** the .. of a directory still linked is the directory that has its entry *)
  ok_dotdot d nd : nodes T !! d = Some nd → n_kind nd = KDirectory → d ≠ FUSE_ROOT_ID →
    ∃ p, edges T !! (d, dotdot) = Some (p, KDirectory) ∧
      (n_links nd ≠ 0 → ∃ n, ordinary n ∧ edges T !! (p, n) = Some (d, KDirectory));
  ok_root : ∃ nd, nodes T !! FUSE_ROOT_ID = Some nd ∧ n_kind nd = KDirectory;
  (** a link count is the number of entries; a directory has at most one *)
  ok_file_links i nd : nodes T !! i = Some nd → n_kind nd ≠ KDirectory →
    n_links nd = Z.of_nat (nlinks (edges T) i);
  ok_dir_links i nd : nodes T !! i = Some nd → n_kind nd = KDirectory →
    nlinks (edges T) i = if decide (i = FUSE_ROOT_ID ∨ n_links nd = 0) then 0%nat else 1%nat;
  ok_bounds i nd : nodes T !! i = Some nd → 0 ≤ n_links nd < 2 ^ 32 ∧ 0 ≤ n_handles nd < 2 ^ 64;
  ok_name d n v : edges T !! (d, n) = Some v → Z.of_nat (length n) < 2 ^ 32 }.

(** ** Counting *)

Section counting.
Implicit Types (E : gmap (Z * list Z) (Z * FileKind)).

Lemma nlinks_delete e E i : nlinks E i = (nlinks (delete e E) i + contrib e (E !! e) i)%nat.
Proof.
  unfold nlinks, contrib. destruct (E !! e) as [[j k]|] eqn:He.
  - rewrite map_filter_delete. case_decide as Hd.
    + assert (filter (λ x, x.2.1 = i ∧ ordinary x.1.2) E !! e = Some (j, k)) as Hf
        by (by apply map_lookup_filter_Some).
      rewrite map_size_delete_Some by by exists (j, k).
      assert (base.size (filter (λ x, x.2.1 = i ∧ ordinary x.1.2) E) ≠ 0)%nat; [|lia].
      apply map_size_ne_0_lookup. eauto.
    + rewrite map_size_delete_None; [lia|]. apply map_lookup_filter_None. right.
      intros v Hv [? ?]. simplify_eq. by apply Hd.
  - rewrite delete_id by done. lia.
Qed.
Lemma nlinks_insert e v E i :
  (nlinks (<[e := v]> E) i + contrib e (E !! e) i = nlinks E i + contrib e (Some v) i)%nat.
Proof.
  pose proof (nlinks_delete e E i). pose proof (nlinks_delete e (<[e := v]> E) i) as Hn.
  rewrite delete_insert_eq, lookup_insert_eq in Hn. lia.
Qed.
Lemma nlinks_0 E i :
  nlinks E i = 0%nat ↔ ∀ d n k, E !! (d, n) = Some (i, k) → ¬ ordinary n.
Proof.
  unfold nlinks. rewrite map_size_empty_iff, map_empty_filter. split.
  - intros H d n k He Hn. by apply (H (d, n) (i, k) He).
  - intros H [d n] [j k] He [? Hn]. simpl in *. subst. by apply (H d n k).
Qed.
Lemma nlinks_pos E i d n k : E !! (d, n) = Some (i, k) → ordinary n → (1 ≤ nlinks E i)%nat.
Proof.
  intros He Hn. destruct (nlinks E i) eqn:H0; [|lia].
  by eapply nlinks_0 in He.
Qed.
(** With a single entry left, two entries are the same. *)
Lemma nlinks_1 E i d n k d' n' k' :
  nlinks E i = 1%nat → E !! (d, n) = Some (i, k) → ordinary n →
  E !! (d', n') = Some (i, k') → ordinary n' → (d', n') = (d, n).
Proof.
  intros H1 He Hn He' Hn'. destruct (decide ((d', n') = (d, n))) as [|Hne]; [done|].
  pose proof (nlinks_delete (d, n) E i) as Hd. rewrite He in Hd. simpl in Hd.
  rewrite decide_True in Hd by done.
  assert (delete (d, n) E !! (d', n') = Some (i, k')) as Hdel by by rewrite lookup_delete_ne.
  pose proof (nlinks_pos _ _ _ _ _ Hdel Hn'). lia.
Qed.
Lemma contrib_dots e v i : ¬ ordinary e.2 → contrib e v i = 0%nat.
Proof. intros He. destruct v as [[]|]; [|done]. simpl. by rewrite decide_False by tauto. Qed.

Lemma drop_row_lookup i E d n :
  drop_row i E !! (d, n) = if decide (d = i) then None else E !! (d, n).
Proof.
  unfold drop_row. case_decide as Hd.
  - apply map_lookup_filter_None. right. by intros v _ ?.
  - apply option_eq. intros v. rewrite map_lookup_filter_Some. naive_solver.
Qed.
Lemma drop_row_nlinks i E j :
  (∀ n v, E !! (i, n) = Some v → ¬ ordinary n) → nlinks (drop_row i E) j = nlinks E j.
Proof.
  intros Hrow. unfold nlinks. f_equal. apply map_eq. intros [d n].
  apply option_eq. intros v. rewrite !map_lookup_filter_Some. simpl.
  rewrite drop_row_lookup. case_decide; naive_solver.
Qed.
Lemma drop_row_delete i e E : drop_row i (delete e E) = delete e (drop_row i E).
Proof. apply map_filter_delete. Qed.
End counting.

Section counting_entries.
Implicit Types (E : gmap (Z * list Z) (Z * FileKind)).
Definition same (i j : Z) : nat := if decide (i = j) then 1 else 0.

Lemma contrib_ordinary e i k j : ordinary e.2 → contrib e (Some (i, k)) j = same i j.
Proof. intros He. simpl. unfold same. by repeat case_decide; try tauto. Qed.
Lemma nlinks_insert_new E e i k j :
  E !! e = None → ordinary e.2 → nlinks (<[e := (i, k)]> E) j = (nlinks E j + same i j)%nat.
Proof.
  intros He Ho. pose proof (nlinks_insert e (i, k) E j) as H.
  rewrite He, contrib_ordinary in H by done. simpl in H. lia.
Qed.
Lemma nlinks_insert_dots E e v j : ¬ ordinary e.2 → nlinks (<[e := v]> E) j = nlinks E j.
Proof.
  intros Ho. pose proof (nlinks_insert e v E j) as H. rewrite !contrib_dots in H by done. lia.
Qed.
Lemma nlinks_delete_entry E e i k j :
  E !! e = Some (i, k) → ordinary e.2 → nlinks E j = (nlinks (delete e E) j + same i j)%nat.
Proof.
  intros He Ho. pose proof (nlinks_delete e E j) as H.
  by rewrite He, contrib_ordinary in H.
Qed.
Lemma nlinks_insert_over E e i k i' k' j :
  E !! e = Some (i, k) → ordinary e.2 →
  (nlinks (<[e := (i', k')]> E) j + same i j = nlinks E j + same i' j)%nat.
Proof.
  intros He Ho. pose proof (nlinks_insert e (i', k') E j) as H.
  by rewrite He, !contrib_ordinary in H.
Qed.
Lemma same_eq i : same i i = 1%nat.
Proof. unfold same. by rewrite decide_True. Qed.
Lemma same_ne i j : i ≠ j → same i j = 0%nat.
Proof. intros. unfold same. by rewrite decide_False. Qed.
End counting_entries.

Lemma dot_not_ordinary : ¬ ordinary dot.
Proof. by intros []. Qed.
Lemma dotdot_not_ordinary : ¬ ordinary dotdot.
Proof. by intros []. Qed.
Lemma dot_ne_dotdot : dot ≠ dotdot.
Proof. done. Qed.
Create HintDb simple.
#[export] Hint Resolve dot_not_ordinary dotdot_not_ordinary dot_ne_dotdot : simple.

(** ** The operations *)

Definition fresh (T : tree) : Z := last_inode T + 1.

(** [mknod], [create], [symlink]: a new inode with one entry. *)
Definition add_file (p : Z) (n : list Z) (k : FileKind) (h : Z) (T : tree) : tree :=
  let i := fresh T in
  put_edge (p, n) (i, k) (store i (put_node i (Node k 1 h) (set_last i T))).
(** [mkdir]. *)
Definition add_dir (p : Z) (n : list Z) (T : tree) : tree :=
  let i := fresh T in
  put_edge (p, n) (i, KDirectory) (put_edge (i, dotdot) (p, KDirectory)
    (put_edge (i, dot) (i, KDirectory)
      (store i (put_node i (Node KDirectory 2 0) (set_last i T))))).
(** [link]. *)
Definition add_link (p : Z) (n : list Z) (i : Z) (nd : node) (T : tree) : tree :=
  put_node i (Node (n_kind nd) (n_links nd + 1) (n_handles nd)) (put_edge (p, n) (i, n_kind nd) T).
(** [unlink], [rmdir] and the target of a rename: the entry goes, and the inode
    when nothing holds it any more. *)
Definition less_links (nd : node) : node :=
  Node (n_kind nd) (if decide (n_kind nd = KDirectory) then 0 else n_links nd - 1) (n_handles nd).
Definition remove (p : Z) (n : list Z) (i : Z) (nd : node) (T : tree) : tree :=
  del_edge (p, n) (gc i (less_links nd) (put_node i (less_links nd) T)).
(** The entry of an inode moves; a directory's .. follows. *)
Definition set_parent (i : Z) (k : FileKind) (p : Z) (T : tree) : tree :=
  if decide (k = KDirectory) then put_edge (i, dotdot) (p, KDirectory) T else T.
Definition move (p : Z) (n : list Z) (i : Z) (k : FileKind) (np : Z) (nn : list Z) (T : tree)
    : tree :=
  set_parent i k np (put_edge (np, nn) (i, k) (del_edge (p, n) T)).
Definition exchange (p : Z) (n : list Z) (i : Z) (k : FileKind) (np : Z) (nn : list Z) (j : Z)
    (k' : FileKind) (T : tree) : tree :=
  set_parent j k' p (set_parent i k np
    (put_edge (p, n) (j, k') (put_edge (np, nn) (i, k) T))).
(** [open] and [opendir]. *)
Definition add_handle (i : Z) (nd : node) (T : tree) : tree :=
  set_handle (last_handle T + 1)
    (put_node i (Node (n_kind nd) (n_links nd) (n_handles nd + 1)) T).

(** ** They keep trees well-formed *)

Lemma is_dir_put_node T i nd d :
  is_dir (put_node i nd T) d ↔ (d = i ∧ n_kind nd = KDirectory) ∨ (d ≠ i ∧ is_dir T d).
Proof.
  unfold is_dir. simpl. destruct (decide (d = i)) as [-> |Hne].
  - rewrite lookup_insert_eq. naive_solver.
  - rewrite lookup_insert_ne by done. naive_solver.
Qed.

(** A lookup after updates is one of the new entries or an old one. *)
Ltac lookup_inv :=
  repeat match goal with
  | H : <[_ := _]> _ !! _ = Some _ |- _ => apply lookup_insert_Some in H as [[? ?]|[? H]]
  | H : delete _ _ !! _ = Some _ |- _ => apply lookup_delete_Some in H as [? H]
  | H : is_Some _ |- _ => destruct H
  end; simplify_eq; simpl in *.

Section preservation.
Context (T : tree) (Hok : tree_ok T).

Lemma ok_is_dir_root : is_dir T FUSE_ROOT_ID.
Proof. destruct (ok_root T Hok) as (nd & ? & ?). by exists nd. Qed.
Lemma ok_last : 1 ≤ last_inode T.
Proof.
  destruct (ok_root T Hok) as (nd & Hr & _).
  pose proof (ok_range T Hok FUSE_ROOT_ID). rewrite Hr in *. unfold FUSE_ROOT_ID in *.
  assert (1 ≤ 1 ≤ last_inode T) by eauto. lia.
Qed.
Lemma ok_fresh : nodes T !! fresh T = None.
Proof.
  apply eq_None_not_Some. intros Hs. pose proof (ok_range T Hok _ Hs). unfold fresh in *. lia.
Qed.
Lemma ok_fresh_row n : edges T !! (fresh T, n) = None.
Proof.
  apply eq_None_not_Some. intros [v Hv]. destruct (ok_row T Hok _ _ _ Hv) as (nd & Hn & _).
  by rewrite ok_fresh in Hn.
Qed.
Lemma ok_fresh_links : nlinks (edges T) (fresh T) = 0%nat.
Proof.
  apply nlinks_0. intros d n k He [_ Hn].
  destruct (ok_target T Hok _ _ _ _ He Hn) as (nd & Hnd & _). by rewrite ok_fresh in Hnd.
Qed.
Lemma ok_stored_in i : is_Some (nodes T !! i) ↔ i ∈ stored T.
Proof. rewrite (ok_stored T Hok). by rewrite elem_of_dom. Qed.
Lemma ok_dir_stored d : is_dir T d → d ∈ stored T.
Proof. intros (nd & Hnd & _). apply ok_stored_in. eauto. Qed.

Lemma set_last_ok i : last_inode T ≤ i → tree_ok (set_last i T).
Proof.
  intros Hi. destruct Hok. split; try done; simpl.
  intros j Hj%ok_range0. lia.
Qed.
Lemma set_handle_ok h : tree_ok (set_handle h T).
Proof. by destruct Hok. Qed.

(** Counting the handles of an inode. *)
Lemma put_handles_ok i nd h :
  nodes T !! i = Some nd → 0 ≤ h < 2 ^ 64 →
  tree_ok (put_node i (Node (n_kind nd) (n_links nd) h) T).
Proof.
  intros Hi Hh.
  assert (∀ d, is_dir T d → is_dir (put_node i (Node (n_kind nd) (n_links nd) h) T) d) as Hdir.
  { intros d (x & Hx & ?). destruct (decide (d = i)) as [-> |].
    - eexists. split; [apply lookup_insert_eq|]. by simplify_eq.
    - exists x. simpl. by rewrite lookup_insert_ne. }
  assert (∀ d, is_dir (put_node i (Node (n_kind nd) (n_links nd) h) T) d → is_dir T d) as Hdir'.
  { intros d (x & Hx & ?). simpl in Hx. apply lookup_insert_Some in Hx as [[-> <-]|[? Hx]].
    - by exists nd.
    - by exists x. }
  destruct Hok. split; simpl; try done.
  - rewrite dom_insert_L. assert (i ∈ dom (nodes T)) by (apply elem_of_dom; eauto). set_solver.
  - intros j [x [[-> _]|[_ Hx]]%lookup_insert_Some]; eauto.
  - intros d n v He. apply Hdir. eauto.
  - intros d n j k He Hn. destruct (ok_target0 _ _ _ _ He Hn) as (x & Hx & Hk).
    destruct (decide (j = i)) as [-> |].
    + eexists. rewrite lookup_insert_eq. split; [done|]. by simplify_eq.
    + exists x. by rewrite lookup_insert_ne.
  - intros d Hd%Hdir'. eauto.
  - intros d x [[-> <-]|[? Hx]]%lookup_insert_Some; simpl; eauto.
  - destruct ok_root0 as (x & Hx & ?). destruct (decide (i = FUSE_ROOT_ID)) as [-> |].
    + eexists. rewrite lookup_insert_eq. split; [done|]. by simplify_eq.
    + exists x. by rewrite lookup_insert_ne.
  - intros j x [[-> <-]|[? Hx]]%lookup_insert_Some; simpl; eauto.
  - intros j x [[-> <-]|[? Hx]]%lookup_insert_Some; simpl; eauto.
  - intros j x [[-> <-]|[? Hx]]%lookup_insert_Some; simpl; eauto.
    split; [|done]. by apply (ok_bounds0 _ _ Hi).
Qed.
End preservation.

Section addition.
Context (T : tree) (Hok : tree_ok T) (p : Z) (n : list Z).
Context (Hp : is_dir T p) (Hn : ordinary n) (Hnew : edges T !! (p, n) = None).
Context (Hlen : Z.of_nat (length n) < 2 ^ 32).

Lemma parent_not_fresh : p ≠ fresh T.
Proof. intros ->. destruct Hp as (nd & Hnd & _). by rewrite (ok_fresh T Hok) in Hnd. Qed.
Lemma old_not_fresh i nd : nodes T !! i = Some nd → i ≠ fresh T.
Proof. intros Hi ->. by rewrite (ok_fresh T Hok) in Hi. Qed.
Lemma root_not_fresh : FUSE_ROOT_ID ≠ fresh T.
Proof. destruct (ok_root T Hok) as (nd & Hr & _). by eapply old_not_fresh. Qed.

Lemma add_file_ok k h :
  k ≠ KDirectory → 0 ≤ h < 2 ^ 64 → tree_ok (add_file p n k h T).
Proof.
  intros Hk Hh. pose proof (ok_last T Hok). pose proof parent_not_fresh as Hpf.
  assert (∀ d, is_dir (add_file p n k h T) d ↔ is_dir T d) as Hdir.
  { intros d. transitivity (is_dir (put_node (fresh T) (Node k 1 h) T) d); [done|].
    rewrite is_dir_put_node. simpl. split; [naive_solver|].
    intros Hd. right. split; [|done]. destruct Hd as (nd & ? & ?). by eapply old_not_fresh. }
  assert (∀ i, nlinks (edges (add_file p n k h T)) i = (nlinks (edges T) i + same (fresh T) i)%nat)
    as Hcount by (intros i; by apply nlinks_insert_new).
  pose proof (ok_fresh_links T Hok) as H0.
  split; try setoid_rewrite Hdir; try setoid_rewrite Hcount; simpl.
  - rewrite dom_insert_L, (ok_stored T Hok). done.
  - intros i [x Hx]. lookup_inv; unfold fresh in *; [lia|].
    pose proof (ok_range T Hok i). assert (1 ≤ i ≤ last_inode T) by eauto. lia.
  - intros d m v Hv. lookup_inv; try done. by eapply ok_row.
  - intros d m i k' Hv Hm. lookup_inv.
    + eexists. by rewrite lookup_insert_eq.
    + destruct (ok_target T Hok _ _ _ _ Hv Hm) as (nd & Hnd & ?).
      exists nd. rewrite lookup_insert_ne by (symmetry; by eapply old_not_fresh). done.
  - intros d Hd. rewrite lookup_insert_ne by (intros [=]; subst; by destruct Hn).
    by apply ok_dot.
  - intros d nd Hd Hkd Hr. lookup_inv.
    destruct (ok_dotdot T Hok d nd) as (q & Hq & Hlink); [done..|].
    exists q. split; [by rewrite lookup_insert_ne by (intros [=]; subst; by destruct Hn)|].
    intros (m & ? & ?)%Hlink. exists m. split; [done|].
    rewrite lookup_insert_ne; [done|]. intros [=]; subst. by rewrite Hnew in *.
  - by apply ok_is_dir_root.
  - intros i nd Hi Hki. lookup_inv.
    + by rewrite H0, same_eq.
    + rewrite same_ne by done. rewrite Nat.add_0_r. by apply ok_file_links.
  - intros i nd Hi Hki. lookup_inv; try done.
    rewrite same_ne by done. rewrite Nat.add_0_r. by apply ok_dir_links.
  - intros i nd Hi. lookup_inv; try done. by eapply ok_bounds.
  - intros d m v Hv. lookup_inv; try done. by eapply ok_name.
Qed.

Lemma add_dir_ok : tree_ok (add_dir p n T).
Proof.
  pose proof (ok_last T Hok). pose proof parent_not_fresh as Hpf. pose proof Hn as [Hn1 Hn2].
  assert (∀ d, is_dir (add_dir p n T) d ↔ d = fresh T ∨ is_dir T d) as Hdir.
  { intros d. transitivity (is_dir (put_node (fresh T) (Node KDirectory 2 0) T) d); [done|].
    rewrite is_dir_put_node. simpl. split; [naive_solver|].
    destruct (decide (d = fresh T)); naive_solver. }
  assert (∀ j, nlinks (edges (add_dir p n T)) j = (nlinks (edges T) j + same (fresh T) j)%nat) as Hcount.
  { intros j. simpl. rewrite nlinks_insert_new.
    - rewrite !nlinks_insert_dots by (simpl; auto with simple). done.
    - rewrite !lookup_insert_ne by congruence. done.
    - done. }
  pose proof (ok_fresh_links T Hok) as H0.
  pose proof (ok_fresh_row T Hok) as Hrow.
  pose proof (old_not_fresh) as Hold.
  split; try setoid_rewrite Hdir; try setoid_rewrite Hcount; simpl.
  - rewrite dom_insert_L, (ok_stored T Hok). done.
  - intros j [x Hx]. lookup_inv; unfold fresh in *; [lia|].
    pose proof (ok_range T Hok j). assert (1 ≤ j ≤ last_inode T) by eauto. lia.
  - intros d m v Hv. lookup_inv; auto. right. by eapply ok_row.
  - intros d m j k' Hv Hm. lookup_inv; try done.
    + eexists. by rewrite lookup_insert_eq.
    + eexists. by rewrite lookup_insert_eq.
    + destruct (ok_target T Hok _ _ _ _ Hv Hm) as (nd & Hnd & ?).
      exists nd. rewrite lookup_insert_ne by (symmetry; by eapply Hold). done.
  - intros d [-> |Hd].
    + rewrite lookup_insert_ne by congruence. rewrite lookup_insert_ne by done.
      by rewrite lookup_insert_eq.
    + assert (d ≠ fresh T) by (destruct Hd as (? & ? & ?); by eapply Hold).
      rewrite !lookup_insert_ne by congruence. by apply ok_dot.
  - intros d nd Hd Hkd Hr. apply lookup_insert_Some in Hd as [[<- <-]|[Hdi Hd]].
    + exists p. rewrite lookup_insert_ne by congruence. rewrite lookup_insert_eq.
      split; [done|]. intros _. exists n. by rewrite lookup_insert_eq.
    + destruct (ok_dotdot T Hok d nd) as (q & Hq & Hlink); [done..|].
      exists q. split; [by rewrite !lookup_insert_ne by congruence|].
      intros (m & ? & Hm)%Hlink. exists m. split; [done|].
      assert (q ≠ fresh T) by (intros ->; by rewrite Hrow in Hm).
      rewrite !lookup_insert_ne; [done|congruence..|]. intros [=]; subst. by rewrite Hnew in Hm.
  - right. by apply ok_is_dir_root.
  - intros j nd Hj Hkj. apply lookup_insert_Some in Hj as [[<- <-]|[Hji Hj]]; [done|].
    rewrite same_ne by done. rewrite Nat.add_0_r. by apply ok_file_links.
  - intros j nd Hj Hkj. apply lookup_insert_Some in Hj as [[<- <-]|[Hji Hj]].
    + rewrite H0, same_eq, decide_False; [done|]. simpl.
      pose proof root_not_fresh. naive_solver.
    + rewrite same_ne by done. rewrite Nat.add_0_r. by apply ok_dir_links.
  - intros j nd Hj. lookup_inv; try done. by eapply ok_bounds.
  - intros d m v Hv. lookup_inv; try done. by eapply ok_name.
Qed.

Lemma add_link_ok i nd :
  nodes T !! i = Some nd → n_kind nd ≠ KDirectory → n_links nd + 1 < 2 ^ 32 →
  tree_ok (add_link p n i nd T).
Proof.
  intros Hi Hk Hl.
  assert (∀ d, is_dir (add_link p n i nd T) d ↔ is_dir T d) as Hdir.
  { intros d. transitivity (is_dir (put_node i (Node (n_kind nd) (n_links nd + 1) (n_handles nd)) T) d); [done|].
    rewrite is_dir_put_node. simpl. split; [naive_solver|].
    intros Hd. right. split; [|done]. intros ->. destruct Hd as (? & ? & ?). by simplify_eq. }
  assert (∀ j, nlinks (edges (add_link p n i nd T)) j = (nlinks (edges T) j + same i j)%nat)
    as Hcount by (intros j; by apply nlinks_insert_new).
  pose proof Hn as [Hn1 Hn2]. pose proof (ok_bounds T Hok i nd Hi).
  split; try setoid_rewrite Hdir; try setoid_rewrite Hcount; simpl.
  - rewrite dom_insert_L, (ok_stored T Hok).
    assert (i ∈ dom (nodes T)) by (apply elem_of_dom; eauto). set_solver.
  - intros j [x Hx]. apply (ok_range T Hok). lookup_inv; eauto.
  - intros d m v Hv. lookup_inv; try done. by eapply ok_row.
  - intros d m j k' Hv Hm. lookup_inv.
    + eexists. by rewrite lookup_insert_eq.
    + destruct (ok_target T Hok _ _ _ _ Hv Hm) as (x & Hx & ?).
      destruct (decide (j = i)) as [-> |].
      * eexists. rewrite lookup_insert_eq. split; [done|]. simpl. by simplify_eq.
      * exists x. by rewrite lookup_insert_ne.
  - intros d Hd. rewrite lookup_insert_ne by congruence. by apply ok_dot.
  - intros d x Hd Hkd Hr. lookup_inv; try done.
    destruct (ok_dotdot T Hok d x) as (q & Hq & Hlink); [done..|].
    exists q. split; [by rewrite lookup_insert_ne by congruence|].
    intros (m & ? & ?)%Hlink. exists m. split; [done|].
    rewrite lookup_insert_ne; [done|]. intros [=]; subst. by rewrite Hnew in *.
  - by apply ok_is_dir_root.
  - intros j x Hj Hkj. lookup_inv.
    + rewrite same_eq, (ok_file_links T Hok j nd) by done. lia.
    + rewrite same_ne by done. rewrite Nat.add_0_r. by apply ok_file_links.
  - intros j x Hj Hkj. lookup_inv; try done.
    rewrite same_ne by done. rewrite Nat.add_0_r. by apply ok_dir_links.
  - intros j x Hj. lookup_inv; [lia|]. by eapply ok_bounds.
  - intros d m v Hv. lookup_inv; try done. by eapply ok_name.
Qed.
End addition.

Section removal.
Context (T : tree) (Hok : tree_ok T) (p : Z) (n : list Z) (i : Z) (k : FileKind) (nd : node).
Context (He : edges T !! (p, n) = Some (i, k)) (Hn : ordinary n) (Hi : nodes T !! i = Some nd).

Lemma entry_kind : k = n_kind nd.
Proof.
  destruct (ok_target T Hok _ _ _ _ He) as (x & ? & ?); [by destruct Hn|]. by simplify_eq.
Qed.
Lemma entry_not_root : n_kind nd = KDirectory → i ≠ FUSE_ROOT_ID ∧ n_links nd ≠ 0.
Proof.
  intros Hd. pose proof (ok_dir_links T Hok i nd Hi Hd) as Hc.
  pose proof (nlinks_pos _ _ _ _ _ He Hn). case_decide; [lia|tauto].
Qed.
Lemma entry_links : 1 ≤ n_links nd.
Proof.
  destruct (decide (n_kind nd = KDirectory)) as [Hd|Hd].
  - destruct (entry_not_root Hd). pose proof (ok_bounds T Hok i nd Hi). lia.
  - rewrite (ok_file_links T Hok i nd Hi Hd). pose proof (nlinks_pos _ _ _ _ _ He Hn). lia.
Qed.

Context (Hempty : n_kind nd = KDirectory → ∀ m v, edges T !! (i, m) = Some v → ¬ ordinary m).

Lemma removed_row m v : edges T !! (i, m) = Some v → ¬ ordinary m.
Proof.
  intros Hv. destruct (decide (n_kind nd = KDirectory)) as [Hd|Hd]; [by eapply Hempty|].
  destruct (ok_row T Hok _ _ _ Hv) as (x & ? & ?). by simplify_eq.
Qed.
Lemma removed_not_parent : p ≠ i.
Proof. intros ->. by eapply removed_row. Qed.

(** The last entry of an inode that goes. *)
Lemma removed_last d m k' :
  n_links (less_links nd) = 0 → edges T !! (d, m) = Some (i, k') → ordinary m → (d, m) = (p, n).
Proof.
  intros Hl Hv Hm. refine (nlinks_1 _ _ _ _ _ _ _ _ _ He Hn Hv Hm).
  unfold less_links in Hl; simpl in Hl.
  destruct (decide (n_kind nd = KDirectory)) as [Hd|Hd].
  - rewrite (ok_dir_links T Hok i nd) by done. rewrite decide_False; [done|].
    destruct (entry_not_root Hd). tauto.
  - rewrite (ok_file_links T Hok i nd) in Hl by done. lia.
Qed.

Lemma less_links_bounds :
  0 ≤ n_links (less_links nd) < 2 ^ 32 ∧ 0 ≤ n_handles (less_links nd) < 2 ^ 64.
Proof.
  pose proof (ok_bounds T Hok i nd Hi). pose proof entry_links. unfold less_links; simpl.
  case_decide; lia.
Qed.

Lemma keep_ok : tree_ok (del_edge (p, n) (put_node i (less_links nd) T)).
Proof.
  assert (∀ d, is_dir (del_edge (p, n) (put_node i (less_links nd) T)) d ↔ is_dir T d) as Hdir.
  { intros d. transitivity (is_dir (put_node i (less_links nd) T) d); [done|].
    rewrite is_dir_put_node. simpl. destruct (decide (d = i)) as [-> |]; [|naive_solver].
    split; [|intros (x & ? & ?); simplify_eq; naive_solver].
    intros [[_ ?]|[]]; [by exists nd|done]. }
  assert (∀ j, nlinks (edges T) j = (nlinks (delete (p, n) (edges T)) j + same i j)%nat) as Hcount
    by (intros j; by eapply nlinks_delete_entry).
  pose proof Hn as [Hn1 Hn2]. pose proof less_links_bounds as Hb.
  split; try setoid_rewrite Hdir; simpl.
  - rewrite dom_insert_L, (ok_stored T Hok).
    assert (i ∈ dom (nodes T)) by (apply elem_of_dom; eauto). set_solver.
  - intros j [x Hx]. apply (ok_range T Hok). lookup_inv; eauto.
  - intros d m v Hv. lookup_inv. by eapply ok_row.
  - intros d m j k' Hv Hm. lookup_inv.
    destruct (ok_target T Hok _ _ _ _ Hv Hm) as (x & Hx & ?).
    destruct (decide (j = i)) as [-> |].
    + eexists. rewrite lookup_insert_eq. split; [done|]. simpl. by simplify_eq.
    + exists x. by rewrite lookup_insert_ne.
  - intros d Hd. rewrite lookup_delete_ne by congruence. by apply ok_dot.
  - intros d x Hd Hkd Hr. setoid_rewrite lookup_delete_Some.
    assert (∃ y, nodes T !! d = Some y ∧ n_kind y = KDirectory ∧
              (n_links x ≠ 0 → n_links y ≠ 0 ∧ d ≠ i)) as (y & Hy & Hky & Hl).
    { apply lookup_insert_Some in Hd as [[<- <-]|[? Hd]]; [|by exists x].
      exists nd. split_and!; [done..|]. simpl. unfold less_links in *. simpl in *.
      by rewrite decide_True. }
    destruct (ok_dotdot T Hok d y) as (q & Hq & Hlink); [done..|].
    exists q. split; [split; [congruence|done]|].
    intros [Hy0 Hdi]%Hl. destruct (Hlink Hy0) as (m & ? & ?). exists m.
    split_and!; [done| |done]. intros [=]; subst. by simplify_eq.
  - by apply ok_is_dir_root.
  - intros j x Hj Hkj. lookup_inv.
    + pose proof (ok_file_links T Hok j nd Hi Hkj). specialize (Hcount j).
      rewrite same_eq in Hcount. rewrite decide_False by done. lia.
    + pose proof (ok_file_links T Hok j x Hj Hkj). specialize (Hcount j).
      rewrite same_ne in Hcount by done. lia.
  - intros j x Hj Hkj. specialize (Hcount j). apply lookup_insert_Some in Hj as [[<- <-]|[? Hj]].
    + assert (n_links (less_links nd) = 0) as Hl0 by (simpl; by rewrite decide_True).
      rewrite decide_True by tauto. rewrite same_eq in Hcount.
      pose proof (ok_dir_links T Hok i nd Hi Hkj) as H1. case_decide; lia.
    + rewrite same_ne in Hcount by done. rewrite <- (ok_dir_links T Hok j x) by done. lia.
  - intros j x Hj. apply lookup_insert_Some in Hj as [[<- <-]|[? Hj]]; [done|]. by eapply ok_bounds.
  - intros d m v Hv. lookup_inv. by eapply ok_name.
Qed.

Lemma gone_ok :
  n_links (less_links nd) = 0 →
  tree_ok (Tree (delete i (nodes T)) (delete (p, n) (drop_row i (edges T))) (stored T ∖ {[i]})
             (last_inode T) (last_handle T)).
Proof.
  intros Hl. pose proof removed_not_parent as Hpi. pose proof Hn as [Hn1 Hn2].
  set (T' := Tree _ _ _ _ _).
  assert (∀ d, is_dir T' d ↔ d ≠ i ∧ is_dir T d) as Hdir.
  { intros d. unfold is_dir, T'. simpl. setoid_rewrite lookup_delete_Some. naive_solver. }
  assert (∀ e v, edges T' !! e = Some v ↔ e ≠ (p, n) ∧ e.1 ≠ i ∧ edges T !! e = Some v) as Hedge.
  { intros [d m] v. unfold T'. simpl. rewrite lookup_delete_Some, drop_row_lookup.
    case_decide; naive_solver. }
  assert (∀ j, nlinks (edges T) j = (nlinks (edges T') j + same i j)%nat) as Hcount.
  { intros j. unfold T'; simpl. rewrite <- (drop_row_nlinks i (edges T)) by apply removed_row.
    eapply nlinks_delete_entry; [|done]. rewrite drop_row_lookup. by rewrite decide_False. }
  assert (nodes T' = delete i (nodes T)) as Hnodes by done.
  assert (stored T' = stored T ∖ {[i]}) as Hst by done.
  assert (last_inode T' = last_inode T) as Hlast by done.
  clearbody T'.
  split; try setoid_rewrite Hdir; try setoid_rewrite Hedge; rewrite ?Hnodes, ?Hst, ?Hlast; simpl.
  - by rewrite dom_delete_L, (ok_stored T Hok).
  - intros j [x Hx]. apply (ok_range T Hok). lookup_inv; eauto.
  - intros d m v (Hv1 & Hv2 & Hv). split; [done|]. by eapply ok_row.
  - intros d m j k' (Hv1 & Hv2 & Hv) Hm.
    destruct (ok_target T Hok _ _ _ _ Hv Hm) as (x & Hx & ?). exists x.
    split; [|done]. apply lookup_delete_Some. split; [|done]. intros <-.
    destruct (decide (m = dot)) as [-> |].
    + assert (is_dir T d) as Hd by by eapply ok_row. rewrite ok_dot in Hv by done. by simplify_eq.
    + by apply (removed_last d m k') in Hv.
  - intros d [Hdi Hd]. split_and!; [congruence|done|]. by apply ok_dot.
  - intros d x [Hdi Hd]%lookup_delete_Some Hkd Hr.
    destruct (ok_dotdot T Hok d x) as (q & Hq & Hlink); [done..|].
    exists q. split; [split_and!; [congruence|done|done]|].
    intros Hx. destruct (Hlink Hx) as (m & Hm & Hv). exists m.
    split_and!; [done| | |done]; [intros [=]; subst; by simplify_eq|].
    intros ->. by apply removed_row in Hv.
  - assert (FUSE_ROOT_ID ≠ i) as Hri.
    { intros Hri. destruct (ok_root T Hok) as (x & Hx & Hkx). rewrite Hri in Hx.
      assert (x = nd) as -> by congruence. by destruct (entry_not_root Hkx). }
    split; [done|]. by apply ok_is_dir_root.
  - intros j x [Hji Hj]%lookup_delete_Some Hkj. specialize (Hcount j).
    rewrite same_ne in Hcount by done. pose proof (ok_file_links T Hok j x Hj Hkj). lia.
  - intros j x [Hji Hj]%lookup_delete_Some Hkj. specialize (Hcount j).
    rewrite same_ne in Hcount by done. rewrite <- (ok_dir_links T Hok j x) by done. lia.
  - intros j x [Hji Hj]%lookup_delete_Some. by eapply ok_bounds.
  - intros d m v (Hv1 & Hv2 & Hv). by eapply ok_name.
Qed.

Lemma remove_ok : tree_ok (remove p n i nd T).
Proof.
  unfold remove, gc. case_decide as Hg; [|apply keep_ok].
  pose proof (gone_ok (proj1 Hg)) as Hgone. unfold del_edge, put_node; simpl.
  by rewrite delete_insert_eq.
Qed.
End removal.

Lemma set_parent_nodes i k q T : nodes (set_parent i k q T) = nodes T.
Proof. unfold set_parent. by case_decide. Qed.
Lemma set_parent_stored i k q T : stored (set_parent i k q T) = stored T.
Proof. unfold set_parent. by case_decide. Qed.
Lemma set_parent_last i k q T : last_inode (set_parent i k q T) = last_inode T.
Proof. unfold set_parent. by case_decide. Qed.
Lemma set_parent_edges i k q T e :
  edges (set_parent i k q T) !! e
  = if decide (k = KDirectory ∧ e = (i, dotdot)) then Some (q, KDirectory) else edges T !! e.
Proof.
  unfold set_parent. destruct (decide (k = KDirectory)) as [-> |]; simpl.
  - destruct (decide (e = (i, dotdot))) as [-> |].
    + rewrite lookup_insert_eq. by rewrite decide_True.
    + rewrite lookup_insert_ne by done. by rewrite decide_False by tauto.
  - by rewrite decide_False by tauto.
Qed.
Lemma set_parent_edges_ne i k q T e :
  e.2 ≠ dotdot → edges (set_parent i k q T) !! e = edges T !! e.
Proof. intros He. rewrite set_parent_edges. rewrite decide_False; [done|]. intros [_ ->]. done. Qed.
Lemma set_parent_nlinks i k q T j : nlinks (edges (set_parent i k q T)) j = nlinks (edges T) j.
Proof.
  unfold set_parent. case_decide; [|done]. apply nlinks_insert_dots. simpl. auto with simple.
Qed.

(** A tree with the same inodes and counts, whose changed entries are ordinary
    ones that show the kind of their inode, or the .. of the inodes in them. *)
Lemma reshape_ok T T' :
  tree_ok T →
  nodes T' = nodes T → stored T' = stored T → last_inode T' = last_inode T →
  (∀ j, nlinks (edges T') j = nlinks (edges T) j) →
  (∀ d n v, edges T' !! (d, n) = Some v → is_dir T d ∧ Z.of_nat (length n) < 2 ^ 32) →
  (∀ d n i k, n ≠ dotdot → edges T' !! (d, n) = Some (i, k) →
     ∃ nd, nodes T !! i = Some nd ∧ n_kind nd = k) →
  (∀ d, edges T' !! (d, dot) = edges T !! (d, dot)) →
  (∀ d nd, nodes T !! d = Some nd → n_kind nd = KDirectory → d ≠ FUSE_ROOT_ID →
     edges T' !! (d, dotdot) = edges T !! (d, dotdot) ∧
     (∀ q m, ordinary m → edges T !! (q, m) = Some (d, KDirectory) →
        edges T' !! (q, m) = Some (d, KDirectory)) ∨
     ∃ q m, edges T' !! (d, dotdot) = Some (q, KDirectory) ∧ ordinary m ∧
       edges T' !! (q, m) = Some (d, KDirectory)) →
  tree_ok T'.
Proof.
  intros Hok Hnodes Hstored Hlast Hcount Hrow Htarget Hdot Hdotdot.
  assert (∀ d, is_dir T' d ↔ is_dir T d) as Hdir by (intros d; unfold is_dir; by rewrite Hnodes).
  split; try setoid_rewrite Hdir; try setoid_rewrite Hcount; rewrite ?Hnodes, ?Hstored, ?Hlast.
  - apply Hok.
  - apply Hok.
  - intros d n v Hv. by eapply Hrow.
  - intros d n i k Hv Hn. by eapply Htarget.
  - intros d Hd. rewrite Hdot. by apply ok_dot.
  - intros d nd Hd Hk Hr. destruct (Hdotdot d nd Hd Hk Hr) as [[Hq Hkeep]|(q & m & Hq & ? & ?)].
    + destruct (ok_dotdot T Hok d nd) as (q & ? & Hlink); [done..|].
      exists q. rewrite Hq. split; [done|]. intros (m & ? & ?)%Hlink. exists m. auto.
    + exists q. split; [done|]. intros _. by exists m.
  - by apply ok_is_dir_root.
  - apply Hok.
  - apply Hok.
  - apply Hok.
  - intros d n v Hv. by eapply Hrow.
Qed.

Lemma remove_edges p n j nd T e :
  edges (remove p n j nd T) !! e
  = if decide (e = (p, n)) then None
    else if decide (n_links (less_links nd) = 0 ∧ n_handles nd = 0 ∧ e.1 = j) then None
    else edges T !! e.
Proof.
  unfold remove. change (n_handles nd) with (n_handles (less_links nd)).
  generalize (less_links nd) as nd'. intros nd'. unfold gc. cbn [edges del_edge].
  destruct (decide (e = (p, n))) as [-> |]; [by rewrite lookup_delete_eq|].
  rewrite lookup_delete_ne by done. destruct e as [d m].
  destruct (decide (n_links nd' = 0 ∧ n_handles nd' = 0)) as [Hg|Hg]; simpl.
  - rewrite drop_row_lookup. destruct (decide (d = j)).
    + by rewrite decide_True by tauto.
    + by rewrite decide_False by tauto.
  - by rewrite decide_False by tauto.
Qed.

Section movement.
Context (T : tree) (Hok : tree_ok T) (p : Z) (n : list Z) (i : Z) (k : FileKind).
Context (He : edges T !! (p, n) = Some (i, k)) (Hn : ordinary n).
Context (np : Z) (nn : list Z) (Hnn : ordinary nn).

Lemma move_ok :
  edges T !! (np, nn) = None → is_dir T np → Z.of_nat (length nn) < 2 ^ 32 →
  tree_ok (move p n i k np nn T).
Proof.
  intros Hnew Hnp Hlen. pose proof Hn as [Hn1 Hn2]. pose proof Hnn as [Hnn1 Hnn2].
  assert ((np, nn) ≠ (p, n)) as Hne by (intros [=]; subst; by rewrite He in Hnew).
  destruct (ok_target T Hok _ _ _ _ He) as (nd & Hi & Hk); [done|].
  set (E := <[(np, nn) := (i, k)]> (delete (p, n) (edges T))).
  assert (∀ e, edges (move p n i k np nn T) !! e
     = if decide (k = KDirectory ∧ e = (i, dotdot)) then Some (np, KDirectory) else E !! e) as Hedge
    by (intros e; apply set_parent_edges).
  assert (∀ e, E !! e = if decide (e = (np, nn)) then Some (i, k)
                        else if decide (e = (p, n)) then None else edges T !! e) as HE.
  { intros e. unfold E. destruct (decide (e = (np, nn))) as [-> |]; [by rewrite lookup_insert_eq|].
    rewrite lookup_insert_ne by done.
    destruct (decide (e = (p, n))) as [-> |]; [by rewrite lookup_delete_eq|by rewrite lookup_delete_ne]. }
  assert (∀ e v, edges (move p n i k np nn T) !! e = Some v →
    (k = KDirectory ∧ e = (i, dotdot) ∧ v = (np, KDirectory)) ∨ (e = (np, nn) ∧ v = (i, k)) ∨
    edges T !! e = Some v) as Hinv.
  { intros e v. rewrite Hedge, HE. destruct (decide (_ ∧ _)) as [[]|]; [naive_solver|].
    destruct (decide (e = (np, nn))); [naive_solver|]. destruct (decide (e = (p, n))); naive_solver. }
  eapply (reshape_ok T); try done; unfold move.
  - by rewrite set_parent_nodes.
  - by rewrite set_parent_stored.
  - by rewrite set_parent_last.
  - intros j. rewrite set_parent_nlinks. simpl. rewrite nlinks_insert_new by
      (rewrite ?lookup_delete_ne by done; done).
    symmetry. by eapply nlinks_delete_entry.
  - intros d m v [(-> & [= -> ->] & _)|[([= -> ->] & _)|Hv]]%Hinv; [|done|].
    + split; [by exists nd|done].
    + split; [by eapply ok_row|by eapply ok_name].
  - intros d m j k' Hm [(_ & [= _ ->] & _)|[(_ & [= -> ->])|Hv]]%Hinv;
      [done|by exists nd|by eapply ok_target].
  - intros d. fold (move p n i k np nn T). rewrite Hedge, HE.
    rewrite decide_False by (by intros [_ [=]]). by rewrite !decide_False by congruence.
  - intros d x Hd Hkd Hr. fold (move p n i k np nn T). setoid_rewrite Hedge.
    destruct (decide (d = i)) as [-> |Hdi].
    + right. assert (k = KDirectory) as Hkk by by simplify_eq. exists np, nn.
      split_and!; [by rewrite decide_True|done|].
      rewrite decide_False by (by intros [_ [=]]). rewrite HE, decide_True by done. by rewrite Hkk.
    + left. split.
      * rewrite decide_False by (intros [_ [=]]; done). rewrite HE.
        by rewrite !decide_False by congruence.
      * intros q m [Hm1 Hm2] Hv. rewrite decide_False by (by intros [_ [=]]).
        rewrite HE. rewrite !decide_False; [done|congruence..].
Qed.

Lemma exchange_ok j k' :
  edges T !! (np, nn) = Some (j, k') → i ≠ j → tree_ok (exchange p n i k np nn j k' T).
Proof.
  intros He' Hij. pose proof Hn as [Hn1 Hn2]. pose proof Hnn as [Hnn1 Hnn2].
  assert ((p, n) ≠ (np, nn)) as Hne by (intros Hpn; rewrite <- Hpn in He'; congruence).
  destruct (ok_target T Hok _ _ _ _ He) as (nd & Hi & Hk); [done|].
  destruct (ok_target T Hok _ _ _ _ He') as (nd' & Hj & Hk'); [done|].
  set (E := <[(p, n) := (j, k')]> (<[(np, nn) := (i, k)]> (edges T))).
  assert (∀ e, edges (exchange p n i k np nn j k' T) !! e
     = if decide (k' = KDirectory ∧ e = (j, dotdot)) then Some (p, KDirectory)
       else if decide (k = KDirectory ∧ e = (i, dotdot)) then Some (np, KDirectory)
       else E !! e) as Hedge.
  { intros e. unfold exchange. rewrite set_parent_edges. case_decide; [done|].
    by rewrite set_parent_edges. }
  assert (∀ e, E !! e = if decide (e = (p, n)) then Some (j, k')
                        else if decide (e = (np, nn)) then Some (i, k) else edges T !! e) as HE.
  { intros e. unfold E. destruct (decide (e = (p, n))) as [-> |]; [by rewrite lookup_insert_eq|].
    rewrite lookup_insert_ne by done.
    destruct (decide (e = (np, nn))) as [-> |]; [by rewrite lookup_insert_eq|by rewrite lookup_insert_ne]. }
  assert (∀ x, nlinks E x = nlinks (edges T) x) as Hcount.
  { intros x. unfold E.
    pose proof (nlinks_insert_over (edges T) (np, nn) j k' i k x He' Hnn).
    pose proof (nlinks_insert_over (<[(np, nn) := (i, k)]> (edges T)) (p, n) i k j k' x) as H1.
    rewrite lookup_insert_ne in H1 by done. specialize (H1 He Hn). lia. }
  assert (∀ e v, edges (exchange p n i k np nn j k' T) !! e = Some v →
    (k' = KDirectory ∧ e = (j, dotdot)) ∨ (k = KDirectory ∧ e = (i, dotdot)) ∨
    (e = (p, n) ∧ v = (j, k')) ∨ (e = (np, nn) ∧ v = (i, k)) ∨ edges T !! e = Some v) as Hinv.
  { intros e v. rewrite Hedge, HE. destruct (decide (_ ∧ _)) as [[]|]; [naive_solver|].
    destruct (decide (_ ∧ _)) as [[]|]; [naive_solver|].
    destruct (decide (e = (p, n))); [naive_solver|].
    destruct (decide (e = (np, nn))); naive_solver. }
  eapply (reshape_ok T); try done; unfold exchange.
  - by rewrite !set_parent_nodes.
  - by rewrite !set_parent_stored.
  - by rewrite !set_parent_last.
  - intros x. by rewrite !set_parent_nlinks.
  - intros d m v [(-> & [= -> ->])|[(-> & [= -> ->])|[([= -> ->] & _)|[([= -> ->] & _)|Hv]]]]%Hinv.
    + split; [by exists nd'|done].
    + split; [by exists nd|done].
    + split; [by eapply ok_row|by eapply ok_name].
    + split; [by eapply ok_row|by eapply ok_name].
    + split; [by eapply ok_row|by eapply ok_name].
  - intros d m x k2 Hm [(_ & [= _ ->])|[(_ & [= _ ->])|[(_ & [= -> ->])|[(_ & [= -> ->])|Hv]]]]%Hinv;
      [done|done|by exists nd'|by exists nd|by eapply ok_target].
  - intros d. fold (exchange p n i k np nn j k' T). rewrite Hedge, HE.
    rewrite decide_False by (by intros [_ [=]]). rewrite decide_False by (by intros [_ [=]]).
    by rewrite !decide_False by congruence.
  - intros d x Hd Hkd Hr. fold (exchange p n i k np nn j k' T). setoid_rewrite Hedge.
    assert (∀ (q : Z) m y (z w : option (Z * FileKind)) kk, m ≠ dotdot →
      (if decide (kk = KDirectory ∧ (q, m) = (y, dotdot)) then z else w) = w) as Hm.
    { intros q m y z w kk Hm. by rewrite decide_False by (by intros [_ [=]]). }
    destruct (decide (d = j)) as [-> |Hdj]; [|destruct (decide (d = i)) as [-> |Hdi]].
    + right. assert (k' = KDirectory) as Hkk by by simplify_eq. exists p, n.
      split_and!; [by rewrite decide_True|done|].
      rewrite !Hm by done. rewrite HE, decide_True by done. by rewrite Hkk.
    + right. assert (k = KDirectory) as Hkk by by simplify_eq. exists np, nn.
      split_and!; [|done|].
      * rewrite decide_False by (intros [_ [=]]; done). by rewrite decide_True.
      * rewrite !Hm by done. rewrite HE, decide_False, decide_True by done. by rewrite Hkk.
    + left. split.
      * rewrite decide_False by (intros [_ [=]]; done). rewrite decide_False by (intros [_ [=]]; done).
        rewrite HE. by rewrite !decide_False by congruence.
      * intros q m [Hm1 Hm2] Hv. rewrite !Hm by done.
        rewrite HE. rewrite !decide_False; [done|congruence..].
Qed.
End movement.
