(* ===== verification/SimpleRep.v ===== *)
(** * SimpleRep: SimpleFS refines the directory tree

    The files of [SimpleFS] represent a tree of SimpleTree.v; every method carries
    out the tree operation its call asks for, returns, and keeps the tree
    well-formed, when it is called as the kernel's VFS calls it. *)

From S2P Require Import Prelude KernelInterface Time Operation Response Session SimpleAttr SimpleFS SimpleTree.

Local Open Scope Z_scope.

(** ** Attributes whose reply can be built *)

Definition attrs_ok (a : InodeAttributes) : Prop :=
  0 ≤ size a < 2 ^ 63 ∧ time_ok (last_accessed a) ∧ time_ok (last_modified a) ∧
  time_ok (last_metadata_changed a).

Definition node_of (a : InodeAttributes) : node :=
  Node (kind a) (hardlinks a) (open_file_handles a).

Section representation.
Context `{B : Build, C : Libc, F : LibcFs, H : Host, HL : !HostLaws H}.

Definition dir_of (st : SimpleFS) (d : Z) : option Directory_ :=
  a ← inodes st !! d;
  if decide (kind a = KDirectory) then bytes ← contents st !! d; deserialize bytes else None.

(** The files of [st] hold the tree [T]. *)
Record rep (st : SimpleFS) (T : tree) : Prop := {
  rep_attrs i a : inodes st !! i = Some a → inode a = i ∧ attrs_ok a;
  rep_nodes : nodes T = node_of <$> inodes st;
  rep_edges d n : edges T !! (d, n) = dir_of st d ≫= (.!! n);
  rep_readable d : is_dir T d → d ∈ stored T → is_Some (dir_of st d);
  rep_stored : stored T = dom (contents st);
  rep_last : last_inode T = default FUSE_ROOT_ID (superblock st);
  rep_handle : last_handle T = next_file_handle st }.

Lemma rep_node st T i : rep st T → nodes T !! i = node_of <$> inodes st !! i.
Proof. intros R. rewrite (rep_nodes _ _ R). apply lookup_fmap. Qed.

Lemma rep_clock n st T : rep st T → rep (set_clock n st) T.
Proof. by intros []. Qed.

(** ** Judgements for early returns *)

Lemma yields_or_err {A D} (m : stateM SimpleFS (Z + A)) (k : A → stateM SimpleFS (Z + D)) st P Q :
  yields (m st) P → (∀ a st', P (inr a, st') → yields (k a st') Q) →
  (∀ e st', P (inl e, st') → Q (inl e, st')) → yields (or_err m k st) Q.
Proof.
  intros Hm Hk He. unfold or_err. eapply yields_bindM; [done|]. intros [e|a] st' HP; [by apply He|by apply Hk].
Qed.
Lemma yields_or_reply {A} (m : stateM SimpleFS (Z + A)) (k : A → stateM SimpleFS FsReply) st P Q :
  yields (m st) P → (∀ a st', P (inr a, st') → yields (k a st') Q) →
  (∀ e st', P (inl e, st') → Q (RError e, st')) → yields (or_reply m k st) Q.
Proof.
  intros Hm Hk He. unfold or_reply. eapply yields_bindM; [done|]. intros [e|a] st' HP; [by apply He|by apply Hk].
Qed.
Lemma yields_unwrap_result {A} (m : stateM SimpleFS (Z + A)) st P :
  yields (m st) (λ '(r, st'), ∃ a, r = inr a ∧ P (a, st')) → yields (unwrap_result m st) P.
Proof.
  intros Hm. unfold unwrap_result. eapply yields_bindM; [done|].
  by intros r st' (a & -> & ?).
Qed.
Lemma yields_lift {A} (m : outcome A) st (P : A * SimpleFS → Prop) :
  yields m (λ a, P (a, st)) → yields (lift m st) P.
Proof. unfold lift. by destruct m. Qed.

Lemma yields_and {A} (m : outcome A) (P Q : A → Prop) :
  yields m P → yields m Q → yields m (λ a, P a ∧ Q a).
Proof. by destruct m. Qed.

(** ** The clock *)

Lemma time_now_spec st T :
  rep st T → yields (time_now st) (λ '(t, st'), time_ok t ∧ rep st' T ∧ inodes st' = inodes st).
Proof.
  intros R. unfold time_now. unfold gets, modify, lift, mbind, stateM_bind. simpl.
  pose proof (now_bounds (clock st)) as [Hs Hn].
  assert (yields (time_from_system_time (now (clock st))) time_ok) as (t & -> & Ht)%yields_Ret.
  { apply time_from_ok; [lia|done]. }
  simpl. split_and!; [done| |done]. by apply rep_clock.
Qed.

(** What a stamp leaves alone. *)
Definition stamped (a a' : InodeAttributes) : Prop :=
  inode a' = inode a ∧ node_of a' = node_of a ∧
  (size a' = size a ∧ uid a' = uid a ∧ gid a' = gid a ∧ mode a' = mode a) ∧
  (attrs_ok a → attrs_ok a').
Lemma stamp_modified_changed_spec a st T :
  rep st T → yields (stamp_modified_changed a st) (λ '(a', st'), stamped a a' ∧ rep st' T).
Proof.
  intros R. unfold stamp_modified_changed.
  eapply yields_bindM; [by apply time_now_spec|]. intros t st1 (Ht & R1 & _).
  eapply yields_bindM; [by apply time_now_spec|]. intros t' st2 (Ht' & R2 & _).
  split; [|done]. split_and!; [done..|]. unfold attrs_ok; simpl. tauto.
Qed.
Lemma stamp_changed_modified_spec a st T :
  rep st T → yields (stamp_changed_modified a st) (λ '(a', st'), stamped a a' ∧ rep st' T).
Proof.
  intros R. unfold stamp_changed_modified.
  eapply yields_bindM; [by apply time_now_spec|]. intros t st1 (Ht & R1 & _).
  eapply yields_bindM; [by apply time_now_spec|]. intros t' st2 (Ht' & R2 & _).
  split; [|done]. split_and!; [done..|]. unfold attrs_ok; simpl. tauto.
Qed.
Lemma stamp_changed_spec a st T :
  rep st T → yields (stamp_changed a st) (λ '(a', st'), stamped a a' ∧ rep st' T).
Proof.
  intros R. unfold stamp_changed.
  eapply yields_bindM; [by apply time_now_spec|]. intros t st1 (Ht & R1 & _).
  split; [|done]. split_and!; [done..|]. unfold attrs_ok; simpl. tauto.
Qed.

(** ** The storage *)

Lemma get_inode_spec i st T :
  rep st T →
  yields (get_inode i st) (λ '(r, st'), st' = st ∧
    match r with
    | inl e => nodes T !! i = None ∧ e = ENOENT
    | inr a => nodes T !! i = Some (node_of a) ∧ inode a = i ∧ attrs_ok a ∧ inodes st !! i = Some a
    end).
Proof.
  intros R. unfold get_inode, gets. simpl. split; [done|].
  rewrite (rep_node _ _ _ R). destruct (inodes st !! i) as [a|] eqn:Ha; [|done].
  destruct (rep_attrs _ _ R _ _ Ha). done.
Qed.

(** Writing an inode of the same kind, or one without a content file yet. *)
Lemma write_inode_spec a st T :
  rep st T → attrs_ok a →
  match nodes T !! inode a with
  | Some nd => n_kind nd = kind a
  | None => inode a ∉ stored T
  end →
  yields (write_inode a st) (λ '(_, st'), rep st' (put_node (inode a) (node_of a) T)).
Proof.
  intros R Ha Hk. unfold write_inode, modify. simpl.
  assert (∀ d, dir_of (set_inodes <[inode a := a]> st) d = dir_of st d) as Hdir.
  { intros d. unfold dir_of. simpl. destruct (decide (d = inode a)) as [-> |].
    - rewrite lookup_insert_eq. simpl. rewrite (rep_node _ _ _ R) in Hk.
      rewrite (rep_stored _ _ R) in Hk.
      destruct (inodes st !! inode a) as [a'|] eqn:E; simpl in *.
      + by rewrite Hk.
      + rewrite (not_elem_of_dom_1 _ _ Hk). by case_decide.
    - by rewrite lookup_insert_ne. }
  split; simpl.
  - intros i b [[<- <-]|[? Hb]]%lookup_insert_Some; [done|]. by apply R.
  - rewrite (rep_nodes _ _ R). by rewrite fmap_insert.
  - intros d n. rewrite Hdir. apply R.
  - intros d [[-> Hd]|[? Hd]]%is_dir_put_node Hs; rewrite Hdir; [|by apply R].
    destruct (nodes T !! inode a) as [nd|] eqn:E; [|done].
    apply R; [|done]. exists nd. split; [done|]. by rewrite Hk.
  - apply R.
  - apply R.
  - apply R.
Qed.
Lemma write_inode_get a st : yields (write_inode a st) (λ '(_, st'), inodes st' !! inode a = Some a).
Proof. apply lookup_insert_eq. Qed.
Lemma put_node_id T i nd : nodes T !! i = Some nd → put_node i nd T = T.
Proof. intros Hi. destruct T. unfold put_node. simpl in *. by rewrite insert_id. Qed.
Lemma write_inode_same a st T :
  rep st T → attrs_ok a → nodes T !! inode a = Some (node_of a) →
  yields (write_inode a st) (λ '(_, st'), rep st' T).
Proof.
  intros R Ha Hn. refine (yields_mono _ _ _ (write_inode_spec a st T R Ha _) _).
  - by rewrite Hn.
  - intros [u st'] R'. by rewrite put_node_id in R'.
Qed.

Lemma get_directory_content_spec d st T :
  rep st T → is_dir T d → d ∈ stored T →
  yields (get_directory_content d st) (λ '(r, st'), st' = st ∧
    ∃ es, r = inr es ∧ dir_of st d = Some es ∧ ∀ n, es !! n = edges T !! (d, n)).
Proof.
  intros R Hd Hs. destruct (rep_readable _ _ R d Hd Hs) as [es Hes].
  assert (∃ bytes, contents st !! d = Some bytes ∧ deserialize bytes = Some es) as (bytes & Hb & Hde).
  { unfold dir_of in Hes. destruct (inodes st !! d) as [a|]; [simpl in Hes|done].
    case_decide; [|done]. destruct (contents st !! d) as [bytes|]; [|done]. by exists bytes. }
  unfold get_directory_content, open_content, gets, mbind, stateM_bind. rewrite Hb. simpl.
  unfold lift. rewrite Hde. simpl. split; [done|]. exists es. split_and!; [done..|].
  intros n. by rewrite (rep_edges _ _ R), Hes.
Qed.

(** Writing a directory: its row becomes the new entries. *)
Lemma write_directory_spec d es E st T :
  rep st T → is_dir T d →
  (∀ e n, E !! (e, n) = if decide (e = d) then es !! n else edges T !! (e, n)) →
  yields (write_directory_content d es st) (λ '(_, st'),
    rep st' (store d (Tree (nodes T) E (stored T) (last_inode T) (last_handle T)))).
Proof.
  intros R Hd HE. unfold write_directory_content, write_content, modify. simpl.
  assert (∀ e, dir_of (set_contents <[d := serialize es]> st) e
               = if decide (e = d) then Some es else dir_of st e) as Hdir.
  { intros e. unfold dir_of. simpl. case_decide as Hed.
    - subst. destruct Hd as (nd & Hnd & Hk). rewrite (rep_node _ _ _ R) in Hnd.
      apply fmap_Some in Hnd as (a & -> & ->). simpl in *. rewrite decide_True by done.
      rewrite lookup_insert_eq. simpl. apply deserialize_serialize.
    - by rewrite lookup_insert_ne. }
  split; simpl.
  - apply R.
  - apply R.
  - intros e n. rewrite HE, Hdir. case_decide; [done|]. apply R.
  - intros e He Hs. rewrite Hdir. case_decide; [done|]. apply R; [done|set_solver].
  - rewrite dom_insert_L. by rewrite (rep_stored _ _ R).
  - apply R.
  - apply R.
Qed.

Lemma store_id T i : i ∈ stored T → store i T = T.
Proof. intros Hi. destruct T. unfold store. simpl in *. f_equal. set_solver. Qed.

Lemma update_directory_spec d f E st T :
  rep st T → is_dir T d → d ∈ stored T →
  (∀ es, (∀ n, es !! n = edges T !! (d, n)) →
     ∀ e n, E !! (e, n) = if decide (e = d) then f es !! n else edges T !! (e, n)) →
  yields (update_directory d f st) (λ '(_, st'),
    rep st' (Tree (nodes T) E (stored T) (last_inode T) (last_handle T))).
Proof.
  intros R Hd Hs HE. unfold update_directory.
  eapply yields_bindM.
  { apply yields_unwrap_result. eapply yields_mono; [by apply get_directory_content_spec|].
    intros [r st'] (-> & es & -> & Hes). exists es. split; [done|].
    refine (_ : (λ p, p.2 = st ∧ dir_of st d = Some p.1 ∧ ∀ n, p.1 !! n = edges T !! (d, n)) (es, st)).
    by destruct Hes. }
  intros es st' (Hst & Hde & Hes). simpl in *. subst st'.
  pose proof (write_directory_spec d (f es) E st T R Hd (HE es Hes)) as R'. simpl in R'.
  by rewrite store_id in R'.
Qed.
Lemma insert_entry_spec d n v st T :
  rep st T → is_dir T d → d ∈ stored T →
  yields (update_directory d <[n := v]> st) (λ '(_, st'), rep st' (put_edge (d, n) v T)).
Proof.
  intros R Hd Hs. apply update_directory_spec; [done..|].
  intros es Hes e m. case_decide as He.
  - subst. destruct (decide (m = n)) as [-> |].
    + by rewrite !lookup_insert_eq.
    + rewrite !lookup_insert_ne by congruence. by rewrite Hes.
  - by rewrite lookup_insert_ne by congruence.
Qed.
Lemma delete_entry_spec d n st T :
  rep st T → is_dir T d → d ∈ stored T →
  yields (update_directory d (delete n) st) (λ '(_, st'), rep st' (del_edge (d, n) T)).
Proof.
  intros R Hd Hs. apply update_directory_spec; [done..|].
  intros es Hes e m. case_decide as He.
  - subst. destruct (decide (m = n)) as [-> |].
    + by rewrite !lookup_delete_eq.
    + rewrite !lookup_delete_ne by congruence. by rewrite Hes.
  - by rewrite lookup_delete_ne by congruence.
Qed.

(** The content of a file or link, whatever it is. *)
Lemma write_content_spec i bytes st T :
  rep st T → ¬ is_dir T i →
  yields (write_content i bytes st) (λ '(_, st'), rep st' (store i T)).
Proof.
  intros R Hi. unfold write_content, modify. simpl.
  assert (∀ e, dir_of (set_contents <[i := bytes]> st) e = dir_of st e) as Hdir.
  { intros e. unfold dir_of. simpl. destruct (decide (e = i)) as [-> |].
    - destruct (inodes st !! i) as [a|] eqn:Ha; [|done]. simpl. case_decide; [|done].
      destruct Hi. exists (node_of a). by rewrite (rep_node _ _ _ R), Ha.
    - by rewrite lookup_insert_ne. }
  split; simpl; try apply R.
  - intros d n. rewrite Hdir. apply R.
  - intros d Hd Hs. rewrite Hdir. apply R; [done|].
    assert (d ≠ i) by (by intros ->). set_solver.
  - rewrite dom_insert_L. by rewrite (rep_stored _ _ R).
Qed.

Lemma gc_inode_spec a st T :
  rep st T → nodes T !! inode a = Some (node_of a) → inode a ∈ stored T →
  yields (gc_inode a st) (λ '(_, st'), rep st' (gc (inode a) (node_of a) T)).
Proof.
  intros R Hn Hs. unfold gc_inode, gc.
  destruct (Z.eqb_spec (hardlinks a) 0) as [Hl|Hl]; simpl.
  2:{ by rewrite decide_False by tauto. }
  destruct (Z.eqb_spec (open_file_handles a) 0) as [Ho|Ho]; simpl.
  2:{ by rewrite decide_False by tauto. }
  rewrite decide_True by done.
  rewrite (rep_node _ _ _ R) in Hn. apply fmap_Some in Hn as (b & Hb & _).
  rewrite (rep_stored _ _ R) in Hs. apply elem_of_dom in Hs as [bytes Hc].
  unfold gets, modify, lift, mbind, stateM_bind. simpl. rewrite Hb. simpl. rewrite Hc. simpl.
  set (st' := set_contents _ _).
  assert (∀ e, dir_of st' e = if decide (e = inode a) then None else dir_of st e) as Hdir.
  { intros e. unfold dir_of, st'. simpl. destruct (decide (e = inode a)) as [-> |].
    - by rewrite (lookup_delete_eq (inodes st)).
    - by rewrite !lookup_delete_ne. }
  split; simpl.
  - intros i x [? Hx]%lookup_delete_Some. by apply R.
  - rewrite (rep_nodes _ _ R). by rewrite fmap_delete.
  - intros d n. rewrite drop_row_lookup, Hdir. case_decide; [done|]. apply R.
  - intros d (nd & Hd & Hk) Hs'. simpl in Hd. apply lookup_delete_Some in Hd as [? Hd].
    rewrite Hdir, decide_False by done. apply R; [by exists nd|set_solver].
  - rewrite dom_delete_L. by rewrite (rep_stored _ _ R).
  - apply R.
  - apply R.
Qed.

(** ** Lookups in a well-formed tree *)

Lemma lookup_name_spec d n st T :
  rep st T → tree_ok T → is_dir T d → ordinary n →
  yields (lookup_name d n st) (λ '(r, st'), st' = st ∧
    match r with
    | inl e => edges T !! (d, n) = None ∧ e = ENOENT
    | inr a => edges T !! (d, n) = Some (inode a, kind a) ∧
        nodes T !! inode a = Some (node_of a) ∧ attrs_ok a ∧ inodes st !! inode a = Some a
    end).
Proof.
  intros R Hok Hd [_ Hn]. unfold lookup_name.
  eapply yields_or_err.
  { apply get_directory_content_spec; [done..|]. by apply ok_dir_stored. }
  - intros es st' (-> & es' & [= <-] & Hde & Hes). rewrite Hes.
    destruct (edges T !! (d, n)) as [[i k]|] eqn:He; [|done].
    eapply yields_mono; [by apply (get_inode_spec i st T)|].
    destruct (ok_target T Hok _ _ _ _ He Hn) as (nd & Hnd & Hk).
    intros [[e|a] st'] [-> Hr]; (split; [done|]); [destruct Hr; congruence|].
    destruct Hr as (Ha & <- & ? & ?). split_and!; [|done..].
    assert (nd = node_of a) as -> by congruence. simpl in Hk. by subst k.
  - by intros e st' (-> & es & ? & _).
Qed.

Lemma is_ok_inr {A} (r : Z + A) : is_ok r = true ↔ ∃ a, r = inr a.
Proof. destruct r; simpl; naive_solver. Qed.

(** ** Allocation and replies *)

Lemma allocate_next_inode_spec st T :
  rep st T → 0 ≤ last_inode T → last_inode T + 1 < 2 ^ 64 →
  yields (allocate_next_inode st) (λ '(i, st'),
    i = fresh T ∧ rep st' (set_last (fresh T) T) ∧ inodes st' = inodes st).
Proof.
  intros R Hp Hl. unfold allocate_next_inode, gets, modify, lift, mbind, stateM_bind, fresh.
  pose proof (rep_last _ _ R) as HL'. unfold default in HL'. cbn -[uadd].
  assert (match superblock st with Some n => n | None => FUSE_ROOT_ID end = last_inode T) as ->
    by (rewrite HL'; by destruct (superblock st)).
  rewrite uadd_small by lia. simpl. split_and!; [done| |done].
  by destruct R.
Qed.

(** A handle carries its number and, above it, its rights. *)
Definition handle_for (fh n : Z) (r w : bool) : Prop :=
  Z.land fh (Z.ones 62) = n ∧ check_file_handle_read fh = r ∧ check_file_handle_write fh = w.

Lemma test_bit fh k : 0 ≤ k → negb (Z.land fh (Z.shiftl 1 k) =? 0) = Z.testbit fh k.
Proof.
  intros Hk. assert (Z.testbit (Z.land fh (Z.shiftl 1 k)) k = Z.testbit fh k) as Hb.
  { rewrite Z.land_spec, Z.shiftl_spec, Z.sub_diag by done. by rewrite andb_true_r. }
  destruct (Z.eqb_spec (Z.land fh (Z.shiftl 1 k)) 0) as [E|E]; simpl.
  { by rewrite <- Hb, E, Z.bits_0. }
  destruct (Z.testbit fh k) eqn:Ht; [done|]. destruct E. apply Z.bits_inj'. intros n Hn.
  rewrite Z.land_spec, Z.bits_0. destruct (decide (n = k)) as [-> |Hne]; [by rewrite Ht|].
  rewrite Z.shiftl_1_l, Z.pow2_bits_false by lia. by rewrite andb_false_r.
Qed.

Lemma handle_for_bits n (r w : bool) :
  0 ≤ n < 2 ^ 62 →
  handle_for (let fh := if r then Z.lor n FILE_HANDLE_READ_BIT else n in
              if w then Z.lor fh FILE_HANDLE_WRITE_BIT else fh) n r w.
Proof.
  intros Hn.
  match goal with |- handle_for ?x _ _ _ => set (fh := x) end.
  assert (∀ k : Z, 0 ≤ k → Z.testbit fh k =
    Z.testbit n k || (r && bool_decide (k = 63)) || (w && bool_decide (k = 62))) as Hfh.
  { intros k Hk.
    assert (∀ j : Z, 0 ≤ j → Z.testbit (Z.shiftl 1 j) k = bool_decide (k = j)) as Hone.
    { intros j Hj. rewrite Z.shiftl_1_l, Z.pow2_bits_eqb by done.
      case_bool_decide; [by subst; rewrite Z.eqb_refl|]. by apply Z.eqb_neq. }
    unfold fh, FILE_HANDLE_READ_BIT, FILE_HANDLE_WRITE_BIT.
    destruct r, w; rewrite ?Z.lor_spec, ?Hone by done; simpl; by rewrite ?orb_false_r. }
  assert (∀ k : Z, 62 ≤ k → Z.testbit n k = false) as Hhigh.
  { intros k Hk. destruct (decide (n = 0)) as [-> |]; [apply Z.bits_0|].
    apply Z.bits_above_log2; [lia|]. assert (Z.log2 n < 62); [|lia]. apply Z.log2_lt_pow2; lia. }
  split_and!.
  - apply Z.bits_inj'. intros k Hk. rewrite Z.land_spec, Hfh, Z.testbit_ones by done.
    destruct (Z.ltb_spec k 62).
    + rewrite !bool_decide_eq_false_2 by lia. rewrite (proj2 (Z.leb_le 0 k)) by done.
      by rewrite !andb_false_r, !orb_false_r, andb_true_r.
    + rewrite Hhigh by done. by rewrite !andb_false_r.
  - unfold check_file_handle_read, FILE_HANDLE_READ_BIT. rewrite test_bit, Hfh, Hhigh by lia.
    by destruct r, w.
  - unfold check_file_handle_write, FILE_HANDLE_WRITE_BIT. rewrite test_bit, Hfh, Hhigh by lia.
    by destruct r, w.
Qed.

Lemma allocate_next_file_handle_spec r w st T :
  rep st T → 0 ≤ last_handle T < 2 ^ 62 →
  yields (allocate_next_file_handle r w st) (λ '(fh, st'),
    handle_for fh (last_handle T) r w ∧ rep st' (set_handle (last_handle T + 1) T)).
Proof.
  intros R Hh. unfold allocate_next_file_handle, gets, modify, lift, mbind, stateM_bind.
  rewrite <- (rep_handle _ _ R). unfold assert_.
  rewrite (proj2 (Z.ltb_lt (last_handle T) FILE_HANDLE_WRITE_BIT)) by
    (unfold FILE_HANDLE_WRITE_BIT; rewrite Z.shiftl_1_l; lia).
  split; [by apply handle_for_bits|]. rewrite wrap_small by lia. by destruct R.
Qed.

Lemma FileAttr_from_spec a :
  attrs_ok a → yields (FileAttr_from a) (λ attr, attr_ino' attr = inode a).
Proof.
  intros (Hs & [Ha Ha'] & [Hm Hm'] & [Hc Hc']). unfold FileAttr_from, BLOCK_SIZE.
  rewrite uadd_small by lia. cbn -[usub system_time_from_time].
  rewrite usub_small by lia. cbn -[system_time_from_time].
  pose proof (system_time_from_time_spec _ _ Ha Ha') as (t1 & -> & _)%yields_Ret.
  cbn -[system_time_from_time].
  pose proof (system_time_from_time_spec _ _ Hm Hm') as (t2 & -> & _)%yields_Ret.
  cbn -[system_time_from_time].
  pose proof (system_time_from_time_spec _ _ Hc Hc') as (t3 & -> & _)%yields_Ret.
  done.
Qed.
Lemma reply_entry_spec a st :
  attrs_ok a →
  yields (reply_entry a st) (λ '(r, st'), st' = st ∧ ∃ attr, r = REntry attr ∧ attr_ino' attr = inode a).
Proof.
  intros Ha. unfold reply_entry.
  pose proof (FileAttr_from_spec a Ha) as (attr & Hf & Hi)%yields_Ret.
  unfold lift, mbind, stateM_bind. rewrite Hf. simpl. split; [done|]. by exists attr.
Qed.
Lemma reply_attr_spec a st :
  attrs_ok a → yields (reply_attr a st) (λ '(r, st'), st' = st).
Proof.
  intros Ha. unfold reply_attr.
  pose proof (FileAttr_from_spec a Ha) as (attr & Hf & Hi)%yields_Ret.
  unfold lift, mbind, stateM_bind. by rewrite Hf.
Qed.
End representation.
