(* ===== verification/SimpleRefine.v ===== *)
(** * SimpleRefine: the methods of SimpleFS carry out tree operations

    [vfs_ok] is what the Linux VFS guarantees of a call (the type of the inode it
    names, no call on . and .., non-negative positions), [tree_step] the effect of
    a call and its answer on the tree.  Every method returns, without a panic,
    with an answer and a state that [tree_step] allows, and so the tree stays
    well-formed over any run. *)

From S2P Require Import Prelude KernelInterface Time Operation Response Session SimpleAttr SimpleFS SimpleTree.
From S2P Require Import SimpleRep.

Local Open Scope Z_scope.

(** ** The calls of the kernel *)

Definition name_ok (n : list Z) : Prop := ordinary n ∧ Z.of_nat (length n) < 2 ^ 32.

Definition time_arg_ok (t : option TimeOrNow) : Prop :=
  match t with
  | Some (SpecificTime t) => - 2 ^ 63 < tv_sec t < 2 ^ 63 ∧ 0 ≤ tv_nsec t < NANOS_PER_SEC
  | _ => True
  end.

(** The numbers of inodes, links and handles are not used up. *)
Record room (T : tree) : Prop := {
  room_inodes : last_inode T + 1 < 2 ^ 64;
  room_handles : 0 ≤ last_handle T < 2 ^ 62;
  room_counts i nd : nodes T !! i = Some nd → n_links nd + 1 < 2 ^ 32 ∧ n_handles nd + 1 < 2 ^ 64 }.

Fixpoint first_error (l : list (bool * Z)) : option Z :=
  match l with [] => None | (b, e) :: l => if b then Some e else first_error l end.

Section calls.
Context `{B : Build, C : Libc, F : LibcFs, H : Host}.

Definition vfs_ok (req : Requester) (T : tree) (c : FsCall) : Prop :=
  match c with
  | Fs_lookup p n => is_dir T p ∧ ordinary n
  | Fs_mknod p n m _ _ => is_dir T p ∧ name_ok n ∧ Z.land m S_IFMT ≠ S_IFDIR
  | Fs_mkdir p n _ _ => is_dir T p ∧ name_ok n
  | Fs_symlink p n link => is_dir T p ∧ name_ok n ∧ Z.of_nat (length link) < 2 ^ 63
  | Fs_create p n m _ _ => is_dir T p ∧ name_ok n ∧ Z.land m S_IFMT = S_IFREG
  | Fs_unlink p n => is_dir T p ∧ ordinary n ∧
      ∀ i k, edges T !! (p, n) = Some (i, k) → k ≠ KDirectory
  | Fs_rmdir p n => is_dir T p ∧ ordinary n ∧
      ∀ i k, edges T !! (p, n) = Some (i, k) → k = KDirectory
  | Fs_rename p n np nn _ => is_dir T p ∧ is_dir T np ∧ ordinary n ∧ name_ok nn ∧
      ∀ i k j k', edges T !! (p, n) = Some (i, k) → edges T !! (np, nn) = Some (j, k') → i ≠ j
  | Fs_link i p n => is_dir T p ∧ name_ok n ∧ ¬ is_dir T i
  | Fs_setattr i _ _ _ sz atime mtime _ _ _ _ _ _ =>
      (∀ s, sz = Some s → 0 ≤ s ∧ ¬ is_dir T i) ∧ time_arg_ok atime ∧ time_arg_ok mtime ∧
      ∃ gs, get_groups (req_pid req) = Ret gs
  | Fs_read i _ off sz _ _ => 0 ≤ off < 2 ^ 63 ∧ 0 ≤ sz
  | Fs_write i _ off data _ _ _ => ¬ is_dir T i ∧ 0 ≤ off ∧ off + Z.of_nat (length data) < 2 ^ 63
  | Fs_release i _ _ _ _ | Fs_releasedir i _ _ =>
      ∀ nd, nodes T !! i = Some nd → 0 < n_handles nd
  | Fs_readdir i _ off _ => is_dir T i ∧ 0 ≤ off
  | Fs_fallocate i _ off len _ => ¬ is_dir T i ∧ 0 ≤ off ∧ 0 ≤ len ∧ off + len < 2 ^ 63
  | Fs_copy_file_range i _ off j _ off' len _ =>
      ¬ is_dir T j ∧ 0 ≤ off < 2 ^ 63 ∧ 0 ≤ off' ∧ 0 ≤ len ∧ off' + len < 2 ^ 63
  | _ => True
  end.

(** Calls that change no entry, link count or handle. *)
Definition quiet (c : FsCall) : bool :=
  match c with
  | Fs_lookup _ _ | Fs_mknod _ _ _ _ _ | Fs_mkdir _ _ _ _ | Fs_unlink _ _ | Fs_rmdir _ _
  | Fs_symlink _ _ _ | Fs_rename _ _ _ _ _ | Fs_link _ _ _ | Fs_open _ _ | Fs_opendir _ _
  | Fs_create _ _ _ _ _ => false
  | _ => true
  end.

(** ** The specification *)

(** What the checks of the methods look at. *)
Definition may (st : SimpleFS) (req : Requester) (i mask : Z) : bool :=
  match inodes st !! i with Some a => access_to a req mask | None => false end.
Definition sticky (st : SimpleFS) (req : Requester) (d i : Z) : bool :=
  match inodes st !! d, inodes st !! i with
  | Some pa, Some a => sticky_denies pa a req
  | _, _ => false
  end.
(** A directory that holds more than . and .. . *)
Definition crowded (st : SimpleFS) (i : Z) : bool :=
  match dir_of st i with Some es => bool_decide (2 < base.size es)%nat | None => false end.
Definition is_entry (T : tree) (d : Z) (n : list Z) : bool :=
  bool_decide (is_Some (edges T !! (d, n))).
Definition target (T : tree) (d : Z) (n : list Z) : Z :=
  match edges T !! (d, n) with Some (i, _) => i | None => 0 end.
Definition entry_dir (T : tree) (d : Z) (n : list Z) : bool :=
  match edges T !! (d, n) with Some (_, k) => bool_decide (k = KDirectory) | None => false end.

Definition open_checks (ex : bool) st req T i fl : list (bool * Z) :=
  match open_mode ex fl with
  | inl e => [(true, e)]
  | inr (mask, _, _) =>
      [(bool_decide (nodes T !! i = None), ENOENT); (negb (may st req i mask), EACCES)]
  end.

(** The conditions under which a call is refused, each with its error number, in
    the order in which they count. *)
Definition checks (st : SimpleFS) (req : Requester) (T : tree) (c : FsCall) : list (bool * Z) :=
  match c with
  | Fs_lookup p n =>
      [(MAX_NAME_LENGTH <? Z.of_nat (length n), ENAMETOOLONG);
       (negb (may st req p X_OK), EACCES); (negb (is_entry T p n), ENOENT)]
  | Fs_mknod p n m _ _ =>
      [(negb (Z.land m S_IFMT =? S_IFREG) && negb (Z.land m S_IFMT =? S_IFLNK), ENOSYS);
       (is_entry T p n, EEXIST); (negb (may st req p W_OK), EACCES)]
  | Fs_mkdir p n _ _ => [(is_entry T p n, EEXIST); (negb (may st req p W_OK), EACCES)]
  | Fs_create p n _ _ fl =>
      [(is_entry T p n, EEXIST); (bool_decide (create_mode fl = None), EINVAL);
       (negb (may st req p W_OK), EACCES)]
  | Fs_symlink p n _ => [(negb (may st req p W_OK), EACCES); (is_entry T p n, EEXIST)]
  | Fs_link i p n =>
      [(bool_decide (nodes T !! i = None), ENOENT); (is_entry T p n, EEXIST);
       (negb (may st req p W_OK), EACCES)]
  | Fs_unlink p n =>
      [(negb (is_entry T p n), ENOENT); (negb (may st req p W_OK), EACCES);
       (sticky st req p (target T p n), EACCES)]
  | Fs_rmdir p n =>
      [(negb (is_entry T p n), ENOENT); (crowded st (target T p n), ENOTEMPTY);
       (negb (may st req p W_OK), EACCES); (sticky st req p (target T p n), EACCES)]
  | Fs_rename p n np nn fl =>
      [(negb (is_entry T p n), ENOENT); (negb (may st req p W_OK), EACCES);
       (sticky st req p (target T p n), EACCES); (negb (may st req np W_OK), EACCES);
       (is_entry T np nn && sticky st req np (target T np nn), EACCES)] ++
      (if Z.land fl RENAME_EXCHANGE =? 0 then
         [(entry_dir T np nn && crowded st (target T np nn), ENOTEMPTY);
          (entry_dir T p n && negb (p =? np) && negb (may st req (target T p n) W_OK), EACCES)]
       else [(negb (is_entry T np nn), ENOENT)])
  | Fs_open i fl => open_checks true st req T i fl
  | Fs_opendir i fl => open_checks false st req T i fl
  | _ => []
  end.
Definition expected (st : SimpleFS) (req : Requester) (T : tree) (c : FsCall) : option Z :=
  first_error (checks st req T c).
(** The error a reply states. *)
Definition answer (r : FsReply) : option Z := match r with RError e => Some e | _ => None end.


Inductive tree_step : FsCall → FsReply → tree → tree → Prop :=
  | step_quiet c r T : quiet c = true → tree_step c r T T
  | step_error c e T : tree_step c (RError e) T T
  | step_lookup p n attr k T :
      edges T !! (p, n) = Some (attr_ino' attr, k) →
      tree_step (Fs_lookup p n) (REntry attr) T T
  | step_mknod p n m um rd attr k T :
      edges T !! (p, n) = None → attr_ino' attr = fresh T → k ≠ KDirectory →
      tree_step (Fs_mknod p n m um rd) (REntry attr) T (add_file p n k 0 T)
  | step_create p n m um fl attr fh rd wr T :
      edges T !! (p, n) = None → attr_ino' attr = fresh T →
      create_mode fl = Some (rd, wr) → handle_for fh (last_handle T) rd wr →
      tree_step (Fs_create p n m um fl) (RCreated attr fh 0) T
        (set_handle (last_handle T + 1) (add_file p n KFile 1 T))
  | step_mkdir p n m um attr T :
      edges T !! (p, n) = None → attr_ino' attr = fresh T →
      tree_step (Fs_mkdir p n m um) (REntry attr) T (add_dir p n T)
  | step_symlink p n link attr T :
      edges T !! (p, n) = None → attr_ino' attr = fresh T →
      tree_step (Fs_symlink p n link) (REntry attr) T (add_file p n KSymlink 0 T)
  (** a refused symlink has taken an inode number *)
  | step_symlink_refused p n link e T :
      tree_step (Fs_symlink p n link) (RError e) T (set_last (fresh T) T)
  | step_unlink p n i k nd T :
      edges T !! (p, n) = Some (i, k) → nodes T !! i = Some nd →
      tree_step (Fs_unlink p n) ROk T (remove p n i nd T)
  | step_rmdir p n i k nd T :
      edges T !! (p, n) = Some (i, k) → nodes T !! i = Some nd →
      (∀ m v, edges T !! (i, m) = Some v → ¬ ordinary m) →
      tree_step (Fs_rmdir p n) ROk T (remove p n i nd T)
  | step_link i p n attr nd T :
      edges T !! (p, n) = None → nodes T !! i = Some nd → attr_ino' attr = i →
      tree_step (Fs_link i p n) (REntry attr) T (add_link p n i nd T)
  | step_rename p n np nn fl i k T :
      edges T !! (p, n) = Some (i, k) → edges T !! (np, nn) = None →
      tree_step (Fs_rename p n np nn fl) ROk T (move p n i k np nn T)
  | step_rename_over p n np nn fl i k j k' nd T :
      edges T !! (p, n) = Some (i, k) → edges T !! (np, nn) = Some (j, k') →
      nodes T !! j = Some nd →
      (k' = KDirectory → ∀ m v, edges T !! (j, m) = Some v → ¬ ordinary m) →
      tree_step (Fs_rename p n np nn fl) ROk T (move p n i k np nn (remove np nn j nd T))
  | step_exchange p n np nn fl i k j k' T :
      Z.land fl RENAME_EXCHANGE ≠ 0 →
      edges T !! (p, n) = Some (i, k) → edges T !! (np, nn) = Some (j, k') →
      tree_step (Fs_rename p n np nn fl) ROk T (exchange p n i k np nn j k' T)
  | step_open i fl fh op nd mask rd wr T :
      nodes T !! i = Some nd →
      open_mode true fl = inr (mask, rd, wr) → handle_for fh (last_handle T) rd wr →
      tree_step (Fs_open i fl) (ROpened fh op) T (add_handle i nd T)
  | step_opendir i fl fh op nd mask rd wr T :
      nodes T !! i = Some nd →
      open_mode false fl = inr (mask, rd, wr) → handle_for fh (last_handle T) rd wr →
      tree_step (Fs_opendir i fl) (ROpened fh op) T (add_handle i nd T).

Lemma add_handle_ok T i nd :
  tree_ok T → room T → nodes T !! i = Some nd → tree_ok (add_handle i nd T).
Proof.
  intros Hok Hroom Hi. apply set_handle_ok, put_handles_ok; [done..|].
  pose proof (ok_bounds T Hok _ _ Hi). pose proof (room_counts T Hroom _ _ Hi). lia.
Qed.

(** Each effect keeps the tree well-formed. *)
Lemma tree_step_ok req T T' c r :
  tree_ok T → room T → vfs_ok req T c → tree_step c r T T' → tree_ok T'.
Proof.
  intros Hok Hroom Hvfs Hstep. pose proof (ok_last T Hok).
  inversion Hstep; subst; simpl in Hvfs; try done; destruct_and? Hvfs;
    unfold name_ok in *; destruct_and?.
  - by apply add_file_ok.
  - apply set_handle_ok, add_file_ok; done || lia.
  - by apply add_dir_ok.
  - by apply add_file_ok.
  - apply set_last_ok; [done|]. unfold fresh. lia.
  - eapply remove_ok; [done..|]. intros Hd.
    exfalso. assert (k = n_kind nd) by by eapply entry_kind. naive_solver.
  - by eapply remove_ok.
  - apply add_link_ok; try done.
    + intros Hk. match goal with Hd : ¬ is_dir _ _ |- _ => destruct Hd; by exists nd end.
    + by eapply room_counts.
  - by apply move_ok.
  - assert (k' = n_kind nd) as Hk' by (by eapply (entry_kind T Hok np nn j)).
    assert (tree_ok (remove np nn j nd T)) as Hok'.
    { eapply remove_ok; try done. by rewrite <- Hk'. }
    assert (i ≠ j) as Hij by eauto.
    assert (n_links (less_links nd) = 0 ∧ n_handles nd = 0 → ∀ d m v, ordinary m →
      edges T !! (d, m) = Some v → d ≠ j) as Hrow.
    { intros _ d m v Hm Hv ->. eapply (removed_row T Hok j nd); try done.
      by rewrite <- Hk'. }
    apply move_ok; try done.
    + rewrite remove_edges.
      destruct (decide ((p, n) = (np, nn))) as [[= -> ->]|_]; [by simplify_eq|].
      rewrite decide_False; [done|]. intros (Hl & Hh & Hd). simpl in Hd.
      by eapply (Hrow (conj Hl Hh) p n).
    + rewrite remove_edges. by rewrite decide_True.
    + match goal with Hd : is_dir T np |- _ => destruct Hd as (x & Hx & Hkx) end.
      unfold is_dir, remove, gc. simpl. case_decide as Hg; simpl.
      * exists x. rewrite delete_insert_eq, lookup_delete_ne; [done|]. intros ->.
        by eapply (Hrow Hg np nn).
      * destruct (decide (j = np)) as [-> |].
        -- eexists. rewrite lookup_insert_eq. split; [done|]. simpl. by simplify_eq.
        -- exists x. by rewrite lookup_insert_ne.
  - by eapply exchange_ok; eauto.
  - by apply add_handle_ok.
  - by apply add_handle_ok.
Qed.
End calls.

(** ** The steps the methods share *)

Section steps.
Context `{B : Build, C : Libc, F : LibcFs, H : Host, CL : !LibcLaws C, HL : !HostLaws H}.
Context `{FL : !LibcFsLaws C F}.

Lemma prepare_parent_spec req p st T :
  rep st T → is_dir T p →
  yields (prepare_parent req p st) (λ '(r, st'), rep st' T ∧
    match r with
    | inl e => may st req p W_OK = false ∧ e = EACCES
    | inr _ => may st req p W_OK = true ∧ may st' req p W_OK = true
    end).
Proof.
  intros R Hp. unfold prepare_parent. eapply yields_or_err; [by apply get_inode_spec| |].
  - intros a st' (-> & Ha & Hi & Hok & Hget). unfold may. rewrite Hget.
    destruct (access_to a req W_OK) eqn:Hacc; [|done]. simpl.
    eapply yields_bindM; [by apply stamp_modified_changed_spec|]. intros a' st1 [Hs R1].
    destruct Hs as (Hi' & Hn' & (_ & Hu & Hg & Hm) & Hok').
    eapply yields_bindM.
    { apply yields_and; [|apply write_inode_get].
      apply (write_inode_same a' st1 T); [done|auto|by rewrite Hi', Hn', Hi]. }
    intros [] st2 [R2 Hget2]. rewrite Hi', Hi in Hget2. split; [done|]. split; [done|].
    rewrite Hget2. unfold access_to in *. by rewrite Hu, Hg, Hm.
  - intros e st' [-> [Hr _]]. destruct Hp as (nd & Hnd & _). congruence.
Qed.

Lemma creation_mode_spec m st : yields (creation_mode m st) (λ '(_, st'), st' = st).
Proof. done. Qed.

Lemma new_attributes_spec i h sz K m l u g st T :
  rep st T → (∀ st, yields (m st) (λ '(_, st'), st' = st)) → 0 ≤ sz < 2 ^ 63 →
  yields (new_attributes i h sz (mret K) m l u g st)
    (λ '(a, st'), inode a = i ∧ node_of a = Node K l h ∧ attrs_ok a ∧ rep st' T ∧
       inodes st' = inodes st).
Proof.
  intros R Hm Hsz. unfold new_attributes.
  eapply yields_bindM; [by apply time_now_spec|]. intros t1 st1 (H1 & R1 & I1).
  eapply yields_bindM; [by apply time_now_spec|]. intros t2 st2 (H2 & R2 & I2).
  eapply yields_bindM; [by apply time_now_spec|]. intros t3 st3 (H3 & R3 & I3).
  eapply (yields_bindM _ _ _ (λ p, p = (K, st3))); [done|]. intros k st4 [= -> ->].
  eapply yields_bindM; [apply Hm|]. intros m' st4 ->. simpl.
  split_and!; [done..| |done|congruence]. unfold attrs_ok. simpl. tauto.
Qed.

Section parent.
Context (T : tree) (Hok : tree_ok T) (Hroom : room T).
Context (p : Z) (n : list Z) (Hp : is_dir T p) (Hn : ordinary n).

Lemma fresh_not_stored : fresh T ∉ stored T.
Proof. rewrite <- (ok_stored_in T Hok). rewrite (ok_fresh T Hok). by intros []. Qed.

Lemma new_inode_spec a st :
  rep st (set_last (fresh T) T) → inode a = fresh T → attrs_ok a →
  yields (write_inode a st) (λ '(_, st'),
    rep st' (put_node (fresh T) (node_of a) (set_last (fresh T) T))).
Proof.
  intros R Hi Ha.
  refine (yields_mono _ _ _ (write_inode_spec a st _ R Ha _) _); [|by rewrite Hi].
  rewrite Hi. simpl. rewrite (ok_fresh T Hok). apply fresh_not_stored.
Qed.

Lemma allocate_spec st :
  rep st T →
  yields (allocate_next_inode st) (λ '(i, st'),
    i = fresh T ∧ rep st' (set_last (fresh T) T) ∧ inodes st' = inodes st).
Proof.
  intros R. pose proof (ok_last T Hok). apply allocate_next_inode_spec; [done|lia|].
  by apply room_inodes.
Qed.

Lemma parent_in K h :
  let T' := store (fresh T) (put_node (fresh T) (Node K 1 h) (set_last (fresh T) T)) in
  is_dir T' p ∧ p ∈ stored T'.
Proof.
  split; simpl.
  - apply (is_dir_put_node _ (fresh T) (Node K 1 h)). right. split; [|done].
    destruct Hp as (nd & Hnd & _). intros Hpf. by rewrite Hpf, (ok_fresh T Hok) in Hnd.
  - pose proof (ok_dir_stored T Hok p Hp). set_solver.
Qed.

Lemma make_node_spec req mode h pa K st :
  rep st T → as_file_kind (user_mode req mode) = Ret K → K ≠ KDirectory →
  yields (make_node req p n mode h pa st)
    (λ '(a, st'), inode a = fresh T ∧ attrs_ok a ∧ rep st' (add_file p n K h T)).
Proof.
  intros R HK Hne. unfold make_node. rewrite HK.
  eapply yields_bindM; [by apply allocate_spec|]. intros i st1 (-> & R1 & _).
  eapply yields_bindM.
  { apply (new_attributes_spec (fresh T) h 0 K); [exact R1|intros; apply creation_mode_spec|lia]. }
  intros a st2 (Hi & Hnode & Ha & R2 & _).
  eapply yields_bindM; [by apply new_inode_spec|]. intros [] st3 R3. rewrite Hnode in R3.
  eapply yields_bindM.
  { apply write_content_spec; [exact R3|]. intros [[_ ?]|[? _]]%is_dir_put_node; done. }
  intros [] st4 R4.
  eapply (yields_bindM _ _ _ (λ p, p = (K, st4))); [done|]. intros k st5 [= -> ->].
  rewrite decide_False by done.
  eapply (yields_bindM _ _ _ (λ p, p = (tt, st4))); [done|]. intros [] st5 [= ->].
  assert (kind a = K) as -> by by injection Hnode.
  destruct (parent_in K h) as [Hd Hs].
  eapply yields_bindM; [by apply insert_entry_spec|]. intros [] st5 R5.
  done.
Qed.
End parent.

Lemma land_user_mode req mode : Z.land (user_mode req mode) S_IFMT = Z.land mode S_IFMT.
Proof.
  unfold user_mode. destruct (negb _); [|done]. rewrite <- Z.land_assoc. f_equal.
  by rewrite S_IFMT_value, S_ISUID_value, S_ISGID_value.
Qed.
Lemma S_IF_ne : S_IFREG ≠ S_IFLNK ∧ S_IFREG ≠ S_IFDIR ∧ S_IFLNK ≠ S_IFDIR.
Proof.
  destruct CL as [_ Hinj _ _ _ _ _].
  split_and!; intros E.
  - by specialize (Hinj RegularFile Symlink E).
  - by specialize (Hinj RegularFile Directory E).
  - by specialize (Hinj Symlink Directory E).
Qed.
End steps.

(** ** The methods that change the tree *)

Section methods.
Context `{B : Build, C : Libc, F : LibcFs, H : Host, CL : !LibcLaws C, HL : !HostLaws H}.
Context `{FL : !LibcFsLaws C F}.
Context (T : tree) (Hok : tree_ok T) (Hroom : room T) (req : Requester).

(** The reply states the error [x], if there is one, and the state follows. *)
Definition refines (x : option Z) (c : FsCall) : FsReply * SimpleFS → Prop :=
  λ '(r, st'), answer r = x ∧ ∃ T', tree_step c r T T' ∧ rep st' T'.

Lemma refines_error x c e st : rep st T → x = Some e → refines x c (RError e, st).
Proof. intros R ->. split; [done|]. exists T. split; [apply step_error|done]. Qed.

(** Evaluates the checks with what is known of the state. *)
Ltac eval_checks :=
  unfold expected, checks, open_checks, may, sticky, is_entry, entry_dir, target, crowded in *;
  simpl;
  repeat match goal with
  | E : ?x = ?y |- context [?x] =>
      match y with
      | Some _ => idtac | None => idtac | true => idtac | false => idtac
      | inl _ => idtac | inr _ => idtac
      end; rewrite E; simpl
  end; try done.
Ltac refused := apply refines_error; [done|eval_checks].

Lemma lookup_refines p n st :
  rep st T → is_dir T p → ordinary n →
  yields (SimpleFS_lookup req p n st)
    (refines (expected st req T (Fs_lookup p n)) (Fs_lookup p n)).
Proof.
  intros R Hp Hn. unfold SimpleFS_lookup.
  destruct (MAX_NAME_LENGTH <? Z.of_nat (length n)) eqn:Hlen; [refused|].
  eapply yields_bindM.
  { apply yields_unwrap_result. eapply yields_mono; [by apply get_inode_spec|].
    intros [r st'] [-> Hr]. destruct Hp as (nd & Hnd & _). destruct r as [e|a]; [destruct Hr; congruence|].
    exists a. split; [done|].
    exact (conj eq_refl (proj2 (proj2 (proj2 Hr))) : (λ q, q.2 = st ∧ inodes st !! p = Some q.1) (a, st)). }
  intros a st' [Hst Hget]. simpl in Hst, Hget. subst st'.
  destruct (access_to a req X_OK) eqn:Hacc; [|refused].
  eapply yields_or_reply; [by apply lookup_name_spec| |].
  - intros b st' (-> & He & _ & Hb & _). eapply yields_mono; [by apply reply_entry_spec|].
    intros [r st'] (-> & attr & -> & Hi). split; [eval_checks|]. exists T. split; [|done].
    eapply step_lookup. by rewrite Hi.
  - intros e st' (-> & He & ->). refused.
Qed.

Lemma refines_mono x c (Q : FsReply * SimpleFS → Prop) (m : stateM SimpleFS FsReply) st :
  yields (m st) Q → (∀ r st', Q (r, st') → refines x c (r, st')) → yields (m st) (refines x c).
Proof. intros Hm HQ. eapply yields_mono; [done|]. by intros [r st'] ?%HQ. Qed.

(** The checks before an entry is made. *)
Lemma new_entry_refines x c p n (k : InodeAttributes → stateM SimpleFS FsReply) st :
  rep st T → is_dir T p → ordinary n →
  x = (if is_entry T p n then Some EEXIST else if may st req p W_OK then None else Some EACCES) →
  (∀ pa st', rep st' T → edges T !! (p, n) = None → yields (k pa st') (refines None c)) →
  yields ((found ← lookup_name p n;
           if is_ok found then mret (RError EEXIST)
           else or_reply (prepare_parent req p) k) st) (refines x c).
Proof.
  intros R Hp Hn -> Hk. eapply yields_bindM; [by apply lookup_name_spec|].
  intros [e|a] st' [-> Hr]; simpl.
  2:{ destruct Hr as [He _]. refused. }
  destruct Hr as [He _].
  eapply yields_or_reply; [by apply prepare_parent_spec| |].
  - intros pa st' (R' & Hm & _). unfold is_entry. rewrite He, Hm. by apply Hk.
  - intros e' st' (R' & Hm & ->). apply refines_error; [done|]. unfold is_entry. by rewrite He, Hm.
Qed.

Lemma mknod_refines p n m um rd st :
  rep st T → is_dir T p → name_ok n → Z.land m S_IFMT ≠ S_IFDIR →
  yields (SimpleFS_mknod req p n m st)
    (refines (expected st req T (Fs_mknod p n m um rd)) (Fs_mknod p n m um rd)).
Proof.
  intros R Hp [Hn _] Hm. unfold SimpleFS_mknod. cbv zeta.
  assert ((Z.land m S_IFMT =? S_IFDIR) = false) as Hdir by by apply Z.eqb_neq.
  destruct (negb (Z.land m S_IFMT =? S_IFREG) && negb (Z.land m S_IFMT =? S_IFLNK)) eqn:Hft;
    rewrite ?Hdir; simpl; [refused|].
  apply new_entry_refines; [done..| |].
  { unfold expected, checks. rewrite Hft. simpl. by destruct (may _ _ _ _). }
  intros pa st' R' Hnew.
  assert (∃ K, as_file_kind (user_mode req m) = Ret K ∧ K ≠ KDirectory) as (K & HK & Hne).
  { unfold as_file_kind. rewrite land_user_mode. pose proof S_IF_ne as (? & ? & ?).
    apply andb_false_iff in Hft as [Hft|Hft]; apply negb_false_iff in Hft.
    - rewrite Hft. by exists KFile.
    - apply Z.eqb_eq in Hft. rewrite Hft. rewrite (proj2 (Z.eqb_neq _ _)) by done.
      rewrite Z.eqb_refl. by exists KSymlink. }
  eapply yields_bindM; [by eapply make_node_spec|]. intros a st1 (Hi & Ha & R1).
  eapply refines_mono; [by apply reply_entry_spec|].
  intros r st2 (-> & attr & -> & Hattr). split; [done|]. eexists. split; [|exact R1].
  apply step_mknod; [done|congruence|done].
Qed.

Lemma create_refines p n m um fl st :
  rep st T → is_dir T p → name_ok n → Z.land m S_IFMT = S_IFREG →
  yields (SimpleFS_create req p n m fl st)
    (refines (expected st req T (Fs_create p n m um fl)) (Fs_create p n m um fl)).
Proof.
  intros R Hp [Hn _] Hm. unfold SimpleFS_create.
  eapply yields_bindM; [by apply lookup_name_spec|].
  intros [e|a] st' [-> Hr]; simpl; destruct Hr as [Hr He'].
  2:{ refused. }
  destruct (create_mode fl) as [[rd wr]|] eqn:Hfl; [|refused].
  eapply yields_or_reply; [by apply prepare_parent_spec| |].
  2:{ intros e' st' (R' & Hmay & ->). refused. }
  intros pa st' (R' & Hmay & _).
  assert (as_file_kind (user_mode req m) = Ret KFile) as HK.
  { unfold as_file_kind. by rewrite land_user_mode, Hm, Z.eqb_refl. }
  eapply yields_bindM; [by eapply make_node_spec|]. intros a st1 (Hi & Ha & R1).
  eapply yields_bindM.
  { apply yields_lift. eapply yields_mono; [by apply FileAttr_from_spec|]. intros attr Hattr.
    exact (conj Hattr eq_refl : (λ q, attr_ino' q.1 = inode a ∧ q.2 = st1) (attr, st1)). }
  intros attr st2 [Hattr Hst]. simpl in Hattr, Hst. subst st2.
  eapply yields_bindM.
  { apply allocate_next_file_handle_spec; [exact R1|]. apply (room_handles T Hroom). }
  intros fh st2 [Hfh R2]. split; [eval_checks|].
  exists (set_handle (last_handle T + 1) (add_file p n KFile 1 T)).
  split; [|exact R2].
  eapply step_create; [done|congruence|done|exact Hfh].
Qed.

Lemma mkdir_refines p n m um st :
  rep st T → is_dir T p → name_ok n →
  yields (SimpleFS_mkdir req p n m st)
    (refines (expected st req T (Fs_mkdir p n m um)) (Fs_mkdir p n m um)).
Proof.
  intros R Hp [Hn _]. unfold SimpleFS_mkdir.
  apply new_entry_refines; [done..| |].
  { unfold expected, checks. simpl. by destruct (may _ _ _ _). }
  intros pa st' R' Hnew.
  eapply yields_bindM; [by apply allocate_spec|]. intros i st1 (-> & R1 & _).
  eapply yields_bindM.
  { apply (new_attributes_spec (fresh T) 0 BLOCK_SIZE KDirectory);
      [exact R1|intros; apply creation_mode_spec|unfold BLOCK_SIZE; lia]. }
  intros a st2 (Hi & Hnode & Ha & R2 & _).
  eapply yields_bindM; [by apply new_inode_spec|]. intros [] st3 R3. rewrite Hnode in R3.
  set (T1 := put_node _ _ _) in R3.
  assert (p ≠ fresh T) as Hpf.
  { destruct Hp as (nd & Hnd & _). intros Hpf. by rewrite Hpf, (ok_fresh T Hok) in Hnd. }
  assert (∀ x, edges T1 !! (fresh T, x) = None) as Hrow by apply (ok_fresh_row T Hok).
  eapply yields_bindM.
  { apply (write_directory_spec (fresh T) (new_directory (fresh T) p)
      (<[(fresh T, dotdot) := (p, KDirectory)]> (<[(fresh T, dot) := (fresh T, KDirectory)]> (edges T))));
      [exact R3| |].
    - apply is_dir_put_node. by left.
    - intros e x. case_decide as He.
      + subst. unfold new_directory. destruct (decide (x = dotdot)) as [-> |].
        * by rewrite !lookup_insert_eq.
        * rewrite (lookup_insert_ne _ dotdot x) by done.
          rewrite (lookup_insert_ne _ (fresh T, dotdot) (fresh T, x)) by congruence.
          destruct (decide (x = dot)) as [-> |]; [by rewrite !lookup_insert_eq|].
          rewrite (lookup_insert_ne _ dot x) by done.
          rewrite (lookup_insert_ne _ (fresh T, dot) (fresh T, x)) by congruence.
          rewrite lookup_empty. apply Hrow.
      + by rewrite !lookup_insert_ne by congruence. }
  intros [] st4 R4.
  eapply yields_bindM.
  { apply insert_entry_spec; [exact R4| |].
    - assert (is_dir T1 p) as Hp1 by (apply is_dir_put_node; by right). exact Hp1.
    - simpl. pose proof (ok_dir_stored T Hok p Hp). set_solver. }
  intros [] st5 R5.
  eapply refines_mono; [by apply reply_entry_spec|].
  intros r st6 (-> & attr & -> & Hattr). split; [done|]. exists (add_dir p n T).
  split; [apply step_mkdir; [done|congruence]|exact R5].
Qed.

(** ** Removing entries *)

(** What is known of a directory or inode that was read. *)
Definition read_as (T : tree) (a : InodeAttributes) : Prop :=
  nodes T !! inode a = Some (node_of a) ∧ attrs_ok a.

Lemma drop_links_spec T1 a m st :
  rep st T1 → read_as T1 a → inode a ∈ stored T1 → m = n_links (less_links (node_of a)) →
  yields ((a' ← stamp_changed (with_hardlinks m a); write_inode a';; gc_inode a') st)
    (λ '(_, st'), rep st'
       (gc (inode a) (less_links (node_of a)) (put_node (inode a) (less_links (node_of a)) T1))).
Proof.
  intros R [Hn Ha] Hs Hm.
  eapply yields_bindM; [by apply stamp_changed_spec|].
  intros a' st1 [(Hi' & Hn' & _ & Ha') R1]. simpl in Hi'.
  assert (node_of a' = less_links (node_of a)) as Hn''.
  { rewrite Hn', Hm. by destruct a. }
  eapply yields_bindM.
  { apply write_inode_spec; [exact R1|by apply Ha'|]. rewrite Hi', Hn. by injection Hn'' as ->. }
  intros [] st2 R2. rewrite Hi', Hn'' in R2.
  eapply yields_mono.
  { apply gc_inode_spec; [exact R2| |by rewrite Hi'].
    rewrite Hi', Hn''. apply lookup_insert_eq. }
  intros [b st3] R3. by rewrite Hi', Hn'' in R3.
Qed.

Lemma gc_other T1 i nd p :
  p ≠ i → is_dir T1 p → p ∈ stored T1 →
  is_dir (gc i nd (put_node i nd T1)) p ∧ p ∈ stored (gc i nd (put_node i nd T1)).
Proof.
  intros Hne Hd Hs. unfold gc. case_decide; split; simpl.
  - destruct Hd as (x & Hx & ?). exists x. split; [|done]. simpl.
    by rewrite delete_insert_eq, lookup_delete_ne.
  - set_solver.
  - apply is_dir_put_node. by right.
  - done.
Qed.

Lemma remove_entry_spec p n pa a links st :
  rep st T → is_dir T p → inode pa = p → read_as T pa → read_as T a → p ≠ inode a →
  (∀ st', yields (links st') (λ '(m, st''), m = n_links (less_links (node_of a)) ∧ st'' = st')) →
  yields (remove_entry p n pa a links st)
    (λ '(r, st'), r = ROk ∧ rep st' (remove p n (inode a) (node_of a) T)).
Proof.
  intros R Hp Hpi [Hpn Hpa] Ha Hne Hlinks. unfold remove_entry.
  eapply yields_bindM; [by apply stamp_changed_modified_spec|].
  intros pa' st1 [(Hi' & Hn' & _ & Hpa') R1].
  eapply yields_bindM; [apply write_inode_same; [exact R1|auto|by rewrite Hi', Hn']|].
  intros [] st2 R2.
  eapply yields_bindM; [apply Hlinks|]. intros m st3 [Hm ->].
  assert (inode a ∈ stored T) as Hs by (apply (ok_stored_in T Hok); destruct Ha as [-> _]; eauto).
  pose proof (drop_links_spec T a m st2 R2 Ha Hs Hm) as Hdrop.
  change (yields ((a' ← stamp_changed (with_hardlinks m a); (write_inode a';; _ ← gc_inode a';
    update_directory p (delete n);; mret ROk)) st2)
    (λ '(r, st'), r = ROk ∧ rep st' (remove p n (inode a) (node_of a) T))).
  unfold mbind, stateM_bind in Hdrop |- *.
  destruct (stamp_changed (with_hardlinks m a) st2) as [[a' st4]| |]; [|done..].
  destruct (write_inode a' st4) as [[[] st5]| |]; [|done..].
  destruct (gc_inode a' st5) as [[b st6]| |]; [|done..]. simpl in Hdrop.
  pose proof (gc_other T (inode a) (less_links (node_of a)) p Hne Hp
    (ok_dir_stored T Hok p Hp)) as [Hd6 Hs6].
  pose proof (delete_entry_spec p n st6 _ Hdrop Hd6 Hs6) as Hdel.
  destruct (update_directory p (delete n) st6) as [[[] st7]| |]; [|done..].
  split; [done|]. exact Hdel.
Qed.

Lemma removed_ne p n a :
  is_dir T p → ordinary n → edges T !! (p, n) = Some (inode a, kind a) → read_as T a →
  (kind a = KDirectory → ∀ m v, edges T !! (inode a, m) = Some v → ¬ ordinary m) →
  p ≠ inode a.
Proof.
  intros Hp Hn He [Ha _] Hrow Hpi. rewrite Hpi in Hp, He. destruct Hp as (nd & Hnd & Hk).
  assert (nd = node_of a) as -> by congruence. by apply (Hrow Hk n _ He).
Qed.

Lemma unlink_refines p n st :
  rep st T → is_dir T p → ordinary n →
  (∀ i k, edges T !! (p, n) = Some (i, k) → k ≠ KDirectory) →
  yields (SimpleFS_unlink req p n st)
    (refines (expected st req T (Fs_unlink p n)) (Fs_unlink p n)).
Proof.
  intros R Hp Hn Hk. unfold SimpleFS_unlink.
  eapply yields_or_reply; [by apply lookup_name_spec| |].
  2:{ intros e st' (-> & He & ->). refused. }
  intros a st' (-> & He & Hna & Haok & Hgeta). pose proof (Hk _ _ He) as Hka.
  eapply yields_or_reply; [by apply get_inode_spec| |].
  2:{ intros e st' [-> [Hr _]]. destruct Hp as (nd & Hnd & _). congruence. }
  intros pa st' (-> & Hpn & Hpi & Hpok & Hgetp).
  destruct (access_to pa req W_OK) eqn:Hacc; simpl; [|refused].
  destruct (sticky_denies pa a req) eqn:Hsticky; [refused|].
  assert (p ≠ inode a) as Hne by by eapply removed_ne.
  pose proof (entry_links T Hok p n (inode a) (kind a) (node_of a) He Hn Hna) as Hl.
  pose proof (ok_bounds T Hok _ _ Hna) as Hb.
  eapply refines_mono.
  { eapply remove_entry_spec; try done.
    - by rewrite <- Hpi in Hpn.
    - intros st'. rewrite usub_small by (simpl in *; lia). simpl. by rewrite decide_False. }
  intros r st' [-> R']. split; [eval_checks|].
  exists (remove p n (inode a) (node_of a) T). split; [|done]. by eapply step_unlink.
Qed.

(** A directory with at most two entries holds only . and .. . *)
Lemma small_directory (es : Directory_) i a :
  (∀ m, es !! m = edges T !! (i, m)) → nodes T !! i = Some a → n_kind a = KDirectory →
  i ≠ FUSE_ROOT_ID → (base.size es ≤ 2)%nat →
  ∀ m v, edges T !! (i, m) = Some v → ¬ ordinary m.
Proof.
  intros Hes Hi Hk Hr Hsz m v Hv [Hm1 Hm2].
  destruct (ok_dotdot T Hok i a) as (q & Hq & _); [done..|].
  assert (edges T !! (i, dot) = Some (i, KDirectory)) as Hd
    by (apply (ok_dot T Hok); by exists a).
  rewrite <- Hes in Hv, Hd, Hq.
  assert ({[m]} ∪ ({[dot]} ∪ {[dotdot]}) ⊆ dom es) as Hsub%subseteq_size.
  { intros x Hx. apply elem_of_dom. set_unfold in Hx.
    by destruct Hx as [-> |[-> | ->]]; eexists. }
  rewrite size_dom, !size_union, !size_singleton in Hsub; [lia|set_solver..].
Qed.

Lemma rmdir_refines p n st :
  rep st T → is_dir T p → ordinary n →
  (∀ i k, edges T !! (p, n) = Some (i, k) → k = KDirectory) →
  yields (SimpleFS_rmdir req p n st)
    (refines (expected st req T (Fs_rmdir p n)) (Fs_rmdir p n)).
Proof.
  intros R Hp Hn Hk. unfold SimpleFS_rmdir.
  eapply yields_or_reply; [by apply lookup_name_spec| |].
  2:{ intros e st' (-> & He & ->). refused. }
  intros a st' (-> & He & Hna & Haok & Hgeta). pose proof (Hk _ _ He) as Hka.
  eapply yields_or_reply; [by apply get_inode_spec| |].
  2:{ intros e st' [-> [Hr _]]. destruct Hp as (nd & Hnd & _). congruence. }
  intros pa st' (-> & Hpn & Hpi & Hpok & Hgetp).
  assert (is_dir T (inode a)) as Hda by by exists (node_of a).
  eapply yields_bindM.
  { apply yields_unwrap_result. eapply yields_mono;
      [apply get_directory_content_spec; [exact R|exact Hda|by apply ok_dir_stored]|].
    intros [r st'] (-> & es & -> & Hdir & Hes). exists es. split; [done|].
    exact (conj eq_refl (conj Hdir Hes) : (λ q, q.2 = st ∧ dir_of st (inode a) = Some q.1 ∧
      ∀ m, q.1 !! m = edges T !! (inode a, m)) (es, st)). }
  intros es st' (Hst & Hdir & Hes). simpl in Hst, Hdir, Hes. subst st'.
  destruct (decide (2 < base.size es)%nat) as [Hsz|Hsz].
  { pose proof (bool_decide_eq_true_2 _ Hsz) as Hbig. refused. }
  pose proof (bool_decide_eq_false_2 _ Hsz) as Hsmall.
  destruct (access_to pa req W_OK) eqn:Hacc; simpl; [|refused].
  destruct (sticky_denies pa a req) eqn:Hsticky; [refused|].
  destruct (entry_not_root T Hok p n (inode a) (kind a) (node_of a) He Hn Hna Hka) as [Hr _].
  assert (∀ m v, edges T !! (inode a, m) = Some v → ¬ ordinary m) as Hrow.
  { eapply small_directory; try done. lia. }
  assert (p ≠ inode a) as Hne by by eapply removed_ne.
  eapply refines_mono.
  { eapply remove_entry_spec; try done.
    - by rewrite <- Hpi in Hpn.
    - intros st'. simpl. by rewrite decide_True. }
  intros r st' [-> R']. split; [eval_checks|].
  exists (remove p n (inode a) (node_of a) T). split; [|done]. by eapply step_rmdir.
Qed.

(** ** Adding entries for existing inodes *)

Lemma insert_link_spec T1 p n i k st :
  rep st T1 → tree_ok T1 → is_dir T1 p → ordinary n →
  yields (insert_link req p n i k st) (λ '(r, st'),
    match r with
    | inl e => rep st' T1 ∧
        e = (if is_entry T1 p n then EEXIST else EACCES) ∧
        (is_entry T1 p n = true ∨ may st req p W_OK = false)
    | inr _ => edges T1 !! (p, n) = None ∧ may st req p W_OK = true ∧
        rep st' (put_edge (p, n) (i, k) T1)
    end).
Proof.
  intros R Hok1 Hp Hn. unfold insert_link.
  eapply yields_bindM; [by apply lookup_name_spec|].
  intros [e|b] st' [-> Hr]; simpl; destruct Hr as [Hr _].
  2:{ unfold is_entry. rewrite Hr. by split_and!; [|..|left]. }
  eapply yields_or_err; [by apply get_inode_spec| |].
  2:{ intros e' st' [-> [Hr' _]]. destruct Hp as (nd & Hnd & _). congruence. }
  intros a st' (-> & Ha & Hi & Haok & Hgeta).
  destruct (access_to a req W_OK) eqn:Hacc; simpl.
  2:{ unfold is_entry, may. rewrite Hr, Hgeta. by split_and!; [|..|right]. }
  eapply yields_bindM; [by apply stamp_modified_changed_spec|].
  intros a' st1 [(Hi' & Hn' & _ & Ha') R1].
  eapply yields_bindM; [apply write_inode_same; [exact R1|auto|by rewrite Hi', Hn', Hi]|].
  intros [] st2 R2.
  pose proof (insert_entry_spec p n (i, k) st2 T1 R2 Hp (ok_dir_stored T1 Hok1 p Hp)) as Hins.
  unfold update_directory in Hins. unfold mbind, stateM_bind in Hins |- *.
  destruct (unwrap_result (get_directory_content p) st2) as [[es st3]| |]; [|done..].
  destruct (write_directory_content p (<[n := (i, k)]> es) st3) as [[[] st4]| |]; [|done..].
  split; [done|]. split; [|exact Hins]. unfold may. by rewrite Hgeta.
Qed.

Lemma symlink_refines p n link st :
  rep st T → is_dir T p → name_ok n → Z.of_nat (length link) < 2 ^ 63 →
  yields (SimpleFS_symlink req p n link st)
    (refines (expected st req T (Fs_symlink p n link)) (Fs_symlink p n link)).
Proof.
  intros R Hp [Hn _] Hlink. unfold SimpleFS_symlink.
  eapply yields_or_reply; [by apply prepare_parent_spec| |].
  2:{ intros e st' (R' & Hmay & ->). refused. }
  intros pa st' (R' & Hmay & Hmay').
  eapply yields_bindM; [by apply allocate_spec|]. intros i st1 (-> & R1 & I1).
  eapply yields_bindM.
  { apply (new_attributes_spec (fresh T) 0 (Z.of_nat (length link)) KSymlink);
      [exact R1|done|lia]. }
  intros a st2 (Hi & Hnode & Ha & R2 & I2).
  assert (may st2 req p W_OK = true) as Hmay2 by (unfold may; by rewrite I2, I1).
  assert (tree_ok (set_last (fresh T) T)) as Hok1.
  { apply set_last_ok; [done|]. unfold fresh. lia. }
  eapply yields_or_reply; [by apply (insert_link_spec _ p n (fresh T) KSymlink st2 R2)| |].
  2:{ intros e st3 (R3 & -> & [He|Hno]); [|congruence].
      change (is_entry T p n = true) in He. change (is_entry (set_last (fresh T) T) p n) with (is_entry T p n).
      rewrite He. split; [eval_checks|].
      exists (set_last (fresh T) T). split; [apply step_symlink_refused|done]. }
  intros u st3 (Hnew & _ & R3). simpl in Hnew.
  eapply yields_bindM.
  { apply write_inode_spec; [exact R3|done|]. rewrite Hi. simpl. rewrite (ok_fresh T Hok).
    by apply fresh_not_stored. }
  intros [] st4 R4. rewrite Hi, Hnode in R4.
  eapply yields_bindM.
  { apply write_content_spec; [exact R4|]. intros [[_ ?]|[? _]]%is_dir_put_node; done. }
  intros [] st5 R5.
  eapply refines_mono; [by apply reply_entry_spec|].
  intros r st6 (-> & attr & -> & Hattr). split; [eval_checks|].
  exists (add_file p n KSymlink 0 T).
  split; [apply step_symlink; [done|congruence]|exact R5].
Qed.

Lemma link_refines i p n st :
  rep st T → is_dir T p → name_ok n →
  yields (SimpleFS_link req i p n st)
    (refines (expected st req T (Fs_link i p n)) (Fs_link i p n)).
Proof.
  intros R Hp [Hn _]. unfold SimpleFS_link.
  eapply yields_or_reply; [by apply get_inode_spec| |].
  2:{ intros e st' [-> [Hr ->]]. refused. }
  intros a st' (-> & Ha & Hi & Haok & _).
  eapply yields_or_reply; [by apply (insert_link_spec T p n i (kind a) st R)| |].
  2:{ intros e st1 (R1 & -> & Hwhy). apply refines_error; [done|].
      unfold expected, checks. simpl. rewrite Ha. simpl.
      destruct (is_entry T p n); [done|]. destruct Hwhy as [|Hno]; [done|]. by rewrite Hno. }
  intros u st1 (Hnew & Hmay & R1).
  pose proof (ok_bounds T Hok _ _ Ha) as Hb. pose proof (room_counts T Hroom _ _ Ha) as Hc.
  simpl in Hb, Hc.
  eapply (yields_bindM _ _ _ (λ q, q = (hardlinks a + 1, st1))).
  { apply yields_lift. rewrite uadd_small by lia. done. }
  intros m st2 [= -> ->].
  eapply yields_bindM; [by apply stamp_changed_spec|].
  intros a' st2 [(Hi' & Hn' & _ & Ha') R2]. simpl in Hi'.
  specialize (Ha' Haok).
  eapply yields_bindM.
  { apply write_inode_spec; [exact R2|done|]. rewrite Hi', Hi. simpl. rewrite Ha.
    by injection Hn' as ->. }
  intros [] st3 R3. rewrite Hi', Hi, Hn' in R3.
  eapply refines_mono; [by apply reply_entry_spec|].
  intros r st4 (-> & attr & -> & Hattr). split; [eval_checks|].
  exists (add_link p n i (node_of a) T).
  split; [apply step_link; [done..|congruence]|exact R3].
Qed.

Lemma open_with_refines (ex : bool) (i fl : Z) st c :
  rep st T → c = (if ex then Fs_open i fl else Fs_opendir i fl) →
  yields (open_with ex req i fl st) (refines (first_error (open_checks ex st req T i fl)) c).
Proof.
  intros R Hc. unfold open_with, open_checks.
  destruct (open_mode ex fl) as [e|[[mask rd] wr]] eqn:Hmode; [refused|].
  eapply yields_or_reply; [by apply get_inode_spec| |].
  2:{ intros e st' [-> [Hr ->]]. refused. }
  intros a st' (-> & Ha & Hi & Haok & Hgeta).
  destruct (access_to a req mask) eqn:Hacc; [|refused].
  pose proof (ok_bounds T Hok _ _ Ha) as Hb. pose proof (room_counts T Hroom _ _ Ha) as Hr.
  simpl in Hb, Hr.
  eapply (yields_bindM _ _ _ (λ q, q = (open_file_handles a + 1, st))).
  { apply yields_lift. rewrite uadd_small by lia. done. }
  intros m st1 [= -> ->].
  eapply yields_bindM.
  { apply write_inode_spec; [exact R|exact Haok|]. simpl. by rewrite Hi, Ha. }
  intros [] st1 R1. simpl in R1. rewrite Hi in R1.
  eapply (yields_bindM _ _ _ (λ q, q.2 = st1)); [done|]. intros direct st2 Hst. simpl in Hst. subst st2.
  eapply yields_bindM.
  { apply allocate_next_file_handle_spec; [exact R1|]. apply (room_handles T Hroom). }
  intros fh st2 [Hfh R2]. split; [eval_checks|]. exists (add_handle i (node_of a) T). split; [|exact R2].
  subst c. destruct ex; [by eapply step_open|by eapply step_opendir].
Qed.

(** ** Renaming *)

Lemma write_back_spec T1 a (f : InodeAttributes → stateM SimpleFS InodeAttributes) st :
  rep st T1 → read_as T1 a →
  (∀ st, rep st T1 → yields (f a st) (λ '(a', st'), stamped a a' ∧ rep st' T1)) →
  yields ((a' ← f a; write_inode a') st) (λ '(_, st'), rep st' T1).
Proof.
  intros R [Ha Hok1] Hf. eapply yields_bindM; [by apply Hf|].
  intros a' st1 [(Hi' & Hn' & _ & Ha') R1].
  apply write_inode_same; [exact R1|auto|by rewrite Hi', Hn'].
Qed.

(** Two binds in sequence, seen as one step. *)
Lemma yields_bind2 {A D E} (m : stateM SimpleFS A) (f : A → stateM SimpleFS D)
    (g : A → D → stateM SimpleFS E) st P Q :
  yields ((a ← m; f a) st) P →
  (∀ a d st', P (d, st') → yields (g a d st') Q) →
  yields ((a ← m; d ← f a; g a d) st) Q.
Proof.
  unfold mbind, stateM_bind. destruct (m st) as [[a st1]| |]; [|done..]. intros Hf Hg.
  destruct (f a st1) as [[d st2]| |]; [|done..]. simpl in *. by eapply Hg.
Qed.

Lemma set_parent_spec T1 i k q st :
  rep st T1 → (k = KDirectory → is_dir T1 i ∧ i ∈ stored T1) →
  yields ((if decide (k = KDirectory) then update_directory i <[dotdot := (q, KDirectory)]>
           else mret tt) st) (λ '(_, st'), rep st' (set_parent i k q T1)).
Proof.
  intros R Hi. unfold set_parent. case_decide as Hk; [|done].
  destruct (Hi Hk). by apply insert_entry_spec.
Qed.

Lemma rename_replace_spec np nn st :
  rep st T → is_dir T np → ordinary nn →
  yields (rename_replace np nn st) (λ '(_, st'),
    match edges T !! (np, nn) with
    | None => rep st' T
    | Some (j, _) => ∃ nd, nodes T !! j = Some nd ∧ rep st' (remove np nn j nd T)
    end).
Proof.
  intros R Hnp Hnn. unfold rename_replace.
  eapply yields_bindM; [by apply lookup_name_spec|].
  intros [e|a] st' [-> Hr]; [destruct Hr as [Hr _]; by rewrite Hr|].
  destruct Hr as (He & Hna & Haok & _). rewrite He.
  eapply yields_bindM; [apply delete_entry_spec; [exact R|done|by apply ok_dir_stored]|].
  intros [] st1 R1.
  pose proof (entry_links T Hok np nn (inode a) (kind a) (node_of a) He Hnn Hna) as Hl.
  pose proof (ok_bounds T Hok _ _ Hna) as Hb. simpl in Hl, Hb.
  eapply (yields_bindM _ _ _ (λ q, q = (n_links (less_links (node_of a)), st1))).
  { simpl. destruct (decide (kind a = KDirectory)); [done|].
    apply yields_lift. by rewrite usub_small by lia. }
  intros m st2 [= -> ->].
  assert (inode a ∈ stored T) as Hs by (apply (ok_stored_in T Hok); rewrite Hna; eauto).
  pose proof (drop_links_spec (del_edge (np, nn) T) a _ st1 R1 (conj Hna Haok) Hs eq_refl) as Hd.
  assert (gc (inode a) (less_links (node_of a))
            (put_node (inode a) (less_links (node_of a)) (del_edge (np, nn) T))
          = remove np nn (inode a) (node_of a) T) as Heq.
  { unfold remove, gc. case_decide; [|done]. unfold del_edge. simpl. by rewrite drop_row_delete. }
  rewrite Heq in Hd. unfold mbind, stateM_bind in Hd |- *.
  destruct (stamp_changed _ st1) as [[a' st4]| |]; [|done..].
  destruct (write_inode a' st4) as [[[] st5]| |]; [|done..].
  destruct (gc_inode a' st5) as [[b st6]| |]; [|done..]. by exists (node_of a).
Qed.

(** The rest of a move, in the tree [T1] that the replaced target has left. *)
Lemma move_tail_spec T1 p n np nn a pa npa st :
  rep st T1 → is_dir T1 p → p ∈ stored T1 → is_dir T1 np → np ∈ stored T1 →
  inode pa = p → inode npa = np → read_as T1 pa → read_as T1 npa → read_as T1 a →
  inode a ∈ stored T1 →
  yields ((update_directory p (delete n);;
           update_directory np <[nn := (inode a, kind a)]>;;
           pa ← stamp_changed_modified pa; write_inode pa;;
           npa ← stamp_changed_modified npa; write_inode npa;;
           a ← stamp_changed a; write_inode a;;
           (if decide (kind a = KDirectory)
            then update_directory (inode a) <[dotdot := (np, KDirectory)]> else mret tt);;
           mret ROk) st)
    (λ '(r, st'), r = ROk ∧ rep st' (move p n (inode a) (kind a) np nn T1)).
Proof.
  intros R Hp Hps Hnp Hnps Hpi Hnpi Hpa Hnpa Ha Has.
  eapply yields_bindM; [by apply delete_entry_spec|]. intros [] st1 R1.
  eapply yields_bindM; [by apply insert_entry_spec|]. intros [] st2 R2.
  set (T2 := put_edge _ _ _) in R2.
  assert (∀ b, read_as T1 b → read_as T2 b) as Hread by done.
  eapply yields_bind2; [apply (write_back_spec T2); [done|by apply Hread|];
    intros; by apply stamp_changed_modified_spec|]. intros pa' [] st3 R3.
  eapply yields_bind2; [apply (write_back_spec T2); [done|by apply Hread|];
    intros; by apply stamp_changed_modified_spec|]. intros npa' [] st4 R4.
  eapply yields_bindM; [by apply (stamp_changed_spec a _ T2)|].
  intros a' st5 [(Hi' & Hn' & _ & Ha') R5]. destruct Ha as [Hna Haok].
  eapply yields_bindM; [apply write_inode_same; [exact R5|auto|by rewrite Hi', Hn']|].
  intros [] st6 R6.
  assert (kind a' = kind a) as -> by by injection Hn'. rewrite Hi'.
  eapply yields_bindM.
  { apply (set_parent_spec T2); [done|]. intros Hk. split; [|done]. by exists (node_of a). }
  intros [] st7 R7. by split.
Qed.

Lemma exchange_tail_spec p n np nn a b pa npa st :
  rep st T → is_dir T p → is_dir T np →
  inode pa = p → inode npa = np → read_as T pa → read_as T npa → read_as T a → read_as T b →
  yields (lookup_name np nn st) (λ '(r, st'), st' = st ∧ r = inr b) →
  yields (rename_exchange p n np nn a pa npa st)
    (λ '(r, st'), r = ROk ∧ rep st' (exchange p n (inode a) (kind a) np nn (inode b) (kind b) T)).
Proof.
  intros R Hp Hnp Hpi Hnpi Hpa Hnpa Ha Hb Hlook. unfold rename_exchange.
  eapply yields_or_reply; [done| |by intros e st' [_ ?]]. intros b' st' [-> [= ->]].
  pose proof (ok_dir_stored T Hok p Hp) as Hps. pose proof (ok_dir_stored T Hok np Hnp) as Hnps.
  assert (∀ x, read_as T x → inode x ∈ stored T) as Hst.
  { intros x [Hx _]. apply (ok_stored_in T Hok). rewrite Hx. eauto. }
  eapply yields_bindM; [by apply insert_entry_spec|]. intros [] st1 R1.
  eapply yields_bindM; [by apply insert_entry_spec|]. intros [] st2 R2.
  set (T2 := put_edge _ _ _) in R2.
  assert (∀ x, read_as T x → read_as T2 x) as Hread by done.
  eapply yields_bind2; [apply (write_back_spec T2); [done|by apply Hread|];
    intros; by apply stamp_changed_modified_spec|]. intros pa' [] st3 R3.
  eapply yields_bind2; [apply (write_back_spec T2); [done|by apply Hread|];
    intros; by apply stamp_changed_modified_spec|]. intros npa' [] st4 R4.
  eapply yields_bindM; [by apply (stamp_changed_spec a _ T2)|].
  intros a' st5 [(Hi' & Hn' & _ & Ha') R5]. destruct (Hread _ Ha) as [Hna Haok].
  eapply yields_bindM; [apply write_inode_same; [exact R5|auto|by rewrite Hi', Hn']|].
  intros [] st6 R6.
  eapply yields_bindM; [by apply (stamp_changed_spec b _ T2)|].
  intros b' st7 [(Hbi' & Hbn' & _ & Hb') R7]. destruct (Hread _ Hb) as [Hnb Hbok].
  eapply yields_bindM; [apply write_inode_same; [exact R7|auto|by rewrite Hbi', Hbn']|].
  intros [] st8 R8.
  assert (kind a' = kind a) as -> by by injection Hn'. rewrite Hi'.
  assert (kind b' = kind b) as -> by by injection Hbn'. rewrite Hbi'.
  eapply yields_bindM.
  { apply (set_parent_spec T2); [done|]. intros Hk. split; [by exists (node_of a)|]. by apply Hst. }
  intros [] st9 R9.
  eapply yields_bindM.
  { apply set_parent_spec; [exact R9|]. intros Hk. rewrite set_parent_stored. split; [|by apply Hst].
    exists (node_of b). by rewrite set_parent_nodes. }
  intros [] st10 R10. by split.
Qed.

Lemma rename_sticky_spec np nn npa st :
  rep st T → is_dir T np → ordinary nn →
  inodes st !! np = Some npa →
  yields (rename_sticky req np nn npa st) (λ '(b, st'), st' = st ∧
    b = is_entry T np nn && sticky st req np (target T np nn)).
Proof.
  intros R Hnp Hnn Hget. unfold rename_sticky, is_entry, sticky, target.
  destruct (negb (Z.land (mode npa) (wrap 16 S_ISVTX) =? 0)) eqn:Hm.
  - eapply yields_bindM; [by apply lookup_name_spec|]. intros [e|a] st' [-> Hr].
    + destruct Hr as [Hr _]. by rewrite Hr.
    + destruct Hr as (Hr & _ & _ & Hgeta). by rewrite Hr, Hget, Hgeta.
  - split; [done|]. rewrite Hget. unfold sticky_denies. rewrite Hm. simpl.
    symmetry. apply andb_false_iff. right. by repeat case_match.
Qed.

Lemma rename_not_empty_spec np nn st :
  rep st T → is_dir T np → ordinary nn →
  yields (rename_not_empty np nn st) (λ '(b, st'), st' = st ∧
    b = entry_dir T np nn && crowded st (target T np nn) ∧
    (b = false → ∀ j, edges T !! (np, nn) = Some (j, KDirectory) →
       ∀ m v, edges T !! (j, m) = Some v → ¬ ordinary m)).
Proof.
  intros R Hnp Hnn. unfold rename_not_empty.
  eapply yields_bindM; [by apply lookup_name_spec|].
  intros [e|a] st' [-> Hr]; unfold entry_dir, crowded, target.
  { destruct Hr as [Hr _]. rewrite Hr. split_and!; [done..|]. intros _ j Hj. congruence. }
  destruct Hr as (He & Hna & Haok & Hgeta). rewrite He. destruct (decide (kind a = KDirectory)) as [Hk|Hk].
  2:{ rewrite bool_decide_eq_false_2 by done. split_and!; [done..|]. intros _ j Hj. congruence. }
  rewrite bool_decide_eq_true_2 by done.
  eapply yields_bindM.
  { apply yields_unwrap_result. eapply yields_mono.
    { apply get_directory_content_spec; [exact R|by exists (node_of a)|].
      apply (ok_stored_in T Hok). rewrite Hna. eauto. }
    intros [r st'] (-> & es & -> & Hdir & Hes). exists es. split; [done|].
    exact (conj eq_refl (conj Hdir Hes) : (λ q, q.2 = st ∧ dir_of st (inode a) = Some q.1 ∧
      ∀ m, q.1 !! m = edges T !! (inode a, m)) (es, st)). }
  intros es st' (Hst & Hdir & Hes). simpl in Hst, Hdir, Hes. rewrite Hdir. split; [done|].
  split; [done|]. intros Hsz%bool_decide_eq_false j Hj. assert (j = inode a) as -> by congruence.
  destruct (entry_not_root T Hok np nn (inode a) (kind a) (node_of a) He Hnn Hna Hk) as [Hr _].
  eapply small_directory; try done. lia.
Qed.

Lemma rename_refines p n np nn fl st :
  rep st T → is_dir T p → is_dir T np → ordinary n → name_ok nn →
  (∀ i k j k', edges T !! (p, n) = Some (i, k) → edges T !! (np, nn) = Some (j, k') → i ≠ j) →
  yields (SimpleFS_rename req p n np nn fl st)
    (refines (expected st req T (Fs_rename p n np nn fl)) (Fs_rename p n np nn fl)).
Proof.
  intros R Hp Hnp Hn [Hnn _] Hdiff. unfold SimpleFS_rename.
  assert (∀ d, is_dir T d → nodes T !! d = None → False) as Hthere by (intros d (? & ? & ?) ?; congruence).
  eapply yields_or_reply; [by apply lookup_name_spec| |].
  2:{ intros e st' (-> & He & ->). refused. }
  intros a st' (-> & He & Hna & Haok & Hgeta).
  eapply yields_or_reply; [by apply get_inode_spec| |].
  2:{ intros e st' [-> [Hr _]]. by destruct (Hthere p). }
  intros pa st' (-> & Hpn & Hpi & Hpok & Hgetp).
  assert (expected st req T (Fs_rename p n np nn fl) =
    if access_to pa req W_OK then if sticky_denies pa a req then Some EACCES else
      first_error (drop 3 (checks st req T (Fs_rename p n np nn fl))) else Some EACCES) as ->.
  { unfold expected, checks, is_entry, may, sticky, target. rewrite He, Hgetp. simpl. rewrite Hgeta.
    by destruct (access_to pa req W_OK). }
  destruct (access_to pa req W_OK) eqn:Hacc; simpl; [|by apply refines_error].
  destruct (sticky_denies pa a req) eqn:Hsticky; [by apply refines_error|].
  eapply yields_or_reply; [by apply get_inode_spec| |].
  2:{ intros e st' [-> [Hr _]]. by destruct (Hthere np). }
  intros npa st' (-> & Hnpn & Hnpi & Hnpok & Hgetnp).
  assert (may st req np W_OK = access_to npa req W_OK) as -> by (unfold may; by rewrite Hgetnp).
  destruct (access_to npa req W_OK) eqn:Hnacc; simpl; [|by apply refines_error].
  eapply yields_bindM; [by apply rename_sticky_spec|].
  intros b st' [-> Hb]. rewrite <- Hb. destruct b; [by apply refines_error|]. clear Hb.
  assert (read_as T pa) as Hrpa by by rewrite <- Hpi in Hpn.
  assert (read_as T npa) as Hrnpa by by rewrite <- Hnpi in Hnpn.
  assert (read_as T a) as Hra by done.
  destruct (Z.eqb_spec (Z.land fl RENAME_EXCHANGE) 0) as [Hfl|Hfl]; simpl.
  - eapply yields_bindM; [by apply rename_not_empty_spec|].
    intros b st' (-> & Hb & Hrow). simpl. rewrite <- Hb.
    destruct b; [by apply refines_error|]. specialize (Hrow eq_refl). clear Hb.
    assert (entry_dir T p n && negb (p =? np) && negb (may st req (target T p n) W_OK)
      = bool_decide (kind a = KDirectory) && negb (p =? np) && negb (access_to a req W_OK)) as ->.
    { unfold entry_dir, may, target. by rewrite He, Hgeta. }
    destruct (bool_decide (kind a = KDirectory) && negb (p =? np) && negb (access_to a req W_OK));
      [by apply refines_error|].
    unfold rename_move. eapply yields_bindM; [by apply rename_replace_spec|].
    intros [] st1 R1.
    destruct (edges T !! (np, nn)) as [[j k']|] eqn:He'.
    + destruct R1 as (nd & Hj & R1).
      assert (k' = n_kind nd) as Hk' by by eapply entry_kind.
      assert (inode a ≠ j) as Hij by eauto.
      assert (∀ m v, edges T !! (j, m) = Some v → ¬ ordinary m) as Hrowj.
      { apply (removed_row T Hok j nd Hj). intros Hd. apply Hrow. congruence. }
      assert (∀ x m v, ordinary m → edges T !! (x, m) = Some v → x ≠ j) as Hxj.
      { intros x m v Hm Hx ->. by apply Hrowj in Hx. }
      assert (∀ x, inode x ≠ j → read_as T x → read_as (remove np nn j nd T) x) as Hread.
      { intros x Hx [Hnx ?]. split; [|done]. unfold remove, gc. case_decide; simpl.
        - by rewrite delete_insert_eq, lookup_delete_ne.
        - by rewrite lookup_insert_ne. }
      assert (∀ d, d ≠ j → is_dir T d →
          is_dir (remove np nn j nd T) d ∧ d ∈ stored (remove np nn j nd T)) as Hdirs.
      { intros d Hd Hdd. by apply (gc_other T j (less_links nd) d Hd Hdd), ok_dir_stored. }
      destruct (Hdirs p ltac:(eauto) Hp) as [Hp1 Hps1].
      destruct (Hdirs np ltac:(eauto) Hnp) as [Hnp1 Hnps1].
      assert (p ≠ j ∧ np ≠ j) as [Hpj Hnpj] by eauto.
      eapply refines_mono.
      { eapply (move_tail_spec (remove np nn j nd T) p n np nn a pa npa); try done.
        - apply Hread; [by rewrite Hpi|done].
        - apply Hread; [by rewrite Hnpi|done].
        - by apply Hread.
        - unfold remove, gc. assert (inode a ∈ stored T) by
            (apply (ok_stored_in T Hok); rewrite Hna; eauto).
          case_decide; simpl; set_solver. }
      intros r st2 [-> R2]. split; [done|]. eexists. split; [|exact R2].
      eapply step_rename_over; [done..|]. intros Hkd. apply Hrowj.
    + eapply refines_mono.
      { eapply (move_tail_spec T p n np nn a pa npa); try done.
        - by apply ok_dir_stored.
        - by apply ok_dir_stored.
        - apply (ok_stored_in T Hok). rewrite Hna. eauto. }
      intros r st2 [-> R2]. split; [done|]. eexists. split; [|exact R2]. by apply step_rename.
  - pose proof (lookup_name_spec np nn st T R Hok Hnp Hnn) as Hlook.
    unfold rename_exchange at 1.
    destruct (lookup_name np nn st) as [[r st'']| |] eqn:Hl; [|done..].
    destruct Hlook as [-> Hb]. destruct r as [e|b].
    { unfold or_reply, mbind, stateM_bind. rewrite Hl. destruct Hb as [Hb ->].
      apply refines_error; [done|]. unfold is_entry. by rewrite Hb. }
    destruct Hb as (He' & Hnb & Hbok & _).
    eapply refines_mono.
    { eapply (exchange_tail_spec p n np nn a b pa npa); try done. by rewrite Hl. }
    intros r st2 [-> R2]. split; [unfold is_entry; by rewrite He'|].
    eexists. split; [|exact R2]. by apply step_exchange.
Qed.
End methods.
