(* ===== verification/SimpleQuiet.v ===== *)
(** * SimpleQuiet: the methods of SimpleFS that keep the tree, and the whole

    Attribute changes, reads, writes and listings leave the directory tree as it
    is.  With the methods of SimpleRefine.v this gives the theorems about any call
    and any run. *)

From stdpp Require Import sorting.
From S2P Require Import Prelude KernelInterface Time Operation Response Session SimpleAttr SimpleFS SimpleTree.
From S2P Require Import SimpleRep SimpleRefine.

Local Open Scope Z_scope.

(** ** Judgements *)

Section quiet_methods.
Context `{B : Build, C : Libc, F : LibcFs, H : Host, CL : !LibcLaws C, HL : !HostLaws H}.
Context `{FL : !LibcFsLaws C F}.
Context (T : tree) (Hok : tree_ok T) (req : Requester).

(** The method returns and the tree is the same. *)
Definition keeps {A} (m : stateM SimpleFS A) : Prop :=
  ∀ st, rep st T → yields (m st) (λ '(_, st'), rep st' T).

Lemma keeps_ret {A} (a : A) : keeps (mret a).
Proof. by intros st R. Qed.
Lemma keeps_bind {A D} (m : stateM SimpleFS A) (f : A → stateM SimpleFS D) :
  keeps m → (∀ a, keeps (f a)) → keeps (m ≫= f).
Proof.
  intros Hm Hf st R. eapply yields_bindM; [by apply Hm|]. intros a st' R'. by apply Hf.
Qed.
Lemma keeps_lift {A} (m : outcome A) : yields m (λ _, True) → keeps (lift m).
Proof. intros Hm st R. apply yields_lift. eapply yields_mono; [done|]. by intros. Qed.
Lemma keeps_if (b : bool) {A} (m m' : stateM SimpleFS A) : keeps m → keeps m' → keeps (if b then m else m').
Proof. by destruct b. Qed.

(** Attributes that differ from what was read in nothing the tree shows. *)
Definition alike (a a' : InodeAttributes) : Prop :=
  inode a' = inode a ∧ node_of a' = node_of a ∧ (attrs_ok a → attrs_ok a').
Lemma alike_refl a : alike a a.
Proof. done. Qed.
Lemma alike_trans a a' a'' : alike a a' → alike a' a'' → alike a a''.
Proof. intros (?&?&?) (?&?&?). split_and!; [congruence..|auto]. Qed.
Lemma alike_stamped a a' : stamped a a' → alike a a'.
Proof. by intros (?&?&?&?). Qed.
Lemma alike_mode m a : alike a (with_mode m a).
Proof. done. Qed.
Lemma alike_uid u a : alike a (with_uid u a).
Proof. done. Qed.
Lemma alike_gid g a : alike a (with_gid g a).
Proof. done. Qed.
Lemma alike_xattrs x a : alike a (with_xattrs x a).
Proof. done. Qed.
Lemma alike_clear a : alike a (clear_suid_sgid a).
Proof. unfold clear_suid_sgid. by case_match. Qed.
#[local] Hint Resolve alike_refl alike_mode alike_uid alike_gid alike_xattrs alike_clear : core.

Lemma read_as_alike a a' : read_as T a → alike a a' → read_as T a'.
Proof. intros [Ha Haok] (Hi & Hn & Hs). split; [by rewrite Hi, Hn|auto]. Qed.

Lemma keeps_write a : read_as T a → keeps (write_inode a).
Proof. intros [Ha Haok] st R. by apply write_inode_same. Qed.
Lemma keeps_stamp {A} a (k : InodeAttributes → stateM SimpleFS A) :
  (∀ a', alike a a' → keeps (k a')) → keeps (stamp_changed a ≫= k).
Proof.
  intros Hk st R. eapply yields_bindM; [by apply stamp_changed_spec|].
  intros a' st' [Hs R']. apply Hk; [by apply alike_stamped|done].
Qed.
Lemma keeps_stamp2 {A} a (k : InodeAttributes → stateM SimpleFS A) :
  (∀ a', alike a a' → size a' = size a → keeps (k a')) → keeps (stamp_changed_modified a ≫= k).
Proof.
  intros Hk st R. eapply yields_bindM; [by apply stamp_changed_modified_spec|].
  intros a' st' [Hs R']. apply Hk; [by apply alike_stamped|by destruct Hs as (_&_&(?&_)&_)|done].
Qed.
Lemma keeps_reply_attr a : attrs_ok a → keeps (reply_attr a).
Proof.
  intros Ha st R. eapply yields_mono; [by apply reply_attr_spec|]. by intros [r st'] ->.
Qed.

(** Reading an inode: what is read shows in the tree. *)
Lemma keeps_get_reply i (k : InodeAttributes → stateM SimpleFS FsReply) :
  (∀ a, inode a = i → read_as T a → keeps (k a)) → keeps (or_reply (get_inode i) k).
Proof.
  intros Hk st R. eapply yields_or_reply; [by apply get_inode_spec| |by intros e st' [-> _]].
  intros a st' (-> & Ha & Hi & Haok & _). apply Hk; [done| |done]. by rewrite <- Hi in Ha.
Qed.
Lemma keeps_get_unwrap {A} i (k : InodeAttributes → stateM SimpleFS A) :
  is_Some (nodes T !! i) → (∀ a, inode a = i → read_as T a → keeps (k a)) →
  keeps (unwrap_result (get_inode i) ≫= k).
Proof.
  intros [nd Hi] Hk st R.
  eapply (yields_bindM _ _ _ (λ q, q.2 = st ∧ inode q.1 = i ∧ read_as T q.1)).
  - apply yields_unwrap_result. eapply yields_mono; [by apply get_inode_spec|].
    intros [r st'] [-> Hr]. destruct r as [e|a]; [destruct Hr; congruence|].
    destruct Hr as (Ha & Hia & ? & _).
    exists a. split_and!; [done..|]. split; [|done]. by rewrite <- Hia in Ha.
  - intros a st' (Hst & Hia & Ha). simpl in Hst, Hia, Ha. subst st'. by apply Hk.
Qed.
Lemma keeps_with_inode i (k : InodeAttributes → stateM SimpleFS FsReply) :
  (∀ a, inode a = i → read_as T a → keeps (k a)) → keeps (with_inode i k).
Proof.
  intros Hk st R. unfold with_inode. eapply yields_bindM; [by apply get_inode_spec|].
  intros [e|a] st' [-> Hr]; [done|]. destruct Hr as (Ha & Hi & Haok & _).
  apply Hk; [done| |done]. by rewrite <- Hi in Ha.
Qed.
Lemma keeps_or_reply {A} (m : stateM SimpleFS (Z + A)) (k : A → stateM SimpleFS FsReply) P :
  (∀ st, rep st T → yields (m st) (λ '(r, st'), rep st' T ∧ match r with inr a => P a | _ => True end)) →
  (∀ a, P a → keeps (k a)) → keeps (or_reply m k).
Proof.
  intros Hm Hk st R. eapply yields_or_reply; [by apply Hm| |by intros e st' [? _]].
  intros a st' [R' Ha]. by apply Hk.
Qed.
Lemma keeps_checked e (k : stateM SimpleFS FsReply) : keeps k → keeps (checked e k).
Proof. intros Hk. destruct e; [apply keeps_ret|done]. Qed.

(** Opening and writing the content of what is not a directory. *)
Lemma keeps_open {A} i (k : option (list Z) → stateM SimpleFS A) :
  (∀ o, (is_Some o ↔ is_Some (nodes T !! i)) → keeps (k o)) → keeps (open_content i ≫= k).
Proof.
  intros Hk st R. unfold open_content, gets, mbind, stateM_bind. apply Hk; [|done].
  rewrite (ok_stored_in T Hok), (rep_stored _ _ R), elem_of_dom. done.
Qed.
Lemma keeps_write_content i bytes :
  ¬ is_dir T i → is_Some (nodes T !! i) → keeps (write_content i bytes).
Proof.
  intros Hi Hs st R. eapply yields_mono; [by apply write_content_spec|].
  intros [u st'] R'. rewrite store_id in R'; [done|]. by apply (ok_stored_in T Hok).
Qed.

Lemma keeps_seek off : off < 2 ^ 63 → keeps (lift (seek off)).
Proof. intros Hoff. apply keeps_lift. unfold seek. by rewrite (proj2 (Z.ltb_lt off (2 ^ 63))). Qed.
Lemma keeps_assert_pos off : 0 ≤ off → keeps (lift (assert_ (0 <=? off))).
Proof. intros Hoff. apply keeps_lift. by rewrite (proj2 (Z.leb_le 0 off)). Qed.

(** ** The methods *)

Lemma keeps_getattr i : keeps (SimpleFS_getattr i).
Proof. apply keeps_get_reply. intros a _ [_ Ha]. by apply keeps_reply_attr. Qed.

Lemma keeps_in_groups ask pid g : (∃ gs, get_groups pid = Ret gs) → keeps (in_groups ask pid g).
Proof.
  intros (gs & Hgs). unfold in_groups. destruct ask; [|apply keeps_ret].
  apply keeps_bind; [apply keeps_lift; by rewrite Hgs|]. intros gs'. apply keeps_ret.
Qed.

(** The end of [chmod] and [chown]. *)
Lemma keeps_store_reply a a' :
  read_as T a → alike a a' →
  keeps (attrs ← stamp_changed a'; write_inode attrs;; reply_attr attrs).
Proof.
  intros Ha Ha'. apply keeps_stamp. intros a'' Ha''.
  assert (read_as T a'') as Hr by (eapply read_as_alike; [done|]; by eapply alike_trans).
  apply keeps_bind; [by apply keeps_write|]. intros _. apply keeps_reply_attr. by destruct Hr.
Qed.

Lemma keeps_chmod a m :
  read_as T a → (∃ gs, get_groups (req_pid req) = Ret gs) → keeps (setattr_chmod req a m).
Proof.
  intros Ha Hg. unfold setattr_chmod. apply keeps_if; [apply keeps_ret|].
  apply keeps_bind; [by apply keeps_in_groups|]. intros member.
  apply (keeps_store_reply a); [done|]. by case_match.
Qed.

Lemma keeps_chown a u g :
  read_as T a → (∃ gs, get_groups (req_pid req) = Ret gs) → keeps (setattr_chown req a u g).
Proof.
  intros Ha Hg. unfold setattr_chown. apply keeps_bind.
  { destruct g; [|apply keeps_ret]. apply keeps_bind; [by apply keeps_in_groups|].
    intros member. apply keeps_ret. }
  intros refused. apply keeps_if; [apply keeps_ret|]. apply keeps_if; [apply keeps_ret|].
  apply keeps_if; [apply keeps_ret|]. apply (keeps_store_reply a); [done|].
  set (a1 := if negb _ then clear_suid_sgid a else a).
  assert (alike a a1) as H1 by (unfold a1; by case_match).
  set (a2 := match u with Some _ => _ | None => a1 end).
  assert (alike a1 a2) as H2 by (unfold a2; by case_match).
  eapply alike_trans; [exact H1|]. eapply alike_trans; [exact H2|].
  case_match; [|done]. by case_match.
Qed.

Lemma keeps_truncate i sz u g st :
  rep st T → 0 ≤ sz → ¬ is_dir T i →
  yields (truncate i sz u g st) (λ '(r, st'), rep st' T).
Proof.
  intros R Hsz Hi. unfold truncate. destruct (Z.ltb_spec MAX_FILE_SIZE sz) as [|Hmax]; [done|].
  eapply yields_or_err; [by apply get_inode_spec| |by intros e st' [-> _]].
  intros a st' (-> & Ha & Hia & Haok & _). destruct (negb _); [done|].
  assert (is_Some (nodes T !! i)) as Hs by eauto.
  revert st R. fold (keeps (open_content i ≫= λ file, file ← lift (unwrap file);
    write_content i (resize (Z.to_nat sz) 0 file);;
    attrs ← stamp_changed_modified (with_size sz a);
    let attrs := clear_suid_sgid attrs in write_inode attrs;; mret (inr attrs : Z + InodeAttributes))).
  apply keeps_open. intros o Ho. apply Ho in Hs as Hso. destruct Hso as [file ->].
  apply keeps_bind; [by apply keeps_lift|]. intros file'.
  apply keeps_bind; [by apply keeps_write_content|]. intros _.
  apply keeps_stamp2. intros a' Ha' _. cbv zeta.
  apply keeps_bind; [|intros; apply keeps_ret]. apply keeps_write.
  eapply (read_as_alike (with_size sz a)); [|by eapply alike_trans].
  split; [by rewrite <- Hia in Ha|]. destruct Haok as (_ & ?). split; [|done]. simpl.
  unfold MAX_FILE_SIZE in Hmax. lia.
Qed.

Lemma keeps_setattr_time now t set a (k : InodeAttributes → stateM SimpleFS FsReply) :
  time_ok now → time_arg_ok (Some t) → read_as T a →
  (∀ t' a', time_ok t' → read_as T a' → read_as T (set t' a')) →
  (∀ a', read_as T a' → keeps (k a')) → keeps (or_reply (setattr_time req now t set a) k).
Proof.
  intros Hnow Ht Ha Hset Hk. apply (keeps_or_reply _ _ (read_as T)); [|done].
  intros st R. unfold setattr_time. cbv zeta.
  destruct (_ && negb (req_uid req =? 0) && _); [done|]. destruct (_ && negb (access_to _ _ _)); [done|].
  eapply (yields_bindM _ _ _ (λ q, time_ok q.1 ∧ q.2 = st)).
  { destruct t as [t|]; [|done]. apply yields_lift.
    eapply yields_mono; [apply time_from_ok; apply Ht|]. intros t' Ht'. by split. }
  intros t' st' [Ht' Hst]. simpl in Ht', Hst. subst st'.
  assert (read_as T (with_changed now (set t' a))) as Hr.
  { destruct (Hset t' a Ht' Ha) as (Hn & Hs & H1 & H2 & H3). split; [done|].
    unfold attrs_ok; simpl; tauto. }
  eapply yields_bindM; [by apply keeps_write|]. by intros [] st' R'.
Qed.

Lemma keeps_setattr i m u g sz atime mtime fh :
  (∀ s, sz = Some s → 0 ≤ s ∧ ¬ is_dir T i) → time_arg_ok atime → time_arg_ok mtime →
  (∃ gs, get_groups (req_pid req) = Ret gs) →
  keeps (SimpleFS_setattr req i m u g sz atime mtime fh).
Proof.
  intros Hsz Hat Hmt Hg. apply keeps_get_reply. intros a Hia Ha.
  destruct m as [m|]; [by apply keeps_chmod|]. apply keeps_if; [by apply keeps_chown|].
  assert (is_Some (nodes T !! i)) as Hi by (destruct Ha as [Ha _]; rewrite <- Hia; eauto).
  apply (keeps_or_reply _ _ (λ _, True)).
  { intros st R. destruct sz as [s|]; [|done]. destruct (Hsz s eq_refl) as [Hs Hnd].
    unfold setattr_truncate.
    assert (∀ uu gg, yields (truncate i s uu gg st)
      (λ '(r, st'), rep st' T ∧ match r with inr _ => True | inl _ => True end)) as Htr.
    { intros uu gg. eapply yields_mono; [by apply keeps_truncate|].
      intros [[] st'] ?; done. }
    destruct fh as [h|]; [case_match; [apply Htr|done]|apply Htr]. }
  intros _ _ st R. eapply yields_bindM; [by apply time_now_spec|]. intros now st1 (Hnow & R1 & _).
  revert st1 R1.
  assert (∀ a', read_as T a' → keeps (or_reply
     match mtime with
     | Some t => setattr_time req now t with_modified a'
     | None => mret (inr a')
     end (λ _, attrs ← unwrap_result (get_inode i); reply_attr attrs))) as Hm.
  { assert (keeps (attrs ← unwrap_result (get_inode i); reply_attr attrs)) as Hend.
    { apply keeps_get_unwrap; [done|]. intros b _ [_ Hb]. by apply keeps_reply_attr. }
    intros a' Ha'. destruct mtime as [t|].
    - apply keeps_setattr_time; try done.
      intros t' b Ht' (Hn & Hs & H1 & H2 & H3). split; [done|].
      unfold attrs_ok; simpl; tauto.
    - by apply (keeps_or_reply _ _ (λ _, True)). }
  destruct atime as [t|].
  - apply keeps_setattr_time; try done.
    intros t' b Ht' (Hn & Hs & H1 & H2 & H3). split; [done|].
      unfold attrs_ok; simpl; tauto.
  - apply (keeps_or_reply _ _ (read_as T)); [done|]. exact Hm.
Qed.

Lemma keeps_readlink i : keeps (SimpleFS_readlink i).
Proof. apply keeps_open. intros [bytes|] _; apply keeps_ret. Qed.

Lemma read_exact_at_total file n off :
  0 ≤ off → 0 ≤ n ≤ saturating_sub (Z.of_nat (length file)) off →
  yields (read_exact_at file n off) (λ data, Z.of_nat (length data) = n).
Proof.
  intros Hoff [Hn0 Hn]. unfold read_exact_at, saturating_sub in *. case_decide; [done|].
  destruct (decide (off + n ≤ Z.of_nat (length file))); simpl; [|lia].
  rewrite length_take, length_drop. lia.
Qed.
Lemma wrap_le w z : 0 ≤ w → 0 ≤ z → wrap w z ≤ z.
Proof. intros Hw Hz. apply Z.mod_le; [done|]. by apply Z.pow_pos_nonneg. Qed.

Lemma keeps_read i fh off sz : 0 ≤ off < 2 ^ 63 → 0 ≤ sz → keeps (SimpleFS_read i fh off sz).
Proof.
  intros Hoff Hsz. apply keeps_bind; [apply keeps_lift; by rewrite (proj2 (Z.leb_le _ _)) by lia|].
  intros _. apply keeps_if; [apply keeps_ret|]. apply keeps_open. intros [file|] _; [|apply keeps_ret].
  cbv zeta. apply keeps_bind; [|intros; apply keeps_ret]. apply keeps_lift.
  rewrite (wrap_small 64 off) by lia.
  set (rest := saturating_sub _ _). assert (0 ≤ rest) by (unfold rest, saturating_sub; lia).
  pose proof (wrap_le 32 rest). pose proof (wrap_bounds 32 rest).
  eapply yields_mono; [apply read_exact_at_total; lia|done].
Qed.

(** The end of [write] and [copy_file_range]. *)
Lemma keeps_grow {A} i len off (k : InodeAttributes → stateM SimpleFS A) :
  is_Some (nodes T !! i) → 0 ≤ off → 0 ≤ len → off + len < 2 ^ 63 →
  (∀ a, inode a = i → read_as T a → keeps (k a)) →
  keeps (attrs ← unwrap_result (get_inode i); attrs ← stamp_changed_modified attrs;
         attrs ← lift (grow len off attrs); k attrs).
Proof.
  intros Hi Hoff Hlen Hsum Hk. apply keeps_get_unwrap; [done|]. intros a Hia Ha.
  apply keeps_stamp2. intros a' Ha' Hs. pose proof (read_as_alike _ _ Ha Ha') as Hr'.
  destruct Ha' as (Hia' & _). unfold grow. rewrite uadd_small by lia.
  intros st R. unfold lift, mbind, stateM_bind, outcome_bind.
  apply Hk; [case_match; simpl; congruence| |done].
  case_match; [|done]. destruct Hr' as [Hn (_ & ?)]. split; [done|]. split; [simpl; lia|done].
Qed.

Lemma keeps_write_method i fh off data :
  ¬ is_dir T i → 0 ≤ off → off + Z.of_nat (length data) < 2 ^ 63 →
  keeps (SimpleFS_write i fh off data).
Proof.
  intros Hi Hoff Hsum. apply keeps_bind; [by apply keeps_assert_pos|].
  intros _. apply keeps_if; [apply keeps_ret|]. apply keeps_open. intros o Ho.
  destruct o as [file|]; [|apply keeps_ret]. assert (is_Some (nodes T !! i)) as Hs by (apply Ho; eauto).
  rewrite (wrap_small 64 off) by lia.
  apply keeps_bind; [apply keeps_seek; lia|].
  intros _. apply keeps_bind; [by apply keeps_write_content|]. intros _.
  apply keeps_grow; [done|lia..|]. intros a _ Ha.
  apply keeps_bind; [|intros; apply keeps_ret]. apply keeps_write. by eapply read_as_alike.
Qed.

Lemma keeps_copy_file_range i fi off j fj off' len :
  ¬ is_dir T j → 0 ≤ off < 2 ^ 63 → 0 ≤ off' → 0 ≤ len → off' + len < 2 ^ 63 →
  keeps (SimpleFS_copy_file_range i fi off j fj off' len).
Proof.
  intros Hj Hoff Hoff' Hlen Hsum. unfold SimpleFS_copy_file_range.
  apply keeps_if; [apply keeps_ret|]. apply keeps_if; [apply keeps_ret|].
  apply keeps_open. intros [file|] _; [|apply keeps_ret].
  rewrite (wrap_small 64 off), (wrap_small 64 off') by lia. cbv zeta.
  set (n := Z.min len _). assert (n ≤ len ∧ 0 ≤ n ≤ saturating_sub (Z.of_nat (length file)) off) as [Hn Hn'].
  { unfold n, saturating_sub. lia. }
  intros st R. eapply (yields_bindM _ _ _ (λ q, Z.of_nat (length q.1) ≤ len ∧ q.2 = st)).
  { apply yields_lift. eapply yields_mono; [apply (read_exact_at_total file n off); lia|].
    intros data Hdata. simpl in Hdata |- *. rewrite Hdata. by split. }
  intros data st' [Hd Hst]. simpl in Hd, Hst. subst st'. revert st R.
  apply keeps_open. intros o Ho. destruct o as [dest|]; [|apply keeps_ret].
  assert (is_Some (nodes T !! j)) as Hs by (apply Ho; eauto).
  apply keeps_bind; [apply keeps_seek; lia|].
  intros _. apply keeps_bind; [by apply keeps_write_content|]. intros _.
  apply keeps_grow; [done|lia..|]. intros a _ Ha.
  apply keeps_bind; [by apply keeps_write|intros; apply keeps_ret].
Qed.

Lemma keeps_fallocate i off len m :
  ¬ is_dir T i → 0 ≤ off → 0 ≤ len → off + len < 2 ^ 63 →
  keeps (SimpleFS_fallocate i off len m).
Proof.
  intros Hi Hoff Hlen Hsum. apply keeps_open. intros o Ho.
  destruct o as [file|]; [|apply keeps_ret]. assert (is_Some (nodes T !! i)) as Hs by (apply Ho; eauto).
  apply keeps_bind; [by apply keeps_write_content|]. intros _.
  apply keeps_bind; [|intros; apply keeps_ret]. apply keeps_if; [|apply keeps_ret].
  apply keeps_get_unwrap; [done|]. intros a _ Ha.
  apply keeps_stamp2. intros a' Ha' Hsz. pose proof (read_as_alike _ _ Ha Ha') as [Hn (? & ?)].
  intros st R. rewrite i64_add_small by lia.
  unfold lift, mbind, stateM_bind, outcome_bind. rewrite (wrap_small 64 (off + len)) by lia.
  apply keeps_write; [|done]. case_match; [|by split]. split; [done|]. split; [simpl; lia|done].
Qed.

Lemma keeps_release i : (∀ nd, nodes T !! i = Some nd → 0 < n_handles nd) → keeps (SimpleFS_release i).
Proof.
  intros Hh st R. unfold SimpleFS_release. eapply yields_bindM; [by apply get_inode_spec|].
  intros [e|a] st' [-> Hr]; [done|]. destruct Hr as (Ha & _). pose proof (Hh _ Ha) as Hp.
  pose proof (ok_bounds T Hok _ _ Ha). simpl in *.
  eapply (yields_bindM _ _ _ (λ q, q.2 = st)); [apply yields_lift; by rewrite usub_small by lia|].
  intros x st' Hst. simpl in Hst. by subst st'.
Qed.

Lemma DirEntList_push_total e b :
  Z.of_nat (length (dirent_entry_name e)) < 2 ^ 32 → yields (DirEntList_push e b) (λ _, True).
Proof.
  intros He. unfold DirEntList_push, name_len. rewrite decide_True by done.
  cbn [mbind outcome_bind]. by rewrite EntListBuf_push_spec.
Qed.
Lemma readdir_loop_total entries off index b :
  Forall (λ e, Z.of_nat (length e.1) < 2 ^ 32) entries →
  yields (readdir_loop entries off index b) (λ _, True).
Proof.
  intros He. revert index b. induction He as [|[n [j k]] entries Hn He IH]; intros index b; [done|].
  cbn [readdir_loop]. eapply yields_bind; [by apply DirEntList_push_total|].
  intros [full b'] _. by destruct full.
Qed.
Lemma BTreeMap_iter_elem {A} (m : gmap (list Z) A) n v :
  (n, v) ∈ BTreeMap_iter m ↔ m !! n = Some v.
Proof.
  unfold BTreeMap_iter. rewrite <- elem_of_map_to_list.
  by rewrite (merge_sort_Permutation entry_le (map_to_list m)).
Qed.

Lemma keeps_readdir i off b : is_dir T i → 0 ≤ off → keeps (SimpleFS_readdir i off b).
Proof.
  intros Hi Hoff. apply keeps_bind; [by apply keeps_assert_pos|].
  intros _. apply (keeps_or_reply _ _ (λ es, ∀ n, es !! n = edges T !! (i, n))).
  { intros st R. eapply yields_mono; [apply get_directory_content_spec; [done..|by apply ok_dir_stored]|].
    intros [r st'] (-> & es & -> & _ & Hes). by split. }
  intros es Hes. apply keeps_bind; [|intros; apply keeps_ret]. apply keeps_lift.
  apply readdir_loop_total, Forall_drop, Forall_forall. intros [n v] Hn%BTreeMap_iter_elem.
  rewrite Hes in Hn. by eapply ok_name.
Qed.

Lemma keeps_setxattr i key v : keeps (SimpleFS_setxattr req i key v).
Proof.
  apply keeps_with_inode. intros a _ Ha. apply keeps_checked. cbv zeta. apply keeps_stamp.
  intros a' Ha'. apply keeps_bind; [|intros; apply keeps_ret]. apply keeps_write.
  eapply read_as_alike; [done|]. by eapply alike_trans.
Qed.
Lemma keeps_removexattr i key : keeps (SimpleFS_removexattr req i key).
Proof.
  apply keeps_with_inode. intros a _ Ha. apply keeps_checked. destruct (_ !! _); [|apply keeps_ret].
  apply keeps_stamp. intros a' Ha'. apply keeps_bind; [|intros; apply keeps_ret]. apply keeps_write.
  eapply read_as_alike; [done|]. by eapply alike_trans.
Qed.
Lemma keeps_getxattr i key sz : keeps (SimpleFS_getxattr req i key sz).
Proof.
  apply keeps_with_inode. intros a _ Ha. apply keeps_checked. destruct (_ !! _); apply keeps_ret.
Qed.
Lemma keeps_listxattr i sz : keeps (SimpleFS_listxattr i sz).
Proof. apply keeps_with_inode. intros a _ Ha. apply keeps_ret. Qed.
Lemma keeps_access i mask : keeps (SimpleFS_access req i mask).
Proof. apply keeps_get_reply. intros a _ _. apply keeps_ret. Qed.

Lemma keeps_quiet_call c : quiet c = true → vfs_ok req T c → keeps (SimpleFS_call req c).
Proof.
  intros Hc Hv. destruct c; try discriminate Hc; cbn [SimpleFS_call vfs_ok] in *;
    try apply keeps_ret; destruct_and? Hv.
  - apply keeps_getattr.
  - by apply keeps_setattr.
  - apply keeps_readlink.
  - by apply keeps_read.
  - by apply keeps_write_method.
  - by apply keeps_release.
  - by apply keeps_readdir.
  - by apply keeps_release.
  - apply keeps_setxattr.
  - apply keeps_getxattr.
  - apply keeps_listxattr.
  - apply keeps_removexattr.
  - apply keeps_access.
  - by apply keeps_fallocate.
  - by apply keeps_copy_file_range.
Qed.
End quiet_methods.

(** ** Any call *)

Section any_call.
Context `{B : Build, C : Libc, F : LibcFs, H : Host, CL : !LibcLaws C, HL : !HostLaws H}.
Context `{FL : !LibcFsLaws C F}.

(** A call returns, refuses as listed, and otherwise has the effect its reply
    stands for. *)
Definition as_specified (req : Requester) (c : FsCall) (st : SimpleFS) (T : tree)
    (out : outcome (FsReply * SimpleFS)) : Prop :=
  yields out (λ '(r, st'),
    (quiet c = false → answer r = expected st req T c) ∧
    ∃ T', tree_step c r T T' ∧ rep st' T').

Lemma call_refines req c st T :
  rep st T → tree_ok T → room T → vfs_ok req T c →
  as_specified req c st T (SimpleFS_call req c st).
Proof.
  intros R Hok Hroom Hv. unfold as_specified. destruct (quiet c) eqn:Hq.
  { eapply yields_mono; [by apply keeps_quiet_call|]. intros [r st'] R'.
    split; [done|]. exists T. by split; [apply step_quiet|]. }
  assert (yields (SimpleFS_call req c st) (refines T (expected st req T c) c)) as Hm.
  { destruct c; try discriminate Hq; cbn [SimpleFS_call vfs_ok] in *; destruct_and? Hv.
    - by apply lookup_refines.
    - by apply mknod_refines.
    - by apply mkdir_refines.
    - by apply unlink_refines.
    - by apply rmdir_refines.
    - by apply symlink_refines.
    - by apply rename_refines.
    - by apply link_refines.
    - by apply open_with_refines.
    - by apply open_with_refines.
    - by apply create_refines. }
  eapply yields_mono; [done|]. intros [r st'] [Ha HT]. by split.
Qed.

End any_call.

(** ** Any run *)

Section runs.
Context `{B : Build, C : Libc, F : LibcFs, H : Host, CL : !LibcLaws C, HL : !HostLaws H}.
Context `{FL : !LibcFsLaws C F}.

(** The tree of a new file system. *)
Definition root_tree : tree :=
  Tree {[FUSE_ROOT_ID := Node KDirectory 2 0]}
    {[(FUSE_ROOT_ID, dot) := (FUSE_ROOT_ID, KDirectory)]} {[FUSE_ROOT_ID]} FUSE_ROOT_ID 1.

Lemma root_tree_ok : tree_ok root_tree.
Proof.
  split; unfold root_tree; cbn [nodes edges stored last_inode n_links n_kind].
  - by rewrite dom_singleton_L.
  - intros i [nd [<- _]%lookup_singleton_Some]. done.
  - intros d n v [[= <- <-] <-]%lookup_singleton_Some. exists (Node KDirectory 2 0). by split.
  - intros d n i k [[= <- <-] [= <- <-]]%lookup_singleton_Some _.
    exists (Node KDirectory 2 0). by split.
  - intros d (nd & Hd & _). simpl in Hd. apply lookup_singleton_Some in Hd as [<- _]. done.
  - intros d nd [<- <-]%lookup_singleton_Some. done.
  - by exists (Node KDirectory 2 0).
  - intros i nd [<- <-]%lookup_singleton_Some. done.
  - intros i nd [<- <-]%lookup_singleton_Some _. by vm_compute.
  - intros i nd [<- <-]%lookup_singleton_Some. done.
  - intros d n v [[= <- <-] _]%lookup_singleton_Some. done.
Qed.

(** [init] makes the root of an empty [data_dir], and leaves a used one alone. *)
Lemma SimpleFS_init_new d s :
  yields (SimpleFS_init (SimpleFS_new d s)) (λ '(_, st'), rep st' root_tree).
Proof.
  set (T0 := Tree ∅ ∅ ∅ FUSE_ROOT_ID 1).
  assert (rep (SimpleFS_new d s) T0) as R.
  { by split. }
  unfold SimpleFS_init. eapply yields_bindM; [by apply get_inode_spec|].
  intros [e|a] st' [-> Hr]; cbn [is_ok].
  2:{ destruct Hr as (Hr & _). discriminate Hr. }
  eapply yields_bindM.
  { apply (new_attributes_spec FUSE_ROOT_ID 0 0 KDirectory); [exact R|done|lia]. }
  intros a st1 (Hi & Hnode & Ha & R1 & _).
  eapply yields_bindM.
  { apply write_inode_spec; [exact R1|done|]. rewrite Hi.
    change (FUSE_ROOT_ID ∉ (∅ : gset Z)). set_solver. }
  intros [] st2 R2. rewrite Hi, Hnode in R2.
  eapply yields_mono.
  { apply (write_directory_spec FUSE_ROOT_ID _
      {[(FUSE_ROOT_ID, dot) := (FUSE_ROOT_ID, KDirectory)]} st2 _ R2).
    - exists (Node KDirectory 2 0). by split.
    - intros x n. case_decide as He.
      + subst x. destruct (decide (n = dot)) as [-> |].
        * by rewrite lookup_singleton_eq, lookup_insert_eq.
        * rewrite lookup_singleton_ne by congruence. by rewrite lookup_insert_ne by done.
      + by rewrite lookup_singleton_ne by congruence. }
  intros [u st3] R3. exact R3.
Qed.

Lemma SimpleFS_init_used st T : rep st T → tree_ok T → SimpleFS_init st = Ret (tt, st).
Proof.
  intros R Hok. destruct (ok_root T Hok) as (nd & Hr & _).
  rewrite (rep_node _ _ _ R) in Hr. apply fmap_Some in Hr as (a & Ha & _).
  unfold SimpleFS_init, get_inode, gets, mbind, stateM_bind. by rewrite Ha.
Qed.

Lemma rep_unique st T T' : rep st T → rep st T' → T = T'.
Proof.
  intros R R'. assert (edges T = edges T') as He.
  { apply map_eq. intros [d n]. by rewrite (rep_edges _ _ R), (rep_edges _ _ R'). }
  destruct R, R', T, T'; simpl in *. congruence.
Qed.

(** A mount: a new process over the files that are there. *)
Definition mounted (st : SimpleFS) (direct_io suid_support : bool) : SimpleFS :=
  MkSimpleFS (superblock st) (inodes st) (contents st) 1 direct_io suid_support (clock st).

Inductive reachable : SimpleFS → Prop :=
  | reach_new d s st : SimpleFS_init (SimpleFS_new d s) = Ret (tt, st) → reachable st
  | reach_mount st d s st' :
      reachable st → SimpleFS_init (mounted st d s) = Ret (tt, st') → reachable st'
  | reach_call st T req c r st' :
      reachable st → rep st T → room T → vfs_ok req T c →
      SimpleFS_call req c st = Ret (r, st') → reachable st'.

Lemma reachable_tree st : reachable st → ∃ T, rep st T ∧ tree_ok T.
Proof.
  intros Hreach.
  induction Hreach as [d s st Hst|st d s st' _ (T & R & Hok) Hst|st T req c r st' _ (T' & R' & Hok) R Hroom Hv Hst].
  - exists root_tree. split; [|apply root_tree_ok].
    by pose proof (yields_eq _ _ _ (SimpleFS_init_new d s) Hst).
  - assert (rep (mounted st d s) (set_handle 1 T)) as R1 by by destruct R.
    rewrite (SimpleFS_init_used _ _ R1 (set_handle_ok T Hok 1)) in Hst. injection Hst as <-.
    eauto using set_handle_ok.
  - assert (T' = T) as -> by by eapply rep_unique.
    assert (yields (SimpleFS_call req c st) (λ '(r, st'), ∃ T', tree_step c r T T' ∧ rep st' T')) as Hy.
    { eapply yields_mono; [by apply call_refines|]. by intros [? ?] [_ ?]. }
    destruct (yields_eq _ _ _ Hy Hst) as (T' & Hstep & R1). exists T'. split; [done|].
    by eapply tree_step_ok.
Qed.

(** C12: Over any run of calls and mounts the files hold a well-formed directory
    tree: no entry but .. dangles, the .. of every linked directory is the
    directory that holds its entry, every file's link count is the number of its
    entries, a directory has one entry, and each inode has its content; and every
    further call of the VFS returns. *)
Theorem SimpleFS_tree_invariant st :
  reachable st →
  ∃ T, rep st T ∧ tree_ok T ∧
    ∀ req c, room T → vfs_ok req T c →
      ∃ r st', SimpleFS_call req c st = Ret (r, st') ∧ reachable st'.
Proof.
  intros Hreach.
  destruct (reachable_tree st Hreach) as (T & R & Hok).
  exists T. split_and!; [done..|]. intros req c Hroom Hv.
  pose proof (call_refines req c st T R Hok Hroom Hv) as ([r st'] & Hc & _)%yields_Ret.
  exists r, st'. split; [done|]. by eapply reach_call.
Qed.
End runs.

(** ** Witnesses *)

Definition demo_user : Requester := MkRequester 1000 1000 77.
Definition demo_root : SimpleFS :=
  match @SimpleFS_init true linux demo_host (SimpleFS_new false true) with
  | Ret (_, st) => st
  | _ => SimpleFS_new false true
  end.
Lemma demo_root_init : @SimpleFS_init true linux demo_host (SimpleFS_new false true) = Ret (tt, demo_root).
Proof. vm_compute. reflexivity. Qed.
Lemma demo_root_rep : @rep demo_host demo_root root_tree.
Proof.
  exact (yields_eq _ _ _ (@SimpleFS_init_new true linux linux_fs demo_host linux_laws demo_host_laws
    linux_fs_laws false true) demo_root_init).
Qed.
Lemma demo_root_room : room root_tree.
Proof.
  split; [done..|]. intros i nd Hi. cbn [nodes root_tree] in Hi.
  by apply lookup_singleton_Some in Hi as [<- <-].
Qed.
Lemma root_is_dir : is_dir root_tree FUSE_ROOT_ID.
Proof. by exists (Node KDirectory 2 0). Qed.

Lemma demo_mkdir_ok :
  @vfs_ok linux linux_fs demo_host demo_user root_tree (Fs_mkdir FUSE_ROOT_ID [97] 493 0).
Proof. split; [exact root_is_dir|]. by repeat split. Qed.


Lemma SimpleFS_tree_invariant_witness :
  ∃ T, @rep demo_host demo_root T ∧ tree_ok T.
Proof.
  destruct (@SimpleFS_tree_invariant true linux linux_fs demo_host linux_laws demo_host_laws
    linux_fs_laws demo_root) as (T & ? & ? & _); [by eapply reach_new, demo_root_init|].
  by exists T.
Defined.
