(* ===== verification/SimpleGuard.v ===== *)
(** * SimpleGuard: what SimpleFS lets a call do to the attributes of an inode

    A small program logic: a predicate on attributes that is closed under the
    updates the methods make holds of every inode a call writes.  One walk over the
    methods serves two predicates: the widths of the fields (the files and the
    replies stay well-typed) and the rights of the caller (nobody but the owner and
    root gains anything by a call). *)

From stdpp Require Import sorting.
From S2P Require Import Prelude KernelInterface Time Operation Response Session SimpleAttr SimpleFS SimpleTree.
From S2P Require Import SimpleRep SimpleRefine SimpleQuiet.

Local Open Scope Z_scope.

Definition within (w z : Z) : Prop := 0 ≤ z < 2 ^ w.
Definition stamp_ok (t : Z * Z) : Prop := - 2 ^ 63 ≤ t.1 < 2 ^ 63 ∧ within 32 t.2.

(** What a computation returns, if it returns, satisfies [Q]. *)
Definition holds {A} (m : outcome A) (Q : A → Prop) : Prop :=
  match m with Ret a => Q a | _ => True end.
Lemma holds_bind {A D} (m : outcome A) (f : A → outcome D) P Q :
  holds m P → (∀ a, P a → holds (f a) Q) → holds (m ≫= f) Q.
Proof. destruct m; simpl; auto. Qed.
Lemma holds_mono {A} (m : outcome A) (P Q : A → Prop) : holds m P → (∀ a, P a → Q a) → holds m Q.
Proof. destruct m; simpl; auto. Qed.
Lemma holds_bindM {W A D} (m : stateM W A) (f : A → stateM W D) w P Q :
  holds (m w) P → (∀ a w', P (a, w') → holds (f a w') Q) → holds ((m ≫= f) w) Q.
Proof. unfold mbind, stateM_bind. destruct (m w) as [[a w']| |]; simpl; auto. Qed.
Lemma holds_eq {A} (m : outcome A) : holds m (λ a, m = Ret a).
Proof. by destruct m. Qed.
Lemma holds_True {A} (m : outcome A) : holds m (λ _, True).
Proof. by destruct m. Qed.

Lemma time_ok_stamp t : time_ok t → stamp_ok t.
Proof. unfold time_ok, stamp_ok, within, NANOS_PER_SEC. lia. Qed.
Lemma within_wrap w z : 0 ≤ w → within w (wrap w z).
Proof. apply wrap_bounds. Qed.
Lemma within_land w m z : 0 ≤ w → within w m → within w (Z.land m z).
Proof.
  intros Hw [Hm Hm']. split; [apply Z.land_nonneg; by left|].
  assert (Z.land m z = Z.land (Z.land m z) (Z.ones w)) as ->.
  { rewrite <- Z.land_assoc, (Z.land_comm z), Z.land_assoc. f_equal.
    rewrite Z.land_ones by done. by rewrite Z.mod_small. }
  rewrite Z.land_ones by done. apply Z.mod_pos_bound. by apply Z.pow_pos_nonneg.
Qed.
Lemma within_lor w a b : 0 ≤ w → within w a → within w b → within w (Z.lor a b).
Proof.
  intros Hw Ha Hb.
  assert (Z.lor a b = Z.land (Z.lor a b) (Z.ones w)) as ->.
  { rewrite Z.land_lor_distr_l, !Z.land_ones by done. by rewrite !Z.mod_small. }
  rewrite Z.land_ones by done. apply Z.mod_pos_bound. by apply Z.pow_pos_nonneg.
Qed.
Lemma uarith_holds `{B : Build} w z : 0 ≤ w → holds (uarith w z) (within w).
Proof.
  intros Hw. unfold uarith. case_decide; [done|]. destruct debug_assertions; [done|].
  apply Z.mod_pos_bound. by apply Z.pow_pos_nonneg.
Qed.

Create HintDb guard.

Section guard.
Context `{B : Build, C : Libc, F : LibcFs, H : Host, HL : !HostLaws H}.
(** The files before the call have the last inode number [s0]; the call is [req]'s. *)
Context (s0 : option Z) (req : Requester) (P : InodeAttributes → Prop).

(** [req] shows membership in group [g] by its process's status. *)
Definition member (g : Z) : Prop := ∃ gs, get_groups (req_pid req) = Ret gs ∧ g ∈ gs.

(** The updates of the methods. *)
Record closed : Prop := {
  cl_times t a : stamp_ok t → P a →
    P (with_accessed t a) ∧ P (with_modified t a) ∧ P (with_changed t a);
  cl_size n a : within 64 n → P a → P (with_size n a);
  cl_links n a : within 32 n → P a → P (with_hardlinks n a);
  cl_handles n a : within 64 n → P a → P (with_open_file_handles n a);
  cl_xattrs x a : P a → P (with_xattrs x a);
  cl_mask m a : P a → P (with_mode (Z.land (mode a) m) a);
  cl_chmod m a : req_uid req = 0 ∨ req_uid req = uid a → within 16 m → P a → P (with_mode m a);
  cl_uid u a : req_uid req = 0 ∨ u = uid a → within 32 u → P a → P (with_uid u a);
  cl_gid g a : req_uid req = 0 ∨ req_uid req = uid a ∧ member g → within 32 g → P a →
    P (with_gid g a);
  cl_new pa h sz t t' t'' k m l : P pa → within 64 h → within 64 sz → stamp_ok t → stamp_ok t' →
    stamp_ok t'' → within 16 m → within 32 l →
    P (MkInode (default FUSE_ROOT_ID s0 + 1) h sz t t' t'' k m l (req_uid req)
         (creation_gid pa (req_gid req)) ∅) }.

(** While [b] holds, no inode number has been taken. *)
Definition guarded (b : bool) (st : SimpleFS) : Prop :=
  (b = true → superblock st = s0) ∧
  (∀ n, superblock st = Some n → within 64 n) ∧ within 64 (next_file_handle st) ∧
  ∀ i a, inodes st !! i = Some a → inode a = i ∧ P a.

(** Partial correctness: a panic is allowed. *)
Definition triple {A} (b : bool) (m : stateM SimpleFS A) (b' : bool) (Q : A → Prop) : Prop :=
  ∀ st, guarded b st → holds (m st) (λ '(x, st'), guarded b' st' ∧ Q x).

Definition right {A} (Q : A → Prop) (r : Z + A) : Prop :=
  match r with inr a => Q a | inl _ => True end.

(** A reply shows attributes with the property; its counts have their widths. *)
Definition shows (attr : FileAttr) : Prop := ∃ a, P a ∧ FileAttr_from a = Ret attr.
Definition fair (r : FsReply) : Prop :=
  match r with
  | REntry attr | RAttr attr => shows attr
  | RCreated attr fh fl => shows attr ∧ within 64 fh ∧ fl = 0
  | ROpened fh fl => within 64 fh ∧ (fl = 0 ∨ fl = FOPEN_DIRECT_IO)
  | RWritten n | RXattrSize n => within 32 n
  | RNone => False
  | _ => True
  end.

(** ** Rules *)

Lemma guarded_weaken b st : guarded b st → guarded false st.
Proof. intros (_ & ?). by split. Qed.

Lemma triple_ret {A} b (a : A) (Q : A → Prop) : Q a → triple b (mret a) b Q.
Proof. by intros Ha st Hst. Qed.
Lemma triple_mono {A} b m b' (Q Q' : A → Prop) :
  triple b m b' Q → (∀ a, Q a → Q' a) → triple b m b' Q'.
Proof.
  intros Hm HQ st Hst. eapply holds_mono; [by apply Hm|]. intros [x st'] [? ?]. auto.
Qed.
Lemma triple_weaken {A} b m b' (Q : A → Prop) : triple b m b' Q → triple b m false Q.
Proof.
  intros Hm st Hst. eapply holds_mono; [by apply Hm|]. intros [x st'] [? ?].
  eauto using guarded_weaken.
Qed.
Lemma triple_bind {A D} b (m : stateM SimpleFS A) b' (f : A → stateM SimpleFS D) b'' Q R :
  triple b m b' Q → (∀ a, Q a → triple b' (f a) b'' R) → triple b (m ≫= f) b'' R.
Proof.
  intros Hm Hf st Hst. eapply holds_bindM; [by apply Hm|]. intros a st' [Hst' Ha]. by apply Hf.
Qed.
Lemma triple_lift {A} b (m : outcome A) (Q : A → Prop) : holds m Q → triple b (lift m) b Q.
Proof. intros Hm st Hst. unfold lift. by destruct m. Qed.
Lemma triple_if {A} b (c : bool) (m m' : stateM SimpleFS A) b' Q :
  (c = true → triple b m b' Q) → (c = false → triple b m' b' Q) → triple b (if c then m else m') b' Q.
Proof. destruct c; auto. Qed.
Lemma triple_decide {A} b (c : Prop) `{Decision c} (m m' : stateM SimpleFS A) b' Q :
  triple b m b' Q → triple b m' b' Q → triple b (if decide c then m else m') b' Q.
Proof. by case_decide. Qed.
Lemma triple_or_reply {A} b (m : stateM SimpleFS (Z + A)) b' k b'' Q :
  triple b m b' (right Q) → (∀ a, Q a → triple b' (k a) b'' fair) → (b'' = true → b' = true) →
  triple b (or_reply m k) b'' fair.
Proof.
  intros Hm Hk Hb. eapply triple_bind; [done|]. intros [e|a] Ha; [|by apply Hk].
  destruct b''; [rewrite Hb by done; by apply triple_ret|]. by eapply triple_weaken, triple_ret.
Qed.
Lemma triple_or_err {A D} b (m : stateM SimpleFS (Z + A)) (k : A → stateM SimpleFS (Z + D)) Q R :
  triple b m b (right Q) → (∀ a, Q a → triple b (k a) b (right R)) → triple b (or_err m k) b (right R).
Proof.
  intros Hm Hk. eapply triple_bind; [done|]. intros [e|a] Ha; [by apply triple_ret|by apply Hk].
Qed.
Lemma triple_unwrap_result {A} b (m : stateM SimpleFS (Z + A)) Q :
  triple b m b (right Q) → triple b (unwrap_result m) b Q.
Proof.
  intros Hm. eapply triple_bind; [done|]. intros [e|a] Ha; [by intros st Hst|by apply triple_ret].
Qed.
Lemma triple_gets {A} b (f : SimpleFS → A) : triple b (gets f) b (λ _, True).
Proof. by intros st Hst. Qed.

(** ** The helpers *)

Lemma time_now_guard b : triple b time_now b stamp_ok.
Proof.
  intros st Hst. unfold time_now, gets, modify, lift, mbind, stateM_bind.
  pose proof (now_bounds (clock st)) as [Hs Hn].
  assert (yields (time_from_system_time (now (clock st))) time_ok) as (t & -> & Ht)%yields_Ret.
  { apply time_from_ok; [lia|done]. }
  split; [by destruct Hst as (?&?&?&?)|]. by apply time_ok_stamp.
Qed.

Context (HP : closed).

Lemma clear_uid a : uid (clear_suid_sgid a) = uid a.
Proof. unfold clear_suid_sgid. by case_match. Qed.

Lemma cl_accessed t a : stamp_ok t → P a → P (with_accessed t a).
Proof. intros Ht Ha. by apply (cl_times HP t a). Qed.
Lemma cl_modified t a : stamp_ok t → P a → P (with_modified t a).
Proof. intros Ht Ha. by apply (cl_times HP t a). Qed.
Lemma cl_changed t a : stamp_ok t → P a → P (with_changed t a).
Proof. intros Ht Ha. by apply (cl_times HP t a). Qed.
Lemma cl_clear a : P a → P (clear_suid_sgid a).
Proof.
  intros Ha. unfold clear_suid_sgid. cbv zeta. case_match.
  - by apply (cl_mask HP _ (with_mode _ a)), cl_mask.
  - by apply cl_mask.
Qed.
#[local] Hint Resolve cl_accessed cl_modified cl_changed cl_clear cl_size cl_links cl_handles
  cl_xattrs cl_mask : core.

Lemma stamp_changed_guard b a : P a → triple b (stamp_changed a) b P.
Proof.
  intros Ha. eapply triple_bind; [apply time_now_guard|]. intros t Ht. apply triple_ret. auto.
Qed.
Lemma stamp_modified_changed_guard b a : P a → triple b (stamp_modified_changed a) b P.
Proof.
  intros Ha. eapply triple_bind; [apply time_now_guard|]. intros t Ht.
  eapply triple_bind; [apply time_now_guard|]. intros t' Ht'. apply triple_ret. auto.
Qed.
Lemma stamp_changed_modified_guard b a : P a → triple b (stamp_changed_modified a) b P.
Proof.
  intros Ha. eapply triple_bind; [apply time_now_guard|]. intros t Ht.
  eapply triple_bind; [apply time_now_guard|]. intros t' Ht'. apply triple_ret. auto.
Qed.
Lemma get_inode_guard b i : triple b (get_inode i) b (right P).
Proof.
  intros st Hst. unfold get_inode, gets. simpl. split; [done|].
  destruct (inodes st !! i) as [a|] eqn:Ha; [|done]. by apply Hst in Ha as [].
Qed.
Lemma write_inode_guard b a : P a → triple b (write_inode a) b (λ _, True).
Proof.
  intros Ha st (Hs & Hn & Hh & Hst). split; [|done]. split_and!; [done..|].
  intros i a' Hi. simpl in Hi. apply lookup_insert_Some in Hi as [[<- <-]|[_ Hi]]; [done|auto].
Qed.
Lemma write_content_guard b i data : triple b (write_content i data) b (λ _, True).
Proof. by intros st (?&?&?&?). Qed.
Lemma open_content_guard b i : triple b (open_content i) b (λ _, True).
Proof. apply triple_gets. Qed.
Lemma get_directory_content_guard b i : triple b (get_directory_content i) b (right (λ _, True)).
Proof.
  eapply triple_bind; [apply open_content_guard|]. intros [bytes|] _; [|by apply triple_ret].
  eapply triple_bind; [by apply (triple_lift _ _ (λ _, True)); destruct (deserialize bytes)|].
  intros es _. by apply triple_ret.
Qed.
Lemma update_directory_guard b i f : triple b (update_directory i f) b (λ _, True).
Proof.
  eapply triple_bind; [apply triple_unwrap_result, get_directory_content_guard|].
  intros es _. apply write_content_guard.
Qed.
Lemma lookup_name_guard b p n : triple b (lookup_name p n) b (right P).
Proof.
  eapply triple_or_err; [apply get_directory_content_guard|]. intros es _.
  destruct (es !! n) as [[i k]|]; [apply get_inode_guard|by apply triple_ret].
Qed.
Lemma gc_inode_guard b a : triple b (gc_inode a) b (λ _, True).
Proof.
  intros st (Hs & Hn & Hh & Hst). unfold gc_inode. destruct (_ && _); [|done].
  unfold gets, modify, lift, mbind, stateM_bind. destruct (inodes st !! _); [|done]. simpl.
  destruct (contents st !! _); [|done]. split; [|done]. split_and!; [done..|].
  intros j a' Hi. simpl in Hi. apply lookup_delete_Some in Hi as [_ Hi]. auto.
Qed.
Lemma allocate_next_inode_guard :
  default FUSE_ROOT_ID s0 + 1 < 2 ^ 64 → 0 ≤ default FUSE_ROOT_ID s0 →
  triple true allocate_next_inode false (λ i, i = default FUSE_ROOT_ID s0 + 1).
Proof.
  intros Hr Hp st (Hs & Hn & Hh & Hst). unfold allocate_next_inode, gets, modify, lift, mbind, stateM_bind.
  rewrite (Hs eq_refl). unfold default in *. cbn -[uadd FUSE_ROOT_ID].
  assert (∀ x : option Z, match x with Some n => n | None => FUSE_ROOT_ID end = from_option id FUSE_ROOT_ID x) as ->
    by by intros [].
  cbn -[uadd FUSE_ROOT_ID]. rewrite uadd_small by (destruct s0; simpl in *; lia).
  split; [|done]. split_and!; [done| |done..].
  intros n [= <-]. destruct s0; simpl in *; unfold within; lia.
Qed.
Lemma allocate_next_file_handle_guard b r w :
  triple b (allocate_next_file_handle r w) b (within 64).
Proof.
  intros st (Hs & Hn & Hh & Hst). unfold allocate_next_file_handle, gets, modify, lift, mbind, stateM_bind.
  cbn -[assert_ wrap]. unfold assert_. destruct (Z.ltb_spec (next_file_handle st) FILE_HANDLE_WRITE_BIT);
    [simpl|done]. split.
  - split; [done|]. split; [done|]. split; [by apply within_wrap|done].
  - assert (within 64 FILE_HANDLE_READ_BIT ∧ within 64 FILE_HANDLE_WRITE_BIT) as [Hr Hw]
      by (by vm_compute).
    by destruct r, w; repeat apply within_lor.
Qed.

Lemma new_attributes_guard b pa h sz k m l :
  P pa → within 64 h → within 64 sz → within 32 l → triple b k b (λ _, True) →
  triple b m b (within 16) →
  triple b (new_attributes (default FUSE_ROOT_ID s0 + 1) h sz k m l (req_uid req)
              (creation_gid pa (req_gid req))) b P.
Proof.
  intros Hpa Hh Hsz Hl Hk Hm. unfold new_attributes.
  eapply triple_bind; [apply time_now_guard|]. intros t Ht.
  eapply triple_bind; [apply time_now_guard|]. intros t' Ht'.
  eapply triple_bind; [apply time_now_guard|]. intros t'' Ht''.
  eapply triple_bind; [exact Hk|]. intros K _.
  eapply triple_bind; [exact Hm|]. intros M HM. apply triple_ret. by apply cl_new.
Qed.
Lemma creation_mode_guard b m : triple b (creation_mode m) b (within 16).
Proof.
  eapply triple_bind; [apply triple_gets|]. intros suid _. apply triple_ret.
  by case_match; apply within_wrap.
Qed.

(** The ends of the methods. *)
Lemma FileAttr_from_guard b a : P a → triple b (lift (FileAttr_from a)) b shows.
Proof.
  intros Ha. apply triple_lift. eapply holds_mono; [apply holds_eq|]. intros attr Hattr. by exists a.
Qed.
Lemma reply_entry_guard b a : P a → triple b (reply_entry a) b fair.
Proof.
  intros Ha. eapply triple_bind; [by apply FileAttr_from_guard|]. intros attr Hattr. by apply triple_ret.
Qed.
Lemma reply_attr_guard b a : P a → triple b (reply_attr a) b fair.
Proof.
  intros Ha. eapply triple_bind; [by apply FileAttr_from_guard|]. intros attr Hattr. by apply triple_ret.
Qed.
Lemma triple_checked b e k : triple b k b fair → triple b (checked e k) b fair.
Proof. intros Hk. destruct e; [by apply triple_ret|done]. Qed.
Lemma with_inode_guard b i k : (∀ a, P a → triple b (k a) b fair) → triple b (with_inode i k) b fair.
Proof.
  intros Hk. eapply triple_bind; [apply get_inode_guard|].
  intros [e|a] Ha; [by apply triple_ret|by apply Hk].
Qed.
Lemma uadd_guard b w x y : 0 ≤ w → triple b (lift (uadd w x y)) b (within w).
Proof. intros Hw. by apply triple_lift, uarith_holds. Qed.
Lemma usub_guard b w x y : 0 ≤ w → triple b (lift (usub w x y)) b (within w).
Proof. intros Hw. by apply triple_lift, uarith_holds. Qed.

(** A step whose result the rest does not depend on. *)
Lemma triple_then {A D} b (m : stateM SimpleFS A) (k : stateM SimpleFS D) b' Q :
  triple b m b (λ _, True) → triple b k b' Q → triple b (m;; k) b' Q.
Proof. intros Hm Hk. by eapply triple_bind. Qed.
Lemma triple_lift_any {A} b (m : outcome A) : triple b (lift m) b (λ _, True).
Proof. apply triple_lift, holds_True. Qed.
#[local] Hint Resolve time_now_guard stamp_changed_guard stamp_modified_changed_guard
  stamp_changed_modified_guard get_inode_guard write_inode_guard write_content_guard
  open_content_guard get_directory_content_guard update_directory_guard lookup_name_guard
  gc_inode_guard allocate_next_file_handle_guard reply_entry_guard reply_attr_guard
  triple_gets triple_unwrap_result : guard.
#[local] Hint Resolve triple_lift_any | 5 : guard.
#[local] Hint Extern 0 (triple _ (lift (uadd _ _ _)) _ _) => solve [by apply uadd_guard] : guard.

(** The walk: known steps, early returns and tests. *)
Ltac walk_step :=
  cbv beta zeta;
  first [ solve [ eauto with guard ] |
  lazymatch goal with
  | |- triple _ (mret _) _ _ => apply triple_ret; solve [ simpl; eauto ]
  | |- triple _ (or_reply _ _) _ _ =>
      eapply triple_or_reply; [ solve [ eauto with guard ] | intros | by intros ]
  | |- triple _ (or_err _ _) _ _ => eapply triple_or_err; [ solve [ eauto with guard ] | intros ]
  | |- triple _ (_ ≫= _) _ _ => eapply triple_bind; [ solve [ eauto with guard ] | intros ]
  | |- triple _ (if decide _ then _ else _) _ _ => apply triple_decide
  | |- triple _ (if _ then _ else _) _ _ => apply triple_if; intros
  end ].
Ltac walk := repeat walk_step.

Lemma truncate_guard b i sz u g : 0 ≤ sz → triple b (truncate i sz u g) b (right P).
Proof.
  intros Hsz. unfold truncate. apply triple_if; intros Hmax; [by apply triple_ret|].
  assert (within 64 sz). { unfold within, MAX_FILE_SIZE in *. apply Z.ltb_ge in Hmax. lia. }
  walk.
Qed.
Lemma insert_link_guard b p n i k : triple b (insert_link req p n i k) b (right (λ _, True)).
Proof. unfold insert_link. walk. Qed.
Lemma prepare_parent_guard b p : triple b (prepare_parent req p) b (right P).
Proof. unfold prepare_parent. walk. Qed.
Lemma write_directory_content_guard b i es : triple b (write_directory_content i es) b (λ _, True).
Proof. apply write_content_guard. Qed.
#[local] Hint Resolve write_directory_content_guard : guard.
#[local] Hint Extern 2 (triple _ (if decide _ then _ else _) _ _) => apply triple_decide : guard.
#[local] Hint Extern 1 (triple _ (mret _) _ _) => solve [by apply triple_ret] : guard.
#[local] Hint Resolve truncate_guard insert_link_guard prepare_parent_guard : guard.

Lemma lookup_guard b p n : triple b (SimpleFS_lookup req p n) b fair.
Proof. unfold SimpleFS_lookup. walk. Qed.
Lemma getattr_guard b i : triple b (SimpleFS_getattr i) b fair.
Proof. unfold SimpleFS_getattr. walk. Qed.
Lemma readlink_guard b i : triple b (SimpleFS_readlink i) b fair.
Proof. unfold SimpleFS_readlink. walk. destruct a; walk. Qed.

Lemma in_groups_guard b ask g : triple b (in_groups ask (req_pid req) g) b (λ m, m = true → member g).
Proof.
  unfold in_groups. destruct ask; [|by apply triple_ret].
  eapply triple_bind; [apply triple_lift, holds_eq|]. intros gs Hgs. apply triple_ret.
  intros Hg%bool_decide_eq_true. by exists gs.
Qed.
Lemma not_refused (c d : bool) : negb c && negb d = false → c = true ∨ d = true.
Proof. destruct c, d; auto. Qed.

(** The end of [chmod] and [chown]. *)
Lemma store_reply_guard b a :
  P a → triple b (attrs ← stamp_changed a; write_inode attrs;; reply_attr attrs) b fair.
Proof. intros Ha. walk. Qed.

Lemma setattr_chmod_guard b a m : P a → triple b (setattr_chmod req a m) b fair.
Proof.
  intros Ha. unfold setattr_chmod. cbv zeta. apply triple_if; intros Hr; [by apply triple_ret|].
  eapply triple_bind; [apply in_groups_guard|]. intros mem _. apply store_reply_guard.
  assert (req_uid req = 0 ∨ req_uid req = uid a) as Hauth.
  { by destruct (not_refused _ _ Hr) as [?%Z.eqb_eq|?%Z.eqb_eq]; [left|right]. }
  case_match; apply cl_chmod; done || by apply within_wrap.
Qed.
Lemma setattr_chown_guard b a u g :
  (∀ x, u = Some x → within 32 x) → (∀ x, g = Some x → within 32 x) → P a →
  triple b (setattr_chown req a u g) b fair.
Proof.
  intros Hu Hg Ha. unfold setattr_chown.
  eapply (triple_bind _ _ _ _ _ (λ refused, refused = false →
    ∀ x, g = Some x → req_uid req = 0 ∨ member x)).
  { destruct g as [x|]; [|by apply triple_ret].
    eapply triple_bind; [apply in_groups_guard|]. intros mem Hmem. apply triple_ret.
    intros Hr y [= <-]. destruct (not_refused _ _ Hr) as [?%Z.eqb_eq| ->]; [by left|right; auto]. }
  intros refused Hmem. apply triple_if; intros Hr; [by apply triple_ret|].
  specialize (Hmem Hr). cbv zeta. apply triple_if; intros Huid; [by apply triple_ret|].
  apply triple_if; intros Hgid; [by apply triple_ret|]. apply store_reply_guard.
  set (a1 := if negb _ then clear_suid_sgid a else a).
  assert (P a1 ∧ uid a1 = uid a) as [H1 Hu1].
  { unfold a1. destruct (negb (Z.land (mode a) _ =? 0)); [|done]. split; [by apply cl_clear|].
    apply clear_uid. }
  set (a2 := match u with Some _ => _ | None => a1 end).
  assert (P a2 ∧ (req_uid req = 0 ∨ uid a2 = uid a)) as [H2 Hu2].
  { unfold a2. destruct u as [x|]; [|auto].
    assert (req_uid req = 0 ∨ x = uid a) as Hx.
    { destruct (not_refused _ _ Huid) as [?%Z.eqb_eq|[?%Z.eqb_eq _]%andb_true_iff]; auto. }
    split; [|done]. apply (cl_mask HP _ (with_uid x a1)), cl_uid; try done; [by rewrite Hu1|auto]. }
  destruct g as [x|]; [|done].
  assert (P (with_gid x a2)) as H3.
  { apply cl_gid; auto. destruct (Hmem x eq_refl); [by left|].
    destruct Hu2 as [|Hu2]; [by left|]. rewrite Hu2.
    destruct (not_refused _ _ Hgid) as [?%Z.eqb_eq|?%Z.eqb_eq]; auto. }
  destruct (negb (req_uid req =? 0)); [|done]. by apply (cl_mask HP _ (with_gid x a2)).
Qed.

Lemma setattr_time_guard b now t set a :
  stamp_ok now → time_arg_ok (Some t) → P a → (∀ t' a', stamp_ok t' → P a' → P (set t' a')) →
  triple b (setattr_time req now t set a) b (right P).
Proof.
  intros Hnow Ht Ha Hset. unfold setattr_time. cbv zeta.
  apply triple_if; intros _; [by apply triple_ret|]. apply triple_if; intros _; [by apply triple_ret|].
  eapply (triple_bind _ _ _ _ _ stamp_ok).
  { destruct t as [t|]; [|by apply triple_ret]. apply triple_lift.
    pose proof (time_from_ok t (proj1 Ht) (proj2 Ht)) as (t' & -> & ?)%yields_Ret.
    by apply time_ok_stamp. }
  intros t' Ht'. walk.
Qed.
Lemma setattr_truncate_guard b i sz fh : 0 ≤ sz → triple b (setattr_truncate req i sz fh) b (right P).
Proof. intros Hsz. unfold setattr_truncate. destruct fh; walk. Qed.

Lemma setattr_guard b i m u g sz atime mtime fh :
  (∀ x, u = Some x → within 32 x) → (∀ x, g = Some x → within 32 x) → (∀ x, sz = Some x → 0 ≤ x) →
  time_arg_ok atime → time_arg_ok mtime →
  triple b (SimpleFS_setattr req i m u g sz atime mtime fh) b fair.
Proof.
  intros Hu Hg Hsz Hat Hmt. unfold SimpleFS_setattr.
  eapply triple_or_reply; [apply get_inode_guard| |by intros]. intros a Ha.
  destruct m as [m|]; [by apply setattr_chmod_guard|].
  apply triple_if; intros _; [by apply setattr_chown_guard|].
  eapply (triple_or_reply _ _ _ _ _ P); [| |by intros].
  { destruct sz; [apply setattr_truncate_guard; auto|by apply triple_ret]. }
  intros _ _. eapply triple_bind; [apply time_now_guard|]. intros now Hnow.
  eapply (triple_or_reply _ _ _ _ _ P); [| |by intros].
  { destruct atime; [|by apply triple_ret]. apply setattr_time_guard; auto. }
  intros a1 H1. eapply (triple_or_reply _ _ _ _ _ P); [| |by intros].
  { destruct mtime; [|by apply triple_ret]. apply setattr_time_guard; auto. }
  intros a2 H2. walk.
Qed.

(** ** New inodes *)

Context (Hroom : default FUSE_ROOT_ID s0 + 1 < 2 ^ 64) (Hpos : 0 ≤ default FUSE_ROOT_ID s0).

Lemma make_node_guard p n m h pa :
  within 64 h → P pa → triple true (make_node req p n m h pa) false P.
Proof.
  intros Hh Hpa. unfold make_node. cbv zeta.
  eapply triple_bind; [by apply allocate_next_inode_guard|]. intros i ->.
  eapply triple_bind; [by apply new_attributes_guard; auto using triple_lift_any, creation_mode_guard|].
  intros a Ha. walk.
Qed.
Lemma mknod_guard p n m : triple true (SimpleFS_mknod req p n m) false fair.
Proof.
  unfold SimpleFS_mknod. cbv zeta. apply triple_if; intros _; [by eapply triple_weaken, triple_ret|].
  eapply triple_bind; [apply lookup_name_guard|]. intros found _.
  apply triple_if; intros _; [by eapply triple_weaken, triple_ret|].
  eapply triple_or_reply; [apply prepare_parent_guard| |by intros]. intros pa Hpa.
  eapply triple_bind; [by apply make_node_guard|]. intros a Ha. walk.
Qed.
Lemma create_guard p n m fl : triple true (SimpleFS_create req p n m fl) false fair.
Proof.
  unfold SimpleFS_create. eapply triple_bind; [apply lookup_name_guard|]. intros found _.
  apply triple_if; intros _; [by eapply triple_weaken, triple_ret|].
  destruct (create_mode fl) as [[rd wr]|]; [|by eapply triple_weaken, triple_ret].
  eapply triple_or_reply; [apply prepare_parent_guard| |by intros]. intros pa Hpa.
  eapply triple_bind; [by apply make_node_guard|]. intros a Ha.
  eapply triple_bind; [by apply FileAttr_from_guard|]. intros attr Hattr. walk.
Qed.
Lemma mkdir_guard p n m : triple true (SimpleFS_mkdir req p n m) false fair.
Proof.
  unfold SimpleFS_mkdir. eapply triple_bind; [apply lookup_name_guard|]. intros found _.
  apply triple_if; intros _; [by eapply triple_weaken, triple_ret|].
  eapply triple_or_reply; [apply prepare_parent_guard| |by intros]. intros pa Hpa. cbv zeta.
  eapply triple_bind; [by apply allocate_next_inode_guard|]. intros i ->.
  eapply triple_bind.
  { by apply new_attributes_guard; auto using triple_ret, creation_mode_guard. }
  intros a Ha. walk.
Qed.
Lemma symlink_guard p n link :
  Z.of_nat (length link) < 2 ^ 64 → triple true (SimpleFS_symlink req p n link) false fair.
Proof.
  intros Hlink. unfold SimpleFS_symlink.
  eapply triple_or_reply; [apply prepare_parent_guard| |by intros]. intros pa Hpa.
  eapply triple_bind; [by apply allocate_next_inode_guard|]. intros i ->.
  eapply triple_bind.
  { apply new_attributes_guard; try done; [split; [lia|done]|by apply triple_ret..]. }
  intros a Ha. walk.
Qed.

(** ** The other methods *)

Lemma remove_entry_guard b p n pa a links :
  P pa → P a → triple b links b (within 32) → triple b (remove_entry p n pa a links) b fair.
Proof. intros Hpa Ha Hl. unfold remove_entry. walk. Qed.
Lemma unlink_guard b p n : triple b (SimpleFS_unlink req p n) b fair.
Proof. unfold SimpleFS_unlink. walk. apply remove_entry_guard; auto with guard. by apply usub_guard. Qed.
Lemma rmdir_guard b p n : triple b (SimpleFS_rmdir req p n) b fair.
Proof. unfold SimpleFS_rmdir. walk. apply remove_entry_guard; auto. by apply triple_ret. Qed.

Lemma rename_exchange_guard b p n np nn a pa npa :
  P a → P pa → P npa → triple b (rename_exchange p n np nn a pa npa) b fair.
Proof. intros Ha Hpa Hnpa. unfold rename_exchange. walk. Qed.
Lemma rename_replace_guard b np nn : triple b (rename_replace np nn) b (λ _, True).
Proof.
  unfold rename_replace. eapply triple_bind; [apply lookup_name_guard|].
  intros [e|a] Ha; [by apply triple_ret|]. eapply triple_bind; [apply update_directory_guard|]. intros _ _.
  eapply (triple_bind _ _ _ _ _ (within 32)).
  { apply triple_decide; [by apply triple_ret|by apply usub_guard]. }
  intros l Hl. walk.
Qed.
#[local] Hint Resolve rename_replace_guard rename_exchange_guard : guard.
Lemma rename_move_guard b p n np nn a pa npa :
  P a → P pa → P npa → triple b (rename_move p n np nn a pa npa) b fair.
Proof. intros Ha Hpa Hnpa. unfold rename_move. walk. Qed.
Lemma rename_not_empty_guard b np nn : triple b (rename_not_empty np nn) b (λ _, True).
Proof. unfold rename_not_empty. walk. destruct a; walk. Qed.
Lemma rename_sticky_guard b np nn npa : triple b (rename_sticky req np nn npa) b (λ _, True).
Proof. unfold rename_sticky. walk. destruct a; walk. Qed.
#[local] Hint Resolve rename_move_guard rename_not_empty_guard rename_sticky_guard : guard.
Lemma rename_guard b p n np nn fl : triple b (SimpleFS_rename req p n np nn fl) b fair.
Proof. unfold SimpleFS_rename. walk. Qed.

Lemma link_guard b i p n : triple b (SimpleFS_link req i p n) b fair.
Proof.
  unfold SimpleFS_link. walk.
Qed.
Lemma open_with_guard b ex i fl : triple b (open_with ex req i fl) b fair.
Proof.
  unfold open_with. destruct (open_mode ex fl) as [e|[[mask rd] wr]]; walk.
  apply triple_ret. split; [done|]. case_match; auto.
Qed.
Lemma read_guard b i fh off sz : triple b (SimpleFS_read i fh off sz) b fair.
Proof. unfold SimpleFS_read. walk. destruct a0; walk. Qed.
Lemma grow_guard b len off a : P a → triple b (lift (grow len off a)) b P.
Proof.
  intros Ha. apply triple_lift. unfold grow. eapply holds_bind; [by apply uarith_holds|].
  intros total Ht. simpl. case_match; auto.
Qed.
#[local] Hint Extern 0 (triple _ (lift (grow _ _ _)) _ _) => solve [apply grow_guard; auto] : guard.
Lemma write_guard b i fh off data : triple b (SimpleFS_write i fh off data) b fair.
Proof. unfold SimpleFS_write. walk. destruct a0; walk. apply triple_ret. by apply within_wrap. Qed.
Lemma copy_file_range_guard b i fi off j fj off' len :
  triple b (SimpleFS_copy_file_range i fi off j fj off' len) b fair.
Proof.
  unfold SimpleFS_copy_file_range. walk. destruct a; walk. destruct a0; walk.
  apply triple_ret. by apply within_wrap.
Qed.
Lemma fallocate_guard b i off len m : triple b (SimpleFS_fallocate i off len m) b fair.
Proof.
  unfold SimpleFS_fallocate. walk. destruct a; [|walk]. eapply triple_then; [auto with guard|].
  eapply triple_then; [|by apply triple_ret]. apply triple_if; intros _; [|by apply triple_ret].
  walk. apply write_inode_guard. case_match; [|done]. apply (cl_size HP); [by apply within_wrap|done].
Qed.
Lemma release_guard b i : triple b (SimpleFS_release i) b fair.
Proof. unfold SimpleFS_release. walk. destruct a; walk. Qed.
Lemma readdir_guard b i off buf : triple b (SimpleFS_readdir i off buf) b fair.
Proof. unfold SimpleFS_readdir. walk. Qed.
Lemma setxattr_guard b i key v : triple b (SimpleFS_setxattr req i key v) b fair.
Proof. apply with_inode_guard. intros a Ha. apply triple_checked. walk. Qed.
Lemma removexattr_guard b i key : triple b (SimpleFS_removexattr req i key) b fair.
Proof.
  apply with_inode_guard. intros a Ha. apply triple_checked. destruct (_ !! _); walk.
Qed.
Lemma xattr_reply_guard b data sz : triple b (mret (xattr_reply data sz)) b fair.
Proof.
  apply triple_ret. unfold xattr_reply. case_match; [by apply within_wrap|]. by case_match.
Qed.
Lemma getxattr_guard b i key sz : triple b (SimpleFS_getxattr req i key sz) b fair.
Proof.
  apply with_inode_guard. intros a Ha. apply triple_checked.
  destruct (_ !! _); [apply xattr_reply_guard|walk].
Qed.
Lemma listxattr_guard b i sz : triple b (SimpleFS_listxattr i sz) b fair.
Proof. apply with_inode_guard. intros a Ha. apply xattr_reply_guard. Qed.
Lemma access_guard b i mask : triple b (SimpleFS_access req i mask) b fair.
Proof. unfold SimpleFS_access. walk. apply triple_ret. by case_match. Qed.

(** The arguments have the widths of their types. *)
Definition call_typed (c : FsCall) : Prop :=
  match c with
  | Fs_setattr _ _ u g sz atime mtime _ _ _ _ _ _ =>
      (∀ x, u = Some x → within 32 x) ∧ (∀ x, g = Some x → within 32 x) ∧
      (∀ x, sz = Some x → 0 ≤ x) ∧ time_arg_ok atime ∧ time_arg_ok mtime
  | Fs_symlink _ _ link => Z.of_nat (length link) < 2 ^ 64
  | _ => True
  end.

Lemma call_guard c :
  call_typed c → is_forget c = false → triple true (SimpleFS_call req c) false fair.
Proof.
  intros Hc Hf. destruct c; try discriminate Hf; cbn [SimpleFS_call call_typed] in *;
    try solve [eapply triple_weaken; by apply triple_ret].
  - eapply triple_weaken, lookup_guard.
  - eapply triple_weaken, getattr_guard.
  - destruct Hc as (?&?&?&?&?). by eapply triple_weaken, setattr_guard.
  - eapply triple_weaken, readlink_guard.
  - apply mknod_guard.
  - apply mkdir_guard.
  - eapply triple_weaken, unlink_guard.
  - eapply triple_weaken, rmdir_guard.
  - by apply symlink_guard.
  - eapply triple_weaken, rename_guard.
  - eapply triple_weaken, link_guard.
  - eapply triple_weaken, open_with_guard.
  - eapply triple_weaken, read_guard.
  - eapply triple_weaken, write_guard.
  - eapply triple_weaken, release_guard.
  - eapply triple_weaken, open_with_guard.
  - eapply triple_weaken, readdir_guard.
  - eapply triple_weaken, release_guard.
  - eapply triple_weaken, setxattr_guard.
  - eapply triple_weaken, getxattr_guard.
  - eapply triple_weaken, listxattr_guard.
  - eapply triple_weaken, removexattr_guard.
  - eapply triple_weaken, access_guard.
  - apply create_guard.
  - eapply triple_weaken, fallocate_guard.
  - eapply triple_weaken, copy_file_range_guard.
Qed.
End guard.

(** ** Types *)

(** The widths of the fields of [InodeAttributes]. *)
Record typed (a : InodeAttributes) : Prop := {
  ty_inode : within 64 (inode a);
  ty_handles : within 64 (open_file_handles a);
  ty_size : within 64 (size a);
  ty_accessed : stamp_ok (last_accessed a);
  ty_modified : stamp_ok (last_modified a);
  ty_changed : stamp_ok (last_metadata_changed a);
  ty_mode : within 16 (mode a);
  ty_links : within 32 (hardlinks a);
  ty_uid : within 32 (uid a);
  ty_gid : within 32 (gid a) }.
Record well_typed (st : SimpleFS) : Prop := {
  wt_superblock n : superblock st = Some n → within 64 n;
  wt_handle : within 64 (next_file_handle st);
  wt_inodes i a : inodes st !! i = Some a → inode a = i ∧ typed a }.

Definition attr_typed (attr : FileAttr) : Prop :=
  within 64 (attr_ino' attr) ∧ within 64 (attr_size' attr) ∧ within 64 (attr_blocks' attr) ∧
  within 16 (attr_perm attr) ∧ within 32 (attr_nlink' attr) ∧ within 32 (attr_uid' attr) ∧
  within 32 (attr_gid' attr) ∧ within 32 (attr_blksize' attr).
Definition reply_typed (r : FsReply) : Prop :=
  match r with
  | REntry attr | RAttr attr => attr_typed attr
  | RCreated attr fh fl => attr_typed attr ∧ within 64 fh ∧ within 32 fl
  | ROpened fh fl => within 64 fh ∧ within 32 fl
  | RWritten n | RXattrSize n => within 32 n
  | _ => True
  end.

Section types.
Context `{B : Build, C : Libc, F : LibcFs, H : Host, HL : !HostLaws H}.

Lemma typed_closed s0 req :
  0 ≤ default FUSE_ROOT_ID s0 → default FUSE_ROOT_ID s0 + 1 < 2 ^ 64 →
  within 32 (req_uid req) → within 32 (req_gid req) → closed s0 req typed.
Proof.
  intros Hp Hr Hu Hg. split.
  - intros t a Ht []. split; [|split]; by split.
  - intros n a Hn []. by split.
  - intros n a Hn []. by split.
  - intros n a Hn []. by split.
  - intros x a []. by split.
  - intros m a []. split; try done. by apply within_land.
  - intros m a _ Hm []. by split.
  - intros u a _ Hn []. by split.
  - intros g a _ Hn []. by split.
  - intros pa h sz t t' t'' k m l [] Hh Hsz Ht Ht' Ht'' Hm Hl. split; try done.
    + simpl. unfold within. lia.
    + simpl. unfold creation_gid. by case_match.
Qed.

Lemma FileAttr_from_typed a attr : typed a → FileAttr_from a = Ret attr → attr_typed attr.
Proof.
  intros Ha Hattr. unfold FileAttr_from in Hattr. outcome_inv.
  match goal with E : usub 64 ?y 1 = Ret ?z |- _ =>
    pose proof (uarith_holds 64 (y - 1)) as Ht; unfold usub in E; rewrite E in Ht; simpl in Ht end.
  destruct Ha. unfold attr_typed, BLOCK_SIZE; cbn.
  split; [done|]. split; [done|]. split; [|by repeat (split; [done|])].
  unfold within in *. specialize (Ht ltac:(lia)).
  split; [apply Z.div_pos; lia|]. apply Z.div_lt_upper_bound; lia.
Qed.

Lemma call_forget req c st : is_forget c = true → SimpleFS_call req c st = Ret (RNone, st).
Proof. by destruct c. Qed.


(** ** Rights *)

(** C18: A call by another user than root changes no file's type or owner; it
    changes the group only if the caller owns the file and belongs to the new
    group, and adds permission bits only if the caller owns the file. *)
Theorem SimpleFS_no_escalation req c st T r st' i a a' :
  rep st T → tree_ok T → room T → call_typed c → req_uid req ≠ 0 →
  SimpleFS_call req c st = Ret (r, st') → inodes st !! i = Some a → inodes st' !! i = Some a' →
  kind a' = kind a ∧ uid a' = uid a ∧
  (gid a' = gid a ∨ req_uid req = uid a ∧ member req (gid a')) ∧
  ((∀ k, Z.testbit (mode a') k = true → Z.testbit (mode a) k = true) ∨ req_uid req = uid a).
Proof.
  intros R Hok Hroom Hc Hu Hcall Ha Ha'. destruct (is_forget c) eqn:Hforget.
  { rewrite (call_forget req c st Hforget) in Hcall. injection Hcall as <- <-. simplify_eq.
    split_and!; [done|done|by left|by left]. }
  set (P := λ x, ∀ a, inodes st !! inode x = Some a → kind x = kind a ∧ uid x = uid a ∧
    (gid x = gid a ∨ req_uid req = uid a ∧ member req (gid x)) ∧
    ((∀ k, Z.testbit (mode x) k = true → Z.testbit (mode a) k = true) ∨ req_uid req = uid a)).
  pose proof (rep_last _ _ R) as Hlast. pose proof (ok_last T Hok). pose proof (room_inodes T Hroom).
  assert (closed (superblock st) req P) as HP.
  { split; try (intros; done).
    - intros m x Hx b Hb. destruct (Hx b Hb) as (? & ? & ? & Hm). split_and!; [done..|].
      destruct Hm as [Hm|Hm]; [left|by right]. intros k. simpl. rewrite Z.land_spec.
      intros [Hk _]%andb_true_iff. auto.
    - intros m x Hauth _ Hx b Hb. destruct (Hx b Hb) as (? & Hxu & ? & ?). split_and!; [done..|].
      right. destruct Hauth as [|Hauth]; [done|]. congruence.
    - intros u x Hauth _ Hx b Hb. destruct (Hx b Hb) as (? & Hxu & ? & ?). split_and!; try done.
      simpl. destruct Hauth; [done|congruence].
    - intros g x Hauth _ Hx b Hb. destruct (Hx b Hb) as (? & Hxu & ? & ?). split_and!; try done.
      right. destruct Hauth as [|[Hauth Hm]]; [done|]. simpl. split; [congruence|done].
    - intros pa h sz t t' t'' k m l _ _ _ _ _ _ _ _ b Hb. simpl in Hb. exfalso.
      pose proof (ok_fresh T Hok) as Hf. rewrite (rep_node _ _ _ R) in Hf. unfold fresh in Hf.
      rewrite Hlast, Hb in Hf. done. }
  assert (guarded (superblock st) P true st) as Hst.
  { split; [done|]. split; [|split].
    - intros n Hn. rewrite Hn in Hlast. simpl in Hlast. unfold within. lia.
    - pose proof (room_handles T Hroom). rewrite <- (rep_handle _ _ R). unfold within. lia.
    - intros j b Hb. destruct (rep_attrs _ _ R _ _ Hb) as [Hj _]. split; [done|].
      intros b' Hb'. rewrite Hj in Hb'. simplify_eq. auto. }
  pose proof (call_guard (superblock st) req P HP ltac:(lia) ltac:(lia) c Hc Hforget st Hst) as Ht.
  unfold holds in Ht. rewrite Hcall in Ht. destruct Ht as [(_ & _ & _ & Hi) _].
  destruct (Hi _ _ Ha') as [Hia HPa]. apply HPa. by rewrite Hia.
Qed.
End types.

(** ** Witnesses *)

(** The user makes the directory a in the root. *)
Definition demo_mkdir : FsReply * SimpleFS :=
  match @SimpleFS_call true linux linux_fs demo_host demo_user
          (Fs_mkdir FUSE_ROOT_ID [97] 493 0) demo_root with
  | Ret p => p
  | _ => (RNone, demo_root)
  end.
Lemma demo_mkdir_eq :
  @SimpleFS_call true linux linux_fs demo_host demo_user
    (Fs_mkdir FUSE_ROOT_ID [97] 493 0) demo_root = Ret (demo_mkdir.1, demo_mkdir.2).
Proof. vm_compute. reflexivity. Qed.
Definition demo_root_attrs : InodeAttributes :=
  MkInode 1 0 0 (1690000000, 0) (1690000000, 0) (1690000000, 0) KDirectory 511 2 0 0 ∅.
Lemma demo_root_inodes : inodes demo_root = {[1 := demo_root_attrs]}.
Proof. vm_compute. reflexivity. Qed.


Lemma SimpleFS_no_escalation_witness :
  ∃ a', inodes demo_mkdir.2 !! 1 = Some a' ∧ uid a' = 0 ∧ kind a' = KDirectory.
Proof.
  assert (is_Some (inodes demo_mkdir.2 !! 1)) as [a' Ha'] by (vm_compute; eauto).
  destruct (@SimpleFS_no_escalation true linux linux_fs demo_host demo_host_laws
    demo_user (Fs_mkdir FUSE_ROOT_ID [97] 493 0) demo_root root_tree demo_mkdir.1 demo_mkdir.2
    1 demo_root_attrs a') as (? & ? & _);
    [exact demo_root_rep|exact root_tree_ok|exact demo_root_room|done|done|exact demo_mkdir_eq
    |by rewrite demo_root_inodes|done|].
  by exists a'.
Defined.
