(* ===== verification/SimpleData.v ===== *)
(** * SimpleData: handles, contents, listings and extended attributes of SimpleFS

    What a client of the file system sees: handles are never given out twice,
    reads return what was written, a directory is listed completely page by page,
    and an extended attribute reads back.  And where the code falls short: an
    inode that was ever opened is never freed, and setting a size and a time in
    one call loses the size. *)

From stdpp Require Import sorting.
From S2P Require Import Prelude KernelInterface Time Operation Response Listing Session SimpleAttr SimpleFS SimpleTree.
From S2P Require Import SimpleRep SimpleRefine SimpleQuiet SimpleGuard.

Local Open Scope Z_scope.

Section runs.
Context `{B : Build, C : Libc, F : LibcFs, H : Host, CL : !LibcLaws C, HL : !HostLaws H}.
Context `{FL : !LibcFsLaws C F}.

(** A run of calls of the VFS with the replies. *)
Inductive serves : SimpleFS → list (FsCall * FsReply) → SimpleFS → Prop :=
  | serves_nil st : serves st [] st
  | serves_cons st T req c r st1 tr st' :
      rep st T → room T → vfs_ok req T c → SimpleFS_call req c st = Ret (r, st1) →
      serves st1 tr st' → serves st ((c, r) :: tr) st'.

(** The tree steps of a run. *)
Lemma serves_tree (Q : tree → list (FsCall * FsReply) → tree → Prop) st T tr st' :
  (∀ T, tree_ok T → Q T [] T) →
  (∀ T c r T1 tr T', tree_ok T → room T → tree_step c r T T1 → Q T1 tr T' → Q T ((c, r) :: tr) T') →
  rep st T → tree_ok T → serves st tr st' → ∃ T', rep st' T' ∧ tree_ok T' ∧ Q T tr T'.
Proof.
  intros Hnil Hcons R Hok Hs. revert T R Hok.
  induction Hs as [st|st T' req c r st1 tr st' R' Hroom Hv Hc Hs IH]; intros T R Hok.
  { exists T. auto. }
  assert (T' = T) as -> by by eapply rep_unique.
  assert (yields (SimpleFS_call req c st) (λ '(r, st'), ∃ T', tree_step c r T T' ∧ rep st' T')) as Hy.
  { eapply yields_mono; [by apply call_refines|]. by intros [? ?] [_ ?]. }
  destruct (yields_eq _ _ _ Hy Hc) as (T1 & Hstep & R1).
  destruct (IH T1 R1) as (T' & ? & ? & ?); [by eapply tree_step_ok|].
  exists T'. split_and!; [done..|]. by eapply Hcons.
Qed.

(** ** Handles *)

(** The handle a call gave out, and the rights its flags ask for. *)
Definition handle_of (p : FsCall * FsReply) : option Z :=
  match p with
  | (Fs_open _ _, ROpened fh _) | (Fs_opendir _ _, ROpened fh _)
  | (Fs_create _ _ _ _ _, RCreated _ fh _) => Some fh
  | _ => None
  end.
Definition rights (c : FsCall) : option (bool * bool) :=
  match c with
  | Fs_open _ fl => match open_mode true fl with inr (_, rd, wr) => Some (rd, wr) | _ => None end
  | Fs_opendir _ fl => match open_mode false fl with inr (_, rd, wr) => Some (rd, wr) | _ => None end
  | Fs_create _ _ _ _ fl => create_mode fl
  | _ => None
  end.

Lemma set_parent_next_handle i k p T : last_handle (set_parent i k p T) = last_handle T.
Proof. unfold set_parent. by case_decide. Qed.
Lemma remove_last p n i nd T : last_handle (remove p n i nd T) = last_handle T.
Proof. unfold remove, gc. by case_decide. Qed.
Lemma move_last p n i k np nn T : last_handle (move p n i k np nn T) = last_handle T.
Proof. unfold move. by rewrite set_parent_next_handle. Qed.
Lemma exchange_last p n i k np nn j k' T : last_handle (exchange p n i k np nn j k' T) = last_handle T.
Proof. unfold exchange. by rewrite !set_parent_next_handle. Qed.

Lemma tree_step_handle c r T T' :
  tree_step c r T T' →
  match handle_of (c, r) with
  | Some fh => last_handle T' = last_handle T + 1 ∧
      ∃ rd wr, rights c = Some (rd, wr) ∧ handle_for fh (last_handle T) rd wr
  | None => last_handle T' = last_handle T
  end.
Proof.
  intros Hstep. inversion Hstep; subst; cbn [handle_of rights];
    rewrite ?move_last, ?exchange_last, ?remove_last; try done.
  - by destruct c, r.
  - by destruct c.
  - split; [done|]. eauto.
  - split; [done|]. match goal with E : open_mode _ _ = _ |- _ => rewrite E end. eauto.
  - split; [done|]. match goal with E : open_mode _ _ = _ |- _ => rewrite E end. eauto.
Qed.

(** The handles of a run count up from the next one. *)
Definition numbered (T : tree) (tr : list (FsCall * FsReply)) (T' : tree) : Prop :=
  Forall (λ fh, last_handle T ≤ Z.land fh (Z.ones 62)) (omap handle_of tr) ∧
  NoDup (omap handle_of tr) ∧
  ∀ c r fh, (c, r) ∈ tr → handle_of (c, r) = Some fh →
    rights c = Some (check_file_handle_read fh, check_file_handle_write fh).
Lemma numbered_cons T c r T1 tr T' :
  tree_step c r T T1 → numbered T1 tr T' → numbered T ((c, r) :: tr) T'.
Proof.
  intros Hstep%tree_step_handle (Hn & Hd & Hr). unfold numbered. cbn [omap list_omap].
  destruct (handle_of (c, r)) as [fh|] eqn:E.
  - destruct Hstep as (Hl & rd & wr & Hri & Hfor). rewrite Hl in Hn.
    destruct Hfor as (Hnum & Hrd & Hwr). split_and!.
    + constructor; [lia|]. eapply Forall_impl; [done|]. simpl. lia.
    + constructor; [|done]. intros Hin. rewrite Forall_forall in Hn. specialize (Hn _ Hin). lia.
    + intros c' r' fh' [[= -> ->]|Hin]%elem_of_cons Hh; [|by eapply Hr].
      assert (fh' = fh) as -> by congruence. by rewrite Hrd, Hwr.
  - rewrite Hstep in Hn. split_and!; [done..|].
    intros c' r' fh' [[= -> ->]|Hin]%elem_of_cons Hh; [congruence|by eapply Hr].
Qed.

(** Over a run of calls no two opens get the same handle, and each handle
    carries the rights its open asked for: reading and writing through it are
    allowed exactly when the flags say so. *)
Theorem handles_unique st tr st' :
  reachable st → serves st tr st' →
  NoDup (omap handle_of tr) ∧
  ∀ c r fh, (c, r) ∈ tr → handle_of (c, r) = Some fh →
    rights c = Some (check_file_handle_read fh, check_file_handle_write fh).
Proof.
  intros Hreach Hs. destruct (reachable_tree st Hreach) as (T & R & Hok).
  destruct (serves_tree numbered st T tr st') as (T' & _ & _ & _ & ?); [..|done|done|done|done].
  - intros T0 _. split; [constructor|]. split; [constructor|]. by intros c r fh ?%elem_of_nil.
  - intros. by eapply numbered_cons.
Qed.

(** ** Inodes that were opened *)

Definition opened (i : Z) (T : tree) : Prop := ∃ nd, nodes T !! i = Some nd ∧ 0 < n_handles nd.

Lemma opened_put i j nd T :
  (∀ nd', nodes T !! j = Some nd' → n_handles nd' ≤ n_handles nd) → opened i T → opened i (put_node j nd T).
Proof.
  intros Hj (x & Hx & Hh). destruct (decide (i = j)) as [-> |Hne].
  - exists nd. simpl. rewrite lookup_insert_eq. split; [done|]. apply Hj in Hx. lia.
  - exists x. simpl. by rewrite lookup_insert_ne.
Qed.
Lemma opened_remove i p n j nd T :
  nodes T !! j = Some nd → opened i T → opened i (remove p n j nd T).
Proof.
  intros Hj Hi. assert (opened i (put_node j (less_links nd) T)) as Ho.
  { apply opened_put; [|done]. intros nd' Hj'. simplify_eq. done. }
  destruct Ho as (x & Hx & Hh). exists x. split; [|done]. unfold remove, gc.
  case_decide as Hg; [|done]. simpl. destruct (decide (i = j)) as [-> |Hne].
  - simpl in Hx. rewrite lookup_insert_eq in Hx. simplify_eq. lia.
  - rewrite lookup_delete_ne by done. exact Hx.
Qed.
Lemma nodes_move p n i k np nn T : nodes (move p n i k np nn T) = nodes T.
Proof. unfold move, set_parent. by case_decide. Qed.
Lemma nodes_exchange p n i k np nn j k' T : nodes (exchange p n i k np nn j k' T) = nodes T.
Proof. unfold exchange, set_parent. by repeat case_decide. Qed.

Lemma opened_new i nd T T' :
  tree_ok T → nodes T' = <[fresh T := nd]> (nodes T) → opened i T → opened i T'.
Proof.
  intros Hok HT (x & Hx & Hh). exists x. split; [|done]. rewrite HT, lookup_insert_ne; [done|].
  intros <-. by rewrite (ok_fresh T Hok) in Hx.
Qed.
Lemma opened_same i T T' : nodes T' = nodes T → opened i T → opened i T'.
Proof. intros HT (x & Hx & Hh). exists x. by rewrite HT. Qed.

Lemma tree_step_opened i c r T T' : tree_ok T → tree_step c r T T' → opened i T → opened i T'.
Proof.
  intros Hok Hstep Hi. inversion Hstep; subst; try done; try (by apply opened_remove).
  all: try (apply opened_put; [|done]; intros nd' Hnd'; simpl in *; simplify_eq; simpl; lia).
  all: try (by eapply opened_new).
  - by eapply opened_same; [apply nodes_move|].
  - eapply opened_same; [apply nodes_move|]. by apply opened_remove.
  - by eapply opened_same; [apply nodes_exchange|].
Qed.

(** An inode that was opened is never freed: [release] and [releasedir] do not
    store the count they decrement, so that, whatever calls follow, the removal of
    its last link and its release among them, its attributes and its content stay
    in the data directory. *)
Theorem opened_inode_leaks st i a tr st' :
  reachable st → inodes st !! i = Some a → 0 < open_file_handles a → serves st tr st' →
  is_Some (inodes st' !! i) ∧ is_Some (contents st' !! i).
Proof.
  intros Hreach Ha Hh Hs. destruct (reachable_tree st Hreach) as (T & R & Hok).
  destruct (serves_tree (λ T _ T', opened i T → opened i T') st T tr st')
    as (T' & R' & Hok' & Ho); [done| |done..|].
  { intros T0 c r T1 tr' T2 Hok0 _ Hstep IH Hi. by eapply IH, tree_step_opened. }
  destruct Ho as (nd & Hnd & _).
  { exists (node_of a). by rewrite (rep_node _ _ _ R), Ha. }
  split.
  - rewrite (rep_node _ _ _ R') in Hnd. by apply fmap_Some in Hnd as (b & -> & _).
  - apply elem_of_dom. rewrite <- (rep_stored _ _ R'), (ok_stored T' Hok'). apply elem_of_dom. eauto.
Qed.
End runs.

(** ** Contents *)

Section contents.
Context `{B : Build, C : Libc, F : LibcFs, H : Host, HL : !HostLaws H}.

Lemma time_now_eq st : ∃ t, time_ok t ∧ time_now st = Ret (t, set_clock (S (clock st)) st).
Proof.
  pose proof (now_bounds (clock st)) as [Hs Hn].
  assert (yields (time_from_system_time (now (clock st))) time_ok) as (t & Ht & Hok)%yields_Ret.
  { apply time_from_ok; [lia|done]. }
  exists t. split; [done|]. unfold time_now, gets, modify, lift, mbind, stateM_bind. by rewrite Ht.
Qed.
Lemma stamp_changed_eq a st :
  ∃ t, stamp_changed a st = Ret (with_changed t a, set_clock (S (clock st)) st).
Proof.
  destruct (time_now_eq st) as (t & _ & Ht). exists t. unfold stamp_changed.
  by rewrite (bindM_eq _ _ _ _ _ Ht).
Qed.
Lemma stamp_changed_modified_eq a st :
  ∃ t t', stamp_changed_modified a st
    = Ret (with_modified t' (with_changed t a), set_clock (S (S (clock st))) st).
Proof.
  destruct (time_now_eq st) as (t & _ & Ht).
  destruct (time_now_eq (set_clock (S (clock st)) st)) as (t' & _ & Ht').
  exists t, t'. unfold stamp_changed_modified.
  by rewrite (bindM_eq _ _ _ _ _ Ht), (bindM_eq _ _ _ _ _ Ht').
Qed.

(** A write at a position, byte by byte: the gap before it reads as zeros. *)
Lemma write_at_length file off data :
  0 ≤ off → data ≠ [] →
  length (write_at file off data) = (length file `max` (Z.to_nat off + length data))%nat.
Proof.
  intros Hoff Hd. unfold write_at. rewrite decide_False by done.
  rewrite !length_app, length_resize, length_drop. lia.
Qed.
Lemma write_at_lookup file off data (k : nat) :
  0 ≤ off → data ≠ [] →
  write_at file off data !! k =
    (if decide (Z.to_nat off ≤ k < Z.to_nat off + length data)%nat then data !! (k - Z.to_nat off)%nat
     else if decide (k < length file)%nat then file !! k
     else if decide (k < Z.to_nat off)%nat then Some 0 else None).
Proof.
  intros Hoff Hd. unfold write_at. rewrite decide_False by done.
  destruct (decide (k < Z.to_nat off)%nat) as [Hk|Hk].
  - rewrite (decide_False (P := (_ ≤ k < _)%nat)) by lia.
    rewrite lookup_app_l by (by rewrite length_resize).
    case_decide as Hf; [by rewrite lookup_resize|by rewrite lookup_resize_new by lia].
  - rewrite lookup_app_r by (rewrite length_resize; lia). rewrite length_resize.
    case_decide as Hin; [by rewrite lookup_app_l by lia|].
    rewrite lookup_app_r by lia. rewrite lookup_drop.
    replace (Z.to_nat off + length data + (k - Z.to_nat off - length data))%nat with k by lia.
    case_decide; [done|]. apply lookup_ge_None. lia.
Qed.

(** A read returns the bytes from the offset on, as many as there are. *)
Lemma SimpleFS_read_spec i fh off sz st file :
  contents st !! i = Some file → check_file_handle_read fh = true → 0 ≤ off < 2 ^ 63 → 0 ≤ sz →
  Z.of_nat (length file) < 2 ^ 32 →
  SimpleFS_read i fh off sz st = Ret (RData (take (Z.to_nat sz) (drop (Z.to_nat off) file)), st).
Proof.
  intros Hc Hfh Hoff Hsz Hlen. unfold SimpleFS_read, open_content, gets, lift, mbind, stateM_bind.
  rewrite (proj2 (Z.leb_le 0 off)) by lia. rewrite Hfh. cbn -[wrap]. rewrite Hc. cbn -[wrap].
  rewrite (wrap_small 64 off) by lia. unfold saturating_sub. rewrite wrap_small by lia.
  unfold read_exact_at. case_decide as H0.
  - simpl. assert (take (Z.to_nat sz) (drop (Z.to_nat off) file) = []) as ->; [|done].
    destruct (decide (sz = 0)) as [-> |]; [done|]. rewrite drop_ge by lia. apply take_nil.
  - rewrite decide_True by lia. simpl.
    destruct (decide (sz ≤ Z.of_nat (length file) - off)).
    + by rewrite Z.min_l by lia.
    + rewrite !(take_ge (drop _ _)) by (rewrite length_drop; lia). done.
Qed.

Lemma clear_fields a b :
  inode a = inode b → mode a = mode b →
  inode (clear_suid_sgid a) = inode b ∧ size (clear_suid_sgid a) = size a ∧
  mode (clear_suid_sgid a) = mode (clear_suid_sgid b).
Proof. intros Hi Hm. unfold clear_suid_sgid. simpl. rewrite Hm. by case_match. Qed.

(** What a write leaves. *)
Lemma SimpleFS_write_spec i fh off data st a file :
  inodes st !! i = Some a → inode a = i → contents st !! i = Some file →
  check_file_handle_write fh = true → 0 ≤ off → off + Z.of_nat (length data) < 2 ^ 63 →
  Z.of_nat (length data) < 2 ^ 32 →
  ∃ st' a', SimpleFS_write i fh off data st = Ret (RWritten (Z.of_nat (length data)), st') ∧
    contents st' = <[i := write_at file off data]> (contents st) ∧
    inodes st' = <[i := a']> (inodes st) ∧
    size a' = Z.max (size a) (off + Z.of_nat (length data)) ∧ mode a' = mode (clear_suid_sgid a).
Proof.
  intros Ha Hi Hc Hfh Hoff Hsum Hlen.
  set (st1 := set_contents <[i := write_at file off data]> st).
  destruct (stamp_changed_modified_eq a st1) as (t & t' & Hstamp).
  unfold SimpleFS_write, open_content, write_content, seek, unwrap_result, get_inode, gets, modify, lift.
  unfold mbind, stateM_bind, outcome_bind.
  rewrite (proj2 (Z.leb_le 0 off)) by lia. rewrite Hfh. cbn -[wrap write_at stamp_changed_modified].
  rewrite Hc. rewrite (wrap_small 64 off) by lia. rewrite (proj2 (Z.ltb_lt off (2 ^ 63))) by lia.
  cbn -[wrap write_at stamp_changed_modified]. fold st1. rewrite Ha.
  cbn -[wrap write_at stamp_changed_modified].
  rewrite Hstamp. unfold grow. rewrite uadd_small by lia. cbn -[wrap write_at].
  rewrite wrap_small by lia.
  set (b := if size a <? _ then _ else _).
  assert (inode b = inode a ∧ mode b = mode a ∧
    size b = Z.max (size a) (off + Z.of_nat (length data))) as (Hbi & Hbm & Hbs).
  { unfold b. destruct (Z.ltb_spec (size a) (Z.of_nat (length data) + off)); simpl; repeat split; lia. }
  destruct (clear_fields b a Hbi Hbm) as (Hci & Hcs & Hcm). rewrite Hci, Hi.
  eexists _, (clear_suid_sgid b). split; [reflexivity|]. by rewrite Hcs.
Qed.

(** The byte at position [p] after a write: a written byte, an old one, or a zero
    of the gap between them. *)
Definition written (file : list Z) (off : Z) (data : list Z) (p : nat) : option Z :=
  if decide (Z.to_nat off ≤ p < Z.to_nat off + length data)%nat then data !! (p - Z.to_nat off)%nat
  else if decide (p < length file)%nat then file !! p else Some 0.


Definition bytes_left (file : list Z) (off : Z) : Z := Z.max 0 (Z.of_nat (length file) - off).

(** A read returns the bytes that are left modulo 2^32, at most the size asked
    for: the rest of the file is converted to [u32] before the two are compared, so
    that a read 4 GiB before the end of a file returns nothing. *)
Theorem read_size_wraps req i fh off sz fl lo st file :
  contents st !! i = Some file → check_file_handle_read fh = true → 0 ≤ off < 2 ^ 63 → 0 ≤ sz →
  let rest := bytes_left file off in
  ∃ bytes, SimpleFS_call req (Fs_read i fh off sz fl lo) st = Ret (RData bytes, st) ∧
    Z.of_nat (length bytes) = Z.min sz (rest `mod` 2 ^ 32) ∧
    (rest = 2 ^ 32 → bytes = []).
Proof.
  intros Hc Hfh Hoff Hsz rest. cbn [SimpleFS_call].
  unfold SimpleFS_read, open_content, gets, lift, mbind, stateM_bind.
  rewrite (proj2 (Z.leb_le 0 off)) by lia. rewrite Hfh. cbn -[wrap]. rewrite Hc. cbn -[wrap].
  rewrite (wrap_small 64 off) by lia. unfold saturating_sub. fold (bytes_left file off). fold rest. unfold wrap.
  set (n := Z.min sz (rest `mod` 2 ^ 32)).
  assert (0 ≤ rest `mod` 2 ^ 32 ≤ rest) as [Hm Hm'].
  { split; [by apply Z.mod_pos_bound|]. apply Z.mod_le; [|done]. unfold rest, bytes_left. lia. }
  assert (0 ≤ n ≤ saturating_sub (Z.of_nat (length file)) off) as Hn.
  { split; [unfold n; lia|]. etransitivity; [apply Z.le_min_r|exact Hm']. }
  pose proof (read_exact_at_total file n off (proj1 Hoff) Hn) as (bytes & -> & Hbytes)%yields_Ret.
  exists bytes. split_and!; [done..|]. intros Hr. apply length_zero_iff_nil.
  unfold n in Hbytes. rewrite Hr, Z_mod_same_full in Hbytes. lia.
Qed.

Lemma FileAttr_from_size a : attrs_ok a → ∃ attr, FileAttr_from a = Ret attr ∧ attr_size' attr = size a.
Proof.
  intros Ha. pose proof (FileAttr_from_spec a Ha) as (attr & Hf & _)%yields_Ret.
  exists attr. split; [done|]. unfold FileAttr_from in Hf. outcome_inv. done.
Qed.

Lemma truncate_spec i sz u g st a file :
  inodes st !! i = Some a → inode a = i → contents st !! i = Some file → 0 ≤ sz ≤ MAX_FILE_SIZE →
  check_access (uid a) (gid a) (mode a) u g W_OK = true →
  ∃ st' a', truncate i sz u g st = Ret (inr a', st') ∧
    contents st' = <[i := resize (Z.to_nat sz) 0 file]> (contents st) ∧
    inodes st' = <[i := a']> (inodes st) ∧ size a' = sz.
Proof.
  intros Ha Hi Hc Hsz Hacc.
  set (st1 := set_contents <[i := resize (Z.to_nat sz) 0 file]> st).
  destruct (stamp_changed_modified_eq (with_size sz a) st1) as (t & t' & Hstamp).
  unfold truncate, or_err, open_content, write_content, get_inode, gets, modify, lift, mbind, stateM_bind.
  destruct (Z.ltb_spec MAX_FILE_SIZE sz) as [|_]; [lia|].
  cbn -[stamp_changed_modified]. rewrite Ha. cbn -[stamp_changed_modified]. rewrite Hacc.
  cbn -[stamp_changed_modified]. rewrite Hc. cbn -[stamp_changed_modified]. fold st1. rewrite Hstamp.
  set (b := with_modified t' (with_changed t (with_size sz a))).
  destruct (clear_fields b a) as (Hci & Hcs & Hcm); [done..|].
  eexists _, (clear_suid_sgid b). split; [reflexivity|]. cbn. rewrite Hci, Hi, Hcs. done.
Qed.

(** The call that truncates a file and touches it. *)
Definition truncate_and_touch (i sz : Z) : FsCall :=
  Fs_setattr i None None None (Some sz) None (Some Now) None None None None None None.

(** A [setattr] that sets a size and a modification time loses the size: the
    attributes read before the truncation are written back after it, so that the
    content has the new length and the inode, and the reply, the old size. *)
Theorem setattr_size_and_time_loses_size req i sz st a file :
  inodes st !! i = Some a → inode a = i → attrs_ok a → contents st !! i = Some file →
  0 ≤ sz ≤ MAX_FILE_SIZE → access_to a req W_OK = true →
  ∃ attr st' a' file',
    SimpleFS_call req (truncate_and_touch i sz) st = Ret (RAttr attr, st') ∧
    contents st' !! i = Some file' ∧ Z.of_nat (length file') = sz ∧
    inodes st' !! i = Some a' ∧ size a' = size a ∧ attr_size' attr = size a.
Proof.
  intros Ha Hi Haok Hc Hsz Hacc.
  destruct (truncate_spec i sz (req_uid req) (req_gid req) st a file) as (st1 & a1 & Ht & Hc1 & Hi1 & _);
    [done..|].
  destruct (time_now_eq st1) as (now & Hok & Hnow).
  set (a' := with_changed now (with_modified now a)).
  destruct (FileAttr_from_size a') as (attr & Hattr & Has).
  { destruct Haok as (? & ? & _). by split. }
  assert (negb (uid a =? req_uid req) && negb (req_uid req =? 0) && negb true = false) as H1
    by by rewrite andb_false_r.
  assert (negb (uid a =? req_uid req) && negb (access_to a req W_OK) = false) as H2
    by by rewrite Hacc, andb_false_r.
  exists attr, (set_inodes <[i := a']> (set_clock (S (clock st1)) st1)), a', (resize (Z.to_nat sz) 0 file).
  split.
  - unfold truncate_and_touch. cbn [SimpleFS_call]. unfold SimpleFS_setattr, or_reply, get_inode at 1, gets.
    unfold setattr_truncate, mbind, stateM_bind. cbn -[truncate time_now setattr_time]. rewrite Ha. cbn -[truncate time_now setattr_time].
    rewrite Ht, Hnow. unfold setattr_time. cbv zeta. rewrite H1, H2.
    unfold unwrap_result, write_inode, modify, mbind, stateM_bind. cbn -[reply_attr].
    fold a'. rewrite Hi, lookup_insert_eq. cbn -[reply_attr].
    unfold reply_attr, lift, mbind, stateM_bind. fold a'. by rewrite Hattr.
  - cbn [contents inodes set_inodes set_clock]. rewrite Hc1, !lookup_insert_eq.
    split_and!; try done. rewrite length_resize. lia.
Qed.
End contents.

(** ** Extended attributes *)

(** The specification: a map from names to values, guarded by the namespace rules. *)
Section xattr_spec.
Context `{C : Libc, F : LibcFs}.

Definition xattr_names (m : gmap (list Z) (list Z)) : list Z :=
  concat ((λ '(key, _), key ++ [0]) <$> BTreeMap_iter m).

Definition xattr_spec (check : list Z → Z → option Z) (c : FsCall) (m : gmap (list Z) (list Z))
    : FsReply * gmap (list Z) (list Z) :=
  match c with
  | Fs_setxattr _ key v _ _ =>
      match check key W_OK with Some e => (RError e, m) | None => (ROk, <[key := v]> m) end
  | Fs_removexattr _ key =>
      match check key W_OK with
      | Some e => (RError e, m)
      | None => if decide (is_Some (m !! key)) then (ROk, delete key m) else (RError ENODATA, m)
      end
  | Fs_getxattr _ key sz =>
      match check key R_OK with
      | Some e => (RError e, m)
      | None => match m !! key with Some v => (xattr_reply v sz, m) | None => (RError ENODATA, m) end
      end
  | Fs_listxattr _ sz => (xattr_reply (xattr_names m) sz, m)
  | _ => (RNone, m)
  end.
Definition xattr_call (i : Z) (c : FsCall) : Prop :=
  match c with
  | Fs_setxattr j _ _ _ _ | Fs_removexattr j _ | Fs_getxattr j _ _ | Fs_listxattr j _ => j = i
  | _ => False
  end.
(** What the checks look at. *)
Definition same_rights (a b : InodeAttributes) : Prop :=
  uid a = uid b ∧ gid a = gid b ∧ mode a = mode b.
Lemma xattr_check_same key mask a b req :
  same_rights a b → xattr_access_check key mask a req = xattr_access_check key mask b req.
Proof.
  intros (Hu & Hg & Hm). unfold xattr_access_check, access_to. by rewrite Hu, Hg, Hm.
Qed.

(** The names of a listing, as a client splits them. *)
Fixpoint split_names (word bytes : list Z) : list (list Z) :=
  match bytes with
  | [] => []
  | c :: bytes => if c =? 0 then word :: split_names [] bytes else split_names (word ++ [c]) bytes
  end.
Lemma split_names_app word name rest :
  0 ∉ name → split_names word (name ++ 0 :: rest) = (word ++ name) :: split_names [] rest.
Proof.
  revert word. induction name as [|c name IH]; intros word Hn; simpl; [by rewrite app_nil_r|].
  apply not_elem_of_cons in Hn as [Hc Hn]. rewrite (proj2 (Z.eqb_neq c 0)) by done.
  rewrite IH by done. by rewrite <- app_assoc.
Qed.
Lemma split_xattr_names m :
  (∀ key, is_Some (m !! key) → 0 ∉ key) → split_names [] (xattr_names m) = (BTreeMap_iter m).*1.
Proof.
  intros Hm. unfold xattr_names.
  assert (∀ key v, (key, v) ∈ BTreeMap_iter m → 0 ∉ key) as Hk.
  { intros key v Hin%BTreeMap_iter_elem. eauto. }
  induction (BTreeMap_iter m) as [|[key v] l IH]; [done|]. rewrite !fmap_cons. cbn [concat fst].
  rewrite <- app_assoc. cbn [app]. rewrite split_names_app by (eapply Hk; left). simpl.
  f_equal. apply IH. intros key' v' Hin. eapply Hk. by right.
Qed.
End xattr_spec.

Section xattrs.
Context `{B : Build, C : Libc, F : LibcFs, H : Host, HL : !HostLaws H}.

Definition xattrs_become (i : Z) (a : InodeAttributes) (st : SimpleFS) (out : outcome (FsReply * SimpleFS))
    (p : FsReply * gmap (list Z) (list Z)) : Prop :=
  ∃ st' a', out = Ret (p.1, st') ∧
    inodes st' = <[i := a']> (inodes st) ∧ inode a' = i ∧ same_rights a' a ∧ size a' = size a ∧
    xattrs a' = p.2 ∧ contents st' = contents st.
Lemma xattrs_stay i a st r :
  inodes st !! i = Some a → inode a = i → xattrs_become i a st (Ret (r, st)) (r, xattrs a).
Proof. intros Ha Hi. exists st, a. simpl. by rewrite insert_id. Qed.
Lemma xattrs_stored i a st m :
  inode a = i →
  xattrs_become i a st
    ((attrs ← stamp_changed (with_xattrs m a); write_inode attrs;; mret ROk) st) (ROk, m).
Proof.
  intros Hi. destruct (stamp_changed_eq (with_xattrs m a) st) as [t Ht].
  rewrite (bindM_eq _ _ _ _ _ Ht). set (a' := with_changed t (with_xattrs m a)).
  exists (set_inodes <[i := a']> (set_clock (S (clock st)) st)), a'.
  unfold write_inode, modify, mbind, stateM_bind. cbn. by rewrite Hi.
Qed.

End xattrs.

(** ** Listings *)

Section listing.
Context `{B : Build, C : Libc, F : LibcFs, H : Host, CL : !LibcLaws C}.

(** An entry as it is listed. *)
Definition typed : list Z * (Z * FileKind) → OsStr * (Z * FileType) :=
  λ '(n, (i, k)), (n, (i, FileType_from k)).
(** A READDIR into a buffer of [max] bytes. *)
Definition SimpleFS_read_page (i max offset : Z) : stateM SimpleFS (option EntListBuf) :=
  r ← SimpleFS_readdir i offset (DirEntList_new max);
  mret match r with RDirectory b => Some b | _ => None end.

Lemma readdir_loop_page es off index b :
  readdir_loop es off index b = push_page (dirents (off + index) (typed <$> es)) b.
Proof.
  revert index b. induction es as [|[n [i t]] es IH]; intros index b; [done|]. cbn.
  destruct (DirEntList_push _ b) as [[[] b']| |]; [done| |done..]. cbn. rewrite IH.
  by rewrite Z.add_assoc.
Qed.

(** What [readdir] can list: the entries have the widths of their types. *)
Definition listable (es : Directory_) : Prop :=
  Z.of_nat (base.size es) < 2 ^ 63 ∧
  ∀ n i k, es !! n = Some (i, k) → 0 ≤ i < 2 ^ 64 ∧ Z.of_nat (length n) < 2 ^ 32.

Lemma BTreeMap_iter_length {A} (m : gmap (list Z) A) : length (BTreeMap_iter m) = base.size m.
Proof. unfold BTreeMap_iter. by rewrite merge_sort_Permutation, length_map_to_list. Qed.

Lemma listable_entries es (P : OsStr * (Z * FileType) → Prop) :
  (∀ n i k, es !! n = Some (i, k) → P (n, (i, FileType_from k))) → Forall P (typed <$> BTreeMap_iter es).
Proof.
  intros HP. apply Forall_fmap, Forall_forall. intros [n [i k]] Hin.
  apply HP. by apply BTreeMap_iter_elem.
Qed.

Lemma SimpleFS_read_page_spec i st es p max :
  dir_of st i = Some es → 0 ≤ p → listable es →
  SimpleFS_read_page i max p st =
    (b ← push_page (dirents p (drop (Z.to_nat p) (typed <$> BTreeMap_iter es))) (DirEntList_new max);
     Ret (Some b, st)).
Proof.
  intros Hd Hp Hes.
  assert (∃ bytes, contents st !! i = Some bytes ∧ deserialize bytes = Some es) as (bytes & Hbytes & Hde).
  { unfold dir_of in Hd. destruct (inodes st !! i); [simpl in Hd|done]. case_decide; [|done].
    destruct (contents st !! i) as [bytes|]; [|done]. by exists bytes. }
  unfold SimpleFS_read_page, SimpleFS_readdir. rewrite (proj2 (Z.leb_le 0 p)) by done.
  unfold or_reply, get_directory_content, open_content, gets, lift, mbind, stateM_bind.
  cbn -[readdir_loop BTreeMap_iter drop]. rewrite Hbytes. cbn -[readdir_loop BTreeMap_iter drop].
  rewrite Hde. cbn -[readdir_loop BTreeMap_iter drop].
  rewrite readdir_loop_page, Z.add_0_r, fmap_drop. by destruct (push_page _ _) as [b| |].
Qed.

(** The order of byte strings is total. *)
Lemma bytes_leb_spec a b :
  bytes_leb a b = true ↔
  match a, b with
  | [], _ => True
  | _ :: _, [] => False
  | x :: a, y :: b => x < y ∨ x = y ∧ bytes_leb a b = true
  end.
Proof.
  destruct a as [|x a], b as [|y b]; simpl; try done.
  by rewrite orb_true_iff, andb_true_iff, Z.ltb_lt, Z.eqb_eq.
Qed.
#[export] Instance entry_le_trans {A} : Transitive (@entry_le A).
Proof.
  intros [a ?] [b ?] [c ?]. unfold entry_le. cbn [fst]. revert b c.
  induction a as [|x a IH]; intros b c Hab Hbc; [done|].
  apply bytes_leb_spec. apply bytes_leb_spec in Hab, Hbc.
  destruct b as [|y b]; [done|]. destruct c as [|z c]; [done|].
  destruct Hab as [|[-> Hab]], Hbc as [|[-> Hbc]]; [left; lia|left; lia|left; lia|right; eauto].
Qed.
#[export] Instance entry_le_total {A} : Total (@entry_le A).
Proof.
  intros [a ?] [b ?]. unfold entry_le. cbn [fst]. revert b.
  induction a as [|x a IH]; intros [|y b]; [by left|by left|by right|].
  rewrite (bytes_leb_spec (x :: a)), (bytes_leb_spec (y :: b)).
  destruct (Z.lt_trichotomy x y) as [|[<-|]]; [by left; left| |by right; left].
  destruct (IH b); [left|right]; by right.
Qed.

(** C31: A client that reads a directory page by page sees every entry exactly once,
    with its inode, type and name, in the order of the names, whatever the size of
    the pages, as long as any single entry fits into one. *)
Theorem readdir_complete fuel i st es max :
  dir_of st i = Some es → listable es →
  (∀ n v, es !! n = Some v → Z.of_nat (length n) + 31 ≤ max) → (base.size es < fuel)%nat →
  ∃ l, list_pages (SimpleFS_read_page i max) fuel 0 st = Ret (seen <$> dirents 0 (typed <$> l), st) ∧
    l ≡ₚ map_to_list es ∧ StronglySorted entry_le l.
Proof.
  intros Hd Hes Hmax Hf. exists (BTreeMap_iter es). split; [|split].
  - set (l := typed <$> BTreeMap_iter es).
    assert (length l = base.size es) as Hl by by unfold l; rewrite length_fmap, BTreeMap_iter_length.
    assert (dirents_ok l) as Hok by (apply listable_entries; intros n j k Hn; by eapply (proj2 Hes)).
    assert (Forall (λ e, Z.of_nat (length e.1) + 31 ≤ max) l) as Hroom
      by (apply listable_entries; intros n j k Hn; by apply (Hmax _ _ Hn)).
    destruct Hes as [Hsz Hes].
    assert (yields (list_pages (SimpleFS_read_page i max) fuel 0 st)
      (λ '(r, st'), st' = st ∧ r = seen <$> dirents 0 (drop 0 l))) as Hy.
    { apply (list_pages_complete (λ st', st' = st) _ l max); [lia|done|done| |done|lia|change (Z.to_nat 0) with 0%nat; rewrite drop_0; lia].
      intros p st' -> Hp. rewrite (SimpleFS_read_page_spec i st es p max Hd) by (done || lia).
      destruct (page_spec l p max) as (k & b & Hb & _); [lia..|done|done|].
      fold l. rewrite Hb. split; [done|]. by exists b. }
    apply yields_Ret in Hy as ([r st'] & -> & -> & ->). done.
  - apply merge_sort_Permutation.
  - apply (StronglySorted_merge_sort entry_le).
Qed.
End listing.

(** ** Witnesses *)

(** The room of a tree, read off the files. *)
Definition room_check (st : SimpleFS) : bool :=
  (default FUSE_ROOT_ID (superblock st) + 1 <? 2 ^ 64) && (0 <=? next_file_handle st) &&
  (next_file_handle st <? 2 ^ 62) &&
  bool_decide (map_Forall (λ _ a, hardlinks a + 1 < 2 ^ 32 ∧ open_file_handles a + 1 < 2 ^ 64) (inodes st)).
Lemma room_check_ok {H : Host} st T : rep st T → room_check st = true → room T.
Proof.
  unfold room_check. rewrite !andb_true_iff, !Z.ltb_lt, Z.leb_le, bool_decide_eq_true.
  intros R [[[Hi Hh] Hh'] Hc]. split.
  - by rewrite (rep_last _ _ R).
  - by rewrite (rep_handle _ _ R).
  - intros i nd Hnd. rewrite (rep_node _ _ _ R) in Hnd. apply fmap_Some in Hnd as (a & Ha & ->).
    by apply (Hc i a).
Qed.

(** The user creates and opens the file f in the root, and removes it again. *)
Definition demo_create_call : FsCall := Fs_create FUSE_ROOT_ID [102] 33188 0 2.
Definition demo_run (c : FsCall) (st : SimpleFS) : FsReply * SimpleFS :=
  match @SimpleFS_call true linux linux_fs demo_host demo_user c st with
  | Ret p => p
  | _ => (RNone, st)
  end.
Definition demo_created : SimpleFS := (demo_run demo_create_call demo_root).2.
Definition demo_unlinked : SimpleFS := (demo_run (Fs_unlink FUSE_ROOT_ID [102]) demo_created).2.
Definition demo_released : SimpleFS := (demo_run (Fs_release 2 1 0 None false) demo_unlinked).2.
Definition demo_handle : Z :=
  match (demo_run demo_create_call demo_root).1 with RCreated _ fh _ => fh | _ => 0 end.

Lemma demo_create_eq :
  @SimpleFS_call true linux linux_fs demo_host demo_user demo_create_call demo_root
  = Ret ((demo_run demo_create_call demo_root).1, demo_created).
Proof. vm_compute. reflexivity. Qed.
Lemma demo_create_ok : @vfs_ok linux linux_fs demo_host demo_user root_tree demo_create_call.
Proof. split; [exact root_is_dir|]. by repeat split. Qed.
Lemma demo_created_reachable : @reachable true linux linux_fs demo_host demo_created.
Proof.
  eapply reach_call; [by eapply reach_new, demo_root_init|exact demo_root_rep|exact demo_root_room
    |exact demo_create_ok|exact demo_create_eq].
Qed.

(** The state after two more calls. *)
Lemma demo_serves :
  ∃ r r', @serves true linux linux_fs demo_host demo_created
    [(Fs_unlink FUSE_ROOT_ID [102], r); (Fs_release 2 1 0 None false, r')] demo_released.
Proof.
  destruct (@reachable_tree true linux linux_fs demo_host linux_laws demo_host_laws linux_fs_laws
    demo_created demo_created_reachable) as (T & R & Hok).
  assert (room T) as Hroom.
  { apply (room_check_ok demo_created T R). vm_compute. reflexivity. }
  assert (@vfs_ok linux linux_fs demo_host demo_user T (Fs_unlink FUSE_ROOT_ID [102])) as Hv.
  { split; [|split; [done|]].
    - assert (is_Some (inodes demo_created !! FUSE_ROOT_ID)) as [a Ha] by (vm_compute; eauto).
      exists (node_of a). split; [by rewrite (rep_node _ _ _ R), Ha|].
      vm_compute in Ha. injection Ha as <-. reflexivity.
    - intros i k. rewrite (rep_edges _ _ R). vm_compute. by intros [= <- <-]. }
  assert (@SimpleFS_call true linux linux_fs demo_host demo_user (Fs_unlink FUSE_ROOT_ID [102]) demo_created
    = Ret (ROk, demo_unlinked)) as Hu by (vm_compute; reflexivity).
  assert (@reachable true linux linux_fs demo_host demo_unlinked) as Hru.
  { eapply reach_call; [exact demo_created_reachable|exact R|exact Hroom|exact Hv|exact Hu]. }
  destruct (@reachable_tree true linux linux_fs demo_host linux_laws demo_host_laws linux_fs_laws
    demo_unlinked Hru) as (T' & R' & Hok').
  assert (room T') as Hroom'.
  { apply (room_check_ok demo_unlinked T' R'). vm_compute. reflexivity. }
  exists ROk, ROk. eapply serves_cons; [exact R|exact Hroom|exact Hv|exact Hu|].
  eapply (serves_cons demo_unlinked T' demo_user); [exact R'|exact Hroom'| | |apply serves_nil].
  - intros nd. rewrite (rep_node _ _ _ R').
    intros (a & Ha & ->)%fmap_Some. vm_compute in Ha. injection Ha as <-. reflexivity.
  - vm_compute. reflexivity.
Qed.

(** The removed and released file is still there. *)
Lemma opened_inode_leaks_witness : is_Some (contents demo_released !! 2).
Proof.
  assert (is_Some (inodes demo_created !! 2)) as [a Ha] by (vm_compute; eauto).
  destruct demo_serves as (r & r' & Hs).
  eapply (@opened_inode_leaks true linux linux_fs demo_host linux_laws demo_host_laws linux_fs_laws
    demo_created 2 a); [exact demo_created_reachable|exact Ha| |exact Hs].
  vm_compute in Ha. injection Ha as <-. reflexivity.
Defined.

Lemma handles_unique_witness :
  ∃ tr st', @serves true linux linux_fs demo_host demo_root tr st' ∧
    omap handle_of tr = [demo_handle] ∧ NoDup (omap handle_of tr).
Proof.
  assert (@serves true linux linux_fs demo_host demo_root
    [(demo_create_call, (demo_run demo_create_call demo_root).1)] demo_created) as Hs.
  { eapply serves_cons; [exact demo_root_rep|exact demo_root_room|exact demo_create_ok
      |exact demo_create_eq|apply serves_nil]. }
  eexists _, _. split; [exact Hs|]. split; [vm_compute; reflexivity|].
  apply (@handles_unique true linux linux_fs demo_host linux_laws demo_host_laws linux_fs_laws
    demo_root _ demo_created); [by eapply reach_new, demo_root_init|exact Hs].
Defined.

Definition demo_file_attrs : InodeAttributes :=
  match inodes demo_created !! 2 with Some a => a | None => demo_root_attrs end.
Lemma demo_file_inode : inodes demo_created !! 2 = Some demo_file_attrs.
Proof. vm_compute. reflexivity. Qed.


(** A file of 4 GiB reads as empty. *)
Lemma read_size_wraps_witness :
  ∃ st, @SimpleFS_call true linux linux_fs demo_host demo_user (Fs_read 2 demo_handle 0 4096 0 None) st
    = Ret (RData [], st).
Proof.
  set (n := Z.to_nat (2 ^ 32)). assert (Z.of_nat n = 2 ^ 32) as Hn by (apply Z2Nat.id; lia).
  exists (set_contents (λ _, {[2 := replicate n 0]}) demo_created).
  destruct (@read_size_wraps true linux linux_fs demo_host demo_user 2 demo_handle 0 4096 0 None
    (set_contents (λ _, {[2 := replicate n 0]}) demo_created) (replicate n 0)) as (bytes & Hb & _ & He).
  - clear Hn. clearbody n. apply lookup_singleton_eq.
  - vm_compute. reflexivity.
  - lia.
  - lia.
  - rewrite Hb, He; [reflexivity|]. unfold bytes_left. rewrite length_replicate, Hn. reflexivity.
Defined.

Lemma setattr_size_and_time_loses_size_witness :
  ∃ attr st' file', @SimpleFS_call true linux linux_fs demo_host demo_user
      (truncate_and_touch 2 7) demo_created
      = Ret (RAttr attr, st') ∧
    contents st' !! 2 = Some file' ∧ Z.of_nat (length file') = 7 ∧ attr_size' attr = 0.
Proof.
  destruct (@setattr_size_and_time_loses_size true linux linux_fs demo_host demo_host_laws demo_user 2 7
    demo_created demo_file_attrs []) as (attr & st' & a' & file' & Hc & Hf & Hl & _ & _ & Hs);
    [exact demo_file_inode|reflexivity| |vm_compute; reflexivity|unfold MAX_FILE_SIZE; lia
    |vm_compute; reflexivity|].
  { vm_compute. repeat split; discriminate. }
  exists attr, st', file'. split; [exact Hc|]. split; [exact Hf|]. split; [exact Hl|exact Hs].
Defined.


(** The root with the file f, listed in pages of 64 bytes. *)
Lemma readdir_complete_witness :
  ∃ l, list_pages (@SimpleFS_read_page linux demo_host FUSE_ROOT_ID 64) 5 0 demo_created
      = Ret (@seen linux <$> dirents 0 (typed <$> l), demo_created) ∧ l.*1 = [dot; [102]].
Proof.
  destruct (@readdir_complete linux demo_host linux_laws 5 FUSE_ROOT_ID demo_created
    (<[[102] := (2, KFile)]> {[dot := (1, KDirectory)]}) 64) as (l & Hl & Hp & Hs);
    [vm_compute; reflexivity| | |vm_compute; lia|].
  { split; [done|]. intros n i k [[<- [= <- <-]]|[_ [<- [= <- <-]]%lookup_singleton_Some]]%lookup_insert_Some;
      by repeat split. }
  { intros n v [[<- _]|[_ [<- _]%lookup_singleton_Some]]%lookup_insert_Some; done. }
  assert (match list_pages (@SimpleFS_read_page linux demo_host FUSE_ROOT_ID 64) 5 0 demo_created with
          | Ret (x, _) => snd <$> x | _ => [] end = [dot; [102]]) as E by (vm_compute; reflexivity).
  rewrite Hl, <- list_fmap_compose in E.
  exists l. split; [exact Hl|]. transitivity ((typed <$> l).*1); [|rewrite <- (dirents_names 0); exact E].
  rewrite <- list_fmap_compose. apply list_fmap_ext. by intros ? [? [? ?]].
Defined.
