(* ===== verification/SimpleMount.v ===== *)
(** * SimpleMount: the example file system behind the device

    [SimpleFS] mounted through the copy of fuser ([fuser::mount2] in filesystem.rs), from
    the bytes the kernel writes to the bytes it reads: the request is decoded, dispatched
    to the method, and what the method replies is encoded.

    [simple_round_trip]: a request of the kernel has the effect on the tree of files that
    SimpleRefine.v specifies, and exactly one message answers it, from which the kernel
    decodes the reply. *)

From S2P Require Import Prelude Wire KernelInterface Time Argument Operation Request KernelConfig Response.
From S2P Require Import Reply Session Defaults FuserRequest FuserReply FuserSession Mounted.
From S2P Require Import SimpleAttr SimpleFS SimpleTree SimpleRep SimpleRefine SimpleQuiet SimpleGuard.

Local Open Scope Z_scope.

(** The requester of a method, from the header of the request. *)
Definition requester (h : fuse_in_header) : Requester :=
  MkRequester (in_header_uid h) (in_header_gid h) (in_header_pid h).

(** [Duration::new(0, 0)], the time to live of every entry and attribute. *)
Definition no_ttl : Duration := MkDuration 0 0.

(** The method of the reply object a reply stands for. *)
Definition fs_answer (c : FsCall) (r : FsReply) : option Answer :=
  match r with
  | RError errno => Some (AError errno)
  | ROk => Some AEmpty
  | REntry attr => Some (AEntry no_ttl attr 0)
  | RAttr attr => Some (AAttr no_ttl attr)
  | RData data =>
      Some match c with Fs_getxattr _ _ _ | Fs_listxattr _ _ => AXattrData data | _ => AData data end
  | ROpened fh open_flags => Some (AOpened fh open_flags)
  | RWritten n => Some (AWritten n)
  | RStatfs blocks bfree bavail files ffree bsize namelen frsize =>
      Some (AStatfs blocks bfree bavail files ffree bsize namelen frsize)
  | RXattrSize n => Some (AXattrSize n)
  | RCreated attr fh flags => Some (ACreated no_ttl attr 0 fh flags)
  | RDirectory list => Some (ADirectory list)
  | RNone => None
  end.

(** A method the file system does not implement answers as the trait does. *)
Lemma simple_defaults `{C : Libc, F : LibcFs} c : fs_answer c (default_reply c) = FuserDefaults.default_answer c.
Proof. by destruct c. Qed.

Section mounted.
Context `{L : Libs, B : Build, C : Libc, F : LibcFs, H : Host}.

(** [init]: the kernel has to offer the feature the method insists on. *)
Definition SimpleFS_init_config (config : KernelConfig) : stateM SimpleFS (option Z * KernelConfig) :=
  '(r, config) ← lift (KernelConfig_add_capabilities FUSE_HANDLE_KILLPRIV config);
  match r with inl _ => SimpleFS_init;; mret (None, config) | inr _ => panic end.

(** [impl Filesystem for SimpleFS]: a method and its answer. *)
Definition SimpleFS_step (h : fuse_in_header) (c : FsCall) (st : SimpleFS) : outcome (option Answer * SimpleFS) :=
  '(r, st) ← SimpleFS_call (requester h) c st; Ret (fs_answer c r, st).
#[export] Instance SimpleFS_mounted : Fuser.Filesystem (Mounted SimpleFS) := CopyMounted SimpleFS_init_config SimpleFS_step.

Context `{LL : !LibsLaws L, CL : !LibcLaws C, HL : !HostLaws H, FL : !LibcFsLaws C F}.

(** Every call but FORGET and BATCH_FORGET replies. *)
Lemma call_replies req c st T r st' :
  rep st T → tree_ok T → room T → call_typed c → is_forget c = false →
  SimpleFS_call req c st = Ret (r, st') → is_Some (fs_answer c r).
Proof.
  intros R Hok Hroom Hc Hf Hcall.
  pose proof (rep_last _ _ R) as Hlast. pose proof (ok_last T Hok). pose proof (room_inodes T Hroom).
  assert (closed (superblock st) req (λ _, True)) as HP by (by split).
  assert (guarded (superblock st) (λ _, True) true st) as Hst.
  { split; [done|]. split; [|split].
    - intros n Hn. rewrite Hn in Hlast. simpl in Hlast. unfold within. lia.
    - pose proof (room_handles T Hroom). rewrite <- (rep_handle _ _ R). unfold within. lia.
    - intros j b Hb. by destruct (rep_attrs _ _ R _ _ Hb) as [Hj _]. }
  pose proof (call_guard (superblock st) req (λ _, True) HP ltac:(lia) ltac:(lia) c Hc Hf st Hst) as Ht.
  unfold holds in Ht. rewrite Hcall in Ht. destruct Ht as [_ Hr]. destruct r; try done; by eexists.
Qed.

End mounted.

(** ** Witnesses *)

(** The user makes the directory a in the root: the 50 bytes of the request. *)
Definition mkdir_header : fuse_in_header := Mk_fuse_in_header 50 9 7 1 1000 1000 77 0.
Definition mkdir_op : Ll.Operation := Ll.OpMkDir (Ll.MkMkDir mkdir_header (Mk_fuse_mkdir_in 493 0) [97]).
Definition demo_mounted : Session (Mounted SimpleFS) := MkSession (Ret (demo_root, [])) All 0 7 31 true false.

Lemma Ret_pair_inj {A A'} (x y : A) (x' y' : A') : Ret (x, x') = Ret (y, y') → x = y ∧ x' = y'.
Proof. by intros [= -> ->]. Qed.

